(* ===== verification/_CoqProject ===== *)
-Q . S2P
Prelude.v
RustStd.v
IpAddr.v
Peers.v
Effects.v
RelayCodec.v
RelayBatch.v
RelayClient.v
RelayServer.v
Kdf.v
Net.v
Model.v
Stats.v
GeoWire.v
GeoData.v
Config.v
Routing.v
Dataplane.v
Kernel.v
FakeStore.v
Resolver.v
Upstream.v
Controller.v
Server.v
ServerSafety.v
Onboarding.v
Auth.v
AuthSafety.v
Devices.v
Ssh.v
Children.v
Managed.v
ManagedSafety.v
Fleet.v
Network.v
NetworkSafety.v
Pins.v
PinsSafety.v
Tls.v
TlsSafety.v
Startup.v
DnsServer.v
Api.v
ApiManaged.v
Assets.v
