(* ===== verification/Prelude.v ===== *)
(** * Gofro router: a verification library of the Rust workspace under src/crates

    Gofro is a router appliance with a VPN.  Three programs share the work.

    - [gofro-agent] runs on the router.  It keeps the desired configuration, renders
      the nftables scripts that mark traffic for a tunnel, answers DNS with fake
      addresses so that routes can follow names, serves the panel, and manages
      servers over SSH.
    - [gofro-server] runs on a server.  It keeps the peers of a WireGuard
      interface and the metadata of who owns them.
    - [gofro-relay] carries WireGuard datagrams inside an obfuscating UDP
      envelope, as a client on the router and as a server beside WireGuard.

    The library follows the crates: a file per component, its state as a record, every
    operation a definition that runs, then its lemmas and theorems.  A file
    [XSafety] holds the theorems of [X] where they fill a file of their own.

    ** Shared ground

    Prelude.v has the result type [result] with its monad, errors as chains of
    messages ([error]) and the markers that callers look for, machine integers as [Z] with
    their width ([is_u], [wrap]), byte buffers ([splice]), hint databases and the tactics on results.  RustStd.v
    models what the code uses of [str], integers and [Ipv4Addr]: strings are their UTF-8 bytes.
    IpAddr.v reads and prints addresses as [std::net] does.  Effects.v has the state and
    error monad of the handlers, the [preserves] calculus for preorders on states
    and [completes] for runs that come through.  Net.v states what is relied on of [ipnet::Ipv4Net].

    ** The relay: crates/gofro-relay

    RelayCodec.v (lib.rs, codec.rs): the MTU budget, the key stream, [encode], [decode],
    [packet_seed].  RelayBatch.v (batch.rs, client.rs): batches, [connect_loop] and the bodies
    of both forwarding loops.  RelayClient.v (client.rs): [run] and its two threads in any
    order; [client_session_faithful] says that both directions carry exactly the
    datagrams they were given, in order.  RelayServer.v (server.rs): the session table
    and the return threads as a step relation, its invariant, and that a reply reaches the
    client it belongs to.

    ** Keys and status: crates/gofro-kdf, crates/wireguard-status

    Kdf.v: the checkpointed scrypt equals the dense one of RFC 7914 on every input.  Peers.v: names,
    keys and the dump of WireGuard.

    ** The data plane of the agent

    Model.v (model.rs), Stats.v (resources.rs, stats.rs).  GeoWire.v and GeoData.v (geodata/wire.rs,
    geodata.rs): a bounded protobuf reader and the lookups over it.  Config.v (config.rs): validation,
    normalisation, loading and saving.  Routing.v (routing.rs): a configuration compiled to a policy, and its
    decisions.  Dataplane.v (dataplane.rs): the scripts rendered from a policy, and the egress of its targets.
    Kernel.v reads the rendered text of the mark rules back, with a parser of nft's syntax that knows
    nothing of the printer: the first rule of the text that holds an address sets the mark of the
    target the policy answers.  FakeStore.v
    (fake_dns/store.rs): the leases of fake addresses.  Resolver.v (fake_dns/resolver.rs): where a name is
    asked and how an answer is rewritten; Upstream.v: the sockets it asks through;
    DnsServer.v (fake_dns/server.rs): permits, deadlines and interleaved tasks, over the interface
    [Answers] that the resolver implements.

    ** The control plane of the agent

    Controller.v (controller.rs, controller/): a change is an edit of a copy, applied to
    kernel and network under a guard, saved, then published, or taken back; the
    operations of the data plane are called as they are defined there.  Network.v
    (network.rs): the tunnel, its peer and the relay.  Startup.v (main.rs): what is
    checked first and the guard that stays until the controller has reconciled.
    Tls.v and TlsSafety.v (tls.rs): the certificate of the panel.  Onboarding.v and Auth.v
    (onboarding.rs, auth.rs): passwords, sessions, the first setup.  Devices.v (devices.rs):
    the devices of the LAN.

    ** Servers managed over SSH

    Ssh.v (managed/ssh.rs): targets, host keys, stages, what a failed command says.  Children.v
    (managed/ssh.rs, devices.rs): the processes, their pipes, deadlines and kills; [ssh_supervised] says
    that every run ends as one of the outcomes [ssh_run] that the operations are
    stated over.  Managed.v (managed.rs, managed/bootstrap.rs): the operations and the enrolment.  Pins.v
    (managed/pins.rs): the pins of host keys.  Server.v (gofro-server): the commands at the other end.
    Fleet.v joins both programs: what one prints the other reads.

    ** The panel

    Api.v (api.rs), ApiManaged.v (api/managed.rs) and Assets.v (api/assets.rs): routes, middleware, handlers over the
    operations of the other files, and the built files of the page.

    ** What the theorems show

    - Transactions.  [configuration_transaction]: after a change of the configuration, the switch of
      automatic updates apart, the tables, clients and network of the router are those of the
      new configuration, or of the old one, or the error says that a rollback failed.
      [operations_refine]: the commands that change the peers of a server refine an abstract registry;
      the plain removal has no rollback, and its failing runs are stated on their own.
      [server_update_complete_or_undone]: a selected server is in force, or all but the MTU is taken
      back, or the error says that the rollback failed.  [rewriting_is_transactional]: an answer's leases
      are kept with the whole answer or not at all.  [answer_tells_outcome]: what the panel's answer
      says of the configuration, the update switch included.  [managed_writes_once]: a change over SSH
      is one run of ssh, told as made only when it ended well.
    - Routing: [target_first_match], [dns_target_protects], [lookup_follows_traffic], [kernel_marks_are_policy],
      [egress_fails_closed]: names, addresses and kernel marks agree and nothing protected
      leaves unprotected.
    - Who may do what: [sessions_prove_password], [private_requests_guarded], [change_password_revokes],
      [wrong_passwords_spaced], [pins_never_replaced], [enrolment_trusts_pinned_key], [router_identity_first].
    - Bounded tables under interleaving: [relay_server_invariant], [dns_server_invariant],
      [lease_store_invariant].
    - Data: the round trips of the envelope, of the saved configuration and of what the programs tell
      each other; [checkpointed_scrypt_is_scrypt]; [country_lookup_exact]; [inventory_exact];
      [preferred_encoding_best]; [upstream_answer_whole].
    - Coming back: [ssh_supervised], [startup_fails_closed], [panel_certificate_recovers].

    ** Time, concurrency and fuel

    The clock, the random generator and every fallible call answer from outside, by the number of
    the call or by a function of the state; a write that fails may leave anything. Threads and tasks that share state
    (relay, DNS server, sessions, pins) are step relations, and their invariants are proved by
    induction over every order of steps.  Elsewhere the code holds a lock, and an operation is one function.
    Loops that are not structural take a measure: the field loop the bytes left in its message
    ([each_field] is its own unrolling), the names of a response one round per record, the ancestors
    of a path its length, a poll of a process its time limit in units of the shortest sleep;
    in each case a lemma shows that the fuel is enough.

    ** What is taken from outside, with the laws relied on

    Other crates and programs are classes, with their documented behaviour as a second class
    and an instance in the samples: [Ipnet], [DnsRecord] and [DnsMessage] (hickory-proto), [FakeTable] (SQLite),
    [WireGuard] and [ServerWorld] (wg and the files of a server), [Tools] (the programs of the
    router), [Controller.System], [Pins.System], [Boot], [Vps], [Axum], [Observed], [Openssl].  Regular expressions, IDNA,
    serde_json, the Unicode lower case and PBKDF2 are function arguments.

    ** Not modelled

    - gofro-relay/src/main.rs, the argument structs of the other programs and the environment overrides of
      their debug builds: declarations for clap and socket options.
    - Serving: the sockets and tasks of tokio, axum and axum-server, shutdown signals, logging.  What they
      call is modelled, from the request or datagram to the answer.
    - nft, wg, ip, uci, ssh and the shell scripts under deploy/ themselves, and the web panel under web/.
    - Poisoned mutexes, running out of memory, and the erasing of secrets from memory.
    - JSON as text: serde_json and the derived shapes; the values on both sides are modelled. *)

From stdpp Require Import base gmap strings list fin_maps.
From Stdlib Require Import ZArith Lia.

#[global] Open Scope Z_scope.

(** ** Scope of the development's own notations *)

Declare Scope rust_scope.
Delimit Scope rust_scope with rust.

(** ** Hint databases

    [rust]    resolves side conditions (ranges of machine integers, lengths);
    [rust_rw] rewrites with the defining equations of the shared helpers. *)

Create HintDb rust discriminated.
Create Rewrite HintDb rust_rw.

(** ** Errors

    An [anyhow::Error] is a chain of messages; a few errors of the program are
    also values of a type of their own that callers look for with
    [error.is::<T>()].  [Mark] carries such a value, [Ctx] an added context. *)

Inductive marker :=
| PublishedSaveError
| RecordPublished
| CommittedRefreshFailed.

#[export] Instance marker_eq_dec : EqDecision marker.
Proof. solve_decision. Defined.

Inductive error :=
| Msg (m : string)
| Ctx (m : string) (e : error)
| Mark (k : marker) (e : error).

#[export] Instance error_eq_dec : EqDecision error.
Proof. solve_decision. Defined.

(** [error.is::<T>()]: a context does not hide the value below it. *)
Fixpoint error_is (k : marker) (e : error) : bool :=
  match e with
  | Msg _ => false
  | Ctx _ e' => error_is k e'
  | Mark k' e' => bool_decide (k = k') || error_is k e'
  end.

(** What such a value displays; the text of [PublishedSaveError] ends with the error below it. *)
Definition marker_text (k : marker) : string :=
  match k with
  | PublishedSaveError => "configuration published but directory sync failed"
  | RecordPublished => "credential published but directory sync failed"
  | CommittedRefreshFailed => "Operation committed, but status could not be refreshed. Refresh status before any further changes; do not repeat the write."
  end.

(** [{error:#}] *)
Fixpoint error_text (e : error) : string :=
  match e with
  | Msg m => m
  | Ctx m e => m +:+ ": " +:+ error_text e
  | Mark k e => marker_text k +:+ ": " +:+ error_text e
  end.

(** [error.to_string()]: the outermost message. *)
Definition error_display (e : error) : string :=
  match e with
  | Msg m | Ctx m _ => m
  | Mark PublishedSaveError _ => error_text e
  | Mark k _ => marker_text k
  end.

(** ** Results *)

Inductive result (A : Type) :=
| Ok (a : A)
| Err (e : error).
Arguments Ok {A} a.
Arguments Err {A} e.

#[export] Instance result_ret : MRet result := fun A a => Ok a.
#[export] Instance result_bind : MBind result :=
  fun A B k r => match r with Ok a => k a | Err e => Err e end.
#[export] Instance result_fmap : FMap result :=
  fun A B f r => match r with Ok a => Ok (f a) | Err e => Err e end.

#[export] Instance result_eq_dec `{EqDecision A} : EqDecision (result A).
Proof. solve_decision. Defined.

Definition is_ok {A} (r : result A) : bool :=
  match r with Ok _ => true | Err _ => false end.

(** [anyhow::ensure!(b, m)] and [if !b { bail!(m) }]. *)
Definition ensure (b : bool) (m : string) : result unit :=
  if b then Ok tt else Err (Msg m).

(** [Option::context(m)]. *)
Definition ok_or {A} (o : option A) (m : string) : result A :=
  match o with Some a => Ok a | None => Err (Msg m) end.

(** [Result::context(m)]. *)
Definition with_context {A} (m : string) (r : result A) : result A :=
  match r with Ok a => Ok a | Err e => Err (Ctx m e) end.

(** [Result::ok()]. *)
Definition to_option {A} (r : result A) : option A :=
  match r with Ok a => Some a | Err _ => None end.

Lemma bind_ok {A B} (r : result A) (k : A -> result B) (b : B) :
  r ≫= k = Ok b <-> exists a, r = Ok a /\ k a = Ok b.
Proof.
  destruct r as [a | e]; cbn; split.
  - eauto.
  - by intros (x & [= ->] & Hx).
  - done.
  - by intros (x & Hx & _).
Qed.

Lemma ensure_ok (b : bool) (m : string) (u : unit) : ensure b m = Ok u <-> b = true.
Proof. destruct b, u; cbn; naive_solver. Qed.

Lemma ok_or_ok {A} (o : option A) (m : string) (a : A) : ok_or o m = Ok a <-> o = Some a.
Proof. destruct o; cbn; naive_solver. Qed.

Lemma with_context_ok {A} (m : string) (r : result A) (a : A) : with_context m r = Ok a <-> r = Ok a.
Proof. destruct r; cbn; naive_solver. Qed.

Lemma result_mapM_ok {A B} (f : A -> result B) (l : list A) (k : list B) :
  mapM f l = Ok k <-> Forall2 (fun a b => f a = Ok b) l k.
Proof.
  revert k. induction l as [| a l IH]; intros k; cbn.
  - split; [intros [= <-]; constructor | inversion 1; done].
  - destruct (f a) as [b | e] eqn:E; cbn.
    + split.
      * intros H. destruct (mapM f l) eqn:E2; cbn in H; [| done].
        injection H as <-. constructor; [done |]. by apply IH.
      * inversion 1 as [| ? b' ? k' Hb Hk]; subst. rewrite E in Hb. injection Hb as <-.
        apply IH in Hk. rewrite Hk. done.
    + split; [done |]. inversion 1; congruence.
Qed.

Lemma result_mapM_total {A B} (f : A -> result B) (l : list A) :
  (forall a, a ∈ l -> exists b, f a = Ok b) -> exists k, mapM f l = Ok k.
Proof.
  induction l as [| a l IH]; intros Hall; [by exists [] |].
  destruct (Hall a) as [b Hb]; [by left |]. destruct IH as [k Hk]; [intros x Hx; apply Hall; by right |].
  exists (b :: k). cbn. by rewrite Hb; cbn; rewrite Hk.
Qed.

(** Splits every monadic hypothesis [_ = Ok _] into its steps. *)
Ltac inv_result :=
  repeat match goal with
  | H : Ok _ = Ok _ |- _ => injection H as H; try subst
  | H : Err _ = Ok _ |- _ => discriminate H
  | H : Ok _ = Err _ |- _ => discriminate H
  | H : (_ ≫= _) = Ok _ |- _ =>
      let a := fresh "r" in let E := fresh "E" in
      apply bind_ok in H as (a & E & H)
  | H : ensure _ _ = Ok _ |- _ => apply ensure_ok in H
  | H : ok_or _ _ = Ok _ |- _ => apply ok_or_ok in H
  | H : with_context _ _ = Ok _ |- _ => apply with_context_ok in H
  | H : mret _ = Ok _ |- _ => unfold mret, result_ret in H
  end.

(** ** Errors that carry no marker

    Most errors of the program are texts with contexts; only three calls make a
    marked one.  [plain_step] goes through a program by its shape; the database
    [plain] holds the parts. *)

Definition plain_error (e : error) : Prop := forall k, error_is k e = false.

Definition plain {A} (r : result A) : Prop := forall e, r = Err e -> plain_error e.

Lemma plain_ok {A} (x : A) : plain (Ok x).
Proof. by intros e [=]. Qed.

Lemma plain_msg {A} m : plain (Err (A := A) (Msg m)).
Proof. by intros e [= <-]. Qed.

Lemma plain_ctx_msg {A} c m : plain (Err (A := A) (Ctx c (Msg m))).
Proof. by intros e [= <-]. Qed.

Lemma plain_err {A} e : plain (Err (A := A) e) <-> plain_error e.
Proof. split; [intros He; by apply He | by intros He e' [= <-]]. Qed.

Lemma plain_ensure b m : plain (ensure b m).
Proof. destruct b; [apply plain_ok | apply plain_msg]. Qed.

Lemma plain_ok_or {A} (o : option A) m : plain (ok_or o m).
Proof. destruct o; [apply plain_ok | apply plain_msg]. Qed.

Lemma plain_context {A} m (r : result A) : plain r -> plain (with_context m r).
Proof. destruct r as [| f]; [intros _; apply plain_ok |]. intros Hr e [= <-]. exact (Hr f eq_refl). Qed.

Lemma plain_bind {A B} (r : result A) (k : A -> result B) : plain r -> (forall x, plain (k x)) -> plain (r ≫= k).
Proof. destruct r as [x | f]; intros Hr Hk; [apply Hk |]. intros e [= <-]. by apply Hr. Qed.

Lemma plain_fmap {A B} (f : A -> B) (r : result A) : plain r -> plain (f <$> r).
Proof. destruct r as [x | e]; intros Hr; [apply plain_ok | apply plain_err, Hr, eq_refl]. Qed.

Lemma plain_mapM {A B} (f : A -> result B) (l : list A) : (forall x, plain (f x)) -> plain (mapM f l).
Proof.
  intros Hf. induction l as [| x l IH]; [apply plain_ok |]. apply plain_bind; [apply Hf | intros y].
  apply plain_bind; [apply IH | intros ?; apply plain_ok].
Qed.

Create HintDb plain discriminated.

#[export] Hint Resolve plain_ok plain_msg plain_ctx_msg plain_ensure plain_ok_or plain_context : plain.

Ltac plain_step :=
  match goal with
  | |- forall _, plain _ => intros ?
  | |- plain (let _ := _ in _) => cbv zeta
  | |- plain (mbind _ _) => apply plain_bind
  | |- plain (fmap _ _) => apply plain_fmap
  | |- plain (mapM _ _) => apply plain_mapM
  | |- plain (match ?x with _ => _ end) => destruct x
  | |- plain _ => solve [eauto with plain]
  end.

(** ** Machine integers

    A [w]-bit unsigned integer is a [Z] below [2 ^ w]. *)

Definition u8_max : Z := 255.
Definition u16_max : Z := 65535.
Definition u32_max : Z := 4294967295.
Definition u64_max : Z := 18446744073709551615.
Definition i64_max : Z := 9223372036854775807.
Definition i64_min : Z := -9223372036854775808.

Definition wrap (w z : Z) : Z := z `mod` 2 ^ w.
Definition saturating_sub (a b : Z) : Z := Z.max 0 (a - b).
Definition saturating_add_max (m a b : Z) : Z := Z.min m (a + b).
Definition saturating_mul_max (m a b : Z) : Z := Z.min m (a * b).

Definition is_u (w z : Z) : Prop := 0 <= z < 2 ^ w.

#[export] Instance is_u_dec w z : Decision (is_u w z).
Proof. unfold is_u. apply _. Defined.

Lemma wrap_range w z : 0 <= w -> is_u w (wrap w z).
Proof. intros. unfold is_u, wrap. apply Z.mod_pos_bound. lia. Qed.

Lemma wrap_small w z : is_u w z -> wrap w z = z.
Proof. apply Z.mod_small. Qed.

Lemma saturating_sub_range a b m : 0 <= a <= m -> 0 <= b -> 0 <= saturating_sub a b <= m.
Proof. unfold saturating_sub. lia. Qed.

#[export] Hint Resolve wrap_range : rust.
#[export] Hint Rewrite wrap_small using (solve [unfold is_u in *; lia]) : rust_rw.

(** A number all of whose bits at [w] and above are clear is below [2 ^ w]. *)
Lemma is_u_testbit w z :
  0 <= w -> 0 <= z -> (forall i, w <= i -> Z.testbit z i = false) -> is_u w z.
Proof.
  intros Hw Hz Hbits. split; [done |].
  destruct (Z.eq_dec z 0) as [-> | Hne]; [lia |].
  apply Z.log2_lt_pow2; [lia |].
  destruct (Z.lt_ge_cases (Z.log2 z) w) as [| Hge]; [done |].
  pose proof (Z.bit_log2 z ltac:(lia)) as Hb. rewrite Hbits in Hb; [done | lia].
Qed.

Lemma testbit_is_u w z i : is_u w z -> w <= i -> Z.testbit z i = false.
Proof.
  intros [H1 H2] Hi. destruct (Z.eq_dec z 0) as [-> | Hne]; [apply Z.bits_0 |].
  apply Z.bits_above_log2; [done |].
  assert (Z.log2 z < w) by (apply Z.log2_lt_pow2; lia). lia.
Qed.

Lemma lxor_is_u w a b : 0 <= w -> is_u w a -> is_u w b -> is_u w (Z.lxor a b).
Proof.
  intros Hw Ha Hb. apply is_u_testbit; [done | |].
  - apply Z.lxor_nonneg. unfold is_u in *. lia.
  - intros i Hi. rewrite Z.lxor_spec, (testbit_is_u w a), (testbit_is_u w b); done.
Qed.

Lemma lor_is_u w a b : 0 <= w -> is_u w a -> is_u w b -> is_u w (Z.lor a b).
Proof.
  intros Hw Ha Hb. apply is_u_testbit; [done | |].
  - apply Z.lor_nonneg. unfold is_u in *. lia.
  - intros i Hi. rewrite Z.lor_spec, (testbit_is_u w a), (testbit_is_u w b); done.
Qed.

Lemma land_is_u_l w a b : 0 <= w -> is_u w a -> 0 <= b -> is_u w (Z.land a b).
Proof.
  intros Hw Ha Hb. apply is_u_testbit; [done | |].
  - apply Z.land_nonneg. unfold is_u in *. lia.
  - intros i Hi. by rewrite Z.land_spec, (testbit_is_u w a).
Qed.

Lemma shiftr_is_u w a n : 0 <= w -> 0 <= n -> is_u w a -> is_u w (Z.shiftr a n).
Proof.
  intros Hw Hn [H1 H2]. rewrite Z.shiftr_div_pow2 by done. split.
  - apply Z.div_pos; lia.
  - apply Z.div_lt_upper_bound; nia.
Qed.

#[export] Hint Resolve lxor_is_u lor_is_u land_is_u_l shiftr_is_u : rust.

(** Disjoint bit fields add up. *)
Lemma lor_shiftl a b n : 0 <= n -> is_u n a -> Z.lor a (Z.shiftl b n) = a + b * 2 ^ n.
Proof.
  intros Hn Ha. rewrite <- (Z.shiftl_mul_pow2 b n) by done.
  assert (Z.land a (Z.shiftl b n) = 0) as Hand.
  { apply Z.bits_inj'. intros i Hi. rewrite Z.land_spec, Z.bits_0.
    destruct (Z.lt_ge_cases i n); [by rewrite Z.shiftl_spec_low, andb_false_r |].
    by rewrite (testbit_is_u n a). }
  by rewrite Z.add_nocarry_lxor, Z.lxor_lor.
Qed.

Lemma lxor_cancel_r a b : Z.lxor (Z.lxor a b) b = a.
Proof. by rewrite Z.lxor_assoc, Z.lxor_nilpotent, Z.lxor_0_r. Qed.

#[export] Hint Rewrite lxor_cancel_r Z.lxor_0_r Z.lxor_0_l : rust_rw.

(** ** Lists *)

Lemma take_length_app {A} (l k : list A) (n : nat) : length l = n -> take n (l ++ k) = l.
Proof. intros <-. by rewrite take_app_length. Qed.

Lemma drop_length_app {A} (l k : list A) (n : nat) : length l = n -> drop n (l ++ k) = k.
Proof. intros <-. by rewrite drop_app_length. Qed.

#[export] Hint Rewrite @length_app @length_take @length_drop @length_fmap @length_replicate
  @length_insert : rust_rw.

(** Replaces [length bytes] cells of [buf] from [off] on: what
    [buf[off..off + n].copy_from_slice(bytes)] does within bounds. *)
Definition splice {A} (off : nat) (bytes buf : list A) : list A :=
  take off buf ++ bytes ++ drop (off + length bytes) buf.

Lemma splice_length {A} off (bytes buf : list A) :
  (off + length bytes <= length buf)%nat -> length (splice off bytes buf) = length buf.
Proof. intros. unfold splice. autorewrite with rust_rw. lia. Qed.

Lemma splice_take {A} off (bytes buf : list A) :
  (off <= length buf)%nat ->
  take (off + length bytes) (splice off bytes buf) = take off buf ++ bytes.
Proof.
  intros. unfold splice. rewrite app_assoc. apply take_length_app.
  autorewrite with rust_rw. lia.
Qed.

Lemma splice_drop {A} off (bytes buf : list A) :
  (off <= length buf)%nat ->
  drop (off + length bytes) (splice off bytes buf) = drop (off + length bytes) buf.
Proof.
  intros. unfold splice. rewrite app_assoc. apply drop_length_app.
  autorewrite with rust_rw. lia.
Qed.

Lemma take_splice_0 {A} (bytes buf : list A) : take (length bytes) (splice 0 bytes buf) = bytes.
Proof. unfold splice. rewrite take_0. by apply (take_length_app bytes). Qed.

(** [iter.find(p)]. *)
Fixpoint find_first {A} (p : A -> bool) (l : list A) : option A :=
  match l with
  | [] => None
  | a :: l' => if p a then Some a else find_first p l'
  end.

Lemma find_first_Some {A} (p : A -> bool) (l : list A) (a : A) :
  find_first p l = Some a <->
  exists i, l !! i = Some a /\ p a = true /\ forall j b, (j < i)%nat -> l !! j = Some b -> p b = false.
Proof.
  induction l as [| x l IH]; cbn.
  - split; [done |]. intros (i & Hi & _). by rewrite lookup_nil in Hi.
  - destruct (p x) eqn:E.
    + split.
      * intros [= <-]. exists 0%nat. split_and!; [done | done |]. intros; lia.
      * intros ([| i] & Hi & Hp & Hlt); [by injection Hi as -> |].
        specialize (Hlt 0%nat x ltac:(lia) eq_refl). congruence.
    + rewrite IH. split.
      * intros (i & Hi & Hp & Hlt). exists (S i). split_and!; [done | done |].
        intros [| j] b Hj Hb; [by injection Hb as <- |]. eapply Hlt; [| exact Hb]. lia.
      * intros ([| i] & Hi & Hp & Hlt); [injection Hi as <-; congruence |].
        exists i. split_and!; [done | done |]. intros j b Hj Hb. apply (Hlt (S j)); [lia | done].
Qed.

Lemma find_first_None {A} (p : A -> bool) (l : list A) :
  find_first p l = None <-> forall a, a ∈ l -> p a = false.
Proof.
  induction l as [| x l IH]; cbn; [set_solver |].
  destruct (p x) eqn:E; [split; [done |]; intros H; rewrite H in E; [done | set_solver] |].
  rewrite IH. set_solver.
Qed.

(** [iter.find_map(f)]. *)
Fixpoint find_map {A B} (f : A -> option B) (l : list A) : option B :=
  match l with
  | [] => None
  | a :: l' => match f a with Some b => Some b | None => find_map f l' end
  end.

Lemma find_map_Some {A B} (f : A -> option B) (l : list A) (b : B) :
  find_map f l = Some b <->
  exists i a, l !! i = Some a /\ f a = Some b /\ forall j a', (j < i)%nat -> l !! j = Some a' -> f a' = None.
Proof.
  induction l as [| x l IH]; cbn.
  - split; [done |]. intros (i & a & Hi & _). by rewrite lookup_nil in Hi.
  - destruct (f x) as [y |] eqn:E.
    + split.
      * intros [= <-]. exists 0%nat, x. split_and!; [done | done |]. intros; lia.
      * intros ([| i] & a & Hi & Hp & Hlt); [injection Hi as ->; congruence |].
        specialize (Hlt 0%nat x ltac:(lia) eq_refl). congruence.
    + rewrite IH. split.
      * intros (i & a & Hi & Hp & Hlt). exists (S i), a. split_and!; [done | done |].
        intros [| j] b' Hj Hb; [by injection Hb as <- |]. eapply Hlt; [| exact Hb]. lia.
      * intros ([| i] & a & Hi & Hp & Hlt); [injection Hi as ->; congruence |].
        exists i, a. split_and!; [done | done |]. intros j a' Hj Hb. apply (Hlt (S j)); [lia | done].
Qed.

Lemma find_map_None {A B} (f : A -> option B) (l : list A) :
  find_map f l = None <-> forall a, a ∈ l -> f a = None.
Proof.
  induction l as [| x l IH]; cbn; [set_solver |].
  destruct (f x) eqn:E; [split; [done |]; intros H; rewrite H in E; [done | set_solver] |].
  rewrite IH. set_solver.
Qed.

(** ** Byte order *)

(** [uN::to_le_bytes] and [uN::from_le_bytes] *)
Fixpoint to_le_bytes (n : nat) (z : Z) : list Z :=
  match n with O => [] | S n' => z mod 256 :: to_le_bytes n' (z / 256) end.

Fixpoint from_le_bytes (l : list Z) : Z :=
  match l with [] => 0 | b :: l' => b + 256 * from_le_bytes l' end.

Lemma to_le_bytes_length n z : length (to_le_bytes n z) = n.
Proof. revert z. induction n as [| n IH]; intros z; cbn; [done |]. by rewrite IH. Qed.

#[export] Hint Rewrite to_le_bytes_length : rust_rw.

Lemma from_to_le_bytes n z : 0 <= z < 256 ^ Z.of_nat n -> from_le_bytes (to_le_bytes n z) = z.
Proof.
  revert z. induction n as [| n IH]; intros z Hz; cbn [to_le_bytes from_le_bytes].
  - cbn in Hz. lia.
  - rewrite Nat2Z.inj_succ, Z.pow_succ_r in Hz by lia. rewrite IH.
    + Z.div_mod_to_equations. lia.
    + split; [apply Z.div_pos; lia |]. apply Z.div_lt_upper_bound; lia.
Qed.

(** ** Counting loops

    [for i in lo..lo + n { s = f(i, s) }] *)
Fixpoint for_range {S : Type} (lo n : nat) (f : nat -> S -> S) (s : S) : S :=
  match n with
  | O => s
  | Datatypes.S n' => for_range (Datatypes.S lo) n' f (f lo s)
  end.

Lemma for_range_ind {S : Type} (P : nat -> S -> Prop) f n : forall lo s,
  P lo s -> (forall i s, (lo <= i < lo + n)%nat -> P i s -> P (Datatypes.S i) (f i s)) ->
  P (lo + n)%nat (for_range lo n f s).
Proof.
  induction n as [| n IH]; intros lo s H0 Hstep; cbn; [by rewrite Nat.add_0_r |].
  rewrite Nat.add_succ_r. apply (IH (Datatypes.S lo)).
  - apply Hstep; [lia | done].
  - intros i s' Hi. apply Hstep. lia.
Qed.

(** Case analysis on every [if] and [match] of a boolean test in the goal. *)
Ltac case_bool :=
  repeat match goal with
  | |- context [bool_decide ?P] => destruct (bool_decide_reflect P)
  | H : context [bool_decide ?P] |- _ => destruct (bool_decide_reflect P)
  | H : negb _ = true |- _ => apply negb_true_iff in H
  | H : negb _ = false |- _ => apply negb_false_iff in H
  | H : _ && _ = true |- _ => apply andb_true_iff in H as [? ?]
  | H : _ || _ = false |- _ => apply orb_false_iff in H as [? ?]
  end.
