(* ===== verification/RustStd.v ===== *)
(** * The parts of Rust's standard library the program uses

    Strings are their UTF-8 bytes ([String.string]); the operations below are
    those of [str], of the integer parsers and formatters and of
    [std::net::Ipv4Addr].  The theorems are the round trips and shape lemmas
    the components share. *)

From stdpp Require Import base gmap strings list fin_maps sorting.
From Stdlib Require Import ZArith Lia Ascii.
From S2P Require Import Prelude.

Abbreviation chars := String.list_ascii_of_string.
Abbreviation str := String.string_of_list_ascii.

(** ** Bytes *)

Definition code (a : ascii) : Z := Z.of_N (N_of_ascii a).
Definition of_code (z : Z) : ascii := ascii_of_N (Z.to_N z).

Definition in_range (lo hi : Z) (a : ascii) : bool := (lo <=? code a) && (code a <=? hi).

Definition is_ascii_digit (a : ascii) : bool := in_range 48 57 a.
Definition is_ascii_upper (a : ascii) : bool := in_range 65 90 a.
Definition is_ascii_lower (a : ascii) : bool := in_range 97 122 a.
Definition is_ascii_alphanumeric (a : ascii) : bool :=
  is_ascii_digit a || is_ascii_upper a || is_ascii_lower a.
Definition is_ascii_hexdigit (a : ascii) : bool :=
  is_ascii_digit a || in_range 65 70 a || in_range 97 102 a.

Definition to_ascii_lower (a : ascii) : ascii :=
  if is_ascii_upper a then of_code (code a + 32) else a.

Definition eqb_ascii (a b : ascii) : bool := bool_decide (a = b).

Lemma code_range a : 0 <= code a < 256.
Proof.
  unfold code. destruct a as [[] [] [] [] [] [] [] []]; cbn; lia.
Qed.

Lemma of_code_code a : of_code (code a) = a.
Proof. unfold of_code, code. by rewrite N2Z.id, ascii_N_embedding. Qed.

Lemma code_of_code z : 0 <= z < 256 -> code (of_code z) = z.
Proof.
  intros. unfold of_code, code. rewrite N_ascii_embedding; [lia |]. lia.
Qed.

(** ** Conversions *)

Lemma chars_str l : chars (str l) = l.
Proof. apply String.list_ascii_of_string_of_list_ascii. Qed.

Lemma str_chars s : str (chars s) = s.
Proof. apply String.string_of_list_ascii_of_string. Qed.

#[export] Hint Rewrite chars_str str_chars : rust_rw.

Lemma chars_app (s t : string) : chars (s +:+ t) = chars s ++ chars t.
Proof. induction s as [| a s IH]; simpl; [done |]. by rewrite IH. Qed.

Lemma string_app_assoc (a b c : string) : (a +:+ (b +:+ c) = (a +:+ b) +:+ c)%string.
Proof. induction a as [| x a IH]; cbn; [done |]. unfold String.append in *. by rewrite IH. Qed.


Lemma str_app (l k : list ascii) : str (l ++ k) = (str l +:+ str k)%string.
Proof. induction l as [| a l IH]; simpl; [done |]. by rewrite IH. Qed.

Lemma chars_inj (s t : string) : chars s = chars t -> s = t.
Proof. intros H. by rewrite <- (str_chars s), <- (str_chars t), H. Qed.

(** [s.len()]: the number of bytes. *)
Definition slen (s : string) : Z := Z.of_nat (length (chars s)).

(** ** Splitting *)

(** [s.split(c)]: at least one piece. *)
Fixpoint split_bytes (c : ascii) (l : list ascii) : list (list ascii) :=
  match l with
  | [] => [[]]
  | x :: l' =>
      if eqb_ascii x c then [] :: split_bytes c l'
      else match split_bytes c l' with
           | h :: t => (x :: h) :: t
           | [] => [[x]]
           end
  end.

Definition split (c : ascii) (s : string) : list string := str <$> split_bytes c (chars s).

(** [pieces.join(sep)] for a one-byte separator, and its general form. *)
Fixpoint join_bytes (sep : list ascii) (ls : list (list ascii)) : list ascii :=
  match ls with
  | [] => []
  | [l] => l
  | l :: ls' => l ++ sep ++ join_bytes sep ls'
  end.

Definition join (sep : string) (ls : list string) : string :=
  str (join_bytes (chars sep) (chars <$> ls)).

Fixpoint split_once_bytes (c : ascii) (l : list ascii) : option (list ascii * list ascii) :=
  match l with
  | [] => None
  | x :: l' =>
      if eqb_ascii x c then Some ([], l')
      else match split_once_bytes c l' with
           | Some (a, b) => Some (x :: a, b)
           | None => None
           end
  end.

Definition split_once (c : ascii) (s : string) : option (string * string) :=
  match split_once_bytes c (chars s) with
  | Some (a, b) => Some (str a, str b)
  | None => None
  end.

(** [s.rsplit_once(c)]: at the last occurrence. *)
Definition rsplit_once (c : ascii) (s : string) : option (string * string) :=
  match split_once_bytes c (rev (chars s)) with
  | Some (b, a) => Some (str (rev a), str (rev b))
  | None => None
  end.

Fixpoint is_prefix_bytes (p l : list ascii) : option (list ascii) :=
  match p, l with
  | [], _ => Some l
  | a :: p', b :: l' => if eqb_ascii a b then is_prefix_bytes p' l' else None
  | _ :: _, [] => None
  end.

Definition strip_prefix (p s : string) : option string :=
  str <$> is_prefix_bytes (chars p) (chars s).

Definition strip_suffix (p s : string) : option string :=
  (fun l => str (rev l)) <$> is_prefix_bytes (rev (chars p)) (rev (chars s)).

Definition starts_with (p s : string) : bool := bool_decide (is_Some (strip_prefix p s)).
Definition ends_with (p s : string) : bool := bool_decide (is_Some (strip_suffix p s)).
Definition contains_byte (c : ascii) (s : string) : bool := existsb (eqb_ascii c) (chars s).

(** [s.lines()] *)
Definition LF : ascii := of_code 10.
Definition CR : ascii := of_code 13.

Definition strip_cr (l : list ascii) : list ascii :=
  match rev l with
  | a :: r => if eqb_ascii a CR then rev r else l
  | [] => l
  end.

Fixpoint lines_of (pieces : list (list ascii)) : list (list ascii) :=
  match pieces with
  | [] => []
  | [p] => match p with [] => [] | _ => [p] end
  | p :: ps => strip_cr p :: lines_of ps
  end.

Definition lines (s : string) : list string := str <$> lines_of (split_bytes LF (chars s)).

(** ** UTF-8 *)

Definition cont (b : Z) : bool := (128 <=? b) && (b <? 192).

Fixpoint utf8_valid (l : list Z) : bool :=
  match l with
  | [] => true
  | a :: r1 =>
      if a <? 128 then utf8_valid r1
      else match r1 with
           | b :: r2 =>
               if (194 <=? a) && (a <? 224) then cont b && utf8_valid r2
               else match r2 with
                    | c :: r3 =>
                        if (224 <=? a) && (a <? 240) then
                          cont b && cont c && (negb (a =? 224) || (160 <=? b))
                          && (negb (a =? 237) || (b <? 160)) && utf8_valid r3
                        else match r3 with
                             | d :: r4 =>
                                 if (240 <=? a) && (a <? 245) then
                                   cont b && cont c && cont d && (negb (a =? 240) || (144 <=? b))
                                   && (negb (a =? 244) || (b <? 144)) && utf8_valid r4
                                 else false
                             | [] => false
                             end
                    | [] => false
                    end
           | [] => false
           end
  end.

(** [str::from_utf8] of bytes held as a string. *)
Definition utf8_string (s : string) : option string := if utf8_valid (code <$> chars s) then Some s else None.

(** ** Unicode

    A [char] of a valid string is one byte that is not a continuation byte and
    the continuation bytes behind it.  White space is Unicode's
    [White_Space], the control characters are the category [Cc]. *)

Definition is_continuation (a : ascii) : bool := in_range 128 191 a.

(** [s.chars().count()] *)
Definition char_count (s : string) : Z :=
  Z.of_nat (length (List.filter (fun a => negb (is_continuation a)) (chars s))).

(** The white space character at the head of the bytes, if any: what follows it. *)
Definition ws1 (a : ascii) : bool := in_range 9 13 a || (code a =? 32).
Definition ws2 (a b : ascii) : bool := (code a =? 194) && ((code b =? 133) || (code b =? 160)).
Definition ws3 (a b c : ascii) : bool :=
  ((code a =? 225) && (code b =? 154) && (code c =? 128))
  || ((code a =? 226) && (code b =? 128)
      && (in_range 128 138 c || (code c =? 168) || (code c =? 169) || (code c =? 175)))
  || ((code a =? 226) && (code b =? 129) && (code c =? 159))
  || ((code a =? 227) && (code b =? 128) && (code c =? 128)).

Fixpoint trim_start_bytes (l : list ascii) : list ascii :=
  match l with
  | [] => []
  | a :: r1 =>
      if ws1 a then trim_start_bytes r1
      else match r1 with
           | [] => l
           | b :: r2 =>
               if ws2 a b then trim_start_bytes r2
               else match r2 with
                    | [] => l
                    | c :: r3 => if ws3 a b c then trim_start_bytes r3 else l
                    end
           end
  end.

(** The same from the end, on the reversed bytes. *)
Fixpoint trim_end_rev (l : list ascii) : list ascii :=
  match l with
  | [] => []
  | a :: r1 =>
      if ws1 a then trim_end_rev r1
      else match r1 with
           | [] => l
           | b :: r2 =>
               if ws2 b a then trim_end_rev r2
               else match r2 with
                    | [] => l
                    | c :: r3 => if ws3 c b a then trim_end_rev r3 else l
                    end
           end
  end.

Definition trim_start (s : string) : string := str (trim_start_bytes (chars s)).
Definition trim_end (s : string) : string := str (rev (trim_end_rev (rev (chars s)))).
Definition trim (s : string) : string := trim_end (trim_start s).

Fixpoint has_whitespace_bytes (l : list ascii) : bool :=
  match l with
  | [] => false
  | a :: r1 =>
      ws1 a
      || match r1 with
         | b :: r2 => ws2 a b || match r2 with c :: _ => ws3 a b c | [] => false end
         | [] => false
         end
      || has_whitespace_bytes r1
  end.

(** [s.chars().any(char::is_whitespace)] *)
Definition has_whitespace (s : string) : bool := has_whitespace_bytes (chars s).

Fixpoint has_control_bytes (l : list ascii) : bool :=
  match l with
  | [] => false
  | a :: r =>
      (code a <? 32) || (code a =? 127)
      || match r with b :: _ => (code a =? 194) && in_range 128 159 b | [] => false end
      || has_control_bytes r
  end.

(** [s.chars().any(char::is_control)] *)
Definition has_control (s : string) : bool := has_control_bytes (chars s).

(** [s.trim_end_matches(c)] *)
Fixpoint drop_while {A} (p : A -> bool) (l : list A) : list A :=
  match l with
  | [] => []
  | a :: l' => if p a then drop_while p l' else l
  end.

Definition trim_end_matches (c : ascii) (s : string) : string :=
  str (rev (drop_while (eqb_ascii c) (rev (chars s)))).

Definition to_ascii_lowercase (s : string) : string := str (to_ascii_lower <$> chars s).

(** [s.split_whitespace()] *)
Fixpoint words_bytes (cur : list ascii) (l : list ascii) : list (list ascii) :=
  let flush (rest : list (list ascii)) := match cur with [] => rest | _ => rev cur :: rest end in
  match l with
  | [] => flush []
  | a :: r1 =>
      if ws1 a then flush (words_bytes [] r1)
      else match r1 with
           | b :: r2 =>
               if ws2 a b then flush (words_bytes [] r2)
               else match r2 with
                    | c :: r3 =>
                        if ws3 a b c then flush (words_bytes [] r3)
                        else words_bytes (a :: cur) r1
                    | [] => words_bytes (a :: cur) r1
                    end
           | [] => words_bytes (a :: cur) r1
           end
  end.

Definition split_whitespace (s : string) : list string := str <$> words_bytes [] (chars s).

(** ** Integers *)

Definition digit_value (radix : Z) (a : ascii) : option Z :=
  let v := if is_ascii_digit a then Some (code a - 48)
           else if is_ascii_lower a then Some (code a - 87)
           else if is_ascii_upper a then Some (code a - 55)
           else None in
  match v with Some d => if d <? radix then Some d else None | None => None end.

Fixpoint parse_digits (radix acc : Z) (l : list ascii) : option Z :=
  match l with
  | [] => Some acc
  | a :: l' => match digit_value radix a with
               | Some d => parse_digits radix (radix * acc + d) l'
               | None => None
               end
  end.

(** [uN::from_str_radix]: an optional plus sign, at least one digit, no overflow. *)
Definition parse_radix (radix max : Z) (s : string) : option Z :=
  let digits := match chars s with
                | a :: r => if eqb_ascii a "+"%char then r else a :: r
                | [] => []
                end in
  match digits with
  | [] => None
  | _ => match parse_digits radix 0 digits with
         | Some v => if v <=? max then Some v else None
         | None => None
         end
  end.

Definition parse_u8 (s : string) : option Z := parse_radix 10 u8_max s.
Definition parse_u16 (s : string) : option Z := parse_radix 10 u16_max s.
Definition parse_u64 (s : string) : option Z := parse_radix 10 u64_max s.

Definition digit_char (d : Z) : ascii := if d <? 10 then of_code (48 + d) else of_code (87 + d).

Fixpoint show_fuel (fuel : nat) (n : Z) (acc : list ascii) : list ascii :=
  match fuel with
  | O => acc
  | S f =>
      let acc' := digit_char (n mod 10) :: acc in
      if n / 10 =? 0 then acc' else show_fuel f (n / 10) acc'
  end.

(** [n.to_string()]; [log2 n + 1] digits are always enough. *)
Definition show_bytes (n : Z) : list ascii := show_fuel (S (Z.to_nat (Z.log2 n))) n [].
Definition show (n : Z) : string := str (show_bytes n).

(** [format!("{:02x}", b)] for a byte. *)
Definition hex2 (b : Z) : list ascii := [digit_char (b / 16); digit_char (b mod 16)].

(** ** Proofs about the integers *)

Lemma digit_value_char radix d :
  0 <= d < 16 -> d < radix -> digit_value radix (digit_char d) = Some d.
Proof.
  intros Hd Hr.
  assert (d = 0 \/ d = 1 \/ d = 2 \/ d = 3 \/ d = 4 \/ d = 5 \/ d = 6 \/ d = 7 \/ d = 8 \/ d = 9
    \/ d = 10 \/ d = 11 \/ d = 12 \/ d = 13 \/ d = 14 \/ d = 15) as H by lia.
  unfold digit_value.
  repeat destruct H as [-> | H]; [..| subst d];
    (match goal with |- (match ?v with _ => _ end) = Some ?d => change v with (Some d) end;
     cbv iota; by rewrite (proj2 (Z.ltb_lt _ _) Hr)).
Qed.

Lemma parse_digits_app radix acc l k :
  parse_digits radix acc (l ++ k) =
  match parse_digits radix acc l with Some v => parse_digits radix v k | None => None end.
Proof.
  revert acc. induction l as [| a l IH]; intros acc; cbn; [done |].
  destruct (digit_value radix a); [apply IH | done].
Qed.

Lemma show_fuel_parse f : forall n k acc, 0 <= n < 10 ^ Z.of_nat f ->
  (0 < f)%nat -> 0 <= acc ->
  exists m, parse_digits 10 acc (show_fuel f n k) = parse_digits 10 (acc * m + n) k /\ (acc = 0 -> acc * m = 0).
Proof.
  induction f as [| f IH]; intros n k acc Hn Hf Hacc; [lia |].
  cbn [show_fuel]. rewrite Nat2Z.inj_succ, Z.pow_succ_r in Hn by lia.
  pose proof (Z.mod_pos_bound n 10 ltac:(lia)) as Hmod.
  pose proof (Z.div_mod n 10 ltac:(lia)) as Hdm.
  destruct (Z.eqb_spec (n / 10) 0) as [Hz | Hnz].
  - exists 10. cbn. rewrite digit_value_char by lia.
    split; [f_equal; lia | lia].
  - assert (n / 10 < 10 ^ Z.of_nat f) by (apply Z.div_lt_upper_bound; lia).
    assert (0 <= n / 10) by (apply Z.div_pos; lia).
    assert (0 < f)%nat by (destruct f; [cbn in *; lia | lia]).
    destruct (IH (n / 10) (digit_char (n mod 10) :: k) acc ltac:(lia) ltac:(done) Hacc) as (m & Hp & Hm).
    exists (10 * m). rewrite Hp. cbn. rewrite digit_value_char by lia. split; [f_equal; lia | lia].
Qed.

Lemma show_bytes_parse n : 0 <= n -> parse_digits 10 0 (show_bytes n) = Some n.
Proof.
  intros Hn. unfold show_bytes.
  assert (n < 10 ^ Z.of_nat (S (Z.to_nat (Z.log2 n)))) as Hlt.
  { rewrite Nat2Z.inj_succ, Z2Nat.id by apply Z.log2_nonneg.
    destruct (Z.eq_dec n 0) as [-> | Hne]; [cbn; lia |].
    pose proof (Z.log2_spec n ltac:(lia)) as [_ H2].
    eapply Z.lt_le_trans; [exact H2 |]. apply Z.pow_le_mono_l. lia. }
  destruct (show_fuel_parse _ n [] 0 (conj Hn Hlt) ltac:(lia) ltac:(lia)) as (m & Hp & _).
  rewrite Hp. cbn. f_equal; lia.
Qed.

Lemma show_fuel_digits f n k :
  0 <= n -> Forall (fun a => is_ascii_digit a = true) k ->
  Forall (fun a => is_ascii_digit a = true) (show_fuel f n k).
Proof.
  revert n k. induction f as [| f IH]; intros n k Hn Hk; cbn; [done |].
  assert (is_ascii_digit (digit_char (n mod 10)) = true) as Hd.
  { pose proof (Z.mod_pos_bound n 10 ltac:(lia)). unfold digit_char.
    rewrite (proj2 (Z.ltb_lt _ _)) by lia. unfold is_ascii_digit, in_range.
    rewrite code_of_code by lia. apply andb_true_iff. split; apply Z.leb_le; lia. }
  destruct (n / 10 =? 0); [by constructor |].
  apply IH; [apply Z.div_pos; lia | by constructor].
Qed.

Lemma show_fuel_length f n k : (length k < length (show_fuel (S f) n k))%nat.
Proof.
  revert n k. induction f as [| f IH]; intros n k; cbn.
  - destruct (n / 10 =? 0); cbn; lia.
  - destruct (n / 10 =? 0); cbn; [lia |].
    specialize (IH (n / 10) (digit_char (n mod 10) :: k)). cbn in IH. lia.
Qed.

Lemma show_bytes_digits n :
  0 <= n -> Forall (fun a => is_ascii_digit a = true) (show_bytes n).
Proof. intros. by apply show_fuel_digits. Qed.

Lemma show_bytes_nonempty n : show_bytes n <> [].
Proof.
  unfold show_bytes. pose proof (show_fuel_length (Z.to_nat (Z.log2 n)) n []) as H.
  intros E. rewrite E in H. cbn in H. lia.
Qed.

Lemma digit_not_plus a : is_ascii_digit a = true -> eqb_ascii a "+"%char = false.
Proof.
  unfold eqb_ascii. intros H. apply bool_decide_eq_false. intros ->. done.
Qed.

(** Printing a number and parsing it back is the identity. *)
Lemma parse_show max n : 0 <= n <= max -> parse_radix 10 max (show n) = Some n.
Proof.
  intros Hn. unfold parse_radix, show. rewrite chars_str.
  pose proof (show_bytes_nonempty n) as Hne.
  pose proof (show_bytes_digits n ltac:(lia)) as Hd.
  pose proof (show_bytes_parse n ltac:(lia)) as Hp.
  destruct (show_bytes n) as [| a l]; [done |].
  apply Forall_cons in Hd as [Ha _]. rewrite digit_not_plus by done.
  rewrite Hp. by rewrite (proj2 (Z.leb_le _ _)) by lia.
Qed.

Lemma show_inj n m : 0 <= n -> 0 <= m -> show n = show m -> n = m.
Proof.
  intros Hn Hm H. unfold show in H.
  assert (show_bytes n = show_bytes m) as E
    by (rewrite <- (chars_str (show_bytes n)), <- (chars_str (show_bytes m)); by rewrite H).
  pose proof (show_bytes_parse n Hn) as P. rewrite E, show_bytes_parse in P by done.
  by injection P.
Qed.

(** ** Proofs about splitting *)

Lemma split_bytes_nonempty c l : split_bytes c l <> [].
Proof. destruct l as [| x l]; cbn; [done |]. destruct (eqb_ascii x c); [done |]. by destruct (split_bytes c l). Qed.

Lemma split_bytes_none c l :
  Forall (fun a => eqb_ascii a c = false) l -> split_bytes c l = [l].
Proof.
  induction 1 as [| a l Ha _ IH]; cbn; [done |]. by rewrite Ha, IH.
Qed.

Lemma split_bytes_app c l k :
  Forall (fun a => eqb_ascii a c = false) l ->
  split_bytes c (l ++ c :: k) = l :: split_bytes c k.
Proof.
  induction 1 as [| a l Ha _ IH]; cbn.
  - unfold eqb_ascii. by rewrite bool_decide_true.
  - by rewrite Ha, IH.
Qed.

Lemma join_bytes_cons sep l k ls :
  join_bytes sep (l :: k :: ls) = l ++ sep ++ join_bytes sep (k :: ls).
Proof. done. Qed.

(** Pieces without the separator survive joining and splitting. *)
Lemma split_join c ls :
  ls <> [] -> Forall (Forall (fun a => eqb_ascii a c = false)) ls ->
  split_bytes c (join_bytes [c] ls) = ls.
Proof.
  intros Hne H. induction H as [| l ls Hl Hls IH]; [done |].
  destruct ls as [| k ls]; [by apply split_bytes_none |].
  rewrite join_bytes_cons. cbn [app]. rewrite split_bytes_app by done. by rewrite IH.
Qed.

Lemma split_pieces c l :
  Forall (Forall (fun a => eqb_ascii a c = false)) (split_bytes c l).
Proof.
  induction l as [| a l IH]; cbn; [repeat constructor |].
  destruct (eqb_ascii a c) eqn:E; [by repeat constructor |].
  destruct (split_bytes c l) as [| h t]; [by repeat constructor |].
  apply Forall_cons in IH as [Hh Ht]. by repeat constructor.
Qed.

Lemma join_split c l : join_bytes [c] (split_bytes c l) = l.
Proof.
  induction l as [| a l IH]; cbn; [done |].
  pose proof (split_bytes_nonempty c l) as Hne.
  destruct (eqb_ascii a c) eqn:E.
  - unfold eqb_ascii in E. apply bool_decide_eq_true in E as ->.
    destruct (split_bytes c l) as [| h t]; [done |]. cbn in *. by rewrite IH.
  - destruct (split_bytes c l) as [| h t]; [done |].
    destruct t as [| h' t]; cbn in *; by rewrite IH.
Qed.

Lemma split_once_bytes_app c l k :
  Forall (fun a => eqb_ascii a c = false) l ->
  split_once_bytes c (l ++ c :: k) = Some (l, k).
Proof.
  induction 1 as [| a l Ha _ IH]; cbn.
  - unfold eqb_ascii. by rewrite bool_decide_true.
  - by rewrite Ha, IH.
Qed.

Lemma split_once_bytes_Some c l a b :
  split_once_bytes c l = Some (a, b) ->
  l = a ++ c :: b /\ Forall (fun x => eqb_ascii x c = false) a.
Proof.
  revert a b. induction l as [| x l IH]; intros a b; cbn; [done |].
  destruct (eqb_ascii x c) eqn:E.
  - intros [= <- <-]. unfold eqb_ascii in E. apply bool_decide_eq_true in E as ->. done.
  - destruct (split_once_bytes c l) as [[a' b'] |]; [| done].
    intros [= <- <-]. destruct (IH a' b' eq_refl) as [-> Hall]. split; [done |]. by constructor.
Qed.

Lemma is_prefix_bytes_Some p l r : is_prefix_bytes p l = Some r <-> l = p ++ r.
Proof.
  revert l. induction p as [| a p IH]; intros l; cbn; [naive_solver |].
  destruct l as [| b l]; [split; discriminate |].
  unfold eqb_ascii. case_bool_decide as E.
  - subst. rewrite IH. naive_solver.
  - naive_solver.
Qed.

Lemma strip_prefix_Some p s r : strip_prefix p s = Some r <-> s = (p +:+ r)%string.
Proof.
  unfold strip_prefix. rewrite fmap_Some. split.
  - intros (l & Hl & ->). apply is_prefix_bytes_Some in Hl.
    apply chars_inj. by rewrite chars_app, chars_str.
  - intros ->. exists (chars r). by rewrite is_prefix_bytes_Some, chars_app, str_chars.
Qed.

Lemma strip_suffix_Some p s r : strip_suffix p s = Some r <-> s = (r +:+ p)%string.
Proof.
  unfold strip_suffix. rewrite fmap_Some. split.
  - intros (l & Hl & ->). apply is_prefix_bytes_Some in Hl.
    apply chars_inj. rewrite chars_app, chars_str.
    rewrite <- (rev_involutive (chars s)), Hl, rev_app_distr, rev_involutive. done.
  - intros ->. exists (rev (chars r)).
    rewrite is_prefix_bytes_Some, chars_app, rev_app_distr, rev_involutive, str_chars. done.
Qed.

(** ** IPv4 addresses *)

(** [std::net::Ipv4Addr]: the 32-bit number of the four octets. *)
Definition ipv4 (a b c d : Z) : Z := a * 16777216 + b * 65536 + c * 256 + d.

Definition octets (ip : Z) : Z * Z * Z * Z :=
  (ip / 16777216, (ip / 65536) mod 256, (ip / 256) mod 256, ip mod 256).

Definition show_ipv4 (ip : Z) : string :=
  let '(a, b, c, d) := octets ip in
  join "." [show a; show b; show c; show d].

(** One octet of a dotted address: one to three digits, no leading zero, no sign. *)
Definition parse_octet (s : string) : option Z :=
  match chars s with
  | [] => None
  | a :: r =>
      if (3 <? slen s) || (eqb_ascii a "0"%char && negb (bool_decide (r = [])))
         || negb (is_ascii_digit a)
      then None else parse_radix 10 u8_max s
  end.

Definition parse_ipv4 (s : string) : option Z :=
  match split "."%char s with
  | [p1; p2; p3; p4] =>
      match parse_octet p1, parse_octet p2, parse_octet p3, parse_octet p4 with
      | Some a, Some b, Some c, Some d => Some (ipv4 a b c d)
      | _, _, _, _ => None
      end
  | _ => None
  end.

Lemma octets_ipv4 a b c d :
  is_u 8 a -> is_u 8 b -> is_u 8 c -> is_u 8 d -> octets (ipv4 a b c d) = (a, b, c, d).
Proof.
  unfold is_u, octets, ipv4. change (2 ^ 8) with 256. intros.
  repeat f_equal; Z.div_mod_to_equations; lia.
Qed.

Lemma ipv4_octets ip : is_u 32 ip ->
  let '(a, b, c, d) := octets ip in
  ip = ipv4 a b c d /\ is_u 8 a /\ is_u 8 b /\ is_u 8 c /\ is_u 8 d.
Proof.
  unfold is_u, octets, ipv4. change (2 ^ 8) with 256. change (2 ^ 32) with 4294967296.
  intros. split_and!; Z.div_mod_to_equations; lia.
Qed.

Lemma ipv4_range a b c d :
  is_u 8 a -> is_u 8 b -> is_u 8 c -> is_u 8 d -> is_u 32 (ipv4 a b c d).
Proof. unfold is_u, ipv4. change (2 ^ 8) with 256. change (2 ^ 32) with 4294967296. lia. Qed.

#[export] Hint Resolve ipv4_range : rust.

(** Printing and parsing one octet, over all 256 of them. *)
Lemma parse_octet_show n : is_u 8 n -> parse_octet (show n) = Some n.
Proof.
  unfold is_u. change (2 ^ 8) with 256. intros Hn.
  assert (forallb (fun k => bool_decide (parse_octet (show (Z.of_nat k)) = Some (Z.of_nat k)))
    (seq 0 256) = true) as H by (vm_compute; reflexivity).
  rewrite forallb_forall in H. specialize (H (Z.to_nat n)).
  rewrite Z2Nat.id in H by lia. apply (proj1 (bool_decide_eq_true _)), H, in_seq. lia.
Qed.

Lemma digits_no_sep (l : list ascii) (c : ascii) :
  is_ascii_digit c = false -> Forall (fun a => is_ascii_digit a = true) l ->
  Forall (fun a => eqb_ascii a c = false) l.
Proof.
  intros Hc Hl. eapply Forall_impl; [exact Hl |]. intros a Ha.
  apply bool_decide_eq_false. intros ->. congruence.
Qed.

(** An address survives printing and parsing. *)
Lemma parse_show_ipv4 ip : is_u 32 ip -> parse_ipv4 (show_ipv4 ip) = Some ip.
Proof.
  intros H. pose proof (ipv4_octets ip H) as Ho. unfold show_ipv4.
  destruct (octets ip) as [[[a b] c] d]. destruct Ho as (-> & Ha & Hb & Hc & Hd).
  unfold parse_ipv4, split, join. rewrite chars_str.
  change (chars ".") with ["."%char]. rewrite split_join; cbn [fmap list_fmap]; [| done |].
  - unfold show. rewrite !chars_str. fold (show a) (show b) (show c) (show d).
    by rewrite !parse_octet_show.
  - unfold show. rewrite !chars_str.
    repeat constructor; (apply digits_no_sep; [done |]; apply show_bytes_digits; unfold is_u in *; lia).
Qed.

Lemma show_ipv4_inj a b : is_u 32 a -> is_u 32 b -> show_ipv4 a = show_ipv4 b -> a = b.
Proof.
  intros Ha Hb H. pose proof (parse_show_ipv4 a Ha) as P.
  rewrite H, parse_show_ipv4 in P by done. by injection P.
Qed.

(** ** Trimming twice is trimming once *)

Definition starts_ws (l : list ascii) : bool :=
  match l with
  | [] => false
  | a :: r1 =>
      ws1 a || match r1 with
               | [] => false
               | b :: r2 => ws2 a b || match r2 with [] => false | c :: _ => ws3 a b c end
               end
  end.

Definition ends_ws (l : list ascii) : bool :=
  match l with
  | [] => false
  | a :: r1 =>
      ws1 a || match r1 with
               | [] => false
               | b :: r2 => ws2 b a || match r2 with [] => false | c :: _ => ws3 c b a end
               end
  end.

Lemma trim_start_none l : starts_ws l = false -> trim_start_bytes l = l.
Proof.
  destruct l as [| a [| b [| c l]]]; cbn; [done | | |]; intros H.
  - apply orb_false_iff in H as [-> _]. done.
  - apply orb_false_iff in H as [-> [-> _]%orb_false_iff]. done.
  - apply orb_false_iff in H as [-> [-> ->]%orb_false_iff]. done.
Qed.

Lemma trim_end_none l : ends_ws l = false -> trim_end_rev l = l.
Proof.
  destruct l as [| a [| b [| c l]]]; cbn; [done | | |]; intros H.
  - apply orb_false_iff in H as [-> _]. done.
  - apply orb_false_iff in H as [-> [-> _]%orb_false_iff]. done.
  - apply orb_false_iff in H as [-> [-> ->]%orb_false_iff]. done.
Qed.

(** What is left starts with no white space, and is the end of what was there. *)
Lemma trim_start_result n : forall l, (length l <= n)%nat ->
  starts_ws (trim_start_bytes l) = false /\ exists p, l = p ++ trim_start_bytes l.
Proof.
  induction n as [| n IH]; intros l Hl.
  - destruct l; [| cbn in Hl; lia]. split; [done | by exists []].
  - destruct l as [| a r1]; [split; [done | by exists []] |]. cbn [trim_start_bytes].
    destruct (ws1 a) eqn:E1.
    { destruct (IH r1) as [H1 [p Hp]]; [cbn in Hl; lia |]. split; [done |]. exists (a :: p).
      cbn. by rewrite <- Hp. }
    destruct r1 as [| b r2]; [split; [by cbn; rewrite E1 | by exists []] |].
    destruct (ws2 a b) eqn:E2.
    { destruct (IH r2) as [H1 [p Hp]]; [cbn in Hl; lia |]. split; [done |]. exists (a :: b :: p).
      cbn. by rewrite <- Hp. }
    destruct r2 as [| c r3]; [split; [by cbn; rewrite E1, E2 | by exists []] |].
    destruct (ws3 a b c) eqn:E3.
    { destruct (IH r3) as [H1 [p Hp]]; [cbn in Hl; lia |]. split; [done |]. exists (a :: b :: c :: p).
      cbn. by rewrite <- Hp. }
    split; [by cbn; rewrite E1, E2, E3 | by exists []].
Qed.

Lemma trim_end_result n : forall l, (length l <= n)%nat ->
  ends_ws (trim_end_rev l) = false /\ exists p, l = p ++ trim_end_rev l.
Proof.
  induction n as [| n IH]; intros l Hl.
  - destruct l; [| cbn in Hl; lia]. split; [done | by exists []].
  - destruct l as [| a r1]; [split; [done | by exists []] |]. cbn [trim_end_rev].
    destruct (ws1 a) eqn:E1.
    { destruct (IH r1) as [H1 [p Hp]]; [cbn in Hl; lia |]. split; [done |]. exists (a :: p).
      cbn. by rewrite <- Hp. }
    destruct r1 as [| b r2]; [split; [by cbn; rewrite E1 | by exists []] |].
    destruct (ws2 b a) eqn:E2.
    { destruct (IH r2) as [H1 [p Hp]]; [cbn in Hl; lia |]. split; [done |]. exists (a :: b :: p).
      cbn. by rewrite <- Hp. }
    destruct r2 as [| c r3]; [split; [by cbn; rewrite E1, E2 | by exists []] |].
    destruct (ws3 c b a) eqn:E3.
    { destruct (IH r3) as [H1 [p Hp]]; [cbn in Hl; lia |]. split; [done |]. exists (a :: b :: c :: p).
      cbn. by rewrite <- Hp. }
    split; [by cbn; rewrite E1, E2, E3 | by exists []].
Qed.

Lemma starts_ws_prefix p q : starts_ws (p ++ q) = false -> starts_ws p = false.
Proof.
  destruct p as [| a [| b [| c p]]]; cbn; [done | | |]; intros H.
  - apply orb_false_iff in H as [-> _]. done.
  - apply orb_false_iff in H as [-> [-> _]%orb_false_iff]. done.
  - done.
Qed.

Lemma trim_bytes s :
  starts_ws (chars (trim s)) = false /\ ends_ws (rev (chars (trim s))) = false.
Proof.
  unfold trim, trim_end, trim_start. rewrite !chars_str, rev_involutive.
  set (t := trim_start_bytes (chars s)).
  destruct (trim_end_result (length (rev t)) (rev t) (le_n _)) as [He [p Hp]].
  split; [| done].
  destruct (trim_start_result (length (chars s)) (chars s) (le_n _)) as [Hs _]. fold t in Hs.
  apply (f_equal (@rev ascii)) in Hp. rewrite rev_involutive, rev_app_distr in Hp.
  rewrite Hp in Hs. by eapply starts_ws_prefix.
Qed.

Lemma trim_none s :
  starts_ws (chars s) = false -> ends_ws (rev (chars s)) = false -> trim s = s.
Proof.
  intros Hs He. unfold trim, trim_end, trim_start. rewrite chars_str, (trim_start_none _ Hs).
  rewrite (trim_end_none _ He), rev_involutive. apply str_chars.
Qed.

Lemma trim_idemp s : trim (trim s) = trim s.
Proof. destruct (trim_bytes s). by apply trim_none. Qed.

(** Printable ASCII has no white space to trim. *)
Definition printable (a : ascii) : Prop := 32 < code a < 128.

Lemma printable_not_ws l :
  Forall printable l -> starts_ws l = false /\ ends_ws l = false.
Proof.
  intros H. unfold printable in H.
  assert (forall a, 32 < code a < 128 -> ws1 a = false) as W1 by (unfold ws1, in_range; lia).
  assert (forall a b, 32 < code a < 128 \/ 32 < code b < 128 -> ws2 a b = false) as W2
    by (unfold ws2; lia).
  assert (forall a b c, 32 < code a < 128 \/ 32 < code c < 128 -> ws3 a b c = false) as W3
    by (unfold ws3, in_range; lia).
  destruct H as [| a l Ha H]; [done |]. destruct H as [| b l Hb H].
  { cbn. by rewrite W1. }
  destruct H as [| c l Hc H]; cbn; rewrite W1, !W2 by tauto; [done |]. rewrite !W3 by tauto. done.
Qed.

Lemma trim_printable s : Forall printable (chars s) -> trim s = s.
Proof.
  intros H. apply trim_none; [by apply printable_not_ws |].
  apply printable_not_ws. by apply Forall_rev.
Qed.

Lemma alnum_printable a : is_ascii_alphanumeric a = true -> printable a.
Proof.
  unfold is_ascii_alphanumeric, is_ascii_digit, is_ascii_upper, is_ascii_lower, in_range, printable. lia.
Qed.

Lemma to_ascii_lower_idemp a : to_ascii_lower (to_ascii_lower a) = to_ascii_lower a.
Proof.
  unfold to_ascii_lower at 2 3. destruct (is_ascii_upper a) eqn:E; unfold to_ascii_lower;
    [| by rewrite E].
  unfold is_ascii_upper, in_range in *. rewrite code_of_code by lia.
  by replace ((65 <=? code a + 32) && (code a + 32 <=? 90)) with false by lia.
Qed.

Lemma to_ascii_lowercase_idemp s : to_ascii_lowercase (to_ascii_lowercase s) = to_ascii_lowercase s.
Proof.
  unfold to_ascii_lowercase. rewrite chars_str. f_equal. rewrite <- list_fmap_compose.
  apply list_fmap_ext. intros i a _. apply to_ascii_lower_idemp.
Qed.

Lemma trim_end_matches_none c s :
  (forall a, last (chars s) = Some a -> a <> c) -> trim_end_matches c s = s.
Proof.
  intros H. unfold trim_end_matches. rewrite <- (rev_involutive (chars s)) in H.
  destruct (rev (chars s)) as [| a l] eqn:E; cbn [drop_while].
  - apply (f_equal (@rev ascii)) in E. rewrite rev_involutive in E. cbn in E.
    rewrite <- (str_chars s), E. done.
  - cbn [rev] in H. rewrite last_snoc in H. specialize (H a eq_refl). unfold eqb_ascii.
    rewrite bool_decide_false by congruence. by rewrite <- E, rev_involutive, str_chars.
Qed.

(** ** Sorting *)

(** [v.dedup()]: consecutive equal entries. *)
Fixpoint dedup {A} `{EqDecision A} (l : list A) : list A :=
  match l with
  | [] => []
  | a :: l' => match dedup l' with
               | b :: r => if decide (a = b) then b :: r else a :: b :: r
               | [] => [a]
               end
  end.

(** [v.sort()] and [v.dedup()] *)
Definition sort_dedup {A} `{EqDecision A} (R : relation A) `{forall x y, Decision (R x y)} (l : list A) : list A := dedup (merge_sort R l).

Section Sorting.
Context {A : Type} `{EqDecision A} (R : relation A) `{forall x y, Decision (R x y)} `{!Total R} `{!Transitive R} `{!AntiSymm (=) R}.
Implicit Types l k : list A.

Lemma dedup_elem l x : x ∈ dedup l <-> x ∈ l.
Proof.
  induction l as [| a l IH]; cbn; [done |]. rewrite elem_of_cons, <- IH.
  destruct (dedup l) as [| b r]; [set_solver |]. case_decide as E; set_solver.
Qed.

Lemma dedup_sorted l : StronglySorted R l -> StronglySorted R (dedup l) /\ NoDup (dedup l).
Proof.
  induction 1 as [| a l Hs [IH1 IH2] Hall]; cbn; [split; constructor |].
  assert (Forall (R a) (dedup l)) as Ha.
  { apply Forall_forall. intros x Hx. rewrite dedup_elem in Hx. exact (proj1 (Forall_forall _ _) Hall x Hx). }
  destruct (dedup l) as [| b r]; [split; [by repeat constructor | apply NoDup_singleton] |].
  case_decide as E; [done |]. split; [by constructor |]. apply NoDup_cons. split; [| done].
  intros Hin. apply E. inversion IH1 as [| ? ? _ Hb]; subst. inversion Ha as [| ? ? Hab _]; subst.
  apply elem_of_cons in Hin as [-> | Hin]; [done |].
  apply (anti_symm R); [done |]. by apply (proj1 (Forall_forall _ _) Hb).
Qed.

Lemma dedup_nodup l : NoDup l -> dedup l = l.
Proof.
  induction 1 as [| a l Ha Hnd IH]; cbn; [done |]. rewrite IH.
  destruct l as [| b r]; [done |]. rewrite decide_False; [done |]. intros ->. apply Ha, list_elem_of_here.
Qed.

Lemma sort_dedup_elem l x : x ∈ sort_dedup R l <-> x ∈ l.
Proof. unfold sort_dedup. by rewrite dedup_elem, merge_sort_Permutation. Qed.

Lemma sort_dedup_sorted l : StronglySorted R (sort_dedup R l) /\ NoDup (sort_dedup R l).
Proof. apply dedup_sorted, Sorted_StronglySorted; [done |]. by apply Sorted_merge_sort. Qed.

(** Only the elements matter. *)
Lemma sort_dedup_unique l k : StronglySorted R l -> NoDup l -> (forall x, x ∈ k <-> x ∈ l) -> sort_dedup R k = l.
Proof.
  intros Hs Hnd He. destruct (sort_dedup_sorted k) as [Hs' Hnd'].
  apply (StronglySorted_unique R); [done | done |]. apply NoDup_Permutation; [done | done |]. intros x. by rewrite sort_dedup_elem.
Qed.

Lemma sort_dedup_id l : StronglySorted R l -> NoDup l -> sort_dedup R l = l.
Proof. intros Hs Hnd. by apply sort_dedup_unique. Qed.

Lemma sort_dedup_ext l k : (forall x, x ∈ l <-> x ∈ k) -> sort_dedup R l = sort_dedup R k.
Proof.
  intros He. destruct (sort_dedup_sorted k). apply sort_dedup_unique; [done | done |]. intros x. by rewrite sort_dedup_elem.
Qed.
End Sorting.

(** ** Texts for examples *)

(** Texts that stand for values: the bits of their number. *)
Fixpoint bits_of (p : positive) : list ascii :=
  match p with xH => [] | xO p => "0"%char :: bits_of p | xI p => "1"%char :: bits_of p end.

Fixpoint of_bits (l : list ascii) : positive :=
  match l with
  | [] => xH
  | a :: l => if eqb_ascii a "0"%char then xO (of_bits l) else xI (of_bits l)
  end.

Lemma of_bits_of p : of_bits (bits_of p) = p.
Proof. induction p as [p IH | p IH |]; cbn; by rewrite ?IH. Qed.
