(* ===== verification/IpAddr.v ===== *)
(** * IP addresses as text (std::net)

    How [str::parse::<IpAddr>] reads an address and how [Display] prints it:
    the reader of [core::net::parser], which takes digits from the front of the
    bytes that are left, and the printer of [Ipv6Addr], which shortens the first
    of the longest runs of zeros. *)

From stdpp Require Import base strings list.
From Stdlib Require Import Ascii ZArith Lia.
From S2P Require Import Prelude RustStd.

Inductive ip_addr :=
| V4 (address : Z)
| V6 (segments : list Z).

#[export] Instance ip_addr_eq_dec : EqDecision ip_addr.
Proof. solve_decision. Defined.

Definition is_ipv6 (ip : ip_addr) : bool := match ip with V6 _ => true | V4 _ => false end.

(** ** Reading *)

Definition reader (A : Type) : Type := list ascii -> option (A * list ascii).

Definition read_char (c : ascii) : reader unit := fun l =>
  match l with a :: l => if eqb_ascii a c then Some (tt, l) else None | [] => None end.

Fixpoint take_digits (p : ascii -> bool) (l : list ascii) : list ascii * list ascii :=
  match l with
  | [] => ([], [])
  | a :: l' => if p a then let '(ds, r) := take_digits p l' in (a :: ds, r) else ([], l)
  end.

(** [read_number(10, Some(3), false)] *)
Definition read_octet : reader Z := fun l =>
  let '(ds, r) := take_digits is_ascii_digit l in
  n ← parse_octet (str ds); Some (n, r).

(** [read_number(16, Some(4), true)] *)
Definition read_segment : reader Z := fun l =>
  let '(ds, r) := take_digits is_ascii_hexdigit l in
  if bool_decide (ds = []) || (4 <? length ds)%nat then None
  else n ← parse_digits 16 0 ds; Some (n, r).

(** [read_separator]: the separator before every item but the first. *)
Definition separated {A} (c : ascii) (first : bool) (p : reader A) : reader A := fun l =>
  if first then p l else '(_, l) ← read_char c l; p l.

Definition read_ipv4 : reader Z := fun l =>
  '(a, l) ← separated "."%char true read_octet l;
  '(b, l) ← separated "."%char false read_octet l;
  '(c, l) ← separated "."%char false read_octet l;
  '(d, l) ← separated "."%char false read_octet l;
  Some (ipv4 a b c d, l).

(** [read_groups]: up to [n] segments, the last two perhaps written as an IPv4 address. *)
Fixpoint read_groups (n : nat) (first : bool) (l : list ascii) : list Z * bool * list ascii :=
  match n with
  | O => ([], false, l)
  | S k =>
      match (if (k =? 0)%nat then None else separated ":"%char first read_ipv4 l) with
      | Some (v, l) => ([v / 65536; v mod 65536], true, l)
      | None =>
          match separated ":"%char first read_segment l with
          | Some (g, l) => let '(gs, v4, l) := read_groups k false l in (g :: gs, v4, l)
          | None => ([], false, l)
          end
      end
  end.

Definition read_ipv6 : reader (list Z) := fun l =>
  let '(head, head_ipv4, l) := read_groups 8 true l in
  if (length head =? 8)%nat then Some (head, l)
  else if head_ipv4 then None
  else
    '(_, l) ← read_char ":"%char l;
    '(_, l) ← read_char ":"%char l;
    let '(tail, _, l) := read_groups (8 - (length head + 1)) true l in
    Some (head ++ replicate (8 - length head - length tail) 0 ++ tail, l).

Definition parse_ip (s : string) : option ip_addr :=
  match read_ipv4 (chars s) with
  | Some (a, l) => if bool_decide (l = []) then Some (V4 a) else None
  | None =>
      match read_ipv6 (chars s) with
      | Some (gs, l) => if bool_decide (l = []) then Some (V6 gs) else None
      | None => None
      end
  end.

(** ** Printing *)

Definition show_segment (g : Z) : string :=
  let ds := [g / 4096; (g / 256) mod 16; (g / 16) mod 16] in
  str (digit_char <$> drop_while (fun d => d =? 0) ds ++ [g mod 16]).

(** [(start, len)] of the first of the longest runs of zeros. *)
Fixpoint zero_runs (i : nat) (current longest : nat * nat) (gs : list Z) : nat * nat :=
  match gs with
  | [] => longest
  | g :: gs =>
      if g =? 0 then
        let current := if (current.2 =? 0)%nat then (i, 1%nat) else (current.1, S current.2) in
        zero_runs (S i) current (if (longest.2 <? current.2)%nat then current else longest) gs
      else zero_runs (S i) (0, 0)%nat longest gs
  end.

Definition to_ipv4_mapped (gs : list Z) : option Z :=
  match gs with
  | [0; 0; 0; 0; 0; 65535; a; b] => Some (a * 65536 + b)
  | _ => None
  end.

Definition show_ipv6 (gs : list Z) : string :=
  match to_ipv4_mapped gs with
  | Some a => "::ffff:" +:+ show_ipv4 a
  | None =>
      let '(start, len) := zero_runs 0 (0, 0)%nat (0, 0)%nat gs in
      if (1 <? len)%nat
      then join ":" (show_segment <$> take start gs) +:+ "::" +:+ join ":" (show_segment <$> drop (start + len) gs)
      else join ":" (show_segment <$> gs)
  end.

Definition show_ip (ip : ip_addr) : string :=
  match ip with V4 a => show_ipv4 a | V6 gs => show_ipv6 gs end.

(** An address in the form it is printed in. *)
Definition ip_canonical (s : string) : bool :=
  match parse_ip s with Some ip => bool_decide (show_ip ip = s) | None => false end.

(** ** Examples *)

Example ip_forms :
  (fun s => show_ip <$> parse_ip s) <$> ["198.51.100.1"; "2001:0db8::1"; "::"; "::1"; "1::"; "fe80::1:0:0:1"; "::ffff:1.2.3.4"; "1:2:3:4:5:6:7:8";
     "64:ff9b::192.0.2.33"; "1:0:0:2:0:0:0:3"; "0:1:2:3:4:5:6:7"]%string =
  Some <$> ["198.51.100.1"; "2001:db8::1"; "::"; "::1"; "1::"; "fe80::1:0:0:1"; "::ffff:1.2.3.4"; "1:2:3:4:5:6:7:8";
     "64:ff9b::c000:221"; "1:0:0:2::3"; "0:1:2:3:4:5:6:7"]%string.
Proof. by vm_compute. Qed.

Example ip_refused :
  (parse_ip <$> [""; "999.51.100.1"; ":::"; "1.2.3"; "1.2.3.4.5"; "01.2.3.4"; "12345::"; "1:2:3:4:5:6:7:8:9"; "1::2::3"; "1.2.3.4::"; "vpn.test"]%string) =
  replicate 11 None.
Proof. by vm_compute. Qed.
