(* ===== verification/Peers.v ===== *)
(** * What WireGuard says of its peers (crates/wireguard-status/src/lib.rs, managed.rs, warp.rs)

    The parser of [wg show INTERFACE dump], the names and keys of friends, and
    the text the [wg] tool prints, as its manual describes it: one line per
    peer, fields separated by tabs, routes by commas or spaces. *)

From stdpp Require Import base strings list.
From Stdlib Require Import Ascii ZArith Lia.
From S2P Require Import Prelude RustStd.

Definition TAB : ascii := of_code 9.
Definition SPACE : ascii := of_code 32.

(** ** Names and keys *)

Definition FRIEND_NAME_INPUT_LIMIT : Z := 1024.

Record friend_peer := FriendPeer { fp_public_key : string; fp_name : string; fp_revoked : bool; fp_can_share : bool }.

Record warp_status := WarpStatus { warp_installed : bool; warp_enabled : bool; warp_connected : bool }.

Definition warp_status_default : warp_status := WarpStatus false false false.

Record managed_server_status := ManagedServerStatus {
  ms_version : string;
  ms_peers : list friend_peer;
  ms_warp : option warp_status;
}.

Definition validate_name (input : string) : result string :=
  let name := trim input in
  if bool_decide (name = ""%string) || (60 <? char_count name) || has_control name
  then Err (Msg "friend name must be 1-60 non-control characters") else Ok name.

Definition key_char (b : ascii) : bool := is_ascii_alphanumeric b || eqb_ascii b "+"%char || eqb_ascii b "/"%char.

Definition validate_peer_key (value : string) : result unit :=
  let bytes := chars value in
  if negb (length bytes =? 44)%nat || negb (bool_decide (bytes !! 43%nat = Some "="%char))
     || negb (forallb key_char (take 43 bytes))
  then Err (Msg "invalid WireGuard public key") else Ok tt.

(** The source address of a router behind WARP. *)
Definition source_address (address : Z) : option Z :=
  let '(a, b, c, host) := octets address in
  if (a =? 10) && (b =? 202) && (c =? 0) && ((2 <=? host) && (host <=? 254)) then Some (ipv4 10 202 1 host) else None.

(** ** The dump *)

Record peer_status := PeerStatus {
  ps_public_key : string;
  ps_endpoint : option string;
  ps_allowed_ips : list string;
  ps_latest_handshake : option Z;
  ps_handshake_age_seconds : option Z;
  ps_rx_bytes : Z;
  ps_tx_bytes : Z;
  ps_persistent_keepalive : option Z;
}.

Definition parse_u64_field (value field : string) : result Z := ok_or (parse_u64 value) ("invalid " +:+ field).

Definition parse_peer_line (now : Z) (line : string) : result peer_status :=
  match split TAB line with
  | [key; _; endpoint; allowed; handshake; rx; tx; keepalive] =>
      latest ← parse_u64_field handshake "latest handshake";
      keepalive ← (if bool_decide (keepalive = "off"%string) then Ok 0
                   else ok_or (parse_u16 keepalive) "invalid persistent keepalive");
      rx ← parse_u64_field rx "received bytes";
      tx ← parse_u64_field tx "transmitted bytes";
      let shaken := negb (latest =? 0) in
      Ok (PeerStatus key (if bool_decide (endpoint = "(none)"%string) then None else Some endpoint) (split ","%char allowed)
            (if shaken then Some latest else None) (if shaken then Some (saturating_sub now latest) else None) rx tx
            (if keepalive =? 0 then None else Some keepalive))
  | _ => Err (Msg "invalid WireGuard peer dump")
  end.

Definition parse_wireguard_dump (dump : string) (now : Z) : result (list peer_status) :=
  match lines dump with
  | [] => Ok []
  | interface :: peers =>
      if (length (split TAB interface) <? 4)%nat then Err (Msg "invalid WireGuard interface dump")
      else mapM (parse_peer_line now) peers
  end.

(** ** What [wg] prints *)

Definition unlines (ls : list string) : string := str (concat ((fun l => chars l ++ [LF]) <$> ls)).

(** A peer of the dump, as the tool knows it. *)
Record wg_peer := WgPeer {
  wp_key : string;
  wp_preshared : string;
  wp_endpoint : option string;
  wp_allowed : list string;
  wp_handshake : Z;
  wp_rx : Z;
  wp_tx : Z;
  wp_keepalive : Z;
}.

Definition dump_fields (p : wg_peer) : list string :=
  [wp_key p; wp_preshared p; default "(none)"%string (wp_endpoint p);
   (if bool_decide (wp_allowed p = []) then "(none)"%string else join "," (wp_allowed p));
   show (wp_handshake p); show (wp_rx p); show (wp_tx p);
   (if wp_keepalive p =? 0 then "off"%string else show (wp_keepalive p))].

(** [wg show INTERFACE dump] *)
Definition dump_text (interface : list string) (peers : list wg_peer) : string :=
  unlines ((str (join_bytes [TAB] (chars <$> interface))) :: ((fun p => str (join_bytes [TAB] (chars <$> dump_fields p))) <$> peers)).

(** [wg show INTERFACE allowed-ips]: the key, a tab, the routes with spaces between them or [(none)]. *)
Definition allowed_line (key : string) (routes : list string) : string :=
  str (chars key ++ TAB :: join_bytes [SPACE] (chars <$> match routes with [] => ["(none)"%string] | _ => routes end)).

Definition allowed_text (peers : list (string * list string)) : string :=
  unlines ((fun '(k, rs) => allowed_line k rs) <$> peers).

(** A word of the tool's output: visible ASCII. *)
Definition word (s : string) : Prop := s <> ""%string /\ Forall printable (chars s).

#[export] Instance word_dec s : Decision (word s).
Proof. unfold word, printable. apply _. Defined.

(** Decides words that are given. *)
Ltac checked := apply (bool_decide_unpack _); by vm_compute.

(** ** Lines and words *)

Definition line_char (a : ascii) : Prop := a <> LF /\ a <> CR.

Lemma strip_cr_none l : Forall line_char l -> strip_cr l = l.
Proof.
  intros Hl. unfold strip_cr. destruct (rev l) as [| a r] eqn:Hr; [done |].
  assert (a ∈ l) as Ha%(proj1 (Forall_forall _ _) Hl) by (rewrite <- (rev_involutive l), Hr; apply elem_of_app; right; by left).
  unfold eqb_ascii. rewrite bool_decide_false; [done | by destruct Ha].
Qed.

Lemma split_unlines (ls : list (list ascii)) :
  Forall (Forall line_char) ls -> split_bytes LF (concat ((fun l => l ++ [LF]) <$> ls)) = ls ++ [[]].
Proof.
  induction 1 as [| l ls Hl Hls IH]; [done |]. cbn [fmap list_fmap concat]. rewrite <- app_assoc. cbn [app].
  rewrite split_bytes_app; [by rewrite IH |].
  eapply Forall_impl; [exact Hl |]. intros a [Ha _]. by apply bool_decide_eq_false.
Qed.

Lemma lines_of_complete ls : Forall (Forall line_char) ls -> lines_of (ls ++ [[]]) = ls.
Proof.
  induction 1 as [| l ls Hl Hls IH]; [done |]. cbn [app lines_of].
  destruct (ls ++ [[]]) as [| x r] eqn:E; [by destruct ls |]. by rewrite strip_cr_none, IH.
Qed.

(** The lines of a text that was written line by line. *)
Lemma lines_unlines ls : Forall (fun l => Forall line_char (chars l)) ls -> lines (unlines ls) = ls.
Proof.
  intros Hls. unfold lines, unlines. rewrite chars_str.
  assert ((fun l => chars l ++ [LF]) <$> ls = (fun l => l ++ [LF]) <$> (chars <$> ls)) as -> by by rewrite <- list_fmap_compose.
  assert (Forall (Forall line_char) (chars <$> ls)) as Hc by by apply Forall_fmap.
  rewrite split_unlines, lines_of_complete by done. rewrite <- list_fmap_compose.
  rewrite <- (list_fmap_id ls) at 2. apply list_fmap_ext. intros i x _. apply str_chars.
Qed.

Lemma printable_line_char a : printable a -> line_char a.
Proof. intros [Ha _]. split; intros ->; discriminate Ha. Qed.

(** Flushing a word: printable bytes go to the current word. *)
Lemma words_bytes_word w : forall cur l, Forall printable w -> words_bytes cur (w ++ l) = words_bytes (rev w ++ cur) l.
Proof.
  induction w as [| a w IH]; intros cur l Hw; [done |]. inversion Hw as [| ? ? Ha Hw']; subst. destruct Ha as [Hlo Hhi].
  assert (ws1 a = false) as H1.
  { unfold ws1, in_range. apply orb_false_iff. split; [apply andb_false_iff; right; by apply Z.leb_gt; lia | apply Z.eqb_neq; lia]. }
  assert (forall n, 128 <= n -> code a =? n = false) as Hne by (intros n Hn; apply Z.eqb_neq; lia).
  assert (forall b, ws2 a b = false) as H2 by (intros b; unfold ws2; by rewrite Hne).
  assert (forall b c, ws3 a b c = false) as H3 by (intros b c; unfold ws3; by rewrite !Hne).
  cbn [app words_bytes]. rewrite H1. cbn [rev]. rewrite <- app_assoc. cbn [app].
  destruct (w ++ l) as [| b r1] eqn:E.
  - apply app_nil in E as [-> ->]. done.
  - rewrite H2. destruct r1 as [| c r3]; [| rewrite H3]; rewrite <- E; by apply IH.
Qed.

Lemma word_chars s : word s -> Forall printable (chars s) /\ chars s <> [].
Proof. intros [Hne Hp]. split; [done |]. intros H. apply Hne. by rewrite <- (str_chars s), H. Qed.

(** A word and what follows it behind a white space byte. *)
Lemma words_bytes_cut w sep l : Forall printable w -> w <> [] -> ws1 sep = true ->
  words_bytes [] (w ++ sep :: l) = w :: words_bytes [] l.
Proof.
  intros Hw Hne Hs. rewrite words_bytes_word, app_nil_r by done. cbn [words_bytes]. rewrite Hs.
  destruct (rev w) as [| a r] eqn:E; [by apply (f_equal (@rev ascii)) in E; rewrite rev_involutive in E |].
  by rewrite <- E, rev_involutive.
Qed.

Lemma words_bytes_last w : Forall printable w -> w <> [] -> words_bytes [] w = [w].
Proof.
  intros Hw Hne. rewrite <- (app_nil_r w) at 1. rewrite words_bytes_word, app_nil_r by done. cbn.
  destruct (rev w) as [| a r] eqn:E; [by apply (f_equal (@rev ascii)) in E; rewrite rev_involutive in E |].
  by rewrite <- E, rev_involutive.
Qed.

Lemma words_join rs : rs <> [] -> Forall word rs -> words_bytes [] (join_bytes [SPACE] (chars <$> rs)) = chars <$> rs.
Proof.
  induction rs as [| r rs IH]; [done |]. intros _ Hrs. inversion Hrs as [| ? ? [Hp Hne]%word_chars Hrs']; subst.
  destruct rs as [| r2 rs]; [by apply words_bytes_last |].
  cbn [fmap list_fmap]. rewrite join_bytes_cons. cbn [app]. rewrite words_bytes_cut by done. f_equal. by apply IH.
Qed.

(** The routes as the line shows them. *)
Definition shown (routes : list string) : list string := match routes with [] => ["(none)"%string] | _ => routes end.

Lemma shown_words rs : Forall word rs -> Forall word (shown rs) /\ shown rs <> [].
Proof.
  destruct rs as [| r rs]; [| done]. intros _. split; [| done]. apply Forall_singleton. split; [done |].
  repeat constructor.
Qed.

Lemma split_allowed_line k rs : word k -> Forall word rs -> split_whitespace (allowed_line k rs) = k :: shown rs.
Proof.
  intros [Hp Hne]%word_chars [Hw Hs]%shown_words. unfold split_whitespace, allowed_line. rewrite chars_str.
  rewrite words_bytes_cut by done. fold (shown rs). rewrite words_join by done.
  cbn [fmap list_fmap]. rewrite str_chars. f_equal. rewrite <- list_fmap_compose.
  rewrite <- (list_fmap_id (shown rs)) at 2. apply list_fmap_ext. intros i x _. apply str_chars.
Qed.

Lemma join_Forall (P : ascii -> Prop) c ls : P c -> Forall (Forall P) ls -> Forall P (join_bytes [c] ls).
Proof.
  intros Hc. induction 1 as [| l ls Hl Hls IH]; [constructor |].
  destruct ls as [| k ls]; [done |]. rewrite join_bytes_cons. apply Forall_app. split; [done |].
  apply Forall_app. split; [by constructor | exact IH].
Qed.

Lemma word_line_chars s : word s -> Forall line_char (chars s).
Proof. intros [_ Hp]. eapply Forall_impl; [exact Hp |]. apply printable_line_char. Qed.

Lemma allowed_line_chars k rs : word k -> Forall word rs -> Forall line_char (chars (allowed_line k rs)).
Proof.
  intros Hk [Hw _]%shown_words. unfold allowed_line. rewrite chars_str. fold (shown rs). apply Forall_app. split; [by apply word_line_chars |].
  constructor; [done |]. apply join_Forall; [done |]. apply Forall_fmap. eapply Forall_impl; [exact Hw |]. apply word_line_chars.
Qed.

(** Reading the listing back: each peer with its routes. *)
Lemma lines_allowed ps : Forall (fun p => word p.1 /\ Forall word p.2) ps ->
  split_whitespace <$> lines (allowed_text ps) = (fun p => p.1 :: shown p.2) <$> ps.
Proof.
  intros Hps. unfold allowed_text. rewrite lines_unlines.
  - rewrite <- list_fmap_compose. apply list_fmap_ext. intros i [k rs] Hi%list_elem_of_lookup_2.
    apply (proj1 (Forall_forall _ _) Hps) in Hi as [Hk Hrs]. by apply split_allowed_line.
  - apply Forall_fmap. eapply Forall_impl; [exact Hps |]. intros [k rs] [Hk Hrs]. by apply allowed_line_chars.
Qed.

Lemma words_join_cut rs l : rs <> [] -> Forall word rs ->
  words_bytes [] (join_bytes [SPACE] (chars <$> rs) ++ LF :: l) = (chars <$> rs) ++ words_bytes [] l.
Proof.
  induction rs as [| r rs IH]; [done |]. intros _ Hrs. inversion Hrs as [| ? ? [Hp Hne]%word_chars Hrs']; subst.
  destruct rs as [| r2 rs]; [by apply words_bytes_cut |].
  cbn [fmap list_fmap]. rewrite join_bytes_cons. cbn [app]. rewrite <- app_assoc. cbn [app].
  rewrite words_bytes_cut by done. f_equal. by apply IH.
Qed.

(** The words of the listing, whatever their lines. *)
Lemma words_allowed ps : Forall (fun p => word p.1 /\ Forall word p.2) ps ->
  split_whitespace (allowed_text ps) = ps ≫= (fun p => p.1 :: shown p.2).
Proof.
  intros Hps. unfold split_whitespace, allowed_text, unlines. rewrite chars_str.
  induction Hps as [| [k rs] ps [[Hp Hne]%word_chars [Hw Hs]%shown_words] Hps IH]; [done |]. cbn [fmap list_fmap concat mbind list_bind].
  unfold allowed_line at 1. rewrite chars_str. fold (shown rs). rewrite <- !app_assoc. cbn [app].
  cbn [fst snd] in *. rewrite words_bytes_cut, words_join_cut by done.
  rewrite fmap_cons, str_chars, fmap_app, IH. cbn [fst snd app]. f_equal. f_equal.
  rewrite <- list_fmap_compose. rewrite <- (list_fmap_id (shown rs)) at 2. apply list_fmap_ext. intros i x _. apply str_chars.
Qed.

(** A key is a word without dots or commas. *)
Lemma key_word k : validate_peer_key k = Ok tt -> word k /\ contains_byte "."%char k = false /\ contains_byte ","%char k = false.
Proof.
  unfold validate_peer_key. destruct (_ || _) eqn:E; [done |]. intros _.
  apply orb_false_iff in E as [[Hl%negb_false_iff%Nat.eqb_eq He%negb_false_iff%bool_decide_eq_true]%orb_false_iff Hf%negb_false_iff].
  assert (chars k = take 43 (chars k) ++ ["="%char]) as Hk.
  { rewrite <- (take_drop 43 (chars k)) at 1. f_equal. rewrite (drop_S _ "="%char 43 He), drop_ge by lia. done. }
  assert (Forall (fun a => key_char a = true \/ a = "="%char) (chars k)) as Hall.
  { rewrite Hk. apply Forall_app. split; [| repeat constructor; by right].
    apply Forall_forall. intros a Ha. left. rewrite forallb_forall in Hf. apply Hf. by apply list_elem_of_In. }
  assert (forall c, key_char c = false -> c <> "="%char -> contains_byte c k = false) as Hno.
  { intros c Hc Hne. apply not_true_is_false. intros (a & Ha & Hac)%existsb_exists. apply bool_decide_eq_true in Hac as <-.
    apply list_elem_of_In, (proj1 (Forall_forall _ _) Hall) in Ha as [Ha | Ha]; [congruence | done]. }
  split_and!; [split | by apply Hno | by apply Hno].
  - intros ->. discriminate Hl.
  - eapply Forall_impl; [exact Hall |]. intros a [Ha | ->]; [| done]. unfold key_char in Ha.
    apply orb_true_iff in Ha as [[Ha | Ha]%orb_true_iff | Ha]; [by apply alnum_printable | by apply bool_decide_eq_true in Ha as ->..].
Qed.

(** ** The dump is read back *)

Record wg_peer_ok (p : wg_peer) : Prop := {
  wo_key : word (wp_key p);
  wo_preshared : word (wp_preshared p);
  wo_endpoint e : wp_endpoint p = Some e -> word e /\ e <> "(none)"%string;
  wo_allowed : Forall (fun r => word r /\ contains_byte ","%char r = false) (wp_allowed p);
  wo_handshake : is_u 64 (wp_handshake p);
  wo_rx : is_u 64 (wp_rx p);
  wo_tx : is_u 64 (wp_tx p);
  wo_keepalive : is_u 16 (wp_keepalive p);
}.

(** What the program says of such a peer. *)
Definition status_of (now : Z) (p : wg_peer) : peer_status :=
  PeerStatus (wp_key p) (wp_endpoint p) (shown (wp_allowed p))
    (if wp_handshake p =? 0 then None else Some (wp_handshake p))
    (if wp_handshake p =? 0 then None else Some (saturating_sub now (wp_handshake p)))
    (wp_rx p) (wp_tx p) (if wp_keepalive p =? 0 then None else Some (wp_keepalive p)).

Lemma show_word n : 0 <= n -> word (show n).
Proof.
  intros Hn. unfold show. split.
  - intros H%(f_equal chars). rewrite chars_str in H. by apply (show_bytes_nonempty n).
  - rewrite chars_str. eapply Forall_impl; [by apply show_bytes_digits |]. intros a Ha. apply alnum_printable.
    unfold is_ascii_alphanumeric. by rewrite Ha.
Qed.

Lemma word_no_tab s : word s -> Forall (fun a => eqb_ascii a TAB = false) (chars s).
Proof.
  intros [_ Hp]. eapply Forall_impl; [exact Hp |]. intros a [Ha _]. apply bool_decide_eq_false. intros ->. discriminate Ha.
Qed.

Lemma split_tabs fields : fields <> [] -> Forall word fields ->
  split TAB (str (join_bytes [TAB] (chars <$> fields))) = fields.
Proof.
  intros Hne Hf. unfold split. rewrite chars_str, split_join; [| by destruct fields |].
  - rewrite <- list_fmap_compose. rewrite <- (list_fmap_id fields) at 2. apply list_fmap_ext. intros i x _. apply str_chars.
  - apply Forall_fmap. eapply Forall_impl; [exact Hf |]. apply word_no_tab.
Qed.

Lemma join_words rs : rs <> [] -> Forall word rs -> word (join "," rs).
Proof.
  intros Hne Hrs. unfold join. split.
  - intros H%(f_equal chars). rewrite chars_str in H. destruct Hrs as [| r rs Hr Hrs]; [done |]. apply word_chars in Hr as [_ Hr].
    destruct rs; [done |]. cbn [fmap list_fmap] in H. rewrite join_bytes_cons in H. by apply app_nil in H as [? _].
  - rewrite chars_str. apply join_Forall; [done |]. apply Forall_fmap. eapply Forall_impl; [exact Hrs |]. by intros r [_ ?].
Qed.

Lemma allowed_word p : wg_peer_ok p -> word (if bool_decide (wp_allowed p = []) then "(none)"%string else join "," (wp_allowed p)).
Proof.
  intros Hp. case_bool_decide as He; [split; [done | by repeat constructor] |]. apply join_words; [done |].
  eapply Forall_impl; [apply wo_allowed, Hp |]. by intros r [? _].
Qed.

Lemma dump_fields_words p : wg_peer_ok p -> Forall word (dump_fields p).
Proof.
  intros Hp. destruct (wo_handshake _ Hp), (wo_rx _ Hp), (wo_tx _ Hp), (wo_keepalive _ Hp).
  unfold dump_fields. repeat apply Forall_cons_2; try apply Forall_nil_2; try (by apply show_word);
    [by apply wo_key | by apply wo_preshared | | by apply allowed_word |].
  - destruct (wp_endpoint p) as [e |] eqn:E; [by apply (wo_endpoint _ Hp) in E as [? _] | split; [done | by repeat constructor]].
  - case_match; [split; [done | by repeat constructor] | by apply show_word].
Qed.

Lemma split_routes p : wg_peer_ok p ->
  split ","%char (if bool_decide (wp_allowed p = []) then "(none)"%string else join "," (wp_allowed p)) = shown (wp_allowed p).
Proof.
  intros Hp. case_bool_decide as He; [by rewrite He |]. unfold split, join. rewrite chars_str, split_join.
  - rewrite <- list_fmap_compose. destruct (wp_allowed p) as [| r rs] eqn:E; [done |]. cbn [shown].
    rewrite <- (list_fmap_id (r :: rs)) at 2. apply list_fmap_ext. intros i x _. apply str_chars.
  - by destruct (wp_allowed p).
  - apply Forall_fmap. eapply Forall_impl; [apply wo_allowed, Hp |]. intros r [_ Hr]. apply Forall_forall. intros a Ha.
    unfold contains_byte in Hr. destruct (eqb_ascii a ","%char) eqn:Ea; [| done]. apply bool_decide_eq_true in Ea as ->.
    assert (existsb (eqb_ascii ","%char) (chars r) = true); [| congruence].
    apply existsb_exists. exists ","%char. split; [by apply list_elem_of_In | by apply bool_decide_eq_true].
Qed.

Lemma parse_peer_fields now p : wg_peer_ok p ->
  parse_peer_line now (str (join_bytes [TAB] (chars <$> dump_fields p))) = Ok (status_of now p).
Proof.
  intros Hp. unfold parse_peer_line. rewrite split_tabs by (done || by apply dump_fields_words).
  unfold dump_fields, parse_u64_field, parse_u64, parse_u16.
  destruct (wo_handshake _ Hp), (wo_rx _ Hp), (wo_tx _ Hp), (wo_keepalive _ Hp).
  rewrite !(parse_show u64_max) by (unfold u64_max; lia). cbn [ok_or mbind result_bind].
  assert ((if bool_decide ((if wp_keepalive p =? 0 then "off"%string else show (wp_keepalive p)) = "off"%string) then Ok 0
           else ok_or (parse_radix 10 u16_max (if wp_keepalive p =? 0 then "off"%string else show (wp_keepalive p)))
                  "invalid persistent keepalive") = Ok (wp_keepalive p)) as ->.
  { destruct (wp_keepalive p =? 0) eqn:Ek; [apply Z.eqb_eq in Ek; by rewrite Ek |].
    rewrite bool_decide_false; [rewrite parse_show by (unfold u16_max; lia); done |].
    intros Hoff%(f_equal chars). unfold show in Hoff. rewrite chars_str in Hoff.
    pose proof (show_bytes_digits (wp_keepalive p) ltac:(done)) as Hd. rewrite Hoff in Hd. by apply Forall_cons in Hd as [? _]. }
  cbn [mbind result_bind]. rewrite split_routes by done. unfold status_of. f_equal. f_equal.
  - destruct (wp_endpoint p) as [e |] eqn:E; [| done]. apply (wo_endpoint _ Hp) in E as [_ Hne]. cbn. by rewrite bool_decide_false.
  - by destruct (wp_handshake p =? 0).
  - by destruct (wp_handshake p =? 0).
Qed.

(** The status of the peers is what WireGuard knows: whatever peers, routes, counters and handshakes
    the tool has, parsing the dump it prints gives every peer once, in order, with its key, its
    endpoint and keepalive if it has one, its routes, its counters, and the age of its last handshake
    if there was one. *)
Theorem wireguard_dump_roundtrip interface peers now :
  Forall word interface -> (4 <= length interface)%nat -> Forall wg_peer_ok peers ->
  parse_wireguard_dump (dump_text interface peers) now = Ok (status_of now <$> peers).
Proof.
  intros Hi Hl Hp. unfold parse_wireguard_dump, dump_text. rewrite lines_unlines.
  - rewrite split_tabs; [| intros ->; cbn in Hl; lia | done]. destruct (length interface <? 4)%nat eqn:E; [apply Nat.ltb_lt in E; lia |].
    clear Hl Hi E. induction Hp as [| p ps Hp Hps IH]; [done |]. cbn [fmap list_fmap mapM].
    rewrite parse_peer_fields by done. cbn [mbind result_bind]. by rewrite IH.
  - constructor; [rewrite chars_str; apply join_Forall; [done |]; apply Forall_fmap; eapply Forall_impl; [exact Hi |]; apply word_line_chars |].
    apply Forall_fmap. eapply Forall_impl; [exact Hp |]. intros p Hok. unfold compose. rewrite chars_str. apply join_Forall; [done |].
    apply Forall_fmap. eapply Forall_impl; [by apply dump_fields_words |]. apply word_line_chars.
Qed.

(** A dump with a connected friend behind two routes and one that was never seen. *)
Definition sample_dump : list wg_peer :=
  [WgPeer "cGVlci1vbmU=" "(none)" (Some "198.51.100.7:51820") ["10.8.0.2/32"; "192.168.8.0/24"] 1700000000 1024 2048 25;
   WgPeer "cGVlci10d28=" "c2hhcmVk" None [] 0 0 0 0]%string.

Lemma sample_dump_ok : Forall wg_peer_ok sample_dump.
Proof.
  repeat apply Forall_cons_2; try apply Forall_nil_2; (split; [checked | checked | intros e [= <-]; checked || done | checked | done..]).
Qed.

Lemma wireguard_dump_roundtrip_witness :
  parse_wireguard_dump (dump_text ["private"; "public"; "51820"; "off"]%string sample_dump) 1700000060 =
  Ok (status_of 1700000060 <$> sample_dump).
Proof. apply wireguard_dump_roundtrip; [checked | cbn; lia | exact sample_dump_ok]. Defined.

Example dump_age : ps_handshake_age_seconds <$> (status_of 1700000060 <$> sample_dump) = [Some 60; None].
Proof. reflexivity. Qed.
