(* ===== verification/Effects.v ===== *)
(** * State and errors

    The monad of the components that thread a state through fallible calls, and
    the two ways the development reasons about it: [bind_run] opens a run at
    its first call, and the [preserves] lemmas carry a preorder on states
    through a whole program.  The error type is a parameter: [error] for what
    returns [anyhow::Result], a response for the HTTP handlers. *)

From stdpp Require Import base strings list.
From S2P Require Import Prelude.

Definition eff (S E A : Type) : Type := S -> S * (E + A).

#[export] Instance eff_ret {S E} : MRet (eff S E) := fun A x s => (s, inr x).
#[export] Instance eff_bind {S E} : MBind (eff S E) :=
  fun A B k m s => match m s with
                   | (s, inl e) => (s, inl e)
                   | (s, inr x) => k x s
                   end.

#[export] Instance eff_fmap {S E} : FMap (eff S E) :=
  fun A B f m s => match m s with
                   | (s, inl e) => (s, inl e)
                   | (s, inr x) => (s, inr (f x))
                   end.

Definition throw {S E A} (e : E) : eff S E A := fun s => (s, inl e).
Definition read {S E A} (f : S -> A) : eff S E A := fun s => (s, inr (f s)).
Definition update {S E} (f : S -> S) : eff S E unit := fun s => (f s, inr tt).

(** An early return unless [b]. *)
Definition require {S E} (b : bool) (e : E) : eff S E unit := if b then mret tt else throw e.

Definition of_result {S A} (r : result A) : eff S error A :=
  fun s => (s, match r with Ok x => inr x | Err e => inl e end).

(** The answer of a fallible call as a value. *)
Definition try {S E A} (m : eff S error A) : eff S E (result A) :=
  fun s => match m s with
           | (s, inr x) => (s, inr (Ok x))
           | (s, inl e) => (s, inr (Err e))
           end.

(** [.context(m)] on what a call answers. *)
Definition contextual {S A} (m : string) (x : eff S error A) : eff S error A :=
  fun s => match x s with
           | (s, inl e) => (s, inl (Ctx m e))
           | ok => ok
           end.

(** A handler that answers with its early return too. *)
Definition answered {S R} (m : eff S R R) : S -> S * R :=
  fun s => match m s with (s, inl r) | (s, inr r) => (s, r) end.

(** The same inside another handler. *)
Definition settled {S R} (m : eff S R R) : eff S R R := fun s => let '(s, r) := answered m s in (s, inr r).

Section Effects.
Context {S : Type}.

Lemma bind_run {E A B} (m : eff S E A) (k : A -> eff S E B) s s' r :
  (m ≫= k) s = (s', r) ->
  (exists e, m s = (s', inl e) /\ r = inl e) \/ (exists s1 x, m s = (s1, inr x) /\ k x s1 = (s', r)).
Proof.
  unfold mbind, eff_bind. destruct (m s) as [s1 [e | x]]; [| by right; eauto].
  intros [= <- <-]. left. by exists e.
Qed.

Lemma bind_assoc {E A B C} (m : eff S E A) (k : A -> eff S E B) (l : B -> eff S E C) s :
  ((m ≫= k) ≫= l) s = (m ≫= (fun x => k x ≫= l)) s.
Proof. unfold mbind, eff_bind. by destruct (m s) as [s1 [e | x]]. Qed.

Lemma run_bind {E A B} (m : eff S E A) (k : A -> eff S E B) s s' x :
  m s = (s', inr x) -> (m ≫= k) s = k x s'.
Proof. unfold mbind, eff_bind. by intros ->. Qed.

Lemma run_try {E A} (m : eff S error A) s s' x : m s = (s', inr x) -> try (E := E) m s = (s', inr (Ok x)).
Proof. unfold try. by intros ->. Qed.

Lemma try_run {E A} (m : eff S error A) s s' (r : E + result A) :
  try m s = (s', r) ->
  (exists x, m s = (s', inr x) /\ r = inr (Ok x)) \/ (exists e, m s = (s', inl e) /\ r = inr (Err e)).
Proof. unfold try. destruct (m s) as [s1 [e | x]]; intros [= <- <-]; eauto. Qed.

Lemma contextual_run {A} m (x : eff S error A) s s' r :
  contextual m x s = (s', r) ->
  exists r', x s = (s', r') /\ match r' with inl e => r = inl (Ctx m e) | inr v => r = inr v end.
Proof. unfold contextual. destruct (x s) as [s1 [e | v]]; intros [= <- <-]; by eexists. Qed.

Lemma of_result_answer {A} (x : result A) (s s' : S) r :
  of_result x s = (s', r) -> s' = s /\ match r with inr a => x = Ok a | inl e => x = Err e end.
Proof. unfold of_result. by destruct x; intros [= <- <-]. Qed.

Lemma require_run {E} b (e : E) (s s' : S) r :
  require b e s = (s', r) -> s' = s /\ ((b = true /\ r = inr tt) \/ (b = false /\ r = inl e)).
Proof. destruct b; intros [= <- <-]; eauto. Qed.

(** ** Runs that come through *)

Definition completes {E A} (m : eff S E A) (s : S) : Prop := exists s' x, m s = (s', inr x).

Lemma completes_run {E A B} (m : eff S E A) (k : A -> eff S E B) s s' x :
  m s = (s', inr x) -> completes (k x) s' -> completes (m ≫= k) s.
Proof. intros Hm. unfold completes. by rewrite (run_bind _ _ _ _ _ Hm). Qed.

Lemma completes_bind {E A B} (m : eff S E A) (k : A -> eff S E B) s :
  completes m s -> (forall s' x, m s = (s', inr x) -> completes (k x) s') -> completes (m ≫= k) s.
Proof. intros (s' & x & Hm) Hk. eapply completes_run; [exact Hm | by apply Hk]. Qed.

Lemma completes_of_result {A B} (r : result A) x (k : A -> eff S error B) s : r = Ok x -> completes (k x) s -> completes (of_result r ≫= k) s.
Proof. intros ->. by apply completes_run. Qed.

(** ** Programs that stay inside a preorder *)

Definition preserves {E A} (R : S -> S -> Prop) (m : eff S E A) : Prop := forall s s' r, m s = (s', r) -> R s s'.

Context (R : S -> S -> Prop) `{!PreOrder R}.

Lemma preserves_kept {E A} (m : eff S E A) s s' r : preserves R m -> m s = (s', r) -> R s s'.
Proof. intros Hm Hr. by eapply Hm. Qed.

Lemma preserves_pure {E A} (m : eff S E A) : (forall s, (m s).1 = s) -> preserves R m.
Proof. intros Hm s s' r Hr. specialize (Hm s). rewrite Hr in Hm. cbn in Hm. by subst. Qed.

Lemma preserves_bind {E A B} (m : eff S E A) (k : A -> eff S E B) :
  preserves R m -> (forall x, preserves R (k x)) -> preserves R (m ≫= k).
Proof.
  intros Hm Hk s s' r [(e & He & _) | (s1 & x & Hx & Hr)]%bind_run; [by eapply Hm |].
  transitivity s1; [by eapply Hm | by eapply Hk].
Qed.

Lemma preserves_fmap {E A B} (f : A -> B) (m : eff S E A) : preserves R m -> preserves R (f <$> m).
Proof.
  intros Hm s s' r. unfold fmap, eff_fmap. destruct (m s) as [s1 [e | x]] eqn:Hr; intros [= <- <-]; by eapply Hm.
Qed.

Lemma preserves_try {E A} (m : eff S error A) : preserves R m -> preserves R (try (E := E) m).
Proof. intros Hm s s' r [(x & Hx & _) | (e & He & _)]%try_run; by eapply Hm. Qed.

Lemma preserves_contextual {A} m (x : eff S error A) : preserves R x -> preserves R (contextual m x).
Proof. intros Hx s s' r (r' & Hr & _)%contextual_run. by eapply Hx. Qed.

Lemma preserves_update {E} f : (forall s, R s (f s)) -> preserves R (update (E := E) f).
Proof. by intros Hf s s' r [= <- <-]. Qed.

Lemma preserves_ret {E A} (x : A) : preserves R (mret (M := eff S E) x).
Proof. by apply preserves_pure. Qed.

Lemma preserves_throw {E A} (e : E) : preserves R (throw (A := A) e).
Proof. by apply preserves_pure. Qed.

Lemma preserves_read {E A} (f : S -> A) : preserves R (read (E := E) f).
Proof. by apply preserves_pure. Qed.

Lemma preserves_require {E} b (e : E) : preserves R (require b e).
Proof. apply preserves_pure. by destruct b. Qed.

Lemma preserves_of_result {A} (r : result A) : preserves R (of_result r).
Proof. by apply preserves_pure. Qed.

(** What follows a result may use that it is one. *)
Lemma preserves_of_result_bind {A B} (x : result A) (k : A -> eff S error B) :
  (forall a, x = Ok a -> preserves R (k a)) -> preserves R (of_result x ≫= k).
Proof.
  intros Hk s s' r [(e & [-> _]%of_result_answer & _) | (s1 & a & [-> Ha]%of_result_answer & Hr)]%bind_run; [reflexivity |].
  by eapply Hk.
Qed.
End Effects.

(** [preserved] proves [preserves R m] by the shape of [m]; what it leaves are
    the updates and the calls that are no lemma of the database [eff]. *)
Create HintDb eff discriminated.

Ltac preserved_step :=
  match goal with
  | |- forall _, preserves _ _ => intros ?
  | |- preserves _ (let _ := _ in _) => cbv zeta
  | |- preserves _ (mbind _ _) => apply preserves_bind; [exact _ | |]
  | |- preserves _ (fmap _ _) => apply preserves_fmap
  | |- preserves _ (try _) => apply preserves_try
  | |- preserves _ (contextual _ _) => apply preserves_contextual
  | |- preserves _ (mret _) => apply preserves_ret; exact _
  | |- preserves _ (throw _) => apply preserves_throw; exact _
  | |- preserves _ (read _) => apply preserves_read; exact _
  | |- preserves _ (require _ _) => apply preserves_require; exact _
  | |- preserves _ (of_result _) => apply preserves_of_result; exact _
  | |- preserves _ (match ?x with _ => _ end) => destruct x
  | |- preserves _ _ => solve [eauto with eff]
  end.

Ltac preserved := repeat preserved_step.

(** [forward tac] runs the first call of a program forwards, with [tac] for what it answers. *)
Ltac forward tac := erewrite run_bind; [| tac]; cbv beta iota.
