(* ===== verification/RelayCodec.v ===== *)
(** * The relay envelope (crates/gofro-relay/src/lib.rs, codec.rs)

    [budget] constants, the xorshift byte stream, [encode] and [decode] over
    mutable byte buffers, and [packet_seed] with its atomic counter. *)

From stdpp Require Import base strings list.
From Stdlib Require Import ZArith Lia Znumtheory.
From S2P Require Import Prelude.

(** ** The packet budget (lib.rs) *)

Definition IPV4_UDP_OVERHEAD : Z := 20 + 8.
Definition WIREGUARD_DATA_OVERHEAD : Z := 16 + 16.
Definition RELAY_HEADER_SIZE : Z := 10.
Definition RELAY_MAX_PADDING : Z := 31.
Definition MIN_UPLINK_MTU : Z := 1480.
Definition MIN_TUNNEL_MTU : Z := 1280.
Definition TUNNEL_MTU : Z :=
  wrap 16 (MIN_UPLINK_MTU - IPV4_UDP_OVERHEAD - WIREGUARD_DATA_OVERHEAD
           - RELAY_HEADER_SIZE - RELAY_MAX_PADDING).
Definition TCP_MSS : Z := MIN_TUNNEL_MTU - 20 - 20.

(** ** The codec *)

Definition BUFFER_SIZE : nat := 4096.
Definition SEED_STEP : Z := 0x9e3779b9.
Definition HEADER_SIZE : nat := Z.to_nat RELAY_HEADER_SIZE.
Definition SEED_MASK : Z := 0xa076_1d64_78bd_642f.

(** [*s ^= *s << 13; *s ^= *s >> 7; *s ^= *s << 17] on a [u64]; the byte is the top one. *)
Definition next_state (s : Z) : Z :=
  let s := Z.lxor s (wrap 64 (Z.shiftl s 13)) in
  let s := Z.lxor s (Z.shiftr s 7) in
  Z.lxor s (wrap 64 (Z.shiftl s 17)).

Definition next_byte (state : Z) : Z * Z :=
  let state := next_state state in (Z.shiftr state 56, state).

(** [for (t, s) in target.zip(source) { *t = s ^ next_byte(&mut stream) }] *)
Fixpoint mask (stream : Z) (source : list Z) : list Z * Z :=
  match source with
  | [] => ([], stream)
  | b :: bs =>
      let '(k, stream) := next_byte stream in
      let '(bs', stream) := mask stream bs in
      (Z.lxor b k :: bs', stream)
  end.

(** [for byte in target { *byte = next_byte(&mut stream) }] *)
Fixpoint fill (n : nat) (stream : Z) : list Z * Z :=
  match n with
  | O => ([], stream)
  | S n' =>
      let '(k, stream) := next_byte stream in
      let '(bs, stream) := fill n' stream in
      (k :: bs, stream)
  end.

Definition padding_of (k : Z) : nat := Z.to_nat (Z.land k RELAY_MAX_PADDING).

(** [encode]: the seed of this packet is the argument [seed]; the result is the
    output buffer after the call and the length of the packet in it. *)
Definition encode (seed : Z) (plain output : list Z) : result (list Z * nat) :=
  if (u16_max <? Z.of_nat (length plain)) then Err (Msg "WireGuard datagram is too large")
  else
    let len := Z.of_nat (length plain) in
    let stream := Z.lxor seed SEED_MASK in
    let '(k, stream) := next_byte stream in
    let padding := padding_of k in
    let size := (HEADER_SIZE + length plain + padding)%nat in
    if (length output <? size)%nat then Err (Msg "relay output buffer is too small")
    else
      let output := splice 0 (to_le_bytes 8 seed) output in
      let '(masked_length, stream) := mask stream (to_le_bytes 2 len) in
      let output := splice 8 masked_length output in
      let '(masked_plain, stream) := mask stream plain in
      let output := splice HEADER_SIZE masked_plain output in
      let '(noise, stream) := fill padding stream in
      let output := splice (HEADER_SIZE + length plain) noise output in
      Ok (output, size).

Definition packet (r : list Z * nat) : list Z := take (snd r) (fst r).

(** [decode]: [None], or the output buffer after the call and the decoded length. *)
Definition decode (pkt output : list Z) : option (list Z * nat) :=
  if (length pkt <? HEADER_SIZE)%nat then None
  else
    let seed := from_le_bytes (take 8 pkt) in
    let stream := Z.lxor seed SEED_MASK in
    let '(k, stream) := next_byte stream in
    let padding := padding_of k in
    let '(masked_length, stream) := mask stream (take 2 (drop 8 pkt)) in
    let len := Z.to_nat (from_le_bytes masked_length) in
    if (length output <? len)%nat || negb (HEADER_SIZE + len + padding =? length pkt)%nat
    then None
    else
      let '(plain, stream) := mask stream (take len (drop HEADER_SIZE pkt)) in
      Some (splice 0 plain output, len).

(** [PACKET_COUNTER.fetch_add(SEED_STEP)] xor the clock: the seed and the new counter. *)
Definition packet_seed (counter time : Z) : Z * Z :=
  (Z.lxor counter (wrap 64 time), wrap 32 (counter + SEED_STEP)).

(** The counter after [n] packets. *)
Fixpoint counter_after (n : nat) (counter : Z) : Z :=
  match n with
  | O => counter
  | S n' => snd (packet_seed (counter_after n' counter) 0)
  end.

(** ** Lemmas *)

Lemma mask_length stream l : length (fst (mask stream l)) = length l.
Proof.
  revert stream. induction l as [| b l IH]; intros stream; cbn; [done |].
  specialize (IH (next_state stream)).
  destruct (mask (next_state stream) l). cbn in *. by rewrite IH.
Qed.

(** Masking twice from the same state is the identity and ends in the same state. *)
Lemma mask_involutive stream l :
  fst (mask stream (fst (mask stream l))) = l /\
  snd (mask stream (fst (mask stream l))) = snd (mask stream l).
Proof.
  revert stream. induction l as [| b l IH]; intros stream; cbn; [done |].
  specialize (IH (next_state stream)).
  destruct (mask (next_state stream) l) as [l' s'] eqn:E. cbn in *.
  destruct (mask (next_state stream) l') as [l'' s''] eqn:E'. cbn in *.
  destruct IH as [-> ->]. split; [| done]. by rewrite lxor_cancel_r.
Qed.

Lemma fill_length n stream : length (fst (fill n stream)) = n.
Proof.
  revert stream. induction n as [| n IH]; intros stream; cbn; [done |].
  specialize (IH (next_state stream)). destruct (fill n _). cbn in *. by rewrite IH.
Qed.

#[export] Hint Rewrite mask_length fill_length : rust_rw.

Lemma next_state_range s : is_u 64 s -> is_u 64 (next_state s).
Proof. intros. unfold next_state. auto 8 with rust lia. Qed.

Lemma next_byte_range s : is_u 64 s -> is_u 8 (fst (next_byte s)) /\ is_u 64 (snd (next_byte s)).
Proof.
  intros Hs. pose proof (next_state_range s Hs) as Hn. split; [| done].
  cbn. unfold is_u in *. rewrite Z.shiftr_div_pow2 by lia. split.
  - apply Z.div_pos; lia.
  - apply Z.div_lt_upper_bound; lia.
Qed.

Lemma padding_of_bound k : 0 <= k -> (padding_of k <= 31)%nat.
Proof.
  intros Hk. unfold padding_of, RELAY_MAX_PADDING. change 31 with (Z.ones 5).
  rewrite Z.land_ones by lia. pose proof (Z.mod_pos_bound k (2 ^ 5) ltac:(lia)).
  change (2 ^ 5) with 32 in *. lia.
Qed.

(** The packet [encode] leaves in the buffer, as one list. *)
Definition wire (seed : Z) (plain : list Z) : list Z :=
  let '(k, stream) := next_byte (Z.lxor seed SEED_MASK) in
  let '(l, stream) := mask stream (to_le_bytes 2 (Z.of_nat (length plain))) in
  let '(p, stream) := mask stream plain in
  to_le_bytes 8 seed ++ l ++ p ++ fst (fill (padding_of k) stream).

Definition padding_len (seed : Z) : nat :=
  padding_of (fst (next_byte (Z.lxor seed SEED_MASK))).

Lemma wire_length seed plain :
  length (wire seed plain) = (HEADER_SIZE + length plain + padding_len seed)%nat.
Proof.
  unfold wire, padding_len. destruct (next_byte _) as [k s] eqn:Ek.
  pose proof (mask_length s (to_le_bytes 2 (Z.of_nat (length plain)))) as Hl.
  destruct (mask s _) as [l s1].
  pose proof (mask_length s1 plain) as Hp. destruct (mask s1 plain) as [p s2].
  cbn [fst] in *. autorewrite with rust_rw. rewrite Hl, Hp. autorewrite with rust_rw.
  unfold HEADER_SIZE, RELAY_HEADER_SIZE. lia.
Qed.

(** Writing consecutive pieces into a buffer leaves their concatenation. *)
Lemma splice_splice (a b buf : list Z) off :
  (off + length a + length b <= length buf)%nat ->
  splice (off + length a) b (splice off a buf) = splice off (a ++ b) buf.
Proof.
  intros H. unfold splice at 1. rewrite splice_take by lia.
  unfold splice at 2. rewrite length_app. rewrite <- app_assoc.
  f_equal. rewrite <- app_assoc. f_equal. f_equal.
  replace (off + length a + length b)%nat with (off + length a + length b)%nat by lia.
  rewrite <- drop_drop, splice_drop, drop_drop by lia. f_equal. lia.
Qed.

Lemma encode_wire seed plain output :
  Z.of_nat (length plain) <= u16_max ->
  (length (wire seed plain) <= length output)%nat ->
  encode seed plain output =
  Ok (splice 0 (wire seed plain) output, length (wire seed plain)).
Proof.
  intros Hmax Hlen. rewrite wire_length in *. unfold padding_len in *. unfold encode, wire.
  rewrite (proj2 (Z.ltb_ge _ _)) by lia.
  destruct (next_byte _) as [k s]. cbn [fst] in *.
  rewrite (proj2 (Nat.ltb_ge _ _)) by lia.
  pose proof (mask_length s (to_le_bytes 2 (Z.of_nat (length plain)))) as Hl.
  destruct (mask s _) as [l s1]. cbn [fst] in Hl. rewrite to_le_bytes_length in Hl.
  pose proof (mask_length s1 plain) as Hp. destruct (mask s1 plain) as [p s2]. cbn [fst] in Hp.
  pose proof (fill_length (padding_of k) s2) as Hf.
  destruct (fill _ s2) as [f s3]. cbn [fst] in *.
  change HEADER_SIZE with 10%nat in *. f_equal. f_equal.
  pose proof (to_le_bytes_length 8 seed) as H8. set (h := to_le_bytes 8 seed) in *.
  replace (10 + length plain)%nat with (0 + length (h ++ l ++ p))%nat
    by (autorewrite with rust_rw; lia).
  replace 10%nat with (0 + length (h ++ l))%nat at 1 by (autorewrite with rust_rw; lia).
  replace 8%nat with (0 + length h)%nat by lia.
  rewrite splice_splice by lia.
  rewrite (splice_splice (h ++ l) p) by (autorewrite with rust_rw; lia).
  rewrite <- app_assoc. rewrite splice_splice by (autorewrite with rust_rw; lia).
  by rewrite <- !app_assoc.
Qed.

Lemma packet_wire seed plain output :
  (length (wire seed plain) <= length output)%nat ->
  packet (splice 0 (wire seed plain) output, length (wire seed plain)) = wire seed plain.
Proof. intros. apply take_splice_0. Qed.

(** [decode] accepts exactly the packets whose length is the one their header announces. *)
Lemma decode_shape pkt output out len :
  decode pkt output = Some (out, len) ->
  (len <= length output)%nat /\
  (HEADER_SIZE + len + padding_len (from_le_bytes (take 8 pkt)) = length pkt)%nat.
Proof.
  unfold decode, padding_len. destruct (length pkt <? HEADER_SIZE)%nat eqn:E; [done |].
  destruct (next_byte _) as [k s]. cbn [fst].
  destruct (mask s _) as [ml s1]. set (n := Z.to_nat (from_le_bytes ml)).
  destruct (_ || _) eqn:G; [done |]. apply orb_false_iff in G as [G1 G2].
  apply Nat.ltb_ge in G1. apply negb_false_iff, Nat.eqb_eq in G2.
  destruct (mask s1 _). intros [= _ <-]. lia.
Qed.

Lemma decode_wire seed plain output :
  is_u 64 seed -> Z.of_nat (length plain) <= u16_max ->
  (length plain <= length output)%nat ->
  decode (wire seed plain) output = Some (splice 0 plain output, length plain).
Proof.
  intros Hseed Hmax Hout. unfold decode.
  rewrite (proj2 (Nat.ltb_ge _ _)) by (rewrite wire_length; lia).
  assert (from_le_bytes (take 8 (wire seed plain)) = seed) as ->.
  { unfold wire. destruct (next_byte _) as [k s]. destruct (mask s _) as [l s1].
    destruct (mask s1 plain) as [p s2].
    rewrite take_length_app by apply to_le_bytes_length. by apply from_to_le_bytes. }
  pose proof (wire_length seed plain) as Hwl. unfold padding_len in Hwl. revert Hwl.
  unfold wire. destruct (next_byte _) as [k s]. cbn [fst].
  set (lb := to_le_bytes 2 (Z.of_nat (length plain))).
  destruct (mask_involutive s lb) as [Hi1 Hi2].
  pose proof (mask_length s lb) as Hl.
  destruct (mask s lb) as [l s1] eqn:El. cbn [fst snd] in *.
  assert (length lb = 2%nat) as Hlb by apply to_le_bytes_length.
  destruct (mask_involutive s1 plain) as [Hp1 _].
  pose proof (mask_length s1 plain) as Hp. destruct (mask s1 plain) as [p s2]. cbn [fst] in *.
  rewrite drop_length_app by apply to_le_bytes_length. intros Hwl.
  rewrite take_length_app by lia.
  destruct (mask s l) as [lb' s1'] eqn:El'. cbn [fst snd] in *. subst lb' s1'.
  assert (from_le_bytes lb = Z.of_nat (length plain)) as ->
    by (apply from_to_le_bytes; unfold u16_max in *; cbn; lia).
  rewrite Nat2Z.id, Hwl.
  rewrite (proj2 (Nat.ltb_ge _ _)) by lia. rewrite Nat.eqb_refl. cbn [orb negb].
  replace (drop HEADER_SIZE _) with (p ++ (fill (padding_of k) s2).1).
  2: { change HEADER_SIZE with 10%nat. rewrite app_assoc, drop_length_app; [done |].
       rewrite length_app, to_le_bytes_length. lia. }
  rewrite take_length_app by lia.
  destruct (mask s1 p) as [plain' s']. cbn [fst] in Hp1. by subst plain'.
Qed.

(** ** Properties *)

(** Whatever [encode] wrote, [decode] reads into any buffer it fits. *)
Lemma decode_packet (seed : Z) (plain output output' : list Z) (r : list Z * nat) :
  is_u 64 seed ->
  encode seed plain output = Ok r ->
  (length plain <= length output')%nat ->
  decode (packet r) output' = Some (splice 0 plain output', length plain).
Proof.
  intros Hseed He Hout.
  assert (Z.of_nat (length plain) <= u16_max) as Hmax.
  { unfold encode in He. destruct (Z.ltb_spec u16_max (Z.of_nat (length plain))); [done | lia]. }
  assert (length (wire seed plain) <= length output)%nat as Hfit.
  { rewrite wire_length. unfold padding_len. unfold encode in He.
    rewrite (proj2 (Z.ltb_ge _ _)) in He by lia.
    destruct (next_byte _) as [k s]. cbn [fst].
    destruct (_ <? _)%nat eqn:E in He; [done |]. by apply Nat.ltb_ge in E. }
  rewrite encode_wire in He by done. injection He as <-.
  rewrite packet_wire by done. by apply decode_wire.
Qed.

(** C11.  Round trip of the envelope: whatever the packet's seed, a WireGuard
    datagram of at most 65535 bytes that fits the buffers is recovered exactly
    by the peer's [decode] from what [encode] wrote. *)
Theorem encode_decode_roundtrip (seed : Z) (plain output output' : list Z) (r : list Z * nat) :
  is_u 64 seed ->
  encode seed plain output = Ok r ->
  (length plain <= length output')%nat ->
  decode (packet r) output' = Some (splice 0 plain output', length plain) /\
  take (length plain) (splice 0 plain output') = plain.
Proof. intros Hseed He Hout. split; [by eapply decode_packet | apply take_splice_0]. Qed.

(** Both outcomes of the two guards of [encode]. *)
Lemma encode_total seed plain output :
  (exists r, encode seed plain output = Ok r) <->
  Z.of_nat (length plain) <= u16_max /\ (HEADER_SIZE + length plain + padding_len seed <= length output)%nat.
Proof.
  rewrite <- wire_length. split.
  - intros [r He]. unfold encode in He.
    destruct (Z.ltb_spec u16_max (Z.of_nat (length plain))); [done |]. split; [done |].
    rewrite wire_length. unfold padding_len. destruct (next_byte _) as [k s]. cbn [fst].
    destruct (_ <? _)%nat eqn:E in He; [done |]. by apply Nat.ltb_ge in E.
  - intros [H1 H2]. rewrite encode_wire by done. eauto.
Qed.

(** The MTU budget: a full tunnel packet with WireGuard's overhead always
    encodes into the 4096-byte buffer, and the envelope with its IPv4/UDP header
    fits the 1480-byte uplink, whatever padding the seed draws. *)
Theorem full_tunnel_packet_fits_uplink (seed : Z) (plain output : list Z) :
  is_u 64 seed ->
  Z.of_nat (length plain) <= TUNNEL_MTU + WIREGUARD_DATA_OVERHEAD ->
  length output = BUFFER_SIZE ->
  exists r, encode seed plain output = Ok r /\
    Z.of_nat (length (packet r)) + IPV4_UDP_OVERHEAD <= MIN_UPLINK_MTU.
Proof.
  intros Hseed Hlen Hout.
  change (TUNNEL_MTU + WIREGUARD_DATA_OVERHEAD) with 1411 in Hlen.
  assert (padding_len seed <= 31)%nat as Hpad.
  { apply padding_of_bound. apply next_byte_range.
    apply lxor_is_u; [lia | done |]. by unfold is_u, SEED_MASK. }
  pose proof (wire_length seed plain) as Hw. change HEADER_SIZE with 10%nat in Hw.
  unfold BUFFER_SIZE in Hout.
  exists (splice 0 (wire seed plain) output, length (wire seed plain)). split.
  - apply encode_wire; [unfold u16_max; lia | lia].
  - rewrite packet_wire by lia. rewrite Hw. unfold IPV4_UDP_OVERHEAD, MIN_UPLINK_MTU. lia.
Qed.

(**  Truncation is always detected: no proper prefix of an encoded packet
    decodes, into any buffer. *)
Theorem decode_rejects_truncation (seed : Z) (plain output output' : list Z) (r : list Z * nat) (n : nat) :
  is_u 64 seed ->
  encode seed plain output = Ok r ->
  (n < length (packet r))%nat ->
  decode (take n (packet r)) output' = None.
Proof.
  intros Hseed He Hn.
  assert (Z.of_nat (length plain) <= u16_max /\ (length (wire seed plain) <= length output)%nat) as [Hmax Hfit].
  { rewrite wire_length. apply encode_total. eauto. }
  rewrite encode_wire in He by done. injection He as <-.
  rewrite packet_wire in * by done.
  destruct (decide (n < HEADER_SIZE)%nat) as [Hs | Hs].
  { unfold decode. rewrite (proj2 (Nat.ltb_lt _ _)); [done |]. rewrite length_take. lia. }
  pose proof (wire_length seed plain) as Hwl.
  pose proof (decode_wire seed plain plain Hseed Hmax ltac:(lia)) as Hd.
  assert (take 8 (take n (wire seed plain)) = take 8 (wire seed plain)) as H8
    by (rewrite take_take; f_equal; change HEADER_SIZE with 10%nat in Hs; lia).
  assert (take 2 (drop 8 (take n (wire seed plain))) = take 2 (drop 8 (wire seed plain))) as H2.
  { rewrite !take_drop_commute, take_take. change HEADER_SIZE with 10%nat in Hs.
    by rewrite Nat.min_l by lia. }
  revert Hd. unfold decode. rewrite H8, H2.
  rewrite (proj2 (Nat.ltb_ge _ _)) by lia.
  rewrite (proj2 (Nat.ltb_ge (length (take n _)) _)) by (rewrite length_take; lia).
  destruct (next_byte _) as [k s]. destruct (mask s _) as [ml s1].
  destruct (_ || _) eqn:G at 1; [done |]. intros _.
  apply orb_false_iff in G as [_ G]. apply negb_false_iff, Nat.eqb_eq in G.
  rewrite (proj2 (Nat.eqb_neq _ _)); [by rewrite orb_true_r |].
  rewrite length_take. lia.
Qed.

(** The counter walks [2^32] distinct values, because the step is odd. *)
Lemma counter_after_eq n c : is_u 32 c -> counter_after n c = wrap 32 (c + Z.of_nat n * SEED_STEP).
Proof.
  intros Hc. induction n as [| n IH]; cbn [counter_after].
  - rewrite Z.mul_0_l, Z.add_0_r. symmetry. by apply wrap_small.
  - cbn. rewrite IH. unfold wrap. rewrite Zplus_mod_idemp_l. f_equal. lia.
Qed.

Lemma seed_step_inverse x : is_u 32 x -> wrap 32 (x * SEED_STEP) = 0 -> x = 0.
Proof.
  unfold is_u, wrap. change (2 ^ 32) with 4294967296. intros Hx H.
  apply Z.mod_divide in H; [| lia].
  assert (Z.divide 4294967296 x) as [q ->].
  { apply (Z.gauss _ SEED_STEP); [by rewrite Z.mul_comm |]. reflexivity. }
  lia.
Qed.

(**  Seeds do not repeat: two packets encoded at the same clock reading get
    different seeds unless at least 2^32 packets lie between them, so their
    byte streams start from different states. *)
Theorem packet_seeds_distinct (counter time : Z) (i j : nat) :
  is_u 32 counter -> (i < j)%nat -> Z.of_nat j - Z.of_nat i < 2 ^ 32 ->
  fst (packet_seed (counter_after i counter) time) <>
  fst (packet_seed (counter_after j counter) time).
Proof.
  intros Hc Hij Hlt. cbn. intros E.
  apply (f_equal (fun z => Z.lxor z (wrap 64 time))) in E. rewrite !lxor_cancel_r in E.
  rewrite !counter_after_eq in E by done.
  assert (Z.of_nat j - Z.of_nat i = 0); [| lia].
  apply seed_step_inverse; [unfold is_u; lia |].
  unfold wrap in *. rewrite Z.mul_sub_distr_r.
  replace (Z.of_nat j * SEED_STEP - Z.of_nat i * SEED_STEP)
    with ((counter + Z.of_nat j * SEED_STEP) - (counter + Z.of_nat i * SEED_STEP)) by lia.
  by rewrite Zminus_mod, E, Z.sub_diag.
Qed.

(** ** Witnesses *)

Definition sample_seed : Z := 0x0123456789abcdef.
Definition sample_plain : list Z := [119; 105; 114; 101; 103; 117; 97; 114; 100].

Lemma encode_decode_roundtrip_witness :
  exists r, encode sample_seed sample_plain (replicate 64 0) = Ok r /\
  decode (packet r) (replicate 20 7) = Some (splice 0 sample_plain (replicate 20 7), 9%nat) /\
  take 9 (splice 0 sample_plain (replicate 20 7)) = sample_plain.
Proof.
  eexists. split; [vm_compute; reflexivity |].
  apply (encode_decode_roundtrip sample_seed sample_plain (replicate 64 0));
    [by unfold is_u, sample_seed | vm_compute; reflexivity | cbn; lia].
Defined.

Lemma full_tunnel_packet_fits_uplink_witness :
  exists r, encode sample_seed (replicate 1411 90) (replicate BUFFER_SIZE 0) = Ok r /\
    Z.of_nat (length (packet r)) + IPV4_UDP_OVERHEAD <= MIN_UPLINK_MTU.
Proof.
  apply full_tunnel_packet_fits_uplink;
    [by unfold is_u, sample_seed | vm_compute; discriminate | apply length_replicate].
Defined.

Lemma decode_rejects_truncation_witness :
  exists r, encode sample_seed sample_plain (replicate 64 0) = Ok r /\
  decode (take 18 (packet r)) (replicate 20 7) = None.
Proof.
  eexists. split; [vm_compute; reflexivity |].
  apply (decode_rejects_truncation sample_seed sample_plain (replicate 64 0));
    [by unfold is_u, sample_seed | vm_compute; reflexivity | vm_compute; lia].
Defined.

Lemma packet_seeds_distinct_witness :
  fst (packet_seed (counter_after 0 SEED_STEP) 1700000000) <>
  fst (packet_seed (counter_after 3 SEED_STEP) 1700000000).
Proof. apply packet_seeds_distinct; [by unfold is_u, SEED_STEP | lia | cbn; lia]. Defined.

(** The constants of the unit tests of lib.rs. *)
Example tunnel_mtu_is_1379 : TUNNEL_MTU = 1379 /\ TCP_MSS = 1240.
Proof. done. Qed.
