(* ===== verification/RelayBatch.v ===== *)
(** * Batched datagrams and the relay client (crates/gofro-relay/src/batch.rs, client.rs)

    A UDP socket is what the operating system answers to its calls: the [n]-th
    [send] of a run is answered by [os_send n].  The datagrams handed to the
    system are logged in order. *)

From stdpp Require Import base strings list.
From Stdlib Require Import ZArith Lia.
From S2P Require Import Prelude RelayCodec.

(** [std::io::ErrorKind], as far as the relay looks at it. *)
Inductive io_kind :=
| WouldBlock
| TimedOut
| NetworkUnreachable
| InvalidInput
| WriteZero
| OtherKind (n : Z).

#[export] Instance io_kind_eq_dec : EqDecision io_kind.
Proof. solve_decision. Defined.

Inductive io (A : Type) :=
| IoOk (a : A)
| IoErr (k : io_kind).
Arguments IoOk {A} a.
Arguments IoErr {A} k.

(** ** batch.rs *)

Definition BATCH_SIZE : nat := 4.

(** What a run of [send] calls has handed to the system so far. *)
Abbreviation log := (list (list Z)).

Section Socket.
Variable os_send : nat -> list Z -> io nat.

Definition send (l : log) (datagram : list Z) : io nat * log :=
  (os_send (length l) datagram, l ++ [datagram]).

(** [for (buffer, length) in buffers.iter().zip(lengths).take(count)] *)
Fixpoint send_each (l : log) (pairs : list (list Z * nat)) : io unit * log :=
  match pairs with
  | [] => (IoOk tt, l)
  | (buffer, len) :: rest =>
      let '(r, l) := send l (take len buffer) in
      match r with
      | IoErr k => (IoErr k, l)
      | IoOk n => if (n =? len)%nat then send_each l rest else (IoErr WriteZero, l)
      end
  end.

Definition send_many (l : log) (buffers : list (list Z)) (lengths : list nat) (count : nat)
  : io unit * log :=
  if (BATCH_SIZE <? count)%nat || existsb (fun n => BUFFER_SIZE <? n)%nat (take count lengths)
  then (IoErr InvalidInput, l)
  else send_each l (take count (zip buffers lengths)).

(** [send_encoded] (codec.rs): one datagram through a fresh buffer. *)
Definition send_encoded (l : log) (seed : Z) (plain : list Z) : result unit * log :=
  match encode seed plain (replicate BUFFER_SIZE 0) with
  | Err e => (Err e, l)
  | Ok r =>
      let '(sent, l) := send l (packet r) in
      match sent with
      | IoErr _ => (Err (Ctx "UDP send failed" (Msg "io")), l)
      | IoOk n => (ensure (n =? length (packet r))%nat "partial UDP send", l)
      end
  end.
End Socket.

(** ** client.rs *)

(** The body of [forward_encoded] up to [send_many]: datagram [i] of the batch
    is encoded into buffer [i] with the seed [seeds i]. *)
Fixpoint encode_batch (seeds : nat -> Z) (plain : list (list Z)) (plain_lengths : list nat)
  (encoded : list (list Z)) (encoded_lengths : list nat) (index count : nat)
  : result (list (list Z) * list nat) :=
  match count with
  | O => Ok (encoded, encoded_lengths)
  | S count' =>
      let p := default [] (plain !! index) in
      let n := default O (plain_lengths !! index) in
      let target := default [] (encoded !! index) in
      match encode (seeds index) (take n p) target with
      | Err e => Err e
      | Ok (buf, size) =>
          encode_batch seeds plain plain_lengths (<[index := buf]> encoded)
            (<[index := size]> encoded_lengths) (S index) count'
      end
  end.

(** The body of [forward_decoded] up to [send_many]: undecodable packets are
    dropped, the others fill the buffers from the front. *)
Fixpoint decode_batch (encoded : list (list Z)) (encoded_lengths : list nat)
  (plain : list (list Z)) (plain_lengths : list nat) (index count decoded_count : nat)
  : list (list Z) * list nat * nat :=
  match count with
  | O => (plain, plain_lengths, decoded_count)
  | S count' =>
      let pkt := take (default O (encoded_lengths !! index)) (default [] (encoded !! index)) in
      match decode pkt (default [] (plain !! decoded_count)) with
      | None => decode_batch encoded encoded_lengths plain plain_lengths (S index) count' decoded_count
      | Some (buf, n) =>
          decode_batch encoded encoded_lengths (<[decoded_count := buf]> plain)
            (<[decoded_count := n]> plain_lengths) (S index) count' (S decoded_count)
      end
  end.

(** The datagrams a batch stands for. *)
Definition datagrams (buffers : list (list Z)) (lengths : list nat) (count : nat) : list (list Z) :=
  (fun '(b, n) => take n b) <$> take count (zip buffers lengths).

(** [retry_connect] and the connection loop of [client::run]: the outcome of
    each [bind; configure; connect] attempt is given; [None] means every attempt
    so far asks for another one. *)
Definition retry_connect (k : io_kind) : bool := bool_decide (k = NetworkUnreachable).

Inductive attempt :=
| BindFailed
| ConfigureFailed
| Connected (socket : Z)
| ConnectFailed (k : io_kind).

Fixpoint connect_loop (endpoint : string) (attempts : list attempt) : option (result Z) :=
  match attempts with
  | [] => None
  | BindFailed :: _ => Some (Err (Ctx "failed to bind relay client socket" (Msg "io")))
  | ConfigureFailed :: _ => Some (Err (Ctx "failed to configure remote relay socket" (Msg "io")))
  | Connected s :: _ => Some (Ok s)
  | ConnectFailed k :: rest =>
      if retry_connect k then connect_loop endpoint rest
      else Some (Err (Ctx ("failed to connect to " +:+ endpoint) (Msg "io")))
  end.

(** ** Lemmas *)

(** What reaches the system is a prefix of the batch, in order; it is the whole
    batch when the call succeeds. *)
Lemma send_each_log os l pairs r l' :
  send_each os l pairs = (r, l') ->
  exists k, (k <= length pairs)%nat /\
    l' = l ++ ((fun '(b, n) => take n b) <$> take k pairs) /\
    (r = IoOk tt -> k = length pairs).
Proof.
  revert l. induction pairs as [| [b n] pairs IH]; intros l; cbn.
  - intros [= <- <-]. exists 0%nat. by rewrite app_nil_r.
  - destruct (os (length l) (take n b)) as [m | k].
    + destruct (m =? n)%nat.
      * intros H. destruct (IH _ H) as (k & Hk & -> & Hok). exists (S k).
        split; [lia |]. rewrite <- app_assoc. split; [done |]. intros Hr. by rewrite (Hok Hr).
      * intros [= <- <-]. exists 1%nat. split_and!; [lia | done | done].
    + intros [= <- <-]. exists 1%nat. split_and!; [lia | done | done].
Qed.

Lemma datagrams_length buffers lengths count :
  length (datagrams buffers lengths count) = Nat.min count (Nat.min (length buffers) (length lengths)).
Proof. unfold datagrams. rewrite length_fmap, length_take, length_zip. lia. Qed.

Lemma existsb_false_Forall {A} (p : A -> bool) l : existsb p l = false <-> Forall (fun a => p a = false) l.
Proof.
  induction l as [| a l IH]; cbn; [by split |].
  rewrite orb_false_iff, IH, Forall_cons. done.
Qed.

(** One element of a list after [take (S n)] of two zipped, updated lists. *)
Lemma datagrams_insert_snoc buffers lengths n buf len :
  (n < length buffers)%nat -> (n < length lengths)%nat ->
  datagrams (<[n := buf]> buffers) (<[n := len]> lengths) (S n) =
  datagrams buffers lengths n ++ [take len buf].
Proof.
  intros Hb Hl. unfold datagrams. apply list_eq. intros i.
  rewrite list_lookup_fmap.
  destruct (decide (i < n)%nat) as [Hi | Hi].
  - rewrite lookup_app_l by (rewrite length_fmap, length_take, length_zip; lia).
    rewrite list_lookup_fmap, !lookup_take, !decide_True by lia.
    rewrite !lookup_zip_with, !list_lookup_insert_ne by lia. done.
  - rewrite lookup_app_r by (rewrite length_fmap, length_take, length_zip; lia).
    rewrite length_fmap, length_take, length_zip.
    destruct (decide (i = n)) as [-> | Hne].
    + replace (n - n `min` (length buffers `min` length lengths))%nat with 0%nat by lia.
      rewrite lookup_take, decide_True, lookup_zip_with by lia.
      rewrite !list_lookup_insert_eq by done. done.
    + rewrite lookup_take, decide_False by lia. symmetry. apply lookup_ge_None. cbn. lia.
Qed.

(** What the batch decoder should produce: the decodable packets, in order. *)
Definition decoded_of (pkt : list Z) : option (list Z) :=
  match decode pkt (replicate BUFFER_SIZE 0) with
  | Some (buf, n) => Some (take n buf)
  | None => None
  end.

Lemma decode_buffer_irrelevant pkt o1 o2 :
  length o1 = length o2 ->
  match decode pkt o1, decode pkt o2 with
  | Some (b1, n1), Some (b2, n2) => n1 = n2 /\ take n1 b1 = take n2 b2 /\ length b1 = length o1
  | None, None => True
  | _, _ => False
  end.
Proof.
  intros Hlen. unfold decode. destruct (_ <? _)%nat; [done |].
  destruct (next_byte _) as [k s]. destruct (mask s _) as [ml s1]. rewrite Hlen.
  set (n := Z.to_nat (from_le_bytes ml)).
  destruct (_ || _) eqn:G; [done |]. apply orb_false_iff in G as [G1 G2].
  apply Nat.ltb_ge in G1. apply negb_false_iff, Nat.eqb_eq in G2.
  pose proof (mask_length s1 (take n (drop HEADER_SIZE pkt))) as Hm.
  destruct (mask s1 _) as [p s2]. cbn [fst] in Hm.
  rewrite length_take, length_drop in Hm.
  assert (length p = n) as Hp by lia.
  split; [done |]. rewrite <- Hp, !take_splice_0. split; [done |].
  rewrite splice_length; lia.
Qed.

Lemma decode_into pkt o :
  length o = BUFFER_SIZE ->
  match decode pkt o with
  | Some (b, n) => decoded_of pkt = Some (take n b) /\ length b = BUFFER_SIZE
  | None => decoded_of pkt = None
  end.
Proof.
  intros Ho. unfold decoded_of.
  pose proof (decode_buffer_irrelevant pkt o (replicate BUFFER_SIZE 0)) as H.
  rewrite length_replicate in H. specialize (H Ho).
  destruct (decode pkt o) as [[b n] |], (decode pkt (replicate _ _)) as [[b' n'] |]; try done.
  destruct H as (-> & -> & Hb). split; [done | congruence].
Qed.

(** The loop of [forward_decoded], generalised over where it stands. *)
Lemma decode_batch_spec encoded encoded_lengths :
  forall count index plain plain_lengths decoded_count,
  (decoded_count <= index)%nat -> (index + count <= length plain)%nat ->
  length plain = length plain_lengths ->
  (index + count <= length encoded)%nat -> (index + count <= length encoded_lengths)%nat ->
  Forall (fun b => length b = BUFFER_SIZE) plain ->
  let '(plain', lengths', n) :=
    decode_batch encoded encoded_lengths plain plain_lengths index count decoded_count in
  datagrams plain' lengths' n =
    datagrams plain plain_lengths decoded_count ++
    omap decoded_of (take count (drop index (datagrams encoded encoded_lengths (index + count)))) /\
  (n <= decoded_count + count)%nat.
Proof.
  induction count as [| count IH]; intros index plain plain_lengths dc Hdc Hp Hpl He Hel Hall;
    cbn [decode_batch].
  - rewrite take_0, app_nil_r. split; [done | lia].
  - set (pkt := take _ (default [] (encoded !! index))).
    assert (take (S count) (drop index (datagrams encoded encoded_lengths (index + S count))) =
      pkt :: take count (drop (S index) (datagrams encoded encoded_lengths (S index + count)))) as Hcons.
    { destruct (lookup_lt_is_Some_2 encoded index ltac:(lia)) as [b Hb].
      destruct (lookup_lt_is_Some_2 encoded_lengths index ltac:(lia)) as [m Hm].
      replace (S index + count)%nat with (index + S count)%nat by lia.
      set (d := datagrams encoded encoded_lengths (index + S count)).
      assert (d !! index = Some pkt) as Hd.
      { unfold d, datagrams, pkt. rewrite list_lookup_fmap, lookup_take, decide_True by lia.
        rewrite lookup_zip_with, Hb, Hm. done. }
      rewrite (drop_S _ _ _ Hd). done. }
    rewrite Hcons. clear Hcons.
    destruct (lookup_lt_is_Some_2 plain dc ltac:(lia)) as [target Ht].
    rewrite Ht. cbn [default from_option id].
    assert (length target = BUFFER_SIZE) as Htl by exact (Forall_lookup_1 _ _ _ _ Hall Ht).
    pose proof (decode_into pkt target Htl) as Hd.
    destruct (decode pkt target) as [[b n] |].
    + destruct Hd as [Hd Hb]. cbn [omap list_omap]. rewrite Hd.
      specialize (IH (S index) (<[dc := b]> plain) (<[dc := n]> plain_lengths) (S dc)).
      rewrite !length_insert in IH.
      specialize (IH ltac:(lia) ltac:(lia) Hpl ltac:(lia) ltac:(lia)).
      specialize (IH ltac:(by apply Forall_insert)).
      destruct (decode_batch _ _ _ _ _ _ _) as [[plain' lengths'] m].
      destruct IH as [-> Hm]. rewrite datagrams_insert_snoc by lia.
      rewrite <- app_assoc. split; [done | lia].
    + cbn [omap list_omap]. rewrite Hd.
      specialize (IH (S index) plain plain_lengths dc ltac:(lia) ltac:(lia) Hpl ltac:(lia) ltac:(lia) Hall).
      destruct (decode_batch _ _ _ _ _ _ _) as [[plain' lengths'] m].
      destruct IH as [-> Hm]. split; [done | lia].
Qed.

(** The loop of [forward_encoded]. *)
Lemma encode_batch_spec seeds plain plain_lengths :
  forall count index encoded encoded_lengths encoded' lengths',
  length encoded = length encoded_lengths ->
  (index + count <= length encoded)%nat ->
  encode_batch seeds plain plain_lengths encoded encoded_lengths index count = Ok (encoded', lengths') ->
  length encoded' = length encoded /\ length lengths' = length encoded_lengths /\
  (forall j, (j < index)%nat -> encoded' !! j = encoded !! j /\ lengths' !! j = encoded_lengths !! j) /\
  forall j, (index <= j < index + count)%nat -> exists r buf,
    encode (seeds j) (take (default O (plain_lengths !! j)) (default [] (plain !! j))) buf = Ok r /\
    encoded' !! j = Some (fst r) /\ lengths' !! j = Some (snd r).
Proof.
  induction count as [| count IH]; intros index encoded lengths encoded' lengths' Hl Hi; cbn [encode_batch].
  - intros [= <- <-]. split_and!; [done | done | done |]. intros; lia.
  - destruct (encode _ _ _) as [[buf size] | e] eqn:E; [| done].
    intros H. apply IH in H; [| by rewrite !length_insert | rewrite length_insert; lia].
    rewrite !length_insert in H. destruct H as (H1 & H2 & Hlow & Hhigh).
    split_and!; [done | done | |].
    + intros j Hj. destruct (Hlow j ltac:(lia)) as [-> ->].
      rewrite !list_lookup_insert_ne by lia. done.
    + intros j Hj. destruct (decide (j = index)) as [-> | Hne]; [| apply Hhigh; lia].
      destruct (Hlow index ltac:(lia)) as [-> ->].
      rewrite !list_lookup_insert_eq by lia. exists (buf, size). eauto.
Qed.

(** ** Properties *)

(**  [send_many] never reorders, duplicates or truncates a batch: on success
    the system received exactly the first [count] datagrams in order; on an I/O
    error it received a prefix of them; an invalid batch sends nothing. *)
Theorem send_many_in_order os l buffers lengths count r l' :
  length buffers = BATCH_SIZE -> length lengths = BATCH_SIZE ->
  send_many os l buffers lengths count = (r, l') ->
  (r = IoOk tt -> l' = l ++ datagrams buffers lengths count /\ (count <= BATCH_SIZE)%nat) /\
  (exists k, l' = l ++ take k (datagrams buffers lengths count)) /\
  ((BATCH_SIZE < count)%nat \/ Exists (fun n => (BUFFER_SIZE < n)%nat) (take count lengths) ->
   r = IoErr InvalidInput /\ l' = l).
Proof.
  intros Hb Hl. unfold send_many.
  destruct (_ || _) eqn:G.
  - intros [= <- <-]. split_and!; [done | exists 0%nat; by rewrite take_0, app_nil_r | done].
  - apply orb_false_iff in G as [G1 G2]. apply Nat.ltb_ge in G1.
    rewrite existsb_false_Forall in G2. intros H.
    destruct (send_each_log _ _ _ _ _ H) as (k & Hk & -> & Hok). split_and!.
    + intros Hr. rewrite (Hok Hr), firstn_all. done.
    + exists k. unfold datagrams. by rewrite fmap_take.
    + intros [Hlt | Hex]; [lia |]. exfalso.
      apply Exists_exists in Hex as (n & Hin & Hn).
      rewrite Forall_forall in G2. specialize (G2 n Hin). apply Nat.ltb_ge in G2. lia.
Qed.

(**  What the client forwards to WireGuard is exactly the decodable packets
    of the batch, in their order; the others are dropped without a gap. *)
Theorem forward_decoded_batch encoded encoded_lengths plain plain_lengths count :
  length encoded = BATCH_SIZE -> length encoded_lengths = BATCH_SIZE ->
  length plain = BATCH_SIZE -> length plain_lengths = BATCH_SIZE ->
  Forall (fun b => length b = BUFFER_SIZE) plain -> (count <= BATCH_SIZE)%nat ->
  let '(plain', lengths', n) := decode_batch encoded encoded_lengths plain plain_lengths 0 count 0 in
  datagrams plain' lengths' n = omap decoded_of (datagrams encoded encoded_lengths count) /\
  (n <= count)%nat.
Proof.
  intros He Hel Hp Hpl Hall Hc.
  pose proof (decode_batch_spec encoded encoded_lengths count 0 plain plain_lengths 0) as H.
  rewrite Hp, Hpl, He, Hel in H.
  specialize (H ltac:(lia) ltac:(lia) eq_refl ltac:(lia) ltac:(lia) Hall).
  destruct (decode_batch _ _ _ _ _ _ _) as [[plain' lengths'] n].
  rewrite drop_0 in H. cbn [Nat.add] in H.
  replace (take count (datagrams encoded encoded_lengths count))
    with (datagrams encoded encoded_lengths count) in H.
  2: { symmetry. apply take_ge. rewrite datagrams_length. lia. }
  exact H.
Qed.

(**  End to end through the relay: whatever a batch of [forward_encoded] put
    on the wire, the peer decodes to the very datagrams WireGuard handed over. *)
Theorem relay_batch_roundtrip seeds plain plain_lengths encoded encoded_lengths count encoded' lengths' :
  (forall j, is_u 64 (seeds j)) ->
  length encoded = length encoded_lengths -> (count <= length encoded)%nat ->
  length plain = BATCH_SIZE -> length plain_lengths = BATCH_SIZE -> (count <= BATCH_SIZE)%nat ->
  Forall (fun b => length b = BUFFER_SIZE) plain ->
  encode_batch seeds plain plain_lengths encoded encoded_lengths 0 count = Ok (encoded', lengths') ->
  omap decoded_of (datagrams encoded' lengths' count) = datagrams plain plain_lengths count.
Proof.
  intros Hs Hl Hc Hp Hpl Hcb Hall He.
  destruct (encode_batch_spec _ _ _ count 0 _ _ _ _ Hl Hc He) as (He' & Hl' & _ & Hj).
  assert (forall j, (j < count)%nat -> exists p n b m,
    plain !! j = Some p /\ plain_lengths !! j = Some n /\ encoded' !! j = Some b /\
    lengths' !! j = Some m /\ decoded_of (take m b) = Some (take n p)) as Hd.
  { intros j Hlt.
    destruct (lookup_lt_is_Some_2 plain j ltac:(lia)) as [p Hpj].
    destruct (lookup_lt_is_Some_2 plain_lengths j ltac:(lia)) as [n Hnj].
    destruct (Hj j ltac:(lia)) as (r & buf & Henc & Hb & Hm). rewrite Hpj, Hnj in Henc. cbn [default from_option id] in Henc.
    exists p, n, (fst r), (snd r). split_and!; [done | done | done | done |].
    assert (length (take n p) <= length (replicate BUFFER_SIZE 0%Z))%nat as Hfit.
    { rewrite length_take, length_replicate, (Forall_lookup_1 _ _ _ _ Hall Hpj). lia. }
    pose proof (decode_packet _ _ _ _ _ (Hs j) Henc Hfit) as Hdec. pose proof (take_splice_0 (take n p) (replicate BUFFER_SIZE 0)) as Htake.
    unfold decoded_of. unfold packet in Hdec. rewrite Hdec. by rewrite Htake. }
  clear He Hj. revert Hd. assert (count <= length encoded')%nat by lia.
  assert (count <= length lengths')%nat by lia.
  assert (count <= length plain)%nat by lia. assert (count <= length plain_lengths)%nat by lia.
  clear - H H0 H1 H2. revert encoded' lengths' plain plain_lengths H H0 H1 H2.
  induction count as [| count IH]; intros [| b bs] [| m ms] [| p ps] [| n ns]; cbn; try (done || lia).
  intros ???? Hd. destruct (Hd 0%nat ltac:(lia)) as (? & ? & ? & ? & [= <-] & [= <-] & [= <-] & [= <-] & E).
  unfold datagrams. cbn. rewrite E. f_equal. apply IH; [lia | lia | lia | lia |].
  intros j Hj. exact (Hd (S j) ltac:(lia)).
Qed.

(** The reconnection loop ends with the first outcome that is not
    [NetworkUnreachable], and only then. *)
Lemma connect_loop_retries endpoint (n : nat) rest :
  connect_loop endpoint (replicate n (ConnectFailed NetworkUnreachable) ++ rest) =
  connect_loop endpoint rest.
Proof. induction n as [| n IH]; [done |]. cbn. exact IH. Qed.

(** ** Witnesses *)

Definition sample_buffers : list (list Z) := [[1; 2; 3]; [4; 5; 6]; [7; 8; 9]; [0; 0; 0]].

Lemma send_many_in_order_witness :
  let r := send_many (fun _ d => IoOk (length d)) [] sample_buffers [2; 1; 3; 0]%nat 3 in
  fst r = IoOk tt /\ snd r = [[1; 2]; [4]; [7; 8; 9]].
Proof.
  destruct (send_many_in_order (fun _ d => IoOk (length d)) [] sample_buffers [2; 1; 3; 0]%nat 3
    (IoOk tt) [[1; 2]; [4]; [7; 8; 9]] eq_refl eq_refl ltac:(vm_compute; reflexivity)) as [H _].
  destruct (H eq_refl) as [_ _]. split; vm_compute; reflexivity.
Defined.

Definition sample_wire : list Z := wire 42 [104; 105].

Lemma forward_decoded_batch_witness :
  let '(plain', lengths', n) := decode_batch [sample_wire; [1]; sample_wire; []]
    [length sample_wire; 1; length sample_wire; 0]%nat
    (replicate 4 (replicate BUFFER_SIZE 0)) [0; 0; 0; 0]%nat 0 4 0 in
  datagrams plain' lengths' n = [[104; 105]; [104; 105]] /\ (n <= 4)%nat.
Proof.
  pose proof (forward_decoded_batch [sample_wire; [1]; sample_wire; []]
    [length sample_wire; 1; length sample_wire; 0]%nat
    (replicate 4 (replicate BUFFER_SIZE 0)) [0; 0; 0; 0]%nat 4 eq_refl eq_refl eq_refl eq_refl
    ltac:(apply Forall_replicate, length_replicate) (le_n 4)) as H.
  destruct (decode_batch _ _ _ _ _ _ _) as [[plain' lengths'] n].
  destruct H as [-> Hn]. split; [vm_compute; reflexivity | done].
Defined.

Definition sample_seeds (j : nat) : Z := match j with O => 7 | _ => 0xfedcba98 end.

Lemma relay_batch_roundtrip_witness :
  exists e l, encode_batch sample_seeds (replicate 4 (replicate BUFFER_SIZE 65)) [3; 5; 0; 0]%nat
    (replicate 4 (replicate 64 0)) [0; 0; 0; 0]%nat 0 2 = Ok (e, l) /\
  omap decoded_of (datagrams e l 2) = [[65; 65; 65]; [65; 65; 65; 65; 65]].
Proof.
  eexists _, _. split; [vm_compute; reflexivity |].
  rewrite (relay_batch_roundtrip sample_seeds (replicate 4 (replicate BUFFER_SIZE 65))
    [3; 5; 0; 0]%nat (replicate 4 (replicate 64 0)) [0; 0; 0; 0]%nat 2);
    [vm_compute; reflexivity | by intros [| j] | done | cbn; lia | done | done | unfold BATCH_SIZE; lia
    | apply Forall_replicate, length_replicate | vm_compute; reflexivity].
Defined.
