(* ===== verification/RelayClient.v ===== *)
(** * A session of the relay client (crates/gofro-relay/src/client.rs)

    [run] and its two forwarding threads over the operations of RelayBatch.v: how
    the sockets are set up, and then the rounds of both threads in any order.
    [recv_many] is that of batch.rs, one datagram a call; the buffers live as long as
    their threads, so a round starts with what the last one left in them. *)

From stdpp Require Import base strings list relations.
From Stdlib Require Import Ascii ZArith Lia.
From S2P Require Import Prelude RustStd RelayCodec RelayBatch.

(** ** The threads *)

(** The buffers of a thread, and what it gave to the system. *)
Record thread := Thread {
  t_in : list (list Z);
  t_in_lengths : list nat;
  t_out : list (list Z);
  t_out_lengths : list nat;
  t_log : list (list Z);
}.

(** [[[0; BUFFER_SIZE]; BATCH_SIZE]], beside what was sent before *)
Definition new_thread (sent : list (list Z)) : thread :=
  Thread (replicate BATCH_SIZE (replicate BUFFER_SIZE 0)) (replicate BATCH_SIZE 0%nat)
    (replicate BATCH_SIZE (replicate BUFFER_SIZE 0)) (replicate BATCH_SIZE 0%nat) sent.

(** [recv_many]: the kernel writes one datagram, of at most the buffer's length, over the first buffer. *)
Definition recv_many (datagram : list Z) (buffers : list (list Z)) (lengths : list nat) : list (list Z) * list nat * nat :=
  (<[0%nat := splice 0 datagram (default [] (buffers !! 0%nat))]> buffers, <[0%nat := length datagram]> lengths, 1%nat).

(** What a call that moves datagrams gives back to its loop. *)
Definition sent (r : io unit) : result unit := match r with IoOk _ => Ok tt | IoErr _ => Err (Ctx "UDP batch send failed" (Msg "io")) end.

(** A round of [forward_encoded] with the datagram it receives. *)
Definition forward_encoded (os : nat -> list Z -> io nat) (seeds : nat -> Z) (datagram : list Z) (t : thread) : thread * result unit :=
  let '(plain, plain_lengths, count) := recv_many datagram (t_in t) (t_in_lengths t) in
  match encode_batch seeds plain plain_lengths (t_out t) (t_out_lengths t) 0 count with
  | Err e => (Thread plain plain_lengths (t_out t) (t_out_lengths t) (t_log t), Err e)
  | Ok (encoded, encoded_lengths) =>
      let '(r, log) := send_many os (t_log t) encoded encoded_lengths count in
      (Thread plain plain_lengths encoded encoded_lengths log, sent r)
  end.

(** A round of [forward_decoded]. *)
Definition forward_decoded (os : nat -> list Z -> io nat) (datagram : list Z) (t : thread) : thread * result unit :=
  let '(encoded, encoded_lengths, count) := recv_many datagram (t_in t) (t_in_lengths t) in
  let '(plain, plain_lengths, decoded_count) := decode_batch encoded encoded_lengths (t_out t) (t_out_lengths t) 0 count 0 in
  let '(r, log) := send_many os (t_log t) plain plain_lengths decoded_count in
  (Thread encoded encoded_lengths plain plain_lengths log, sent r).

(** ** A session *)

(** The two threads, what was received on their sockets, and whether one of them failed, which ends the process. *)
Record session := Session {
  up : thread;
  down : thread;
  from_wireguard : list (list Z);
  from_server : list (list Z);
  over : bool;
}.

(** What the system answers before the threads start. *)
Record setup := Setup {
  server_path : string;
  server_file : result string;
  listen : string;
  bind_local : result unit;
  configure_local : result unit;
  attempts : list attempt;
  first_datagram : result (list Z);
  connect_local : result unit;
  clone : result unit;
}.

(** [run] up to its threads; [None]: the endpoint has been unreachable so far. *)
Definition start (os : nat -> list Z -> io nat) (seed : Z) (s : setup) : option (result session) :=
  match with_context ("failed to read " +:+ server_path s) (server_file s) with
  | Err e => Some (Err e)
  | Ok endpoint =>
      match (_ ← with_context ("failed to bind " +:+ listen s) (bind_local s);
             with_context "failed to configure local relay socket" (configure_local s)) with
      | Err e => Some (Err e)
      | Ok _ =>
          remote ← connect_loop (trim endpoint) (attempts s);
          Some (
            _ ← remote;
            first ← with_context "failed to receive initial WireGuard datagram" (first_datagram s);
            _ ← with_context "failed to connect local WireGuard socket" (connect_local s);
            let '(r, log) := send_encoded os [] seed first in
            _ ← r;
            _ ← clone s;
            Ok (Session (new_thread log) (new_thread []) [first] [] false))
      end
  end.

Definition is_err {A} (r : result A) : bool := match r with Ok _ => false | Err _ => true end.

Inductive round : session -> session -> Prop :=
| Up os seeds datagram s t r :
    over s = false -> (length datagram <= BUFFER_SIZE)%nat -> (forall j, is_u 64 (seeds j)) ->
    forward_encoded os seeds datagram (up s) = (t, r) ->
    round s (Session t (down s) (from_wireguard s ++ [datagram]) (from_server s) (is_err r))
| Down os datagram s t r :
    over s = false -> (length datagram <= BUFFER_SIZE)%nat ->
    forward_decoded os datagram (down s) = (t, r) ->
    round s (Session (up s) t (from_wireguard s) (from_server s ++ [datagram]) (is_err r))
| ReceiveFailed s : over s = false -> round s (Session (up s) (down s) (from_wireguard s) (from_server s) true).

(** ** The buffers *)

#[local] Opaque BUFFER_SIZE.

Record wf (t : thread) : Prop := {
  wf_in : length (t_in t) = BATCH_SIZE;
  wf_in_lengths : length (t_in_lengths t) = BATCH_SIZE;
  wf_out : length (t_out t) = BATCH_SIZE;
  wf_out_lengths : length (t_out_lengths t) = BATCH_SIZE;
  wf_buffers : Forall (fun b => length b = BUFFER_SIZE) (t_in t);
}.

Lemma new_thread_wf log : wf (new_thread log).
Proof. split; [done.. |]. apply Forall_replicate, length_replicate. Qed.

(** What [recv_many] leaves: one datagram, whatever the buffers held. *)
Lemma recv_many_run datagram t plain plain_lengths count : wf t -> (length datagram <= BUFFER_SIZE)%nat ->
  recv_many datagram (t_in t) (t_in_lengths t) = (plain, plain_lengths, count) ->
  count = 1%nat /\ length plain = BATCH_SIZE /\ length plain_lengths = BATCH_SIZE
  /\ Forall (fun b => length b = BUFFER_SIZE) plain /\ datagrams plain plain_lengths 1 = [datagram].
Proof.
  intros [Hi Hil _ _ Hb] Hd Hr. unfold recv_many in Hr. destruct (t_in t) as [| b ins], (t_in_lengths t) as [| n inl]; try done.
  apply Forall_cons in Hb as [Hb Hbs]. injection Hr as <- <- <-. split_and!; [done | done | done | |].
  - constructor; [| done]. rewrite <- Hb. apply splice_length. by rewrite Hb.
  - unfold datagrams. cbn [zip zip_with take fmap list_fmap]. by rewrite (take_splice_0 datagram b).
Qed.

Lemma decode_batch_buffers encoded encoded_lengths count : forall index plain plain_lengths decoded_count plain' lengths' n,
  Forall (fun b => length b = BUFFER_SIZE) plain -> (decoded_count + count <= length plain)%nat ->
  decode_batch encoded encoded_lengths plain plain_lengths index count decoded_count = (plain', lengths', n) ->
  length plain' = length plain /\ length lengths' = length plain_lengths /\ Forall (fun b => length b = BUFFER_SIZE) plain'.
Proof.
  induction count as [| count IH]; intros index plain plain_lengths dc plain' lengths' n Hall Hlen; cbn [decode_batch]; [by intros [= <- <- <-] |].
  destruct (lookup_lt_is_Some_2 plain dc ltac:(lia)) as [target Ht]. rewrite Ht. cbn [default from_option id].
  set (pkt := take _ _). pose proof (decode_into pkt target (Forall_lookup_1 _ _ _ _ Hall Ht)) as Hd.
  destruct (decode pkt target) as [[b m] |]; [| apply IH; [done | lia]].
  intros Hr%IH; [by rewrite !length_insert in Hr | by apply Forall_insert; [| apply Hd] | rewrite length_insert; lia].
Qed.

(** ** Rounds *)

Lemma omap_prefix {A B} (f : A -> option B) l k : l `prefix_of` k -> omap f l `prefix_of` omap f k.
Proof. intros (m & ->). rewrite omap_app. by apply prefix_app_r. Qed.

(** A round of [forward_encoded]: the datagram is on the wire, or the thread fails. *)
Lemma forward_encoded_run os seeds datagram t t' r : wf t -> (length datagram <= BUFFER_SIZE)%nat -> (forall j, is_u 64 (seeds j)) ->
  forward_encoded os seeds datagram t = (t', r) ->
  wf t' /\ exists l, t_log t' = t_log t ++ l /\ omap decoded_of l `prefix_of` [datagram] /\ (r = Ok tt -> omap decoded_of l = [datagram]).
Proof.
  intros Hwf Hd Hs. unfold forward_encoded. destruct (recv_many _ _ _) as [[plain lengths] count] eqn:Hrecv.
  apply recv_many_run in Hrecv as (-> & Hp & Hl & Hb & Hone); [| done..]. destruct Hwf as [_ _ Ho Hol _].
  destruct (encode_batch _ _ _ _ _ _ _) as [[encoded elengths] | e] eqn:He.
  2: { intros [= <- <-]. split; [by split |]. exists []. rewrite app_nil_r. split_and!; [done | by exists [datagram] | done]. }
  assert (length (t_out t) = length (t_out_lengths t)) as Hlen by congruence.
  pose proof He as (He1 & He2 & _)%encode_batch_spec; [| done | rewrite Ho; unfold BATCH_SIZE; lia].
  apply relay_batch_roundtrip in He; [| done | congruence | rewrite Ho; unfold BATCH_SIZE; lia | done | done | unfold BATCH_SIZE; lia | done].
  destruct (send_many _ _ _ _ _) as [s log] eqn:Hsend.
  apply send_many_in_order in Hsend as (Hok & (k & Hk) & _); [| congruence..]. intros [= <- <-].
  split; [split; cbn [t_in t_in_lengths t_out t_out_lengths]; first [congruence | done] |]. rewrite Hone in He. cbn [t_log].
  destruct s as [[] | e].
  - destruct (Hok eq_refl) as [-> _]. exists (datagrams encoded elengths 1). rewrite He. by split_and!.
  - exists (take k (datagrams encoded elengths 1)). split_and!; [done | | done]. rewrite <- He. by apply omap_prefix, prefix_take.
Qed.

(** A round of [forward_decoded]: what the datagram decodes to is handed over, nothing when it does not, or the thread fails. *)
Lemma forward_decoded_run os datagram t t' r : wf t -> Forall (fun b => length b = BUFFER_SIZE) (t_out t) -> (length datagram <= BUFFER_SIZE)%nat ->
  forward_decoded os datagram t = (t', r) ->
  wf t' /\ Forall (fun b => length b = BUFFER_SIZE) (t_out t')
  /\ exists l, t_log t' = t_log t ++ l /\ l `prefix_of` omap decoded_of [datagram] /\ (r = Ok tt -> l = omap decoded_of [datagram]).
Proof.
  intros Hwf Hout Hd. unfold forward_decoded. destruct (recv_many _ _ _) as [[encoded elengths] count] eqn:Hrecv.
  apply recv_many_run in Hrecv as (-> & Hp & Hl & Hb & Hone); [| done..]. destruct Hwf as [_ _ Ho Hol _].
  pose proof (forward_decoded_batch encoded elengths (t_out t) (t_out_lengths t) 1 Hp Hl Ho Hol Hout ltac:(unfold BATCH_SIZE; lia)) as Hdec.
  destruct (decode_batch _ _ _ _ _ _ _) as [[plain lengths] n] eqn:He. destruct Hdec as [Hdec _]. rewrite Hone in Hdec.
  apply decode_batch_buffers in He as (Hp1 & Hp2 & Hp3); [| done | rewrite Ho; unfold BATCH_SIZE; lia].
  destruct (send_many _ _ _ _ _) as [s log] eqn:Hsend.
  apply send_many_in_order in Hsend as (Hok & (k & Hk) & _); [| congruence..]. intros [= <- <-].
  split; [split; cbn [t_in t_in_lengths t_out t_out_lengths]; first [congruence | done] |]. split; [done |]. rewrite <- Hdec. cbn [t_log].
  destruct s as [[] | e].
  - destruct (Hok eq_refl) as [-> _]. exists (datagrams plain lengths n). by split_and!.
  - exists (take k (datagrams plain lengths n)). split_and!; [done | apply prefix_take | done].
Qed.

(** ** A session *)

Definition faithful (s : session) : Prop :=
  wf (up s) /\ wf (down s) /\ Forall (fun b => length b = BUFFER_SIZE) (t_out (down s))
  /\ omap decoded_of (t_log (up s)) `prefix_of` from_wireguard s
  /\ t_log (down s) `prefix_of` omap decoded_of (from_server s)
  /\ (over s = false -> omap decoded_of (t_log (up s)) = from_wireguard s /\ t_log (down s) = omap decoded_of (from_server s)).

Lemma start_faithful os seed st s0 : is_u 64 seed -> (forall d, first_datagram st = Ok d -> (length d <= BUFFER_SIZE)%nat) ->
  start os seed st = Some (Ok s0) -> faithful s0.
Proof.
  intros Hseed Hfirst. unfold start. destruct (server_file st) as [endpoint |]; [| done]. cbn [with_context].
  destruct (bind_local st); [| done]. cbn [with_context mbind result_bind]. destruct (configure_local st); [| done]. cbn [with_context].
  destruct (connect_loop _ _) as [[remote |] |]; [| done..]. cbn [mbind option_bind result_bind].
  destruct (first_datagram st) as [first |] eqn:Ef; [| done]. cbn [with_context mbind result_bind].
  destruct (connect_local st); [| done]. cbn [with_context mbind result_bind].
  destruct (send_encoded os [] seed first) as [r log] eqn:Hsend. destruct r as [[] |]; [| done]. cbn [mbind result_bind].
  destruct (clone st); [| done]. intros [= <-]. unfold send_encoded in Hsend.
  destruct (encode _ _ _) as [p |] eqn:He; [| done]. cbn in Hsend. destruct (os 0%nat _); [| done]. injection Hsend as _ <-.
  assert (decoded_of (packet p) = Some first) as Hdec.
  { pose proof (Hfirst first eq_refl) as Hlen. unfold decoded_of. erewrite decode_packet; [| done | exact He | by rewrite length_replicate].
    by rewrite take_splice_0. }
  assert (omap decoded_of [packet p] = [first]) as Hone by (cbn [omap list_omap]; by rewrite Hdec).
  unfold faithful. cbn [up down from_wireguard from_server over new_thread t_log t_out]. rewrite Hone.
  split_and!; [apply new_thread_wf | apply new_thread_wf | apply Forall_replicate, length_replicate | done.. ].
Qed.

Lemma round_faithful s s' : round s s' -> faithful s -> faithful s'.
Proof.
  intros Hround (Hu & Hd & Hb & _ & _ & Heq). destruct Hround as [os seeds datagram s t r Hover Hlen Hs Hr | os datagram s t r Hover Hlen Hr | s Hover];
    destruct (Heq Hover) as [Hup Hdown]; unfold faithful; cbn [up down from_wireguard from_server over].
  - apply forward_encoded_run in Hr as (Hu' & l & -> & Hp & Hok); [| done..]. rewrite omap_app, Hup, Hdown.
    split_and!; [done | done | done | by apply prefix_app | reflexivity |]. destruct r as [[] |]; [| done]. by rewrite Hok.
  - apply forward_decoded_run in Hr as (Hd' & Hb' & l & -> & Hp & Hok); [| done..]. rewrite omap_app, Hup, Hdown.
    split_and!; [done | done | done | reflexivity | by apply prefix_app |]. destruct r as [[] |]; [| done]. by rewrite Hok.
  - rewrite Hup, Hdown. by split_and!.
Qed.

(** C36. In every session of the relay client, in whatever order its two threads run:
    what the other end decodes of the packets on the wire is what WireGuard handed over, the
    first datagram included, each once and in order; and WireGuard is given exactly what
    decodes of what the server sent, in order.  When a thread has failed, which ends the
    process, both are prefixes: at most the last datagram is missing. *)
Theorem client_session_faithful os seed st s0 s
    (Hseed : is_u 64 seed) (Hfirst : forall d, first_datagram st = Ok d -> (length d <= BUFFER_SIZE)%nat)
    (Hstart : start os seed st = Some (Ok s0)) (Hrounds : rtc round s0 s) :
  (over s = false -> omap decoded_of (t_log (up s)) = from_wireguard s /\ t_log (down s) = omap decoded_of (from_server s))
  /\ omap decoded_of (t_log (up s)) `prefix_of` from_wireguard s
  /\ t_log (down s) `prefix_of` omap decoded_of (from_server s).
Proof.
  assert (faithful s) as (_ & _ & _ & Hup & Hdown & Heq); [| by split_and!].
  apply start_faithful in Hstart; [| done..]. induction Hrounds as [| s1 s2 s3 Hr _ IH]; [done |]. by eapply IH, round_faithful.
Qed.

(** ** A session with one round *)

Module SampleClient.

Definition whole_datagram (_ : nat) (d : list Z) : io nat := IoOk (length d).

Definition sockets : setup := {|
  server_path := "/etc/gofro/relay-endpoint";
  listen := "127.0.0.1:51822";
  server_file := Ok "vpn.example.net:8443"%string;
  bind_local := Ok tt;
  configure_local := Ok tt;
  attempts := [ConnectFailed NetworkUnreachable; Connected 5];
  first_datagram := Ok [1; 2; 3];
  connect_local := Ok tt;
  clone := Ok tt;
|}.

Definition fresh : session := Session (new_thread (send_encoded whole_datagram [] 7 [1; 2; 3]).2) (new_thread []) [[1; 2; 3]] [] false.

Definition seeds (j : nat) : Z := 0xfedcba98.

Definition one_round : session :=
  let '(t, r) := forward_encoded whole_datagram seeds [4; 5; 6; 7] (up fresh) in
  Session t (down fresh) (from_wireguard fresh ++ [[4; 5; 6; 7]]) (from_server fresh) (is_err r).

Lemma one_round_over : over one_round = false.
Proof. by vm_compute. Qed.

Lemma small_datagram : (length [4; 5; 6; 7] <= BUFFER_SIZE)%nat.
Proof. apply Nat.leb_le. by vm_compute. Qed.

Lemma one_round_runs : round fresh one_round.
Proof.
  unfold one_round. destruct (forward_encoded whole_datagram seeds [4; 5; 6; 7] (up fresh)) as [t r] eqn:E.
  apply (Up whole_datagram seeds [4; 5; 6; 7] fresh t r); [done | apply small_datagram | intros j; by split | exact E].
Qed.
End SampleClient.

Lemma client_session_faithful_witness :
  over SampleClient.one_round = false
  /\ omap decoded_of (t_log (up SampleClient.one_round)) = [[1; 2; 3]; [4; 5; 6; 7]].
Proof.
  split; [apply SampleClient.one_round_over |].
  destruct (client_session_faithful SampleClient.whole_datagram 7 SampleClient.sockets SampleClient.fresh SampleClient.one_round) as [Hall _].
  - done.
  - intros d [= <-]. transitivity (length [4; 5; 6; 7]); [cbn; lia | apply SampleClient.small_datagram].
  - by vm_compute.
  - apply rtc_once, SampleClient.one_round_runs.
  - apply Hall, SampleClient.one_round_over.
Defined.
