(* ===== verification/RelayServer.v ===== *)
(** * The relay server (crates/gofro-relay/src/server.rs)

    The session table, its cleanup, one iteration of [serve] and one iteration
    of a session's [return_packets] thread, and the interleaving of the two as
    a step relation.  A session and its thread share the [worker_alive] flag
    through an [Arc]: the flag lives in [workers], the session names it. *)

From stdpp Require Import base gmap strings list fin_maps fin_map_dom.
From Stdlib Require Import ZArith Lia.
From S2P Require Import Prelude RelayCodec RelayBatch.

Definition MAX_CLIENTS : nat := 256.
Definition CLIENT_IDLE : Z := 180.
Definition RECEIVE_TIMEOUT : Z := 10.

(** [unix_time]: seconds since the epoch, at most [u32::MAX]. *)
Definition unix_time (secs : Z) : Z := if secs <=? u32_max then secs else u32_max.

(** [is_idle(last_seen, idle)] at clock reading [secs]. *)
Definition is_idle (secs last_seen idle : Z) : bool :=
  idle <=? saturating_sub (unix_time secs) last_seen.

Section Server.
Context {Addr : Type} `{Countable Addr}.

(** [Session]: [worker] names the shared [worker_alive] flag. *)
Record session := Session { socket : nat; last_seen : Z; worker : nat }.

(** The captures of a [return_packets] thread, and its flag. *)
Record worker_state := Worker {
  local : nat;
  destination : Addr;
  worker_alive : bool;
  running : bool;
}.

Record server := Server {
  sessions : gmap Addr session;
  workers : gmap nat worker_state;
  next_id : nat;
  last_cleanup : Z;
  plain : list Z;
}.

Definition set_alive (w : worker_state) (b : bool) : worker_state :=
  Worker (local w) (destination w) b (running w).
Definition stop (w : worker_state) : worker_state :=
  Worker (local w) (destination w) false false.

Definition alive (st : server) (id : nat) : bool :=
  match workers st !! id with Some w => worker_alive w | None => false end.

(** [Drop for Session]: the thread is told to stop. *)
Definition drop_session (s : session) (ws : gmap nat worker_state) : gmap nat worker_state :=
  alter (fun w => set_alive w false) (worker s) ws.

(** Session number [n] is made with socket [n] and flag [n]. *)
Variable os_session : nat -> option error.
Variables (max_clients : nat) (idle : Z).

(** [Session::new]: any of its system calls can fail before the thread is
    started; the socket made so far is then closed and no thread exists. *)
Definition session_new (st : server) (source : Addr) (now : Z) : result (session * server) :=
  let n := next_id st in
  match os_session n with
  | Some e => Err e
  | None =>
      Ok (Session n (unix_time now) n,
          Server (sessions st) (<[n := Worker n source true true]> (workers st)) (S n)
            (last_cleanup st) (plain st))
  end.

Definition with_sessions (st : server) (m : gmap Addr session) (ws : gmap nat worker_state) : server :=
  Server m ws (next_id st) (last_cleanup st) (plain st).

(** The first half of [get_or_create_session]: forget a session whose thread died. *)
Definition reap (st : server) (source : Addr) : server :=
  match sessions st !! source with
  | Some s => if negb (alive st (worker s))
              then with_sessions st (delete source (sessions st)) (drop_session s (workers st))
              else st
  | None => st
  end.

(** [get_or_create_session]; the session is returned by its key. *)
Definition get_or_create_session (st : server) (source : Addr) (now : Z)
  : result (option session * server) :=
  let st := reap st source in
  match sessions st !! source with
  | Some s => Ok (Some s, st)
  | None =>
      if (max_clients <=? size (sessions st))%nat then Ok (None, st)
      else
        '(s, st) ← session_new st source now;
        Ok (Some s, with_sessions st (<[source := s]> (sessions st)) (workers st))
  end.

(** [remove_idle]: the clock is read once per session visited. *)
Definition expired (clock : Addr -> Z) (p : Addr * session) : Prop :=
  is_idle (clock (fst p)) (last_seen (snd p)) idle = true.

#[global] Instance expired_dec clock p : Decision (expired clock p).
Proof. unfold expired. apply _. Defined.

Definition remove_idle (clock : Addr -> Z) (st : server) : server :=
  let gone := filter (expired clock) (sessions st) in
  with_sessions st (filter (fun p => ~ expired clock p) (sessions st))
    (map_fold (fun _ s ws => drop_session s ws) (workers st) gone).

(** What [recv_from_many] can answer: the socket timed out, failed, or
    delivered one datagram with its source (its count is always 1). *)
Inductive received :=
| RecvTimeout
| RecvFailed
| RecvPacket (source : option Addr) (pkt : list Z).

(** A datagram handed to the system. *)
Inductive output :=
| ToWireguard (socket : nat) (datagram : list Z)
| ToClient (to : Addr) (pkt : list Z).

Definition set_cleanup (st : server) (now : Z) : server :=
  Server (sessions st) (workers st) (next_id st) now (plain st).
Definition set_plain (st : server) (buf : list Z) : server :=
  Server (sessions st) (workers st) (next_id st) (last_cleanup st) buf.

(** One iteration of the loop of [serve].  [now] is [Instant::now()], [clock]
    and [secs] the wall clock, [os_send] what [session.socket.send] answers. *)
Definition serve_iteration (st : server) (r : received) (now : Z) (clock : Addr -> Z) (secs : Z)
  (os_send : list Z -> io nat) : result (server * list output) :=
  match r with
  | RecvTimeout => Ok (set_cleanup (remove_idle clock st) now, [])
  | RecvFailed => Err (Ctx "UDP receive failed" (Msg "io"))
  | RecvPacket source pkt =>
      let st := if RECEIVE_TIMEOUT <=? saturating_sub now (last_cleanup st)
                then set_cleanup (remove_idle clock st) now else st in
      match decode pkt (plain st) with
      | None => Ok (st, [])
      | Some (buf, n) =>
          let st := set_plain st buf in
          let decoded := take n buf in
          source ← ok_or source "UDP source address missing";
          '(found, st) ← get_or_create_session st source secs;
          match found with
          | None => Ok (st, [])
          | Some s =>
              let s := Session (socket s) (unix_time secs) (worker s) in
              let st := with_sessions st (<[source := s]> (sessions st)) (workers st) in
              match os_send decoded with
              | IoErr _ => Err (Ctx "UDP send failed" (Msg "io"))
              | IoOk k => _ ← ensure (k =? n)%nat "partial UDP send";
                          Ok (st, [ToWireguard (socket s) decoded])
              end
          end
      end
  end.

(** One iteration of the loop of [return_packets], for a thread [w]: [inl] is
    the thread's next state with the packet it sent, [inr] its end. *)
Inductive local_recv :=
| LocalTimeout
| LocalFailed
| LocalPacket (datagram : list Z).

Definition return_packets_iteration (w : worker_state) (r : local_recv) (seed : Z)
  (os_send : list Z -> io nat) : option (list output) + result unit :=
  match r with
  | LocalTimeout => if negb (worker_alive w) then inr (Ok tt) else inl None
  | LocalFailed => inr (Err (Ctx "UDP receive failed" (Msg "io")))
  | LocalPacket datagram =>
      if negb (worker_alive w) then inr (Ok tt)
      else
        match encode seed datagram (replicate BUFFER_SIZE 0) with
        | Err e => inr (Err e)
        | Ok r =>
            match os_send (packet r) with
            | IoErr _ => inr (Err (Ctx "UDP send failed" (Msg "io")))
            | IoOk n =>
                if (n =? length (packet r))%nat
                then inl (Some [ToClient (destination w) (packet r)])
                else inr (Err (Msg "partial UDP send"))
            end
        end
  end.

Definition worker_step (st : server) (id : nat) (r : local_recv) (seed : Z) (os_send : list Z -> io nat)
  : option (server * list output) :=
  match workers st !! id with
  | None => None
  | Some w =>
      if negb (running w) then None
      else
        match return_packets_iteration w r seed os_send with
        | inl out => Some (st, default [] out)
        | inr _ => Some (with_sessions st (sessions st) (<[id := stop w]> (workers st)), [])
        end
  end.

(** The server and its threads, in any order. *)
Inductive step : server -> list output -> server -> Prop :=
| step_serve st r now clock secs os_send st' out :
    serve_iteration st r now clock secs os_send = Ok (st', out) -> step st out st'
| step_worker st id r seed os_send st' out :
    worker_step st id r seed os_send = Some (st', out) -> step st out st'.

Definition initial (now : Z) : server := Server ∅ ∅ 0 now (replicate BUFFER_SIZE 0).

Definition reachable (now : Z) (st : server) : Prop :=
  rtc (fun a b => exists out, step a out b) (initial now) st.

(** ** The invariant *)

Record wf (st : server) : Prop := {
  wf_bound : (size (sessions st) <= max_clients)%nat;
  (** a session's thread serves that session's client through its socket, and is told to
      stop by nobody but itself *)
  wf_worker : forall a s, sessions st !! a = Some s ->
    exists w, workers st !! worker s = Some w /\ destination w = a /\ local w = socket s /\ worker_alive w = running w;
  (** only the thread of a session of the table may go on *)
  wf_alive : forall id w, workers st !! id = Some w -> worker_alive w = true ->
    running w = true /\ exists s, sessions st !! destination w = Some s /\ worker s = id;
  wf_fresh : forall id, (next_id st <= id)%nat -> workers st !! id = None;
}.

(** The client a thread serves and its socket never change. *)
Lemma drop_session_lookup s ws id w' :
  drop_session s ws !! id = Some w' ->
  exists w, ws !! id = Some w /\ destination w' = destination w /\ local w' = local w /\
    running w' = running w /\ (worker_alive w' = true -> worker_alive w = true /\ id <> worker s).
Proof.
  unfold drop_session. rewrite lookup_alter. case_decide as E; [subst id |].
  - rewrite fmap_Some. intros (w & Hw & ->). exists w. cbn. naive_solver.
  - intros Hw. exists w'. naive_solver.
Qed.

Lemma drop_session_other s ws id : worker s <> id -> drop_session s ws !! id = ws !! id.
Proof. intros Hne. unfold drop_session. by rewrite lookup_alter, decide_False. Qed.

Lemma drop_session_None s ws id : ws !! id = None -> drop_session s ws !! id = None.
Proof. intros Hw. unfold drop_session. rewrite lookup_alter. case_decide as E; [subst id; by rewrite Hw | done]. Qed.

(** Removing a whole set of sessions from the table, with their [Drop]s. *)
Definition drop_all (gone : gmap Addr session) (ws : gmap nat worker_state) : gmap nat worker_state :=
  map_fold (fun _ s ws => drop_session s ws) ws gone.

Lemma drop_all_lookup gone ws :
  (forall id w', drop_all gone ws !! id = Some w' -> exists w, ws !! id = Some w /\
     destination w' = destination w /\ local w' = local w /\ running w' = running w /\
     (worker_alive w' = true -> worker_alive w = true /\
        forall a s, gone !! a = Some s -> worker s <> id)) /\
  (forall id, (forall a s, gone !! a = Some s -> worker s <> id) -> drop_all gone ws !! id = ws !! id) /\
  (forall id, ws !! id = None -> drop_all gone ws !! id = None).
Proof.
  unfold drop_all. apply (map_fold_weak_ind (fun r gone =>
    (forall id w', r !! id = Some w' -> exists w, ws !! id = Some w /\
       destination w' = destination w /\ local w' = local w /\ running w' = running w /\
       (worker_alive w' = true -> worker_alive w = true /\
          forall a s, gone !! a = Some s -> worker s <> id)) /\
    (forall id, (forall a s, gone !! a = Some s -> worker s <> id) -> r !! id = ws !! id) /\
    (forall id, ws !! id = None -> r !! id = None))).
  - split_and!; [| done | done]. intros id w' Hw. exists w'. by split_and!.
  - intros a s m r Hm (IH1 & IH2 & IH3). split_and!.
    + intros id w' Hw'. apply drop_session_lookup in Hw' as (w1 & Hw1 & -> & -> & -> & Ha1).
      destruct (IH1 id w1 Hw1) as (w & Hw & -> & -> & -> & Ha).
      exists w. split_and!; try done. intros Hal. destruct (Ha1 Hal) as [Hal1 Hne].
      destruct (Ha Hal1) as [Hal0 Hall]. split; [done |]. intros b t.
      rewrite lookup_insert. case_decide; [intros [= <-]; congruence | apply Hall].
    + intros id Hid. rewrite drop_session_other by (apply (Hid a); by rewrite lookup_insert_eq).
      apply IH2. intros b t Hb. apply (Hid b). by rewrite lookup_insert_ne by congruence.
    + intros id Hid. apply drop_session_None, IH3, Hid.
Qed.

Lemma wf_initial now : wf (initial now).
Proof.
  split; cbn.
  - rewrite map_size_empty. lia.
  - intros a s. by rewrite lookup_empty.
  - intros id w. by rewrite lookup_empty.
  - intros. apply lookup_empty.
Qed.

(** Any set of sessions can be dropped from the table. *)
Lemma wf_drop_all st keep gone :
  wf st -> keep ⊆ sessions st -> gone ⊆ sessions st -> (forall a, keep !! a = None \/ gone !! a = None) ->
  (forall a s, sessions st !! a = Some s -> keep !! a = Some s \/ gone !! a = Some s) ->
  wf (with_sessions st keep (drop_all gone (workers st))).
Proof.
  intros [Hb Hw Ha Hf] Hsub Hgone Hdisj Hsplit. destruct (drop_all_lookup gone (workers st)) as (D1 & D2 & D3).
  split; cbn [sessions workers next_id with_sessions].
  - pose proof (map_subseteq_size _ _ Hsub). lia.
  - intros a s Has. destruct (Hw a s (lookup_weaken _ _ _ _ Has Hsub)) as (w & Hw1 & Hd & Hl).
    exists w. rewrite D2; [done |]. intros b t Hbt Heq.
    destruct (Hw b t (lookup_weaken _ _ _ _ Hbt Hgone)) as (w' & Hw' & Hd' & _). rewrite Heq, Hw1 in Hw'. injection Hw' as <-.
    destruct (Hdisj a); congruence.
  - intros id w' Hw' Hal. destruct (D1 _ _ Hw') as (w & Hw1 & Hd & Hl & Hr & Hal').
    destruct (Hal' Hal) as [Hal1 Hne]. destruct (Ha id w Hw1 Hal1) as (Hrun & s & Hs & Hws).
    split; [congruence |]. exists s. rewrite Hd. split; [| done].
    destruct (Hsplit _ _ Hs) as [| Hg]; [done |]. by destruct (Hne _ _ Hg).
  - intros id Hid. apply D3, Hf, Hid.
Qed.

Lemma drop_all_singleton a s ws : drop_all {[a := s]} ws = drop_session s ws.
Proof. unfold drop_all. by rewrite map_fold_singleton. Qed.

Lemma wf_reap st source : wf st -> wf (reap st source).
Proof.
  intros Hwf. unfold reap. destruct (sessions st !! source) as [s |] eqn:E; [| done].
  destruct (negb _); [| done]. rewrite <- (drop_all_singleton source).
  apply wf_drop_all; [done | apply delete_subseteq | by apply map_singleton_subseteq_l | |].
  { intros a. destruct (decide (a = source)) as [-> | Hne]; [left; by rewrite lookup_delete_eq | right; by rewrite lookup_singleton_ne]. }
  intros a t Hat. destruct (decide (a = source)) as [-> | Hne].
  - right. rewrite lookup_singleton_eq. congruence.
  - left. by rewrite lookup_delete_ne.
Qed.

Lemma wf_remove_idle clock st : wf st -> wf (remove_idle clock st).
Proof.
  intros Hwf. unfold remove_idle. apply wf_drop_all; [done | apply map_filter_subseteq | apply map_filter_subseteq | |].
  { intros a. rewrite !map_lookup_filter. destruct (sessions st !! a) as [s |]; [| by left]. cbn.
    destruct (decide (expired clock (a, s))); [left | right]; by case_guard. }
  intros a s Has. destruct (decide (expired clock (a, s))).
  - right. by apply map_lookup_filter_Some_2.
  - left. by apply map_lookup_filter_Some_2.
Qed.

Lemma wf_same st st' :
  sessions st' = sessions st -> workers st' = workers st -> next_id st' = next_id st ->
  wf st -> wf st'.
Proof. intros E1 E2 E3 [? ? ? ?]. split; rewrite ?E1, ?E2, ?E3; done. Qed.

(** A table entry may get a new [last_seen]. *)
Lemma wf_touch st a s t :
  sessions st !! a = Some s -> wf st ->
  wf (with_sessions st (<[a := Session (socket s) t (worker s)]> (sessions st)) (workers st)).
Proof.
  intros Hs [Hb Hw Ha Hf]. split; cbn [sessions workers next_id with_sessions].
  - by rewrite map_size_insert_Some by eauto.
  - intros b u. rewrite lookup_insert. case_decide; [subst b; intros [= <-]; cbn; eauto | eauto].
  - intros id w Hid Hal. destruct (Ha id w Hid Hal) as (Hr & u & Hu & Hwu). split; [done |].
    rewrite lookup_insert. case_decide as E; [| eauto].
    eexists. split; [done |]. cbn. congruence.
  - done.
Qed.

Lemma wf_new_session st source now s st' :
  wf st -> sessions st !! source = None -> (size (sessions st) < max_clients)%nat ->
  session_new st source now = Ok (s, st') ->
  wf (with_sessions st' (<[source := s]> (sessions st')) (workers st')) /\
  sessions st' = sessions st.
Proof.
  intros [Hb Hw Ha Hf] Hnone Hlt. unfold session_new. destruct (os_session _); [done |].
  intros [= <- <-]. split; [| done]. cbn [sessions workers next_id].
  split; cbn [sessions workers next_id with_sessions].
  - rewrite map_size_insert_None by done. lia.
  - intros a t. rewrite lookup_insert. case_decide as E.
    + intros [= <-]. cbn. rewrite lookup_insert_eq. subst. eauto.
    + intros Hat. destruct (Hw a t Hat) as (w & Hw1 & Hd & Hl).
      rewrite lookup_insert_ne; [eauto |]. intros E2. rewrite <- E2, Hf in Hw1; [done | lia].
  - intros id w. rewrite lookup_insert. case_decide as E.
    + intros [= <-] _. split; [done |]. cbn. rewrite lookup_insert_eq. eexists. split; [done |]. done.
    + intros Hid Hal. destruct (Ha id w Hid Hal) as (Hr & u & Hu & Hwu). split; [done |].
      rewrite lookup_insert_ne by congruence. eauto.
  - intros id Hid. rewrite lookup_insert_ne by lia. apply Hf. lia.
Qed.

(** What [get_or_create_session] hands back is live and in the table. *)
Lemma get_or_create_session_spec st source now found st' :
  wf st -> get_or_create_session st source now = Ok (found, st') ->
  wf st' /\ plain st' = plain st /\
  match found with
  | Some s => sessions st' !! source = Some s /\ alive st' (worker s) = true
  | None => sessions st' !! source = None /\ (max_clients <= size (sessions st'))%nat
  end.
Proof.
  intros Hwf. unfold get_or_create_session.
  pose proof (wf_reap st source Hwf) as Hr.
  assert (plain (reap st source) = plain st) as Hp.
  { unfold reap. destruct (sessions st !! source); [| done]. by destruct (negb _). }
  assert (forall s, sessions (reap st source) !! source = Some s ->
    alive (reap st source) (worker s) = true) as Hlive.
  { intros s. unfold reap. destruct (sessions st !! source) as [t |] eqn:E; [| congruence].
    destruct (alive st (worker t)) eqn:E2; cbn [negb].
    - rewrite E. intros [= <-]. done.
    - cbn. by rewrite lookup_delete_eq. }
  destruct (sessions (reap st source) !! source) as [s |] eqn:E.
  - intros [= <- <-]. split_and!; [done | done | done | by apply Hlive].
  - destruct (_ <=? _)%nat eqn:G.
    + intros [= <- <-]. apply Nat.leb_le in G. done.
    + apply Nat.leb_gt in G. intros Hs. apply bind_ok in Hs as ([s st1] & Hn & Hs).
      injection Hs as <- <-.
      destruct (wf_new_session _ _ _ _ _ Hr E G Hn) as [Hwf' Hse]. split; [done |]. split.
      * unfold session_new in Hn. destruct (os_session _); [done |]. injection Hn as <- <-. done.
      * cbn. rewrite lookup_insert_eq. split; [done |].
        unfold session_new in Hn. destruct (os_session _); [done |]. injection Hn as <- <-.
        unfold alive. cbn. by rewrite lookup_insert_eq.
Qed.

Lemma wf_serve st r now clock secs os_send st' out :
  wf st -> serve_iteration st r now clock secs os_send = Ok (st', out) -> wf st'.
Proof.
  intros Hwf. unfold serve_iteration. destruct r as [| | source pkt]; [| done |].
  - intros [= <- _]. by eapply wf_same, wf_remove_idle.
  - set (st1 := if _ <=? _ then _ else st).
    assert (wf st1) as Hwf1.
    { unfold st1. destruct (_ <=? _); [| done]. by eapply wf_same, wf_remove_idle. }
    destruct (decode pkt _) as [[buf n] |]; [| intros [= <- _]; done].
    assert (wf (set_plain st1 buf)) as Hwf2 by by apply (wf_same st1).
    destruct source as [source |]; [| done]. cbn [ok_or mbind result_bind].
    destruct (get_or_create_session _ _ _) as [[found st2] | e] eqn:G; [| done].
    cbn [mbind result_bind].
    destruct (get_or_create_session_spec _ _ _ _ _ Hwf2 G) as (Hwf3 & _ & Hf).
    destruct found as [s |]; [| intros [= <- _]; done].
    destruct (os_send _) as [k |]; [| done]. destruct (k =? n)%nat; [| done].
    cbn [ensure mbind result_bind]. intros [= <- _].
    by apply wf_touch; [apply Hf |].
Qed.

Lemma wf_worker_step st id r seed os_send st' out :
  wf st -> worker_step st id r seed os_send = Some (st', out) -> wf st'.
Proof.
  intros Hwf. unfold worker_step. destruct (workers st !! id) as [w |] eqn:E; [| done].
  destruct (negb _); [done |]. destruct (return_packets_iteration _ _ _ _); intros [= <- <-]; [done |].
  destruct Hwf as [Hb Hw Ha Hf]. split; cbn [sessions workers next_id with_sessions].
  - done.
  - intros a s Has. destruct (Hw a s Has) as (w' & Hw' & Hd & Hl & Hr).
    rewrite lookup_insert. case_decide as E2; [| eauto]. subst id.
    rewrite E in Hw'. injection Hw' as ->. by eexists.
  - intros id' w'. rewrite lookup_insert. case_decide; [intros [= <-]; done | apply Ha].
  - intros id' Hid. rewrite lookup_insert_ne; [by apply Hf |]. intros <-. rewrite Hf in E; done.
Qed.

Lemma wf_step st out st' : wf st -> step st out st' -> wf st'.
Proof.
  intros Hwf Hs. destruct Hs; eauto using wf_serve, wf_worker_step.
Qed.

Lemma wf_reachable now st : reachable now st -> wf st.
Proof.
  intros Hr. unfold reachable in Hr.
  refine (rtc_ind_r wf _ (wf_initial now) _ _ Hr).
  intros a b _ [out Hs] Ha. by eapply wf_step.
Qed.

(** What the server forwards leaves through the socket of the client's session, and
    that session has a live thread, a new one if its last had ended. *)
Lemma forwarded_through_session st r now clock secs os_send st' sock datagram :
  wf st -> serve_iteration st r now clock secs os_send = Ok (st', [ToWireguard sock datagram]) ->
  exists source pkt buf n s w, r = RecvPacket (Some source) pkt
    /\ decode pkt (plain st) = Some (buf, n) /\ datagram = take n buf
    /\ sessions st' !! source = Some s /\ socket s = sock /\ last_seen s = unix_time secs
    /\ workers st' !! worker s = Some w /\ running w = true /\ worker_alive w = true.
Proof.
  intros Hwf. unfold serve_iteration. destruct r as [| | source pkt]; [done.. |].
  set (st1 := if _ <=? _ then _ else st).
  assert (wf st1 /\ plain st1 = plain st) as [Hwf1 Hplain].
  { unfold st1. destruct (_ <=? _); [| done]. split; [by eapply wf_same, wf_remove_idle | done]. }
  rewrite Hplain. destruct (decode pkt _) as [[buf n] |] eqn:Hdec; [| done].
  assert (wf (set_plain st1 buf)) as Hwf2 by by apply (wf_same st1).
  destruct source as [source |]; [| done]. cbn [ok_or mbind result_bind].
  destruct (get_or_create_session _ _ _) as [[found st2] | e] eqn:G; [| done]. cbn [mbind result_bind].
  destruct (get_or_create_session_spec _ _ _ _ _ Hwf2 G) as (Hwf3 & _ & Hf).
  destruct found as [s |]; [| done]. destruct Hf as [Hs Halive].
  destruct (os_send _) as [k |]; [| done]. destruct (k =? n)%nat; [| done].
  cbn [ensure mbind result_bind]. intros [= <- <- <-].
  destruct (wf_worker _ Hwf3 _ _ Hs) as (w & Hw & _ & _ & Hr). unfold alive in Halive. rewrite Hw in Halive.
  exists source, pkt, buf, n, (Session (socket s) (unix_time secs) (worker s)), w.
  cbn. rewrite lookup_insert_eq, <- Hr. by split_and!.
Qed.

(** C10.  However the server loop and the session threads interleave, the table
    never exceeds the client limit; every session has a thread of its own that
    answers that session's client through the session's socket and goes on until it fails; the threads that may still forward
    packets are exactly threads of sessions in the table; and every packet is forwarded
    through the session of the client it came from, whose thread is then alive, started anew
    if it had failed: no leak, and nobody else's replies. *)
Theorem relay_server_invariant now st :
  reachable now st ->
  (size (sessions st) <= max_clients)%nat /\
  (forall a s, sessions st !! a = Some s ->
     exists w, workers st !! worker s = Some w /\ destination w = a /\ local w = socket s /\ worker_alive w = running w) /\
  (forall a b s t, sessions st !! a = Some s -> sessions st !! b = Some t ->
     worker s = worker t -> a = b) /\
  (forall id w, workers st !! id = Some w -> worker_alive w = true ->
     exists s, sessions st !! destination w = Some s /\ worker s = id) /\
  (forall r time clock secs os_send st' sock datagram,
     serve_iteration st r time clock secs os_send = Ok (st', [ToWireguard sock datagram]) ->
     exists source pkt buf n s w, r = RecvPacket (Some source) pkt
       /\ decode pkt (plain st) = Some (buf, n) /\ datagram = take n buf
       /\ sessions st' !! source = Some s /\ socket s = sock /\ last_seen s = unix_time secs
       /\ workers st' !! worker s = Some w /\ running w = true /\ worker_alive w = true).
Proof.
  intros Hr. pose proof (wf_reachable now st Hr) as Hwf. destruct Hwf as [Hb Hw Ha Hf]. split_and!; [done | done | | |].
  - intros a b s t Hs Ht E. destruct (Hw a s Hs) as (w & Hw1 & Hd & _).
    destruct (Hw b t Ht) as (w' & Hw2 & Hd' & _). congruence.
  - intros id w Hid Hal. destruct (Ha id w Hid Hal) as (_ & s & Hs). eauto.
  - intros r time clock secs os_send st' sock datagram. apply forwarded_through_session. by eapply wf_reachable.
Qed.

(** C32.  Routing of replies: a packet sent to a client comes from the live
    thread of that client's session, and decodes at the client to the datagram
    WireGuard sent to the session's socket. *)
Theorem reply_reaches_its_client now st id datagram seed os_send st' to pkt :
  reachable now st -> is_u 64 seed -> (length datagram <= BUFFER_SIZE)%nat ->
  worker_step st id (LocalPacket datagram) seed os_send = Some (st', [ToClient to pkt]) ->
  (exists s, sessions st !! to = Some s /\ worker s = id) /\ decoded_of pkt = Some datagram.
Proof.
  intros Hr Hseed Hlen. destruct (wf_reachable now st Hr) as [_ _ Ha _].
  unfold worker_step. destruct (workers st !! id) as [w |] eqn:E; [| done].
  destruct (negb (running w)); [done |]. unfold return_packets_iteration.
  destruct (worker_alive w) eqn:Hal; cbn [negb]; [| done].
  destruct (encode _ _ _) as [r | e] eqn:Henc; [| done].
  destruct (os_send _) as [n |]; [| done]. destruct (n =? _)%nat; [| done].
  intros [= _ <- <-]. split.
  - destruct (Ha id w E Hal) as (_ & s & Hs). eauto.
  - assert (length datagram <= length (replicate BUFFER_SIZE 0%Z))%nat as Hfit
      by by rewrite length_replicate.
    pose proof (decode_packet _ _ _ _ _ Hseed Henc Hfit) as Hd. pose proof (take_splice_0 datagram (replicate BUFFER_SIZE 0)) as Ht.
    unfold decoded_of. by rewrite Hd, Ht.
Qed.

(** A thread of a removed session ends at its next wake-up, whatever wakes it. *)
Lemma orphan_worker_stops st id w r seed os_send :
  workers st !! id = Some w -> running w = true -> worker_alive w = false ->
  exists st', worker_step st id r seed os_send = Some (st', []) /\
    exists w', workers st' !! id = Some w' /\ running w' = false.
Proof.
  intros Hw Hr Ha. unfold worker_step. rewrite Hw, Hr. cbn [negb].
  destruct r; cbn [return_packets_iteration]; rewrite ?Ha; cbn [negb];
    (eexists; split; [reflexivity |]; cbn; rewrite lookup_insert_eq; eauto).
Qed.
End Server.

(**  A silent session is dropped by the cleanup exactly when its last packet
    is at least the idle time old, also when the wall clock was set back. *)
Theorem remove_idle_expires {Addr : Type} `{Countable Addr} (idle : Z) (clock : Addr -> Z)
  (st : @server Addr _ _) (a : Addr) (s : session) :
  sessions st !! a = Some s ->
  (sessions (remove_idle idle clock st) !! a = None <-> idle <= unix_time (clock a) - last_seen s \/ idle <= 0) /\
  (sessions (remove_idle idle clock st) !! a <> None -> sessions (remove_idle idle clock st) !! a = Some s).
Proof.
  intros Hs. cbn.
  assert (expired idle clock (a, s) <-> idle <= unix_time (clock a) - last_seen s \/ idle <= 0) as Hx.
  { unfold expired, is_idle, saturating_sub. cbn. rewrite Z.leb_le. lia. }
  split.
  - rewrite <- Hx, map_lookup_filter_None. split.
    + intros [Hn | Hn]; [congruence |]. destruct (decide (expired idle clock (a, s))) as [| Hne]; [done |].
      by destruct (Hn s Hs Hne).
    + intros Hex. right. intros s' Hs' Hne. congruence.
  - rewrite map_lookup_filter, Hs. cbn. case_guard; done.
Qed.

(** ** Witnesses *)

Definition one_client : server (Addr := Z) :=
  match serve_iteration (fun _ => None) 2 180 (initial 0)
          (RecvPacket (Some 7) (wire 5 [1; 2; 3])) 1 (fun _ => 100) 100 (fun d => IoOk (length d)) with
  | Ok (st, _) => st
  | Err _ => initial 0
  end.

Lemma one_client_reachable : reachable (fun _ => None) 2 180 0 one_client.
Proof.
  apply rtc_once. exists [ToWireguard 0 [1; 2; 3]].
  eapply step_serve with (r := RecvPacket (Some 7) (wire 5 [1; 2; 3])) (now := 1)
    (clock := fun _ => 100) (secs := 100) (os_send := fun d => IoOk (length d)).
  vm_compute. reflexivity.
Qed.

(** The thread of the client has failed; its next packet starts another. *)
Definition failed_thread : server (Addr := Z) :=
  match worker_step one_client 0 LocalFailed 0 (fun _ => IoErr TimedOut) with Some (st, _) => st | None => one_client end.

Lemma failed_thread_reachable : reachable (fun _ => None) 2 180 0 failed_thread.
Proof.
  eapply rtc_r; [exact one_client_reachable |]. exists []. eapply (step_worker _ _ _ one_client 0 LocalFailed 0 (fun _ => IoErr TimedOut)).
  vm_compute. reflexivity.
Qed.

Definition next_packet : result (server (Addr := Z) * list output) :=
  serve_iteration (fun _ => None) 2 180 failed_thread (RecvPacket (Some 7) (wire 5 [1; 2; 3])) 1 (fun _ => 100) 100 (fun d => IoOk (length d)).

Lemma relay_server_invariant_witness :
  (size (sessions failed_thread) <= 2)%nat /\ alive failed_thread 0 = false
  /\ match next_packet with
     | Ok (st, _) => exists s w, sessions st !! 7 = Some s /\ workers st !! worker s = Some w /\ running w = true
     | Err _ => False
     end.
Proof.
  destruct (relay_server_invariant (fun _ => None) 2 180 0 failed_thread failed_thread_reachable) as (Hsize & _ & _ & _ & Hserve).
  split; [exact Hsize |]. split; [by vm_compute |].
  assert (match next_packet with Ok (_, out) => out = [ToWireguard 1 [1; 2; 3]] | Err _ => False end) as Hout by by vm_compute.
  destruct next_packet as [[st out] | e] eqn:E; [| done]. subst out.
  destruct (Hserve _ _ _ _ _ _ _ _ E) as (source & pkt & buf & n & s & w & [= <- <-] & _ & _ & Hs & _ & _ & Hw & Hrun & _).
  exists s, w. exact (conj Hs (conj Hw Hrun)).
Defined.

Lemma reply_reaches_its_client_witness :
  exists pkt, decoded_of pkt = Some [9; 9] /\
    worker_step one_client 0 (LocalPacket [9; 9]) 11 (fun d => IoOk (length d)) =
      Some (one_client, [ToClient 7 pkt]).
Proof.
  eexists. split; [| vm_compute; reflexivity].
  apply (reply_reaches_its_client (fun _ => None) 2 180 0 one_client 0 [9; 9] 11
    (fun d => IoOk (length d)) one_client 7);
    [apply one_client_reachable | done | cbn; unfold BUFFER_SIZE; lia | vm_compute; reflexivity].
Defined.

Lemma remove_idle_expires_witness :
  sessions (remove_idle 180 (fun _ => 280) one_client) !! 7 = None /\
  is_Some (sessions (remove_idle 180 (fun _ => 279) one_client) !! 7).
Proof.
  split; [| vm_compute; eauto].
  apply (remove_idle_expires 180 (fun _ => 280) one_client 7 (Session 0 100 0)); [vm_compute; reflexivity |].
  left. vm_compute. discriminate.
Defined.
