(* ===== verification/Kdf.v ===== *)
(** * The memory-bounded scrypt (crates/gofro-kdf/src/lib.rs)

    [salsa8], [block_mix] and [scrypt] with its checkpoints, over 32-bit words
    as [Z], and RFC 7914's dense scryptROMix as the reference they are compared
    with.  [pbkdf2_hmac] is OpenSSL's and stays a parameter. *)

From stdpp Require Import base strings list.
From Stdlib Require Import ZArith Lia.
From S2P Require Import Prelude.

(** ** Salsa20/8 *)

Definition get (l : list Z) (i : nat) : Z := default 0 (l !! i).

Definition add32 (a b : Z) : Z := wrap 32 (a + b).
Definition rotl32 (x n : Z) : Z := Z.lor (wrap 32 (Z.shiftl x n)) (Z.shiftr x (32 - n)).

Definition quarter_round (state : list Z) (a b c d : nat) : list Z :=
  let state := <[b := Z.lxor (get state b) (rotl32 (add32 (get state a) (get state d)) 7)]> state in
  let state := <[c := Z.lxor (get state c) (rotl32 (add32 (get state b) (get state a)) 9)]> state in
  let state := <[d := Z.lxor (get state d) (rotl32 (add32 (get state c) (get state b)) 13)]> state in
  <[a := Z.lxor (get state a) (rotl32 (add32 (get state d) (get state c)) 18)]> state.

Definition double_round (state : list Z) : list Z :=
  let state := quarter_round state 0 4 8 12 in
  let state := quarter_round state 5 9 13 1 in
  let state := quarter_round state 10 14 2 6 in
  let state := quarter_round state 15 3 7 11 in
  let state := quarter_round state 0 1 2 3 in
  let state := quarter_round state 5 6 7 4 in
  let state := quarter_round state 10 11 8 9 in
  quarter_round state 15 12 13 14.

Definition salsa8 (block : list Z) : list Z :=
  let state := for_range 0 4 (fun _ => double_round) block in
  zip_with add32 block state.

#[global] Arguments quarter_round : simpl never.
#[global] Arguments double_round : simpl never.
#[global] Arguments salsa8 : simpl never.

(** The successive values [f x b0], [f (f x b0) b1], ... *)
Fixpoint scan {A B : Type} (f : A -> B -> A) (x : A) (bs : list B) : list A :=
  match bs with
  | [] => []
  | b :: bs => let y := f x b in y :: scan f y bs
  end.

(** ** Words and bytes *)

Fixpoint chunks4 (l : list Z) : list (list Z) :=
  match l with
  | a :: b :: c :: d :: r => [a; b; c; d] :: chunks4 r
  | _ => []
  end.

Definition words_of_bytes (l : list Z) : list Z := from_le_bytes <$> chunks4 l.
Definition bytes_of_words (l : list Z) : list Z := l ≫= to_le_bytes 4.

Definition xor_words (a b : list Z) : list Z := zip_with Z.lxor a b.

(** ** BlockMix, ROMix and the key derivation, for block parameter [R], cost [N]
    and checkpoint distance [STRIDE] *)

Section Scrypt.
Variables R N STRIDE : nat.

Definition WORDS : nat := (32 * R)%nat.

(** The 16-word sub-block [block[16 i .. 16 i + 16]]. *)
Definition sub_block (block : list Z) (i : nat) : list Z := take 16 (drop (16 * i) block).

Definition destination (index : nat) : nat :=
  ((index `div` 2 + if (index `mod` 2 =? 0)%nat then 0 else R) * 16)%nat.

(** [block_mix(block, scratch)]: both buffers after the call. *)
Definition block_mix (block scratch : list Z) : list Z * list Z :=
  let state := drop (WORDS - 16) block in
  let '(state, scratch) :=
    for_range 0 (2 * R) (fun index '(state, scratch) =>
      let state := salsa8 (xor_words state (sub_block block index)) in
      (state, splice (destination index) state scratch)) (state, scratch) in
  (scratch, scratch).

(** The first loop of [scrypt]: [(block, scratch, checkpoints)]. *)
Definition fill_checkpoints (block scratch checkpoints : list Z) : list Z * list Z * list Z :=
  for_range 0 N (fun index '(block, scratch, checkpoints) =>
    let checkpoints :=
      if (index `mod` STRIDE =? 0)%nat
      then splice (index `div` STRIDE * WORDS) block checkpoints else checkpoints in
    let '(block, scratch) := block_mix block scratch in
    (block, scratch, checkpoints)) (block, scratch, checkpoints).

(** The second loop: [(block, scratch)]. *)
Definition mix_checkpoints (checkpoints block scratch : list Z) : list Z * list Z :=
  for_range 0 N (fun _ '(block, scratch) =>
    let index := Z.to_nat (Z.land (get block (WORDS - 16)) (Z.of_nat N - 1)) in
    let start := (index `div` STRIDE * WORDS)%nat in
    let reconstructed := take WORDS (drop start checkpoints) in
    let '(reconstructed, scratch) :=
      for_range 0 (index `mod` STRIDE) (fun _ '(reconstructed, scratch) =>
        block_mix reconstructed scratch) (reconstructed, scratch) in
    let block := xor_words block reconstructed in
    block_mix block scratch) (block, scratch).

Definition romix_checkpointed (block : list Z) : list Z :=
  let scratch := replicate WORDS 0 in
  let checkpoints := replicate (N `div` STRIDE * WORDS) 0 in
  let '(block, scratch, checkpoints) := fill_checkpoints block scratch checkpoints in
  fst (mix_checkpoints checkpoints block scratch).

(** [pbkdf2_hmac(password, salt, 1, SHA-256, output)] with the output length. *)
Variable pbkdf2_hmac : list Z -> list Z -> nat -> result (list Z).

Definition scrypt (password salt : list Z) (output_len : nat) : result (list Z) :=
  bytes ← pbkdf2_hmac password salt (WORDS * 4);
  let block := romix_checkpointed (words_of_bytes bytes) in
  pbkdf2_hmac password (bytes_of_words block) output_len.

(** ** The reference: RFC 7914, sections 4 and 5 *)

Definition block_mix_outputs : list Z -> list (list Z) -> list (list Z) :=
  scan (fun x b => salsa8 (xor_words x b)).

(** B' = (Y[0], Y[2], ..., Y[2r-2], Y[1], Y[3], ..., Y[2r-1]) *)
Definition rfc_block_mix (block : list Z) : list Z :=
  let ys := block_mix_outputs (drop (WORDS - 16) block) (sub_block block <$> seq 0 (2 * R)) in
  concat ((fun i => default [] (ys !! (2 * i)%nat)) <$> seq 0 R)
  ++ concat ((fun i => default [] (ys !! (2 * i + 1)%nat)) <$> seq 0 R).

(** Integerify: the last 64-byte sub-block as a little-endian integer. *)
Fixpoint words_le (l : list Z) : Z :=
  match l with [] => 0 | w :: l' => w + 2 ^ 32 * words_le l' end.

Definition integerify (block : list Z) : Z := words_le (drop (WORDS - 16) block).

Definition rfc_romix (block : list Z) : list Z :=
  let v := (fun i => Nat.iter i rfc_block_mix block) <$> seq 0 N in
  Nat.iter N (fun x =>
    let j := Z.to_nat (integerify x mod Z.of_nat N) in
    rfc_block_mix (xor_words x (default [] (v !! j)))) (Nat.iter N rfc_block_mix block).

(** ** Lemmas *)

Lemma quarter_round_length st a b c d : length (quarter_round st a b c d) = length st.
Proof. unfold quarter_round. by rewrite !length_insert. Qed.

Lemma double_round_length st : length (double_round st) = length st.
Proof. unfold double_round. by rewrite !quarter_round_length. Qed.

Lemma salsa8_length block : length (salsa8 block) = length block.
Proof.
  unfold salsa8. rewrite length_zip_with. cbn [for_range].
  rewrite !double_round_length. lia.
Qed.

#[local] Opaque salsa8.

Lemma xor_words_length a b : length (xor_words a b) = Nat.min (length a) (length b).
Proof. apply length_zip_with. Qed.

Lemma sub_block_length block i :
  length block = WORDS -> (i < 2 * R)%nat -> length (sub_block block i) = 16%nat.
Proof. intros Hb Hi. unfold sub_block, WORDS in *. rewrite length_take, length_drop. lia. Qed.

Lemma scan_length {A B} (f : A -> B -> A) x bs : length (scan f x bs) = length bs.
Proof. revert x. induction bs as [| b bs IH]; intros x; cbn; [done |]. by rewrite IH. Qed.

Lemma scan_forall {A B} (f : A -> B -> A) (P : A -> Prop) (Q : B -> Prop) x bs :
  (forall x b, P x -> Q b -> P (f x b)) -> P x -> Forall Q bs -> Forall P (scan f x bs).
Proof.
  intros Hf Hx Hbs. revert x Hx.
  induction Hbs as [| b bs Hb Hbs IH]; intros x Hx; cbn; constructor; auto.
Qed.

(** Each output depends on the previous one and on its own input. *)
Lemma scan_step {A B} (f : A -> B -> A) (d : A) x bs i b :
  bs !! i = Some b ->
  scan f x bs !! i = Some (f (match i with O => x | S j => default d (scan f x bs !! j) end) b).
Proof.
  revert x i. induction bs as [| b' bs IH]; intros x [| i] Hb; cbn in Hb |- *; [done | done | |].
  - by injection Hb as ->.
  - rewrite (IH _ i Hb). by destruct i.
Qed.

(** A buffer of [16 n] words is the concatenation of its sub-blocks. *)
Lemma concat_sub_blocks (l : list Z) (n : nat) :
  length l = (16 * n)%nat -> concat (sub_block l <$> seq 0 n) = l.
Proof.
  revert l. induction n as [| n IH]; intros l Hl; [by apply nil_length_inv in Hl |].
  cbn [seq fmap list_fmap concat]. rewrite <- fmap_S_seq, <- list_fmap_compose.
  transitivity (take 16 l ++ drop 16 l); [| by rewrite take_drop]. f_equal.
  etransitivity; [| apply (IH (drop 16 l)); rewrite length_drop; lia].
  f_equal. apply list_fmap_ext. intros _ i _. cbn. unfold sub_block.
  rewrite drop_drop. do 2 f_equal. lia.
Qed.

(** Writing sub-block [j] and reading sub-block [i]. *)
Lemma sub_block_splice (l bytes : list Z) (i j : nat) :
  length bytes = 16%nat -> (16 * j + 16 <= length l)%nat ->
  sub_block (splice (16 * j) bytes l) i = if decide (i = j) then bytes else sub_block l i.
Proof.
  intros Hb Hj. unfold sub_block, splice. rewrite Hb.
  destruct (decide (i = j)) as [-> | Hne].
  - rewrite drop_app_length' by (rewrite length_take; lia).
    rewrite take_app_length'; done.
  - destruct (Nat.lt_ge_cases i j) as [Hlt | Hge].
    + rewrite drop_app_le by (rewrite length_take; lia).
      rewrite take_app_le by (rewrite length_drop, length_take; lia).
      rewrite skipn_firstn_comm, take_take. f_equal. lia.
    + rewrite app_assoc, drop_app_ge by (rewrite length_app, length_take; lia).
      rewrite drop_drop. do 2 f_equal. rewrite length_app, length_take. lia.
Qed.

(** The sub-block that iteration [index] of [block_mix] writes. *)
Definition target (index : nat) : nat :=
  (index `div` 2 + if (index `mod` 2 =? 0)%nat then 0 else R)%nat.

Lemma target_even k : target (2 * k) = k.
Proof.
  unfold target. rewrite Nat.mul_comm, Nat.div_mul, Nat.Div0.mod_mul by done. cbn. lia.
Qed.

Lemma target_odd k : target (2 * k + 1) = (k + R)%nat.
Proof.
  unfold target. replace ((2 * k + 1) `div` 2)%nat with k by (apply Nat.div_unique with 1%nat; lia).
  by replace ((2 * k + 1) `mod` 2)%nat with 1%nat by (apply Nat.mod_unique with k; lia).
Qed.

Lemma target_range i : (i < 2 * R)%nat -> (target i < 2 * R)%nat.
Proof.
  intros Hi. destruct (Nat.Even_or_Odd i) as [[k ->] | [k ->]].
  - rewrite target_even. lia.
  - rewrite target_odd. lia.
Qed.

Lemma target_inj i j : (i < 2 * R)%nat -> (j < 2 * R)%nat -> target i = target j -> i = j.
Proof.
  intros Hi Hj.
  destruct (Nat.Even_or_Odd i) as [[k ->] | [k ->]], (Nat.Even_or_Odd j) as [[k' ->] | [k' ->]];
    rewrite ?target_even, ?target_odd; lia.
Qed.

Lemma destination_target i : destination i = (16 * target i)%nat.
Proof. unfold destination, target. lia. Qed.

Hypothesis R_positive : (0 < R)%nat.

Definition outputs (block : list Z) : list (list Z) :=
  block_mix_outputs (drop (WORDS - 16) block) (sub_block block <$> seq 0 (2 * R)).

Lemma outputs_length block : length (outputs block) = (2 * R)%nat.
Proof. unfold outputs, block_mix_outputs. by rewrite scan_length, length_fmap, length_seq. Qed.

Lemma outputs_16 block :
  length block = WORDS -> Forall (fun y => length y = 16%nat) (outputs block).
Proof.
  intros Hb. apply scan_forall with (Q := fun b => length b = 16%nat).
  - intros x b Hx Hb'. rewrite salsa8_length, xor_words_length. lia.
  - rewrite length_drop. unfold WORDS in *. lia.
  - apply Forall_fmap, Forall_forall. intros i Hi%elem_of_seq. apply sub_block_length; [done | lia].
Qed.

Lemma outputs_nth_16 block i :
  length block = WORDS -> (i < 2 * R)%nat -> length (default [] (outputs block !! i)) = 16%nat.
Proof.
  intros Hb Hi. destruct (lookup_lt_is_Some_2 (outputs block) i) as [y Hy].
  { by rewrite outputs_length. }
  rewrite Hy. exact (proj1 (Forall_lookup _ _) (outputs_16 block Hb) i y Hy).
Qed.

(** What [block_mix]'s loop has done after [i] iterations. *)
Definition mixing (block : list Z) (i : nat) (s : list Z * list Z) : Prop :=
  fst s = match i with O => drop (WORDS - 16) block | S j => default [] (outputs block !! j) end /\
  length (snd s) = WORDS /\
  forall j, (j < i)%nat -> sub_block (snd s) (target j) = default [] (outputs block !! j).

Lemma mixing_step block i state scratch :
  length block = WORDS -> (i < 2 * R)%nat -> mixing block i (state, scratch) ->
  let state' := salsa8 (xor_words state (sub_block block i)) in
  mixing block (S i) (state', splice (destination i) state' scratch).
Proof.
  intros Hb Hi (Hst & Hlen & Hdone) state'. cbn [fst snd] in Hst, Hlen, Hdone.
  assert (outputs block !! i = Some state') as Hout.
  { unfold outputs, block_mix_outputs. rewrite scan_step with (d := []) (b := sub_block block i).
    - unfold state'. do 2 f_equal. by rewrite Hst.
    - by rewrite list_lookup_fmap, lookup_seq_lt. }
  assert (length state' = 16%nat) as H16.
  { pose proof (outputs_nth_16 block i Hb Hi) as H. by rewrite Hout in H. }
  pose proof (target_range i Hi) as Ht.
  rewrite destination_target. unfold mixing. cbn [fst snd]. rewrite Hout. split; [done |]. split.
  - rewrite splice_length; [done |]. rewrite H16, Hlen. unfold WORDS. lia.
  - intros j Hj. rewrite sub_block_splice by (rewrite ?Hlen; unfold WORDS; lia).
    case_decide as E.
    + apply target_inj in E; [| lia | lia]. by rewrite E, Hout.
    + apply Hdone. destruct (decide (j = i)) as [-> | ]; [done | lia].
Qed.

(** [block_mix] is RFC 7914's BlockMix, whatever the scratch buffer held. *)
Lemma block_mix_rfc block scratch :
  length block = WORDS -> length scratch = WORDS ->
  block_mix block scratch = (rfc_block_mix block, rfc_block_mix block) /\
  length (rfc_block_mix block) = WORDS.
Proof.
  intros Hb Hs. unfold block_mix.
  pose proof (for_range_ind (mixing block)
    (fun index '(state, scratch) =>
      let state := salsa8 (xor_words state (sub_block block index)) in
      (state, splice (destination index) state scratch)) (2 * R) 0
    (drop (WORDS - 16) block, scratch)) as Hloop.
  destruct (for_range 0 (2 * R) _ _) as [state final]. cbn in Hloop.
  destruct Hloop as (_ & Hlen & Hdone).
  { split_and!; [done | done | lia]. }
  { intros i [st sc] Hi. apply mixing_step; [done | lia]. }
  cbn [fst snd] in *. assert (final = rfc_block_mix block) as <-; [| done].
  rewrite <- (concat_sub_blocks final (2 * R)) by (rewrite Hlen; unfold WORDS; lia).
  replace (2 * R)%nat with (R + R)%nat by lia. rewrite seq_app, fmap_app, concat_app.
  unfold rfc_block_mix. fold (outputs block). f_equal; f_equal.
  - apply list_fmap_ext. intros k ? [-> Hk]%lookup_seq. cbn [Nat.add]. rewrite <- Hdone by lia.
    by rewrite target_even.
  - replace (seq (0 + R) R) with (Nat.add R <$> seq 0 R) by (rewrite fmap_add_seq; f_equal; lia).
    rewrite <- list_fmap_compose.
    apply list_fmap_ext. intros k ? [-> Hk]%lookup_seq. cbn [Nat.add compose]. rewrite <- Hdone by lia.
    rewrite target_odd. f_equal. lia.
Qed.

Lemma rfc_block_mix_length block :
  length block = WORDS -> length (rfc_block_mix block) = WORDS.
Proof.
  intros Hb. apply (block_mix_rfc block (replicate WORDS 0)); [done | apply length_replicate].
Qed.

Definition iterated (block : list Z) (i : nat) : list Z := Nat.iter i rfc_block_mix block.

Lemma iterated_length block i : length block = WORDS -> length (iterated block i) = WORDS.
Proof. intros Hb. induction i as [| i IH]; cbn; [done |]. by apply rfc_block_mix_length. Qed.

Hypothesis STRIDE_positive : (0 < STRIDE)%nat.
Hypothesis STRIDE_divides : N = (N `div` STRIDE * STRIDE)%nat.

(** The [c]-th stored block. *)
Definition checkpoint (checkpoints : list Z) (c : nat) : list Z :=
  take WORDS (drop (c * WORDS) checkpoints).

Lemma checkpoint_splice l block c c' :
  length block = WORDS -> (c' * WORDS + WORDS <= length l)%nat ->
  checkpoint (splice (c' * WORDS) block l) c = if decide (c = c') then block else checkpoint l c.
Proof.
  intros Hb Hc. unfold checkpoint, splice. rewrite Hb. case_decide as E.
  - subst c'. rewrite drop_app_length' by (rewrite length_take; lia). by rewrite take_app_length'.
  - destruct (Nat.lt_ge_cases c c') as [Hlt | Hge].
    + rewrite drop_app_le by (rewrite length_take; nia).
      rewrite take_app_le by (rewrite length_drop, length_take; nia).
      rewrite skipn_firstn_comm, take_take. f_equal. nia.
    + rewrite app_assoc, drop_app_ge by (rewrite length_app, length_take; nia).
      rewrite drop_drop. do 2 f_equal. rewrite length_app, length_take. nia.
Qed.

(** What the first loop has done after [i] iterations. *)
Definition filling (b0 : list Z) (i : nat) (s : list Z * list Z * list Z) : Prop :=
  let '(block, scratch, checkpoints) := s in
  block = iterated b0 i /\ length scratch = WORDS /\
  length checkpoints = (N `div` STRIDE * WORDS)%nat /\
  forall c, (c * STRIDE < i)%nat -> checkpoint checkpoints c = iterated b0 (c * STRIDE).

Lemma fill_checkpoints_spec b0 scratch checkpoints :
  length b0 = WORDS -> length scratch = WORDS ->
  length checkpoints = (N `div` STRIDE * WORDS)%nat ->
  filling b0 N (fill_checkpoints b0 scratch checkpoints).
Proof.
  intros Hb Hs Hc. unfold fill_checkpoints. apply (for_range_ind (filling b0) _ N 0).
  { split_and!; [done | done | done | lia]. }
  intros i [[block sc] cps] Hi (-> & Hsc & Hcps & Hdone).
  pose proof (iterated_length b0 i Hb) as Hlen.
  destruct (block_mix_rfc (iterated b0 i) sc Hlen Hsc) as [-> Hrfc].
  pose proof (Nat.div_mod_eq i STRIDE) as Hdm.
  assert (i `div` STRIDE < N `div` STRIDE)%nat as Hlt by nia.
  split_and!; [done | done | |].
  - case_match; [| done]. rewrite splice_length; [done |]. nia.
  - intros c Hcs. case_match eqn:E.
    + apply Nat.eqb_eq in E. rewrite checkpoint_splice by nia.
      case_decide as Ec; [f_equal; nia |]. apply Hdone. nia.
    + apply Nat.eqb_neq in E. apply Hdone.
      destruct (decide (c * STRIDE = i)%nat) as [Heq | ]; [| lia].
      rewrite <- Heq, Nat.Div0.mod_mul in E. done.
Qed.

(** Rebuilding block [j] of V from the checkpoint at or below it. *)
Lemma reconstruct b0 scratch checkpoints j :
  length b0 = WORDS -> length scratch = WORDS -> (j < N)%nat ->
  (forall c, (c * STRIDE < N)%nat -> checkpoint checkpoints c = iterated b0 (c * STRIDE)) ->
  let '(block, scratch) :=
    for_range 0 (j `mod` STRIDE) (fun _ '(block, scratch) => block_mix block scratch)
      (checkpoint checkpoints (j `div` STRIDE), scratch) in
  block = iterated b0 j /\ length scratch = WORDS.
Proof.
  intros Hb Hs Hj Hcps. pose proof (Nat.div_mod_eq j STRIDE) as Hdm.
  pose proof (for_range_ind (fun i '(block, sc) =>
      block = iterated b0 (j `div` STRIDE * STRIDE + i) /\ length sc = WORDS)
    (fun _ '(block, scratch) => block_mix block scratch) (j `mod` STRIDE) 0
    (checkpoint checkpoints (j `div` STRIDE), scratch)) as Hloop.
  destruct (for_range 0 _ _ _) as [block sc]. destruct Hloop as [-> Hsc].
  - rewrite Nat.add_0_r. split; [| done]. apply Hcps. lia.
  - intros i [blk sc'] Hi [-> Hsc'].
    destruct (block_mix_rfc _ sc' (iterated_length b0 (j `div` STRIDE * STRIDE + i) Hb) Hsc')
      as [-> Hlen].
    split; [| done]. by rewrite Nat.add_succ_r.
  - split; [| done]. f_equal. cbn. lia.
Qed.

Hypothesis N_power : exists k, 0 <= k <= 32 /\ Z.of_nat N = 2 ^ k.

(** "Only Integerify's low word is needed": [N] is a power of two up to 2^32. *)
Lemma integerify_low_word block :
  length block = WORDS ->
  Z.land (get block (WORDS - 16)) (Z.of_nat N - 1) = integerify block mod Z.of_nat N.
Proof.
  intros Hb. destruct N_power as (k & Hk & ->).
  replace (2 ^ k - 1) with (Z.ones k) by (rewrite Z.ones_equiv; lia).
  rewrite Z.land_ones by lia. unfold integerify, get.
  replace (block !! (WORDS - 16)%nat) with (drop (WORDS - 16) block !! 0%nat)
    by (rewrite lookup_drop; f_equal; lia).
  destruct (drop (WORDS - 16) block) as [| w l]; cbn [words_le lookup list_lookup default]; [done |].
  replace (2 ^ 32) with (2 ^ (32 - k) * 2 ^ k) by (rewrite <- Z.pow_add_r by lia; f_equal; lia).
  replace (w + 2 ^ (32 - k) * 2 ^ k * words_le l)
    with (w + (2 ^ (32 - k) * words_le l) * 2 ^ k) by ring.
  by rewrite Z_mod_plus_full.
Qed.

Definition rfc_step (b0 x : list Z) : list Z :=
  rfc_block_mix (xor_words x (iterated b0 (Z.to_nat (integerify x mod Z.of_nat N)))).

Lemma rfc_step_length b0 x :
  length b0 = WORDS -> length x = WORDS -> length (rfc_step b0 x) = WORDS.
Proof.
  intros Hb Hx. apply rfc_block_mix_length.
  rewrite xor_words_length, iterated_length by done. lia.
Qed.

Lemma iter_ext {A} (f g : A -> A) n x : (forall y, f y = g y) -> Nat.iter n f x = Nat.iter n g x.
Proof. intros Hfg. induction n as [| n IH]; [done |]. rewrite !Nat.iter_succ. by rewrite IH, Hfg. Qed.

Lemma rfc_romix_steps b0 :
  (0 < N)%nat -> rfc_romix b0 = Nat.iter N (rfc_step b0) (iterated b0 N).
Proof.
  intros HN. unfold rfc_romix. fold (iterated b0 N). apply iter_ext.
  intros x. unfold rfc_step. do 2 f_equal.
  rewrite list_lookup_fmap, lookup_seq_lt; [done |].
  pose proof (Z.mod_pos_bound (integerify x) (Z.of_nat N) ltac:(lia)). lia.
Qed.

Lemma mix_checkpoints_spec b0 scratch checkpoints x :
  (0 < N)%nat -> length b0 = WORDS -> length scratch = WORDS -> length x = WORDS ->
  (forall c, (c * STRIDE < N)%nat -> checkpoint checkpoints c = iterated b0 (c * STRIDE)) ->
  fst (mix_checkpoints checkpoints x scratch) = Nat.iter N (rfc_step b0) x.
Proof.
  intros HN Hb Hs Hx Hcps. unfold mix_checkpoints.
  match goal with |- fst (for_range 0 N ?f _) = _ =>
    assert (let '(block, sc) := for_range 0 N f (x, scratch) in
      block = Nat.iter N (rfc_step b0) x /\ length block = WORDS /\ length sc = WORDS) as Hloop
  end.
  2: { destruct (for_range _ _ _ _). apply Hloop. }
  apply (for_range_ind (fun i '(block, sc) =>
    block = Nat.iter i (rfc_step b0) x /\ length block = WORDS /\ length sc = WORDS) _ N 0).
  { done. }
  intros i [block sc] Hi (Hblk & Hlen & Hsc).
  rewrite integerify_low_word by done.
  set (j := Z.to_nat (integerify block mod Z.of_nat N)).
  assert (j < N)%nat as Hj.
  { pose proof (Z.mod_pos_bound (integerify block) (Z.of_nat N) ltac:(lia)). unfold j. lia. }
  pose proof (reconstruct b0 sc checkpoints j Hb Hsc Hj Hcps) as Hrec.
  unfold checkpoint in Hrec. destruct (for_range _ _ _ _) as [rec sc'].
  destruct Hrec as [-> Hsc'].
  destruct (block_mix_rfc (xor_words block (iterated b0 j)) sc') as [-> Hlen'].
  { rewrite xor_words_length, iterated_length by done. lia. }
  { done. }
  split_and!; [| done | done]. by rewrite Nat.iter_succ, <- Hblk.
Qed.

(** The checkpointed ROMix computes the dense scryptROMix of RFC 7914. *)
Lemma romix_checkpointed_rfc b0 :
  length b0 = WORDS -> romix_checkpointed b0 = rfc_romix b0.
Proof.
  intros Hb. assert (0 < N)%nat as HN.
  { destruct N_power as (k & Hk & HNk). pose proof (Z.pow_pos_nonneg 2 k). lia. }
  rewrite rfc_romix_steps by done. unfold romix_checkpointed.
  pose proof (fill_checkpoints_spec b0 (replicate WORDS 0) (replicate (N `div` STRIDE * WORDS) 0)
    Hb ltac:(by rewrite length_replicate) ltac:(by rewrite length_replicate)) as Hfill.
  destruct (fill_checkpoints _ _ _) as [[block sc] cps].
  destruct Hfill as (-> & Hsc & _ & Hcps).
  apply mix_checkpoints_spec; [done | done | done | by apply iterated_length | done].
Qed.

(** scrypt of RFC 7914 with p = 1. *)
Definition rfc_scrypt (password salt : list Z) (output_len : nat) : result (list Z) :=
  bytes ← pbkdf2_hmac password salt (128 * R);
  pbkdf2_hmac password (bytes_of_words (rfc_romix (words_of_bytes bytes))) output_len.

Lemma words_of_bytes_length l n : length l = (4 * n)%nat -> length (words_of_bytes l) = n.
Proof.
  unfold words_of_bytes. rewrite length_fmap. revert l. induction n as [| n IH]; intros l Hl.
  - by apply nil_length_inv in Hl as ->.
  - destruct l as [| a [| b [| c [| d l]]]]; cbn in Hl; try lia. cbn. rewrite IH; lia.
Qed.

Lemma scrypt_checkpointed_rfc password salt output_len :
  (forall p s n out, pbkdf2_hmac p s n = Ok out -> length out = n) ->
  scrypt password salt output_len = rfc_scrypt password salt output_len.
Proof.
  intros Hlaw. unfold scrypt, rfc_scrypt.
  replace (WORDS * 4)%nat with (128 * R)%nat by (unfold WORDS; lia).
  destruct (pbkdf2_hmac password salt (128 * R)) as [bytes |] eqn:E; [| done]. cbn.
  rewrite romix_checkpointed_rfc; [done |].
  apply words_of_bytes_length. rewrite (Hlaw _ _ _ _ E). unfold WORDS. lia.
Qed.
End Scrypt.

(** ** The supported credential format: N = 16384, r = 8, p = 1 *)

Definition N : nat := Z.to_nat 16384.
Definition R : nat := 8.
Definition STRIDE : nat := 8.

(** C12. The key [gofro_kdf::scrypt] derives with its 2 MiB of checkpoints is, on
    every password, salt and output length, the one RFC 7914's dense scrypt
    with N = 16384, r = 8, p = 1 derives, whatever [pbkdf2_hmac] computes: the
    reconstructed blocks, the shared scratch buffer and the low-word
    Integerify change nothing, and neither error of [pbkdf2_hmac] is lost. *)
Theorem checkpointed_scrypt_is_scrypt
    (pbkdf2_hmac : list Z -> list Z -> nat -> result (list Z)) (password salt : list Z)
    (output_len : nat)
    (Hlaw : forall p s n out, pbkdf2_hmac p s n = Ok out -> length out = n) :
  scrypt R N STRIDE pbkdf2_hmac password salt output_len =
  rfc_scrypt R N pbkdf2_hmac password salt output_len.
Proof.
  apply scrypt_checkpointed_rfc; [unfold R; lia | unfold STRIDE; lia | by vm_compute | | done].
  exists 14. split; [lia |]. by vm_compute.
Qed.

Lemma checkpointed_scrypt_is_scrypt_witness :
  let pbkdf2 := fun (p s : list Z) n => Ok (replicate n (Z.of_nat (length p + length s))) in
  scrypt R N STRIDE pbkdf2 [112; 119] [115] 32 = rfc_scrypt R N pbkdf2 [112; 119] [115] 32.
Proof.
  intros pbkdf2. apply checkpointed_scrypt_is_scrypt.
  intros p s n out [= <-]. apply length_replicate.
Defined.

(** ** Test vectors of RFC 7914, sections 8 and 10 *)

Example salsa8_vector :
  bytes_of_words (salsa8 (words_of_bytes
    [126; 135; 154; 33; 79; 62; 201; 134; 124; 169; 64; 230; 65; 113; 143; 38; 186; 238; 85; 91;
    140; 97; 193; 181; 13; 248; 70; 17; 109; 205; 59; 29; 238; 36; 243; 25; 223; 155; 61; 133;
    20; 18; 30; 75; 90; 197; 170; 50; 118; 2; 29; 41; 9; 199; 72; 41; 237; 235; 198; 141; 184;
    184; 194; 94])) =
    [164; 31; 133; 156; 102; 8; 204; 153; 59; 129; 202; 203; 2; 12; 239; 5; 4; 75; 33; 129; 162;
    253; 51; 125; 253; 123; 28; 99; 150; 104; 47; 41; 180; 57; 49; 104; 227; 201; 230; 188; 254;
    107; 197; 183; 160; 109; 150; 186; 228; 36; 204; 16; 44; 145; 116; 92; 36; 173; 103; 61;
    199; 97; 143; 129].
Proof. by vm_compute. Qed.

Example romix_vector :
  bytes_of_words (romix_checkpointed 1 16 8 (words_of_bytes
    [247; 206; 11; 101; 61; 45; 114; 164; 16; 140; 245; 171; 233; 18; 255; 221; 119; 118; 22;
    219; 187; 39; 167; 14; 130; 4; 243; 174; 45; 15; 111; 173; 137; 246; 143; 72; 17; 209; 232;
    123; 204; 59; 215; 64; 10; 159; 253; 41; 9; 79; 1; 132; 99; 149; 116; 243; 154; 229; 161;
    49; 82; 23; 188; 215; 137; 73; 145; 68; 114; 19; 187; 34; 108; 37; 181; 77; 168; 99; 112;
    251; 205; 152; 67; 128; 55; 70; 102; 187; 143; 252; 181; 191; 64; 194; 84; 176; 103; 210;
    124; 81; 206; 74; 213; 254; 216; 41; 201; 11; 80; 90; 87; 27; 127; 77; 28; 173; 106; 82; 60;
    218; 119; 14; 103; 188; 234; 175; 126; 137])) =
    [121; 204; 193; 147; 98; 157; 235; 202; 4; 127; 11; 112; 96; 75; 246; 182; 44; 227; 221; 74;
    150; 38; 227; 85; 250; 252; 97; 152; 230; 234; 43; 70; 213; 132; 19; 103; 59; 153; 176; 41;
    214; 101; 195; 87; 96; 31; 180; 38; 160; 178; 244; 187; 162; 0; 238; 159; 10; 67; 209; 155;
    87; 26; 156; 113; 239; 17; 66; 230; 93; 90; 38; 111; 221; 202; 131; 44; 229; 159; 170; 124;
    172; 11; 156; 241; 190; 43; 255; 202; 48; 13; 1; 238; 56; 118; 25; 196; 174; 18; 253; 68;
    56; 242; 3; 160; 228; 225; 196; 126; 195; 20; 134; 31; 78; 144; 135; 203; 51; 57; 106; 104;
    115; 232; 249; 210; 83; 154; 75; 142].
Proof. by vm_compute. Qed.
