(* ===== verification/Net.v ===== *)
(** * IPv4 networks as a promise of the [ipnet] crate

    The program takes [ipnet::Ipv4Net] from a third-party crate.  [Ipnet] is the
    part of its interface the program uses, [IpnetLaws] its documented
    behaviour: a network is an address with a prefix length, and denotes the
    block of addresses from [network] to [broadcast].  The components are
    stated over any implementation; [prefix_net] is one, for the examples. *)

From stdpp Require Import base strings list.
From Stdlib Require Import Ascii ZArith Lia.
From S2P Require Import Prelude RustStd.

(** The number of addresses of a network of prefix length [p]. *)
Definition block (p : Z) : Z := 2 ^ (32 - p).

(** The first address of the block of [p] that [a] lies in. *)
Definition block_start (p a : Z) : Z := a / block p * block p.

Class Ipnet (net : Type) := {
  net_new : Z -> Z -> option net;
  addr : net -> Z;
  prefix_len : net -> Z;
  network : net -> Z;
  broadcast : net -> Z;
  trunc : net -> net;
  supernet : net -> option net;
  contains_net : net -> net -> bool;
  contains_ip : net -> Z -> bool;
  (** the derived order: by address, then by prefix length *)
  net_le : net -> net -> bool;
  net_parse : string -> option net;
  net_show : net -> string;
}.

Class IpnetLaws (net : Type) `{Ipnet net} `{EqDecision net} := {
  addr_range n : is_u 32 (addr n);
  prefix_range n : 0 <= prefix_len n <= 32;
  net_ext n m : addr n = addr m -> prefix_len n = prefix_len m -> n = m;
  new_some a p : is_u 32 a -> 0 <= p <= 32 ->
    exists n, net_new a p = Some n /\ addr n = a /\ prefix_len n = p;
  new_none a p : 32 < p -> net_new a p = None;
  network_start n : network n = block_start (prefix_len n) (addr n);
  broadcast_end n : broadcast n = network n + block (prefix_len n) - 1;
  addr_trunc n : addr (trunc n) = network n;
  prefix_trunc n : prefix_len (trunc n) = prefix_len n;
  supernet_none n : prefix_len n = 0 -> supernet n = None;
  supernet_some n : 0 < prefix_len n -> exists m, supernet n = Some m /\
    prefix_len m = prefix_len n - 1 /\ addr m = block_start (prefix_len n - 1) (addr n);
  contains_net_spec n m :
    contains_net n m = true <-> network n <= network m /\ broadcast m <= broadcast n;
  contains_ip_spec n ip : contains_ip n ip = true <-> network n <= ip <= broadcast n;
  net_le_spec n m :
    net_le n m = true <-> addr n < addr m \/ (addr n = addr m /\ prefix_len n <= prefix_len m);
  parse_net_show n : net_parse (net_show n) = Some n;
  net_show_text n : net_show n = show_ipv4 (addr n) +:+ "/" +:+ show (prefix_len n);
}.

(** ** Blocks *)

Lemma block_pos p : 0 <= p <= 32 -> 0 < block p.
Proof. intros. unfold block. apply Z.pow_pos_nonneg; lia. Qed.

Lemma block_divides p q : 0 <= p <= q -> q <= 32 -> block p = block q * 2 ^ (q - p).
Proof. intros. unfold block. rewrite <- Z.pow_add_r by lia. f_equal. lia. Qed.

Lemma block_total : block 0 = 2 ^ 32.
Proof. done. Qed.

Lemma block_lt p q : 0 <= p -> p < q <= 32 -> block q < block p.
Proof. intros. unfold block. apply Z.pow_lt_mono_r; lia. Qed.

Lemma block_half p : 0 < p <= 32 -> block (p - 1) = 2 * block p.
Proof.
  intros. rewrite (block_divides (p - 1) p) by lia.
  replace (p - (p - 1)) with 1 by lia. lia.
Qed.

Lemma block_start_le p a : 0 <= p <= 32 -> block_start p a <= a < block_start p a + block p.
Proof.
  intros Hp. pose proof (block_pos p Hp). unfold block_start.
  pose proof (Z.div_mod a (block p) ltac:(lia)). pose proof (Z.mod_pos_bound a (block p) ltac:(lia)).
  nia.
Qed.

Section Laws.
Context {net : Type} `{IpnetLaws net}.
Implicit Types n m : net.

(** The addresses a network stands for. *)
Definition covers (n : net) (ip : Z) : Prop := network n <= ip <= broadcast n.

Lemma covers_contains n ip : contains_ip n ip = true <-> covers n ip.
Proof. apply contains_ip_spec. Qed.

#[global] Instance covers_dec n ip : Decision (covers n ip).
Proof. unfold covers. apply _. Defined.

Lemma network_range n : is_u 32 (network n).
Proof.
  rewrite network_start. pose proof (addr_range n) as [Ha Hb]. pose proof (prefix_range n) as Hp.
  pose proof (block_start_le (prefix_len n) (addr n) Hp). unfold block_start in *.
  pose proof (block_pos _ Hp). split; [| lia].
  apply Z.mul_nonneg_nonneg; [| lia]. by apply Z.div_pos.
Qed.

Lemma network_multiple n : exists k, network n = k * block (prefix_len n).
Proof. rewrite network_start. by eexists. Qed.

Lemma network_le_broadcast n : network n <= broadcast n.
Proof. rewrite broadcast_end. pose proof (block_pos _ (prefix_range n)). lia. Qed.

Lemma broadcast_range n : is_u 32 (broadcast n).
Proof.
  pose proof (network_range n) as [Hn1 Hn2]. pose proof (network_le_broadcast n).
  split; [lia |]. rewrite broadcast_end. destruct (network_multiple n) as [k Hk].
  pose proof (prefix_range n) as Hp. pose proof (block_pos _ Hp).
  assert (2 ^ 32 = block (prefix_len n) * 2 ^ (prefix_len n - 0)) as Hd by (apply (block_divides 0); lia).
  rewrite Z.sub_0_r in Hd. rewrite Hd in *. rewrite Hk in *.
  set (b := block (prefix_len n)) in *. set (c := 2 ^ prefix_len n) in *.
  assert (k + 1 <= c) by nia. nia.
Qed.

(** A network whose address is its first one ([trunc]'s results are). *)
Definition truncated (n : net) : Prop := addr n = network n.

Lemma network_trunc n : network (trunc n) = network n.
Proof.
  rewrite network_start, prefix_trunc, addr_trunc, network_start. unfold block_start.
  pose proof (block_pos _ (prefix_range n)). by rewrite Z.div_mul by lia.
Qed.

Lemma broadcast_trunc n : broadcast (trunc n) = broadcast n.
Proof. by rewrite !broadcast_end, prefix_trunc, network_trunc. Qed.

Lemma trunc_truncated n : truncated (trunc n).
Proof. unfold truncated. by rewrite addr_trunc, network_trunc. Qed.

Lemma trunc_id n : truncated n -> trunc n = n.
Proof. intros Hn. apply net_ext; [by rewrite addr_trunc | apply prefix_trunc]. Qed.

Lemma prefix_zero_covers n ip : prefix_len n = 0 -> is_u 32 ip -> contains_ip n ip = true.
Proof.
  intros Hp [H1 H2]. apply contains_ip_spec. rewrite broadcast_end, network_start, Hp.
  pose proof (addr_range n) as [Ha Hb]. unfold block_start. rewrite block_total.
  rewrite Z.div_small by lia. lia.
Qed.

(** ** Supernets: a network and its sibling *)

Lemma supernet_spec n m :
  supernet n = Some m ->
  0 < prefix_len n /\ prefix_len m = prefix_len n - 1 /\ truncated m /\
  network m = block_start (prefix_len n - 1) (addr n).
Proof.
  intros Hs. pose proof (prefix_range n) as Hp.
  destruct (decide (prefix_len n = 0)) as [Hz | Hne]; [by rewrite supernet_none in Hs |].
  destruct (supernet_some n) as (m' & Hm' & Hpm & Ham); [lia |].
  rewrite Hm' in Hs. injection Hs as ->.
  assert (network m = addr m) as Hnm.
  { rewrite network_start, Hpm, Ham. unfold block_start.
    assert (0 < block (prefix_len n - 1)) by (apply block_pos; lia). by rewrite Z.div_mul by lia. }
  split_and!; [lia | done | by unfold truncated | congruence].
Qed.

(** The supernet of [n] is [n] with its sibling: two blocks next to each other. *)
Lemma supernet_halves n m :
  supernet n = Some m ->
  (network n = network m /\ broadcast m = broadcast n + block (prefix_len n)) \/
  (network n = network m + block (prefix_len n) /\ broadcast m = broadcast n).
Proof.
  intros Hs. apply supernet_spec in Hs as (Hp0 & Hpm & _ & Hnm).
  pose proof (prefix_range n) as Hp. pose proof (block_pos _ Hp) as Hpos.
  assert (block (prefix_len n - 1) = 2 * block (prefix_len n)) as Hhalf by (apply block_half; lia).
  rewrite !broadcast_end, Hpm, Hhalf, Hnm, network_start. unfold block_start. rewrite Hhalf.
  set (b := block (prefix_len n)) in *. set (a := addr n).
  pose proof (Z.div_mod a b ltac:(lia)). pose proof (Z.mod_pos_bound a b ltac:(lia)).
  pose proof (Z.div_mod a (2 * b) ltac:(lia)). pose proof (Z.mod_pos_bound a (2 * b) ltac:(lia)).
  assert (a / b = 2 * (a / (2 * b)) \/ a / b = 2 * (a / (2 * b)) + 1) as [-> | ->] by nia; nia.
Qed.

(** A larger block that starts inside a smaller one starts with it. *)
Lemma larger_start n m :
  prefix_len m <= prefix_len n -> network n <= network m <= broadcast n -> network m = network n.
Proof.
  intros Hle Hin. pose proof (prefix_range n). pose proof (prefix_range m).
  pose proof (block_pos _ (prefix_range n)).
  destruct (network_multiple n) as [k Hk], (network_multiple m) as [j Hj].
  rewrite broadcast_end in Hin.
  assert (block (prefix_len m) = block (prefix_len n) * 2 ^ (prefix_len n - prefix_len m)) as Hd
    by (apply block_divides; lia).
  set (c := 2 ^ (prefix_len n - prefix_len m)) in *.
  rewrite Hk, Hj, Hd in *. set (b := block (prefix_len n)) in *.
  assert (k = j * c) by nia. nia.
Qed.

(** Blocks are nested or disjoint. *)
Lemma blocks_nested n m :
  prefix_len n <= prefix_len m -> network n <= network m <= broadcast n -> broadcast m <= broadcast n.
Proof.
  intros Hle Hin. pose proof (prefix_range n). pose proof (prefix_range m).
  pose proof (block_pos _ (prefix_range n)). pose proof (block_pos _ (prefix_range m)).
  destruct (network_multiple n) as [k Hk], (network_multiple m) as [j Hj].
  rewrite !broadcast_end in *.
  assert (block (prefix_len n) = block (prefix_len m) * 2 ^ (prefix_len m - prefix_len n)) as Hd
    by (apply block_divides; lia).
  assert (0 < 2 ^ (prefix_len m - prefix_len n)) by (apply Z.pow_pos_nonneg; lia).
  set (c := 2 ^ (prefix_len m - prefix_len n)) in *.
  rewrite Hk, Hj, Hd in *. set (b := block (prefix_len m)) in *.
  assert (j + 1 <= (k + 1) * c) by nia. nia.
Qed.
End Laws.

(** ** An implementation *)

Module PrefixNet.
Record t := Net { base : Z; len : Z; base_range : bool_decide (is_u 32 base) = true;
                  len_range : (0 <=? len) && (len <=? 32) = true }.

#[global] Instance t_eq_dec : EqDecision t.
Proof.
  intros [a p H1 H2] [b q H3 H4].
  destruct (decide (a = b)) as [-> |]; [| right; congruence].
  destruct (decide (p = q)) as [-> |]; [| right; congruence].
  left. f_equal; apply Eqdep_dec.UIP_dec, Bool.bool_dec.
Defined.

Definition make (a p : Z) : option t :=
  match Bool.bool_dec (bool_decide (is_u 32 a)) true with
  | left H1 => match Bool.bool_dec ((0 <=? p) && (p <=? 32)) true with
               | left H2 => Some (Net a p H1 H2)
               | right _ => None
               end
  | right _ => None
  end.

Lemma make_some a p : is_u 32 a -> 0 <= p <= 32 ->
  exists n, make a p = Some n /\ base n = a /\ len n = p.
Proof.
  intros Ha Hp. unfold make. destruct (Bool.bool_dec _ _) as [H1 | H1].
  - destruct (Bool.bool_dec _ _) as [H2 | H2]; [by eexists |].
    destruct H2. apply andb_true_iff. lia.
  - destruct H1. by apply bool_decide_eq_true.
Qed.

Lemma make_ok a p n : make a p = Some n -> base n = a /\ len n = p.
Proof.
  unfold make. destruct (Bool.bool_dec _ _); [| done]. destruct (Bool.bool_dec _ _); [| done].
  by intros [= <-].
Qed.

Definition default_net : t := Net 0 0 eq_refl eq_refl.

Definition get (o : option t) : t := default default_net o.
Definition first (n : t) : Z := block_start (len n) (base n).
Definition last (n : t) : Z := first n + block (len n) - 1.

Definition parse (s : string) : option t :=
  '(a, p) ← split_once "/"%char s;
  a ← parse_ipv4 a;
  p ← parse_u8 p;
  make a p.

#[global] Instance ipnet : Ipnet t := {|
  net_new := make;
  addr := base;
  prefix_len := len;
  network := first;
  broadcast := last;
  trunc n := get (make (first n) (len n));
  supernet n := if len n =? 0 then None else make (block_start (len n - 1) (base n)) (len n - 1);
  contains_net n m := (first n <=? first m) && (last m <=? last n);
  contains_ip n ip := (first n <=? ip) && (ip <=? last n);
  net_le n m := (base n <? base m) || ((base n =? base m) && (len n <=? len m));
  net_parse := parse;
  net_show n := show_ipv4 (base n) +:+ "/" +:+ show (len n);
|}.

Lemma field_range n : is_u 32 (base n) /\ 0 <= len n <= 32.
Proof.
  destruct n as [a p H1 H2]; cbn. apply bool_decide_eq_true in H1. split; [done |].
  apply andb_true_iff in H2. lia.
Qed.

Lemma ext n m : base n = base m -> len n = len m -> n = m.
Proof.
  destruct n as [a p H1 H2], m as [b q H3 H4]; cbn. intros -> ->.
  f_equal; apply Eqdep_dec.UIP_dec, Bool.bool_dec.
Qed.

Lemma start_range p a : 0 <= p <= 32 -> is_u 32 a -> is_u 32 (block_start p a).
Proof.
  intros Hp [Ha Hb]. pose proof (block_start_le p a Hp). pose proof (block_pos p Hp).
  split; [| lia]. unfold block_start. apply Z.mul_nonneg_nonneg; [| lia]. by apply Z.div_pos.
Qed.

Lemma show_len_slash n : Forall (fun a => eqb_ascii a "/"%char = false) (chars (show_ipv4 (base n))).
Proof.
  pose proof (ipv4_octets (base n) (proj1 (field_range n))) as Ho. unfold show_ipv4.
  destruct (octets (base n)) as [[[a b] c] d]. destruct Ho as (_ & Ha & Hb & Hc & Hd).
  unfold join. rewrite chars_str. cbn [fmap list_fmap join_bytes]. unfold show. rewrite !chars_str.
  unfold is_u in *. repeat (apply Forall_app; split).
  all: try (apply digits_no_sep; [done |]; apply show_bytes_digits; lia).
  all: by repeat constructor.
Qed.

Lemma parse_shown n : parse (show_ipv4 (base n) +:+ "/" +:+ show (len n)) = Some n.
Proof.
  destruct (field_range n) as [Hb Hl]. unfold parse, split_once.
  rewrite !chars_app. change (chars "/") with ["/"%char]. cbn [app].
  rewrite split_once_bytes_app by apply show_len_slash. cbn [mbind option_bind]. rewrite !str_chars.
  rewrite parse_show_ipv4 by done. cbn [mbind option_bind]. unfold parse_u8.
  rewrite parse_show by (unfold u8_max; lia). cbn [mbind option_bind]. destruct (make_some (base n) (len n) Hb Hl) as (m & -> & H1 & H2). f_equal. by apply ext.
Qed.

#[global] Instance ipnet_laws : IpnetLaws t.
Proof.
  split; cbn.
  - intros n. apply field_range.
  - intros n. apply field_range.
  - apply ext.
  - apply make_some.
  - intros a p Hp. unfold make. destruct (Bool.bool_dec _ _); [| done].
    destruct (Bool.bool_dec _ _) as [E |]; [| done]. pose proof (proj1 (andb_true_iff _ _) E). lia.
  - done.
  - done.
  - intros n. destruct (field_range n) as [Hb Hl].
    destruct (make_some (first n) (len n)) as (m & Hm & H1 & H2); [by apply start_range | done |].
    by rewrite Hm.
  - intros n. destruct (field_range n) as [Hb Hl].
    destruct (make_some (first n) (len n)) as (m & Hm & H1 & H2); [by apply start_range | done |].
    by rewrite Hm.
  - by intros n ->.
  - intros n Hp. destruct (field_range n) as [Hb Hl].
    destruct (make_some (block_start (len n - 1) (base n)) (len n - 1)) as (m & Hm & H1 & H2);
      [apply start_range; [lia | done] | lia |].
    exists m. by rewrite (proj2 (Z.eqb_neq _ _)) by lia.
  - intros n m. rewrite andb_true_iff. lia.
  - intros n ip. rewrite andb_true_iff. lia.
  - intros n m. rewrite orb_true_iff, andb_true_iff. lia.
  - apply parse_shown.
  - done.
Qed.
End PrefixNet.
