(* ===== verification/Model.v ===== *)
(** * The agent's data model (crates/gofro-agent/src/model.rs)

    Records and enums with the source's fields and constructors, the MAC
    address parser and printer and the panel port check.  Text is UTF-8 bytes,
    addresses and ports are [Z] within their width. *)

From stdpp Require Import base countable strings list.
From Stdlib Require Import Ascii ZArith Lia.
From S2P Require Import Prelude RustStd.

(** ** MAC addresses *)

(** [MacAddress([u8; 6])] *)
Abbreviation mac_address := (list Z) (only parsing).

Definition mac_part (part : string) : result Z :=
  _ ← ensure ((slen part =? 2) && forallb is_ascii_hexdigit (chars part)) "invalid MAC address";
  ok_or (parse_radix 16 u8_max part) "invalid digit found in string".

Definition mac_parse (value : string) : result mac_address :=
  _ ← ensure (slen value =? 17) "invalid MAC address";
  let parts := split ":"%char value in
  _ ← ensure (length parts =? 6)%nat "invalid MAC address";
  bytes ← mapM mac_part parts;
  _ ← ensure (negb (bool_decide (bytes = replicate 6 0)) && (Z.land (default 0 (bytes !! 0%nat)) 1 =? 0))
        "MAC address must be nonzero unicast";
  Ok bytes.

Definition mac_show (m : mac_address) : string := str (join_bytes [":"%char] (hex2 <$> m)).

(** The derived order of [[u8; 6]]: lexicographic. *)
Fixpoint mac_leb (a b : mac_address) : bool :=
  match a, b with
  | [], _ => true
  | _ :: _, [] => false
  | x :: a', y :: b' => (x <? y) || ((x =? y) && mac_leb a' b')
  end.

Definition mac_le (a b : mac_address) : Prop := mac_leb a b = true.

#[export] Instance mac_le_dec a b : Decision (mac_le a b).
Proof. unfold mac_le. apply _. Defined.

(** What a [MacAddress] of the program is. *)
Definition mac_valid (m : mac_address) : Prop :=
  length m = 6%nat /\ Forall (is_u 8) m /\ m <> replicate 6 0 /\ Z.land (default 0 (m !! 0%nat)) 1 = 0.

(** ** Panel constants and ports *)

Definition AP_DOMAIN : string := "wifi.gofro.net".
Definition PANEL_VIRTUAL_IP : Z := ipv4 198 18 0 0.

Record panel_ports := PanelPorts { http : Z; https : Z }.

Definition panel_ports_validate (p : panel_ports) : result unit :=
  _ ← ensure (negb (http p =? 0) && negb (https p =? 0))
        "HTTP and HTTPS listener ports must be nonzero";
  _ ← ensure (negb (existsb (Z.eqb (http p)) [443; 8443])
              && negb (existsb (Z.eqb (https p)) [80; 8081])
              && negb (http p =? https p))
        "HTTP and HTTPS listener ports must not overlap each other or the opposite protocol's panel ports";
  Ok tt.

(** ** Servers and configuration *)

Record managed_server := ManagedServer { m_host : string; m_port : Z; m_host_key : string }.

Record server_profile := ServerProfile {
  name : string;
  emoji : string;
  endpoint : string;
  public_key : string;
  client_tunnel_address : option string;
  client_private_key : option string;
  management : option managed_server;
}.

Record server_status := ServerStatus {
  st_name : string;
  st_emoji : string;
  st_endpoint : string;
  st_public_key : string;
  st_managed : bool;
}.

Definition server_status_from (s : server_profile) : server_status :=
  ServerStatus (name s) (emoji s) (endpoint s) (public_key s) (bool_decide (is_Some (management s))).

Record server_update := ServerUpdate {
  up_previous_public_key : string;
  up_name : string;
  up_endpoint : string;
  up_public_key : string;
  up_emoji : option string;
}.

(** ** Routing *)

Inductive route_target := Direct | Vpn | Warp | Block.

#[export] Instance route_target_eq_dec : EqDecision route_target.
Proof. solve_decision. Defined.

Inductive routing_mode := Rules | All.

#[export] Instance routing_mode_eq_dec : EqDecision routing_mode.
Proof. solve_decision. Defined.

Inductive rule_ref :=
| RefDomain (index : nat)
| RefIp (index : nat).

#[export] Instance rule_ref_eq_dec : EqDecision rule_ref.
Proof. solve_decision. Defined.

Inductive domain_match :=
| Exact (value : string)
| Suffix (value : string)
| GeoSite (value : string).

Inductive ip_match :=
| Cidr (value : string)
| GeoIp (value : string).

Record domain_rule := DomainRule {
  d_name : string;
  d_enabled : bool;
  d_matcher : domain_match;
  d_target : route_target;
}.

Record ip_rule := IpRule {
  i_name : string;
  i_enabled : bool;
  i_matcher : ip_match;
  i_target : route_target;
}.

Record routing_config := RoutingConfig {
  domain_rules : list domain_rule;
  ip_rules : list ip_rule;
  default_target : route_target;
  mode : routing_mode;
  rule_order : option (list rule_ref);
}.

Definition routing_default : routing_config :=
  RoutingConfig
    [DomainRule "Российские сайты" true (GeoSite "category-ru") Direct]
    [IpRule "Российские IP" true (GeoIp "ru") Direct]
    Vpn Rules None.

Record controller_config := ControllerConfig {
  auto_update_enabled : bool;
  device_exclusions : list mac_address;
  vpn_enabled : bool;
  active_server_key : option string;
  servers : list server_profile;
  routing : routing_config;
}.

(** [LanContext], over the network type of [ipnet]. *)
Record lan_context (net : Type) := LanContext {
  lan_device : string;
  lan_address : Z;
  lan_subnet : net;
}.
Arguments LanContext {net}.
Arguments lan_device {net}.
Arguments lan_address {net}.
Arguments lan_subnet {net}.

#[export] Instance managed_server_eq_dec : EqDecision managed_server.
Proof. solve_decision. Defined.
#[export] Instance server_profile_eq_dec : EqDecision server_profile.
Proof. solve_decision. Defined.
#[export] Instance domain_match_eq_dec : EqDecision domain_match.
Proof. solve_decision. Defined.
#[export] Instance ip_match_eq_dec : EqDecision ip_match.
Proof. solve_decision. Defined.
#[export] Instance domain_rule_eq_dec : EqDecision domain_rule.
Proof. solve_decision. Defined.
#[export] Instance ip_rule_eq_dec : EqDecision ip_rule.
Proof. solve_decision. Defined.
#[export] Instance routing_config_eq_dec : EqDecision routing_config.
Proof. solve_decision. Defined.
#[export] Instance controller_config_eq_dec : EqDecision controller_config.
Proof. solve_decision. Defined.

(** The configurations are countable: a witness can store them in a text. *)
#[export] Instance managed_server_countable : Countable managed_server :=
  inj_countable' (fun m => (m_host m, m_port m, m_host_key m))
    (fun '(a, b, c) => ManagedServer a b c) ltac:(by intros []).
#[export] Instance server_profile_countable : Countable server_profile :=
  inj_countable' (fun s => (name s, emoji s, endpoint s, public_key s, client_tunnel_address s,
      client_private_key s, management s))
    (fun '(a, b, c, d, e, f, g) => ServerProfile a b c d e f g) ltac:(by intros []).
#[export] Instance route_target_countable : Countable route_target :=
  inj_countable' (fun t => match t with Direct => 0%nat | Vpn => 1%nat | Warp => 2%nat | Block => 3%nat end)
    (fun n => match n with 0%nat => Direct | 1%nat => Vpn | 2%nat => Warp | _ => Block end) ltac:(by intros []).
#[export] Instance routing_mode_countable : Countable routing_mode :=
  inj_countable' (fun m => match m with Rules => true | All => false end)
    (fun b : bool => if b then Rules else All) ltac:(by intros []).
#[export] Instance rule_ref_countable : Countable rule_ref :=
  inj_countable' (fun r => match r with RefDomain i => inl i | RefIp i => inr i end)
    (fun s => match s with inl i => RefDomain i | inr i => RefIp i end) ltac:(by intros []).
#[export] Instance domain_match_countable : Countable domain_match :=
  inj_countable' (fun m => match m with Exact v => inl v | Suffix v => inr (inl v) | GeoSite v => inr (inr v) end)
    (fun s => match s with inl v => Exact v | inr (inl v) => Suffix v | inr (inr v) => GeoSite v end)
    ltac:(by intros []).
#[export] Instance ip_match_countable : Countable ip_match :=
  inj_countable' (fun m => match m with Cidr v => inl v | GeoIp v => inr v end)
    (fun s => match s with inl v => Cidr v | inr v => GeoIp v end) ltac:(by intros []).
#[export] Instance domain_rule_countable : Countable domain_rule :=
  inj_countable' (fun r => (d_name r, d_enabled r, d_matcher r, d_target r))
    (fun '(a, b, c, d) => DomainRule a b c d) ltac:(by intros []).
#[export] Instance ip_rule_countable : Countable ip_rule :=
  inj_countable' (fun r => (i_name r, i_enabled r, i_matcher r, i_target r))
    (fun '(a, b, c, d) => IpRule a b c d) ltac:(by intros []).
#[export] Instance routing_config_countable : Countable routing_config :=
  inj_countable' (fun r => (domain_rules r, ip_rules r, default_target r, mode r, rule_order r))
    (fun '(a, b, c, d, e) => RoutingConfig a b c d e) ltac:(by intros []).
#[export] Instance controller_config_countable : Countable controller_config :=
  inj_countable' (fun c => (auto_update_enabled c, device_exclusions c, vpn_enabled c,
      active_server_key c, servers c, routing c))
    (fun '(a, b, c, d, e, f) => ControllerConfig a b c d e f) ltac:(by intros []).

#[export] Instance mac_valid_dec m : Decision (mac_valid m).
Proof. unfold mac_valid. apply _. Defined.

(** What the types of the configuration's fields say of its values: exclusions
    are MAC addresses, SSH ports are [u16]s. *)
Definition server_typed (s : server_profile) : Prop :=
  match management s with Some m => is_u 16 (m_port m) | None => True end.

#[export] Instance server_typed_dec s : Decision (server_typed s).
Proof. unfold server_typed. destruct (management s); apply _. Defined.

Definition config_typed (c : controller_config) : Prop :=
  Forall mac_valid (device_exclusions c) /\ Forall server_typed (servers c).

#[export] Instance config_typed_dec c : Decision (config_typed c).
Proof. unfold config_typed. apply _. Defined.

(** ** Lemmas *)

Lemma mac_leb_refl a : mac_leb a a = true.
Proof. induction a as [| x a IH]; cbn; [done |]. rewrite IH, Z.eqb_refl. by rewrite orb_true_r. Qed.

#[export] Instance mac_le_total : Total mac_le.
Proof.
  intros a b. unfold mac_le. revert b. induction a as [| x a IH]; intros [| y b]; cbn; auto.
  destruct (IH b) as [IH' | IH']; rewrite IH'; [| rewrite orb_comm, andb_true_r; lia].
  rewrite andb_true_r. destruct (mac_leb b a); lia.
Qed.

#[export] Instance mac_le_trans : Transitive mac_le.
Proof.
  intros a b c. unfold mac_le. revert b c.
  induction a as [| x a IH]; intros [| y b] [| z c]; cbn; try done.
  rewrite !orb_true_iff, !andb_true_iff. intros [H1 | [H1 H1']] [H2 | [H2 H2']];
    [left; lia | left; lia | left; lia | right; split; [lia | by eapply IH]].
Qed.

#[export] Instance mac_le_antisymm : AntiSymm (=) mac_le.
Proof.
  intros a b. unfold mac_le. revert b. induction a as [| x a IH]; intros [| y b]; cbn; try done.
  rewrite !orb_true_iff, !andb_true_iff. intros [H1 | [H1 H1']] [H2 | [H2 H2']]; try lia.
  f_equal; [lia | by apply IH].
Qed.

(** Two hexadecimal digits are read back as the byte they print, in lower case. *)
Lemma hex_pair_check :
  forallb (fun a => forallb (fun b =>
    if is_ascii_hexdigit a && is_ascii_hexdigit b then
      match parse_radix 16 u8_max (str [a; b]) with
      | Some v => (0 <=? v) && (v <? 256) && bool_decide (hex2 v = [to_ascii_lower a; to_ascii_lower b])
      | None => false
      end
    else true) (of_code <$> seqZ 48 55)) (of_code <$> seqZ 48 55) = true.
Proof. vm_compute. reflexivity. Qed.

Lemma hexdigit_listed a : is_ascii_hexdigit a = true -> a ∈ of_code <$> seqZ 48 55.
Proof.
  intros Ha. apply list_elem_of_fmap. exists (code a). rewrite of_code_code. split; [done |].
  apply elem_of_seqZ. unfold is_ascii_hexdigit, is_ascii_digit, in_range in Ha. lia.
Qed.

Lemma hex_pair a b :
  is_ascii_hexdigit a = true -> is_ascii_hexdigit b = true ->
  exists v, parse_radix 16 u8_max (str [a; b]) = Some v /\ is_u 8 v /\
    hex2 v = [to_ascii_lower a; to_ascii_lower b].
Proof.
  intros Ha Hb. pose proof hex_pair_check as H.
  rewrite forallb_forall in H. specialize (H a).
  rewrite <- list_elem_of_In in H. specialize (H (hexdigit_listed a Ha)).
  rewrite forallb_forall in H. specialize (H b).
  rewrite <- list_elem_of_In in H. specialize (H (hexdigit_listed b Hb)).
  rewrite Ha, Hb in H. cbn [andb] in H.
  destruct (parse_radix 16 u8_max (str [a; b])) as [v |]; [| done].
  exists v. apply andb_true_iff in H as [H1 H2]. apply andb_true_iff in H1 as [H0 H1].
  apply bool_decide_eq_true in H2. unfold is_u. change (2 ^ 8) with 256. split_and!; [done | lia | lia | done].
Qed.

Lemma hex2_check :
  forallb (fun v => forallb is_ascii_hexdigit (hex2 v)
    && bool_decide (parse_radix 16 u8_max (str (hex2 v)) = Some v)) (seqZ 0 256) = true.
Proof. vm_compute. reflexivity. Qed.

Lemma hex2_parse v :
  is_u 8 v -> Forall (fun a => is_ascii_hexdigit a = true) (hex2 v) /\
  parse_radix 16 u8_max (str (hex2 v)) = Some v.
Proof.
  intros [H1 H2]. change (2 ^ 8) with 256 in H2. pose proof hex2_check as H.
  rewrite forallb_forall in H. specialize (H v). rewrite <- list_elem_of_In, elem_of_seqZ in H.
  specialize (H ltac:(lia)). apply andb_true_iff in H as [Hd Hp].
  apply bool_decide_eq_true in Hp. split; [| done].
  apply Forall_forall. intros a Ha%list_elem_of_In. by apply forallb_forall with (l := hex2 v).
Qed.

Lemma hexdigit_not a c :
  is_ascii_hexdigit a = true -> is_ascii_hexdigit c = false -> eqb_ascii a c = false.
Proof. intros Ha Hc. apply bool_decide_eq_false. intros ->. congruence. Qed.

Lemma join_bytes_map (f : ascii -> ascii) (c : ascii) (ls : list (list ascii)) :
  f c = c -> join_bytes [c] (fmap (M:=list) f <$> ls) = f <$> join_bytes [c] ls.
Proof.
  intros Hc. induction ls as [| l [| k ls] IH]; [done | done |].
  change (fmap (M:=list) f <$> l :: k :: ls) with ((f <$> l) :: (f <$> k) :: (fmap (M:=list) f <$> ls)).
  rewrite !join_bytes_cons, !fmap_app. cbn [fmap list_fmap app]. rewrite Hc. by rewrite <- IH.
Qed.

Lemma mac_part_ok l v :
  mac_part (str l) = Ok v -> is_u 8 v /\ hex2 v = to_ascii_lower <$> l.
Proof.
  unfold mac_part. intros H. inv_result. unfold slen in *. rewrite chars_str in *.
  apply andb_true_iff in E as [Hlen Hhex].
  apply Z.eqb_eq in Hlen. destruct l as [| a [| b [| c l]]]; cbn [length] in Hlen; try lia.
  cbn [forallb] in Hhex.
  rewrite andb_true_r in Hhex. apply andb_true_iff in Hhex as [Ha Hb].
  destruct (hex_pair a b Ha Hb) as (v' & Hv & Hr & Hx). rewrite H in Hv. by injection Hv as <-.
Qed.

Lemma mac_parts_ok ls bytes :
  mapM mac_part (str <$> ls) = Ok bytes ->
  Forall (is_u 8) bytes /\ hex2 <$> bytes = fmap (M:=list) to_ascii_lower <$> ls.
Proof.
  rewrite result_mapM_ok. revert bytes. induction ls as [| l ls IH]; intros bytes H; inversion H; subst.
  - done.
  - apply mac_part_ok in H2 as [Hr Hx]. destruct (IH _ H4) as [Hrs Hxs].
    split; [by constructor |]. cbn. by rewrite Hx, <- Hxs.
Qed.

Lemma mac_parts_show m :
  Forall (is_u 8) m -> mapM mac_part (str <$> (hex2 <$> m)) = Ok m.
Proof.
  intros Hm. apply result_mapM_ok. induction Hm as [| v m Hv Hm IH]; cbn [fmap list_fmap]; constructor; [| done].
  destruct (hex2_parse v Hv) as [Hd Hp]. unfold mac_part, slen. rewrite chars_str, Hp.
  unfold hex2 in *. inversion Hd as [| ? ? H1 H2]; subst. inversion H2; subst. cbn [forallb length].
  by rewrite H1, H3.
Qed.

(** MAC addresses are canonical.  Every text [MacAddress::from_str] accepts
    denotes six bytes of a nonzero unicast address and is printed back as its
    own lower case; and every valid address is read back from its text, so
    saving and loading an exclusion list changes nothing. *)
Theorem mac_text_canonical :
  (forall s m, mac_parse s = Ok m -> mac_valid m /\ mac_show m = to_ascii_lowercase s) /\
  (forall m, mac_valid m -> mac_parse (mac_show m) = Ok m).
Proof.
  split.
  - intros s m H. unfold mac_parse, split in H. inv_result.
    rewrite length_fmap in E0. apply Nat.eqb_eq in E0.
    apply mac_parts_ok in E1 as [Hr Hx].
    apply andb_true_iff in E2 as [Hz Hu]. apply negb_true_iff, bool_decide_eq_false in Hz.
    split.
    + split_and!; [| done | done | lia].
      rewrite <- (length_fmap hex2), Hx, length_fmap. done.
    + unfold mac_show, to_ascii_lowercase. rewrite Hx, join_bytes_map by done.
      by rewrite join_split.
  - intros m (Hlen & Hr & Hz & Hu). unfold mac_parse, mac_show, slen, split. rewrite !chars_str.
    assert (Forall (Forall (fun a => eqb_ascii a ":"%char = false)) (hex2 <$> m)) as Hsep.
    { apply Forall_fmap. eapply Forall_impl; [exact Hr |]. intros v Hv. cbn.
      eapply Forall_impl; [apply (proj1 (hex2_parse v Hv)) |].
      intros a Ha. by apply hexdigit_not. }
    rewrite split_join by (try done; intros Hnil; apply (f_equal length) in Hnil;
      rewrite length_fmap, Hlen in Hnil; done).
    rewrite !length_fmap, Hlen, mac_parts_show by done. cbn [Nat.eqb ensure mbind result_bind].
    destruct m as [| a [| b [| c [| d [| e [| g [| h m]]]]]]]; try done.
    rewrite bool_decide_false by done. cbn [lookup list_lookup default negb andb] in Hu |- *.
    by rewrite Hu.
Qed.

Lemma mac_text_canonical_witness :
  mac_show [2; 171; 205; 239; 0; 1] = to_ascii_lowercase "02:AB:CD:ef:00:01" /\
  mac_parse "02:ab:cd:ef:00:01" = Ok [2; 171; 205; 239; 0; 1].
Proof.
  destruct mac_text_canonical as [H1 H2]. split.
  - apply H1. by vm_compute.
  - change "02:ab:cd:ef:00:01"%string with (mac_show [2; 171; 205; 239; 0; 1]). apply H2.
    split_and!; [done | repeat constructor; done | done | done].
Defined.

(** The panel ports that pass are usable: nonzero, distinct, and neither
    listener takes a port the other protocol's panel is redirected from. *)
Lemma panel_ports_ok p u :
  panel_ports_validate p = Ok u ->
  http p <> 0 /\ https p <> 0 /\ http p <> https p /\
  http p <> 443 /\ http p <> 8443 /\ https p <> 80 /\ https p <> 8081.
Proof.
  unfold panel_ports_validate. intros H. inv_result. cbn in *.
  repeat match goal with
  | H : _ && _ = true |- _ => apply andb_true_iff in H as [? ?]
  | H : negb _ = true |- _ => apply negb_true_iff in H
  | H : _ || _ = false |- _ => apply orb_false_iff in H as [? ?]
  end. lia.
Qed.
