(* ===== verification/Stats.v ===== *)
(** * Memory profiles and traffic statistics (crates/gofro-agent/src/resources.rs, stats.rs)

    The limits a memory profile stands for, and the history of the traffic
    counters; the counters themselves are read in Api.v. *)

From stdpp Require Import base strings list.
From Stdlib Require Import Ascii ZArith Lia.
From S2P Require Import Prelude RustStd.

(** ** Memory profiles *)

Inductive memory_profile := Auto | Compact | Standard.

Record resource_limits := ResourceLimits {
  worker_threads : Z;
  blocking_threads : Z;
  stack_bytes : Z;
  dns_workers : Z;
  dns_tcp_connections : Z;
  fake_leases : Z;
  sqlite_cache_kib : Z;
  wal_pages : Z;
  geosite_bytes : Z;
  regex_count : Z;
  regex_size_bytes : Z;
  regex_cache_bytes : Z;
  geoip_intervals : Z;
}.

(** [usize::MAX] of the target. *)
Definition STANDARD (usize_max : Z) : resource_limits :=
  ResourceLimits 2 24 (512 * 1024) 16 32 32768 256 64 usize_max usize_max
    (10 * 1024 * 1024) (64 * 1024) usize_max.

Definition COMPACT : resource_limits :=
  ResourceLimits 1 16 (256 * 1024) 8 8 8192 128 32 (512 * 1024) 8
    (128 * 1024) (16 * 1024) 16384.

Definition for_memory (usize_max : Z) (p : memory_profile) (total_kib : option Z) : resource_limits :=
  match p with
  | Compact => COMPACT
  | Auto => match total_kib with
            | Some total => if total <? 96 * 1024 then COMPACT else STANDARD usize_max
            | None => STANDARD usize_max
            end
  | Standard => STANDARD usize_max
  end.

(** One line of /proc/meminfo: [MemTotal:] and a number. *)
Definition mem_total (usize_max : Z) (line : string) : option Z :=
  match split_whitespace line with
  | key :: number :: _ =>
      if bool_decide (key = "MemTotal:"%string) then parse_radix 10 usize_max number else None
  | _ => None
  end.

(** [resolve]: the text of /proc/meminfo is given, [None] when it cannot be read. *)
Definition resolve (usize_max : Z) (p : memory_profile) (meminfo : option string) : resource_limits :=
  for_memory usize_max p (info ← meminfo; find_map (mem_total usize_max) (lines info)).

(** ** Traffic statistics *)

Definition HISTORY_LIMIT : nat := 90.

Record live_stats := LiveStats { rx_bps : Z; tx_bps : Z }.
Record history_point := HistoryPoint { timestamp : Z; h_rx_bps : Z; h_tx_bps : Z }.
Record stats_tracker := StatsTracker {
  previous : option (Z * Z * Z);
  history : list history_point;
}.

Definition rate (now at_ new old : Z) : Z :=
  saturating_mul_max u64_max (saturating_sub new old) 8 / saturating_sub now at_.

(** [StatsTracker::sample] at the time [now]. *)
Definition sample (now rx tx : Z) (t : stats_tracker) : (live_stats * list history_point) * stats_tracker :=
  let '(rx_bps, tx_bps) :=
    match previous t with
    | None => (0, 0)
    | Some (at_, old_rx, old_tx) =>
        if saturating_sub now at_ =? 0 then
          match last (history t) with
          | Some point => (h_rx_bps point, h_tx_bps point)
          | None => (0, 0)
          end
        else (rate now at_ rx old_rx, rate now at_ tx old_tx)
    end in
  let h := history t in
  let h := match last h with
           | Some point => if timestamp point =? now then removelast h else h
           | None => h
           end in
  let h := h ++ [HistoryPoint now rx_bps tx_bps] in
  let h := if (HISTORY_LIMIT <? length h)%nat then tail h else h in
  ((LiveStats rx_bps tx_bps, h), StatsTracker (Some (now, rx, tx)) h).

Definition fresh_tracker : stats_tracker := StatsTracker None [].

(** A run of the tracker over the samples [(now, rx, tx)]. *)
Definition run (samples : list (Z * Z * Z)) : stats_tracker :=
  fold_left (fun t '(now, rx, tx) => snd (sample now rx tx t)) samples fresh_tracker.

Definition adjacent_distinct (l : list history_point) : Prop :=
  forall i a b, l !! i = Some a -> l !! S i = Some b -> timestamp a <> timestamp b.

Definition rates_u64 (p : history_point) : Prop := is_u 64 (h_rx_bps p) /\ is_u 64 (h_tx_bps p).

Record history_ok (h : list history_point) : Prop := {
  h_bound : (length h <= HISTORY_LIMIT)%nat;
  h_adjacent : adjacent_distinct h;
  h_rates : Forall rates_u64 h;
}.

Definition sample_ok (s : Z * Z * Z) : Prop := is_u 64 (snd (fst s)) /\ is_u 64 (snd s).

(** ** Lemmas *)

Lemma rate_u64 now at_ new old : saturating_sub now at_ <> 0 -> is_u 64 (rate now at_ new old).
Proof.
  unfold rate, saturating_mul_max, saturating_sub. intros H.
  set (d := Z.max 0 (now - at_)) in *. set (x := Z.min u64_max (Z.max 0 (new - old) * 8)).
  assert (0 <= x <= u64_max) as Hx by (unfold x, u64_max; lia).
  assert (0 < d) as Hd by lia. split; [apply Z.div_pos; lia |].
  apply Z.le_lt_trans with x; [apply Z.div_le_upper_bound; nia |]. unfold u64_max in *. lia.
Qed.

Lemma adjacent_prefix l k : adjacent_distinct (l ++ k) -> adjacent_distinct l.
Proof.
  intros H i a b Ha Hb. apply (H i); by apply lookup_app_l_Some.
Qed.

Lemma adjacent_tail l : adjacent_distinct l -> adjacent_distinct (tail l).
Proof. destruct l as [| a l]; [done |]. intros H i. apply (H (S i)). Qed.

Lemma adjacent_snoc l p :
  adjacent_distinct l -> (forall q, last l = Some q -> timestamp q <> timestamp p) ->
  adjacent_distinct (l ++ [p]).
Proof.
  intros H Hp i a b Ha Hb.
  apply lookup_app_Some in Hb as [Hb | [Hlen Hb]].
  - rewrite lookup_app_l in Ha by (apply lookup_lt_Some in Hb; lia). by apply (H i).
  - destruct (S i - length l)%nat eqn:E; [| done]. injection Hb as <-.
    rewrite lookup_app_l in Ha by lia. apply Hp. rewrite last_lookup.
    replace (Nat.pred (length l)) with i by lia. done.
Qed.

(** Replacing a last point of the same second keeps the points distinct. *)
Lemma same_second_replaced h p now :
  last h = Some p -> timestamp p = now -> adjacent_distinct h ->
  forall q, last (removelast h) = Some q -> timestamp q <> now.
Proof.
  intros Hp Hnow Hadj q Hq. apply last_Some in Hp as [h' ->].
  rewrite removelast_last in Hq. rewrite <- Hnow.
  rewrite last_lookup in Hq. apply (Hadj (Nat.pred (length h'))).
  - by apply lookup_app_l_Some.
  - apply lookup_lt_Some in Hq. rewrite lookup_app_r by lia.
    by replace (S (Nat.pred (length h')) - length h')%nat with O by lia.
Qed.

Lemma sample_history now rx tx t live h t' :
  history_ok (history t) ->
  (forall at_ orx otx, previous t = Some (at_, orx, otx) -> history t <> []) ->
  sample now rx tx t = ((live, h), t') ->
  history_ok h /\ last h = Some (HistoryPoint now (rx_bps live) (tx_bps live)) /\ history t' = h /\
  h <> [].
Proof.
  intros [Hb Hadj Hr] Hprev H. unfold sample in H.
  set (rates := match previous t with None => _ | Some _ => _ end) in H.
  assert (is_u 64 (fst rates) /\ is_u 64 (snd rates)) as Hrates.
  { unfold rates. destruct (previous t) as [[[at_ orx] otx] |]; [| done].
    destruct (saturating_sub now at_ =? 0) eqn:E.
    - destruct (last (history t)) as [q |] eqn:Eq; [| done]. apply last_Some in Eq as [h' Eq].
      rewrite Eq in Hr. apply Forall_app in Hr as [_ Hr]. by inversion Hr.
    - apply Z.eqb_neq in E. cbn. split; by apply rate_u64. }
  destruct rates as [rxb txb]. cbn [fst snd] in Hrates.
  set (kept := match last (history t) with Some _ => _ | None => _ end) in H.
  assert (adjacent_distinct kept /\ Forall rates_u64 kept /\ (length kept <= HISTORY_LIMIT)%nat /\
    forall q, last kept = Some q -> timestamp q <> now) as (Hk1 & Hk2 & Hk3 & Hk4).
  { unfold kept. destruct (last (history t)) as [p |] eqn:Ep.
    - destruct (timestamp p =? now) eqn:En.
      + apply Z.eqb_eq in En. pose proof (same_second_replaced _ _ _ Ep En Hadj) as Hsame.
        apply last_Some in Ep as [h' Eh]. rewrite Eh in *. rewrite removelast_last in *.
        rewrite length_app in Hb. apply Forall_app in Hr as [Hr _].
        split_and!; [by eapply adjacent_prefix | done | cbn in *; lia | done].
      + apply Z.eqb_neq in En. split_and!; [done | done | done |]. intros q Hq. congruence.
    - split_and!; [done | done | done |]. intros q Hq. congruence. }
  set (pt := HistoryPoint now rxb txb) in *.
  assert (adjacent_distinct (kept ++ [pt])) as Ha by by apply adjacent_snoc.
  assert (Forall rates_u64 (kept ++ [pt])) as Hf by (apply Forall_app; split; [done | by apply Forall_singleton]).
  injection H as <- <- <-. cbn [rx_bps tx_bps history].
  destruct (HISTORY_LIMIT <? length (kept ++ [pt]))%nat eqn:El.
  - apply Nat.ltb_lt in El. rewrite length_app in El. destruct kept as [| k0 kept]; [cbn in El; unfold HISTORY_LIMIT in *; lia |].
    cbn [app tail]. split_and!; [split | by rewrite last_snoc | done | by destruct kept].
    + rewrite length_app. cbn in *. lia.
    + by apply (adjacent_tail ((k0 :: kept) ++ [pt])).
    + by inversion Hf.
  - apply Nat.ltb_ge in El. split_and!; [by split | by rewrite last_snoc | done | by destruct kept].
Qed.

Lemma run_ok samples :
  history_ok (history (run samples)) /\
  (forall at_ orx otx, previous (run samples) = Some (at_, orx, otx) -> history (run samples) <> []).
Proof.
  induction samples as [| [[now rx] tx] samples [IH1 IH2]] using rev_ind.
  - split; [| done]. split; [cbn; lia | by intros i ? ? ? | constructor].
  - unfold run in *. rewrite fold_left_app. cbn [fold_left].
    set (t := fold_left _ samples fresh_tracker) in *.
    destruct (sample now rx tx t) as [[live h] t'] eqn:E.
    destruct (sample_history _ _ _ _ _ _ _ IH1 IH2 E) as (Hok & _ & Hh & Hne). cbn [snd].
    rewrite Hh. by split.
Qed.

(** Whatever the counters and the clock do - counters that restart, a clock that
    stands still or goes back - the traffic history after any run of samples
    holds at most 90 points, never two of the same second next to each other,
    and rates that fit a u64; its last point is the sample just taken, with the
    rates that are shown live. *)
Theorem stats_history_invariant samples now rx tx live h t' :
  sample now rx tx (run samples) = ((live, h), t') ->
  history t' = h /\ (length h <= HISTORY_LIMIT)%nat /\ adjacent_distinct h /\
  Forall rates_u64 h /\ last h = Some (HistoryPoint now (rx_bps live) (tx_bps live)).
Proof.
  intros H. destruct (run_ok samples) as [H1 H2].
  destruct (sample_history _ _ _ _ _ _ _ H1 H2 H) as ([Hb Ha Hr] & Hl & Hh & _). done.
Qed.

Lemma stats_history_invariant_witness :
  adjacent_distinct [HistoryPoint 7 0 0; HistoryPoint 9 400 40].
Proof.
  refine (proj1 (proj2 (proj2 (stats_history_invariant [(7, 1000, 1000); (7, 1000, 1000)] 9 1100 1010
    (LiveStats 400 40) _ _ _)))). by vm_compute.
Defined.
