(* ===== verification/GeoWire.v ===== *)
(** * The bounded protobuf reader (crates/gofro-agent/src/geodata/wire.rs)

    [Reader] over a file whose bytes do not change while it is open (the agent
    keeps the release's inode).  [cursor] is where the buffered file is,
    [position] what the reader believes, [end_] the end of the message being
    read.  An operation takes the reader and gives its answer with the reader
    afterwards, errors included. *)

From stdpp Require Import base strings list.
From Stdlib Require Import Ascii ZArith Lia.
From S2P Require Import Prelude RustStd.

Record range := Range { start : Z; len : Z }.

Inductive value :=
| Integer (v : Z)
| Bytes (r : range)
| Fixed.

Record reader := Reader { cursor : Z; position : Z; end_ : Z }.

(** ** The state and error monad of the reader *)

Definition M (A : Type) : Type := reader -> result A * reader.

#[export] Instance M_ret : MRet M := fun A a r => (Ok a, r).
#[export] Instance M_bind : MBind M :=
  fun A B k m r => match m r with
                   | (Ok a, r') => k a r'
                   | (Err e, r') => (Err e, r')
                   end.

Definition fail {A} (m : string) : M A := fun r => (Err (Msg m), r).
Definition lift {A} (x : result A) : M A := fun r => (x, r).
Definition check (b : bool) (m : string) : M unit := lift (ensure b m).
Definition gets {A} (f : reader -> A) : M A := fun r => (Ok (f r), r).

(** The answer of [m], an error included, as a value. *)
Definition catch {A} (m : M A) : M (result A) := fun r => let '(x, r') := m r in (Ok x, r').

Definition set_position (p : Z) : M unit := fun r => (Ok tt, Reader (cursor r) p (end_ r)).
Definition set_both (c p : Z) : M unit := fun r => (Ok tt, Reader c p (end_ r)).
Definition set_end (e : Z) : M unit := fun r => (Ok tt, Reader (cursor r) (position r) e).

(** ** UTF-8 *)

Definition from_utf8 (l : list Z) : result string :=
  if utf8_valid l then Ok (str (of_code <$> l)) else Err (Ctx "invalid protobuf UTF-8" (Msg "utf-8")).

(** The encoder of the protobuf documentation: seven bits at a time, low first. *)
Fixpoint encode_varint (n : nat) (v : Z) : list Z :=
  match n with
  | O => []
  | S n' => if v <? 128 then [v] else 128 + v mod 128 :: encode_varint n' (v / 128)
  end.

Section Reader.
Variable file : list Z.

Definition flen : Z := Z.of_nat (length file).

(** [self.input.read_exact(&mut [0; n])] *)
Definition read_exact (n : Z) : M (list Z) := fun r =>
  if cursor r + n <=? flen
  then (Ok (take (Z.to_nat n) (drop (Z.to_nat (cursor r)) file)), Reader (cursor r + n) (position r) (end_ r))
  else (Err (Msg "failed to fill whole buffer"), Reader (Z.max (cursor r) flen) (position r) (end_ r)).

(** [Reader::new] *)
Definition new : reader := Reader 0 0 flen.

Fixpoint integer_loop (n : nat) (shift value : Z) : M Z :=
  match n with
  | O => fail "protobuf integer overflow"
  | S n' =>
      r ← gets (fun r => position r <? end_ r);
      _ ← check r "truncated protobuf integer";
      bytes ← read_exact 1;
      let byte := default 0 (bytes !! 0%nat) in
      p ← gets position;
      _ ← set_position (p + 1);
      _ ← check ((shift <? 63) || (byte <=? 1)) "protobuf integer overflow";
      let value := Z.lor value (wrap 64 (Z.shiftl (Z.land byte 0x7f) shift)) in
      if Z.land byte 0x80 =? 0 then mret value else integer_loop n' (shift + 7) value
  end.

Definition integer : M Z := integer_loop 10 0 0.

Definition seek (to : Z) : M unit :=
  delta ← gets (fun r => to - position r);
  _ ← check ((i64_min <=? delta) && (delta <=? i64_max)) "out of range integral type conversion attempted";
  c ← gets cursor;
  _ ← check (0 <=? c + delta) "invalid seek to a negative or overflowing position";
  set_both (c + delta) to.

Definition skip (len : Z) : M unit :=
  p ← gets position;
  _ ← check (p + len <=? u64_max) "protobuf offset overflow";
  e ← gets end_;
  _ ← check (p + len <=? e) "truncated protobuf field";
  seek (p + len).

Definition field : M (option (Z * value)) :=
  at_end ← gets (fun r => position r =? end_ r);
  if at_end : bool then mret None
  else
    key ← integer;
    let number := Z.shiftr key 3 in
    _ ← check (number <=? u32_max) "out of range integral type conversion attempted";
    _ ← check ((1 <=? number) && (number <=? 0x1fffffff)) "invalid protobuf field number";
    let wire := Z.land key 7 in
    v ← (if wire =? 0 then v ← integer; mret (Integer v)
         else if wire =? 1 then _ ← skip 8; mret Fixed
         else if wire =? 2 then
           n ← integer;
           p ← gets position;
           _ ← skip n;
           mret (Bytes (Range p n))
         else if wire =? 5 then _ ← skip 4; mret Fixed
         else fail "unsupported protobuf wire type");
    mret (Some (number, v)).

Definition within {A} (rng : range) (read : M A) : M A :=
  p ← gets position;
  e ← gets end_;
  _ ← seek (start rng);
  _ ← set_end (start rng + len rng);
  result ← catch read;
  _ ← set_end e;
  _ ← seek p;
  lift result.

(** The bodies of [bytes] and [string]: fill a buffer, count its bytes. *)
Definition take_bytes (n : Z) : M (list Z) :=
  b ← read_exact n;
  p ← gets position;
  _ ← set_position (p + n);
  mret b.

Definition bytes (n : Z) (rng : range) : M (list Z) :=
  _ ← check (len rng =? n) "invalid protobuf byte length";
  within rng (take_bytes n).

Definition string_ (rng : range) (limit : Z) : M string :=
  _ ← check (len rng <=? limit) "protobuf string is too large";
  within rng (b ← take_bytes (len rng); lift (from_utf8 b)).

(** [while let Some((field, value)) = reader.field()? { body }]: at most one turn
    per byte left, which [each_field_unfold] shows to be enough. *)
Fixpoint while_fields {S : Type} (fuel : nat) (body : Z * value -> S -> M S) (s : S) : M S :=
  match fuel with
  | O => fail "out of fuel"
  | Datatypes.S fuel' =>
      o ← field;
      match o with
      | None => mret s
      | Some fv => s ← body fv s; while_fields fuel' body s
      end
  end.

Definition each_field {S : Type} (body : Z * value -> S -> M S) (s : S) : M S :=
  fun r => while_fields (Datatypes.S (Z.to_nat (end_ r - position r))) body s r.

(** ** Well-formed readers *)

Hypothesis file_bytes : Forall (is_u 8) file.
Hypothesis file_size : flen <= i64_max.

Record wf (r : reader) : Prop := {
  wf_sync : cursor r = position r;
  wf_low : 0 <= position r <= end_ r;
  wf_end : end_ r <= flen;
}.

Lemma wf_new : wf new.
Proof. split; cbn; unfold flen; lia. Qed.

Lemma bind_inv {A B} (m : M A) (k : A -> M B) r b r' :
  (m ≫= k) r = (Ok b, r') -> exists a r1, m r = (Ok a, r1) /\ k a r1 = (Ok b, r').
Proof. unfold mbind, M_bind. destruct (m r) as [[a | e] r1]; [eauto | done]. Qed.

Lemma check_inv b m r u r' : check b m r = (Ok u, r') -> b = true /\ r' = r.
Proof. destruct b; cbn; unfold check, lift; cbn; intros [= <- <-]. done. Qed.

(** Splits a run of the monad that succeeded into its steps. *)
Ltac inv_run :=
  repeat match goal with
  | H : (_ ≫= _) _ = (Ok _, _) |- _ =>
      let a := fresh "a" in let r1 := fresh "r" in let E := fresh "E" in
      apply bind_inv in H as (a & r1 & E & H)
  | H : check _ _ _ = (Ok _, _) |- _ => apply check_inv in H as [H ->]
  | H : gets _ _ = (Ok _, _) |- _ => unfold gets in H; injection H as <- <-
  | H : mret _ _ = (Ok _, _) |- _ => unfold mret, M_ret in H; injection H; clear H; intros; subst
  | H : set_position _ _ = (Ok _, _) |- _ => unfold set_position in H; injection H as <- <-
  | H : set_both _ _ _ = (Ok _, _) |- _ => unfold set_both in H; injection H as <- <-
  | H : set_end _ _ = (Ok _, _) |- _ => unfold set_end in H; injection H as <- <-
  | H : fail _ _ = (Ok _, _) |- _ => discriminate H
  end.

(** What a successful reading step keeps, having consumed at least [k] bytes. *)
Record advanced (k : Z) (r r' : reader) : Prop := {
  adv_wf : wf r';
  adv_end : end_ r' = end_ r;
  adv_position : position r + k <= position r';
}.

Lemma advanced_refl r : wf r -> advanced 0 r r.
Proof. intros H. split; [done | done | lia]. Qed.

Lemma advanced_trans k j r r1 r2 :
  advanced k r r1 -> advanced j r1 r2 -> advanced (k + j) r r2.
Proof. intros [_ He Hp] [Hw He' Hp']. split; [done | congruence | lia]. Qed.

Lemma advanced_weaken k j r r' : advanced k r r' -> j <= k -> advanced j r r'.
Proof. intros [Hw He Hp] Hle. split; [done | done | lia]. Qed.

Lemma read_byte r l r' :
  read_exact 1 r = (Ok l, r') -> 0 <= cursor r ->
  r' = Reader (cursor r + 1) (position r) (end_ r) /\ is_u 8 (default 0 (l !! 0%nat)).
Proof.
  unfold read_exact. intros H Hc. case_match eqn:E; [| done]. injection H as <- <-.
  split; [done |]. change (Z.to_nat 1) with 1%nat.
  destruct (drop (Z.to_nat (cursor r)) file) as [| b l] eqn:D; [done |]. cbn.
  apply (proj1 (Forall_forall _ _) file_bytes). apply (subseteq_drop (Z.to_nat (cursor r))).
  rewrite D. apply list_elem_of_here.
Qed.

Lemma integer_loop_spec n : forall shift value r v r',
  wf r -> 0 <= shift -> shift + 7 * Z.of_nat n = 70 -> is_u 64 value ->
  integer_loop n shift value r = (Ok v, r') -> advanced 1 r r' /\ is_u 64 v.
Proof.
  induction n as [| n IH]; intros shift value r v r' Hwf Hs Hn Hv H; [done |].
  cbn [integer_loop] in H. inv_run.
  apply Z.ltb_lt in E0. destruct Hwf as [Hsync Hlow Hend].
  apply read_byte in E1 as [-> Hbyte]; [| lia].
  set (byte := default 0 (a1 !! 0%nat)) in *. cbn [position cursor end_] in *.
  set (r1 := {| cursor := cursor r + 1; position := position r + 1; end_ := end_ r |}) in *.
  assert (advanced 1 r r1) as Hadv by (split; [split; cbn; lia | done | cbn; lia]).
  assert (is_u 64 (Z.lor value (wrap 64 (Z.shiftl (Z.land byte 127) shift)))) as Hv'.
  { apply lor_is_u; [done | done |]. by apply wrap_range. }
  case_match.
  - inv_run. by split.
  - apply IH in H as [Hadv' Hr]; [| apply Hadv | lia | lia | done].
    split; [| done]. eapply advanced_weaken; [eapply advanced_trans; eauto | lia].
Qed.

Lemma integer_spec r v r' : wf r -> integer r = (Ok v, r') -> advanced 1 r r' /\ is_u 64 v.
Proof. intros Hwf. apply integer_loop_spec; [done | lia | done | unfold is_u; lia]. Qed.

(** Seeking within the message always succeeds. *)
Lemma seek_ok r to :
  cursor r = position r -> 0 <= position r <= flen -> 0 <= to <= flen ->
  seek to r = (Ok tt, Reader to to (end_ r)).
Proof.
  intros Hsync Hlow Hto. unfold seek, mbind, M_bind, gets, check, lift, ensure.
  unfold i64_min, i64_max in *.
  rewrite (proj2 (andb_true_iff _ _)) by lia.
  replace (0 <=? cursor r + (to - position r)) with true by lia.
  unfold set_both. repeat f_equal. lia.
Qed.

Lemma skip_spec r n u r' :
  wf r -> 0 <= n -> skip n r = (Ok u, r') ->
  r' = Reader (position r + n) (position r + n) (end_ r) /\ position r + n <= end_ r.
Proof.
  intros Hwf Hn H. unfold skip in H. inv_run. destruct Hwf as [Hsync Hlow Hend].
  rewrite seek_ok in H by lia. injection H as <- <-. split; [done | lia].
Qed.

Lemma skip_advanced r n u r' : wf r -> 0 <= n -> skip n r = (Ok u, r') -> advanced n r r'.
Proof.
  intros Hwf Hn H. apply skip_spec in H as [-> Hle]; [| done | done].
  destruct Hwf as [Hsync Hlow Hend]. split; [split | |]; cbn; lia.
Qed.
Lemma field_spec r fv r' :
  wf r -> field r = (Ok (Some fv), r') ->
  advanced 2 r r' /\ 1 <= fst fv <= 0x1fffffff /\
  match snd fv with
  | Integer v => is_u 64 v
  | Bytes rng => 0 <= len rng /\ position r < start rng /\ start rng + len rng = position r'
  | Fixed => True
  end.
Proof.
  intros Hwf H. unfold field in H. apply bind_inv in H as (b & r0 & E0 & H). inv_run.
  case_match; [inv_run; done |].
  apply bind_inv in H as (key & r1 & Ekey & H).
  apply integer_spec in Ekey as [Hadv Hkey]; [| done].
  apply bind_inv in H as (u1 & r2 & Hc1 & H). apply check_inv in Hc1 as [_ ->].
  apply bind_inv in H as (u2 & r3 & Hc2 & H). apply check_inv in Hc2 as [Hnum ->].
  apply bind_inv in H as (v & r4 & Hv & H). inv_run. cbn [fst snd].
  assert (1 <= Z.shiftr key 3 <= 0x1fffffff) as Hnumber by lia.
  destruct (Z.land key 7 =? 0); [| destruct (Z.land key 7 =? 1);
    [| destruct (Z.land key 7 =? 2); [| destruct (Z.land key 7 =? 5); [| discriminate]]]].
  - apply bind_inv in Hv as (n & r5 & Ei & Hv). inv_run.
    apply integer_spec in Ei as [Hadv' Hn]; [| apply Hadv].
    split_and!; [by eapply (advanced_trans 1 1) | lia | lia | done].
  - apply bind_inv in Hv as (n & r5 & Ei & Hv). inv_run.
    apply skip_advanced in Ei; [| apply Hadv | lia].
    split_and!; [eapply (advanced_weaken (1 + 8)); [by eapply advanced_trans | lia] | lia | lia | done].
  - apply bind_inv in Hv as (n & r5 & Ei & Hv).
    apply integer_spec in Ei as [Hadv' [Hn _]]; [| apply Hadv].
    apply bind_inv in Hv as (p & r6 & Ep & Hv). unfold gets in Ep. injection Ep as <- <-.
    apply bind_inv in Hv as (u & r7 & Es & Hv). inv_run.
    pose proof Es as Hskip. apply skip_spec in Hskip as [Hr Hle]; [| apply Hadv' | done].
    apply skip_advanced in Es; [| apply Hadv' | done].
    pose proof (advanced_trans _ _ _ _ _ Hadv Hadv') as Hadv2.
    split_and!; cbn [start len]; try lia.
    + eapply (advanced_weaken (1 + 1 + n)); [by eapply advanced_trans | lia].
    + destruct Hadv2 as [_ _ Hp]. lia.
    + by rewrite Hr.
  - apply bind_inv in Hv as (n & r5 & Ei & Hv). inv_run.
    apply skip_advanced in Ei; [| apply Hadv | lia].
    split_and!; [eapply (advanced_weaken (1 + 4)); [by eapply advanced_trans | lia] | lia | lia | done].
Qed.

Lemma field_none r r' : field r = (Ok None, r') -> r' = r /\ position r = end_ r.
Proof.
  intros H. unfold field in H. inv_run. case_match eqn:E.
  2: { by repeat (apply bind_inv in H as (? & ? & _ & H)). }
  inv_run. apply Z.eqb_eq in E. done.
Qed.

(** The reader inside [rng]. *)
Definition inside (rng : range) : reader := Reader (start rng) (start rng) (start rng + len rng).

Definition in_file (rng : range) : Prop := 0 <= start rng /\ 0 <= len rng /\ start rng + len rng <= flen.

Lemma wf_inside rng : in_file rng -> wf (inside rng).
Proof. intros (H1 & H2 & H3). split; cbn; lia. Qed.

(** What every reading operation promises about the readers it leaves behind. *)
Definition sound_at {A} (r : reader) (m : M A) : Prop :=
  forall a r', m r = (Ok a, r') -> advanced 0 r r'.
Definition sound {A} (m : M A) : Prop := forall r, wf r -> sound_at r m.

(** [within] runs the inner reader on exactly the range and leaves the outer
    one where it was. *)
Lemma within_ok {A} rng (read : M A) r a r' :
  sound_at (inside rng) read -> wf r -> in_file rng -> within rng read r = (Ok a, r') ->
  r' = r /\ exists r2, read (inside rng) = (Ok a, r2) /\ advanced 0 (inside rng) r2.
Proof.
  intros Hread [Hsync Hlow Hend] Hrng H. pose proof Hrng as (H1 & H2 & H3). unfold within in H.
  apply bind_inv in H as (p & r1 & E1 & H). unfold gets in E1. injection E1 as <- <-.
  apply bind_inv in H as (e & r1 & E1 & H). unfold gets in E1. injection E1 as <- <-.
  apply bind_inv in H as ([] & r1 & E1 & H). rewrite seek_ok in E1 by lia. injection E1 as <-.
  apply bind_inv in H as (u & r1 & E1 & H). unfold set_end in E1. injection E1 as _ <-.
  cbn [cursor position] in H. fold (inside rng) in H.
  apply bind_inv in H as (x & r2 & E1 & H). unfold catch in E1.
  destruct (read (inside rng)) as [y r3] eqn:Er. injection E1 as -> ->.
  apply bind_inv in H as (u2 & r4 & E1 & H). unfold set_end in E1. injection E1 as _ <-.
  apply bind_inv in H as ([] & r5 & E1 & H). unfold lift in H. injection H as -> <-.
  pose proof (Hread _ _ Er) as Hadv.
  pose proof Hadv as [[Hs2 Hl2 He2] He Hp]. unfold inside in He, Hp. cbn [position end_ cursor] in *.
  rewrite seek_ok in E1 by (cbn [position end_ cursor]; lia). injection E1 as <-.
  split; [| by eexists]. cbn [end_]. destruct r; cbn in *. by subst.
Qed.
(** What [within] answers on a fresh reader is what the inner reader answers. *)
Lemma within_answer {A} rng (read : M A) a r2 :
  in_file rng -> read (inside rng) = (Ok a, r2) -> advanced 0 (inside rng) r2 ->
  fst (within rng read new) = Ok a.
Proof.
  intros (H1 & H2 & H3) Hr [[Hs Hl He] He' Hp]. cbn [position inside] in Hp.
  unfold within, mbind, M_bind, gets, set_end, catch. cbn [position end_ new].
  rewrite seek_ok by (cbn; lia). cbn [cursor position]. fold (inside rng). rewrite Hr.
  rewrite seek_ok by (cbn [cursor position]; lia). done.
Qed.

(** ** Sound operations compose *)

Lemma sound_ret {A} (a : A) : sound (mret a).
Proof. intros r Hwf b r' H. inv_run. by apply advanced_refl. Qed.

Lemma sound_fail {A} m : sound (fail (A := A) m).
Proof. by intros r Hwf b r' H. Qed.

Lemma sound_lift {A} (x : result A) : sound (lift x).
Proof. intros r Hwf b r' H. injection H as _ <-. by apply advanced_refl. Qed.

Lemma sound_bind {A B} (m : M A) (k : A -> M B) :
  sound m -> (forall a, sound (k a)) -> sound (m ≫= k).
Proof.
  intros Hm Hk r Hwf b r' H. apply bind_inv in H as (a & r1 & E & H).
  pose proof (Hm _ Hwf _ _ E) as Hadv.
  eapply (advanced_trans 0 0); [done |]. by eapply Hk; [apply Hadv |].
Qed.

Lemma sound_within {A} rng (read : M A) :
  in_file rng -> sound_at (inside rng) read -> sound (within rng read).
Proof.
  intros Hrng Hread r Hwf a r' H. apply within_ok in H as [-> _]; [| done | done | done].
  by apply advanced_refl.
Qed.

(** The bytes a range names. *)
Definition slice (rng : range) : list Z :=
  take (Z.to_nat (len rng)) (drop (Z.to_nat (start rng)) file).

Lemma take_bytes_inside rng b r' :
  in_file rng -> take_bytes (len rng) (inside rng) = (Ok b, r') ->
  b = slice rng /\ advanced 0 (inside rng) r'.
Proof.
  intros (H1 & H2 & H3) H. unfold take_bytes in H.
  apply bind_inv in H as (l & r1 & E & H). unfold read_exact in E.
  case_match; [| done]. injection E as <- <-. inv_run. split; [done |].
  split; [split | |]; cbn in *; lia.
Qed.

Lemma bytes_run n rng r b r' :
  wf r -> in_file rng -> bytes n rng r = (Ok b, r') -> r' = r /\ b = slice rng /\ len rng = n.
Proof.
  intros Hwf Hrng H. unfold bytes in H. apply bind_inv in H as (u & r1 & E & H).
  apply check_inv in E as [Hn ->]. apply Z.eqb_eq in Hn. subst n.
  apply within_ok in H as [-> (r2 & E & _)]; [| | done | done].
  - apply take_bytes_inside in E as [-> _]; done.
  - intros l r2 E. by apply take_bytes_inside in E as [_ ?].
Qed.

Lemma sound_bytes n rng : in_file rng -> sound (bytes n rng).
Proof.
  intros Hrng r Hwf b r' H. apply bytes_run in H as (-> & _); [| done | done]. by apply advanced_refl.
Qed.

Lemma string_run rng limit r t r' :
  wf r -> in_file rng -> string_ rng limit r = (Ok t, r') ->
  r' = r /\ from_utf8 (slice rng) = Ok t /\ len rng <= limit.
Proof.
  intros Hwf Hrng H. unfold string_ in H. apply bind_inv in H as (u & r1 & E & H).
  apply check_inv in E as [Hn ->].
  apply within_ok in H as [-> (r2 & E & _)]; [| | done | done].
  - apply bind_inv in E as (l & r3 & E & E'). apply take_bytes_inside in E as [-> _]; [| done].
    unfold lift in E'. injection E' as E' _. split_and!; [done | done | lia].
  - intros x r2 E. apply bind_inv in E as (l & r3 & E & E').
    apply take_bytes_inside in E as [_ Hadv]; [| done]. unfold lift in E'. by injection E' as _ <-.
Qed.

Lemma sound_string rng limit : in_file rng -> sound (string_ rng limit).
Proof.
  intros Hrng r Hwf b r' H. apply string_run in H as (-> & _); [| done | done]. by apply advanced_refl.
Qed.

(** ** The field loop *)

Definition value_ok (fv : Z * value) : Prop :=
  match snd fv with Bytes rng => in_file rng | _ => True end.

Lemma field_value_ok r fv r' :
  wf r -> field r = (Ok (Some fv), r') -> value_ok fv /\ advanced 2 r r'.
Proof.
  intros Hwf H. apply field_spec in H as (Hadv & _ & Hv); [| done]. split; [| done].
  unfold value_ok. destruct (snd fv) as [v | rng |]; [done | | done].
  destruct Hv as (H1 & H2 & H3), Hadv as [[_ Hl He] _ _], Hwf as [_ Hl' _].
  split_and!; lia.
Qed.

Section Loop.
Context {St : Type} (body : Z * value -> St -> M St).
Hypothesis body_sound : forall fv s, value_ok fv -> sound (body fv s).

Lemma while_fields_fuel fuel1 : forall fuel2 s r,
  wf r -> end_ r - position r < Z.of_nat fuel1 -> end_ r - position r < Z.of_nat fuel2 ->
  while_fields fuel1 body s r = while_fields fuel2 body s r.
Proof.
  induction fuel1 as [| f1 IH]; intros [| f2] s r Hwf H1 H2; try (destruct Hwf; lia).
  cbn [while_fields]. unfold mbind, M_bind.
  destruct (field r) as [[[fv |] | e] r1] eqn:Ef; [| done | done].
  apply field_value_ok in Ef as [Hok Hadv]; [| done].
  destruct (body fv s r1) as [[s' | e] r2] eqn:Eb; [| done].
  apply body_sound in Eb as Hadv'; [| done | apply Hadv].
  destruct Hadv as [Hw He Hp], Hadv' as [Hw' He' Hp']. apply IH; [done | lia | lia].
Qed.

(** The loop needs no fuel: it is its own unrolling. *)
Lemma each_field_unroll s r :
  wf r ->
  each_field body s r =
  (o ← field; match o with None => mret s | Some fv => s ← body fv s; each_field body s end) r.
Proof.
  intros Hwf. unfold each_field at 1. cbn [while_fields]. unfold mbind, M_bind.
  destruct (field r) as [[[fv |] | e] r1] eqn:Ef; [| done | done].
  apply field_value_ok in Ef as [Hok Hadv]; [| done].
  destruct (body fv s r1) as [[s' | e] r2] eqn:Eb; [| done].
  apply body_sound in Eb as Hadv'; [| done | apply Hadv].
  destruct Hadv as [Hw He Hp], Hadv' as [Hw' He' Hp']. destruct Hwf as [_ Hl _].
  apply while_fields_fuel; [done | lia | lia].
Qed.

Lemma each_field_ind (P : St -> Prop) s r s' r' :
  wf r -> P s ->
  (forall fv s r s' r', wf r -> value_ok fv -> P s -> body fv s r = (Ok s', r') -> P s') ->
  each_field body s r = (Ok s', r') -> P s' /\ advanced 0 r r' /\ position r' = end_ r'.
Proof.
  unfold each_field. intros Hwf HP Hstep. generalize (Datatypes.S (Z.to_nat (end_ r - position r))).
  intros fuel. revert s r Hwf HP. induction fuel as [| f IH]; intros s r Hwf HP H; [done |].
  cbn [while_fields] in H. apply bind_inv in H as (o & r1 & Ef & H). destruct o as [fv |].
  - apply bind_inv in H as (s1 & r2 & Eb & H).
    apply field_value_ok in Ef as [Hok Hadv]; [| done].
    pose proof (body_sound fv s Hok _ (adv_wf _ _ _ Hadv) _ _ Eb) as Hadv'.
    assert (P s1) as HP1 by (eapply Hstep; [apply (adv_wf _ _ _ Hadv) | exact Hok | exact HP | exact Eb]).
    apply IH in H as (HP' & Hadv2 & Hend); [| apply (adv_wf _ _ _ Hadv') | done].
    split_and!; [done | | done].
    eapply (advanced_weaken (2 + 0 + 0)); [| lia]. eapply advanced_trans; [| done].
    by eapply advanced_trans.
  - inv_run. apply field_none in Ef as [-> Hend]. split_and!; [done | by apply advanced_refl | done].
Qed.

Lemma sound_each_field s : sound (each_field body s).
Proof.
  intros r Hwf s' r' H. apply (each_field_ind (fun _ => True)) in H as (_ & Hadv & _); done.
Qed.
End Loop.
(** ** Varints *)

Lemma byte_bits_check :
  forallb (fun b => Bool.eqb (Z.land b 0x80 =? 0) (b <? 128) && (Z.land b 0x7f =? b mod 128))
    (seqZ 0 256) = true.
Proof. by vm_compute. Qed.

Lemma byte_bits b : is_u 8 b -> (Z.land b 0x80 =? 0) = (b <? 128) /\ Z.land b 0x7f = b mod 128.
Proof.
  intros [H1 H2]. change (2 ^ 8) with 256 in H2. pose proof byte_bits_check as H.
  rewrite forallb_forall in H. specialize (H b). rewrite <- list_elem_of_In, elem_of_seqZ in H.
  specialize (H ltac:(lia)). apply andb_true_iff in H as [Ha Hb].
  split; [by apply Bool.eqb_prop | lia].
Qed.

(** One turn of the loop on a byte that is there. *)
Lemma integer_loop_step n shift value r b rest :
  wf r -> position r < end_ r -> drop (Z.to_nat (position r)) file = b :: rest -> is_u 8 b ->
  integer_loop (S n) shift value r =
  if (shift <? 63) || (b <=? 1) then
    let value := Z.lor value (wrap 64 (Z.shiftl (b mod 128) shift)) in
    let r := Reader (position r + 1) (position r + 1) (end_ r) in
    if b <? 128 then (Ok value, r) else integer_loop n (shift + 7) value r
  else (Err (Msg "protobuf integer overflow"), Reader (position r + 1) (position r + 1) (end_ r)).
Proof.
  intros [Hs Hl He] Hlt Hd Hb. cbn [integer_loop]. unfold mbind, M_bind, gets, check, lift.
  rewrite (proj2 (Z.ltb_lt _ _) Hlt). cbn [ensure]. unfold read_exact.
  replace (cursor r + 1 <=? flen) with true by lia. rewrite Hs, Hd.
  change (take (Z.to_nat 1) (b :: rest)) with [b]. cbn [lookup list_lookup default].
  unfold set_position, id. cbn [cursor position end_ fst snd].
  destruct (byte_bits b Hb) as [-> ->].
  by destruct ((shift <? 63) || (b <=? 1)), (b <? 128).
Qed.

Lemma encode_varint_S n v :
  encode_varint (S n) v = if v <? 128 then [v] else 128 + v mod 128 :: encode_varint n (v / 128).
Proof. done. Qed.

Lemma integer_loop_encode n : forall shift value v r rest,
  wf r -> 0 <= shift -> shift + 7 * Z.of_nat (S n) = 70 -> is_u shift value -> is_u (64 - shift) v ->
  drop (Z.to_nat (position r)) file = encode_varint (S n) v ++ rest ->
  position r + Z.of_nat (length (encode_varint (S n) v)) <= end_ r ->
  let to := position r + Z.of_nat (length (encode_varint (S n) v)) in
  integer_loop (S n) shift value r = (Ok (value + v * 2 ^ shift), Reader to to (end_ r)).
Proof.
  induction n as [| n IH]; intros shift value v r rest Hwf Hs Hn Hval [Hv0 Hv1] Hd Hle to;
    subst to; pose proof Hval as [Hval0 Hval1]; rewrite encode_varint_S in Hd, Hle |- *.
  - replace shift with 63 in * by lia. change (2 ^ (64 - 63)) with 2 in Hv1.
    replace (v <? 128) with true in * by lia. cbn [app length] in Hd, Hle |- *.
    rewrite (integer_loop_step _ _ _ _ v rest) by (try done; unfold is_u; lia).
    replace (v <=? 1) with true by lia. rewrite orb_true_r.
    replace (v <? 128) with true by lia. rewrite Z.mod_small by lia.
    rewrite wrap_small, lor_shiftl; [done | done | done |].
    rewrite Z.shiftl_mul_pow2 by done. unfold is_u. lia.
  - destruct (Z.ltb_spec v 128) as [Hlt | Hge]; cbn [app length] in Hd, Hle |- *.
    + rewrite (integer_loop_step _ _ _ _ v rest) by (try done; unfold is_u; lia).
      replace (shift <? 63) with true by lia. cbn [orb]. replace (v <? 128) with true by lia.
      rewrite Z.mod_small by lia. rewrite wrap_small, lor_shiftl; [done | done | done |].
      rewrite Z.shiftl_mul_pow2 by done. split; [nia |].
      replace 64 with ((64 - shift) + shift) by lia. rewrite Z.pow_add_r by lia.
      assert (0 < 2 ^ shift) by (apply Z.pow_pos_nonneg; lia). nia.
    + pose proof (Z.mod_pos_bound v 128 ltac:(lia)). pose proof (Z.div_mod v 128 ltac:(lia)) as Hdm.
      set (b := 128 + v mod 128) in *.
      assert (2 ^ (64 - shift) = 2 ^ (64 - (shift + 7)) * 128) as Hpow.
      { change 128 with (2 ^ 7). rewrite <- Z.pow_add_r by lia. f_equal. lia. }
      assert (0 < 2 ^ shift) by (apply Z.pow_pos_nonneg; lia).
      rewrite (integer_loop_step _ _ _ _ b (encode_varint (S n) (v / 128) ++ rest))
        by (try done; unfold is_u; lia).
      replace (shift <? 63) with true by lia. cbn [orb]. replace (b <? 128) with false by lia.
      assert (b mod 128 = v mod 128) as Hb by (symmetry; apply (Z.mod_unique_pos b 128 1); lia).
      cbv zeta. rewrite Hb.
      assert (2 ^ (shift + 7) = 2 ^ shift * 128) as Hpow' by (rewrite Z.pow_add_r by lia; lia).
      assert (v mod 128 * 2 ^ shift < 2 ^ (shift + 7)) by nia.
      assert (2 ^ (shift + 7) <= 2 ^ 64) by (apply Z.pow_le_mono_r; lia).
      rewrite wrap_small, lor_shiftl;
        [| done | done | rewrite Z.shiftl_mul_pow2 by done; split; nia].
      assert (is_u (64 - (shift + 7)) (v / 128)) as Hv'.
      { split; [by apply Z.div_pos |]. apply Z.div_lt_upper_bound; [done |]. rewrite Hpow in Hv1. lia. }
      rewrite (IH _ _ (v / 128) _ rest); [| | lia | lia | split; nia | done | |].
      * cbn [position end_]. f_equal; [f_equal; nia |]. f_equal; lia.
      * destruct Hwf as [Hw1 Hw2 Hw3]. split; cbn in *; lia.
      * cbn [position]. replace (Z.to_nat (position r + 1)) with (Z.to_nat (position r) + 1)%nat
          by (destruct Hwf; lia). by rewrite <- drop_drop, Hd.
      * cbn [position end_]. lia.
Qed.

(** The reader decodes what protobuf's encoder writes: wherever the varint of
    a 64-bit [v] stands in the file, [integer] returns [v], whatever follows,
    and stops on the byte after it. *)
Theorem varint_roundtrip v r rest :
  wf r -> is_u 64 v ->
  drop (Z.to_nat (position r)) file = encode_varint 10 v ++ rest ->
  position r + Z.of_nat (length (encode_varint 10 v)) <= end_ r ->
  let to := position r + Z.of_nat (length (encode_varint 10 v)) in
  integer r = (Ok v, Reader to to (end_ r)).
Proof.
  intros Hwf Hv Hd Hle to. unfold integer, to.
  rewrite (integer_loop_encode 9 0 0 v r rest) by (try done; unfold is_u in *; lia).
  repeat f_equal. lia.
Qed.

(** A message field never reads outside its message.  On a well-formed reader,
    a field that is returned took at least two bytes and left the reader
    well-formed before the same end; its number is a legal protobuf number, an
    integer is a u64, and a byte range lies between the old and the new
    position, so inside the message and inside the file. *)
Theorem field_within_message r fv r' :
  wf r -> field r = (Ok (Some fv), r') ->
  wf r' /\ end_ r' = end_ r /\ position r + 2 <= position r' /\ 1 <= fst fv <= 0x1fffffff /\
  match snd fv with
  | Integer v => is_u 64 v
  | Bytes rng => 0 <= len rng /\ position r < start rng /\ start rng + len rng = position r' /\
                 position r' <= end_ r <= flen
  | Fixed => True
  end.
Proof.
  intros Hwf H. apply field_spec in H as ([Hw He Hp] & Hn & Hv); [| done].
  split_and!; [done | done | done | lia | lia |].
  destruct (snd fv); [done | | done]. destruct Hv as (H1 & H2 & H3), Hw as [_ Hl _], Hwf as [_ _ Hf].
  split_and!; lia.
Qed.

(** The field loops terminate.  A loop whose body is a sound reading step is
    its own unrolling from every well-formed reader: the bound of one turn per
    byte left is never what ends it, so only the end of the message, or an
    error of a field or of the body does. *)
Theorem field_loop_terminates {St : Type} (body : Z * value -> St -> M St) s r :
  (forall fv s, value_ok fv -> sound (body fv s)) -> wf r ->
  each_field body s r =
  (o ← field; match o with None => mret s | Some fv => s ← body fv s; each_field body s end) r.
Proof. intros Hbody. by apply each_field_unroll. Qed.
End Reader.

(** ** The errors of a reading step carry no marker *)

Definition reads_plain {A} (m : M A) : Prop := forall r, plain (m r).1.

Lemma reads_plain_ret {A} (x : A) : reads_plain (mret x).
Proof. intros r. apply plain_ok. Qed.

Lemma reads_plain_fail {A} m : reads_plain (fail (A := A) m).
Proof. intros r. apply plain_msg. Qed.

Lemma reads_plain_lift {A} (x : result A) : plain x -> reads_plain (lift x).
Proof. by intros Hx r. Qed.

Lemma reads_plain_check b m : reads_plain (check b m).
Proof. apply reads_plain_lift, plain_ensure. Qed.

Lemma reads_plain_gets {A} (f : reader -> A) : reads_plain (gets f).
Proof. intros r. apply plain_ok. Qed.

Lemma reads_plain_bind {A B} (m : M A) (k : A -> M B) :
  reads_plain m -> (forall x, reads_plain (k x)) -> reads_plain (m ≫= k).
Proof.
  intros Hm Hk r. unfold mbind, M_bind. specialize (Hm r). destruct (m r) as [[x | e] r']; [apply Hk |].
  apply plain_err, Hm, eq_refl.
Qed.

(** What follows the caught answer may use that it is plain. *)
Lemma reads_plain_catch {A B} (m : M A) (k : result A -> M B) :
  reads_plain m -> (forall x, plain x -> reads_plain (k x)) -> reads_plain (catch m ≫= k).
Proof. intros Hm Hk r. unfold mbind, M_bind, catch. specialize (Hm r). destruct (m r) as [x r']. by apply Hk. Qed.

Lemma reads_plain_set_position p : reads_plain (set_position p).
Proof. intros r. apply plain_ok. Qed.

Lemma reads_plain_set_both c p : reads_plain (set_both c p).
Proof. intros r. apply plain_ok. Qed.

Lemma reads_plain_set_end e : reads_plain (set_end e).
Proof. intros r. apply plain_ok. Qed.

Lemma reads_plain_exact f n : reads_plain (read_exact f n).
Proof. intros r. unfold read_exact. case_match; [apply plain_ok | apply plain_msg]. Qed.

#[export] Hint Resolve reads_plain_ret reads_plain_fail reads_plain_lift reads_plain_check reads_plain_gets
  reads_plain_set_position reads_plain_set_both reads_plain_set_end reads_plain_exact : plain.

Ltac reads_step :=
  match goal with
  | |- forall _, plain _ -> _ => intros ? ?
  | |- forall _, reads_plain _ => intros ?
  | |- reads_plain (let _ := _ in _) => cbv zeta
  | |- reads_plain (catch _ ≫= _) => apply reads_plain_catch
  | |- reads_plain (mbind _ _) => apply reads_plain_bind
  | |- reads_plain (match ?x with _ => _ end) => destruct x
  | |- reads_plain _ => solve [eauto with plain]
  end.

Lemma integer_loop_plain f n : forall shift value, reads_plain (integer_loop f n shift value).
Proof. induction n as [| n IH]; intros shift value; cbn [integer_loop]; repeat reads_step. Qed.

Lemma integer_plain f : reads_plain (integer f).
Proof. apply integer_loop_plain. Qed.

Lemma seek_plain p : reads_plain (seek p).
Proof. unfold seek. repeat reads_step. Qed.

#[export] Hint Resolve integer_plain seek_plain : plain.

Lemma skip_plain n : reads_plain (skip n).
Proof. unfold skip. repeat reads_step. Qed.

#[export] Hint Resolve skip_plain : plain.

Lemma field_plain f : reads_plain (field f).
Proof. unfold field. repeat reads_step. Qed.

Lemma within_plain {A} rng (m : M A) : reads_plain m -> reads_plain (within rng m).
Proof. intros Hm. unfold within. repeat reads_step; assumption. Qed.

#[export] Hint Resolve field_plain within_plain : plain.

Lemma bytes_plain f n rng : reads_plain (bytes f n rng).
Proof. unfold bytes, take_bytes. repeat reads_step. apply within_plain. repeat reads_step. Qed.

Lemma string_plain f rng limit : reads_plain (string_ f rng limit).
Proof.
  unfold string_, take_bytes. repeat reads_step. apply within_plain. repeat reads_step.
  unfold from_utf8. apply reads_plain_lift. case_match; eauto with plain.
Qed.

Lemma each_field_plain {S} f (body : Z * value -> S -> M S) s :
  (forall fv s, reads_plain (body fv s)) -> reads_plain (each_field f body s).
Proof.
  intros Hbody r. unfold each_field. generalize (Datatypes.S (Z.to_nat (end_ r - position r))) as fuel.
  enough (forall fuel, reads_plain (while_fields f fuel body s)) as Hall by (intros fuel; apply Hall).
  clear r. intros fuel. revert s. induction fuel as [| fuel IH]; intros s; cbn [while_fields]; repeat reads_step.
Qed.

#[export] Hint Resolve bytes_plain string_plain : plain.

(** ** Examples *)

Definition sample_file : list Z := 8 :: encode_varint 10 300 ++ [18; 2; 104; 105].

Lemma sample_file_bytes : Forall (is_u 8) sample_file.
Proof. apply (proj1 (bool_decide_eq_true _)). by vm_compute. Qed.

Lemma sample_file_size : flen sample_file <= i64_max.
Proof. by vm_compute. Qed.

Lemma varint_roundtrip_witness :
  integer sample_file (Reader 1 1 7) = (Ok 300, Reader 3 3 7).
Proof.
  apply (varint_roundtrip sample_file
    300 (Reader 1 1 7) [18; 2; 104; 105]).
  - split; [done | cbn; lia | by vm_compute].
  - unfold is_u. lia.
  - done.
  - by vm_compute.
Defined.

Lemma field_within_message_witness : wf sample_file (Reader 7 7 7).
Proof.
  apply (field_within_message sample_file sample_file_bytes sample_file_size
    (Reader 3 3 7) (2, Bytes (Range 5 2))).
  - split; [done | cbn; lia | by vm_compute].
  - by vm_compute.
Defined.

Lemma field_loop_terminates_witness :
  let count := fun (_ : Z * value) (n : nat) => mret (M := M) (S n) in
  each_field sample_file count 0%nat (Reader 0 0 7) = (Ok 2%nat, Reader 7 7 7).
Proof.
  intros count.
  rewrite (field_loop_terminates sample_file sample_file_bytes sample_file_size count).
  - by vm_compute.
  - intros fv s _. apply sound_ret.
  - split; [done | cbn; lia | by vm_compute].
Defined.
