(* ===== verification/GeoData.v ===== *)
(** * GeoSite and GeoIP data (crates/gofro-agent/src/geodata.rs)

    The index of a release file, the decoding of one tag, the selection of the
    tags a routing configuration uses within the memory profile's budgets, and
    the two membership tests.  Regular expressions and IPv4 networks are the
    [regex] and [ipnet] crates' ([rx_build], [rx_is_match] and [Ipnet]).
    Poisoned mutexes (a panic elsewhere) are not modelled. *)

From stdpp Require Import base gmap strings list sorting.
From Stdlib Require Import Ascii ZArith Lia.
From S2P Require Import Prelude RustStd Net Model Stats GeoWire.

(** ** Aggregation of a sorted list of networks *)

Section Aggregate.
Context {net : Type} `{IpnetLaws net}.

#[global] Instance net_le_dec (a b : net) : Decision (net_le a b = true).
Proof. apply _. Defined.

(** [networks.sort_unstable()]: equal networks are indistinguishable. *)
Definition sort_networks (networks : list net) : list net :=
  merge_sort (fun a b => net_le a b = true) networks.

(** The inner loop: join [network] with the end of [written] (last one first)
    while the two are the halves of one supernet. *)
Fixpoint merge_up (written : list net) (network : net) : list net * net :=
  match written with
  | [] => ([], network)
  | previous :: rest =>
      match supernet network with
      | None => (written, network)
      | Some parent =>
          if negb (prefix_len previous =? prefix_len network) || negb (contains_net parent previous)
          then (written, network)
          else merge_up rest parent
      end
  end.

(** One turn of the outer loop; [written] is kept last one first. *)
Definition push_network (written : list net) (network : net) : list net :=
  match written with
  | previous :: _ =>
      if contains_net previous network then written
      else let '(written, network) := merge_up written network in network :: written
  | [] => [network]
  end.

Definition aggregate_ipv4 (networks : list net) : list net :=
  rev (fold_left push_network (sort_networks networks) []).

(** [partition_point(p)]: the length of the longest prefix on which [p] holds
    (the standard library's binary search, on a list that [p] partitions). *)
Fixpoint partition_point (p : net -> bool) (l : list net) : nat :=
  match l with
  | a :: l' => if p a then S (partition_point p l') else O
  | [] => O
  end.

Definition matches_networks (networks : list net) (ip : Z) : bool :=
  let index := partition_point (fun n => network n <=? ip) networks in
  (0 <? index)%nat &&
  match networks !! Nat.pred index with Some n => contains_ip n ip | None => false end.

(** The number of maximal intervals of sorted disjoint networks, as [select] counts them. *)
Fixpoint gaps_after (end_ : Z) (l : list net) : Z :=
  match l with
  | b :: l' => (if saturating_add_max u32_max end_ 1 <? network b then 1 else 0) + gaps_after (broadcast b) l'
  | [] => 0
  end.

Definition intervals (l : list net) : Z :=
  match l with [] => 0 | a :: l' => 1 + gaps_after (broadcast a) l' end.

(** The addresses a list of networks covers. *)
Definition union (l : list net) (ip : Z) : Prop := exists n, n ∈ l /\ covers n ip.

Definition below (a b : net) : Prop := broadcast a < network b.

(** Sorted, disjoint networks of truncated addresses. *)
Definition disjoint_sorted (l : list net) : Prop := StronglySorted below l /\ Forall truncated l.

(** The same for the list under construction, last one first. *)
Definition written_ok (w : list net) : Prop :=
  StronglySorted (fun a b => below b a) w /\ Forall truncated w.

Lemma union_cons n l ip : union (n :: l) ip <-> covers n ip \/ union l ip.
Proof. unfold union. set_solver. Qed.

Lemma union_nil ip : ~ union [] ip.
Proof. unfold union. set_solver. Qed.

Lemma union_same (l k : list net) ip : (forall n, n ∈ l <-> n ∈ k) -> union l ip <-> union k ip.
Proof. unfold union. set_solver. Qed.

Lemma union_decide l ip : existsb (fun n => contains_ip n ip) l = true <-> union l ip.
Proof.
  rewrite existsb_exists. unfold union. setoid_rewrite <- list_elem_of_In.
  by setoid_rewrite covers_contains.
Qed.

(** The two halves of a supernet are the supernet. *)
Lemma halves_join previous n parent :
  supernet n = Some parent -> prefix_len previous = prefix_len n ->
  contains_net parent previous = true -> below previous n ->
  network parent = network previous /\ broadcast parent = broadcast n /\
  network n = broadcast previous + 1.
Proof.
  intros Hs Hp Hc Hb. apply contains_net_spec in Hc as [Hc1 Hc2].
  pose proof (network_le_broadcast previous) as Hle. unfold below in Hb.
  pose proof (broadcast_end previous) as He. rewrite Hp in He.
  apply supernet_halves in Hs as [[H1 H2] | [H1 H2]]; lia.
Qed.

Lemma merge_up_spec w : forall n w' m,
  written_ok w -> truncated n -> (forall b, b ∈ w -> below b n) -> merge_up w n = (w', m) ->
  written_ok w' /\ truncated m /\ (forall b, b ∈ w' -> below b m) /\
  (forall ip, (covers m ip \/ union w' ip) <-> (covers n ip \/ union w ip)) /\
  network m <= network n /\ broadcast n <= broadcast m.
Proof.
  induction w as [| previous rest IH]; intros n w' m Hw Hn Hb Hup; cbn [merge_up] in Hup.
  { injection Hup as <- <-. split_and!; done. }
  destruct (supernet n) as [parent |] eqn:Hs; [| injection Hup as <- <-; by split_and!].
  case_match eqn:E; [injection Hup as <- <-; by split_and! |].
  apply orb_false_iff in E as [E1 E2]. apply negb_false_iff in E1, E2. apply Z.eqb_eq in E1.
  destruct (halves_join previous n parent Hs E1 E2) as (Hj1 & Hj2 & Hj3); [apply Hb; set_solver |].
  destruct Hw as [Hsort Htr]. inversion Hsort as [| ? ? Hsort' Hall]; subst.
  inversion Htr as [| ? ? Hp Htr']; subst.
  apply IH in Hup as (Hok & Hm & Hbm & Hun & Hnm & Hbr);
    [| by split | by apply supernet_spec in Hs as (_ & _ & ? & _) |].
  - pose proof (network_le_broadcast n). pose proof (network_le_broadcast previous).
    split_and!; [done | done | done | | lia | lia].
    intros ip. rewrite Hun, union_cons. unfold covers. rewrite Hj1, Hj2.
    split; [intros [? | ?]; [| tauto] | intros [? | [? | ?]]; [| | tauto]];
      destruct (Z.le_gt_cases ip (broadcast previous)); (left + (right; left)); lia.
  - intros b Hb'. apply (proj1 (Forall_forall _ _) Hall) in Hb'. unfold below in *. lia.
Qed.

(** After [y], the next networks in order lie inside the last written network or past it. *)
Lemma next_network h y n :
  truncated h -> truncated y -> truncated n -> network h <= network y -> broadcast y <= broadcast h ->
  net_le y n = true -> contains_net h n = false -> below h n.
Proof.
  intros Hh Hy Hn Hhy Hyh Hle Hc. apply net_le_spec in Hle. unfold truncated in *.
  rewrite Hy, Hn in Hle. unfold below. destruct (Z.lt_ge_cases (broadcast h) (network n)); [done |].
  exfalso. apply not_true_iff_false in Hc. apply Hc, contains_net_spec. split; [lia |].
  destruct (Z.le_gt_cases (prefix_len h) (prefix_len n)) as [Hp | Hp].
  { apply blocks_nested; lia. }
  assert (network n = network h) as Hnh by (apply larger_start; lia).
  assert (prefix_len y < prefix_len h) as Hyp by lia.
  pose proof (block_lt (prefix_len y) (prefix_len h)) as Hblk.
  pose proof (prefix_range y). pose proof (prefix_range h).
  rewrite !broadcast_end in Hyh. lia.
Qed.

Lemma push_network_spec w y n :
  written_ok w -> truncated y -> truncated n -> net_le y n = true ->
  (exists h t, w = h :: t /\ network h <= network y /\ broadcast y <= broadcast h) ->
  written_ok (push_network w n) /\
  (forall ip, union (push_network w n) ip <-> covers n ip \/ union w ip) /\
  exists h t, push_network w n = h :: t /\ network h <= network n /\ broadcast n <= broadcast h.
Proof.
  intros Hw Hy Hn Hle (h & t & -> & Hh1 & Hh2). cbn [push_network].
  destruct (contains_net h n) eqn:Hc.
  - apply contains_net_spec in Hc as [Hc1 Hc2]. split_and!; [done | | by exists h, t].
    intros ip. rewrite union_cons. unfold covers. split; [tauto |]. intros [? | ?]; [left; lia | done].
  - destruct (merge_up (h :: t) n) as [w' m] eqn:Hup.
    assert (forall b, b ∈ h :: t -> below b n) as Hb.
    { intros b Hb. destruct Hw as [Hsort Htr]. inversion Hsort as [| ? ? Hsort' Hall]; subst.
      inversion Htr as [| ? ? Hh Htr']; subst.
      assert (below h n) as Hhn by by eapply (next_network h y n).
      apply elem_of_cons in Hb as [-> | Hb]; [done |].
      apply (proj1 (Forall_forall _ _) Hall) in Hb. unfold below in *.
      pose proof (network_le_broadcast h). lia. }
    apply merge_up_spec in Hup as (Hok & Hm & Hbm & Hun & Hnm & Hbr); [| done | done | done].
    destruct Hok as [Hs Ht]. split_and!; [split | | by exists m, w'].
    + constructor; [done |]. by apply Forall_forall.
    + by constructor.
    + intros ip. rewrite union_cons. apply Hun.
Qed.

Lemma fold_push l : forall w y,
  written_ok w -> truncated y -> Forall truncated l -> Sorted (fun a b => net_le a b = true) (y :: l) ->
  (exists h t, w = h :: t /\ network h <= network y /\ broadcast y <= broadcast h) ->
  written_ok (fold_left push_network l w) /\
  (forall ip, union (fold_left push_network l w) ip <-> union l ip \/ union w ip).
Proof.
  induction l as [| n l IH]; intros w y Hw Hy Hl Hsort Hh; cbn [fold_left].
  - split; [done |]. intros ip. pose proof (union_nil ip). tauto.
  - inversion Hl as [| ? ? Hn Hl']; subst. inversion Hsort as [| ? ? Hsort' Hhd]; subst.
    inversion Hhd as [| ? ? Hle]; subst.
    destruct (push_network_spec w y n Hw Hy Hn Hle Hh) as (Hw' & Hun & Hh').
    destruct (IH _ _ Hw' Hn Hl' Hsort' Hh') as [Hok Hun']. split; [done |].
    intros ip. rewrite Hun', Hun, union_cons. tauto.
Qed.

#[global] Instance net_le_total : Total (fun a b : net => net_le a b = true).
Proof. intros a b. rewrite !net_le_spec. lia. Qed.

Lemma sort_networks_spec l :
  Sorted (fun a b => net_le a b = true) (sort_networks l) /\ sort_networks l ≡ₚ l.
Proof.
  split; [apply (Sorted_merge_sort (fun a b => net_le a b = true)) |].
  apply merge_sort_Permutation.
Qed.

Lemma written_ok_rev w : written_ok w -> disjoint_sorted (rev w).
Proof.
  intros [Hs Ht]. split; [| by apply Forall_rev]. clear Ht.
  induction Hs as [| a w Hs IH Hall]; cbn; [constructor |].
  apply StronglySorted_app_2; [| done | by repeat constructor].
  intros x y Hx Hy. apply list_elem_of_singleton in Hy as ->.
  apply list_elem_of_In, in_rev, list_elem_of_In in Hx. by apply (proj1 (Forall_forall _ _) Hall).
Qed.

Lemma aggregate_spec l :
  Forall truncated l ->
  disjoint_sorted (aggregate_ipv4 l) /\ forall ip, union (aggregate_ipv4 l) ip <-> union l ip.
Proof.
  intros Hl. unfold aggregate_ipv4. destruct (sort_networks_spec l) as [Hsort Hperm].
  assert (forall ip, union (sort_networks l) ip <-> union l ip) as Hsame
    by (intros ip; apply union_same; intros n; by rewrite Hperm).
  assert (Forall truncated (sort_networks l)) as Ht by by rewrite Hperm.
  destruct (sort_networks l) as [| n s]; cbn [fold_left].
  { split; [by split; constructor |]. done. }
  inversion Ht as [| ? ? Hn Ht']; subst. cbn [push_network].
  destruct (fold_push s [n] n) as [Hok Hun]; [split; by repeat constructor | done | done | done | |].
  { exists n, []. split; [done | lia]. }
  split; [by apply written_ok_rev |]. intros ip. rewrite <- Hsame.
  rewrite (union_same _ (fold_left push_network s [n])).
  - rewrite Hun, !union_cons. pose proof (union_nil ip). tauto.
  - intros m. rewrite !list_elem_of_In. symmetry. apply in_rev.
Qed.

Lemma partition_point_spec (p : net -> bool) l :
  (partition_point p l <= length l)%nat /\
  (forall i n, (i < partition_point p l)%nat -> l !! i = Some n -> p n = true) /\
  (forall n, l !! partition_point p l = Some n -> p n = false).
Proof.
  induction l as [| a l (IH1 & IH2 & IH3)]; cbn; [split_and!; [lia | lia | done] |].
  destruct (p a) eqn:E; cbn.
  - split_and!; [lia | | done]. intros [| i] n Hi Hn; cbn in Hn; [congruence | eapply IH2; [| done]; lia].
  - split_and!; [lia | lia | by intros n [= <-]].
Qed.

Lemma sorted_lookup l i j a b :
  StronglySorted below l -> (i < j)%nat -> l !! i = Some a -> l !! j = Some b -> below a b.
Proof.
  intros Hs. revert i j. induction Hs as [| x l Hs IH Hall]; intros i j Hij Hi Hj; [done |].
  destruct j as [| j]; [lia |]. destruct i as [| i]; cbn in Hi, Hj.
  - injection Hi as ->. apply (proj1 (Forall_forall _ _) Hall). by eapply list_elem_of_lookup_2.
  - apply (IH i j); [lia | done | done].
Qed.

(** The binary search finds exactly the covered addresses. *)
Lemma matches_networks_spec l ip :
  disjoint_sorted l -> matches_networks l ip = true <-> union l ip.
Proof.
  intros [Hs _]. unfold matches_networks. set (p := fun n : net => network n <=? ip).
  destruct (partition_point_spec p l) as (H1 & H2 & H3). split.
  - intros [Hi Hm]%andb_true_iff. destruct (l !! Nat.pred (partition_point p l)) as [n |] eqn:E; [| done].
    exists n. split; [by eapply list_elem_of_lookup_2 | by apply covers_contains].
  - intros (n & Hn & Hc). apply list_elem_of_lookup in Hn as [j Hj].
    assert (p n = true) as Hpn by (unfold p, covers in *; lia).
    assert (j < partition_point p l)%nat as Hlt.
    { destruct (Nat.lt_ge_cases j (partition_point p l)) as [| Hge]; [done | exfalso].
      destruct (lookup_lt_is_Some_2 l (partition_point p l)) as [m Hm].
      { apply lookup_lt_Some in Hj. lia. }
      pose proof (H3 m Hm) as Hpm. destruct (decide (j = partition_point p l)) as [-> | Hne]; [congruence |].
      assert (below m n) as Hb by (eapply (sorted_lookup l (partition_point p l) j); eauto; lia).
      unfold p, below, covers in *. pose proof (network_le_broadcast m). lia. }
    apply andb_true_iff. split; [apply Nat.ltb_lt; lia |].
    destruct (lookup_lt_is_Some_2 l (Nat.pred (partition_point p l))) as [m Hm]; [lia |].
    rewrite Hm. apply covers_contains.
    destruct (decide (j = Nat.pred (partition_point p l))) as [-> | Hne]; [congruence |].
    assert (below n m) as Hb by (eapply (sorted_lookup l j (Nat.pred (partition_point p l))); eauto; lia).
    pose proof (H2 (Nat.pred (partition_point p l)) m ltac:(lia) Hm) as Hpm.
    unfold p, below, covers in *. lia.
Qed.
End Aggregate.

(** ** Sites *)

Section Geo.
Context {net : Type} `{IpnetLaws net}.

(** The [regex] crate: building a program within size limits, and matching. *)
Context {rx : Type} (rx_build : Z -> Z -> string -> option rx) (rx_is_match : rx -> string -> bool).

Record site := Site {
  full : gset string;
  roots : gset string;
  keywords : list string;
  regexes : list rx;
}.

Definition empty_site : site := Site ∅ ∅ [] [].

(** What follows each dot of the domain. *)
Fixpoint after_dots (l : list ascii) : list (list ascii) :=
  match l with
  | [] => []
  | a :: l' => if eqb_ascii a "."%char then l' :: after_dots l' else after_dots l'
  end.

(** [domain.contains(keyword)] *)
Fixpoint contains_bytes (k l : list ascii) : bool :=
  bool_decide (is_Some (is_prefix_bytes k l)) || match l with [] => false | _ :: l' => contains_bytes k l' end.

Definition site_matches (s : site) (domain : string) : bool :=
  bool_decide (domain ∈ full s)
  || bool_decide (domain ∈ roots s)
  || existsb (fun rest => bool_decide (str rest ∈ roots s)) (after_dots (chars domain))
  || existsb (fun k => contains_bytes (chars k) (chars domain)) (keywords s)
  || existsb (fun r => rx_is_match r domain) (regexes s).

(** ** Indexed files *)

Record indexed_file (T : Type) := IndexedFile {
  file : list Z;
  entries : gmap string range;
  cache : gmap string T;
}.
#[global] Arguments IndexedFile {T}.
#[global] Arguments file {T}.
#[global] Arguments entries {T}.
#[global] Arguments cache {T}.

Definition entry_header (f : list Z) (geoip : bool) (fv : Z * value) (s : string * bool)
  : M (string * bool) :=
  let '(tag, inverse) := s in
  match snd fv with
  | Bytes r =>
      if fst fv =? 1 then t ← string_ f r 64; mret (to_ascii_lowercase t, inverse)
      else if (fst fv =? 3) && geoip then fail "invalid GeoIP inverse match"
      else mret s
  | Integer v =>
      if (fst fv =? 3) && geoip then mret (tag, negb (v =? 0))
      else if fst fv =? 1 then fail "invalid geodata tag" else mret s
  | Fixed =>
      if (fst fv =? 3) && geoip then fail "invalid GeoIP inverse match"
      else if fst fv =? 1 then fail "invalid geodata tag" else mret s
  end.

Definition index_entry (f : list Z) (geoip : bool) (fv : Z * value) (es : gmap string range)
  : M (gmap string range) :=
  if negb (fst fv =? 1) then mret es
  else match snd fv with
       | Bytes rng =>
           '(tag, inverse) ← within rng (each_field f (entry_header f geoip) ("", false));
           mret (if inverse : bool then es else <[tag := rng]> es)
       | _ => fail "invalid geodata entry"
       end.

(** [IndexedFile::open] on the bytes of the file. *)
Definition open {T} (f : list Z) (geoip : bool) : result (indexed_file T) :=
  es ← fst (each_field f (index_entry f geoip) ∅ (new f));
  Ok (IndexedFile f es ∅).

(** Decoding the entry of a tag, cache aside. *)
Definition decode_tag {T} (decode : list Z -> M T) (f : indexed_file T) (tag : string) : result (option T) :=
  match entries f !! tag with
  | None => Ok None
  | Some rng => v ← fst (within rng (decode (file f)) (new (file f))); Ok (Some v)
  end.

(** [get]: [upgrade] tells whether a cached value is still in use somewhere. *)
Definition get {T} (upgrade : bool) (decode : list Z -> M T) (f : indexed_file T) (tag : string)
  : result (option T) * indexed_file T :=
  match cache f !! tag, upgrade with
  | Some v, true => (Ok (Some v), f)
  | _, _ =>
      match entries f !! tag with
      | None => (Ok None, f)
      | Some rng =>
          match fst (within rng (decode (file f)) (new (file f))) with
          | Err e => (Err e, f)
          | Ok v => (Ok (Some v), IndexedFile (file f) (entries f) (<[tag := v]> (cache f)))
          end
      end
  end.

(** ** Decoding a site *)

Definition site_domain (f : list Z) (fv : Z * value) (s : Z * string) : M (Z * string) :=
  let '(kind, domain) := s in
  match snd fv with
  | Integer v => if fst fv =? 1 then mret (v, domain)
                 else if fst fv =? 2 then fail "invalid GeoSite domain field" else mret s
  | Bytes r => if fst fv =? 2 then d ← string_ f r (128 * 1024); mret (kind, d)
               else if fst fv =? 1 then fail "invalid GeoSite domain field" else mret s
  | Fixed => if (fst fv =? 1) || (fst fv =? 2) then fail "invalid GeoSite domain field" else mret s
  end.

Definition add_domain (limits : resource_limits) (kind : Z) (value : string) (s : site) : result site :=
  if kind =? 0 then Ok (Site (full s) (roots s) (keywords s ++ [to_ascii_lowercase value]) (regexes s))
  else if kind =? 1 then
    _ ← ensure (Z.of_nat (length (regexes s)) <? regex_count limits)
          "слишком много GeoSite regex для compact-профиля";
    r ← ok_or (rx_build (regex_size_bytes limits) (regex_cache_bytes limits) value)
          ("invalid GeoSite regex " +:+ value);
    Ok (Site (full s) (roots s) (keywords s) (regexes s ++ [r]))
  else if kind =? 2 then Ok (Site (full s) ({[to_ascii_lowercase value]} ∪ roots s) (keywords s) (regexes s))
  else if kind =? 3 then Ok (Site ({[to_ascii_lowercase value]} ∪ full s) (roots s) (keywords s) (regexes s))
  else Err (Msg ("unsupported GeoSite domain type " +:+ show kind)).

Definition site_field (limits : resource_limits) (f : list Z) (fv : Z * value) (s : site) : M site :=
  if negb (fst fv =? 2) then mret s
  else match snd fv with
       | Bytes rng =>
           '(kind, value) ← within rng (each_field f (site_domain f) (0, ""%string));
           lift (add_domain limits kind value s)
       | _ => fail "invalid GeoSite domain"
       end.

Definition decode_site (limits : resource_limits) (f : list Z) : M site :=
  each_field f (site_field limits f) empty_site.

(** ** Decoding a country *)

Definition cidr_field (f : list Z) (fv : Z * value) (s : option Z * Z) : M (option Z * Z) :=
  let '(address, prefix) := s in
  match snd fv with
  | Bytes r =>
      if fst fv =? 1 then
        if len r =? 4 then
          b ← bytes f 4 r;
          match b with
          | [b0; b1; b2; b3] => mret (Some (ipv4 b0 b1 b2 b3), prefix)
          | _ => fail "invalid protobuf byte length"
          end
        else mret (None, prefix)
      else if fst fv =? 2 then fail "invalid GeoIP CIDR field" else mret s
  | Integer v => if fst fv =? 2 then mret (address, v)
                 else if fst fv =? 1 then fail "invalid GeoIP CIDR field" else mret s
  | Fixed => if (fst fv =? 1) || (fst fv =? 2) then fail "invalid GeoIP CIDR field" else mret s
  end.

(** The network of one CIDR message; IPv6 addresses and prefixes above 32 give none. *)
Definition cidr_network (s : option Z * Z) : M (option net) :=
  match fst s with
  | Some address =>
      if snd s <=? 32 then
        n ← lift (ok_or (net_new address (snd s)) "prefix was checked");
        mret (Some (trunc n))
      else mret None
  | None => mret None
  end.

Definition ip_field (f : list Z) (fv : Z * value) (networks : list net) : M (list net) :=
  if negb (fst fv =? 2) then mret networks
  else match snd fv with
       | Bytes rng =>
           network ← within rng (s ← each_field f (cidr_field f) (None, 0); cidr_network s);
           mret (match network with Some n => networks ++ [n] | None => networks end)
       | _ => fail "invalid GeoIP CIDR"
       end.

(** The networks as the file lists them. *)
Definition listed_networks (f : list Z) : M (list net) := each_field f (ip_field f) [].

Definition decode_ip (f : list Z) : M (list net) :=
  networks ← listed_networks f;
  mret (aggregate_ipv4 networks).

(** ** Selection *)

Record catalog := Catalog {
  cat_sites : indexed_file site;
  cat_ips : indexed_file (list net);
  cat_limits : resource_limits;
}.

Record geodata := GeoData {
  source : option catalog;
  sites : gmap string site;
  ips : gmap string (list net);
}.

Definition load_with_limits (geosite geoip : list Z) (limits : resource_limits) : result geodata :=
  s ← open geosite false;
  i ← open geoip true;
  Ok (GeoData (Some (Catalog s i limits)) ∅ ∅).

Record site_budget := SiteBudget {
  sb_sites : gmap string site;
  sb_bytes : Z;
  sb_regexes : Z;
}.

(** One rule of the first loop of [select]. *)
Definition select_site (limits : resource_limits) (upgrade : bool) (rule : domain_rule)
  (st : site_budget * indexed_file site) : result (site_budget * indexed_file site) :=
  let '(b, f) := st in
  match d_enabled rule, d_matcher rule with
  | true, GeoSite value =>
      if bool_decide (is_Some (sb_sites b !! value)) then Ok (b, f)
      else
        rng ← ok_or (entries f !! value) ("GeoSite-тег " +:+ value +:+ " отсутствует в geosite.dat");
        let site_bytes := saturating_add_max u64_max (sb_bytes b) (len rng) in
        _ ← ensure (site_bytes <=? geosite_bytes limits) "GeoSite-правила превышают бюджет compact-профиля";
        let '(answer, f) := get upgrade (decode_site limits) f value in
        found ← answer;
        s ← ok_or found ("GeoSite-тег " +:+ value +:+ " отсутствует в geosite.dat");
        let count := saturating_add_max u64_max (sb_regexes b) (Z.of_nat (length (regexes s))) in
        _ ← ensure (count <=? regex_count limits) "слишком много GeoSite regex для compact-профиля";
        Ok (SiteBudget (<[value := s]> (sb_sites b)) site_bytes count, f)
  | _, _ => Ok (b, f)
  end.

Record ip_budget := IpBudget { ib_ips : gmap string (list net); ib_intervals : Z }.

Definition networks_of (m : gmap string (list net)) (tag : string) : list net := default [] (m !! tag).

(** One rule of the second loop. *)
Definition select_ip (limits : resource_limits) (upgrade : bool) (rule : ip_rule)
  (st : ip_budget * indexed_file (list net)) : result (ip_budget * indexed_file (list net)) :=
  let '(b, f) := st in
  match i_enabled rule, i_matcher rule with
  | true, GeoIp value =>
      '(m, f) ← (if bool_decide (is_Some (ib_ips b !! value)) then Ok (ib_ips b, f)
                 else let '(answer, f) := get upgrade decode_ip f value in
                      found ← answer;
                      n ← ok_or found ("GeoIP-тег " +:+ value +:+ " отсутствует в geoip.dat");
                      Ok (<[value := n]> (ib_ips b), f));
      let total := saturating_add_max u64_max (ib_intervals b) (intervals (networks_of m value)) in
      _ ← ensure (total <=? geoip_intervals limits) "GeoIP-правила превышают бюджет compact-профиля";
      Ok (IpBudget m total, f)
  | _, _ => Ok (b, f)
  end.

(** A loop with the answers of [Weak::upgrade] it meets, turn by turn. *)
Fixpoint select_loop {R St : Type} (turn : bool -> R -> St -> result St) (upgrades : nat -> bool)
  (rules : list R) (st : St) : result St :=
  match rules with
  | [] => Ok st
  | r :: rules => st ← turn (upgrades O) r st; select_loop turn (fun i => upgrades (S i)) rules st
  end.

(** [select]: the new selection, over the catalog with its caches. *)
Definition select (up_sites up_ips : nat -> bool) (g : geodata) (config : routing_config) : result geodata :=
  match source g with
  | None => Ok g
  | Some c =>
      match mode config with
      | All => Ok (GeoData (Some c) ∅ ∅)
      | Rules =>
          '(sb, sf) ← select_loop (select_site (cat_limits c)) up_sites (domain_rules config)
                        (SiteBudget ∅ 0 0, cat_sites c);
          '(ib, nf) ← select_loop (select_ip (cat_limits c)) up_ips (ip_rules config)
                        (IpBudget ∅ 0, cat_ips c);
          Ok (GeoData (Some (Catalog sf nf (cat_limits c))) (sb_sites sb) (ib_ips ib))
      end
  end.

Definition has_site (g : geodata) (tag : string) : bool :=
  bool_decide (is_Some (sites g !! tag))
  || match source g with Some c => bool_decide (is_Some (entries (cat_sites c) !! tag)) | None => false end.

Definition has_ip (g : geodata) (tag : string) : bool :=
  bool_decide (is_Some (ips g !! tag))
  || match source g with Some c => bool_decide (is_Some (entries (cat_ips c) !! tag)) | None => false end.

Definition matches_site (g : geodata) (tag domain : string) : bool :=
  match sites g !! tag with Some s => site_matches s domain | None => false end.

Definition ip_networks (g : geodata) (tag : string) : list net := networks_of (ips g) tag.
Definition matches_ip (g : geodata) (tag : string) (ip : Z) : bool := matches_networks (ip_networks g tag) ip.

(** ** Every decoding step is a sound reading step *)

Lemma sound_entry_header f geoip fv s :
  Forall (is_u 8) f -> flen f <= i64_max -> value_ok f fv -> sound f (entry_header f geoip fv s).
Proof.
  intros Hf Hl Hv. destruct s as [tag inverse]. unfold entry_header, value_ok in *.
  destruct (snd fv); repeat case_match; try apply sound_fail; try by apply sound_ret.
  apply sound_bind; [by apply sound_string | intros; by apply sound_ret].
Qed.

Lemma sound_index_entry f geoip fv es :
  Forall (is_u 8) f -> flen f <= i64_max -> value_ok f fv -> sound f (index_entry f geoip fv es).
Proof.
  intros Hf Hl Hv. unfold index_entry, value_ok in *.
  destruct (negb (fst fv =? 1)); [by apply sound_ret |].
  destruct (snd fv); try by apply sound_fail.
  apply sound_bind; [| intros []; by apply sound_ret].
  apply sound_within; [done | done |]. apply sound_each_field; [done | done | | by apply wf_inside].
  intros. by apply sound_entry_header.
Qed.

(** The index only names ranges of the file. *)
Lemma open_in_file {T} f geoip (i : indexed_file T) :
  Forall (is_u 8) f -> flen f <= i64_max -> open f geoip = Ok i ->
  file i = f /\ cache i = ∅ /\ forall tag rng, entries i !! tag = Some rng -> in_file f rng.
Proof.
  intros Hf Hl Hopen. unfold open in Hopen. inv_result. cbn [file cache entries].
  destruct (each_field f (index_entry f geoip) ∅ (new f)) as [x r'] eqn:E'. cbn in E. subst x.
  split; [done |]. split; [done |].
  apply (each_field_ind f Hf Hl _ (fun fv s Hok => sound_index_entry f geoip fv s Hf Hl Hok)
    (fun es => forall tag rng, es !! tag = Some rng -> in_file f rng)) in E' as [HP _].
  - done.
  - apply wf_new.
  - intros tag rng. by rewrite lookup_empty.
  - intros fv s r1 s' r2 Hwf Hok HP Hrun. unfold index_entry, value_ok in *.
    destruct (negb (fst fv =? 1)); [injection Hrun as <- _; done |].
    destruct (snd fv) as [| rng |]; [done | | done].
    apply bind_inv in Hrun as ([tag inverse] & r3 & _ & Hrun).
    injection Hrun as <- _. destruct inverse; [done |].
    intros tag' rng' [[<- <-] | [_ Hlk]]%lookup_insert_Some; [done | by eapply HP].
Qed.

Lemma sound_cidr_field f fv s :
  Forall (is_u 8) f -> flen f <= i64_max -> value_ok f fv -> sound f (cidr_field f fv s).
Proof.
  intros Hf Hl Hv. destruct s as [a p]. unfold cidr_field, value_ok in *.
  destruct (snd fv) as [v | rng |]; [| | by destruct ((fst fv =? 1) || (fst fv =? 2)); [apply sound_fail | apply sound_ret]].
  - destruct (fst fv =? 2), (fst fv =? 1); try apply sound_fail; apply sound_ret.
  - destruct (fst fv =? 1); [| destruct (fst fv =? 2); [apply sound_fail | apply sound_ret]].
    destruct (len rng =? 4); [| apply sound_ret].
    apply sound_bind; [by apply sound_bytes |].
    intros [| b0 [| b1 [| b2 [| b3 [| b4 b]]]]]; try apply sound_fail; apply sound_ret.
Qed.

Lemma sound_cidr_network f s : sound f (cidr_network s).
Proof.
  unfold cidr_network. destruct (fst s); [| apply sound_ret].
  destruct (snd s <=? 32); [| apply sound_ret].
  apply sound_bind; [apply sound_lift | intros; apply sound_ret].
Qed.

Lemma sound_ip_field f fv (networks : list net) :
  Forall (is_u 8) f -> flen f <= i64_max -> value_ok f fv -> sound f (ip_field f fv networks).
Proof.
  intros Hf Hl Hv. unfold ip_field, value_ok in *. destruct (negb (fst fv =? 2)); [apply sound_ret |].
  destruct (snd fv) as [v | rng |]; try apply sound_fail.
  apply sound_bind; [| intros; apply sound_ret].
  apply sound_within; [done | done |].
  apply sound_bind; [| intros; apply sound_cidr_network | by apply wf_inside].
  apply sound_each_field; [done | done |]. intros. by apply sound_cidr_field.
Qed.

Lemma sound_listed_networks f :
  Forall (is_u 8) f -> flen f <= i64_max -> sound f (listed_networks f).
Proof.
  intros Hf Hl. unfold listed_networks. apply sound_each_field; [done | done |].
  intros fv s Hv. by apply sound_ip_field.
Qed.

Lemma cidr_network_truncated s r (n : net) r' :
  cidr_network s r = (Ok (Some n), r') -> truncated n.
Proof.
  unfold cidr_network. destruct (fst s); [| done]. destruct (snd s <=? 32); [| done].
  intros Hrun. apply bind_inv in Hrun as (m & r1 & _ & Hrun). injection Hrun as <- _.
  apply trunc_truncated.
Qed.

Lemma listed_networks_truncated f r networks r' :
  Forall (is_u 8) f -> flen f <= i64_max -> wf f r ->
  listed_networks f r = (Ok networks, r') -> Forall truncated networks.
Proof.
  intros Hf Hl Hwf Hrun. unfold listed_networks in Hrun.
  apply (each_field_ind f Hf Hl _ (fun fv s Hok => sound_ip_field f fv s Hf Hl Hok)
    (Forall truncated)) in Hrun as [HP _]; [done | done | constructor |].
  intros fv s r1 s' r2 Hwf1 Hok HP Hbody. unfold ip_field, value_ok in *.
  destruct (negb (fst fv =? 2)); [by injection Hbody as <- _ |].
  destruct (snd fv) as [v | rng |]; [done | | done].
  apply bind_inv in Hbody as (o & r3 & Hwithin & Hbody). injection Hbody as <- _.
  destruct o as [n |]; [| done]. apply Forall_app. split; [done |]. apply Forall_singleton.
  assert (sound_at f (inside rng) (s ← each_field f (cidr_field f) (None, 0); cidr_network s)) as Hsound.
  { apply sound_bind; [| intros; apply sound_cidr_network | by apply wf_inside].
    apply sound_each_field; [done | done |]. intros. by apply sound_cidr_field. }
  apply (within_ok f) in Hwithin as [_ (r4 & Hin & _)]; [| done..].
  apply bind_inv in Hin as (s0 & r5 & _ & Hin). by eapply cidr_network_truncated.
Qed.

(** ** The cache *)

Definition coherent {T} (decode : list Z -> M T) (f : indexed_file T) : Prop :=
  forall tag v, cache f !! tag = Some v -> decode_tag decode f tag = Ok (Some v).

(** [get] answers what decoding the entry answers, cached or not. *)
Lemma get_spec {T} upgrade (decode : list Z -> M T) f tag answer f' :
  coherent decode f -> get upgrade decode f tag = (answer, f') ->
  answer = decode_tag decode f tag /\ coherent decode f' /\ file f' = file f /\ entries f' = entries f.
Proof.
  intros Hc Hget. unfold get in Hget.
  assert (forall a f1, match entries f !! tag with
    | None => (Ok None, f)
    | Some rng =>
        match fst (within rng (decode (file f)) (new (file f))) with
        | Err e => (Err e, f)
        | Ok v => (Ok (Some v), IndexedFile (file f) (entries f) (<[tag := v]> (cache f)))
        end
    end = (a, f1) ->
    a = decode_tag decode f tag /\ coherent decode f1 /\ file f1 = file f /\ entries f1 = entries f) as Hread.
  { intros a f1. unfold decode_tag.
    destruct (entries f !! tag) as [rng |] eqn:Ee; [| by intros [= <- <-]].
    destruct (fst (within rng (decode (file f)) (new (file f)))) as [v | e] eqn:Ed;
      intros [= <- <-]; [| by split_and!].
    split_and!; [done | | done | done].
    intros tag' v' Hv'. cbn [cache] in Hv'.
    apply lookup_insert_Some in Hv' as [[<- <-] | [_ Hlk]].
    - unfold decode_tag. cbn [entries file]. by rewrite Ee, Ed.
    - by apply Hc in Hlk. }
  destruct (cache f !! tag) as [v |] eqn:Ec; [| by apply Hread].
  destruct upgrade; [| by apply Hread]. injection Hget as <- <-. split_and!; [| done | done | done].
  symmetry. by apply Hc.
Qed.

(** ** Selection within the budgets *)

Lemma select_loop_ind {R St : Type} (turn : bool -> R -> St -> result St) (P : list R -> St -> Prop) :
  (forall up done r st st', P done st -> turn up r st = Ok st' -> P (done ++ [r]) st') ->
  forall rules upgrades done st st',
    P done st -> select_loop turn upgrades rules st = Ok st' -> P (done ++ rules) st'.
Proof.
  intros Hstep rules. induction rules as [| r rules IH]; intros upgrades done st st' HP Hsel; cbn in Hsel.
  - injection Hsel as <-. by rewrite app_nil_r.
  - inv_result. replace (done ++ r :: rules) with ((done ++ [r]) ++ rules) by by rewrite <- app_assoc.
    eapply IH; [| exact Hsel]. eapply Hstep; [exact HP | exact E].
Qed.

(** The GeoSite (GeoIP) tag an enabled rule uses. *)
Definition site_tag (r : domain_rule) : option string :=
  match d_enabled r, d_matcher r with true, GeoSite v => Some v | _, _ => None end.

Definition ip_tag (r : ip_rule) : option string :=
  match i_enabled r, i_matcher r with true, GeoIp v => Some v | _, _ => None end.

(** The size of the entries of the selected tags, their regular expressions,
    and the intervals of the enabled GeoIP rules. *)
Definition bytes_of (es : gmap string range) (m : gmap string site) : Z :=
  map_fold (fun tag _ acc => match es !! tag with Some r => len r | None => 0 end + acc) 0 m.

Definition regexes_of (m : gmap string site) : Z :=
  map_fold (fun _ s acc => Z.of_nat (length (regexes s)) + acc) 0 m.

Definition rule_intervals (m : gmap string (list net)) (r : ip_rule) : Z :=
  match ip_tag r with Some v => intervals (networks_of m v) | None => 0 end.

Definition intervals_of (m : gmap string (list net)) (rules : list ip_rule) : Z :=
  foldr (fun r acc => rule_intervals m r + acc) 0 rules.

Lemma saturate_step m a b : 0 <= a -> 0 <= b -> saturating_add_max m (Z.min m a) b = Z.min m (a + b).
Proof. unfold saturating_add_max. lia. Qed.

Lemma bytes_of_insert es m tag s rng :
  m !! tag = None -> es !! tag = Some rng -> bytes_of es (<[tag := s]> m) = bytes_of es m + len rng.
Proof.
  intros Hm He. unfold bytes_of. rewrite map_fold_insert_L; [rewrite He; lia | intros; lia | done].
Qed.

Lemma bytes_of_nonneg es m :
  (forall tag rng, es !! tag = Some rng -> 0 <= len rng) -> 0 <= bytes_of es m.
Proof.
  intros Hes. apply (map_fold_weak_ind (fun acc _ => 0 <= acc)); [done |].
  intros tag s m' acc _ Hacc. destruct (es !! tag) eqn:E; [apply Hes in E |]; lia.
Qed.

Lemma regexes_of_insert m tag s :
  m !! tag = None -> regexes_of (<[tag := s]> m) = regexes_of m + Z.of_nat (length (regexes s)).
Proof. intros Hm. unfold regexes_of. rewrite map_fold_insert_L; [lia | intros; lia | done]. Qed.

Lemma regexes_of_nonneg m : 0 <= regexes_of m.
Proof.
  apply (map_fold_weak_ind (fun acc _ => 0 <= acc)); [done |]. intros tag s m' acc _ Hacc. lia.
Qed.

Lemma gaps_after_nonneg l : forall e, 0 <= gaps_after (net := net) e l.
Proof. induction l as [| a l IH]; intros e; cbn; [lia |]. specialize (IH (broadcast a)). case_match; lia. Qed.

Lemma rule_intervals_nonneg m r : 0 <= rule_intervals m r.
Proof.
  unfold rule_intervals. destruct (ip_tag r) as [v |]; [| done]. unfold intervals.
  destruct (networks_of m v) as [| a l]; [done |]. pose proof (gaps_after_nonneg l (broadcast a)). lia.
Qed.

Lemma intervals_of_app m l k : intervals_of m (l ++ k) = intervals_of m l + intervals_of m k.
Proof. unfold intervals_of. induction l as [| r l IH]; cbn; [done |]. rewrite IH. lia. Qed.

Lemma intervals_of_nonneg m l : 0 <= intervals_of m l.
Proof.
  unfold intervals_of. induction l as [| r l IH]; cbn; [done |].
  pose proof (rule_intervals_nonneg m r). lia.
Qed.

(** The catalog: its files are bytes, its entries lie in them, its caches are coherent. *)
Record catalog_ok (c : catalog) : Prop := {
  ok_site_ranges tag rng : entries (cat_sites c) !! tag = Some rng -> 0 <= len rng;
  ok_site_cache : coherent (decode_site (cat_limits c)) (cat_sites c);
  ok_ip_cache : coherent decode_ip (cat_ips c);
  ok_limits : 0 <= geosite_bytes (cat_limits c) /\ 0 <= regex_count (cat_limits c) /\
              0 <= geoip_intervals (cat_limits c);
}.

Record sites_inv (c : catalog) (done : list domain_rule) (st : site_budget * indexed_file site) : Prop := {
  si_file : file (snd st) = file (cat_sites c);
  si_entries : entries (snd st) = entries (cat_sites c);
  si_cache : coherent (decode_site (cat_limits c)) (snd st);
  si_sites tag s : sb_sites (fst st) !! tag = Some s ->
    (exists r, r ∈ done /\ site_tag r = Some tag) /\
    decode_tag (decode_site (cat_limits c)) (cat_sites c) tag = Ok (Some s);
  si_all r tag : r ∈ done -> site_tag r = Some tag -> is_Some (sb_sites (fst st) !! tag);
  si_bytes : sb_bytes (fst st) = Z.min u64_max (bytes_of (entries (cat_sites c)) (sb_sites (fst st)));
  si_bytes_limit : sb_bytes (fst st) <= geosite_bytes (cat_limits c);
  si_regexes : sb_regexes (fst st) = Z.min u64_max (regexes_of (sb_sites (fst st)));
  si_regexes_limit : sb_regexes (fst st) <= regex_count (cat_limits c);
}.

Lemma decode_tag_same {T} (decode : list Z -> M T) f f' tag :
  file f = file f' -> entries f = entries f' -> decode_tag decode f tag = decode_tag decode f' tag.
Proof. unfold decode_tag. by intros -> ->. Qed.

Lemma sites_inv_skip c done r st : site_tag r = None -> sites_inv c done st -> sites_inv c (done ++ [r]) st.
Proof.
  intros Hr [H1 H2 H3 H4 H5 H6 H7 H8 H9]. split; try done.
  - intros tag s Hs. apply H4 in Hs as [(r' & Hr' & Ht) Hd]. split; [| done]. exists r'. set_solver.
  - intros r' tag [Hr' | ->%list_elem_of_singleton]%elem_of_app Ht; [by eapply H5 | congruence].
Qed.

Lemma select_site_step c up done r st st' :
  catalog_ok c -> sites_inv c done st -> select_site (cat_limits c) up r st = Ok st' ->
  sites_inv c (done ++ [r]) st'.
Proof.
  intros Hc Hinv Hsel. destruct st as [b f]. unfold select_site in Hsel.
  destruct (d_enabled r) eqn:Een; [| injection Hsel as <-; apply sites_inv_skip; [| done];
    unfold site_tag; by rewrite Een].
  destruct (d_matcher r) as [v | v | v] eqn:Em;
    try (injection Hsel as <-; apply sites_inv_skip; [| done]; unfold site_tag; by rewrite Een, Em).
  assert (site_tag r = Some v) as Htag by (unfold site_tag; by rewrite Een, Em).
  destruct Hinv as [H1 H2 H3 H4 H5 H6 H7 H8 H9]. cbn [fst snd] in *.
  case_bool_decide as Hin.
  { injection Hsel as <-. split; try done; cbn [fst snd].
    - intros tag s Hs. apply H4 in Hs as [(r' & Hr' & Ht) Hd]. split; [| done]. exists r'. set_solver.
    - intros r' tag [Hr' | ->%list_elem_of_singleton]%elem_of_app Ht; [by eapply H5 | by simplify_eq]. }
  inv_result.
  destruct (get up (decode_site (cat_limits c)) f v) as [answer f'] eqn:Eg.
  apply get_spec in Eg as (-> & Hc' & Hf' & He'); [| done].
  inv_result. subst. cbn [fst snd sb_sites sb_bytes sb_regexes].
  apply eq_None_not_Some in Hin.
  rewrite (decode_tag_same _ _ (cat_sites c)) in E1 by done.
  pose proof (bytes_of_nonneg (entries (cat_sites c)) (sb_sites b) (ok_site_ranges c Hc)).
  pose proof (regexes_of_nonneg (sb_sites b)).
  rewrite H2 in E. pose proof (ok_site_ranges c Hc _ _ E).
  split; cbn [fst snd sb_sites sb_bytes sb_regexes]; try done; try congruence.
  - intros tag s [[<- <-] | [Hne Hs]]%lookup_insert_Some.
    + split; [exists r; set_solver | done].
    + apply H4 in Hs as [(r' & Hr' & Ht) Hd]. split; [| done]. exists r'. set_solver.
  - intros r' tag Hr' Ht. destruct (decide (v = tag)) as [-> | Hne]; [by rewrite lookup_insert_eq |].
    rewrite lookup_insert_ne by done.
    apply elem_of_app in Hr' as [Hr' | ->%list_elem_of_singleton]; [by eapply H5 | congruence].
  - rewrite (bytes_of_insert _ _ _ _ r0) by done. rewrite H6. by apply saturate_step.
  - lia.
  - rewrite regexes_of_insert by done. rewrite H8. apply saturate_step; lia.
  - lia.
Qed.

Record ips_inv (c : catalog) (done : list ip_rule) (st : ip_budget * indexed_file (list net)) : Prop := {
  ii_file : file (snd st) = file (cat_ips c);
  ii_entries : entries (snd st) = entries (cat_ips c);
  ii_cache : coherent decode_ip (snd st);
  ii_ips tag n : ib_ips (fst st) !! tag = Some n ->
    (exists r, r ∈ done /\ ip_tag r = Some tag) /\ decode_tag decode_ip (cat_ips c) tag = Ok (Some n);
  ii_all r tag : r ∈ done -> ip_tag r = Some tag -> is_Some (ib_ips (fst st) !! tag);
  ii_intervals : ib_intervals (fst st) = Z.min u64_max (intervals_of (ib_ips (fst st)) done);
  ii_limit : ib_intervals (fst st) <= geoip_intervals (cat_limits c);
}.

Lemma intervals_of_insert m v n rules :
  m !! v = None -> (forall r tag, r ∈ rules -> ip_tag r = Some tag -> is_Some (m !! tag)) ->
  intervals_of (<[v := n]> m) rules = intervals_of m rules.
Proof.
  intros Hm Hall. unfold intervals_of. induction rules as [| r rules IH]; cbn; [done |].
  rewrite IH by (intros r' tag Hr' Ht'; apply (Hall r' tag); [by apply list_elem_of_further | done]).
  f_equal.
  unfold rule_intervals, networks_of. destruct (ip_tag r) as [tag |] eqn:E; [| done].
  rewrite lookup_insert_ne; [done |]. intros ->.
  destruct (Hall r tag (list_elem_of_here _ _) E). congruence.
Qed.

Lemma select_ip_step c up done r st st' :
  catalog_ok c -> ips_inv c done st -> select_ip (cat_limits c) up r st = Ok st' ->
  ips_inv c (done ++ [r]) st'.
Proof.
  intros Hc [H1 H2 H3 H4 H5 H6 H7] Hsel. destruct st as [b f]. unfold select_ip in Hsel.
  cbn [fst snd] in *.
  assert (forall m, ip_tag r = None -> intervals_of m (done ++ [r]) = intervals_of m done) as Hnone.
  { intros m Ht. rewrite intervals_of_app. cbn. unfold rule_intervals. rewrite Ht. lia. }
  assert (ip_tag r = None -> ips_inv c (done ++ [r]) (b, f)) as Hskip.
  { intros Ht. split; try done; cbn [fst snd].
    - intros tag n Hn. apply H4 in Hn as [(r' & Hr' & Ht') Hd]. split; [| done]. exists r'. set_solver.
    - intros r' tag [Hr' | ->%list_elem_of_singleton]%elem_of_app Ht'; [by eapply H5 | congruence].
    - by rewrite Hnone. }
  destruct (i_enabled r) eqn:Een; [| injection Hsel as <-; apply Hskip; unfold ip_tag; by rewrite Een].
  destruct (i_matcher r) as [v | v] eqn:Em;
    [injection Hsel as <-; apply Hskip; unfold ip_tag; by rewrite Een, Em |].
  assert (ip_tag r = Some v) as Htag by (unfold ip_tag; by rewrite Een, Em).
  apply bind_ok in Hsel as ([m f'] & Hm & Hsel). inv_result. cbn [fst snd ib_ips ib_intervals].
  assert (file f' = file (cat_ips c) /\ entries f' = entries (cat_ips c) /\ coherent decode_ip f' /\
    (forall tag n, m !! tag = Some n -> (exists r', r' ∈ done ++ [r] /\ ip_tag r' = Some tag) /\
      decode_tag decode_ip (cat_ips c) tag = Ok (Some n)) /\
    (forall r' tag, r' ∈ done ++ [r] -> ip_tag r' = Some tag -> is_Some (m !! tag)) /\
    intervals_of m done = intervals_of (ib_ips b) done) as (Hf & He & Hco & Hin & Hall & Hsum).
  { case_bool_decide as Hpresent.
    - injection Hm as <- <-. split_and!; try done.
      + intros tag n Hn. apply H4 in Hn as [(r' & Hr' & Ht') Hd]. split; [| done]. exists r'. set_solver.
      + intros r' tag [Hr' | ->%list_elem_of_singleton]%elem_of_app Ht'; [by eapply H5 | by simplify_eq].
    - destruct (get up decode_ip f v) as [answer f1] eqn:Eg.
      apply get_spec in Eg as (-> & Hc' & Hf' & He'); [| done]. inv_result. subst.
      apply eq_None_not_Some in Hpresent. rewrite (decode_tag_same _ _ (cat_ips c)) in E0 by done.
      split_and!; [congruence | congruence | done | | | by apply intervals_of_insert].
      + intros tag n [[<- <-] | [Hne Hn]]%lookup_insert_Some; [split; [exists r; set_solver | done] |].
        apply H4 in Hn as [(r' & Hr' & Ht') Hd]. split; [| done]. exists r'. set_solver.
      + intros r' tag Hr' Ht'. destruct (decide (v = tag)) as [-> | Hne]; [by rewrite lookup_insert_eq |].
        rewrite lookup_insert_ne by done.
        apply elem_of_app in Hr' as [Hr' | ->%list_elem_of_singleton]; [by eapply H5 | congruence]. }
  split; cbn [fst snd ib_ips ib_intervals]; try done; [| lia].
  rewrite intervals_of_app, H6, Hsum. cbn [intervals_of foldr].
  pose proof (rule_intervals_nonneg m r) as Hr. pose proof (intervals_of_nonneg (ib_ips b) done).
  unfold rule_intervals in *. rewrite Htag in *. rewrite Z.add_0_r. apply saturate_step; lia.
Qed.

(** The invariants of the two loops hold of what a selection answers. *)
Lemma select_invariants c sites0 ips0 config up_sites up_ips g :
  catalog_ok c -> mode config = Rules ->
  select up_sites up_ips (GeoData (Some c) sites0 ips0) config = Ok g ->
  exists sb sf ib nf, sites g = sb_sites sb /\ ips g = ib_ips ib
    /\ sites_inv c (domain_rules config) (sb, sf) /\ ips_inv c (ip_rules config) (ib, nf).
Proof.
  intros Hc Hmode Hsel. unfold select in Hsel. cbn [source] in Hsel. rewrite Hmode in Hsel.
  apply bind_ok in Hsel as ([sb sf] & Hs & Hsel). apply bind_ok in Hsel as ([ib nf] & Hi & Hsel).
  injection Hsel as <-. exists sb, sf, ib, nf. cbn [sites ips].
  apply (select_loop_ind _ (sites_inv c) (fun up done r st st' => select_site_step c up done r st st' Hc)) with (done := []) in Hs.
  2: { destruct Hc as [Ho1 Ho2 Ho3 (Ho4 & Ho5 & Ho6)]. split; try done.
       intros ? ? Hr. by apply not_elem_of_nil in Hr. }
  apply (select_loop_ind _ (ips_inv c) (fun up done r st st' => select_ip_step c up done r st st' Hc)) with (done := []) in Hi.
  2: { destruct Hc as [Ho1 Ho2 Ho3 (Ho4 & Ho5 & Ho6)]. split; try done.
       intros ? ? Hr. by apply not_elem_of_nil in Hr. }
  cbn [app] in Hs, Hi.
  done.
Qed.

(** Selecting the geodata of a routing configuration is exact and within budget.
    In rules mode, whatever the caches hold and whichever cached values are
    still alive, a successful [select] keeps exactly the GeoSite and GeoIP tags
    of enabled rules, each with what decoding its entry of the release file
    gives; and the total size of the GeoSite entries, the number of regular
    expressions and the number of GeoIP intervals of the enabled rules (as the
    u64s the code adds them up in) stay within the memory profile's limits. *)
Theorem select_exact_within_budget c sites0 ips0 config up_sites up_ips g :
  catalog_ok c -> mode config = Rules ->
  select up_sites up_ips (GeoData (Some c) sites0 ips0) config = Ok g ->
  (forall tag, (exists r, r ∈ domain_rules config /\ site_tag r = Some tag) ->
    exists s, sites g !! tag = Some s /\
      decode_tag (decode_site (cat_limits c)) (cat_sites c) tag = Ok (Some s)) /\
  (forall tag, (exists r, r ∈ ip_rules config /\ ip_tag r = Some tag) ->
    exists n, ips g !! tag = Some n /\ decode_tag decode_ip (cat_ips c) tag = Ok (Some n)) /\
  (forall tag, is_Some (sites g !! tag) -> exists r, r ∈ domain_rules config /\ site_tag r = Some tag) /\
  (forall tag, is_Some (ips g !! tag) -> exists r, r ∈ ip_rules config /\ ip_tag r = Some tag) /\
  Z.min u64_max (bytes_of (entries (cat_sites c)) (sites g)) <= geosite_bytes (cat_limits c) /\
  Z.min u64_max (regexes_of (sites g)) <= regex_count (cat_limits c) /\
  Z.min u64_max (intervals_of (ips g) (ip_rules config)) <= geoip_intervals (cat_limits c).
Proof.
  intros Hc Hmode Hsel.
  destruct (select_invariants _ _ _ _ _ _ _ Hc Hmode Hsel) as (sb & sf & ib & nf & -> & -> & Hs & Hi).
  destruct Hs as [_ _ _ Hs1 Hs2 Hs3 Hs4 Hs5 Hs6], Hi as [_ _ _ Hi1 Hi2 Hi3 Hi4]. cbn [fst snd] in *.
  split_and!.
  - intros tag (r & Hr & Ht). destruct (Hs2 r tag Hr Ht) as [s Hs]. exists s. split; [done |]. by apply Hs1.
  - intros tag (r & Hr & Ht). destruct (Hi2 r tag Hr Ht) as [n Hn]. exists n. split; [done |]. by apply Hi1.
  - intros tag [s Hs]. by apply (Hs1 tag s).
  - intros tag [n Hn]. by apply (Hi1 tag n).
  - by rewrite <- Hs3.
  - by rewrite <- Hs5.
  - by rewrite <- Hi3.
Qed.

(** What a country decodes to: the listed networks, aggregated. *)
Lemma decode_tag_listed f tag networks :
  Forall (is_u 8) (file f) -> flen (file f) <= i64_max ->
  (forall rng, entries f !! tag = Some rng -> in_file (file f) rng) ->
  decode_tag decode_ip f tag = Ok (Some networks) ->
  exists listed, decode_tag listed_networks f tag = Ok (Some listed) /\
    Forall truncated listed /\ aggregate_ipv4 listed = networks.
Proof.
  intros Hf Hl Hin Hdec. unfold decode_tag in *.
  destruct (entries f !! tag) as [rng |]; [| done]. specialize (Hin rng eq_refl). inv_result. subst.
  destruct (within rng (decode_ip (file f)) (new (file f))) as [x r'] eqn:Ew. cbn in E. subst x.
  assert (forall a r2, listed_networks (file f) (inside rng) = (Ok a, r2) ->
    advanced (file f) 0 (inside rng) r2) as Hsound.
  { apply sound_listed_networks; [done | done |]. by apply wf_inside. }
  assert (sound_at (file f) (inside rng) (decode_ip (file f))) as Hsound'.
  { intros a r2 Ha. unfold decode_ip in Ha. apply bind_inv in Ha as (l & r3 & Ha & Hr).
    injection Hr as _ <-. by apply Hsound in Ha. }
  pose proof (wf_new (file f)) as Hnew.
  pose proof Ew as Hrun. apply (within_ok (file f)) in Hrun as [_ (r2 & Hrun & _)]; [| done..].
  unfold decode_ip in Hrun. apply bind_inv in Hrun as (listed & r3 & Hlist & Hrun).
  injection Hrun as Hrun _. exists listed.
  pose proof (listed_networks_truncated _ _ _ _ Hf Hl (wf_inside _ _ Hin) Hlist) as Htr.
  split_and!; [| done | done].
  assert (fst (within rng (listed_networks (file f)) (new (file f))) = Ok listed) as ->; [| done].
  eapply within_answer; [exact Hl | exact Hin | exact Hlist | exact (Hsound _ _ Hlist)].
Qed.

(** The file of a catalog: bytes, with every entry inside. *)
Definition file_ok {T} (f : indexed_file T) : Prop :=
  Forall (is_u 8) (file f) /\ flen (file f) <= i64_max
  /\ forall tag rng, entries f !! tag = Some rng -> in_file (file f) rng.

(** Every list of networks of a selection is sorted and disjoint. *)
Lemma selected_networks_sorted c sites0 ips0 config up_sites up_ips g tag :
  catalog_ok c -> file_ok (cat_ips c) -> mode config = Rules ->
  select up_sites up_ips (GeoData (Some c) sites0 ips0) config = Ok g ->
  disjoint_sorted (ip_networks g tag).
Proof.
  intros Hc (Hf & Hl & Hin) Hmode Hsel.
  destruct (select_invariants _ _ _ _ _ _ _ Hc Hmode Hsel) as (sb & sf & ib & nf & _ & Hg & _ & Hi).
  unfold ip_networks, networks_of. rewrite Hg. destruct (ib_ips ib !! tag) as [n |] eqn:Hn; cbn.
  - destruct (ii_ips _ _ _ Hi tag n Hn) as [_ Hdec].
    destruct (decode_tag_listed _ _ _ Hf Hl (Hin tag) Hdec) as (listed & _ & Htr & <-).
    by apply aggregate_spec.
  - split; constructor.
Qed.

(** C13. A GeoIP lookup answers the question the file asks.  When the networks of a
    country decode, they are sorted and disjoint, and for every address the
    binary search over them says yes exactly when one of the networks the file
    lists contains the address: sorting, dropping nested networks and joining
    sibling blocks lose and add nothing. *)
Theorem country_lookup_exact f tag networks :
  Forall (is_u 8) (file f) -> flen (file f) <= i64_max ->
  (forall rng, entries f !! tag = Some rng -> in_file (file f) rng) ->
  decode_tag decode_ip f tag = Ok (Some networks) ->
  exists listed, decode_tag listed_networks f tag = Ok (Some listed) /\
    disjoint_sorted networks /\
    forall ip, matches_networks networks ip = true <-> exists n, n ∈ listed /\ contains_ip n ip = true.
Proof.
  intros Hf Hl Hin Hdec.
  destruct (decode_tag_listed f tag networks Hf Hl Hin Hdec) as (listed & Hlist & Htr & <-).
  destruct (aggregate_spec listed Htr) as [Hdis Hun]. exists listed. split_and!; [done | done |].
  intros ip. rewrite matches_networks_spec, Hun by done. unfold union. by setoid_rewrite covers_contains.
Qed.

Lemma after_dots_spec l r : r ∈ after_dots l <-> exists p, l = p ++ "."%char :: r.
Proof.
  induction l as [| a l IH]; cbn [after_dots].
  - split; [by intros ?%not_elem_of_nil | by intros ([| ? ?] & ?)].
  - unfold eqb_ascii. case_bool_decide as Ha.
    + subst. rewrite elem_of_cons, IH. split.
      * intros [-> | (p & ->)]; [by exists [] | by exists ("."%char :: p)].
      * intros ([| b p] & Hp); cbn in Hp; simplify_eq; [by left | right; by exists p].
    + rewrite IH. split.
      * intros (p & ->). by exists (a :: p).
      * intros ([| b p] & Hp); cbn in Hp; simplify_eq. by exists p.
Qed.

Lemma contains_bytes_spec k l : contains_bytes k l = true <-> exists p q, l = p ++ k ++ q.
Proof.
  induction l as [| a l IH]; cbn [contains_bytes].
  - rewrite orb_false_r, bool_decide_eq_true. split.
    + intros [r Hr]. apply is_prefix_bytes_Some in Hr. by exists [], r.
    + intros (p & q & Hpq). symmetry in Hpq. apply app_eq_nil in Hpq as [_ [-> ->]%app_eq_nil].
      by eexists.
  - rewrite orb_true_iff, bool_decide_eq_true, IH. split.
    + intros [[r Hr] | (p & q & ->)].
      * apply is_prefix_bytes_Some in Hr. by exists [], r.
      * by exists (a :: p), q.
    + intros ([| b p] & q & Hpq); cbn in Hpq.
      * left. exists q. by apply is_prefix_bytes_Some.
      * simplify_eq. right. by exists p, q.
Qed.

(** A GeoSite matches a domain exactly when the domain is listed in full, is
    a listed root or a subdomain of one - the root after a dot, so never a
    name that merely ends in the same letters -, contains a keyword or matches
    a regular expression. *)
Theorem site_matches_spec s domain :
  site_matches s domain = true <->
  domain ∈ full s \/
  (exists root, root ∈ roots s /\ (domain = root \/ exists sub, domain = (sub +:+ "." +:+ root)%string)) \/
  (exists k p q, k ∈ keywords s /\ domain = (p +:+ k +:+ q)%string) \/
  (exists r, r ∈ regexes s /\ rx_is_match r domain = true).
Proof.
  unfold site_matches. rewrite !orb_true_iff, !bool_decide_eq_true, !existsb_exists.
  setoid_rewrite <- list_elem_of_In. setoid_rewrite bool_decide_eq_true.
  setoid_rewrite contains_bytes_spec. setoid_rewrite after_dots_spec.
  split.
  - intros [[[[? | ?] | (r & (p & Hp) & Hr)] | (k & Hk & p & q & Hpq)] | (r & Hr)].
    + by left.
    + right; left. exists domain. auto.
    + right; left. exists (str r). split; [done |]. right. exists (str p).
      apply chars_inj. rewrite !chars_app, !chars_str. done.
    + right; right; left. exists k, (str p), (str q). split; [done |].
      apply chars_inj. by rewrite !chars_app, !chars_str.
    + right; right; right. by exists r.
  - intros [? | [(r & Hr & [-> | (sub & ->)]) | [(k & p & q & Hk & ->) | (r & Hr)]]].
    + tauto.
    + tauto.
    + left; left; right. exists (chars r). rewrite str_chars. split; [| done].
      exists (chars sub). by rewrite !chars_app.
    + left; right. exists k. split; [done |]. exists (chars p), (chars q). by rewrite !chars_app.
    + right. by exists r.
Qed.
(** ** The errors of a selection carry no marker *)

Lemma decode_site_plain limits f : reads_plain (decode_site limits f).
Proof.
  refine (each_field_plain f (site_field limits f) empty_site _). intros fv s. unfold site_field. repeat reads_step.
  - apply within_plain, each_field_plain. intros fv' s'. unfold site_domain. repeat reads_step.
  - apply reads_plain_lift. unfold add_domain. repeat plain_step.
Qed.

Lemma decode_ip_plain f : reads_plain (decode_ip f).
Proof.
  unfold decode_ip, listed_networks. repeat reads_step. refine (each_field_plain f (ip_field f) [] _). intros fv s. unfold ip_field. repeat reads_step.
  apply within_plain. repeat reads_step.
  - apply each_field_plain. intros fv' s'. unfold cidr_field. repeat reads_step.
  - unfold cidr_network. repeat reads_step.
Qed.

Lemma get_plain {T} upgrade (decode : list Z -> M T) f tag :
  (forall l, reads_plain (decode l)) -> plain (get upgrade decode f tag).1.
Proof.
  intros Hd. unfold get. destruct (cache f !! tag), upgrade; try apply plain_ok;
    (destruct (entries f !! tag) as [rng |]; [| apply plain_ok]);
    (destruct (fst (within rng (decode (file f)) (new (file f)))) as [v | e] eqn:E; [apply plain_ok |]);
    apply plain_err; by apply (within_plain rng (decode (file f)) (Hd _) (new (file f))).
Qed.

Lemma select_site_plain limits upgrade rule st : plain (select_site limits upgrade rule st).
Proof.
  destruct st as [b f]. unfold select_site. destruct (d_enabled rule), (d_matcher rule) as [| | v]; try apply plain_ok.
  pose proof (get_plain upgrade (decode_site limits) f v (decode_site_plain limits)) as Hg.
  destruct (get _ _ _ _) as [answer f']. cbn [fst] in Hg. repeat plain_step.
Qed.

Lemma select_ip_plain limits upgrade rule st : plain (select_ip limits upgrade rule st).
Proof.
  destruct st as [b f]. unfold select_ip. destruct (i_enabled rule), (i_matcher rule) as [| v]; try apply plain_ok.
  pose proof (get_plain upgrade decode_ip f v decode_ip_plain) as Hg.
  destruct (get _ _ _ _) as [answer f']. cbn [fst] in Hg. repeat plain_step.
Qed.

Lemma select_loop_plain {R St} (turn : bool -> R -> St -> result St) rules : (forall b r st, plain (turn b r st)) ->
  forall upgrades st, plain (select_loop turn upgrades rules st).
Proof. intros Ht. induction rules as [| r rules IH]; intros upgrades st; cbn [select_loop]; repeat plain_step. Qed.

Lemma select_plain up_sites up_ips g config : plain (select up_sites up_ips g config).
Proof.
  unfold select. repeat plain_step; apply select_loop_plain; [apply select_site_plain | apply select_ip_plain].
Qed.
End Geo.

(** ** Examples *)

(** One country, "ru", with the two halves of 5.8.0.0/12 listed in the wrong order. *)
Definition sample_geoip : list Z :=
  [10; 24; 10; 2; 114; 117; 18; 8; 10; 4; 5; 8; 0; 0; 16; 13;
   18; 8; 10; 4; 5; 0; 0; 0; 16; 13].

Definition sample_catalog : catalog (net := PrefixNet.t) (rx := unit) :=
  Catalog (IndexedFile [] ∅ ∅) (IndexedFile sample_geoip {["ru"%string := Range 2 24]} ∅) COMPACT.

Definition sample_routing : routing_config :=
  RoutingConfig [] [IpRule "ru" true (GeoIp "ru") Direct] Vpn Rules None.

Example sample_load :
  load_with_limits [] sample_geoip COMPACT = Ok (GeoData (Some sample_catalog) ∅ ∅).
Proof. by vm_compute. Qed.

Lemma sample_catalog_ok : catalog_ok (fun _ _ _ => None) sample_catalog.
Proof.
  split; cbn [cat_sites cat_ips sample_catalog entries cache].
  - intros tag rng Hlk. by rewrite lookup_empty in Hlk.
  - intros tag v Hlk. cbn in Hlk. by rewrite lookup_empty in Hlk.
  - intros tag v Hlk. cbn in Hlk. by rewrite lookup_empty in Hlk.
  - done.
Qed.

Lemma select_exact_within_budget_witness :
  match select (fun _ _ _ => None) (fun _ => false) (fun _ => true)
          (GeoData (Some sample_catalog) ∅ ∅) sample_routing with
  | Ok g => exists n, ips g !! "ru"%string = Some n
  | Err _ => False
  end.
Proof.
  destruct (select _ _ _ _ _) as [g | e] eqn:E; [| by vm_compute in E].
  destruct (select_exact_within_budget (fun _ _ _ => None) sample_catalog ∅ ∅ sample_routing
    (fun _ => false) (fun _ => true) g sample_catalog_ok eq_refl E) as (_ & Hips & _).
  destruct (Hips "ru"%string) as (n & Hn & _); [| by exists n].
  exists (IpRule "ru" true (GeoIp "ru") Direct). split; [by apply list_elem_of_singleton | done].
Defined.

Lemma country_lookup_exact_witness :
  match decode_tag decode_ip (cat_ips sample_catalog) "ru" with
  | Ok (Some networks) => length networks = 1%nat /\ disjoint_sorted networks
  | _ => False
  end.
Proof.
  destruct (decode_tag decode_ip (cat_ips sample_catalog) "ru") as [[networks |] | e] eqn:E;
    [| by vm_compute in E | by vm_compute in E].
  split; [by vm_compute in E; injection E as <- |].
  destruct (country_lookup_exact (cat_ips sample_catalog) "ru" networks) as (_ & _ & Hd & _);
    [| by vm_compute | | done | done].
  - apply (proj1 (bool_decide_eq_true _)). by vm_compute.
  - intros rng Hlk. vm_compute in Hlk. injection Hlk as <-.
    unfold in_file. split_and!; by vm_compute.
Defined.
