(* ===== verification/Config.v ===== *)
(** * Validation, normalisation and storage of the configuration (crates/gofro-agent/src/config.rs)

    Every [&mut] argument is returned; on an error the callers drop what they
    passed.  Parameters: [ipnet], [idna::domain_to_ascii], serde_json's
    [to_json] and [of_json], and the Unicode lower case of [str::to_lowercase]. *)

From stdpp Require Import base gmap sets strings list sorting.
From Stdlib Require Import Ascii ZArith Lia.
From S2P Require Import Prelude RustStd IpAddr RelayCodec Net Model.

Definition MAX_RULES : nat := 128.
Definition MAX_PROFILE_SIZE : Z := 4096.
Definition ALLOWED_IPS : string := "0.0.0.0/0".
Definition KEEPALIVE : Z := 10.
Definition MTU : Z := TUNNEL_MTU.

(** ** Servers *)

Definition validate_server_name (name : string) : result unit :=
  if bool_decide (name = ""%string) || (60 <? char_count name) || has_control name
  then Err (Msg "имя сервера должно содержать от 1 до 60 символов") else Ok tt.

Definition normalize_server_name (name : string) : result string :=
  let name := trim name in
  _ ← validate_server_name name;
  Ok name.

Definition validate_emoji (emoji : string) : result unit :=
  if (32 <? slen emoji) || has_control emoji then Err (Msg "некорректный значок сервера") else Ok tt.

(** [parse_host_key] of managed/pins.rs *)
Definition parse_host_key (value : string) : result unit :=
  match split_whitespace value with
  | [kind; key] =>
      if negb (bool_decide (kind = "ssh-ed25519"%string))
         || negb (slen key =? 68)
         || negb (starts_with "AAAAC3NzaC1lZDI1NTE5AAAAI" key)
         || negb (forallb (fun b => is_ascii_alphanumeric b
                    || existsb (eqb_ascii b) ["+"%char; "/"%char; "="%char]) (chars key))
      then Err (Msg "invalid ed25519 host key") else Ok tt
  | _ => Err (Msg "invalid ed25519 host key")
  end.

Definition validate_wireguard_key (key kind : string) : result unit :=
  let bytes := chars key in
  if negb (length bytes =? 44)%nat
     || negb (bool_decide (bytes !! 43%nat = Some "="%char))
     || negb (forallb (fun b => is_ascii_alphanumeric b || eqb_ascii b "+"%char || eqb_ascii b "/"%char)
                (take 43 bytes))
  then Err (Msg ("некорректный WireGuard " +:+ kind +:+ " key")) else Ok tt.

Definition valid_port (port : string) : bool :=
  match parse_u16 port with Some p => 0 <? p | None => false end.

Definition validate_endpoint (endpoint : string) : result unit :=
  if bool_decide (endpoint = ""%string) || (255 <? slen endpoint) || has_whitespace endpoint
  then Err (Msg "некорректный endpoint")
  else
    '(host, port) ← ok_or (rsplit_once ":"%char endpoint) "endpoint должен иметь формат host:port";
    if bool_decide (host = ""%string) || negb (valid_port port)
    then Err (Msg "endpoint должен иметь формат host:port") else Ok tt.

Definition ipv6_endpoint (endpoint : string) : bool :=
  match rsplit_once ":"%char endpoint with
  | Some (host, _) => existsb (fun c => contains_byte c host) [":"%char; "["%char; "]"%char]
  | None => false
  end.

Section Config.
Context {net : Type} `{IpnetLaws net}.
Variable to_lowercase : string -> string.
Variable domain_to_ascii : string -> option string.
Variables (to_json : controller_config -> string) (of_json : string -> option controller_config).

Definition validate_management (m : managed_server) : result unit :=
  if negb (ip_canonical (m_host m)) || (m_port m =? 0)
  then Err (Msg "управляемый сервер должен иметь IP-адрес и ненулевой SSH-порт")
  else parse_host_key (m_host_key m).

Definition normalize_tunnel_address (address : string) : result string :=
  n ← with_context "некорректный Address в WireGuard-профиле"
        (ok_or (net_parse (net := net) address) "invalid IP address syntax");
  let '(a, b, c, d) := octets (addr n) in
  if negb (prefix_len n =? 32) || negb (a =? 10) || negb (b =? 202) || negb (c =? 0)
     || negb ((2 <=? d) && (d <=? 254))
  then Err (Msg "Gofro поддерживает Address из диапазона 10.202.0.2-10.202.0.254/32")
  else Ok (net_show n).

Definition validate_saved_server (s : server_profile) : result unit :=
  _ ← validate_server_name (name s);
  _ ← validate_emoji (emoji s);
  _ ← validate_endpoint (endpoint s);
  _ ← validate_wireguard_key (public_key s) "public";
  _ ← (match client_tunnel_address s with
       | Some address => _ ← normalize_tunnel_address address; Ok tt
       | None => Ok tt
       end);
  _ ← (match client_private_key s with
       | Some key => validate_wireguard_key key "private"
       | None => Ok tt
       end);
  match management s with
  | Some m => validate_management m
  | None => Ok tt
  end.

Definition validate_server (s : server_profile) : result unit :=
  _ ← validate_saved_server s;
  if ipv6_endpoint (endpoint s)
  then Err (Msg "IPv6 endpoint не поддерживается. Укажите IPv4-адрес или имя сервера с IPv4 в формате host:port.")
  else Ok tt.

(** ** WireGuard profiles *)

Record profile_slots := ProfileSlots {
  section : string;
  s_private_key : option string;
  s_address : option string;
  s_mtu : option string;
  s_public_key : option string;
  s_allowed_ips : option string;
  s_endpoint : option string;
  s_keepalive : option string;
}.

Definition empty_slots : profile_slots := ProfileSlots "" None None None None None None None.

Definition set_profile_value (slot : option string) (value key : string) : result (option string) :=
  match slot with
  | Some _ => Err (Msg ("параметр " +:+ key +:+ " указан несколько раз"))
  | None => Ok (Some value)
  end.

Definition set_section (p : profile_slots) (s : string) : profile_slots :=
  ProfileSlots s (s_private_key p) (s_address p) (s_mtu p) (s_public_key p) (s_allowed_ips p)
    (s_endpoint p) (s_keepalive p).

(** The big [match (section, key)]. *)
Definition set_parameter (p : profile_slots) (key value : string) : result profile_slots :=
  let 'ProfileSlots sec pk ad mt pu al en ke := p in
  if bool_decide (sec = "interface"%string) then
    if bool_decide (key = "PrivateKey"%string) then
      v ← set_profile_value pk value key; Ok (ProfileSlots sec v ad mt pu al en ke)
    else if bool_decide (key = "Address"%string) then
      v ← set_profile_value ad value key; Ok (ProfileSlots sec pk v mt pu al en ke)
    else if bool_decide (key = "MTU"%string) then
      v ← set_profile_value mt value key; Ok (ProfileSlots sec pk ad v pu al en ke)
    else Err (Msg ("неподдерживаемый параметр WireGuard-профиля: " +:+ key))
  else if bool_decide (sec = "peer"%string) then
    if bool_decide (key = "PublicKey"%string) then
      v ← set_profile_value pu value key; Ok (ProfileSlots sec pk ad mt v al en ke)
    else if bool_decide (key = "AllowedIPs"%string) then
      v ← set_profile_value al value key; Ok (ProfileSlots sec pk ad mt pu v en ke)
    else if bool_decide (key = "Endpoint"%string) then
      v ← set_profile_value en value key; Ok (ProfileSlots sec pk ad mt pu al v ke)
    else if bool_decide (key = "PersistentKeepalive"%string) then
      v ← set_profile_value ke value key; Ok (ProfileSlots sec pk ad mt pu al en v)
    else Err (Msg ("неподдерживаемый параметр WireGuard-профиля: " +:+ key))
  else if bool_decide (sec = ""%string) then
    Err (Msg ("параметр " +:+ key +:+ " находится вне секции WireGuard-профиля"))
  else Err (Msg ("неподдерживаемый параметр WireGuard-профиля: " +:+ key)).

Definition profile_line (p : profile_slots) (raw_line : string) : result profile_slots :=
  let line := trim raw_line in
  if bool_decide (line = ""%string) || starts_with "#" line || starts_with ";" line then Ok p
  else if starts_with "[" line && ends_with "]" line then
    if bool_decide (line = "[Interface]"%string) then Ok (set_section p "interface")
    else if bool_decide (line = "[Peer]"%string) then Ok (set_section p "peer")
    else Err (Msg ("неподдерживаемая секция WireGuard-профиля: " +:+ line))
  else
    '(key, value) ← ok_or (split_once "="%char line)
      "строка WireGuard-профиля должна иметь формат Key = Value";
    let key := trim key in
    let value := trim value in
    if bool_decide (value = ""%string)
    then Err (Msg ("пустое значение " +:+ key +:+ " в WireGuard-профиле"))
    else set_parameter p key value.

Fixpoint profile_lines (p : profile_slots) (ls : list string) : result profile_slots :=
  match ls with
  | [] => Ok p
  | l :: ls => p ← profile_line p l; profile_lines p ls
  end.

Definition required_profile_value (value : option string) (key : string) : result string :=
  ok_or value ("в WireGuard-профиле отсутствует " +:+ key).

Definition parse_server_profile (nm profile : string) : result server_profile :=
  if MAX_PROFILE_SIZE <? slen profile then Err (Msg "WireGuard-профиль слишком большой")
  else
    p ← profile_lines empty_slots (lines profile);
    address ← required_profile_value (s_address p) "Address";
    client_tunnel_address ← normalize_tunnel_address address;
    allowed ← required_profile_value (s_allowed_ips p) "AllowedIPs";
    let allowed_ips := join "," (trim <$> split ","%char allowed) in
    if negb (bool_decide (allowed_ips = ALLOWED_IPS))
    then Err (Msg "Gofro поддерживает AllowedIPs = 0.0.0.0/0")
    else
      keepalive ← required_profile_value (s_keepalive p) "PersistentKeepalive";
      persistent_keepalive ← with_context "PersistentKeepalive должен быть целым числом"
        (ok_or (parse_u16 keepalive) "invalid digit found in string");
      if negb (persistent_keepalive =? KEEPALIVE)
      then Err (Msg "Gofro поддерживает PersistentKeepalive = 10")
      else
        mtu_text ← required_profile_value (s_mtu p) "MTU";
        mtu ← with_context "MTU должен быть целым числом"
          (ok_or (parse_u16 mtu_text) "invalid digit found in string");
        if negb (existsb (Z.eqb mtu) [MTU; 1280; 1360])
        then Err (Msg "Gofro поддерживает MTU = 1379, 1280 или 1360")
        else
          e ← required_profile_value (s_endpoint p) "Endpoint";
          pub ← required_profile_value (s_public_key p) "PublicKey";
          priv ← required_profile_value (s_private_key p) "PrivateKey";
          nm ← normalize_server_name nm;
          let server := ServerProfile nm "" e pub (Some client_tunnel_address) (Some priv) None in
          _ ← validate_server server;
          Ok server.

(** ** Routing rules *)

Definition normalize_rule_name (name : string) : result string :=
  let name := trim name in
  if bool_decide (name = ""%string) || (64 <? char_count name) || has_control name
  then Err (Msg "название правила должно содержать от 1 до 64 символов") else Ok name.

Definition bad_label (label : string) : bool :=
  bool_decide (label = ""%string) || (63 <? slen label)
  || starts_with "-" label || ends_with "-" label
  || negb (forallb (fun b => is_ascii_alphanumeric b || eqb_ascii b "-"%char) (chars label)).

Definition normalize_domain (value : string) : result string :=
  let value := to_lowercase (trim_end_matches "."%char (trim value)) in
  ascii ← with_context "некорректное доменное имя" (ok_or (domain_to_ascii value) "idna");
  if bool_decide (ascii = ""%string) || (253 <? slen ascii)
     || existsb bad_label (split "."%char ascii)
  then Err (Msg "некорректное доменное имя") else Ok ascii.

Definition tag_char (b : ascii) : bool :=
  is_ascii_alphanumeric b || existsb (eqb_ascii b) ["!"%char; "-"%char; "_"%char].

Definition normalize_tag (value : string) : result string :=
  let value := to_ascii_lowercase (trim value) in
  if bool_decide (value = ""%string) || (64 <? slen value) || negb (forallb tag_char (chars value))
  then Err (Msg "некорректный тег GeoSite/GeoIP") else Ok value.

(** [std::mem::replace(seen.get_mut(index)?, true)] *)
Definition mark_seen (seen : list bool) (index : nat) (kind : string) : result (list bool) :=
  match seen !! index with
  | None => Err (Msg (kind +:+ " правило в порядке отсутствует"))
  | Some true => Err (Msg "правило в порядке указано несколько раз")
  | Some false => Ok (<[index := true]> seen)
  end.

Fixpoint check_order (domains ips : list bool) (order : list rule_ref) : result unit :=
  match order with
  | [] => Ok tt
  | RefDomain index :: order =>
      domains ← mark_seen domains index "domain";
      check_order domains ips order
  | RefIp index :: order =>
      ips ← mark_seen ips index "ip";
      check_order domains ips order
  end.

Definition fake_dns_net : option net := net_new (ipv4 198 18 0 0) 15.

Definition normalize_cidr (value : string) : result string :=
  network ← with_context "правило CIDR должно содержать корректную IPv4-сеть"
              (ok_or (net_parse (net := net) value) "invalid IP address syntax");
  fake_dns ← ok_or fake_dns_net "the fixed FakeDNS network is valid";
  if contains_ip network (Net.network fake_dns) || contains_ip fake_dns (Net.network network)
  then Err (Msg "диапазон FakeDNS 198.18.0.0/15 зарезервирован")
  else Ok (net_show (trunc network)).

Definition normalize_domain_rule (r : domain_rule) : result domain_rule :=
  nm ← normalize_rule_name (d_name r);
  m ← (match d_matcher r with
       | Exact value => v ← normalize_domain value; Ok (Exact v)
       | Suffix value => v ← normalize_domain value; Ok (Suffix v)
       | GeoSite value => v ← normalize_tag value; Ok (GeoSite v)
       end);
  Ok (DomainRule nm (d_enabled r) m (d_target r)).

Definition normalize_ip_rule (r : ip_rule) : result ip_rule :=
  nm ← normalize_rule_name (i_name r);
  m ← (match i_matcher r with
       | Cidr value => v ← normalize_cidr value; Ok (Cidr v)
       | GeoIp value => v ← normalize_tag value; Ok (GeoIp v)
       end);
  Ok (IpRule nm (i_enabled r) m (i_target r)).

Definition normalize_routing (rc : routing_config) : result routing_config :=
  if (MAX_RULES <? length (domain_rules rc))%nat || (MAX_RULES <? length (ip_rules rc))%nat
  then Err (Msg "допускается не более 128 правил каждого типа")
  else
    _ ← (match rule_order rc with
         | None => Ok tt
         | Some order =>
             if negb (length order =? length (domain_rules rc) + length (ip_rules rc))%nat
             then Err (Msg "порядок правил должен содержать каждое правило ровно один раз")
             else check_order (replicate (length (domain_rules rc)) false)
                    (replicate (length (ip_rules rc)) false) order
         end);
    ds ← mapM normalize_domain_rule (domain_rules rc);
    us ← mapM normalize_ip_rule (ip_rules rc);
    Ok (RoutingConfig ds us (default_target rc) (mode rc) (rule_order rc)).

(** ** Device exclusions *)

Definition normalize_exclusions (macs : list (list Z)) : result (list (list Z)) :=
  let macs := sort_dedup mac_le macs in
  _ ← ensure (length macs <=? 256)%nat "at most 256 device exclusions are allowed";
  Ok macs.

(** ** Loading and saving *)

Fixpoint load_servers (l : list server_profile) : result (list server_profile) :=
  match l with
  | [] => Ok []
  | s :: l =>
      nm ← normalize_server_name (name s);
      let s := ServerProfile nm (emoji s) (endpoint s) (public_key s) (client_tunnel_address s)
                 (client_private_key s) (management s) in
      _ ← validate_saved_server s;
      l ← load_servers l;
      Ok (s :: l)
  end.

(** [load]: [contents] is the file, [None] when it cannot be read. *)
Definition load (contents : option string) : result controller_config :=
  contents ← ok_or contents "failed to read configuration";
  c ← ok_or (of_json contents) "invalid configuration";
  ss ← load_servers (servers c);
  rc ← normalize_routing (routing c);
  macs ← normalize_exclusions (device_exclusions c);
  Ok (ControllerConfig (auto_update_enabled c) macs (vpn_enabled c) (active_server_key c) ss rc).

(** What [symlink_metadata] says of a path. *)
Record metadata := Metadata {
  is_file : bool;
  nlink : Z;
  mode_bits : Z;
  uid : Z;
}.

Definition load_committed (meta parent : option metadata) (contents : option string) : result controller_config :=
  meta ← ok_or meta "metadata";
  parent ← ok_or parent "metadata";
  _ ← ensure (is_file meta && (nlink meta =? 1) && (Z.land (mode_bits meta) 18 =? 0)
              && (uid meta =? uid parent)) "unsafe configuration file";
  load contents.

(** The steps of [save] that can fail, in their order. *)
Inductive save_step := SOpen | SProtect | SWrite | SSyncFile | SRename | SSyncParent.

#[global] Instance save_step_eq_dec : EqDecision save_step.
Proof. solve_decision. Defined.

(** The two names of the directory: the configuration and its temporary. *)
Record disk := Disk { target : option string; temporary : option string }.

(** [save], with the first step that fails, if one does.  [torn] is what a
    failed write left in the temporary file. *)
Definition save (fails : option save_step) (torn : string) (d : disk) (c : controller_config)
  : result unit * disk :=
  let failed s := bool_decide (fails = Some s) in
  if failed SOpen then (Err (Msg "failed to open"), d)
  else
    let d := Disk (target d) (Some ""%string) in
    if failed SProtect then (Err (Msg "failed to protect"), d)
    else if failed SWrite then (Err (Msg "failed to write"), Disk (target d) (Some torn))
    else
      let d := Disk (target d) (Some (to_json c)) in
      if failed SSyncFile then (Err (Msg "failed to sync configuration"), d)
      else if failed SRename then (Err (Msg "failed to replace"), d)
      else
        let d := Disk (temporary d) None in
        if failed SSyncParent
        then (Err (Mark PublishedSaveError (Msg "I/O error")), d)
        else (Ok tt, d).

(** ** Lemmas: the order of the rules *)

Definition all_refs (domains ips : nat) : list rule_ref :=
  (RefDomain <$> seq 0 domains) ++ (RefIp <$> seq 0 ips).

Lemma all_refs_length d i : length (all_refs d i) = (d + i)%nat.
Proof. unfold all_refs. by rewrite length_app, !length_fmap, !length_seq. Qed.

Definition unseen (domains ips : list bool) (r : rule_ref) : Prop :=
  match r with RefDomain i => domains !! i = Some false | RefIp i => ips !! i = Some false end.

Lemma mark_seen_ok seen i k seen' :
  mark_seen seen i k = Ok seen' <-> seen !! i = Some false /\ seen' = <[i := true]> seen.
Proof.
  unfold mark_seen. destruct (seen !! i) as [[] |]; split; try done; try (by intros [? _]).
  - by intros [= <-].
  - by intros [_ ->].
Qed.

Lemma check_order_ok order : forall domains ips,
  check_order domains ips order = Ok tt <-> NoDup order /\ Forall (unseen domains ips) order.
Proof.
  induction order as [| r order IH]; intros domains ips; cbn [check_order].
  { split; [by split; constructor | done]. }
  rewrite NoDup_cons, Forall_cons.
  destruct r as [i | i]; rewrite bind_ok; setoid_rewrite mark_seen_ok; setoid_rewrite IH.
  - split.
    + intros (? & [Hi ->] & Hnd & Hall). split_and!; [| done | done |].
      * intros Hin. apply (proj1 (Forall_forall _ _) Hall) in Hin. cbn in Hin.
        rewrite list_lookup_insert_eq in Hin; [done | by eapply lookup_lt_Some].
      * eapply Forall_impl; [exact Hall |]. intros [j | j]; cbn; [| done].
        intros [(-> & ? & _) | [_ ?]]%list_lookup_insert_Some; done.
    + intros [[Hnin Hnd] [Hi Hall]]. eexists. split; [done |]. split; [done |].
      apply Forall_forall. intros [j | j] Hin; pose proof (proj1 (Forall_forall _ _) Hall _ Hin) as Hj; [| done].
      cbn in *. rewrite list_lookup_insert_ne; [done |]. intros ->. done.
  - split.
    + intros (? & [Hi ->] & Hnd & Hall). split_and!; [| done | done |].
      * intros Hin. apply (proj1 (Forall_forall _ _) Hall) in Hin. cbn in Hin.
        rewrite list_lookup_insert_eq in Hin; [done | by eapply lookup_lt_Some].
      * eapply Forall_impl; [exact Hall |]. intros [j | j]; cbn; [done |].
        intros [(-> & ? & _) | [_ ?]]%list_lookup_insert_Some; done.
    + intros [[Hnin Hnd] [Hi Hall]]. eexists. split; [done |]. split; [done |].
      apply Forall_forall. intros [j | j] Hin; pose proof (proj1 (Forall_forall _ _) Hall _ Hin) as Hj; [done |].
      cbn in *. rewrite list_lookup_insert_ne; [done |]. intros ->. done.
Qed.

(** An order of the right length that passes the check is a permutation of all the rules. *)
Lemma check_order_permutation order d i :
  length order = (d + i)%nat ->
  check_order (replicate d false) (replicate i false) order = Ok tt <-> order ≡ₚ all_refs d i.
Proof.
  intros Hlen. rewrite check_order_ok. split.
  - intros [Hnd Hall]. apply submseteq_length_Permutation; [| rewrite all_refs_length; lia].
    apply NoDup_submseteq; [done |]. intros r Hr.
    apply (proj1 (Forall_forall _ _) Hall) in Hr. unfold all_refs.
    destruct r as [j | j]; cbn in Hr; apply lookup_replicate in Hr as [_ Hj]; apply elem_of_app;
      [left | right]; apply list_elem_of_fmap; exists j; (split; [done |]); apply elem_of_seq; lia.
  - intros Hp. assert (NoDup (all_refs d i)) as Hnd.
    { unfold all_refs. apply NoDup_app. split_and!.
      - apply NoDup_fmap; [by intros ? ? [=] | apply NoDup_seq].
      - intros r Hr1 Hr2. apply list_elem_of_fmap in Hr1 as (? & -> & _).
        by apply list_elem_of_fmap in Hr2 as (? & [=] & _).
      - apply NoDup_fmap; [by intros ? ? [=] | apply NoDup_seq]. }
    rewrite Hp. split; [done |]. apply Forall_forall. unfold all_refs.
    intros r [Hr | Hr]%elem_of_app; apply list_elem_of_fmap in Hr as (j & -> & Hj%elem_of_seq); cbn;
      apply lookup_replicate; split; (done || lia).
Qed.

(** ** Lemmas: normalising twice is normalising once *)

Lemma normalize_rule_name_idemp n n' : normalize_rule_name n = Ok n' -> normalize_rule_name n' = Ok n'.
Proof.
  unfold normalize_rule_name. case_match eqn:E; [done |]. intros [= <-].
  by rewrite trim_idemp, E.
Qed.

Lemma tag_char_printable a : tag_char a = true -> printable a.
Proof.
  unfold tag_char. intros [Ha | Ha]%orb_true_iff; [by apply alnum_printable |].
  cbn in Ha. unfold eqb_ascii in Ha. rewrite !orb_true_iff, !bool_decide_eq_true in Ha.
  destruct Ha as [-> | [-> | [-> | ?]]]; [by vm_compute | by vm_compute | by vm_compute | done].
Qed.

Lemma normalize_tag_idemp t t' : normalize_tag t = Ok t' -> normalize_tag t' = Ok t'.
Proof.
  unfold normalize_tag. case_match eqn:E; [done |]. intros [= <-].
  assert (Forall printable (chars (to_ascii_lowercase (trim t)))) as Hp.
  { apply orb_false_iff in E as [_ E]. apply negb_false_iff in E.
    apply Forall_forall. intros a Ha%list_elem_of_In. apply tag_char_printable.
    by apply (proj1 (forallb_forall _ _) E). }
  by rewrite (trim_printable _ Hp), to_ascii_lowercase_idemp, E.
Qed.

Lemma split_last_empty c l :
  last l = Some c -> exists p ps, split_bytes c l = p :: ps ++ [[]].
Proof.
  induction l as [| a l IH]; [done |]. intros Hl. cbn [split_bytes].
  destruct l as [| b l].
  - injection Hl as ->. unfold eqb_ascii. rewrite bool_decide_true by done. by exists [], [].
  - destruct (IH Hl) as (p & ps & ->). destruct (eqb_ascii a c); [by exists [], (p :: ps) | by eexists _, ps].
Qed.

Lemma join_forall (P : ascii -> Prop) c ls :
  P c -> Forall (Forall P) ls -> Forall P (join_bytes [c] ls).
Proof.
  intros Hc Hall. induction Hall as [| l ls Hl Hls IH]; [constructor |].
  destruct ls as [| k ls]; [done |]. rewrite join_bytes_cons.
  apply Forall_app. split; [done |]. by constructor.
Qed.

(** The laws of the Unicode parameters: lower-casing ASCII is ASCII lower-casing,
    and [domain_to_ascii] maps its own, lower-case, answers to themselves. *)
Hypothesis lowercase_ascii :
  forall s, Forall (fun a => code a < 128) (chars s) -> to_lowercase s = to_ascii_lowercase s.
Hypothesis idna_canonical :
  forall v a, domain_to_ascii v = Some a -> to_ascii_lowercase a = a /\ domain_to_ascii a = Some a.

Lemma good_label l :
  bad_label (str l) = false ->
  l <> [] /\ Forall printable l.
Proof.
  unfold bad_label. rewrite !orb_false_iff, bool_decide_eq_false, negb_false_iff, chars_str.
  intros [[[[Hne _] _] _] Hall]. split; [by intros -> |].
  apply Forall_forall. intros a Ha%list_elem_of_In.
  apply (proj1 (forallb_forall _ _) Hall) in Ha. apply orb_true_iff in Ha as [Ha | Ha].
  - by apply alnum_printable.
  - unfold eqb_ascii in Ha. apply bool_decide_eq_true in Ha as ->. by vm_compute.
Qed.

Lemma normalize_domain_idemp v v' : normalize_domain v = Ok v' -> normalize_domain v' = Ok v'.
Proof.
  unfold normalize_domain. intros Hn. inv_result. case_match eqn:E'; [done |]. injection Hn as ->.
  apply idna_canonical in E as [Hlow Hidem].
  pose proof E' as [_ Hlabels]%orb_false_iff. unfold split in Hlabels.
  assert (Forall (fun l => l <> [] /\ Forall printable l) (split_bytes "."%char (chars v'))) as Hgood.
  { apply Forall_forall. intros l Hl. apply good_label. apply not_true_iff_false. intros Hbad.
    apply not_true_iff_false in Hlabels. apply Hlabels, existsb_exists. exists (str l). split; [| done].
    apply list_elem_of_In, list_elem_of_fmap. by exists l. }
  assert (Forall printable (chars v')) as Hp.
  { rewrite <- (join_split "."%char (chars v')). apply join_forall; [by vm_compute |].
    eapply Forall_impl; [exact Hgood |]. by intros l [_ ?]. }
  rewrite (trim_printable _ Hp), trim_end_matches_none.
  - rewrite lowercase_ascii, Hlow, Hidem; [cbn [ok_or with_context mbind result_bind]; by rewrite E' |].
    eapply Forall_impl; [exact Hp |]. unfold printable. lia.
  - intros a Ha ->. apply split_last_empty in Ha as (p & ps & Hps). rewrite Hps in Hgood.
    apply Forall_cons in Hgood as [_ Hgood]. apply Forall_app in Hgood as [_ Hgood].
    by apply Forall_singleton in Hgood as [? _].
Qed.

Lemma contains_ip_trunc (n : net) ip : contains_ip (trunc n) ip = contains_ip n ip.
Proof.
  apply eq_bool_prop_intro. rewrite !Is_true_true, !contains_ip_spec, broadcast_trunc, network_trunc. done.
Qed.

Lemma normalize_cidr_idemp v v' : normalize_cidr v = Ok v' -> normalize_cidr v' = Ok v'.
Proof.
  unfold normalize_cidr. intros Hn. inv_result. case_match eqn:E'; [done |]. injection Hn as <-.
  rewrite parse_net_show. cbn [ok_or with_context mbind result_bind].
  rewrite E0. cbn [ok_or mbind result_bind].
  rewrite !contains_ip_trunc, network_trunc, E'. by rewrite (trunc_id (trunc r)) by apply trunc_truncated.
Qed.

Lemma normalize_domain_rule_idemp r r' :
  normalize_domain_rule r = Ok r' -> normalize_domain_rule r' = Ok r'.
Proof.
  unfold normalize_domain_rule. intros Hn. inv_result. cbn [d_name d_matcher d_enabled d_target].
  rewrite (normalize_rule_name_idemp _ _ E). cbn [mbind result_bind].
  destruct (d_matcher r); inv_result; cbn [mbind result_bind];
    rewrite ?(normalize_domain_idemp _ _ E1), ?(normalize_tag_idemp _ _ E1); done.
Qed.

Lemma normalize_ip_rule_idemp r r' :
  normalize_ip_rule r = Ok r' -> normalize_ip_rule r' = Ok r'.
Proof.
  unfold normalize_ip_rule. intros Hn. inv_result. cbn [i_name i_matcher i_enabled i_target].
  rewrite (normalize_rule_name_idemp _ _ E). cbn [mbind result_bind].
  destruct (i_matcher r); inv_result; cbn [mbind result_bind];
    rewrite ?(normalize_cidr_idemp _ _ E1), ?(normalize_tag_idemp _ _ E1); done.
Qed.

Lemma mapM_idemp {A} (f : A -> result A) l k :
  (forall a b, f a = Ok b -> f b = Ok b) -> mapM f l = Ok k -> mapM f k = Ok k.
Proof.
  intros Hf. rewrite !result_mapM_ok. induction 1; constructor; eauto.
Qed.

Lemma mapM_result_length {A B} (f : A -> result B) l k : mapM f l = Ok k -> length k = length l.
Proof. rewrite result_mapM_ok. intros Hk. symmetry. by eapply Forall2_length. Qed.

Lemma normalize_routing_idemp rc rc' : normalize_routing rc = Ok rc' -> normalize_routing rc' = Ok rc'.
Proof.
  unfold normalize_routing. case_match eqn:E; [done |]. intros Hn. inv_result.
  cbn [domain_rules ip_rules rule_order default_target mode].
  pose proof (mapM_result_length _ _ _ E1) as L1. pose proof (mapM_result_length _ _ _ E2) as L2.
  rewrite L1, L2, E. destruct r. rewrite E0. cbn [mbind result_bind].
  rewrite (mapM_idemp _ _ _ normalize_domain_rule_idemp E1). cbn [mbind result_bind].
  by rewrite (mapM_idemp _ _ _ normalize_ip_rule_idemp E2).
Qed.

(** ** Lemmas: exclusions *)

Lemma normalize_exclusions_ok l m :
  normalize_exclusions l = Ok m ->
  StronglySorted mac_le m /\ NoDup m /\ (length m <= 256)%nat /\ forall x, x ∈ m <-> x ∈ l.
Proof.
  unfold normalize_exclusions. intros Hn. inv_result.
  destruct (sort_dedup_sorted mac_le l) as [Hs Hnd].
  split_and!; [done | done | by apply Nat.leb_le |]. intros x. apply (sort_dedup_elem mac_le).
Qed.

Lemma normalize_exclusions_idemp l m : normalize_exclusions l = Ok m -> normalize_exclusions m = Ok m.
Proof.
  intros Hn. apply normalize_exclusions_ok in Hn as (Hs & Hnd & Hlen & _).
  unfold normalize_exclusions.
  rewrite (sort_dedup_id mac_le) by done. by rewrite (proj2 (Nat.leb_le _ _) Hlen).
Qed.

(** ** Saving and loading *)

Lemma normalize_server_name_idemp n n' :
  normalize_server_name n = Ok n' -> normalize_server_name n' = Ok n'.
Proof.
  unfold normalize_server_name. intros Hn. inv_result. by rewrite trim_idemp, E.
Qed.

Lemma load_servers_idemp l k : load_servers l = Ok k -> load_servers k = Ok k.
Proof.
  revert k. induction l as [| s l IH]; intros k Hk; cbn [load_servers] in Hk; inv_result; [done |].
  cbn [load_servers name]. rewrite (normalize_server_name_idemp _ _ E).
  cbn [mbind result_bind name emoji endpoint public_key client_tunnel_address client_private_key management].
  rewrite E0. cbn [mbind result_bind]. by rewrite (IH _ E1).
Qed.

Lemma load_servers_management l k :
  load_servers l = Ok k -> Forall2 (fun a b => management b = management a) l k.
Proof.
  revert k. induction l as [| s l IH]; intros k Hk; cbn [load_servers] in Hk; inv_result; [done |].
  constructor; [done |]. by apply IH.
Qed.

Lemma load_typed contents c :
  (forall s c, of_json s = Some c -> config_typed c) -> load contents = Ok c -> config_typed c.
Proof.
  intros Hlaw Hl. unfold load in Hl. inv_result. apply Hlaw in E0 as [Hm Hs].
  apply load_servers_management in E1. apply normalize_exclusions_ok in E3 as (_ & _ & _ & Hin).
  split; cbn [device_exclusions servers].
  - apply Forall_forall. intros m Hm'%Hin. exact (proj1 (Forall_forall _ _) Hm m Hm').
  - clear Hm Hin. revert Hs. induction E1 as [| a b l k Hab _ IH]; intros Hs; [done |].
    apply Forall_cons in Hs as [Ha Hs]. constructor; [| by apply IH].
    unfold server_typed in *. by rewrite Hab.
Qed.

(** serde_json only reads values of the type, and reads back what it writes. *)
Hypothesis json_typed : forall s c, of_json s = Some c -> config_typed c.
Hypothesis json_roundtrip : forall c, config_typed c -> of_json (to_json c) = Some c.

(** C31. Loading a configuration is idempotent through the disk.  Whatever file
    [load] accepts - however its names are spaced, its domains and tags
    spelt, its exclusions ordered or repeated -, saving what it returns and
    loading that again succeeds and gives the same configuration. *)
Theorem reload_saved_configuration contents c torn d :
  load contents = Ok c ->
  exists d', save None torn d c = (Ok tt, d') /\ load (target d') = Ok c.
Proof.
  intros Hl. pose proof (load_typed _ _ json_typed Hl) as Htyped. revert Hl.
  unfold load at 1. intros Hl. inv_result. eexists. split; [reflexivity |].
  cbn [target temporary]. unfold load. cbn [ok_or mbind result_bind].
  rewrite json_roundtrip by done.
  cbn [ok_or mbind result_bind servers routing device_exclusions auto_update_enabled vpn_enabled active_server_key].
  rewrite (load_servers_idemp _ _ E1). cbn [mbind result_bind].
  rewrite (normalize_routing_idemp _ _ E2). cbn [mbind result_bind].
  by rewrite (normalize_exclusions_idemp _ _ E3).
Qed.

(** Saving is atomic and its error says which side of the commit it is on.
    Whichever step of [save] fails first, and whatever a failed write leaves
    behind, the configuration file holds either its old contents or the new
    configuration in full; it holds the new one exactly when [save] succeeds or
    reports [PublishedSaveError]. *)
Theorem save_is_atomic fails torn d c :
  let '(r, d') := save fails torn d c in
  let published := match r with Ok _ => true | Err e => error_is PublishedSaveError e end in
  target d' = (if published then Some (to_json c) else target d) /\
  (published = true <-> fails = None \/ fails = Some SSyncParent).
Proof.
  destruct fails as [[] |]; cbn; (split; [done |]); split;
    try done; try (intros [Hf | Hf]; discriminate Hf); intros _; [by right | by left].
Qed.

(** Normalised routing is well-formed.  When [normalize_routing] accepts a
    routing configuration, an explicit rule order names every rule exactly
    once; no rule is added, dropped, switched or retargeted; there are at most
    128 rules of each kind; and normalising the result again changes nothing. *)
Theorem normalize_routing_canonical rc rc' :
  normalize_routing rc = Ok rc' ->
  match rule_order rc' with
  | Some order => order ≡ₚ all_refs (length (domain_rules rc')) (length (ip_rules rc'))
  | None => True
  end /\
  (length (domain_rules rc') <= MAX_RULES)%nat /\ (length (ip_rules rc') <= MAX_RULES)%nat /\
  Forall2 (fun r r' => d_enabled r' = d_enabled r /\ d_target r' = d_target r) (domain_rules rc) (domain_rules rc') /\
  Forall2 (fun r r' => i_enabled r' = i_enabled r /\ i_target r' = i_target r) (ip_rules rc) (ip_rules rc') /\
  default_target rc' = default_target rc /\ mode rc' = mode rc /\ rule_order rc' = rule_order rc /\
  normalize_routing rc' = Ok rc'.
Proof.
  intros Hn. pose proof (normalize_routing_idemp _ _ Hn) as Hidem. revert Hn.
  unfold normalize_routing at 1. case_match eqn:E; [done |]. intros Hn. inv_result.
  cbn [domain_rules ip_rules rule_order default_target mode].
  apply orb_false_iff in E as [Ed Ei]. apply Nat.ltb_ge in Ed, Ei.
  pose proof (mapM_result_length _ _ _ E1) as L1. pose proof (mapM_result_length _ _ _ E2) as L2.
  split_and!; try done; try lia.
  - destruct (rule_order rc) as [order |]; [| done]. case_match eqn:El; [done |].
    apply negb_false_iff, Nat.eqb_eq in El. rewrite L1, L2. destruct r.
    by apply check_order_permutation.
  - apply result_mapM_ok in E1. eapply Forall2_impl; [exact E1 |]. intros a b Hab.
    unfold normalize_domain_rule in Hab. by inv_result.
  - apply result_mapM_ok in E2. eapply Forall2_impl; [exact E2 |]. intros a b Hab.
    unfold normalize_ip_rule in Hab. by inv_result.
Qed.
(** ** The errors of the checks carry no marker *)

Lemma normalize_server_name_plain nm : plain (normalize_server_name nm).
Proof. unfold normalize_server_name, validate_server_name. repeat plain_step. Qed.

Lemma normalize_tunnel_address_plain a : plain (normalize_tunnel_address a).
Proof. unfold normalize_tunnel_address. repeat plain_step. Qed.

Lemma validate_server_plain s : plain (validate_server s).
Proof.
  unfold validate_server, validate_saved_server, validate_server_name, validate_emoji, validate_endpoint,
    validate_wireguard_key, validate_management, parse_host_key.
  repeat plain_step; apply normalize_tunnel_address_plain.
Qed.

Lemma set_parameter_plain p key value : plain (set_parameter p key value).
Proof. unfold set_parameter, set_profile_value. repeat plain_step. Qed.

#[local] Hint Resolve set_parameter_plain normalize_server_name_plain normalize_tunnel_address_plain validate_server_plain : plain.

Lemma profile_lines_plain ls : forall p, plain (profile_lines p ls).
Proof. induction ls as [| l ls IH]; intros p; cbn [profile_lines]; unfold profile_line; repeat plain_step. Qed.

Lemma parse_server_profile_plain nm profile : plain (parse_server_profile nm profile).
Proof. unfold parse_server_profile, required_profile_value. repeat plain_step. apply profile_lines_plain. Qed.

Lemma check_order_plain order : forall domains ips, plain (check_order domains ips order).
Proof. induction order as [| [] order IH]; intros domains ips; cbn [check_order]; unfold mark_seen; repeat plain_step. Qed.

Lemma normalize_routing_plain rc : plain (normalize_routing rc).
Proof.
  unfold normalize_routing, normalize_domain_rule, normalize_ip_rule, normalize_rule_name, normalize_domain, normalize_tag,
    normalize_cidr.
  repeat plain_step. apply check_order_plain.
Qed.

Lemma normalize_exclusions_plain macs : plain (normalize_exclusions macs).
Proof. unfold normalize_exclusions. repeat plain_step. Qed.
End Config.

(** ** Examples *)

Definition sample_to_json (c : controller_config) : string := str (bits_of (countable.encode c)).
Definition sample_of_json (s : string) : option controller_config :=
  c ← countable.decode (of_bits (chars s));
  if decide (config_typed c) then Some c else None.

Lemma sample_json_typed s c : sample_of_json s = Some c -> config_typed c.
Proof.
  unfold sample_of_json. destruct (countable.decode _) as [c' |]; cbn; [| done].
  case_decide; [| done]. by intros [= <-].
Qed.

Lemma sample_json_roundtrip c : config_typed c -> sample_of_json (sample_to_json c) = Some c.
Proof.
  intros Hc. unfold sample_of_json, sample_to_json. rewrite chars_str, of_bits_of, countable.decode_encode. cbn.
  by rewrite decide_True.
Qed.

Definition sample_idna (v : string) : option string :=
  if forallb (fun a => code a <? 128) (chars v) then Some (to_ascii_lowercase v) else None.

Lemma lower_ascii a : (code (to_ascii_lower a) <? 128) = (code a <? 128).
Proof.
  unfold to_ascii_lower. destruct (is_ascii_upper a) eqn:E; [| done].
  unfold is_ascii_upper, in_range in E. rewrite code_of_code by lia. lia.
Qed.

Lemma sample_idna_canonical v a :
  sample_idna v = Some a -> to_ascii_lowercase a = a /\ sample_idna a = Some a.
Proof.
  unfold sample_idna. case_match eqn:E; [| done]. intros [= <-].
  rewrite to_ascii_lowercase_idemp. split; [done |].
  replace (forallb _ _) with true; [done |]. symmetry. rewrite <- E. unfold to_ascii_lowercase.
  rewrite chars_str. clear E. induction (chars v) as [| x l IH]; [done |].
  cbn [fmap list_fmap forallb]. by rewrite lower_ascii, <- IH.
Qed.

Definition sample_config : controller_config :=
  ControllerConfig false [[2; 0; 0; 0; 0; 9]; [2; 0; 0; 0; 0; 1]; [2; 0; 0; 0; 0; 9]] false None []
    (RoutingConfig [DomainRule " Home " true (Suffix "Example.COM.") Direct]
       [IpRule "Lan" true (Cidr "10.1.2.3/8") Vpn] Vpn Rules (Some [RefIp 0; RefDomain 0])).

Lemma normalize_routing_canonical_witness :
  match normalize_routing (net := PrefixNet.t) to_ascii_lowercase sample_idna (routing sample_config) with
  | Ok rc => normalize_routing (net := PrefixNet.t) to_ascii_lowercase sample_idna rc = Ok rc
  | Err _ => False
  end.
Proof.
  destruct (normalize_routing _ _ _) as [rc | e] eqn:E; [| by vm_compute in E].
  apply (normalize_routing_canonical to_ascii_lowercase sample_idna
    ltac:(done) sample_idna_canonical (routing sample_config) rc E).
Defined.

(** What loading it gives: exclusions sorted and deduplicated, names and rules normalised. *)
Definition sample_loaded : controller_config :=
  ControllerConfig false [[2; 0; 0; 0; 0; 1]; [2; 0; 0; 0; 0; 9]] false None []
    (RoutingConfig [DomainRule "Home" true (Suffix "example.com") Direct]
       [IpRule "Lan" true (Cidr "10.0.0.0/8") Vpn] Vpn Rules (Some [RefIp 0; RefDomain 0])).

Lemma sample_load_config :
  load (net := PrefixNet.t) to_ascii_lowercase sample_idna sample_of_json
    (Some (sample_to_json sample_config)) = Ok sample_loaded.
Proof.
  assert (config_typed sample_config) as Hty by (apply (proj1 (bool_decide_eq_true _)); by vm_compute).
  unfold load. cbn [ok_or mbind result_bind]. rewrite sample_json_roundtrip by done.
  generalize (sample_to_json sample_config). intros _. by vm_compute.
Qed.

Lemma reload_saved_configuration_witness :
  exists d, load (net := PrefixNet.t) to_ascii_lowercase sample_idna sample_of_json
              (target d) = Ok sample_loaded.
Proof.
  destruct (reload_saved_configuration (net := PrefixNet.t) to_ascii_lowercase
    sample_idna sample_to_json sample_of_json ltac:(done) sample_idna_canonical
    sample_json_typed sample_json_roundtrip _ sample_loaded "" (Disk None None) sample_load_config)
    as (d & _ & Hd).
  by exists d.
Defined.
