(* ===== verification/Routing.v ===== *)
(** * The routing policy (crates/gofro-agent/src/routing.rs)

    Which way a domain, an address, or an address known under a domain goes.
    An index that is out of range panics in Rust; the functions that index
    return [None] then, and [compiled_policy_total] shows that a compiled
    policy of a normalised configuration never does. *)

From stdpp Require Import base gmap strings list.
From Stdlib Require Import Ascii ZArith Lia.
From S2P Require Import Prelude RustStd Net Model Stats GeoWire GeoData Config.

Section Routing.
Context {net : Type} `{IpnetLaws net}.
Context {rx : Type} (rx_build : Z -> Z -> string -> option rx) (rx_is_match : rx -> string -> bool).

#[local] Notation geodata := (GeoData.geodata (net := net) (rx := rx)).

(** [LAN_RANGES]: the seven parsed networks. *)
Definition lan_range_texts : list string :=
  ["10.0.0.0/8"; "127.0.0.0/8"; "169.254.0.0/16"; "172.16.0.0/12"; "192.168.0.0/16"; "224.0.0.0/4";
   "255.255.255.255/32"]%string.

Definition LAN_RANGES : list net := omap (net_parse (net := net)) lan_range_texts.

Definition is_lan_destination (ip : Z) : bool := existsb (fun range => contains_ip range ip) LAN_RANGES.

Record routing_policy := RoutingPolicy {
  config : routing_config;
  geo : geodata;
  compiled_ip_rules : list (option net);
}.

(** ** Compilation *)

Definition compile_domain_rule (mode : routing_mode) (g : geodata) (r : domain_rule) : result unit :=
  match d_matcher r with
  | GeoSite value =>
      if bool_decide (mode = Rules) && d_enabled r && negb (has_site g value)
      then Err (Msg ("GeoSite-тег " +:+ value +:+ " отсутствует в geosite.dat")) else Ok tt
  | _ => Ok tt
  end.

Definition compile_ip_rule (mode : routing_mode) (g : geodata) (r : ip_rule)
  : result (option net) :=
  match i_matcher r with
  | Cidr value => with_context "invalid normalized CIDR"
                    (Some <$> ok_or (net_parse value) "invalid IP address syntax")
  | GeoIp value =>
      if bool_decide (mode = Rules) && i_enabled r && negb (has_ip g value)
      then Err (Msg ("GeoIP-тег " +:+ value +:+ " отсутствует в geoip.dat")) else Ok None
  end.

Definition compile (up_sites up_ips : nat -> bool) (c : routing_config) (g : geodata) : result routing_policy :=
  g ← select rx_build up_sites up_ips g c;
  _ ← mapM (compile_domain_rule (mode c) g) (domain_rules c);
  ips ← mapM (compile_ip_rule (mode c) g) (ip_rules c);
  Ok (RoutingPolicy c g ips).

(** ** Matching *)

Definition rule_refs (p : routing_policy) : list rule_ref :=
  match rule_order (config p) with
  | Some order => order
  | None => all_refs (length (domain_rules (config p))) (length (ip_rules (config p)))
  end.

Definition suffix_matches (value domain : string) : bool :=
  bool_decide (domain = value)
  || match strip_suffix value domain with Some prefix => ends_with "." prefix | None => false end.

Definition matches_domain (p : routing_policy) (r : domain_rule) (domain : string) : bool :=
  match d_matcher r with
  | Exact value => bool_decide (domain = value)
  | Suffix value => suffix_matches value domain
  | GeoSite value => matches_site rx_is_match (geo p) value domain
  end.

Definition policy_matches_ip (p : routing_policy) (index : nat) (ip : Z) : option bool :=
  r ← ip_rules (config p) !! index;
  match i_matcher r with
  | Cidr _ => n ← compiled_ip_rules p !! index;
              Some (match n with Some n => contains_ip n ip | None => false end)
  | GeoIp value => Some (matches_ip (geo p) value ip)
  end.

(** [iter.find_map(f)] where [f] can panic. *)
Fixpoint try_find_map {A B} (f : A -> option (option B)) (l : list A) : option (option B) :=
  match l with
  | [] => Some None
  | a :: l => o ← f a; match o with Some b => Some (Some b) | None => try_find_map f l end
  end.

Definition configured_domain_target (p : routing_policy) (domain : string) : option (route_target * string) :=
  let rules := omap (fun ref => match ref with
                                | RefDomain index => domain_rules (config p) !! index
                                | RefIp _ => None
                                end) (rule_refs p) in
  (fun r => (d_target r, d_name r)) <$> find_first (fun r => d_enabled r && matches_domain p r domain) rules.

Definition domain_target (p : routing_policy) (domain : string) : option (route_target * string) :=
  match mode (config p) with Rules => configured_domain_target p domain | All => None end.

Definition ip_rule_indices (p : routing_policy) : list nat :=
  match mode (config p) with
  | All => []
  | Rules => omap (fun ref => match ref with RefIp index => Some index | RefDomain _ => None end) (rule_refs p)
  end.

Definition effective_fallback (p : routing_policy) : route_target :=
  match mode (config p) with All => Vpn | Rules => default_target (config p) end.

(** The closure of [ip_target]. *)
Definition index_target (p : routing_policy) (ip : Z) (index : nat) : option (option (route_target * option string)) :=
  r ← ip_rules (config p) !! index;
  if i_enabled r then
    m ← policy_matches_ip p index ip;
    Some (if m : bool then Some (i_target r, Some (i_name r)) else None)
  else Some None.

Definition ip_target (p : routing_policy) (ip : Z) : option (route_target * option string) :=
  if is_lan_destination ip then Some (Direct, Some "Локальная сеть"%string)
  else match mode (config p) with
       | All => Some (Vpn, None)
       | Rules =>
           found ← try_find_map (index_target p ip) (ip_rule_indices p);
           Some (default (effective_fallback p, None) found)
       end.

(** The closure of [target]: what one reference says. *)
Definition ref_target (p : routing_policy) (domain : string) (ip : Z) (ref : rule_ref)
  : option (option route_target) :=
  match ref with
  | RefDomain index =>
      Some (r ← domain_rules (config p) !! index;
            if d_enabled r && matches_domain p r domain then Some (d_target r) else None)
  | RefIp index =>
      match ip_rules (config p) !! index with
      | None => Some None
      | Some r =>
          if i_enabled r then
            m ← policy_matches_ip p index ip;
            Some (if m : bool then Some (i_target r) else None)
          else Some None
      end
  end.

Definition target (p : routing_policy) (domain : string) (ip : Z) : option route_target :=
  if is_lan_destination ip then Some Direct
  else match mode (config p) with
       | All => Some Vpn
       | Rules =>
           found ← try_find_map (ref_target p domain ip) (rule_refs p);
           Some (default (effective_fallback p) found)
       end.

Definition rank (t : route_target) : Z :=
  match t with Block => 0 | Direct => 1 | Vpn => 2 | Warp => 3 end.

Definition protect (left right : route_target) : route_target :=
  if rank right <=? rank left then left else right.

(** The loop of [dns_target]. *)
Fixpoint dns_loop (p : routing_policy) (domain : string) (possible : route_target) (refs : list rule_ref)
  : option route_target :=
  match refs with
  | [] => Some (protect possible (default_target (config p)))
  | RefDomain index :: refs =>
      match domain_rules (config p) !! index with
      | Some r => if d_enabled r && matches_domain p r domain then Some (protect possible (d_target r))
                  else dns_loop p domain possible refs
      | None => dns_loop p domain possible refs
      end
  | RefIp index :: refs =>
      match ip_rules (config p) !! index with
      | Some r =>
          if i_enabled r then
            let possible := protect possible (i_target r) in
            n ← compiled_ip_rules p !! index;
            if match n with Some n => prefix_len n =? 0 | None => false end then Some possible
            else dns_loop p domain possible refs
          else dns_loop p domain possible refs
      | None => dns_loop p domain possible refs
      end
  end.

Definition dns_target (p : routing_policy) (domain : string) : option route_target :=
  match mode (config p) with All => Some Vpn | Rules => dns_loop p domain Block (rule_refs p) end.

Definition uses_warp (p : routing_policy) : bool :=
  bool_decide (mode (config p) = Rules)
  && (bool_decide (default_target (config p) = Warp)
      || existsb (fun r => d_enabled r && bool_decide (d_target r = Warp)) (domain_rules (config p))
      || existsb (fun r => i_enabled r && bool_decide (i_target r = Warp)) (ip_rules (config p))).

Inductive test_scope := ScopeIp | ScopeDomainPreview.

Record test_result := TestResult {
  t_value : string;
  t_target : route_target;
  t_matched_rule : option string;
  t_scope : test_scope;
}.

(** [test]; the outer [None] is a panic. *)
Definition test (to_lowercase : string -> string) (domain_to_ascii : string -> option string)
  (p : routing_policy) (value : string) : option (result test_result) :=
  let value := trim value in
  match parse_ipv4 value with
  | Some ip =>
      '(t, rule) ← ip_target p ip;
      Some (Ok (TestResult (show_ipv4 ip) t rule ScopeIp))
  | None =>
      Some (domain ← normalize_domain to_lowercase domain_to_ascii value;
            let '(t, rule) := match domain_target p domain with
                              | Some (t, rule) => (t, Some rule)
                              | None => (effective_fallback p, None)
                              end in
            Ok (TestResult domain t rule ScopeDomainPreview))
  end.

(** ** What a compiled policy is made of *)

Lemma compile_inv us ui c g p :
  compile us ui c g = Ok p ->
  config p = c /\ select rx_build us ui g c = Ok (geo p)
  /\ Forall (fun r => compile_domain_rule (mode c) (geo p) r = Ok tt) (domain_rules c)
  /\ Forall2 (fun r n => compile_ip_rule (mode c) (geo p) r = Ok n) (ip_rules c) (compiled_ip_rules p).
Proof.
  unfold compile. intros Hc. inv_result. cbn.
  match goal with
  | Hd : mapM (compile_domain_rule _ _) _ = Ok _, Hi : mapM (compile_ip_rule _ _) _ = Ok _ |- _ =>
      apply result_mapM_ok in Hd; apply result_mapM_ok in Hi; rename Hd into Hdom; rename Hi into Hip
  end.
  split_and!; try done. apply Forall_forall. intros rule Hr.
  apply list_elem_of_lookup in Hr as [i Hi].
  destruct (Forall2_lookup_l _ _ _ _ _ Hdom Hi) as ([] & _ & Hok). done.
Qed.

(** The compiled network of each rule. *)
Definition compiled_ok (p : routing_policy) : Prop :=
  Forall2 (fun r n => match i_matcher r with Cidr v => n = net_parse v | GeoIp _ => n = None end)
    (ip_rules (config p)) (compiled_ip_rules p).

Lemma compile_compiled us ui c g p : compile us ui c g = Ok p -> compiled_ok p.
Proof.
  intros (<- & _ & _ & Hall)%compile_inv. eapply Forall2_impl; [exact Hall |].
  intros rule n. unfold compile_ip_rule. destruct (i_matcher rule) as [v | v].
  - intros Hr. inv_result. destruct (net_parse v); cbn in *; [by injection Hr | done].
  - case_match; [done |]. by intros [= <-].
Qed.

(** ** The meaning of a rule, read off the configuration *)

(** The domain pattern covers the domain. *)
Definition domain_covered (p : routing_policy) (m : domain_match) (domain : string) : Prop :=
  match m with
  | Exact v => domain = v
  | Suffix v => domain = v \/ exists label, domain = label +:+ "." +:+ v
  | GeoSite tag => matches_site rx_is_match (geo p) tag domain = true
  end.

(** The address pattern covers the address. *)
Definition address_covered (p : routing_policy) (m : ip_match) (ip : Z) : Prop :=
  match m with
  | Cidr v => exists n, net_parse v = Some n /\ covers n ip
  | GeoIp tag => matches_ip (geo p) tag ip = true
  end.

(** The rule a reference names is enabled and covers the connection: it sends it to [t]. *)
Inductive decides (p : routing_policy) (domain : string) (ip : Z) : rule_ref -> route_target -> Prop :=
| decides_domain i r : domain_rules (config p) !! i = Some r -> d_enabled r = true ->
    domain_covered p (d_matcher r) domain -> decides p domain ip (RefDomain i) (d_target r)
| decides_ip i r : ip_rules (config p) !! i = Some r -> i_enabled r = true ->
    address_covered p (i_matcher r) ip -> decides p domain ip (RefIp i) (i_target r).

Definition undecided (p : routing_policy) (domain : string) (ip : Z) (ref : rule_ref) : Prop :=
  forall t, ~ decides p domain ip ref t.

(** The first reference that decides wins; the default target is left otherwise. *)
Definition first_decision (p : routing_policy) (domain : string) (ip : Z) (refs : list rule_ref)
  (t : route_target) : Prop :=
  (exists before ref after, refs = before ++ ref :: after /\ Forall (undecided p domain ip) before
     /\ decides p domain ip ref t)
  \/ (Forall (undecided p domain ip) refs /\ t = default_target (config p)).

Lemma suffix_matches_spec v domain :
  suffix_matches v domain = true <-> domain = v \/ exists label, domain = label +:+ "." +:+ v.
Proof.
  unfold suffix_matches. rewrite orb_true_iff, bool_decide_eq_true. f_equiv. split.
  - destruct (strip_suffix v domain) as [pre |] eqn:E; [| done].
    apply strip_suffix_Some in E as ->. unfold ends_with.
    intros [lbl Hl]%bool_decide_eq_true. apply strip_suffix_Some in Hl as ->.
    exists lbl. by rewrite <- string_app_assoc.
  - intros [lbl ->]. rewrite string_app_assoc. rewrite (proj2 (strip_suffix_Some v _ (lbl +:+ "."))) by done.
    unfold ends_with. apply bool_decide_eq_true. exists lbl. by apply strip_suffix_Some.
Qed.

Lemma matches_domain_spec p r domain :
  matches_domain p r domain = true <-> domain_covered p (d_matcher r) domain.
Proof.
  unfold matches_domain, domain_covered. destruct (d_matcher r) as [v | v | v]; [| | done].
  - apply bool_decide_eq_true.
  - apply suffix_matches_spec.
Qed.

Lemma matches_ip_spec p i r ip :
  compiled_ok p -> ip_rules (config p) !! i = Some r ->
  exists b, policy_matches_ip p i ip = Some b /\ (b = true <-> address_covered p (i_matcher r) ip).
Proof.
  intros Hc Hi. destruct (Forall2_lookup_l _ _ _ _ _ Hc Hi) as (n & Hn & Heq).
  unfold policy_matches_ip. rewrite Hi. cbn. destruct (i_matcher r) as [v | v]; [| by eauto].
  rewrite Hn. cbn. eexists. split; [done |]. subst n. destruct (net_parse v) as [n |].
  - rewrite covers_contains. split; [by eauto | by intros (? & [= <-] & ?)].
  - split; [done | by intros (? & ? & _)].
Qed.

(** A reference decides at most one target. *)
Lemma decides_functional p domain ip ref t u :
  decides p domain ip ref t -> decides p domain ip ref u -> t = u.
Proof. destruct 1; inversion 1; by simplify_eq. Qed.

Lemma ref_target_spec p domain ip ref :
  compiled_ok p ->
  exists o, ref_target p domain ip ref = Some o
    /\ match o with Some t => decides p domain ip ref t | None => undecided p domain ip ref end.
Proof.
  intros Hc. destruct ref as [i | i]; cbn [ref_target].
  - eexists. split; [done |]. destruct (domain_rules (config p) !! i) as [r |] eqn:Hi; cbn.
    + destruct (d_enabled r) eqn:He; cbn; [destruct (matches_domain p r domain) eqn:Hm |].
      * apply matches_domain_spec in Hm. by constructor.
      * intros t Ht. inversion Ht; simplify_eq. rewrite <- matches_domain_spec in *. congruence.
      * intros t Ht. inversion Ht; simplify_eq. congruence.
    + intros t Ht. inversion Ht; simplify_eq.
  - destruct (ip_rules (config p) !! i) as [r |] eqn:Hi.
    + destruct (i_enabled r) eqn:He.
      * destruct (matches_ip_spec p i r ip Hc Hi) as (b & -> & Hb). cbn. eexists. split; [done |].
        destruct b; [by constructor; [| | apply Hb] |].
        intros t Ht. inversion Ht; simplify_eq. naive_solver.
      * eexists. split; [done |]. intros t Ht. inversion Ht; simplify_eq. congruence.
    + eexists. split; [done |]. intros t Ht. inversion Ht; simplify_eq.
Qed.

Lemma search_first_decision p domain ip refs :
  compiled_ok p ->
  exists found, try_find_map (ref_target p domain ip) refs = Some found
    /\ first_decision p domain ip refs (default (default_target (config p)) found).
Proof.
  intros Hc. induction refs as [| ref refs IH]; cbn [try_find_map].
  { exists None. split; [done |]. right. by split. }
  destruct (ref_target_spec p domain ip ref Hc) as ([t |] & -> & Ht); cbn.
  - exists (Some t). split; [done |]. left. by exists [], ref, refs.
  - destruct IH as (found & -> & Hf). exists found. split; [done |].
    destruct Hf as [(b & r & a & -> & Hb & Hr) | [Hall Hd]].
    + left. exists (ref :: b), r, a. split_and!; [done | by constructor | done].
    + right. split; [by constructor | done].
Qed.

(** C28. The routing decision of a compiled policy always exists and is the configured one: LAN
    destinations go directly, everything else goes through the VPN in the mode "all", and in the
    mode "rules" the first enabled rule, in the configured order of domain and address rules
    together, that covers the domain or the address decides, and the default target when none does. *)
Theorem target_first_match us ui c g p domain ip :
  compile us ui c g = Ok p ->
  exists t, target p domain ip = Some t /\
    if is_lan_destination ip then t = Direct
    else match mode c with
         | All => t = Vpn
         | Rules => first_decision p domain ip (rule_refs p) t
         end.
Proof.
  intros Hc. pose proof (compile_compiled _ _ _ _ _ Hc) as Hok. apply compile_inv in Hc as (<- & _).
  unfold target. destruct (is_lan_destination ip); [by exists Direct |].
  destruct (mode (config p)) eqn:Hm; [| by exists Vpn].
  destruct (search_first_decision p domain ip (rule_refs p) Hok) as (found & Hs & Hd).
  exists (default (default_target (config p)) found). split; [| done].
  unfold effective_fallback. rewrite Hm. by rewrite Hs.
Qed.

(** ** DNS: the resolver path is at least as protected as the connection's *)

Lemma rank_protect a b : rank (protect a b) = Z.max (rank a) (rank b).
Proof. unfold protect. case_match eqn:E; lia. Qed.

Lemma first_decision_cons p domain ip ref refs t :
  first_decision p domain ip (ref :: refs) t ->
  decides p domain ip ref t \/ undecided p domain ip ref /\ first_decision p domain ip refs t.
Proof.
  intros [([| ref' b] & r & a & Heq & Hb & Hr) | [Hall ->]].
  - injection Heq as <- <-. by left.
  - injection Heq as <- ->. inversion Hb; subst. right. split; [done |]. left. by exists b, r, a.
  - inversion Hall; subst. right. split; [done |]. by right.
Qed.

Lemma dns_loop_monotone p domain refs : forall possible,
  compiled_ok p -> exists d, dns_loop p domain possible refs = Some d /\ rank possible <= rank d.
Proof.
  intros possible Hc. revert possible. induction refs as [| ref refs IH]; intros possible.
  { eexists. split; [done |]. rewrite rank_protect. lia. }
  cbn [dns_loop]. destruct ref as [i | i].
  - repeat case_match; try apply IH. eexists. split; [done |]. rewrite rank_protect. lia.
  - destruct (ip_rules (config p) !! i) as [r |] eqn:Hi; [| apply IH].
    destruct (i_enabled r); [| apply IH].
    destruct (Forall2_lookup_l _ _ _ _ _ Hc Hi) as (n & -> & _). cbn.
    pose proof (rank_protect possible (i_target r)). case_match.
    + eexists. split; [done | lia].
    + destruct (IH (protect possible (i_target r))) as (d & -> & ?). exists d. split; [done | lia].
Qed.

Lemma dns_loop_protects p domain ip refs : forall possible t,
  compiled_ok p -> is_u 32 ip -> first_decision p domain ip refs t ->
  exists d, dns_loop p domain possible refs = Some d /\ rank possible <= rank d /\ rank t <= rank d.
Proof.
  intros possible t Hc Hip. revert possible. induction refs as [| ref refs IH]; intros possible Hf.
  { destruct Hf as [([] & ? & ? & [=] & _) | [_ ->]]. eexists. split; [done |]. rewrite rank_protect. lia. }
  apply first_decision_cons in Hf. cbn [dns_loop]. destruct ref as [i | i].
  - destruct (domain_rules (config p) !! i) as [r |] eqn:Hi; [destruct (_ && _) eqn:Hm |].
    + apply andb_true_iff in Hm as [He Hm%matches_domain_spec].
      assert (decides p domain ip (RefDomain i) (d_target r)) as Hd by by constructor.
      destruct Hf as [Ht | [Hu _]]; [| by destruct (Hu _ Hd)].
      rewrite (decides_functional _ _ _ _ _ _ Ht Hd). eexists. split; [done |]. rewrite rank_protect. lia.
    + destruct Hf as [Ht | [_ Hf]]; [| by apply IH].
      inversion Ht; simplify_eq. apply andb_false_iff in Hm.
      rewrite <- matches_domain_spec in *. naive_solver congruence.
    + destruct Hf as [Ht | [_ Hf]]; [inversion Ht; simplify_eq | by apply IH].
  - destruct (ip_rules (config p) !! i) as [r |] eqn:Hi; [destruct (i_enabled r) eqn:He |].
    + destruct (Forall2_lookup_l _ _ _ _ _ Hc Hi) as (n & Hn & Heq). rewrite Hn. cbn.
      assert (forall t, decides p domain ip (RefIp i) t -> t = i_target r) as Hdec.
      { intros u Hu. inversion Hu; by simplify_eq. }
      assert (rank possible <= rank (protect possible (i_target r))
              /\ rank (i_target r) <= rank (protect possible (i_target r))) as [Hr1 Hr2]
        by (rewrite rank_protect; lia).
      set (q := protect possible (i_target r)) in *.
      assert (exists d, dns_loop p domain q refs = Some d /\ rank possible <= rank d /\ rank t <= rank d) as Hgo.
      { destruct Hf as [Ht | [_ Hf]].
        - destruct (dns_loop_monotone p domain refs q Hc) as (d & -> & Hd).
          exists d. rewrite (Hdec _ Ht). split_and!; [done | lia | lia].
        - destruct (IH q Hf) as (d & -> & ? & ?). exists d. split_and!; [done | lia | lia]. }
      destruct n as [n |]; [destruct (prefix_len n =? 0) eqn:E |].
      * destruct Hf as [Ht | [Hu _]]; [rewrite (Hdec _ Ht); eauto |]. exfalso. apply (Hu (i_target r)).
        constructor; [done | done |]. destruct (i_matcher r); [| done]. exists n. split; [done |].
        apply covers_contains, prefix_zero_covers; [lia | done].
      * exact Hgo.
      * exact Hgo.
    + destruct Hf as [Ht | [_ Hf]]; [inversion Ht; simplify_eq; congruence | by apply IH].
    + destruct Hf as [Ht | [_ Hf]]; [inversion Ht; simplify_eq | by apply IH].
Qed.


Lemma dns_protects us ui c g p domain ip :
  compile us ui c g = Ok p -> is_u 32 ip -> is_lan_destination ip = false ->
  exists d t, dns_target p domain = Some d /\ target p domain ip = Some t /\ rank t <= rank d.
Proof.
  intros Hcomp Hip Hlan. pose proof (compile_compiled _ _ _ _ _ Hcomp) as Hc.
  unfold dns_target, target. rewrite Hlan. destruct (mode (config p)) eqn:Hm.
  - destruct (search_first_decision p domain ip (rule_refs p) Hc) as (found & -> & Hd).
    destruct (dns_loop_protects p domain ip _ Block _ Hc Hip Hd) as (d & -> & _ & Hr).
    exists d. eexists. unfold effective_fallback. by rewrite Hm.
  - by exists Vpn, Vpn.
Qed.

(** C2. Names are never resolved over a less protected path than the connection that follows takes:
    for every public address, the target of the DNS query of a domain ranks (block < direct <
    VPN < WARP) at least as high as the target of a connection to that domain at that address,
    although the query is sent before the address is known. *)
Theorem dns_target_protects us ui c g p domain ip :
  compile us ui c g = Ok p -> is_u 32 ip -> is_lan_destination ip = false ->
  exists d t, dns_target p domain = Some d /\ target p domain ip = Some t /\ rank t <= rank d.
Proof. apply dns_protects. Qed.

(** ** Only policies that use WARP send traffic or queries through it *)

Lemma decides_warp p domain ip ref :
  mode (config p) = Rules -> decides p domain ip ref Warp -> uses_warp p = true.
Proof.
  intros Hm Hd. unfold uses_warp. rewrite bool_decide_true by done. rewrite andb_true_l, !orb_true_iff, !existsb_exists.
  inversion Hd as [i r Hi He ? Heq | i r Hi He ? Heq]; subst; apply list_elem_of_lookup_2 in Hi.
  - left. right. exists r. rewrite He, <- list_elem_of_In. by split; [| apply bool_decide_eq_true].
  - right. exists r. rewrite He, <- list_elem_of_In. by split; [| apply bool_decide_eq_true].
Qed.

Lemma default_warp p : mode (config p) = Rules -> default_target (config p) = Warp -> uses_warp p = true.
Proof. intros Hm Hd. unfold uses_warp. by rewrite !bool_decide_true. Qed.

Lemma protect_warp a b : protect a b = Warp -> a = Warp \/ b = Warp.
Proof. unfold protect. case_match; auto. Qed.

(** The targets [dns_loop] can answer. *)
Lemma dns_loop_warp p domain refs : forall possible,
  mode (config p) = Rules -> (possible = Warp -> uses_warp p = true) ->
  dns_loop p domain possible refs = Some Warp -> uses_warp p = true.
Proof.
  intros possible Hm. revert possible. induction refs as [| ref refs IH]; intros possible Hp.
  { intros [= [? | ?]%protect_warp]; [by apply Hp | by apply default_warp]. }
  cbn [dns_loop]. destruct ref as [i | i].
  - destruct (domain_rules (config p) !! i) as [r |] eqn:Hi; [destruct (_ && _) eqn:Hd |]; try by apply IH.
    apply andb_true_iff in Hd as [He Hd%matches_domain_spec].
    intros [= [? | Ht]%protect_warp]; [by apply Hp |].
    apply (decides_warp p domain 0 (RefDomain i)); [done |]. rewrite <- Ht. by constructor.
  - destruct (ip_rules (config p) !! i) as [r |] eqn:Hi; [destruct (i_enabled r) eqn:He |]; try by apply IH.
    assert (protect possible (i_target r) = Warp -> uses_warp p = true) as Hq.
    { intros [? | Ht]%protect_warp; [by apply Hp |]. unfold uses_warp.
      rewrite bool_decide_true by done. rewrite andb_true_l. apply orb_true_iff. right.
      apply existsb_exists. exists r. rewrite <- list_elem_of_In, He.
      split; [by eapply list_elem_of_lookup_2 | by apply bool_decide_eq_true]. }
    destruct (compiled_ip_rules p !! i) as [n |]; cbn; [| done].
    case_match; [by intros [= ?%Hq] | by apply IH].
Qed.

Lemma first_decision_warp p domain ip refs :
  mode (config p) = Rules -> first_decision p domain ip refs Warp -> uses_warp p = true.
Proof.
  intros Hm [(b & ref & a & -> & _ & Hd) | [_ Hd]]; [by eapply decides_warp | by apply default_warp].
Qed.

(** ** Address rules alone *)

Definition is_ip_ref (ref : rule_ref) : bool := match ref with RefIp _ => true | RefDomain _ => false end.

Definition refs_ok (p : routing_policy) : Prop :=
  rule_refs p ≡ₚ all_refs (length (domain_rules (config p))) (length (ip_rules (config p))).

(** The references of a normalised configuration name every rule exactly once. *)
Lemma normalized_refs to_lowercase domain_to_ascii raw p :
  normalize_routing (net := net) to_lowercase domain_to_ascii raw = Ok (config p) -> refs_ok p.
Proof.
  unfold normalize_routing, refs_ok, rule_refs. case_match; [done |]. intros Hn. inv_result.
  match goal with
  | Hd : mapM _ (domain_rules raw) = Ok _, Hi : mapM _ (ip_rules raw) = Ok _, Ho : match rule_order raw with _ => _ end = Ok _ |- _ =>
      apply mapM_result_length in Hd; apply mapM_result_length in Hi; rename Ho into Hord
  end.
  match goal with Hc : _ = config p |- _ => rewrite <- Hc end.
  cbn [domain_rules ip_rules rule_order]. destruct (rule_order raw) as [order |]; [| done].
  destruct (negb _) eqn:Hlen; [done |]. apply negb_false_iff, Nat.eqb_eq in Hlen.
  match goal with u : unit |- _ => destruct u end.
  apply check_order_permutation in Hord; [by congruence | done].
Qed.

Lemma refs_ok_ip p i : refs_ok p -> RefIp i ∈ rule_refs p -> is_Some (ip_rules (config p) !! i).
Proof.
  unfold refs_ok. intros ->. unfold all_refs.
  intros [(? & [=] & _)%list_elem_of_fmap | (j & [= <-] & Hj%elem_of_seq)%list_elem_of_fmap]%elem_of_app.
  apply lookup_lt_is_Some. lia.
Qed.

(** [ip_rule_indices] are the address references, in order. *)
Definition ip_refs (p : routing_policy) : list rule_ref := filter (fun r => is_ip_ref r = true) (rule_refs p).

Lemma search_ip_decision p ip refs :
  compiled_ok p -> Forall (fun r => exists i, r = RefIp i /\ is_Some (ip_rules (config p) !! i)) refs ->
  exists found,
    try_find_map (index_target p ip)
      (omap (fun ref => match ref with RefIp index => Some index | RefDomain _ => None end) refs) = Some found
    /\ first_decision p "" ip refs (default (default_target (config p)) (fst <$> found)).
Proof.
  intros Hc. induction 1 as [| ref refs (i & -> & [r Hi]) _ IH].
  { exists None. split; [done |]. right. by split. }
  destruct (matches_ip_spec p i r ip Hc Hi) as (b & Hb & Hcov).
  destruct IH as (found & Hs & Hf).
  assert (forall u, decides p "" ip (RefIp i) u -> u = i_target r /\ i_enabled r = true /\ b = true) as Hdec.
  { intros u Hu. inversion Hu; simplify_eq. split_and!; [done | done | by apply Hcov]. }
  assert (index_target p ip i
          = Some (if i_enabled r && b then Some (i_target r, Some (i_name r)) else None)) as Hone.
  { unfold index_target. rewrite Hi. cbn. destruct (i_enabled r); [by rewrite Hb | done]. }
  cbn [omap list_omap try_find_map]. rewrite Hone. cbn [mbind option_bind].
  destruct (i_enabled r) eqn:He; [destruct b |]; cbn [andb].
  { exists (Some (i_target r, Some (i_name r))). split; [done |]. left. exists [], (RefIp i), refs.
    split_and!; [done | done |]. constructor; [done | done | by apply Hcov]. }
  all: exists found; split; [done |]; destruct Hf as [(bf & x & a & -> & Hbf & Hr) | [Hall Hd]];
    [ left; exists (RefIp i :: bf), x, a; split_and!; [done | constructor; [| done] | done]
    | right; split; [constructor; [| done] | done] ];
    by intros u (_ & ? & ?)%Hdec.
Qed.

Lemma search_Some {A B} (f : A -> option (option B)) l b :
  try_find_map f l = Some (Some b) ->
  exists k a, l !! k = Some a /\ f a = Some (Some b)
    /\ forall j a', (j < k)%nat -> l !! j = Some a' -> f a' = Some None.
Proof.
  induction l as [| a l IH]; cbn [try_find_map]; [done |].
  destruct (f a) as [[b' |] |] eqn:E; cbn; [| | done].
  - intros [= ->]. exists 0%nat, a. split_and!; [done | done | intros; lia].
  - intros (k & a' & Hk & Hf & Hj)%IH. exists (S k), a'. split_and!; [done | done |].
    intros [| j] x Hlt Hx; [by injection Hx as <- | apply (Hj j); [lia | done]].
Qed.

Lemma search_None {A B} (f : A -> option (option B)) l :
  try_find_map f l = Some None -> forall a, a ∈ l -> f a = Some None.
Proof.
  induction l as [| a l IH]; cbn [try_find_map]; [by intros _ ? ?%not_elem_of_nil |].
  destruct (f a) as [[b' |] |] eqn:E; cbn; [done | | done].
  intros Hs x [-> | Hx]%elem_of_cons; [done | by apply IH].
Qed.

Lemma ip_target_decides to_lowercase domain_to_ascii raw us ui c g p ip :
  normalize_routing (net := net) to_lowercase domain_to_ascii raw = Ok c -> compile us ui c g = Ok p ->
  exists t name, ip_target p ip = Some (t, name) /\
    if is_lan_destination ip then t = Direct
    else match mode c with
         | All => t = Vpn
         | Rules => first_decision p "" ip (ip_refs p) t
         end.
Proof.
  intros Hn Hcomp. pose proof (compile_compiled _ _ _ _ _ Hcomp) as Hc.
  apply compile_inv in Hcomp as (<- & _). pose proof (normalized_refs _ _ _ _ Hn) as Hrefs.
  unfold ip_target. destruct (is_lan_destination ip); [by eexists _, _ |].
  destruct (mode (config p)) eqn:Hm; [| by eexists _, _].
  destruct (search_ip_decision p ip (ip_refs p)) as (found & Hs & Hd); [done | |].
  { apply Forall_forall. intros r [Hr Hin]%list_elem_of_filter. destruct r as [| i]; [done |].
    exists i. split; [done |]. by apply refs_ok_ip. }
  assert (ip_rule_indices p = omap (fun ref => match ref with RefIp index => Some index | RefDomain _ => None end)
            (ip_refs p)) as Hidx.
  { unfold ip_rule_indices, ip_refs. rewrite Hm. induction (rule_refs p) as [| [i | i] l IHl]; [done | |].
    - done.
    - rewrite filter_cons_True by done. cbn. by rewrite IHl. }
  unfold effective_fallback. rewrite Hidx, Hs, Hm. cbn. destruct found as [[t name] |]; by eexists _, _.
Qed.

(** The address-only decision of a compiled policy (used for addresses without a known name)
    never panics for a normalised configuration, whose order names every rule exactly once, and is
    the decision of the address rules alone in the configured order. *)
Theorem ip_target_first_match to_lowercase domain_to_ascii raw us ui c g p ip :
  normalize_routing (net := net) to_lowercase domain_to_ascii raw = Ok c -> compile us ui c g = Ok p ->
  rule_refs p ≡ₚ all_refs (length (domain_rules c)) (length (ip_rules c)) /\
  exists t name, ip_target p ip = Some (t, name) /\
    if is_lan_destination ip then t = Direct
    else match mode c with
         | All => t = Vpn
         | Rules => first_decision p "" ip (ip_refs p) t
         end.
Proof.
  intros Hn Hcomp. split; [| by eapply ip_target_decides].
  apply compile_inv in Hcomp as (<- & _). by apply normalized_refs in Hn.
Qed.

(** WARP is only ever used by policies that declare it ([uses_warp] decides whether the WARP
    worker must run): a policy that routes some connection, some bare address or some DNS query to
    WARP uses it. *)
Theorem warp_only_when_used us ui c g p domain ip :
  compile us ui c g = Ok p ->
  target p domain ip = Some Warp \/ dns_target p domain = Some Warp -> uses_warp p = true.
Proof.
  intros Hcomp [Ht | Ht]; pose proof (compile_compiled _ _ _ _ _ Hcomp) as Hc.
  - unfold target in Ht. case_match; [done |]. destruct (mode (config p)) eqn:Hm; [| done].
    destruct (search_first_decision p domain ip (rule_refs p) Hc) as (found & Hs & Hd).
    rewrite Hs in Ht. cbn in Ht. injection Ht as Ht. unfold effective_fallback in Ht. rewrite Hm in Ht.
    rewrite Ht in Hd. by eapply first_decision_warp.
  - unfold dns_target in Ht. destruct (mode (config p)) eqn:Hm; [| done].
    by apply (dns_loop_warp p domain (rule_refs p) Block).
Qed.

(** ** Compilation accepts only tags it knows *)

Lemma compile_known_site us ui c g p r tag :
  compile us ui c g = Ok p -> mode c = Rules -> r ∈ domain_rules c -> d_enabled r = true ->
  d_matcher r = GeoSite tag -> has_site (geo p) tag = true.
Proof.
  intros (_ & _ & Hall & _)%compile_inv Hm Hr He Ht. eapply Forall_forall in Hall; [| exact Hr].
  unfold compile_domain_rule in Hall. rewrite Ht, He, Hm, bool_decide_true in Hall by done. cbn in Hall.
  by destruct (has_site (geo p) tag).
Qed.

Lemma compile_known_ip us ui c g p r tag :
  compile us ui c g = Ok p -> mode c = Rules -> r ∈ ip_rules c -> i_enabled r = true ->
  i_matcher r = GeoIp tag -> has_ip (geo p) tag = true.
Proof.
  intros (_ & _ & _ & Hall)%compile_inv Hm Hr He Ht. apply list_elem_of_lookup in Hr as [i Hi].
  destruct (Forall2_lookup_l _ _ _ _ _ Hall Hi) as (n & _ & Hok).
  unfold compile_ip_rule in Hok. rewrite Ht, He, Hm, bool_decide_true in Hok by done. cbn in Hok.
  by destruct (has_ip (geo p) tag).
Qed.

(** ** Domain rules alone *)

Definition domain_refs (p : routing_policy) : list rule_ref :=
  filter (fun r => is_ip_ref r = false) (rule_refs p).

Lemma search_domain_decision p domain ip refs :
  Forall (fun r => is_ip_ref r = false) refs ->
  first_decision p domain ip refs
    (default (default_target (config p)) (d_target <$>
      find_first (fun r => d_enabled r && matches_domain p r domain)
        (omap (fun ref => match ref with
                          | RefDomain index => domain_rules (config p) !! index
                          | RefIp _ => None
                          end) refs))).
Proof.
  induction 1 as [| ref refs Hr _ IH]; [right; by split |]. destruct ref as [i | i]; [| done].
  cbn [omap list_omap]. destruct (domain_rules (config p) !! i) as [r |] eqn:Hi; cbn [find_first].
  - destruct (d_enabled r && _) eqn:Hm; cbn.
    + apply andb_true_iff in Hm as [He Hm%matches_domain_spec]. left. exists [], (RefDomain i), refs.
      split_and!; [done | done | by constructor].
    + destruct IH as [(b & x & a & -> & Hb & Hx) | [Hall ->]];
        [left; exists (RefDomain i :: b), x, a; split_and!; [done | constructor; [| done] | done]
        | right; split; [constructor; [| done] | done]];
        intros u Hu; inversion Hu; simplify_eq; rewrite <- matches_domain_spec in *;
        apply andb_false_iff in Hm; naive_solver congruence.
  - destruct IH as [(b & x & a & -> & Hb & Hx) | [Hall Heq]];
      [left; exists (RefDomain i :: b), x, a; split_and!; [done | constructor; [| done] | done]
      | right; split; [constructor; [| done] | done]];
      intros u Hu; inversion Hu; simplify_eq.
Qed.

Lemma domain_refs_rules p :
  omap (fun ref => match ref with RefDomain index => domain_rules (config p) !! index | RefIp _ => None end)
    (domain_refs p)
  = omap (fun ref => match ref with RefDomain index => domain_rules (config p) !! index | RefIp _ => None end)
    (rule_refs p).
Proof.
  unfold domain_refs. induction (rule_refs p) as [| [i | i] l IH]; [done | |].
  - rewrite filter_cons_True by done. cbn. by rewrite IH.
  - rewrite filter_cons_False by done. done.
Qed.

(** The answer of the routing test page is the policy's: after trimming, a dotted quad is
    answered with the address-only decision, any other text is normalised as a domain (and refused
    when it is not one) and answered with the first enabled domain rule that covers it, or the
    default target when none does; it never panics for a normalised configuration, in which every
    tag an enabled rule names is known to the data. *)
Theorem test_answers_policy to_lowercase domain_to_ascii raw us ui c g p value :
  normalize_routing (net := net) to_lowercase domain_to_ascii raw = Ok c -> compile us ui c g = Ok p ->
  exists answer, test to_lowercase domain_to_ascii p value = Some answer /\
    match parse_ipv4 (trim value) with
    | Some ip => exists t name, ip_target p ip = Some (t, name)
                   /\ answer = Ok (TestResult (show_ipv4 ip) t name ScopeIp)
    | None =>
        match normalize_domain to_lowercase domain_to_ascii (trim value) with
        | Err e => answer = Err e
        | Ok domain => exists t name, answer = Ok (TestResult domain t name ScopeDomainPreview)
            /\ (mode c = All -> t = Vpn)
            /\ (mode c = Rules -> forall ip, first_decision p domain ip
                 (domain_refs p) t)
        end
    end.
Proof.
  intros Hn Hcomp. unfold test. destruct (parse_ipv4 (trim value)) as [ip |].
  { destruct (ip_target_decides to_lowercase domain_to_ascii raw us ui c g p ip Hn Hcomp) as (t & name & Ht & _).
    rewrite Ht. by eauto 10. }
  eexists. split; [done |]. destruct (normalize_domain _ _ (trim value)) as [domain | e]; [| done]. cbn.
  apply compile_inv in Hcomp as (<- & _).
  unfold domain_target, configured_domain_target, effective_fallback. destruct (mode (config p)) eqn:Hm.
  - assert (Forall (fun r => is_ip_ref r = false) (domain_refs p)) as Hrefs.
    { apply Forall_forall. intros r. unfold domain_refs. by intros [? _]%list_elem_of_filter. }
    pose proof (fun ip => search_domain_decision p domain ip (domain_refs p) Hrefs) as Hd.
    rewrite domain_refs_rules in Hd. destruct (find_first _ _) as [r |]; cbn in *; by eexists _, _.
  - by eexists _, _.
Qed.

(** The errors of a compilation carry no marker. *)
Lemma compile_plain up_sites up_ips c g : plain (compile up_sites up_ips c g).
Proof.
  unfold compile. repeat plain_step; [apply select_plain | |].
  - unfold compile_domain_rule. repeat plain_step.
  - unfold compile_ip_rule. repeat plain_step. apply plain_context. repeat plain_step.
Qed.

End Routing.

(** ** Examples *)

(** Traffic to 5.0.0.0/8 through WARP before anything under "ru" goes directly. *)
Definition sample_rules : routing_config :=
  RoutingConfig [DomainRule "home" true (Suffix "ru") Direct] [IpRule "five" true (Cidr "5.0.0.0/8") Warp]
    Vpn Rules (Some [RefIp 0; RefDomain 0]).

Definition sample_compiled : result (routing_policy (net := PrefixNet.t) (rx := unit)) :=
  compile (fun _ _ _ => None) (fun _ => false) (fun _ => false) sample_rules (GeoData None ∅ ∅).

Definition sample_policy : routing_policy (net := PrefixNet.t) (rx := unit) :=
  RoutingPolicy sample_rules (GeoData None ∅ ∅) [net_parse "5.0.0.0/8"%string].

Lemma sample_compiles : sample_compiled = Ok sample_policy.
Proof. done. Qed.

Lemma sample_normal :
  normalize_routing (net := PrefixNet.t) to_ascii_lowercase sample_idna sample_rules = Ok sample_rules.
Proof. by vm_compute. Qed.

Example sample_target_warp : target (fun _ _ => false) sample_policy "ya.ru" (ipv4 5 8 0 1) = Some Warp.
Proof. by vm_compute. Qed.

Example sample_target_direct : target (fun _ _ => false) sample_policy "ya.ru" (ipv4 8 8 8 8) = Some Direct.
Proof. by vm_compute. Qed.

Example sample_dns_target : dns_target (fun _ _ => false) sample_policy "ya.ru" = Some Warp.
Proof. by vm_compute. Qed.

Lemma sample_not_lan : is_lan_destination (net := PrefixNet.t) (ipv4 8 8 8 8) = false.
Proof. by vm_compute. Qed.

Lemma target_first_match_witness :
  sample_compiled = Ok sample_policy /\
  exists t, target (fun _ _ => false) sample_policy "ya.ru" (ipv4 8 8 8 8) = Some t.
Proof.
  split; [exact sample_compiles |].
  destruct (target_first_match (fun _ _ _ => None) (fun _ _ => false) _ _ _ _ _ "ya.ru" (ipv4 8 8 8 8)
    sample_compiles) as (t & Ht & _). by exists t.
Defined.

Lemma dns_target_protects_witness :
  exists d t, dns_target (fun _ _ => false) sample_policy "ya.ru" = Some d
    /\ target (fun _ _ => false) sample_policy "ya.ru" (ipv4 8 8 8 8) = Some t /\ rank t <= rank d.
Proof.
  apply (dns_target_protects (fun _ _ _ => None) (fun _ _ => false) (fun _ => false) (fun _ => false)
    sample_rules (GeoData None ∅ ∅)); [exact sample_compiles | split; by vm_compute | exact sample_not_lan].
Defined.

Lemma ip_target_first_match_witness :
  rule_refs sample_policy ≡ₚ [RefDomain 0; RefIp 0] /\
  exists t name, ip_target sample_policy (ipv4 8 8 8 8) = Some (t, name).
Proof.
  destruct (ip_target_first_match (fun _ _ _ => None) (fun _ _ => false) to_ascii_lowercase sample_idna
    sample_rules _ _ _ _ _ (ipv4 8 8 8 8) sample_normal sample_compiles) as (Hp & t & name & Ht & _).
  split; [exact Hp | by exists t, name].
Defined.

Lemma warp_only_when_used_witness : uses_warp sample_policy = true.
Proof.
  apply (warp_only_when_used (fun _ _ _ => None) (fun _ _ => false) (fun _ => false) (fun _ => false)
    sample_rules (GeoData None ∅ ∅) sample_policy "ya.ru" (ipv4 5 8 0 1)); [exact sample_compiles |].
  left. exact sample_target_warp.
Defined.

Lemma test_answers_policy_witness :
  exists answer, test (fun _ _ => false) to_ascii_lowercase sample_idna sample_policy " ya.RU" = Some answer.
Proof.
  destruct (test_answers_policy (fun _ _ _ => None) (fun _ _ => false) to_ascii_lowercase sample_idna
    sample_rules _ _ _ _ _ " ya.RU" sample_normal sample_compiles) as (answer & Ha & _).
  by exists answer.
Defined.
