(* ===== verification/Dataplane.v ===== *)
(** * The kernel data plane (crates/gofro-agent/src/dataplane.rs, wireguard-status/src/warp.rs)

    The agent never touches packets: it renders an nftables script that marks
    them. The rendering is modelled in full; handing a script to [nft] is in
    Children.v, reading the JSON of an installed table back in Startup.v. *)

From stdpp Require Import base gmap strings list sorting.
From Stdlib Require Import Ascii ZArith Lia.
From S2P Require Import Prelude RustStd Peers RelayCodec Net Model Stats GeoWire GeoData Config Routing.

(** ** The WARP source identity (wireguard-status/src/warp.rs) *)

Definition SOURCE_SUBNET : string := "10.202.1.0/24".

(** ** Marks *)

Definition DIRECT_MARK : Z := 0x10000.
Definition VPN_MARK : Z := 0x20000.
Definition BLOCK_MARK : Z := 0x30000.
Definition WARP_MARK : Z := 0x60000.
Definition GOFRO_MARK_MASK : string := "0x70000".
Definition KEEP_FOREIGN_MARKS : string := "0xfff8ffff".
Definition TABLE : string := "gofro_routing".
Definition GUARD_TABLE : string := "gofro_guard".
Definition FAKE_TARGET_SETS : list (route_target * string) :=
  [(Direct, "fake_direct"); (Vpn, "fake_vpn"); (Warp, "fake_warp"); (Block, "fake_block")]%string.

Definition effective_target (t : route_target) (vpn_enabled : bool) : route_target :=
  match t with
  | Vpn => if negb vpn_enabled then Direct else Vpn
  | Warp => if negb vpn_enabled then Block else Warp
  | t => t
  end.

Definition target_mark (t : route_target) : Z :=
  match t with Direct => DIRECT_MARK | Vpn => VPN_MARK | Warp => WARP_MARK | Block => BLOCK_MARK end.

Record vpn_egress := VpnEgress { egress_enabled : bool; warp_source : option Z }.

Definition egress_target (e : vpn_egress) (t : route_target) : route_target :=
  if bool_decide (t = Warp) && negb (bool_decide (is_Some (warp_source e)))
  then Block else effective_target t (egress_enabled e).

Record fake_mapping := FakeMapping { fake : Z; real : Z; fm_target : route_target }.

#[export] Instance fake_mapping_eq_dec : EqDecision fake_mapping.
Proof. solve_decision. Defined.

(** ** Text *)

Definition cat (pieces : list string) : string := foldr String.append EmptyString pieces.
Definition DQ : string := str [of_code 34].
Definition NL : string := str [LF].
Definition quoted (s : string) : string := DQ +:+ s +:+ DQ.

(** [writeln!(script, ...)] and [write!] *)
Definition wln (pieces : list string) : string := cat pieces +:+ NL.

(** [append_list] *)
Definition append_list (items : list string) : string := join ", " items.

Section Dataplane.
Context {net : Type} `{IpnetLaws net}.
Context {rx : Type}.
#[local] Notation geodata := (GeoData.geodata (net := net) (rx := rx)).
#[local] Notation policy := (routing_policy (net := net) (rx := rx)).

Definition egress_from_config (c : controller_config) : vpn_egress :=
  let source :=
    server ← find_first (fun s => bool_decide (Some (public_key s) = active_server_key c)) (servers c);
    _ ← management server;
    address ← client_tunnel_address server;
    network ← net_parse (net := net) address;
    source_address (addr network) in
  VpnEgress (vpn_enabled c) source.

(** ** The guard that blocks forwarding while no routing table is installed *)

Definition render_exclusion_set (table : string) (exclusions : list mac_address) : string :=
  wln ["add set inet "; table; " device_exclusions { type ether_addr; }"]
  +:+ (if bool_decide (exclusions = []) then ""
       else wln ["add element inet "; table; " device_exclusions { "; join ", " (mac_show <$> exclusions); " }"]).

Definition render_guard_with_exclusions (lan : lan_context net) (exclusions : list mac_address) : string :=
  let condition := if bool_decide (exclusions = []) then ""%string else "ether saddr != @device_exclusions "%string in
  wln ["destroy table inet "; GUARD_TABLE]
  +:+ wln ["add table inet "; GUARD_TABLE]
  +:+ render_exclusion_set GUARD_TABLE exclusions
  +:+ wln ["add chain inet "; GUARD_TABLE; " gofro_guard { type filter hook forward priority filter; policy accept; }"]
  +:+ wln ["add rule inet "; GUARD_TABLE; " gofro_guard iifname "; quoted (lan_device lan); " oifname != ";
           quoted (lan_device lan); " "; condition; "drop"].

Definition render_publish_exclusions (lan : lan_context net) (exclusions : list mac_address) : string :=
  wln ["flush set inet "; TABLE; " device_exclusions"]
  +:+ (if bool_decide (exclusions = []) then ""
       else wln ["add element inet "; TABLE; " device_exclusions { "; join ", " (mac_show <$> exclusions); " }"])
  +:+ render_guard_with_exclusions lan exclusions.

Definition render_startup (lan : lan_context net) (exclusions : list mac_address) (table_exists has_set : bool)
  : result string :=
  if table_exists && has_set then Ok (render_publish_exclusions lan exclusions)
  else
    _ ← ensure (negb table_exists || bool_decide (exclusions = []))
          "legacy routing table cannot honor saved device exclusions; full routing repair required";
    Ok (render_guard_with_exclusions lan exclusions).

(** ** Networks as intervals: the two loops of [append_networks] *)

(** The inner loop: extends [end_] over the networks that touch the interval. *)
Fixpoint absorb (end_ : Z) (l : list net) : Z * list net :=
  match l with
  | next :: l' =>
      if saturating_add_max u32_max end_ 1 <? network next then (end_, l)
      else absorb (Z.max end_ (broadcast next)) l'
  | [] => (end_, [])
  end.

(** The outer loop; the fuel is the number of networks left. *)
Fixpoint merge_networks (fuel : nat) (l : list net) : list (Z * Z) :=
  match fuel, l with
  | S fuel, n :: l =>
      let '(end_, rest) := absorb (broadcast n) l in
      (network n, end_) :: merge_networks fuel rest
  | _, _ => []
  end.

Definition show_interval (i : Z * Z) : string :=
  if i.1 =? i.2 then show_ipv4 i.1 else show_ipv4 i.1 +:+ "-" +:+ show_ipv4 i.2.

Definition append_networks (networks : list net) : string :=
  join ", " (show_interval <$> merge_networks (length networks) networks).

(** ** FakeDNS mappings *)

Definition append_target_elements (mappings : list fake_mapping) (operation : string) : string :=
  cat ((fun '(t, set) =>
          let keys := fake <$> filter (fun m => fm_target m = t) mappings in
          if bool_decide (keys = []) then ""
          else operation +:+ " element inet " +:+ TABLE +:+ " " +:+ set +:+ " { "
               +:+ append_list (show_ipv4 <$> keys) +:+ " }" +:+ NL) <$> FAKE_TARGET_SETS)%string.

Definition append_mappings (mappings : list fake_mapping) : string :=
  if bool_decide (mappings = []) then ""
  else "add element inet " +:+ TABLE +:+ " fake_to_real { "
       +:+ join ", " ((fun m => show_ipv4 (fake m) +:+ " : " +:+ show_ipv4 (real m)) <$> mappings)
       +:+ " }" +:+ NL +:+ append_target_elements mappings "add".

(** The script of [remove_mappings]. *)
Definition render_removal (mappings : list fake_mapping) : string :=
  if bool_decide (mappings = []) then ""
  else "delete element inet " +:+ TABLE +:+ " fake_to_real { "
       +:+ append_list ((fun m => show_ipv4 (fake m)) <$> mappings) +:+ " }" +:+ NL
       +:+ append_target_elements mappings "delete".

(** ** The routing table *)

(** [port_set]: a [BTreeSet] iterates in increasing order without repetition. *)
Definition port_set (ports : list Z) : string := join ", " (show <$> dedup (merge_sort Z.le ports)).

(** The GeoIP sets: one per enabled country rule. *)
Definition ip_set_lines (p : policy) (index : nat) : option string :=
  rule ← ip_rules (config p) !! index;
  Some (if negb (i_enabled rule) then ""
        else match i_matcher rule with
             | Cidr _ => ""
             | GeoIp value =>
                 let networks := ip_networks (geo p) value in
                 wln ["add set inet "; TABLE; " ip_rule_"; show (Z.of_nat index);
                      " { type ipv4_addr; flags interval; auto-merge; }"]
                 +:+ (if bool_decide (networks = []) then ""
                      else "add element inet " +:+ TABLE +:+ " ip_rule_" +:+ show (Z.of_nat index) +:+ " { "
                           +:+ append_networks networks +:+ " }" +:+ NL)
             end)%string.

(** What the second loop over the address rules reads of a rule: its destination and its mark. *)
Definition mark_rule (p : policy) (egress : vpn_egress) (index : nat) : option (option (string * Z)) :=
  rule ← ip_rules (config p) !! index;
  Some (if negb (i_enabled rule) then None
        else Some (match i_matcher rule with
                   | Cidr value => value
                   | GeoIp _ => "@ip_rule_" +:+ show (Z.of_nat index)
                   end,
                   target_mark (egress_target egress (i_target rule)))).

Definition set_mark (kind : string) (mark : string) : string :=
  cat [kind; " mark set ("; kind; " mark & "; KEEP_FOREIGN_MARKS; ") | "; mark].

Definition on_lan (lan : lan_context net) (chain : string) : string :=
  cat ["add rule inet "; TABLE; " "; chain; " iifname "; quoted (lan_device lan); " "].

Definition unmarked : string := cat ["meta mark & "; GOFRO_MARK_MASK; " == 0 "]%string.

Definition mark_rule_line (lan : lan_context net) (rule : option (string * Z)) : string :=
  match rule with
  | None => ""
  | Some (destination, mark) =>
      wln [on_lan lan "gofro_mark"; unmarked; "ip daddr "; destination; " "; set_mark "meta" (show mark)]
  end.

Definition dns_traffic : string := "meta nfproto ipv4 meta l4proto { tcp, udp } th dport 53".

Definition append_dns_egress_guard (source : option Z) : string :=
  let rule := cat ["add rule inet "; TABLE; " gofro_dns_egress "; dns_traffic; " "]%string in
  let marked mark := cat ["meta mark & "; GOFRO_MARK_MASK; " == "; show mark; " "]%string in
  wln ["add chain inet "; TABLE; " gofro_dns_egress { type filter hook output priority filter; policy accept; }"]
  +:+ cat ((fun mark => wln [rule; marked mark; set_mark "ct" (show mark)]
                        +:+ wln [rule; marked mark; "oifname != "; quoted "gt0"; " drop"]) <$> [VPN_MARK; WARP_MARK])
  +:+ wln [rule; "ct reply ip daddr "; SOURCE_SUBNET; " meta mark & "; GOFRO_MARK_MASK; " != "; show WARP_MARK; " drop"]
  +:+ match source with
      | Some source => wln [rule; marked WARP_MARK; "ct status confirmed ct reply ip daddr != "; show_ipv4 source; " drop"]
      | None => wln [rule; marked WARP_MARK; "drop"]
      end.

(** The table, its sets and mappings. *)
Definition render_sets (p : policy) (mappings : list fake_mapping) (exclusions : list mac_address) : option string :=
  ip_sets ← mapM (ip_set_lines p) (ip_rule_indices p);
  Some (wln ["destroy table inet "; TABLE]
    +:+ wln ["add table inet "; TABLE]
    +:+ render_exclusion_set TABLE exclusions
    +:+ wln ["add map inet "; TABLE; " fake_to_real { type ipv4_addr : ipv4_addr; }"]
    +:+ cat ((fun '(_, set) => wln ["add set inet "; TABLE; " "; set; " { type ipv4_addr; }"]) <$> FAKE_TARGET_SETS)
    +:+ append_mappings mappings
    +:+ cat ip_sets).

(** The rules of the [gofro_mark] chain before the first routing decision. *)
Definition render_mark_prologue (lan : lan_context net) (allowed_ports : string) : string :=
  let rule := on_lan lan "gofro_mark" in
  let vip := show_ipv4 PANEL_VIRTUAL_IP in
  let direct kind := set_mark kind (show DIRECT_MARK) in
  wln ["add chain inet "; TABLE; " gofro_mark { type filter hook prerouting priority mangle; policy accept; }"]
  +:+ cat ((fun condition => wln ["add rule inet "; TABLE; " gofro_mark ip daddr "; vip; " "; condition; " drop"])
        <$> [cat ["iifname != "; quoted (lan_device lan)]; "meta l4proto != tcp"%string;
             cat ["tcp dport != { "; allowed_ports; " }"]])
  +:+ cat ((fun protocol => wln [rule; "ct direction original "; protocol; " dport 53 ct mark set ct mark | 0x40000000"])
        <$> ["udp"; "tcp"]%string)
  +:+ wln [rule; "ether saddr @device_exclusions "; direct "meta"%string; " "; direct "ct"%string; " return"]
  +:+ wln [rule; "ct direction reply "; direct "meta"%string]
  +:+ wln [rule; "ct direction reply "; direct "ct"%string]
  +:+ wln [rule; "ct direction reply return"]
  +:+ wln [rule; "meta mark set meta mark & "; KEEP_FOREIGN_MARKS]
  +:+ wln [rule; "ip daddr "; vip; " "; direct "meta"%string]
  +:+ wln [rule; "fib daddr type local "; direct "meta"%string]
  +:+ wln [rule; "ip daddr "; net_show (lan_subnet lan); " "; direct "meta"%string].

(** The rule for the fake addresses of a target. *)
Definition fake_line (lan : lan_context net) (egress : vpn_egress) (target_set : route_target * string) : string :=
  wln [on_lan lan "gofro_mark"; unmarked; "ip daddr @"; target_set.2; " ";
       set_mark "meta" (show (target_mark (egress_target egress target_set.1)))].

Definition lan_line (lan : lan_context net) : string :=
  wln [on_lan lan "gofro_mark"; unmarked; "ip daddr { "; join ", " (net_show <$> LAN_RANGES (net := net)); " } ";
       set_mark "meta" (show DIRECT_MARK)].

(** The rule that marks what no other rule has. *)
Definition fallback_line (lan : lan_context net) (egress : vpn_egress) (p : policy) : string :=
  wln [on_lan lan "gofro_mark"; unmarked; set_mark "meta" (show (target_mark (egress_target egress (effective_fallback p))))].

(** The mark of a packet is kept for its connection. *)
Definition connection_line (lan : lan_context net) (mark : Z) : string :=
  wln [on_lan lan "gofro_mark"; "meta mark & "; GOFRO_MARK_MASK; " == "; show mark; " "; set_mark "ct" (show mark)].

Definition drop_line (lan : lan_context net) : string :=
  wln [on_lan lan "gofro_mark"; "meta mark & "; GOFRO_MARK_MASK; " == "; show BLOCK_MARK; " drop"].

Definition mark_lines (lan : lan_context net) (egress : vpn_egress) (p : policy) (rules : list (option (string * Z))) : list string :=
  (fake_line lan egress <$> FAKE_TARGET_SETS) ++ [lan_line lan] ++ (mark_rule_line lan <$> rules) ++ [fallback_line lan egress p]
  ++ (connection_line lan <$> [DIRECT_MARK; VPN_MARK; WARP_MARK; BLOCK_MARK]) ++ [drop_line lan].

(** The routing decisions of the [gofro_mark] chain. *)
Definition render_marks (lan : lan_context net) (egress : vpn_egress) (p : policy) : option string :=
  rules ← mapM (mark_rule p egress) (ip_rule_indices p);
  Some (cat (mark_lines lan egress p rules)).

(** The address translation chains. *)
Definition render_nat (lan : lan_context net) (dns_port : Z) (ports : panel_ports) (http_ports https_ports : string) : string :=
  let rule := on_lan lan "gofro_dnat" in
  let dns := on_lan lan "gofro_dns" in
  wln ["add chain inet "; TABLE; " gofro_dnat { type nat hook prerouting priority dstnat; policy accept; }"]
  +:+ cat ((fun '(set, destination) =>
        wln [rule; "ip daddr "; show_ipv4 PANEL_VIRTUAL_IP; " tcp dport { "; set; " } dnat ip to ";
             show_ipv4 (lan_address lan); ":"; show destination])
        <$> [(http_ports, http ports); (https_ports, https ports)])
  +:+ wln [rule; "dnat ip to ip daddr map @fake_to_real"]
  +:+ wln ["add chain inet "; TABLE; " gofro_dns { type nat hook prerouting priority -101; policy accept; }"]
  +:+ wln [dns; "ether saddr @device_exclusions return"]
  +:+ wln [dns; "udp dport 53 redirect to :"; show dns_port]
  +:+ wln [dns; "tcp dport 53 redirect to :"; show dns_port].

(** The chains that depend on the VPN and on WARP. *)
Definition render_egress (lan : lan_context net) (egress : vpn_egress) (p : policy) : string :=
  let mss := show TCP_MSS in
  let warp := cat ["meta mark & "; GOFRO_MARK_MASK; " == "; show WARP_MARK; " "]%string in
  let guard := on_lan lan "gofro_warp_guard" in
  let source := if egress_enabled egress then warp_source egress else None in
  (if egress_enabled egress then
     wln ["add chain inet "; TABLE; " gofro_mss { type filter hook forward priority -149; policy accept; }"]
     +:+ cat ((fun '(incoming, outgoing) =>
           wln ["add rule inet "; TABLE; " gofro_mss meta nfproto ipv4 iifname "; quoted incoming; " oifname ";
                quoted outgoing; " tcp flags & (syn | rst) == syn tcp option maxseg size > "; mss;
                " tcp option maxseg size set "; mss])
           <$> [(lan_device lan, "gt0"%string); ("gt0"%string, lan_device lan)])
   else "")
  +:+ (if egress_enabled egress || uses_warp p then
     wln ["add chain inet "; TABLE; " gofro_ipv6 { type filter hook forward priority filter; policy accept; }"]
     +:+ wln [on_lan lan "gofro_ipv6";
              "ether saddr != @device_exclusions meta nfproto ipv6 reject with icmpv6 type admin-prohibited"]
   else "")
  +:+ wln ["add chain inet "; TABLE; " gofro_warp_guard { type filter hook forward priority -150; policy accept; }"]
  +:+ wln [guard; "ct direction original ct reply ip daddr "; SOURCE_SUBNET; " meta mark & "; GOFRO_MARK_MASK; " != ";
           show WARP_MARK; " drop"]
  +:+ match source with
      | Some source =>
          wln [guard; warp; "oifname != "; quoted "gt0"; " drop"]
          +:+ wln [guard; warp; "ct status confirmed ct reply ip daddr != "; show_ipv4 source; " drop"]
          +:+ wln ["add chain inet "; TABLE; " gofro_warp_snat { type nat hook postrouting priority 99; policy accept; }"]
          +:+ wln [on_lan lan "gofro_warp_snat"; "oifname "; quoted "gt0"; " "; warp; "snat ip to "; show_ipv4 source]
          +:+ wln ["add rule inet "; TABLE; " gofro_warp_snat oifname "; quoted "gt0"; " "; dns_traffic; " "; warp;
                   "snat ip to "; show_ipv4 source]
      | None => ""
      end
  +:+ append_dns_egress_guard source.

Definition render_with_exclusions (lan : lan_context net) (dns_port : Z) (egress : vpn_egress) (p : policy)
  (mappings : list fake_mapping) (ports : panel_ports) (exclusions : list mac_address) : option string :=
  let http_ports := port_set [80; 8081; http ports] in
  let https_ports := port_set [443; 8443; https ports] in
  let allowed_ports := port_set [80; 443; 8081; 8443; http ports; https ports] in
  sets ← render_sets p mappings exclusions;
  marks ← render_marks lan egress p;
  Some (sets +:+ render_mark_prologue lan allowed_ports +:+ marks
        +:+ render_nat lan dns_port ports http_ports https_ports
        +:+ render_egress lan egress p).

(** ** The intervals of a set are its networks *)

Definition starts_sorted (l : list net) : Prop := StronglySorted (fun n m => network n <= network m) l.

Definition in_intervals (ivs : list (Z * Z)) (ip : Z) : Prop := exists i, i ∈ ivs /\ i.1 <= ip <= i.2.
Definition in_networks (l : list net) (ip : Z) : Prop := exists n, n ∈ l /\ covers n ip.

Lemma absorb_spec l : forall e, 0 <= e <= u32_max ->
  exists pre, l = pre ++ (absorb e l).2 /\ e <= (absorb e l).1 <= u32_max
    /\ (forall n, n ∈ pre -> broadcast n <= (absorb e l).1)
    /\ (forall ip, e < ip <= (absorb e l).1 -> in_networks pre ip)
    /\ (forall n rest, (absorb e l).2 = n :: rest -> (absorb e l).1 + 1 < network n).
Proof.
  induction l as [| n l IH]; intros e He; cbn [absorb fst snd].
  { exists []. split_and!; [done | lia | lia | by intros n ?%not_elem_of_nil | intros ip ?; lia | done]. }
  pose proof (network_range n) as [Hn1 Hn2]. pose proof (broadcast_range n) as [Hb1 Hb2].
  change (2 ^ 32) with 4294967296 in *. unfold saturating_add_max, u32_max in *.
  destruct (_ <? network n) eqn:E; cbn [fst snd].
  - exists []. split_and!; [done | lia | lia | by intros m ?%not_elem_of_nil | intros ip ?; lia |].
    intros m rest [= <- <-]. lia.
  - destruct (IH (Z.max e (broadcast n))) as (pre & Hpre & Hle & Hbr & Hcov & Hgap); [lia |].
    exists (n :: pre). split_and!; [by cbn; f_equal | lia | lia | | | done].
    + intros m [-> | Hm]%elem_of_cons; [lia | by apply Hbr].
    + intros ip Hip. destruct (Z.le_gt_cases ip (broadcast n)) as [Hle' | Hgt].
      * exists n. split; [by left |]. unfold covers. lia.
      * destruct (Hcov ip ltac:(lia)) as (m & Hm & Hc). exists m. split; [by right | done].
Qed.

Lemma merge_networks_spec fuel : forall l, (length l <= fuel)%nat -> starts_sorted l ->
  (forall ip, in_intervals (merge_networks fuel l) ip <-> in_networks l ip)
  /\ StronglySorted (fun i j => i.2 + 1 < j.1) (merge_networks fuel l)
  /\ (forall i, i ∈ merge_networks fuel l -> i.1 <= i.2 /\ exists n, n ∈ l /\ i.1 = network n).
Proof.
  induction fuel as [| fuel IH]; intros l Hlen Hs.
  { destruct l; [| cbn in Hlen; lia]. split_and!; [| constructor |]; cbn.
    - intros ip. split; intros (? & ?%not_elem_of_nil & _); done.
    - by intros i ?%not_elem_of_nil. }
  destruct l as [| n l]; cbn [merge_networks].
  { split_and!; [| constructor |]; cbn.
    - intros ip. split; intros (? & ?%not_elem_of_nil & _); done.
    - by intros i ?%not_elem_of_nil. }
  pose proof (broadcast_range n) as [Hb1 Hb2]. change (2 ^ 32) with 4294967296 in *.
  destruct (absorb_spec l (broadcast n)) as (pre & Hpre & Hle & Hbr & Hcov & Hgap);
    [unfold u32_max; lia |].
  destruct (absorb (broadcast n) l) as [e rest]. cbn [fst snd] in *. subst l.
  pose proof (network_le_broadcast n) as Hnb.
  inversion Hs as [| ? ? Hs' Hall]; subst.
  assert (starts_sorted rest) as Hsr by by apply StronglySorted_app in Hs' as (_ & _ & ?).
  destruct (IH rest) as (Hex & Hsep & Hel); [cbn in Hlen; rewrite length_app in Hlen; lia | done |].
  assert (forall m, m ∈ pre -> network n <= network m) as Hpn.
  { intros m Hm. apply (proj1 (Forall_forall _ _) Hall). apply elem_of_app. by left. }
  assert (forall m, m ∈ rest -> e + 1 < network m) as Hrest.
  { intros m Hm. destruct rest as [| r rest']; [by apply not_elem_of_nil in Hm |].
    specialize (Hgap r rest' eq_refl). apply elem_of_cons in Hm as [-> | Hm]; [done |].
    inversion Hsr as [| ? ? _ Hall']; subst. apply (proj1 (Forall_forall _ _) Hall') in Hm. lia. }
  split_and!.
  - intros ip. split.
    + intros (i & [-> | Hi]%elem_of_cons & Hr); cbn in *.
      * destruct (Z.le_gt_cases ip (broadcast n)) as [Hc | Hc].
        -- exists n. split; [by left | unfold covers; lia].
        -- destruct (Hcov ip ltac:(lia)) as (m & Hm & Hcm). exists m. split; [| done].
           right. apply elem_of_app. by left.
      * destruct (proj1 (Hex ip)) as (m & Hm & Hc); [by exists i |]. exists m. split; [| done].
        right. apply elem_of_app. by right.
    + intros (m & [-> | [Hm | Hm]%elem_of_app]%elem_of_cons & Hc).
      * exists (network n, e). split; [by left |]. unfold covers in Hc. cbn. lia.
      * exists (network n, e). split; [by left |]. specialize (Hpn m Hm). specialize (Hbr m Hm).
        unfold covers in Hc. cbn. lia.
      * destruct (proj2 (Hex ip)) as (i & Hi & Hr); [by exists m |]. exists i. split; [by right | done].
  - constructor; [done |]. apply Forall_forall. intros i Hi. destruct (Hel i Hi) as (_ & m & Hm & ->). by apply Hrest.
  - intros i [-> | Hi]%elem_of_cons; cbn.
    + split; [lia |]. exists n. split; [by left | done].
    + destruct (Hel i Hi) as (? & m & Hm & ?). split; [done |]. exists m. split; [| done].
      right. apply elem_of_app. by right.
Qed.

(** ** The marks of the kernel are the targets of the policy *)

(** The destination of the rule of an index, as the kernel sees it: the written network, or the
    intervals loaded into its set. *)
Definition destination_holds (p : policy) (index : nat) (ip : Z) : Prop :=
  exists rule, ip_rules (config p) !! index = Some rule /\
    match i_matcher rule with
    | Cidr v => exists n, net_parse v = Some n /\ covers n ip
    | GeoIp tag => in_intervals (merge_networks (length (ip_networks (geo p) tag)) (ip_networks (geo p) tag)) ip
    end.

Lemma disjoint_starts l : disjoint_sorted l -> starts_sorted l.
Proof.
  intros [Hs _]. unfold starts_sorted. induction Hs as [| n l Hs IH Hall]; constructor; [done |].
  eapply Forall_impl; [exact Hall |]. intros m Hm. pose proof (network_le_broadcast n). unfold below in Hm. lia.
Qed.

Lemma destination_covered p index rule ip :
  (forall tag, disjoint_sorted (ip_networks (geo p) tag)) -> ip_rules (config p) !! index = Some rule ->
  destination_holds p index ip <-> address_covered p (i_matcher rule) ip.
Proof.
  intros Hgeo Hi. unfold destination_holds, address_covered. rewrite Hi.
  split; [intros (? & [= <-] & Hd) | intros Hd; exists rule; split; [done |]]; revert Hd;
    destruct (i_matcher rule) as [v | tag]; try done.
  all: unfold matches_ip; rewrite matches_networks_spec by done.
  all: by destruct (merge_networks_spec _ _ (Nat.le_refl _) (disjoint_starts _ (Hgeo tag))) as [<- _].
Qed.

(** What the rendering reads of the rules of a compiled normal policy. *)
Lemma mark_rules_total p egress :
  refs_ok p -> exists rules, mapM (mark_rule p egress) (ip_rule_indices p) = Some rules.
Proof.
  intros Hrefs. apply mapM_is_Some_2, Forall_forall. intros index Hin.
  assert (RefIp index ∈ rule_refs p) as Href.
  { unfold ip_rule_indices in Hin. destruct (mode (config p)); [| by apply not_elem_of_nil in Hin].
    apply list_elem_of_omap in Hin as ([i | i] & Hi & [=]). by subst. }
  destruct (refs_ok_ip p index Hrefs Href) as [rule Hrule]. cbn. unfold mark_rule.
  rewrite Hrule. by eexists.
Qed.

(** One rule of the kernel says what one step of [ip_target] says. *)
Lemma mark_rule_agrees p egress index ip o r :
  compiled_ok p -> (forall tag, disjoint_sorted (ip_networks (geo p) tag)) ->
  index_target p ip index = Some o -> mark_rule p egress index = Some r ->
  match o with
  | Some (t, _) => destination_holds p index ip
                   /\ exists destination, r = Some (destination, target_mark (egress_target egress t))
  | None => is_Some r -> ~ destination_holds p index ip
  end.
Proof.
  intros Hc Hgeo. unfold index_target, mark_rule. destruct (ip_rules (config p) !! index) as [rule |] eqn:Hi; [| done].
  cbn. destruct (matches_ip_spec p index rule ip Hc Hi) as (b & -> & Hb). cbn.
  pose proof (destination_covered p index rule ip Hgeo Hi) as Hd. destruct (i_enabled rule); cbn.
  - intros [= <-] [= <-]. destruct b; [split; [by apply Hd, Hb | by eexists] |].
    intros _ Hh. apply Hd, Hb in Hh. done.
  - intros [= <-] [= <-]. by intros [? ?].
Qed.

(** The first rule whose destination holds a public address has the mark of the target
    that [ip_target] answers; when none does, [ip_target] answers the fallback. *)
Lemma first_rule_decides to_lowercase domain_to_ascii rx_build raw us ui c cat sites0 ips0 p egress ip :
  normalize_routing (net := net) to_lowercase domain_to_ascii raw = Ok c ->
  catalog_ok rx_build cat -> file_ok (cat_ips cat) ->
  compile rx_build us ui c (GeoData (Some cat) sites0 ips0) = Ok p ->
  is_lan_destination (net := net) ip = false ->
  exists rules t name,
    mapM (mark_rule p egress) (ip_rule_indices p) = Some rules /\ ip_target p ip = Some (t, name) /\
    ((exists k index destination, ip_rule_indices p !! k = Some index /\ destination_holds p index ip
        /\ rules !! k = Some (Some (destination, target_mark (egress_target egress t)))
        /\ forall j index' r, (j < k)%nat -> ip_rule_indices p !! j = Some index' -> rules !! j = Some (Some r) ->
             ~ destination_holds p index' ip)
     \/ (t = effective_fallback p
         /\ forall j index' r, ip_rule_indices p !! j = Some index' -> rules !! j = Some (Some r) ->
             ~ destination_holds p index' ip)).
Proof.
  intros Hn Hcat Hfile Hcomp Hlan.
  destruct (ip_target_decides _ (fun _ _ => false) to_lowercase domain_to_ascii raw us ui c _ p ip Hn Hcomp) as (t & name & Ht & _).
  pose proof (compile_compiled _ _ _ _ _ _ Hcomp) as Hc. apply compile_inv in Hcomp as (<- & Hsel & _).
  destruct (mark_rules_total p egress (normalized_refs _ _ _ _ Hn)) as [rules Hrules].
  exists rules, t, name. split_and!; [done | done |].
  apply mapM_Some in Hrules. unfold ip_target in Ht. rewrite Hlan in Ht.
  destruct (mode (config p)) eqn:Hm.
  2: { right. unfold effective_fallback, ip_rule_indices. rewrite Hm. split; [by injection Ht as <- _ | done]. }
  pose proof (fun tag => selected_networks_sorted rx_build cat sites0 ips0 _ us ui _ tag Hcat Hfile Hm Hsel) as Hgeo.
  destruct (try_find_map (index_target p ip) (ip_rule_indices p)) as [[[t' name'] |] |] eqn:Hs; [| | done]; cbn in Ht.
  - injection Ht as <- <-. left. apply search_Some in Hs as (k & index & Hk & Hi & Hbefore).
    destruct (Forall2_lookup_l _ _ _ _ _ Hrules Hk) as (r & Hr & Hmark).
    destruct (mark_rule_agrees p egress index ip _ r Hc Hgeo Hi Hmark) as [Hholds [destination ->]].
    exists k, index, destination. split_and!; [done | done | done |].
    intros j index' r' Hlt Hj Hr'. destruct (Forall2_lookup_l _ _ _ _ _ Hrules Hj) as (r2 & Hr2 & Hmark').
    rewrite Hr2 in Hr'. injection Hr' as ->.
    by apply (mark_rule_agrees p egress index' ip _ _ Hc Hgeo (Hbefore j index' Hlt Hj) Hmark').
  - injection Ht as <- <-. right. split; [done |].
    intros j index' r' Hj Hr'. destruct (Forall2_lookup_l _ _ _ _ _ Hrules Hj) as (r2 & Hr2 & Hmark').
    rewrite Hr2 in Hr'. injection Hr' as ->. apply list_elem_of_lookup_2 in Hj.
    by apply (mark_rule_agrees p egress index' ip _ _ Hc Hgeo (search_None _ _ Hs _ Hj) Hmark').
Qed.

(** A GeoIP set holds what the lookups of the agent say: the intervals rendered for networks in
    increasing order cover exactly the addresses of the networks, each starts at a network, and they
    leave a gap between one another (as an interval set requires). *)
Theorem rendered_intervals_exact (networks : list net) :
  starts_sorted networks ->
  (forall ip, in_intervals (merge_networks (length networks) networks) ip <-> in_networks networks ip)
  /\ StronglySorted (fun i j => i.2 + 1 < j.1) (merge_networks (length networks) networks)
  /\ Forall (fun i => i.1 <= i.2 /\ exists n, n ∈ networks /\ i.1 = network n)
       (merge_networks (length networks) networks).
Proof.
  intros Hs. destruct (merge_networks_spec _ _ (Nat.le_refl _) Hs) as (Hex & Hsep & Hel).
  split_and!; [done | done |]. by apply Forall_forall.
Qed.
End Dataplane.

(** ** Marks *)

(** The numbers the mask texts of the script denote. *)
Definition hex_value (s : string) : option Z :=
  digits ← strip_prefix "0x" s; parse_radix 16 u32_max digits.

(** The mark of a packet after a [set_mark] rule of the script. *)
Definition marked (keep mark m : Z) : Z := Z.lor (Z.land m keep) mark.

Lemma marked_testbit keep mark m i :
  0 <= i -> Z.testbit (marked keep mark m) i = Z.testbit m i && Z.testbit keep i || Z.testbit mark i.
Proof. intros Hi. unfold marked. by rewrite Z.lor_spec, Z.land_spec. Qed.

Lemma seqZ_check (P : Z -> bool) n i : forallb P (seqZ 0 n) = true -> 0 <= i < n -> P i = true.
Proof. rewrite forallb_forall. intros HP Hi. apply HP, list_elem_of_In, elem_of_seqZ. lia. Qed.

(** Per bit: a target's mark lies in the mask, and the kept bits are the others. *)
Lemma mark_bits t i :
  0 <= i < 32 ->
  Z.testbit 0xfff8ffff i = negb (Z.testbit 0x70000 i)
  /\ (Z.testbit (target_mark t) i = true -> Z.testbit 0x70000 i = true).
Proof.
  intros Hi.
  pose proof (seqZ_check (fun i => Bool.eqb (Z.testbit 0xfff8ffff i) (negb (Z.testbit 0x70000 i))
    && implb (Z.testbit (target_mark t) i) (Z.testbit 0x70000 i)) 32 i) as Hall.
  destruct (andb_prop _ _ (Hall ltac:(by destruct t) Hi)) as [H1 H2].
  apply eqb_prop in H1. split; [done |]. by destruct (Z.testbit (target_mark t) i), (Z.testbit 0x70000 i).
Qed.

(** The marks of the script. With the mask and keep texts it writes, setting the mark of a target
    on any 32-bit mark keeps every foreign bit, makes the Gofro bits exactly the target's mark, which
    tells the four targets apart, and the kernel's policy rule 0x20000/0x30000 selects the VPN table
    for the VPN and WARP targets and no other. *)
Theorem marks_select_targets m t :
  is_u 32 m ->
  exists mask keep, hex_value GOFRO_MARK_MASK = Some mask /\ hex_value KEEP_FOREIGN_MARKS = Some keep /\
    let m' := marked keep (target_mark t) m in
    is_u 32 m' /\ Z.land m' keep = Z.land m keep /\ Z.land m' mask = target_mark t
    /\ (forall u, Z.land m' mask = target_mark u -> u = t)
    /\ (Z.land m' 0x30000 = 0x20000 <-> t = Vpn \/ t = Warp).
Proof.
  intros Hm. exists 0x70000, 0xfff8ffff. split_and!; [done | done |]. cbn zeta.
  assert (is_u 32 (target_mark t)) as Ht by (destruct t; split; done).
  assert (is_u 32 (marked 0xfff8ffff (target_mark t) m)) as Hm'.
  { apply lor_is_u; [lia | apply land_is_u_l; [lia | done | lia] | done]. }
  assert (forall i, 32 <= i -> Z.testbit (marked 0xfff8ffff (target_mark t) m) i = false) as Hhigh
    by (intros i Hi; by apply (testbit_is_u 32)).
  assert (Z.land (marked 0xfff8ffff (target_mark t) m) 0x70000 = target_mark t) as Hmask.
  { apply Z.bits_inj'. intros i Hi. rewrite Z.land_spec.
    destruct (Z.lt_ge_cases i 32) as [Hlt | Hge].
    - rewrite marked_testbit by done. destruct (mark_bits t i ltac:(lia)) as [-> Hin].
      destruct (Z.testbit (target_mark t) i), (Z.testbit 0x70000 i), (Z.testbit m i); try done; by specialize (Hin eq_refl).
    - rewrite Hhigh by done. by rewrite (testbit_is_u 32 (target_mark t)). }
  split_and!.
  - done.
  - apply Z.bits_inj'. intros i Hi. rewrite !Z.land_spec. destruct (Z.lt_ge_cases i 32) as [Hlt | Hge].
    + rewrite marked_testbit by done. destruct (mark_bits t i ltac:(lia)) as [-> Hin].
      destruct (Z.testbit (target_mark t) i), (Z.testbit 0x70000 i), (Z.testbit m i); try done; by specialize (Hin eq_refl).
    + rewrite Hhigh by done. by rewrite (testbit_is_u 32 m).
  - done.
  - intros u. rewrite Hmask. by destruct t, u.
  - change 0x30000 with (Z.land 0x70000 0x30000) at 1. rewrite Z.land_assoc, Hmask.
    destruct t; cbn; naive_solver.
Qed.

Lemma egress_target_cases e t :
  egress_target e t = match t with
                      | Vpn => if egress_enabled e then Vpn else Direct
                      | Warp => match warp_source e with
                                | Some _ => if egress_enabled e then Warp else Block
                                | None => Block
                                end
                      | t => t
                      end.
Proof. by destruct e as [[] []], t. Qed.

(** Where the WARP source of a configuration comes from: the first server that has the active
    key, if it is managed and has a tunnel address in 10.202.0.0/24. *)
Definition warp_source_of `{Ipnet net} (c : controller_config) (source : Z) : Prop :=
  exists k server address network host,
    servers c !! k = Some server /\ active_server_key c = Some (public_key server)
    /\ (forall j other, (j < k)%nat -> servers c !! j = Some other -> active_server_key c <> Some (public_key other))
    /\ is_Some (management server) /\ client_tunnel_address server = Some address
    /\ net_parse (net := net) address = Some network
    /\ addr network = ipv4 10 202 0 host /\ 2 <= host <= 254 /\ source = ipv4 10 202 1 host.

Lemma source_address_iff a source : is_u 32 a ->
  source_address a = Some source <-> exists host, a = ipv4 10 202 0 host /\ 2 <= host <= 254 /\ source = ipv4 10 202 1 host.
Proof.
  intros Ha. unfold source_address. split.
  - pose proof (ipv4_octets a Ha) as Hip. destruct (octets a) as [[[x y] z] host]. destruct Hip as [Hip _].
    case_match eqn:E; [| done]. intros [= <-]. assert (x = 10 /\ y = 202 /\ z = 0 /\ 2 <= host <= 254) as (-> & -> & -> & ?) by lia. by exists host.
  - intros (host & -> & Hhost & ->). rewrite octets_ipv4 by (unfold is_u; lia).
    rewrite (proj2 (Z.leb_le 2 host)), (proj2 (Z.leb_le host 254)) by lia. done.
Qed.

Lemma egress_source `{IpnetLaws net} (c : controller_config) source :
  warp_source (egress_from_config (net := net) c) = Some source <-> warp_source_of (net := net) c source.
Proof.
  unfold egress_from_config, warp_source_of. cbn [warp_source]. split.
  - intros (server & (k & Hk & Hactive%bool_decide_eq_true & Hbefore)%find_first_Some & Hs)%bind_Some.
    apply bind_Some in Hs as (m & Hm & Hs). apply bind_Some in Hs as (address & Ha & Hs). apply bind_Some in Hs as (network & Hp & Hs).
    apply source_address_iff in Hs as (host & Hn & Hhost & ->); [| apply addr_range].
    exists k, server, address, network, host. split_and!; try done; try lia; try by rewrite Hm.
    intros j other Hlt Hj. specialize (Hbefore j other Hlt Hj). apply bool_decide_eq_false in Hbefore. congruence.
  - intros (k & server & address & network & host & Hk & Hactive & Hbefore & [m Hm] & Ha & Hp & Hn & Hhost & ->).
    assert (find_first (fun s => bool_decide (Some (public_key s) = active_server_key c)) (servers c) = Some server) as ->.
    { apply find_first_Some. exists k. split_and!; [done | by apply bool_decide_eq_true |].
      intros j other Hlt Hj. apply bool_decide_eq_false. specialize (Hbefore j other Hlt Hj). congruence. }
    cbn [mbind option_bind]. rewrite Hm. cbn [mbind option_bind]. rewrite Ha. cbn [mbind option_bind]. rewrite Hp. cbn [mbind option_bind].
    apply source_address_iff; [apply addr_range | eauto].
Qed.

(** C38. Fail closed: the mark an intended target gets never takes protected traffic to the open
    internet. For every configuration, WARP traffic is marked for WARP exactly when the VPN is switched
    on and the first server with the active key is managed and has a tunnel address 10.202.0.2-254,
    whose source is then 10.202.1.2-254, and is dropped otherwise; VPN traffic goes through
    the VPN exactly when it is switched on, and directly otherwise; blocked and direct traffic stay
    what they are. *)
Theorem egress_fails_closed `{IpnetLaws net} (c : controller_config) :
  let e := egress_from_config (net := net) c in
  (forall source, warp_source e = Some source <-> warp_source_of (net := net) c source)
  /\ egress_target e Warp = (if decide (vpn_enabled c = true /\ is_Some (warp_source e)) then Warp else Block)
  /\ egress_target e Vpn = (if vpn_enabled c then Vpn else Direct)
  /\ egress_target e Direct = Direct /\ egress_target e Block = Block.
Proof.
  intros e. split; [intros source; apply egress_source |]. rewrite !egress_target_cases.
  assert (egress_enabled e = vpn_enabled c) as -> by done. split_and!; try done.
  destruct (vpn_enabled c), (warp_source e) as [source |]; case_decide as Hd; try done; by destruct Hd as [? [? ?]] || (destruct Hd; split; eauto).
Qed.

(** ** Examples *)

Definition sample_lan : lan_context PrefixNet.t :=
  LanContext "br-lan" (ipv4 192 168 1 1) (PrefixNet.get (PrefixNet.make (ipv4 192 168 1 0) 24)).

Definition sample_data : GeoData.geodata (net := PrefixNet.t) (rx := unit) := GeoData (Some sample_catalog) ∅ ∅.

Definition sample_routing_rules : routing_config :=
  RoutingConfig [] [IpRule "ru" true (GeoIp "ru") Direct; IpRule "five" true (Cidr "5.0.0.0/8") Warp] Vpn Rules None.

Definition sample_mark_policy : result (routing_policy (net := PrefixNet.t) (rx := unit)) :=
  compile (fun _ _ _ => None) (fun _ => false) (fun _ => false) sample_routing_rules sample_data.

Lemma sample_file_ok : file_ok (cat_ips sample_catalog).
Proof.
  split_and!; [apply (proj1 (bool_decide_eq_true _)); by vm_compute | by vm_compute |].
  intros tag rng Hlk. cbn in Hlk. apply lookup_singleton_Some in Hlk as [_ <-].
  unfold in_file. split_and!; by vm_compute.
Qed.

Lemma sample_rules_normal :
  normalize_routing (net := PrefixNet.t) to_ascii_lowercase sample_idna sample_routing_rules = Ok sample_routing_rules.
Proof. by vm_compute. Qed.

Definition sample_networks : list PrefixNet.t :=
  PrefixNet.get <$> [PrefixNet.make (ipv4 5 0 0 0) 13; PrefixNet.make (ipv4 5 8 0 0) 13; PrefixNet.make (ipv4 9 9 9 9) 32].

Example sample_networks_text : append_networks sample_networks = "5.0.0.0-5.15.255.255, 9.9.9.9"%string.
Proof. by vm_compute. Qed.

Lemma sample_networks_sorted : starts_sorted sample_networks.
Proof. repeat constructor; by vm_compute. Qed.

Lemma rendered_intervals_exact_witness :
  in_intervals (merge_networks 3 sample_networks) (ipv4 5 9 0 0)
  <-> in_networks sample_networks (ipv4 5 9 0 0).
Proof. apply (rendered_intervals_exact sample_networks sample_networks_sorted). Defined.

Lemma marks_select_targets_witness :
  exists mask keep, hex_value GOFRO_MARK_MASK = Some mask /\ hex_value KEEP_FOREIGN_MARKS = Some keep /\
    Z.land (marked keep (target_mark Warp) 0x80000005) mask = 0x60000.
Proof.
  destruct (marks_select_targets 0x80000005 Warp) as (mask & keep & Hm & Hk & _ & _ & He & _); [by split |].
  by exists mask, keep.
Defined.

(** An active managed server; and the same with the VPN switched off. *)
Definition sample_warp_server : server_profile :=
  ServerProfile "warp" "" "192.0.2.1:51820" "key" (Some "10.202.0.7/32"%string) None (Some (ManagedServer "192.0.2.1" 22 "host key")).

Definition sample_warp (enabled : bool) : controller_config :=
  ControllerConfig false [] enabled (Some "key"%string) [sample_warp_server] routing_default.

Lemma egress_fails_closed_witness :
  warp_source_of (net := PrefixNet.t) (sample_warp true) (ipv4 10 202 1 7)
  /\ egress_target (egress_from_config (net := PrefixNet.t) (sample_warp true)) Warp = Warp
  /\ egress_target (egress_from_config (net := PrefixNet.t) (sample_warp false)) Warp = Block.
Proof.
  destruct (egress_fails_closed (net := PrefixNet.t) (sample_warp true)) as (Hs & _).
  destruct (egress_fails_closed (net := PrefixNet.t) (sample_warp false)) as (_ & Hw & _).
  split_and!; [apply Hs; by vm_compute | by vm_compute | rewrite Hw; by vm_compute].
Defined.
