(* ===== verification/Kernel.v ===== *)
(** * What the kernel does with the rules it is given (crates/gofro-agent/src/dataplane.rs)

    A reader of the texts that Dataplane.v renders: of the rules of the chain
    [gofro_mark] that ask for the destination of a packet from the LAN, and of the address sets
    they name.  It knows nothing of policies; the theorem says that what it reads does
    what the policy says. *)

From stdpp Require Import base gmap strings list.
From Stdlib Require Import Ascii ZArith Lia.
From S2P Require Import Prelude RustStd Net Model GeoData Config Routing Dataplane.

(** ** The reader *)

Section Reader.
Context {net : Type} `{Ipnet net}.

(** One element of a set: an interval, a network or an address. *)
Definition element_holds (element : string) (ip : Z) : bool :=
  match split_once "-"%char element with
  | Some (first, last) =>
      match parse_ipv4 first, parse_ipv4 last with
      | Some first, Some last => (first <=? ip) && (ip <=? last)
      | _, _ => false
      end
  | None =>
      if contains_byte "/"%char element
      then match net_parse (net := net) element with Some network => contains_ip network ip | None => false end
      else bool_decide (parse_ipv4 element = Some ip)
  end.

(** Elements are separated by commas, which blanks may follow. *)
Definition elements_hold (elements : string) (ip : Z) : bool :=
  existsb (fun element => element_holds (default element (strip_prefix " " element)) ip) (split ","%char elements).

(** The commands that declare a set of this name and fill it. *)
Definition set_holds (name : string) (ip : Z) (commands : string) : bool :=
  match strip_prefix ("add set inet gofro_routing " +:+ name +:+ " { type ipv4_addr; flags interval; auto-merge; }" +:+ NL
                      +:+ "add element inet gofro_routing " +:+ name +:+ " { ") commands ≫= strip_suffix (" }" +:+ NL) with
  | Some elements => elements_hold elements ip
  | None => false
  end.

(** A destination: a set by its name, elements in braces, or one element. *)
Definition destination_matches (sets : list string) (ip : Z) (destination : string) : bool :=
  match strip_prefix "@" destination with
  | Some name => existsb (set_holds name ip) sets
  | None =>
      match strip_prefix "{ " destination ≫= strip_suffix " }" with
      | Some elements => elements_hold elements ip
      | None => element_holds destination ip
      end
  end.

(** A rule for packets from the device that have no mark of ours yet: where it applies, everywhere
    without a destination, and the mark it sets. *)
Definition read_rule (device : string) (line : string) : option (option string * Z) :=
  body ← strip_suffix NL line;
  rest ← strip_prefix ("add rule inet gofro_routing gofro_mark iifname " +:+ quoted device +:+ " meta mark & 0x70000 == 0 ") body;
  '(condition, mark) ← rsplit_once " "%char rest;
  mark ← parse_radix 10 u32_max mark;
  condition ← strip_suffix "meta mark set (meta mark & 0xfff8ffff) |" condition;
  if bool_decide (condition = ""%string) then Some (None, mark)
  else
    destination ← strip_prefix "ip daddr " condition;
    destination ← strip_suffix " " destination;
    Some (Some destination, mark).

Definition applies (sets : list string) (ip : Z) (destination : option string) : bool :=
  match destination with Some d => destination_matches sets ip d | None => true end.

(** One rule on the mark of a packet. *)
Definition run_rule (device : string) (sets : list string) (ip : Z) (mark : Z) (line : string) : Z :=
  match read_rule device line with
  | Some (destination, value) =>
      if (Z.land mark 0x70000 =? 0) && applies sets ip destination then Z.lor (Z.land mark 0xfff8ffff) value else mark
  | None => mark
  end.

Definition run_chain (device : string) (sets lines : list string) (ip mark : Z) : Z :=
  foldl (run_rule device sets ip) mark lines.
End Reader.

(** ** Texts *)

Lemma rsplit_once_last (a b : string) c :
  Forall (fun x => eqb_ascii x c = false) (chars b) -> rsplit_once c (a +:+ str [c] +:+ b) = Some (a, b).
Proof.
  intros Hb. unfold rsplit_once. rewrite (chars_app a), (chars_app (str [c])), chars_str. cbn [app].
  rewrite rev_app_distr. cbn [rev]. rewrite <- app_assoc. cbn [app]. rewrite split_once_bytes_app by by apply Forall_rev.
  by rewrite !rev_involutive, !str_chars.
Qed.

Lemma strip_prefix_app p s : strip_prefix p (p +:+ s) = Some s.
Proof. by apply strip_prefix_Some. Qed.

Lemma strip_suffix_app p s : strip_suffix p (s +:+ p) = Some s.
Proof. by apply strip_suffix_Some. Qed.

Lemma show_no_sep c n : is_ascii_digit c = false -> 0 <= n -> Forall (fun a => eqb_ascii a c = false) (chars (show n)).
Proof. intros Hc Hn. unfold show. rewrite chars_str. apply digits_no_sep; [done |]. by apply show_bytes_digits. Qed.

Lemma show_ipv4_no_sep c ip : is_ascii_digit c = false -> eqb_ascii "."%char c = false -> is_u 32 ip ->
  Forall (fun a => eqb_ascii a c = false) (chars (show_ipv4 ip)).
Proof.
  intros Hc Hdot Hip. pose proof (ipv4_octets ip Hip) as Ho. unfold show_ipv4. destruct (octets ip) as [[[a b] d] e].
  destruct Ho as (_ & Ha & Hb & Hd & He). unfold join. rewrite chars_str. cbn [fmap list_fmap join_bytes]. change (chars ".") with ["."%char].
  unfold is_u in *. repeat (apply Forall_app; split); try (apply show_no_sep; [done | lia]); by repeat constructor.
Qed.

Lemma no_sep_once c s : Forall (fun a => eqb_ascii a c = false) (chars s) -> split_once c s = None.
Proof.
  intros Hs. unfold split_once. destruct (split_once_bytes c (chars s)) as [[a b] |] eqn:E; [| done].
  apply split_once_bytes_Some in E as [E _]. rewrite E in Hs. apply Forall_app in Hs as [_ Hs]. apply Forall_cons in Hs as [Hc _].
  unfold eqb_ascii in Hc. by rewrite bool_decide_true in Hc.
Qed.

Lemma contains_byte_spec c s : contains_byte c s = false <-> Forall (fun a => eqb_ascii a c = false) (chars s).
Proof.
  unfold contains_byte, eqb_ascii. induction (chars s) as [| a l IH]; [by split |]. cbn [existsb]. rewrite orb_false_iff, Forall_cons, IH.
  apply and_iff_compat_r. rewrite !bool_decide_eq_false. by split; intros Hc <-.
Qed.

(** Pieces without a comma, joined with a comma and a blank, come apart. *)
Lemma split_comma_blank (ls : list (list ascii)) : ls <> [] -> Forall (Forall (fun a => eqb_ascii a ","%char = false)) ls ->
  split_bytes ","%char (join_bytes [","; " "]%char ls) = match ls with [] => [] | l :: ls => l :: (cons " "%char <$> ls) end.
Proof.
  intros Hne Hls. destruct Hls as [| l ls Hl Hls]; [done |]. clear Hne. revert l Hl.
  induction Hls as [| k ls Hk Hls IH]; intros l Hl; [by apply split_bytes_none |].
  rewrite join_bytes_cons. cbn [app]. rewrite split_bytes_app by done. f_equal.
  change (split_bytes ","%char (" "%char :: ?l)) with (match split_bytes ","%char l with h :: t => (" "%char :: h) :: t | [] => [[" "%char]] end).
  by rewrite (IH k Hk).
Qed.

(** A text with no byte [c] does not start with it. *)
Lemma no_sep_prefix c s : Forall (fun a => eqb_ascii a c = false) (chars s) -> strip_prefix (str [c]) s = None.
Proof.
  intros Hs. destruct (strip_prefix _ s) as [r |] eqn:E; [| done]. apply strip_prefix_Some in E as ->.
  rewrite chars_app, chars_str in Hs. apply Forall_cons in Hs as [Hc _]. unfold eqb_ascii in Hc. by rewrite bool_decide_true in Hc.
Qed.

Section Reading.
Context {net : Type} `{IpnetLaws net}.
Context {rx : Type}.
#[local] Notation policy := (routing_policy (net := net) (rx := rx)).

Definition bounded (i : Z * Z) : Prop := is_u 32 i.1 /\ is_u 32 i.2 /\ i.1 <= i.2.

Lemma interval_no_sep c i : is_ascii_digit c = false -> eqb_ascii "."%char c = false -> eqb_ascii "-"%char c = false -> bounded i ->
  Forall (fun a => eqb_ascii a c = false) (chars (show_interval i)).
Proof.
  intros Hc Hdot Hdash (H1 & H2 & _). unfold show_interval. destruct (_ =? _); [by apply show_ipv4_no_sep |].
  rewrite (chars_app (show_ipv4 i.1)), (chars_app "-"). apply Forall_app. split; [by apply show_ipv4_no_sep |].
  apply Forall_cons. split; [done | by apply show_ipv4_no_sep].
Qed.

Lemma interval_holds i ip : bounded i -> element_holds (net := net) (show_interval i) ip = true <-> i.1 <= ip <= i.2.
Proof.
  intros (H1 & H2 & Hle). unfold show_interval, element_holds. destruct (Z.eqb_spec i.1 i.2) as [He | Hne].
  - rewrite no_sep_once by by apply show_ipv4_no_sep.
    rewrite (proj2 (contains_byte_spec _ _)) by by apply show_ipv4_no_sep.
    rewrite parse_show_ipv4 by done. rewrite bool_decide_eq_true. split; [intros [= <-]; lia | intros ?; f_equal; lia].
  - assert (split_once "-"%char (show_ipv4 i.1 +:+ "-" +:+ show_ipv4 i.2) = Some (show_ipv4 i.1, show_ipv4 i.2)) as ->.
    { unfold split_once. rewrite (chars_app (show_ipv4 i.1)), (chars_app "-"). cbn [app].
      change (chars "-" ++ ?l) with ("-"%char :: l). rewrite split_once_bytes_app by by apply show_ipv4_no_sep. by rewrite !str_chars. }
    rewrite !parse_show_ipv4 by done. rewrite andb_true_iff. lia.
Qed.

(** Elements hold what each of them holds. *)
Lemma elements_are {A} (f : A -> string) (P : A -> Prop) (l : list A) ip : l <> [] ->
  (forall a, a ∈ l -> (forall c, c = ","%char \/ c = " "%char -> Forall (fun b => eqb_ascii b c = false) (chars (f a)))
             /\ (element_holds (net := net) (f a) ip = true <-> P a)) ->
  elements_hold (net := net) (join ", " (f <$> l)) ip = true <-> exists a, a ∈ l /\ P a.
Proof.
  intros Hne Hall. unfold elements_hold, split, join. rewrite chars_str. change (chars ", ") with [","%char; " "%char].
  rewrite <- list_fmap_compose. change (?g ∘ f) with (fun a => chars (f a)).
  rewrite split_comma_blank; [| by destruct l | apply Forall_fmap, Forall_forall; intros a Ha; apply (Hall a Ha); by left].
  destruct l as [| a l]; [done |]. cbn [fmap list_fmap existsb]. rewrite orb_true_iff, existsb_exists, str_chars.
  assert (strip_prefix " " (f a) = None) as -> by (apply (no_sep_prefix " "%char), (Hall a); [by left | by right]).
  cbn [from_option id]. rewrite (proj2 (Hall a ltac:(by left))). split.
  - intros [Hi | (e & He & Hh)]; [exists a; split; [by left | done] |].
    apply list_elem_of_In, list_elem_of_fmap in He as (b & -> & (b' & -> & (x & -> & Hx)%list_elem_of_fmap)%list_elem_of_fmap).
    change (str (" "%char :: ?k)) with (" " +:+ str k) in Hh. rewrite str_chars, strip_prefix_app in Hh. cbn [from_option id] in Hh.
    exists x. split; [by right |]. apply Hall in Hh; [done | by right].
  - intros (x & [-> | Hx]%elem_of_cons & Hin); [by left | right].
    exists (str (" "%char :: chars (f x))). split.
    + apply list_elem_of_In, list_elem_of_fmap. eexists. split; [done |]. apply list_elem_of_fmap. eexists. split; [done |].
      apply list_elem_of_fmap. by exists x.
    + change (str (" "%char :: ?k)) with (" " +:+ str k). rewrite str_chars, strip_prefix_app. cbn [from_option id].
      apply Hall; [by right | done].
Qed.

(** What is rendered for a set holds what its intervals do. *)
Lemma elements_are_intervals ivs ip : ivs <> [] -> Forall bounded ivs ->
  elements_hold (net := net) (join ", " (show_interval <$> ivs)) ip = true <-> in_intervals ivs ip.
Proof.
  intros Hne Hb. apply elements_are; [done |]. intros i Hi. assert (bounded i) as Hbi by by eapply Forall_forall in Hb.
  split; [| by apply interval_holds]. intros c [-> | ->]; by apply interval_no_sep.
Qed.

(** A network written out. *)
Lemma network_no_sep c (n : net) : is_ascii_digit c = false -> eqb_ascii "."%char c = false -> eqb_ascii "/"%char c = false ->
  Forall (fun a => eqb_ascii a c = false) (chars (net_show n)).
Proof.
  intros Hc Hdot Hslash. rewrite net_show_text, (chars_app (show_ipv4 _)), (chars_app "/"). apply Forall_app.
  split; [apply show_ipv4_no_sep; [done.. | apply addr_range] |]. apply Forall_cons.
  split; [done | apply show_no_sep; [done | apply prefix_range]].
Qed.

Lemma network_holds (n : net) ip : element_holds (net := net) (net_show n) ip = true <-> covers n ip.
Proof.
  unfold element_holds. rewrite no_sep_once by by apply network_no_sep.
  assert (contains_byte "/"%char (net_show n) = true) as ->.
  { rewrite net_show_text. unfold contains_byte. rewrite (chars_app (show_ipv4 _)), (chars_app "/"), existsb_app. apply orb_true_iff. by right. }
  rewrite parse_net_show. apply covers_contains.
Qed.

(** ** Rules *)

Lemma read_condition (lan : lan_context net) (condition : string) v :
  0 <= v <= u32_max ->
  read_rule (lan_device lan) (wln [on_lan lan "gofro_mark"; unmarked; condition; set_mark "meta" (show v)])
  = if bool_decide (condition = ""%string) then Some (None, v)
    else destination ← strip_prefix "ip daddr " condition; destination ← strip_suffix " " destination; Some (Some destination, v).
Proof.
  intros Hv. unfold read_rule.
  assert (wln [on_lan lan "gofro_mark"; unmarked; condition; set_mark "meta" (show v)]
    = (("add rule inet gofro_routing gofro_mark iifname " +:+ quoted (lan_device lan) +:+ " meta mark & 0x70000 == 0 ")
       +:+ ((condition +:+ "meta mark set (meta mark & 0xfff8ffff) |") +:+ str [" "%char] +:+ show v)) +:+ NL) as ->.
  { unfold wln, on_lan, quoted, set_mark, unmarked, cat. cbn [foldr]. rewrite <- !string_app_assoc. done. }
  rewrite strip_suffix_app. cbn [mbind option_bind]. rewrite strip_prefix_app. cbn [mbind option_bind].
  rewrite rsplit_once_last by (apply show_no_sep; [done | lia]). cbn [mbind option_bind].
  rewrite parse_show by lia. cbn [mbind option_bind]. by rewrite strip_suffix_app.
Qed.

Lemma mark_bounds t : 0 <= target_mark t <= u32_max.
Proof. by destruct t. Qed.

Lemma read_mark_rule (lan : lan_context net) destination t :
  read_rule (lan_device lan) (mark_rule_line lan (Some (destination, target_mark t))) = Some (Some destination, target_mark t).
Proof.
  assert (mark_rule_line lan (Some (destination, target_mark t)) =
    wln [on_lan lan "gofro_mark"; unmarked; "ip daddr " +:+ destination +:+ " "; set_mark "meta" (show (target_mark t))]) as ->.
  { unfold mark_rule_line, wln, cat. cbn [foldr]. rewrite <- !string_app_assoc. done. }
  rewrite read_condition by apply mark_bounds. rewrite bool_decide_false by done.
  rewrite strip_prefix_app. cbn [mbind option_bind]. by rewrite strip_suffix_app.
Qed.

Lemma read_fallback (lan : lan_context net) egress (p : policy) :
  read_rule (lan_device lan) (fallback_line lan egress p) = Some (None, target_mark (egress_target egress (effective_fallback p))).
Proof.
  assert (fallback_line lan egress p =
    wln [on_lan lan "gofro_mark"; unmarked; ""%string; set_mark "meta" (show (target_mark (egress_target egress (effective_fallback p))))])
    as -> by done.
  by rewrite read_condition by apply mark_bounds.
Qed.

(** ** Sets *)

Definition RULE_SET : string := "add set inet gofro_routing ip_rule_".

Lemma set_number (a b : nat) (u v : string) :
  RULE_SET +:+ show (Z.of_nat a) +:+ " " +:+ u = RULE_SET +:+ show (Z.of_nat b) +:+ " " +:+ v -> a = b /\ u = v.
Proof.
  intros Heq. apply (f_equal (fun s => s ← strip_prefix RULE_SET s; split_once " "%char s)) in Heq.
  rewrite !strip_prefix_app in Heq. cbn [mbind option_bind] in Heq. unfold split_once in Heq.
  rewrite (chars_app (show (Z.of_nat a))), (chars_app " "), (chars_app (show (Z.of_nat b))), (chars_app " ") in Heq.
  change (chars " " ++ ?l) with (" "%char :: l) in Heq.
  rewrite !split_once_bytes_app in Heq by (apply show_no_sep; [done | lia]). rewrite !str_chars in Heq.
  injection Heq as Hn ->. apply show_inj in Hn; [| lia..]. by apply Nat2Z.inj in Hn.
Qed.

Definition DECLARED : string := "{ type ipv4_addr; flags interval; auto-merge; }".

(** The commands up to the elements. *)
Definition set_head (i : nat) : string :=
  RULE_SET +:+ show (Z.of_nat i) +:+ " " +:+ DECLARED +:+ NL +:+ "add element inet gofro_routing ip_rule_" +:+ show (Z.of_nat i) +:+ " { ".

Lemma set_head_number i rest : exists rest', set_head i +:+ rest = RULE_SET +:+ show (Z.of_nat i) +:+ " " +:+ DECLARED +:+ NL +:+ "add element" +:+ rest'.
Proof. unfold set_head. rewrite <- !string_app_assoc. by eexists. Qed.

(** The texts that are rendered for a set. *)
Inductive set_text (i : nat) : option string -> string -> Prop :=
| set_text_none : set_text i None ""
| set_text_empty : set_text i None (RULE_SET +:+ show (Z.of_nat i) +:+ " " +:+ DECLARED +:+ NL)
| set_text_filled elements : set_text i (Some elements) (set_head i +:+ elements +:+ " }" +:+ NL).

(** A set holds what its elements do, and is found by its own number only. *)
Lemma set_holds_iff (i j : nat) elements (text : string) ip : set_text j elements text ->
  set_holds (net := net) ("ip_rule_" +:+ show (Z.of_nat i)) ip text = true <->
  i = j /\ exists e, elements = Some e /\ elements_hold (net := net) e ip = true.
Proof.
  unfold set_holds. set (head := "add set inet gofro_routing " +:+ _).
  assert (head = set_head i) as -> by (subst head; unfold set_head, RULE_SET, DECLARED; rewrite <- !string_app_assoc; done).
  destruct 1 as [| | elements].
  - split; [| by intros (_ & ? & [=] & _)]. destruct (strip_prefix _ _) eqn:E; [| done]. by apply strip_prefix_Some in E.
  - split; [| by intros (_ & ? & [=] & _)]. destruct (strip_prefix _ _) as [rest |] eqn:E; [| done]. apply strip_prefix_Some in E.
    destruct (set_head_number i rest) as [rest' Hr]. rewrite Hr in E. apply set_number in E as [_ E].
    apply (f_equal (strip_prefix (DECLARED +:+ NL))) in E. rewrite (string_app_assoc DECLARED NL), strip_prefix_app in E. by vm_compute in E.
  - split.
    + destruct (strip_prefix _ _) as [rest |] eqn:E; [| done]. apply strip_prefix_Some in E.
      assert (j = i) as ->.
      { destruct (set_head_number i rest) as [r Hr], (set_head_number j (elements +:+ " }" +:+ NL)) as [r' Hr'].
        rewrite Hr, Hr' in E. by apply set_number in E as [? _]. }
      apply (f_equal (strip_prefix (set_head i))) in E. rewrite !strip_prefix_app in E. injection E as <-.
      cbn [mbind option_bind]. rewrite strip_suffix_app. eauto.
    + intros (<- & e & [= <-] & Hh). rewrite strip_prefix_app. cbn [mbind option_bind]. by rewrite strip_suffix_app.
Qed.

Definition rendered_elements (p : policy) (index : nat) : option string :=
  rule ← ip_rules (config p) !! index;
  match i_matcher rule with
  | GeoIp tag => if i_enabled rule && negb (bool_decide (ip_networks (geo p) tag = [])) then Some (append_networks (ip_networks (geo p) tag)) else None
  | Cidr _ => None
  end.

Lemma ip_set_text (p : policy) index text : ip_set_lines p index = Some text -> set_text index (rendered_elements p index) text.
Proof.
  unfold ip_set_lines, rendered_elements. destruct (ip_rules (config p) !! index) as [rule |]; [| done]. cbn [mbind option_bind].
  intros [= <-]. destruct (i_matcher rule) as [v | tag]; destruct (i_enabled rule); cbn [negb andb]; try constructor.
  set (head := wln _). assert (head = RULE_SET +:+ show (Z.of_nat index) +:+ " " +:+ DECLARED +:+ NL) as ->
    by (subst head; unfold wln, cat, RULE_SET, DECLARED; cbn [foldr]; rewrite <- !string_app_assoc; done).
  case_bool_decide as Hn; cbn [negb].
  - rewrite <- !string_app_assoc. change (NL +:+ "") with NL. constructor.
  - set (text := _ +:+ _). assert (text = set_head index +:+ append_networks (ip_networks (geo p) tag) +:+ " }" +:+ NL) as ->; [| constructor].
    subst text. unfold set_head. rewrite <- !string_app_assoc. done.
Qed.

Lemma intervals_bounded (networks : list net) : starts_sorted networks -> Forall bounded (merge_networks (length networks) networks).
Proof.
  intros Hs. destruct (merge_networks_spec _ _ (Nat.le_refl _) Hs) as (Hex & _ & Hel). apply Forall_forall. intros i Hi.
  destruct (Hel i Hi) as (Hle & n & _ & Hn). destruct (proj1 (Hex i.2)) as (m & _ & Hm); [exists i; split; [done | lia] |].
  pose proof (network_range n) as [??]. pose proof (broadcast_range m) as [??]. unfold covers in Hm.
  split_and!; [split; lia | split; lia | done].
Qed.

(** The rules of a normal policy write networks as they are printed. *)
Definition networks_printed (p : policy) : Prop :=
  forall i rule v, ip_rules (config p) !! i = Some rule -> i_matcher rule = Cidr v -> exists n : net, v = net_show n.

Lemma elements_networks (networks : list net) ip : networks <> [] -> starts_sorted networks ->
  elements_hold (net := net) (append_networks networks) ip = true <-> in_intervals (merge_networks (length networks) networks) ip.
Proof.
  intros Hne Hs. apply elements_are_intervals; [| by apply intervals_bounded].
  destruct networks as [| n l]; [done |]. cbn [length merge_networks]. by destruct (absorb _ l).
Qed.

(** The set of a rule, among the sets of all rules. *)
Lemma set_of_rule (p : policy) sets index rule tag ip :
  starts_sorted (ip_networks (geo p) tag) -> mapM (ip_set_lines p) (ip_rule_indices p) = Some sets -> index ∈ ip_rule_indices p ->
  ip_rules (config p) !! index = Some rule -> i_enabled rule = true -> i_matcher rule = GeoIp tag ->
  existsb (set_holds (net := net) ("ip_rule_" +:+ show (Z.of_nat index)) ip) sets = true <->
  in_intervals (merge_networks (length (ip_networks (geo p) tag)) (ip_networks (geo p) tag)) ip.
Proof.
  intros Hs Hsets%mapM_Some Hin Hrule Hen Hm. rewrite existsb_exists. setoid_rewrite <- list_elem_of_In.
  assert (rendered_elements p index = if bool_decide (ip_networks (geo p) tag = []) then None else Some (append_networks (ip_networks (geo p) tag))) as He
    by (unfold rendered_elements; rewrite Hrule; cbn [mbind option_bind]; rewrite Hm, Hen; by case_bool_decide).
  split.
  - intros (text & [k Hk]%list_elem_of_lookup & Hh). destruct (Forall2_lookup_r _ _ _ _ _ Hsets Hk) as (j & _ & Ht). apply ip_set_text in Ht.
    destruct (proj1 (set_holds_iff index j _ _ ip Ht) Hh) as (<- & e & Hel & He'). rewrite He in Hel. case_bool_decide; [done |]. injection Hel as <-.
    by apply elements_networks in He'.
  - intros Hh. assert (ip_networks (geo p) tag <> []) as Hne by (intros Hnil; rewrite Hnil in Hh; by destruct Hh as (? & ?%not_elem_of_nil & _)).
    apply list_elem_of_lookup in Hin as [k Hk]. destruct (Forall2_lookup_l _ _ _ _ _ Hsets Hk) as (text & Htext & Ht).
    exists text. split; [by eapply list_elem_of_lookup_2 |]. apply ip_set_text in Ht. apply (set_holds_iff _ _ _ _ _ Ht). split; [done |].
    rewrite He, bool_decide_false by done. eexists. split; [done |]. by apply elements_networks.
Qed.

(** A destination read from the rendered texts holds what the rule of the policy covers. *)
Lemma destination_read (p : policy) egress sets index destination mark ip :
  networks_printed p -> (forall tag, disjoint_sorted (ip_networks (geo p) tag)) ->
  mapM (ip_set_lines p) (ip_rule_indices p) = Some sets -> index ∈ ip_rule_indices p ->
  mark_rule p egress index = Some (Some (destination, mark)) ->
  destination_matches (net := net) sets ip destination = true <-> destination_holds p index ip.
Proof.
  intros Hprinted Hgeo Hsets Hin Hmark. unfold mark_rule in Hmark. unfold destination_holds, destination_matches.
  destruct (ip_rules (config p) !! index) as [rule |] eqn:Hrule; [| done]. cbn [mbind option_bind] in Hmark.
  destruct (i_enabled rule) eqn:Hen; [| done]. cbn [negb] in Hmark. injection Hmark as <- _.
  destruct (i_matcher rule) as [v | tag] eqn:Hm.
  - destruct (Hprinted _ _ _ Hrule Hm) as [n ->].
    assert (strip_prefix "@" (net_show n) = None) as -> by (by apply (no_sep_prefix "@"%char), network_no_sep).
    assert (strip_prefix "{ " (net_show n) = None) as -> by (destruct (strip_prefix _ _) as [r |] eqn:E; [| done]; apply strip_prefix_Some in E;
      pose proof (network_no_sep "{"%char n eq_refl eq_refl eq_refl) as Hno; rewrite E in Hno; by apply Forall_cons in Hno as [Hc _]).
    cbn [mbind option_bind]. rewrite network_holds. split.
    + intros Hc. exists rule. rewrite Hm. split; [done |]. exists n. by rewrite parse_net_show.
    + intros (? & [= <-] & Hr). rewrite Hm in Hr. destruct Hr as (n' & Hp & Hc). rewrite parse_net_show in Hp. by injection Hp as <-.
  - change ("@ip_rule_" +:+ ?x) with ("@" +:+ ("ip_rule_" +:+ x)). rewrite strip_prefix_app.
    rewrite (set_of_rule p sets index rule tag) by first [done | by apply disjoint_starts]. split.
    + intros Hh. exists rule. by rewrite Hm.
    + intros (? & [= <-] & Hr). by rewrite Hm in Hr.
Qed.

Lemma ip_sets_total (p : policy) : refs_ok p -> exists sets, mapM (ip_set_lines p) (ip_rule_indices p) = Some sets.
Proof.
  intros [rules Hrules%mapM_Some]%(mark_rules_total p (VpnEgress false None)). apply mapM_is_Some_2. clear -Hrules.
  induction Hrules as [| index r l k Hr _ IH]; constructor; [| done]. unfold mark_rule in Hr. unfold ip_set_lines.
  cbn. destruct (ip_rules (config p) !! index); [cbn; eauto | done].
Qed.

(** ** The chain *)

Lemma run_passes device sets ip lines m :
  (forall line d v, line ∈ lines -> read_rule device line = Some (d, v) -> applies (net := net) sets ip d = false) ->
  run_chain (net := net) device sets lines ip m = m.
Proof.
  unfold run_chain. revert m. induction lines as [| line lines IH]; intros m Hl; [done |]. cbn [foldl].
  assert (run_rule (net := net) device sets ip m line = m) as ->.
  { unfold run_rule. destruct (read_rule device line) as [[d v] |] eqn:E; [| done]. rewrite (Hl line d v) by (done || by left). by rewrite andb_false_r. }
  apply IH. intros line' d v Hin. apply Hl. by right.
Qed.

Lemma run_marked device sets ip lines m : Z.land m 0x70000 <> 0 -> run_chain (net := net) device sets lines ip m = m.
Proof.
  intros Hm. unfold run_chain. induction lines as [| line lines IH]; [done |]. cbn [foldl].
  assert (run_rule (net := net) device sets ip m line = m) as ->; [| done].
  unfold run_rule. destruct (read_rule device line) as [[d v] |]; [| done]. by rewrite (proj2 (Z.eqb_neq _ _)).
Qed.

Lemma target_mark_stays m t : is_u 32 m -> Z.land (marked 0xfff8ffff (target_mark t) m) 0x70000 <> 0.
Proof.
  intros Hm. destruct (marks_select_targets m t Hm) as (mask & keep & Hmask & Hkeep & _ & _ & Hland & _).
  vm_compute in Hmask, Hkeep. injection Hmask as <-. injection Hkeep as <-. rewrite Hland. by destruct t.
Qed.

(** The first rule that applies decides. *)
Lemma run_first device sets ip lines k line d t m :
  is_u 32 m -> Z.land m 0x70000 = 0 -> lines !! k = Some line -> read_rule device line = Some (d, target_mark t) ->
  applies (net := net) sets ip d = true ->
  (forall j line' d' v, (j < k)%nat -> lines !! j = Some line' -> read_rule device line' = Some (d', v) -> applies (net := net) sets ip d' = false) ->
  run_chain (net := net) device sets lines ip m = marked 0xfff8ffff (target_mark t) m.
Proof.
  intros Hu Hm Hk Hr Ha Hbefore. rewrite <- (take_drop_middle lines k line Hk). unfold run_chain. rewrite foldl_app. cbn [foldl].
  fold (run_chain (net := net) device sets (take k lines) ip m). rewrite run_passes.
  - fold (run_chain (net := net) device sets (drop (S k) lines) ip (run_rule (net := net) device sets ip m line)).
    assert (run_rule (net := net) device sets ip m line = marked 0xfff8ffff (target_mark t) m) as ->
      by (unfold run_rule; rewrite Hr, Hm, Ha; done).
    apply run_marked. by apply target_mark_stays.
  - intros line' d' v (j & Hj)%list_elem_of_lookup Hr'. apply lookup_take_Some in Hj as [Hj Hlt]. by eapply Hbefore.
Qed.

(** Normalisation prints the networks. *)
Lemma normalized_printed to_lowercase domain_to_ascii raw c us ui g rx_build p :
  normalize_routing (net := net) to_lowercase domain_to_ascii raw = Ok c -> compile rx_build us ui c g = Ok p -> networks_printed p.
Proof.
  intros Hn Hcomp. apply compile_inv in Hcomp as (<- & _). intros i rule v Hi Hv.
  unfold normalize_routing in Hn. case_match; [done |]. inv_result.
  match goal with Hm : mapM normalize_ip_rule _ = Ok _, Hc : _ = config p |- _ => rewrite <- Hc in Hi; apply result_mapM_ok in Hm; rename Hm into Hall end.
  cbn [ip_rules] in Hi. destruct (Forall2_lookup_r _ _ _ _ _ Hall Hi) as (raw_rule & _ & Hr). unfold normalize_ip_rule in Hr. inv_result.
  cbn [i_matcher] in Hv. destruct (i_matcher raw_rule); inv_result; simplify_eq/=. unfold normalize_cidr in *. inv_result. case_match; simplify_eq/=. by eexists.
Qed.

(** *** The other rules of the chain *)

Lemma run_app device sets l k ip m :
  run_chain (net := net) device sets (l ++ k) ip m = run_chain (net := net) device sets k ip (run_chain (net := net) device sets l ip m).
Proof. apply foldl_app. Qed.

Lemma read_fake (lan : lan_context net) egress t set :
  read_rule (lan_device lan) (fake_line lan egress (t, set)) = Some (Some ("@" +:+ set), target_mark (egress_target egress t)).
Proof.
  assert (fake_line lan egress (t, set) =
    wln [on_lan lan "gofro_mark"; unmarked; "ip daddr " +:+ ("@" +:+ set) +:+ " "; set_mark "meta" (show (target_mark (egress_target egress t)))]) as ->.
  { unfold fake_line, wln, cat. cbn [foldr fst snd]. rewrite <- !string_app_assoc. done. }
  rewrite read_condition by apply mark_bounds. rewrite bool_decide_false by done.
  rewrite strip_prefix_app. cbn [mbind option_bind]. by rewrite strip_suffix_app.
Qed.

Definition lan_elements : string := join ", " (net_show <$> LAN_RANGES (net := net)).

Lemma read_lan (lan : lan_context net) :
  read_rule (lan_device lan) (lan_line lan) = Some (Some ("{ " +:+ lan_elements +:+ " }"), DIRECT_MARK).
Proof.
  assert (lan_line lan = wln [on_lan lan "gofro_mark"; unmarked; "ip daddr " +:+ ("{ " +:+ lan_elements +:+ " }") +:+ " "; set_mark "meta" (show DIRECT_MARK)]) as ->.
  { unfold lan_line, wln, cat. fold lan_elements. cbn [foldr]. rewrite <- !string_app_assoc. done. }
  rewrite read_condition by done. rewrite bool_decide_false by done.
  rewrite strip_prefix_app. cbn [mbind option_bind]. by rewrite strip_suffix_app.
Qed.

Lemma lan_elements_hold ip : elements_hold (net := net) lan_elements ip = is_lan_destination (net := net) ip.
Proof.
  unfold lan_elements, is_lan_destination. apply eq_true_iff_eq. destruct (LAN_RANGES (net := net)) as [| n l] eqn:El; [by vm_compute |].
  rewrite <- El. rewrite (elements_are net_show (fun n => covers n ip)), existsb_exists by first [by rewrite El |
    intros m _; split; [intros c [-> | ->]; by apply network_no_sep | apply network_holds]].
  setoid_rewrite <- list_elem_of_In. by setoid_rewrite covers_contains.
Qed.

(** The sets of the rules say nothing of the sets of fake addresses. *)
Lemma fake_set_no_rule (p : policy) sets set ip : mapM (ip_set_lines p) (ip_rule_indices p) = Some sets ->
  set ∈ FAKE_TARGET_SETS.*2 -> existsb (set_holds (net := net) set ip) sets = false.
Proof.
  intros Hsets%mapM_Some Hset. apply not_true_iff_false. intros (text & Hin%list_elem_of_In & Hh)%existsb_exists.
  apply list_elem_of_lookup in Hin as [k Hk]. destruct (Forall2_lookup_r _ _ _ _ _ Hsets Hk) as (j & _ & Ht). apply ip_set_text in Ht.
  unfold set_holds in Hh. set (head := "add set inet gofro_routing " +:+ _) in Hh.
  destruct (strip_prefix head text) as [rest |] eqn:E; [| done]. apply strip_prefix_Some in E. subst head.
  assert (exists r, text = ""%string \/ text = RULE_SET +:+ r) as (r & [-> | ->]); [| done |].
  { destruct Ht; [by exists ""%string; left | eexists; right; done | unfold set_head; rewrite <- !string_app_assoc; eexists; right; done]. }
  apply (f_equal (strip_prefix "add set inet gofro_routing ")) in E.
  rewrite <- !string_app_assoc, strip_prefix_app in E. change RULE_SET with ("add set inet gofro_routing " +:+ "ip_rule_") in E.
  rewrite <- string_app_assoc, strip_prefix_app in E.
  cbn [fmap list_fmap FAKE_TARGET_SETS snd] in Hset. repeat (apply elem_of_cons in Hset as [-> | Hset]; [discriminate E |]).
  by apply not_elem_of_nil in Hset.
Qed.


Lemma read_none (lan : lan_context net) rest :
  strip_prefix "meta mark & 0x70000 == 0 " rest = None -> read_rule (lan_device lan) (wln [on_lan lan "gofro_mark"; rest]) = None.
Proof.
  intros Hrest. unfold read_rule.
  assert (wln [on_lan lan "gofro_mark"; rest] =
    (("add rule inet gofro_routing gofro_mark iifname " +:+ quoted (lan_device lan) +:+ " ") +:+ rest) +:+ NL) as ->
    by (unfold wln, on_lan, quoted, cat; cbn [foldr]; rewrite <- !string_app_assoc; done).
  rewrite strip_suffix_app. cbn [mbind option_bind]. destruct (strip_prefix (_ +:+ _) _) as [r |] eqn:E; [| done]. exfalso.
  apply strip_prefix_Some in E. set (head := "add rule inet gofro_routing gofro_mark iifname " +:+ quoted (lan_device lan) +:+ " ") in E.
  assert (forall q, ("add rule inet gofro_routing gofro_mark iifname " +:+ q +:+ " meta mark & 0x70000 == 0 ") +:+ r
    = ("add rule inet gofro_routing gofro_mark iifname " +:+ q +:+ " ") +:+ ("meta mark & 0x70000 == 0 " +:+ r)) as Ha
    by (intros q; rewrite <- !string_app_assoc; done).
  rewrite Ha in E. apply (f_equal (strip_prefix head)) in E. subst head. rewrite !strip_prefix_app in E. injection E as ->.
  by rewrite strip_prefix_app in Hrest.
Qed.

(** Neither the rules for the fake addresses nor the one for the LAN ranges holds a public address. *)
Lemma first_rules_pass (p : policy) (lan : lan_context net) egress sets ip m : mapM (ip_set_lines p) (ip_rule_indices p) = Some sets ->
  is_lan_destination (net := net) ip = false ->
  run_chain (net := net) (lan_device lan) sets ((fake_line lan egress <$> FAKE_TARGET_SETS) ++ [lan_line lan]) ip m = m.
Proof.
  intros Hsets Hlan. apply run_passes. intros line d v [([t set] & -> & Hset)%list_elem_of_fmap | ->%list_elem_of_singleton]%elem_of_app.
  - rewrite read_fake. intros [= <- _]. cbn [applies]. unfold destination_matches. rewrite strip_prefix_app.
    eapply fake_set_no_rule; [done |]. apply list_elem_of_fmap. by exists (t, set).
  - rewrite read_lan. intros [= <- _]. cbn [applies]. unfold destination_matches.
    change (strip_prefix "@" ("{ " +:+ _)) with (@None string). rewrite strip_prefix_app. cbn [mbind option_bind].
    rewrite strip_suffix_app. by rewrite lan_elements_hold.
Qed.

Lemma last_rules_pass (lan : lan_context net) sets ip m :
  run_chain (net := net) (lan_device lan) sets ((connection_line lan <$> [DIRECT_MARK; VPN_MARK; WARP_MARK; BLOCK_MARK]) ++ [drop_line lan]) ip m = m.
Proof.
  apply run_passes. intros line d v Hin Hr. exfalso. revert Hr.
  assert (forall rest, strip_prefix "meta mark & 0x70000 == 0 " rest = None -> line = wln [on_lan lan "gofro_mark"; rest] -> read_rule (lan_device lan) line <> Some (d, v))
    as Hno by (intros rest Hrest ->; by rewrite read_none).
  apply elem_of_app in Hin as [(mark & -> & Hmark)%list_elem_of_fmap | ->%list_elem_of_singleton].
  - apply (Hno (cat ["meta mark & "; GOFRO_MARK_MASK; " == "; show mark; " "; set_mark "ct" (show mark)])%string).
    + repeat (apply elem_of_cons in Hmark as [-> | Hmark]; [by vm_compute |]). by apply not_elem_of_nil in Hmark.
    + unfold connection_line, wln, cat. cbn [foldr]. rewrite <- !string_app_assoc. done.
  - apply (Hno (cat ["meta mark & "; GOFRO_MARK_MASK; " == "; show BLOCK_MARK; " drop"])%string); [by vm_compute |].
    unfold drop_line, wln, cat. cbn [foldr]. rewrite <- !string_app_assoc. done.
Qed.

(** ** What the chain does *)

(** The rules of the policy, and the rule behind them. *)
Lemma policy_rules_decide (p : policy) (lan : lan_context net) egress sets rules t m ip :
  networks_printed p -> (mode (config p) = Rules -> forall tag, disjoint_sorted (ip_networks (geo p) tag)) ->
  mapM (ip_set_lines p) (ip_rule_indices p) = Some sets -> mapM (mark_rule p egress) (ip_rule_indices p) = Some rules ->
  ((exists k index destination, ip_rule_indices p !! k = Some index /\ destination_holds p index ip
      /\ rules !! k = Some (Some (destination, target_mark (egress_target egress t)))
      /\ forall j index' r, (j < k)%nat -> ip_rule_indices p !! j = Some index' -> rules !! j = Some (Some r) ->
           ~ destination_holds p index' ip)
   \/ (t = effective_fallback p
       /\ forall j index' r, ip_rule_indices p !! j = Some index' -> rules !! j = Some (Some r) ->
           ~ destination_holds p index' ip)) ->
  is_u 32 m -> Z.land m 0x70000 = 0 ->
  run_chain (net := net) (lan_device lan) sets ((mark_rule_line lan <$> rules) ++ [fallback_line lan egress p]) ip m
  = marked 0xfff8ffff (target_mark (egress_target egress t)) m.
Proof.
  intros Hprinted Hgeo Hsets Hrules Hd Hu Hm. apply mapM_Some in Hrules.
  assert (forall j line d v, (mark_rule_line lan <$> rules) !! j = Some line -> read_rule (lan_device lan) line = Some (d, v) ->
    exists index destination mark, ip_rule_indices p !! j = Some index /\ rules !! j = Some (Some (destination, mark)) /\ d = Some destination
      /\ (destination_matches (net := net) sets ip destination = true <-> destination_holds p index ip)) as Hread.
  { intros j line d v Hj Hr. apply list_lookup_fmap_Some in Hj as (r & -> & Hj).
    destruct (Forall2_lookup_r _ _ _ _ _ Hrules Hj) as (index & Hi & Hmark).
    destruct r as [[destination mark] |]; [| by vm_compute in Hr].
    assert (exists u, mark = target_mark u) as [u ->].
    { unfold mark_rule in Hmark. destruct (ip_rules (config p) !! index) as [rule |]; [| done]. cbn [mbind option_bind] in Hmark.
      destruct (negb _); simplify_eq. by eexists. }
    rewrite read_mark_rule in Hr. injection Hr as <- <-. exists index, destination, (target_mark u). split_and!; [done.. |].
    assert (mode (config p) = Rules) as Hmode by (unfold ip_rule_indices in Hi; by destruct (mode (config p))).
    eapply destination_read; [done | by apply Hgeo | done | by eapply list_elem_of_lookup_2 | done]. }
  destruct Hd as [(k & index & destination & Hk & Hholds & Hr & Hbefore) | (-> & Hno)].
  - assert ((mark_rule_line lan <$> rules) !! k = Some (mark_rule_line lan (Some (destination, target_mark (egress_target egress t))))) as Hline
      by by rewrite list_lookup_fmap, Hr.
    assert (read_rule (lan_device lan) (mark_rule_line lan (Some (destination, target_mark (egress_target egress t)))) = Some (Some destination, target_mark (egress_target egress t)))
      as Hmine by apply read_mark_rule.
    eapply (run_first _ _ _ _ k); [done.. | by apply lookup_app_l_Some | done | |].
    + destruct (Hread _ _ _ _ Hline Hmine) as (i & d & v & Hi & Hr' & [= <-] & Hiff). rewrite Hk in Hi. injection Hi as <-. by apply Hiff.
    + intros j line d v Hlt Hj Hrd. rewrite lookup_app_l in Hj by (apply lookup_lt_Some in Hline; lia).
      destruct (Hread _ _ _ _ Hj Hrd) as (i & d' & v' & Hi & Hr' & -> & Hiff). cbn [applies]. apply not_true_iff_false. rewrite Hiff. by eapply Hbefore.
  - rewrite run_app, (run_passes _ _ _ (_ <$> rules)).
    + apply (run_first _ _ _ _ 0 (fallback_line lan egress p) None); [done | done | done | apply read_fallback | done | intros ? ? ? ? ?; lia].
    + intros line d v [j Hj]%list_elem_of_lookup Hrd. destruct (Hread _ _ _ _ Hj Hrd) as (i & d' & v' & Hi & Hr' & -> & Hiff).
      cbn [applies]. apply not_true_iff_false. rewrite Hiff. by eapply Hno.
Qed.

End Reading.

(** ** A policy, and what the kernel reads of it *)

Definition sample_egress : vpn_egress := VpnEgress true (Some (ipv4 10 202 1 5)).

Example sample_chain :
  match sample_mark_policy with
  | Ok p =>
      match mapM (ip_set_lines p) (ip_rule_indices p), mapM (mark_rule p sample_egress) (ip_rule_indices p) with
      | Some sets, Some rules =>
          (fun ip => run_chain (net := PrefixNet.t) "br-lan" sets (mark_lines sample_lan sample_egress p rules) ip 5)
          <$> [ipv4 5 6 7 8; ipv4 5 99 0 1; ipv4 8 8 8 8; ipv4 192 168 1 7] = [0x10005; 0x60005; 0x20005; 0x10005]
      | _, _ => False
      end
  | Err _ => False
  end.
Proof. by vm_compute. Qed.

