(* ===== verification/FakeStore.v ===== *)
(** * The FakeDNS lease store (crates/gofro-agent/src/fake_dns/store.rs)

    The store hands out fake addresses for the pair of a domain and one of its
    real addresses, and keeps them in memory and in SQLite. The database is the
    class [FakeTable]: its statements with what SQL documents of them; an
    error leaves the table as it was. *)

From stdpp Require Import base gmap sets strings list.
From Stdlib Require Import Ascii ZArith Lia.
From S2P Require Import Prelude RustStd Net Model Stats GeoWire GeoData Config Routing Dataplane.

(** ** The table [fake_dns] *)

Record row := Row { row_domain : string; row_real : Z; row_target : Z; row_expires : Z }.

#[export] Instance row_eq_dec : EqDecision row.
Proof. solve_decision. Defined.

Class FakeTable (db : Type) := {
  rows : db -> gmap Z row;
  (* SELECT ... ORDER BY fake *)
  select_rows : db -> result (list (Z * row));
  (* DELETE FROM fake_dns WHERE expires <= ?1 *)
  delete_expired : Z -> db -> result db;
  (* INSERT INTO fake_dns *)
  insert_row : Z -> row -> db -> result db;
  (* UPDATE fake_dns SET expires = ?1 WHERE fake = ?2 *)
  set_expires : Z -> Z -> db -> result db;
  (* UPDATE fake_dns SET target = ?1 WHERE fake = ?2 *)
  set_target : Z -> Z -> db -> result db;
  (* DELETE FROM fake_dns WHERE fake = ?1 *)
  delete_row : Z -> db -> result db;
  (* COMMIT of a transaction's copy *)
  commit : db -> result db;
}.

Class FakeTableLaws (db : Type) `{FakeTable db} := {
  (* UNIQUE(domain, real) *)
  rows_unique d f g r s : rows d !! f = Some r -> rows d !! g = Some s ->
    row_domain r = row_domain s -> row_real r = row_real s -> f = g;
  select_rows_all d l : select_rows d = Ok l -> l ≡ₚ map_to_list (rows d);
  delete_expired_rows c d d' : delete_expired c d = Ok d' ->
    rows d' = filter (fun p => ~ row_expires p.2 <= c) (rows d);
  insert_rows f r d d' : insert_row f r d = Ok d' -> rows d' = <[f := r]> (rows d);
  set_expires_rows e f d d' : set_expires e f d = Ok d' ->
    rows d' = alter (fun r => Row (row_domain r) (row_real r) (row_target r) e) f (rows d);
  set_target_rows t f d d' : set_target t f d = Ok d' ->
    rows d' = alter (fun r => Row (row_domain r) (row_real r) t (row_expires r)) f (rows d);
  delete_rows f d d' : delete_row f d = Ok d' -> rows d' = delete f (rows d);
  commit_rows d d' : commit d = Ok d' -> rows d' = rows d;
}.

(** ** Constants and codes *)

Definition FIRST_FAKE : Z := ipv4 198 18 0 1.
Definition LAST_FAKE : Z := ipv4 198 19 255 254.
Definition CONNECTION_GRACE_SECONDS : Z := 24 * 60 * 60.

Definition target_code (t : route_target) : Z :=
  match t with Direct => 1 | Vpn => 2 | Block => 3 | Warp => 4 end.

Definition target_from_code (c : Z) : result route_target :=
  if c =? 1 then Ok Direct
  else if c =? 2 then Ok Vpn
  else if c =? 3 then Ok Block
  else if c =? 4 then Ok Warp
  else Err (Msg ("invalid persisted route target " +:+ show c)).

(** [u32::try_from] *)
Definition ipv4_from_sql (v : Z) : result Z :=
  _ ← ensure ((0 <=? v) && (v <=? u32_max)) "out of range integral type conversion attempted"; Ok v.

(** The [i64] addition of a release build. *)
Definition add_i64 (a b : Z) : Z := (a + b + 2 ^ 63) mod 2 ^ 64 - 2 ^ 63.

Definition saturating_sub_i64 (a b : Z) : Z := Z.max i64_min (a - b).

(** ** The store *)

Record lease := Lease { mapping : fake_mapping; expires : Z }.

#[export] Instance lease_eq_dec : EqDecision lease.
Proof. solve_decision. Defined.

Section Store.
Context {db : Type} `{FakeTableLaws db}.

Record store := Store {
  connection : db;
  leases : gmap (string * Z) lease;
  used : gset Z;
  next : Z;
  max_leases : Z;
}.

(** One row of the query of [from_connection_with_limits]. *)
Definition read_row (p : Z * row) : result ((string * Z) * lease) :=
  fake ← ipv4_from_sql p.1;
  real ← ipv4_from_sql (row_real p.2);
  target ← target_from_code (row_target p.2);
  Ok ((row_domain p.2, real), Lease (FakeMapping fake real target) (row_expires p.2)).

Definition in_pool (fake : Z) : bool := (FIRST_FAKE <=? fake) && (fake <=? LAST_FAKE).

(** [from_connection_with_limits] after the schema is set up; [now] is [unix_time()]. *)
Definition from_connection_with_limits (limits : resource_limits) (now : result Z) (d : db) : result store :=
  now ← now;
  d ← delete_expired (saturating_sub_i64 now CONNECTION_GRACE_SECONDS) d;
  rs ← select_rows d;
  entries ← mapM read_row rs;
  let ls : gmap (string * Z) lease := foldl (fun m '(k, v) => <[k := v]> m) ∅ entries in
  _ ← mapM (fun '(_, l) => ensure (in_pool (fake (mapping l)))
              ("persisted fake IP " +:+ show_ipv4 (fake (mapping l)) +:+ " is outside the allocation pool"))
        (map_to_list ls);
  Ok (Store d ls (list_to_set ((fun '(_, l) => fake (mapping l)) <$> map_to_list ls)) FIRST_FAKE (fake_leases limits)).

(** [expired_at] *)
Definition expired_at (s : store) (now : Z) : list fake_mapping :=
  let cutoff := saturating_sub_i64 now CONNECTION_GRACE_SECONDS in
  (fun '(_, l) => mapping l) <$> filter (fun p => expires p.2 <= cutoff) (map_to_list (leases s)).

(** The search of [allocate]: [n] offsets are left, the first of them is [offset]. *)
Definition pool_size : Z := LAST_FAKE - FIRST_FAKE + 1.

Fixpoint probe (s : store) (n : nat) (offset : Z) : option Z :=
  match n with
  | O => None
  | S n =>
      let candidate := FIRST_FAKE + (next s - FIRST_FAKE + offset) mod pool_size in
      if bool_decide (candidate ∈ used s) then probe s n (offset + 1) else Some candidate
  end.

Definition clamp (lo hi v : Z) : Z := Z.min hi (Z.max lo v).

(** [allocate] at the time [now]; the answer says whether the mapping is new. *)
Definition allocate (s : store) (now : result Z) (domain : string) (real : Z) (t : route_target) (ttl : Z)
  : store * result (fake_mapping * bool) :=
  let key := (domain, real) in
  match now with
  | Err e => (s, Err e)
  | Ok now =>
      let expires_ := add_i64 (add_i64 now (clamp 30 3600 ttl)) 300 in
      match leases s !! key with
      | Some l =>
          if expires l <? expires_ then
            match set_expires expires_ (fake (mapping l)) (connection s) with
            | Err e => (s, Err e)
            | Ok d => (Store d (<[key := Lease (mapping l) expires_]> (leases s)) (used s) (next s) (max_leases s),
                       Ok (mapping l, false))
            end
          else (s, Ok (mapping l, false))
      | None =>
          if negb (Z.of_nat (size (leases s)) <? max_leases s)
          then (s, Err (Msg ("лимит FakeDNS " +:+ show (max_leases s) +:+ " записей достигнут")))
          else match probe s (Z.to_nat pool_size) 0 with
          | None => (s, Err (Msg "пул FakeDNS 198.18.0.0/15 исчерпан"))
          | Some f =>
              let s := Store (connection s) (leases s) (used s)
                         (if f =? LAST_FAKE then FIRST_FAKE else f + 1) (max_leases s) in
              let m := FakeMapping f real t in
              match insert_row f (Row domain real (target_code t) expires_) (connection s) with
              | Err e => (s, Err e)
              | Ok d => (Store d (<[key := Lease m expires_]> (leases s)) ({[f]} ∪ used s) (next s) (max_leases s),
                         Ok (m, true))
              end
          end
      end
  end.

(** [remove_mappings]: a transaction, then the memory. *)
Definition remove_mappings (s : store) (mappings : list fake_mapping) : store * result unit :=
  match (d ← foldl (fun d m => d ← d; delete_row (fake m) d) (Ok (connection s)) mappings; commit d) with
  | Err e => (s, Err e)
  | Ok d =>
      let removed : gset Z := list_to_set (fake <$> mappings) in
      (Store d (filter (fun p => fake (mapping p.2) ∉ removed) (leases s))
         (filter (fun f => f ∉ removed) (used s)) (next s) (max_leases s), Ok tt)
  end.

Section Policy.
Context {net : Type} `{Ipnet net} {rx : Type} (rx_is_match : rx -> string -> bool).
Variable p : routing_policy (net := net) (rx := rx).

(** [policy.target] for a lease; [None] is a panic of the policy. *)
Definition lease_target (e : (string * Z) * lease) : option route_target :=
  target rx_is_match p e.1.1 (real (mapping e.2)).

Definition reclassified (s : store) : option (list fake_mapping) :=
  mapM (fun e => t ← lease_target e; Some (FakeMapping (fake (mapping e.2)) (real (mapping e.2)) t))
    (map_to_list (leases s)).

Definition commit_one (d : option (result db)) (e : (string * Z) * lease) : option (result db) :=
  d ← d;
  t ← lease_target e;
  Some (d ← d; set_target (target_code t) (fake (mapping e.2)) d).

Definition retarget (e : (string * Z) * lease) : option ((string * Z) * lease) :=
  t ← lease_target e;
  Some (e.1, Lease (FakeMapping (fake (mapping e.2)) (real (mapping e.2)) t) (expires e.2)).

(** [commit_targets]: the rows in one transaction, then the memory. *)
Definition commit_targets (s : store) : option (store * result unit) :=
  d ← foldl commit_one (Some (Ok (connection s))) (map_to_list (leases s));
  match (d ← d; commit d) with
  | Err e => Some (s, Err e)
  | Ok d =>
      ls ← mapM retarget (map_to_list (leases s));
      Some (Store d (list_to_map ls) (used s) (next s) (max_leases s), Ok tt)
  end.
End Policy.

(** ** The invariant: memory and database agree, fake addresses are never shared *)

Definition row_of (k : string * Z) (l : lease) : row :=
  Row k.1 k.2 (target_code (fm_target (mapping l))) (expires l).

Record store_ok (s : store) : Prop := {
  ok_real k l : leases s !! k = Some l -> real (mapping l) = k.2 /\ is_u 32 k.2;
  ok_pool k l : leases s !! k = Some l -> in_pool (fake (mapping l)) = true;
  ok_inj k l k' l' : leases s !! k = Some l -> leases s !! k' = Some l' ->
    fake (mapping l) = fake (mapping l') -> k = k';
  ok_used f : f ∈ used s <-> exists k l, leases s !! k = Some l /\ fake (mapping l) = f;
  ok_next : in_pool (next s) = true;
  ok_rows f r : rows (connection s) !! f = Some r <->
    exists k l, leases s !! k = Some l /\ fake (mapping l) = f /\ r = row_of k l;
}.

Lemma target_code_roundtrip t : target_from_code (target_code t) = Ok t.
Proof. by destruct t. Qed.

Lemma target_from_code_ok c t : target_from_code c = Ok t -> target_code t = c.
Proof.
  unfold target_from_code.
  destruct (c =? 1) eqn:E1; [intros [= <-]; cbn; lia |]. destruct (c =? 2) eqn:E2; [intros [= <-]; cbn; lia |].
  destruct (c =? 3) eqn:E3; [intros [= <-]; cbn; lia |]. destruct (c =? 4) eqn:E4; [intros [= <-]; cbn; lia | done].
Qed.

Lemma ipv4_from_sql_ok v z : ipv4_from_sql v = Ok z <-> z = v /\ is_u 32 v.
Proof.
  unfold ipv4_from_sql, is_u, u32_max. change (2 ^ 32) with 4294967296. rewrite bind_ok.
  setoid_rewrite ensure_ok. split; [intros ([] & ? & [= <-]); lia | intros [-> ?]; exists tt; split; [lia | done]].
Qed.

Lemma in_pool_u32 f : in_pool f = true -> is_u 32 f.
Proof. unfold in_pool, is_u. intros Hf. assert (FIRST_FAKE = 3323068417 /\ LAST_FAKE = 3323199486) as [? ?] by done. lia. Qed.

(** A row is read as the lease it was written for. *)
Lemma read_row_spec f r k l :
  read_row (f, r) = Ok (k, l) <->
  is_u 32 f /\ is_u 32 k.2 /\ fake (mapping l) = f /\ real (mapping l) = k.2 /\ r = row_of k l.
Proof.
  unfold read_row. cbn [fst snd]. split.
  - intros Hr. inv_result.
    repeat match goal with Hx : ipv4_from_sql _ = Ok _ |- _ => apply ipv4_from_sql_ok in Hx as [-> Hx] end.
    match goal with Ht : target_from_code _ = Ok _ |- _ => apply target_from_code_ok in Ht as Hcode end.
    destruct r as [dom re t ex]. unfold row_of. cbn in *. by rewrite Hcode.
  - destruct k as [dom re], l as [[fk re' t] ex]. cbn. intros (Hf & Hk & <- & -> & ->). cbn.
    rewrite (proj2 (ipv4_from_sql_ok fk fk)) by done. cbn.
    rewrite (proj2 (ipv4_from_sql_ok re re)) by done. cbn. by rewrite target_code_roundtrip.
Qed.

Lemma fakes_nodup s :
  store_ok s -> NoDup ((fun e : (string * Z) * lease => fake (mapping e.2)) <$> map_to_list (leases s)).
Proof.
  intros Hok. apply NoDup_fmap_2_strong; [| apply NoDup_map_to_list].
  intros [k v] [k' v'] Hk%elem_of_map_to_list Hk'%elem_of_map_to_list Hf. cbn in Hf.
  assert (k = k') as <- by by eapply ok_inj. rewrite Hk in Hk'. by injection Hk' as ->.
Qed.

(** ** Opening *)

Lemma foldl_insert_lookup {A} (l : list ((string * Z) * A)) : forall (m : gmap (string * Z) A) k v,
  NoDup l.*1 ->
  foldl (fun m '(k, v) => <[k := v]> m) m l !! k = Some v <-> (k, v) ∈ l \/ (k ∉ l.*1 /\ m !! k = Some v).
Proof.
  induction l as [| [a b] l IH]; intros m k v Hnd; cbn.
  - split; [by right; split; [apply not_elem_of_nil |] | by intros [?%not_elem_of_nil | [_ ?]]].
  - apply NoDup_cons in Hnd as [Hna Hnd]. rewrite IH by done. rewrite elem_of_cons, not_elem_of_cons.
    assert ((k, v) ∈ l -> k ∈ l.*1) as Hin by (intros; apply list_elem_of_fmap; by exists (k, v)).
    destruct (decide (k = a)) as [-> | Hne].
    + rewrite lookup_insert_eq. naive_solver.
    + rewrite lookup_insert_ne by done. naive_solver.
Qed.

Lemma foldl_insert_in {A} (l : list ((string * Z) * A)) : forall (m : gmap (string * Z) A) k v,
  foldl (fun m '(k, v) => <[k := v]> m) m l !! k = Some v -> (k, v) ∈ l \/ m !! k = Some v.
Proof.
  induction l as [| [a b] l IH]; intros m k v; cbn; [by right |].
  intros [Hin | [[-> ->] | [_ Hm]]%lookup_insert_Some]%IH; [left; by right | left; by left | by right].
Qed.

Definition cutoff (now : Z) : Z := saturating_sub_i64 now CONNECTION_GRACE_SECONDS.

(** What an opened store holds: one lease per live row. *)
Lemma open_spec limits now d s :
  from_connection_with_limits limits (Ok now) d = Ok s ->
  rows (connection s) = filter (fun p => ~ row_expires p.2 <= cutoff now) (rows d) /\
  (forall f r, rows (connection s) !! f = Some r -> exists k l, read_row (f, r) = Ok (k, l)) /\
  (forall k l, leases s !! k = Some l <-> exists f r, rows (connection s) !! f = Some r /\ read_row (f, r) = Ok (k, l)) /\
  (forall k l, leases s !! k = Some l -> in_pool (fake (mapping l)) = true) /\
  (forall f, f ∈ used s <-> exists k l, leases s !! k = Some l /\ fake (mapping l) = f) /\
  next s = FIRST_FAKE /\ max_leases s = fake_leases limits.
Proof.
  unfold from_connection_with_limits. intros Hopen. cbn in Hopen. inv_result. cbn [connection leases used next max_leases].
  match goal with
  | Hd : delete_expired _ _ = Ok ?d1, Hs : select_rows _ = Ok ?l1, Hm : mapM read_row _ = Ok ?l2, Hp : mapM _ (map_to_list _) = Ok _ |- _ =>
      rename d1 into d1'; rename l1 into l; rename l2 into entries;
      apply delete_expired_rows in Hd; apply select_rows_all in Hs; apply result_mapM_ok in Hm;
      apply result_mapM_ok in Hp; rename Hd into Hrows; rename Hs into Hl; rename Hm into Hread; rename Hp into Hpool
  end.
  assert (forall f r, (f, r) ∈ l <-> rows d1' !! f = Some r) as Hin
    by (intros f r; rewrite Hl; apply elem_of_map_to_list).
  assert (forall k v, (k, v) ∈ entries <-> exists f r, rows d1' !! f = Some r /\ read_row (f, r) = Ok (k, v)) as Hent.
  { intros k v. split.
    - intros [i Hi]%list_elem_of_lookup. destruct (Forall2_lookup_r _ _ _ _ _ Hread Hi) as ([f r] & Hfr & Hr).
      exists f, r. split; [| done]. apply Hin. by eapply list_elem_of_lookup_2.
    - intros (f & r & Hr%Hin & Hok). apply list_elem_of_lookup in Hr as [i Hi].
      destruct (Forall2_lookup_l _ _ _ _ _ Hread Hi) as (e & He & Hr2). rewrite Hok in Hr2. injection Hr2 as <-.
      by eapply list_elem_of_lookup_2. }
  assert (NoDup entries.*1) as Hnd.
  { assert (NoDup l.*1) as Hndl by (rewrite Hl; apply NoDup_fst_map_to_list).
    apply NoDup_alt. intros i j k Hi Hj. rewrite list_lookup_fmap in Hi, Hj.
    destruct (entries !! i) as [[k1 v1] |] eqn:Ei; [| done]. destruct (entries !! j) as [[k2 v2] |] eqn:Ej; [| done].
    cbn in Hi, Hj. injection Hi as ->. injection Hj as ->.
    destruct (Forall2_lookup_r _ _ _ _ _ Hread Ei) as ([f1 ra] & Hl1 & Hra).
    destruct (Forall2_lookup_r _ _ _ _ _ Hread Ej) as ([f2 rb] & Hl2 & Hrb).
    apply read_row_spec in Hra as (_ & _ & _ & _ & ->). apply read_row_spec in Hrb as (_ & _ & _ & _ & ->).
    assert (f1 = f2) as ->.
    { apply (rows_unique d1' f1 f2 (row_of k v1) (row_of k v2)); [| | done | done];
        apply Hin; by eapply list_elem_of_lookup_2. }
    apply (NoDup_lookup l.*1 i j f2); [done | |]; rewrite list_lookup_fmap.
    - by rewrite Hl1.
    - by rewrite Hl2. }
  assert (forall k v, foldl (fun m '(k, v) => <[k := v]> m) (∅ : gmap (string * Z) lease) entries !! k = Some v
            <-> (k, v) ∈ entries) as Hmap.
  { intros k v. rewrite foldl_insert_lookup by done. rewrite lookup_empty. naive_solver. }
  split_and!; [done | | | | | done | done].
  - intros f r Hr. apply Hin, list_elem_of_lookup in Hr as [i Hi].
    destruct (Forall2_lookup_l _ _ _ _ _ Hread Hi) as ([k v] & _ & Hok). by exists k, v.
  - intros k v. by rewrite Hmap.
  - intros k v Hk%elem_of_map_to_list. apply list_elem_of_lookup in Hk as [i Hi].
    destruct (Forall2_lookup_l _ _ _ _ _ Hpool Hi) as (u & _ & Hok). by apply ensure_ok in Hok.
  - intros f. rewrite elem_of_list_to_set, list_elem_of_fmap. split.
    + intros ([k v] & -> & Hk%elem_of_map_to_list). by exists k, v.
    + intros (k & v & Hk%elem_of_map_to_list & <-). by exists (k, v).
Qed.

Lemma open_ok limits now d s : from_connection_with_limits limits (Ok now) d = Ok s -> store_ok s.
Proof.
  intros (_ & Hread & Hl & Hpool & Hused & Hnext & _)%open_spec. split.
  - intros k l (f & r & _ & (_ & ? & _ & ? & _)%read_row_spec)%Hl. done.
  - done.
  - intros k l k' l' (f & r & Hr & (_ & _ & Hf & _ & ->)%read_row_spec)%Hl
      (f' & r' & Hr' & (_ & _ & Hf' & _ & ->)%read_row_spec)%Hl Heq.
    assert (f = f') as -> by congruence. rewrite Hr in Hr'. injection Hr' as ? ? _ _.
    destruct k, k'. cbn in *. by subst.
  - done.
  - by rewrite Hnext.
  - intros f r. split.
    + intros Hr. destruct (Hread f r Hr) as (k & l & Hok). exists k, l.
      assert (leases s !! k = Some l) as Hk by (apply Hl; eauto).
      by apply read_row_spec in Hok as (_ & _ & ? & _ & ?).
    + intros (k & l & (f' & r' & Hr & (_ & _ & Hf' & _ & ->)%read_row_spec)%Hl & Hf & ->). by subst.
Qed.

(** ** Allocating *)

Lemma pool_size_val : pool_size = 131070. Proof. done. Qed.

Lemma probe_candidate s offset :
  in_pool (FIRST_FAKE + (next s - FIRST_FAKE + offset) mod pool_size) = true.
Proof.
  unfold in_pool. pose proof (Z.mod_pos_bound (next s - FIRST_FAKE + offset) pool_size ltac:(by vm_compute)).
  unfold pool_size in *. lia.
Qed.

Lemma probe_Some s n : forall offset f, probe s n offset = Some f -> in_pool f = true /\ f ∉ used s.
Proof.
  induction n as [| n IH]; intros offset f; cbn [probe]; [done |].
  case_bool_decide as Hu; [apply IH |]. intros [= <-]. by split; [apply probe_candidate |].
Qed.

Lemma probe_None s n : forall offset, probe s n offset = None ->
  forall i, 0 <= i < Z.of_nat n -> FIRST_FAKE + (next s - FIRST_FAKE + (offset + i)) mod pool_size ∈ used s.
Proof.
  induction n as [| n IH]; intros offset; cbn [probe]; [lia |].
  case_bool_decide as Hu; [| done]. intros Hp i Hi. destruct (decide (i = 0)) as [-> | Hne]; [by rewrite Z.add_0_r |].
  specialize (IH _ Hp (i - 1) ltac:(lia)). by replace (offset + 1 + (i - 1)) with (offset + i) in IH by lia.
Qed.

(** An exhausted search means that the whole pool is in use. *)
Lemma probe_exhausted s f :
  probe s (Z.to_nat pool_size) 0 = None -> in_pool f = true -> f ∈ used s.
Proof.
  intros Hp Hf. pose proof pool_size_val as Hps. unfold in_pool in Hf. unfold pool_size in Hps.
  set (i := (f - next s) mod pool_size).
  pose proof (Z.mod_pos_bound (f - next s) pool_size ltac:(by vm_compute)) as Hi.
  assert (FIRST_FAKE + (next s - FIRST_FAKE + (0 + i)) mod pool_size = f) as Heq.
  { unfold i. rewrite Z.add_0_l, Z.add_mod_idemp_r by by vm_compute.
    replace (next s - FIRST_FAKE + (f - next s)) with (f - FIRST_FAKE) by lia.
    rewrite Z.mod_small; [lia |]. rewrite pool_size_val. lia. }
  rewrite <- Heq. apply (probe_None s _ _ Hp). rewrite Z2Nat.id by by vm_compute. fold i. lia.
Qed.

Lemma used_size s : store_ok s -> size (used s) = size (leases s).
Proof.
  intros Hok. pose proof (fakes_nodup s Hok) as Hnd.
  assert (used s = list_to_set ((fun e : (string * Z) * lease => fake (mapping e.2)) <$> map_to_list (leases s))) as ->.
  { apply set_eq. intros f. rewrite (ok_used s Hok), elem_of_list_to_set, list_elem_of_fmap. split.
    - intros (k & l & Hk%elem_of_map_to_list & <-). by exists (k, l).
    - intros ([k l] & -> & Hk%elem_of_map_to_list). by exists k, l. }
  rewrite size_list_to_set by done. by rewrite length_fmap, length_map_to_list.
Qed.

Lemma exhausted_size s :
  store_ok s -> probe s (Z.to_nat pool_size) 0 = None -> pool_size <= Z.of_nat (size (leases s)).
Proof.
  intros Hok Hp. rewrite <- used_size by done.
  assert ((list_to_set (seqZ FIRST_FAKE pool_size) : gset Z) ⊆ used s) as Hsub%subseteq_size.
  { intros f Hf%elem_of_list_to_set%elem_of_seqZ. apply probe_exhausted; [done |]. unfold in_pool, pool_size in *. lia. }
  rewrite size_list_to_set, length_seqZ in Hsub by apply NoDup_seqZ. lia.
Qed.

(** A lease that lives longer. *)
Lemma extended_ok s d key l e :
  store_ok s -> leases s !! key = Some l -> set_expires e (fake (mapping l)) (connection s) = Ok d ->
  store_ok (Store d (<[key := Lease (mapping l) e]> (leases s)) (used s) (next s) (max_leases s)).
Proof.
  intros [H1 H2 H3 H4 H5 H6] Hk Hd. apply set_expires_rows in Hd.
  assert (forall k v, <[key := Lease (mapping l) e]> (leases s) !! k = Some v ->
            exists v0, leases s !! k = Some v0 /\ mapping v = mapping v0) as Hold.
  { intros k v [[<- <-] | [_ Hv]]%lookup_insert_Some; eauto. }
  assert (forall k v0, leases s !! k = Some v0 -> exists v,
            <[key := Lease (mapping l) e]> (leases s) !! k = Some v /\ mapping v = mapping v0) as Hnew.
  { intros k v0 Hv0. destruct (decide (k = key)) as [-> | Hne].
    - rewrite lookup_insert_eq. eexists. split; [done |]. cbn. congruence.
    - rewrite lookup_insert_ne by done. eauto. }
  split; cbn [fst leases used next connection]; [| | | | done |].
  + intros k v (v0 & Hv0 & ->)%Hold. by apply H1.
  + intros k v (v0 & Hv0 & ->)%Hold. by eapply H2.
  + intros k v k' v' (v0 & Hv0 & ->)%Hold (v1 & Hv1 & ->)%Hold. by apply H3.
  + intros f. rewrite H4. split.
    * intros (k & v0 & (v & Hv & Hm)%Hnew & <-). exists k, v. by rewrite Hm.
    * intros (k & v & (v0 & Hv0 & ->)%Hold & <-). eauto.
  + intros f r. rewrite Hd, lookup_alter_Some. setoid_rewrite H6. split.
    * intros [(<- & x & (k & v & Hv & Hf & ->) & ->) | (Hne & k & v & Hv & Hf & ->)].
      -- assert (k = key) as -> by by eapply H3. assert (v = l) as -> by congruence.
         exists key, (Lease (mapping l) e). split_and!; [apply lookup_insert_eq | done | done].
      -- exists k, v. split_and!; [rewrite lookup_insert_ne; [done | congruence] | done | done].
    * intros (k & v & [[<- <-] | [Hne Hv]]%lookup_insert_Some & <- & ->).
      -- left. split; [done |]. eexists. split; [by exists key, l | done].
      -- right. split; [| by exists k, v]. intros Hf. by apply Hne, (H3 _ l _ v).
Qed.

(** A lease of an address that nobody had. *)
Lemma inserted_ok s d domain real t f e n :
  store_ok s -> is_u 32 real -> leases s !! (domain, real) = None -> in_pool f = true -> f ∉ used s -> in_pool n = true ->
  insert_row f (Row domain real (target_code t) e) (connection s) = Ok d ->
  store_ok (Store d (<[(domain, real) := Lease (FakeMapping f real t) e]> (leases s)) ({[f]} ∪ used s) n (max_leases s)).
Proof.
  intros [H1 H2 H3 H4 H5 H6] Hreal Hk Hpool Hfree Hnext Hd. apply insert_rows in Hd.
  assert (forall k l, leases s !! k = Some l -> fake (mapping l) <> f) as Hfresh.
  { intros k l Hl <-. apply Hfree, H4. eauto. }
  split; cbn [fst leases used next connection]; [| | | | done |].
  + intros k v [[<- <-] | [_ Hv]]%lookup_insert_Some; [by split | by apply H1].
  + intros k v [[<- <-] | [_ Hv]]%lookup_insert_Some; [done | by eapply H2].
  + intros k v k' v' [[<- <-] | [_ Hv]]%lookup_insert_Some [[<- <-] | [_ Hv']]%lookup_insert_Some; cbn.
    * done.
    * intros Hf. by destruct (Hfresh _ _ Hv').
    * intros Hf. by destruct (Hfresh _ _ Hv).
    * by apply H3.
  + intros g. rewrite elem_of_union, elem_of_singleton, H4. split.
    * intros [-> | (k & v & Hv & <-)].
      -- eexists _, _. split; [apply lookup_insert_eq | done].
      -- exists k, v. split; [| done]. rewrite lookup_insert_ne; [done |]. congruence.
    * intros (k & v & [[<- <-] | [_ Hv]]%lookup_insert_Some & <-); [by left | right; eauto].
  + intros g r. rewrite Hd, lookup_insert_Some, H6. split.
    * intros [[<- <-] | [Hne (k & v & Hv & <- & ->)]].
      -- eexists _, _. split_and!; [apply lookup_insert_eq | done | done].
      -- exists k, v. split_and!; [rewrite lookup_insert_ne; [done | congruence] | done | done].
    * intros (k & v & [[<- <-] | [Hne Hv]]%lookup_insert_Some & <- & ->); [by left |].
      right. split; [| by exists k, v]. apply not_eq_sym. by apply (Hfresh k).
Qed.

Lemma allocate_ok s now domain real t ttl :
  store_ok s -> is_u 32 real -> store_ok (allocate s now domain real t ttl).1.
Proof.
  intros Hs Hreal. unfold allocate. destruct now as [now | e]; [| done].
  destruct (leases s !! (domain, real)) as [l |] eqn:Hk.
  - destruct (expires l <? _); [| done]. destruct (set_expires _ _ _) as [d | e] eqn:Hd; [| done]. by apply extended_ok.
  - destruct (negb _); [done |].
    destruct (probe s (Z.to_nat pool_size) 0) as [f |] eqn:Hp; [| done]. apply probe_Some in Hp as [Hpool Hfree].
    assert (in_pool (if f =? LAST_FAKE then FIRST_FAKE else f + 1) = true) as Hnext
      by (unfold in_pool in *; case_match; [done | lia]).
    cbn [connection]. destruct (insert_row _ _ _) as [d | e] eqn:Hd; cbn [fst leases used next max_leases]; [by apply inserted_ok |].
    destruct Hs. by split.
Qed.


(** ** Removing *)

Lemma delete_all_rows ms : forall r d',
  foldl (fun d m => d ← d; delete_row (fake m) d) r ms = Ok d' ->
  exists d : db, r = Ok d /\ forall f x, rows d' !! f = Some x <-> rows d !! f = Some x /\ f ∉ fake <$> ms.
Proof.
  induction ms as [| m ms IH]; intros r d'; cbn.
  - intros ->. exists d'. split; [done |]. intros f x. split; [by split; [| apply not_elem_of_nil] | by intros [? _]].
  - intros (d1 & Hd1 & Hrows)%IH. destruct r as [d | e]; [| done]. cbn in Hd1. exists d. split; [done |].
    apply delete_rows in Hd1. intros f x. rewrite Hrows, Hd1, lookup_delete_Some, not_elem_of_cons. naive_solver.
Qed.

Lemma remove_ok s ms : store_ok s -> store_ok (remove_mappings s ms).1.
Proof.
  intros [H1 H2 H3 H4 H5 H6]. unfold remove_mappings. destruct (_ ≫= _) as [d' | e] eqn:Hd; [| by split].
  apply bind_ok in Hd as (d1 & Hd1%delete_all_rows & Hc%commit_rows).
  destruct Hd1 as (d & [= <-] & Hrows).
  split; cbn [fst leases used next connection]; [| | | | done |].
  - intros k l [Hl _]%map_lookup_filter_Some. by apply H1.
  - intros k l [Hl _]%map_lookup_filter_Some. by eapply H2.
  - intros k l k' l' [Hl _]%map_lookup_filter_Some [Hl' _]%map_lookup_filter_Some. by apply H3.
  - intros f. rewrite elem_of_filter, elem_of_list_to_set, H4. split.
    + intros [Hf (k & l & Hl & <-)]. exists k, l. split; [| done]. apply map_lookup_filter_Some.
      by rewrite elem_of_list_to_set.
    + intros (k & l & [Hl Hn]%map_lookup_filter_Some & <-). rewrite elem_of_list_to_set in Hn. eauto.
  - intros f x. rewrite Hc, Hrows, H6. split.
    + intros [(k & l & Hl & <- & ->) Hn]. exists k, l. split; [| done]. apply map_lookup_filter_Some.
      by rewrite elem_of_list_to_set.
    + intros (k & l & [Hl Hn]%map_lookup_filter_Some & <- & ->). rewrite elem_of_list_to_set in Hn. eauto 10.
Qed.

(** ** Reclassifying *)

Section PolicyProofs.
Context {net : Type} `{Ipnet net} {rx : Type} (rx_is_match : rx -> string -> bool).
Variable p : routing_policy (net := net) (rx := rx).
#[local] Notation entry := ((string * Z) * lease)%type.

Definition with_target (t : Z) (r : row) : row := Row (row_domain r) (row_real r) t (row_expires r).

Lemma commit_all_rows (l : list entry) : forall o d',
  NoDup ((fun e : entry => fake (mapping e.2)) <$> l) ->
  foldl (commit_one rx_is_match p) o l = Some (Ok d') ->
  exists d : db, o = Some (Ok d) /\
    forall f x, rows d' !! f = Some x <->
      (exists e t r, e ∈ l /\ fake (mapping e.2) = f /\ lease_target rx_is_match p e = Some t
         /\ rows d !! f = Some r /\ x = with_target (target_code t) r)
      \/ (f ∉ (fun e : entry => fake (mapping e.2)) <$> l) /\ rows d !! f = Some x.
Proof.
  induction l as [| e l IH]; intros o d' Hnd; cbn [foldl].
  - intros ->. exists d'. split; [done |]. intros f x. split.
    + right. by split; [apply not_elem_of_nil |].
    + by intros [(? & ? & ? & ?%not_elem_of_nil & _) | [_ ?]].
  - rewrite fmap_cons in *. apply NoDup_cons in Hnd as [Hne Hnd]. intros (d1 & Hd1 & Hrows)%IH; [| done].
    destruct o as [[d | er] |]; cbn in Hd1; [| by destruct (lease_target _ _ _) | done].
    destruct (lease_target _ _ e) as [t |] eqn:Ht; cbn in Hd1; [| done]. injection Hd1 as Hd1.
    apply set_target_rows in Hd1. exists d. split; [done |]. intros f x. rewrite Hrows, Hd1.
    setoid_rewrite lookup_alter_Some. setoid_rewrite elem_of_cons. split.
    + intros [(e' & t' & r & He' & Hf & Ht' & [(<- & r0 & Hr0 & ->) | [Hne' Hr]] & ->) | [Hf [(<- & r0 & Hr0 & ->) | [Hne' Hr]]]].
      * exfalso. apply Hne. rewrite <- Hf. apply list_elem_of_fmap. by exists e'.
      * left. exists e', t', r. split_and!; [by right | done..].
      * left. exists e, t, r0. split_and!; [by left | done..].
      * right. split; [by intros [? | ?] | done].
    + intros [(e' & t' & r & [-> | He'] & Hf & Ht' & Hr & ->) | [[Hf Hfl]%Decidable.not_or Hr]].
      * right. subst f. split; [done |]. left. split; [done |]. exists r. split; [done |].
        rewrite Ht in Ht'. by injection Ht' as <-.
      * left. exists e', t', r. split_and!; [done | done | done | | done]. right. split; [| done].
        intros Heq. apply Hne. rewrite Heq, <- Hf. apply list_elem_of_fmap. by exists e'.
      * right. split; [done |]. right. split; [by apply not_eq_sym | done].
Qed.

Lemma retarget_all (l ls : list entry) :
  mapM (retarget rx_is_match p) l = Some ls ->
  ls.*1 = l.*1 /\ forall k v, (k, v) ∈ ls <->
    exists w t, (k, w) ∈ l /\ lease_target rx_is_match p (k, w) = Some t
      /\ v = Lease (FakeMapping (fake (mapping w)) (real (mapping w)) t) (expires w).
Proof.
  intros Hall%mapM_Some. induction Hall as [| [k0 w0] [k1 v1] l ls Hone Hall [IH1 IH2]].
  - split; [done |]. intros k v. split; [by intros ?%not_elem_of_nil | by intros (? & ? & ?%not_elem_of_nil & _)].
  - unfold retarget in Hone. destruct (lease_target _ _ (k0, w0)) as [t0 |] eqn:Ht; cbn in Hone; [| done].
    injection Hone as <- <-. split; [cbn; by rewrite IH1 |]. intros k v.
    rewrite elem_of_cons, IH2. setoid_rewrite elem_of_cons. split.
    + intros [[= -> ->] | (w & t & Hw & Ht' & ->)]; [by exists w0, t0; split; [left |] | exists w, t; by split; [right |]].
    + intros (w & t & [[= -> ->] | Hw] & Ht' & ->); [left; congruence | right; eauto].
Qed.

Lemma commit_ok s s' r : store_ok s -> commit_targets rx_is_match p s = Some (s', r) -> store_ok s'.
Proof.
  intros Hok. unfold commit_targets.
  destruct (foldl _ _ _) as [[d1 | e] |] eqn:Hd; cbn; [| by intros [= <- <-] | done].
  destruct (commit d1) as [d' | e] eqn:Hc; [| by intros [= <- <-]]. cbn.
  destruct (mapM _ _) as [ls |] eqn:Hls; cbn; [| done]. intros [= <- <-].
  destruct (id Hok) as [H2' H3 H4 H5 H6 H7]. apply retarget_all in Hls as [Hkeys Hls]. apply commit_rows in Hc.
  assert (NoDup ls.*1) as Hnd by (rewrite Hkeys; apply NoDup_fst_map_to_list).
  assert (forall k v, (list_to_map ls : gmap (string * Z) lease) !! k = Some v <->
    exists w t, leases s !! k = Some w /\ lease_target rx_is_match p (k, w) = Some t
      /\ v = Lease (FakeMapping (fake (mapping w)) (real (mapping w)) t) (expires w)) as Hlk.
  { intros k v. rewrite <- elem_of_list_to_map by done. rewrite Hls. by setoid_rewrite elem_of_map_to_list. }
  assert (forall k v, leases s !! k = Some v -> exists t, lease_target rx_is_match p (k, v) = Some t) as Htotal.
  { intros k v Hk%elem_of_map_to_list.
    assert (k ∈ ls.*1) as Hin by (rewrite Hkeys; apply list_elem_of_fmap; by exists (k, v)).
    apply list_elem_of_fmap in Hin as ([k' v'] & -> & Hin). apply Hls in Hin as (w & t & Hw & Ht & _).
    apply elem_of_map_to_list in Hk, Hw. cbn in *. rewrite Hk in Hw. injection Hw as <-. eauto. }
  apply commit_all_rows in Hd as (d0 & [= <-] & Hrows).
  2: { by apply fakes_nodup. }
  split; cbn [fst leases used next connection]; [| | | | done |].
  - intros k v (w & t & Hw & _ & ->)%Hlk. by apply H2' in Hw.
  - intros k v (w & t & Hw & _ & ->)%Hlk. by apply H3 in Hw.
  - intros k v k' v' (w & t & Hw & _ & ->)%Hlk (w' & t' & Hw' & _ & ->)%Hlk. cbn. by apply H4.
  - intros f. rewrite H5. split.
    + intros (k & v & Hv & <-). destruct (Htotal k v Hv) as [t Ht]. eexists k, _. split; [apply Hlk; eauto | done].
    + intros (k & v & (w & t & Hw & _ & ->)%Hlk & <-). eauto.
  - intros f x. rewrite Hc, Hrows. split.
    + intros [([k v] & t & r & Hk%elem_of_map_to_list & <- & Ht & (k' & v' & Hv' & Hf & ->)%H7 & ->) | [Hnin Hr]].
      * assert (k' = k) as -> by by eapply H4. assert (v' = v) as -> by congruence.
        eexists k, _. split_and!; [apply Hlk; by eauto | done | done].
      * exfalso. apply H7 in Hr as (k & v & Hv & Hf & ->). apply Hnin, list_elem_of_fmap.
        exists (k, v). split; [done |]. by apply elem_of_map_to_list.
    + intros (k & v & (w & t & Hw & Ht & ->)%Hlk & <- & ->). left. exists (k, w), t, (row_of k w).
      split_and!; [by apply elem_of_map_to_list | done | done | apply H7; eauto | done].
Qed.
End PolicyProofs.

(** ** The life of a store *)

(** The operations of the FakeDNS server on its store, over any clock and any policies. *)
Inductive reachable : store -> Prop :=
| reach_open limits now d s : from_connection_with_limits limits (Ok now) d = Ok s -> reachable s
| reach_allocate s now domain real t ttl : reachable s -> is_u 32 real ->
    reachable (allocate s now domain real t ttl).1
| reach_remove s ms : reachable s -> reachable (remove_mappings s ms).1
| reach_commit net `(Ipnet net) rx (rx_is_match : rx -> string -> bool)
    (p : routing_policy (net := net) (rx := rx)) s s' r :
    reachable s -> commit_targets rx_is_match p s = Some (s', r) -> reachable s'.

Lemma reachable_ok s : reachable s -> store_ok s.
Proof.
  induction 1; [by eapply open_ok | by apply allocate_ok | by apply remove_ok | by eapply commit_ok].
Qed.

(** C8. However the store is used, at every moment: two leases never share a fake address; every fake
    address lies in 198.18.0.1-198.19.255.254 and so is never the panel's; the set of used addresses
    is exactly the leased ones; a lease of a domain and an address maps to that address; and the
    database holds exactly one row per lease, with its target and expiry, so that a restart loses and
    invents nothing. *)
Theorem lease_store_invariant s :
  reachable s ->
  (forall k l k' l', leases s !! k = Some l -> leases s !! k' = Some l' ->
     fake (mapping l) = fake (mapping l') -> k = k' /\ l = l')
  /\ (forall k l, leases s !! k = Some l -> FIRST_FAKE <= fake (mapping l) <= LAST_FAKE
       /\ fake (mapping l) <> PANEL_VIRTUAL_IP /\ real (mapping l) = k.2)
  /\ (forall f, f ∈ used s <-> exists k l, leases s !! k = Some l /\ fake (mapping l) = f)
  /\ (forall f r, rows (connection s) !! f = Some r <->
       exists k l, leases s !! k = Some l /\ fake (mapping l) = f /\ r = row_of k l).
Proof.
  intros [H1 H2 H3 H4 H5 H6]%reachable_ok. split_and!; [| | done | done].
  - intros k l k' l' Hl Hl' Hf. assert (k = k') as <- by by eapply H3. rewrite Hl in Hl'. by injection Hl' as <-.
  - intros k l Hl. specialize (H2 k l Hl). destruct (H1 k l Hl) as [Hr _]. unfold in_pool in H2.
    assert (PANEL_VIRTUAL_IP < FIRST_FAKE) by done. split_and!; [lia | lia | lia | done].
Qed.

(** C30. Allocation: a known pair keeps its fake address and target for good and its expiry never
    moves back; a new pair gets an unused address of the pool; an allocation fails only on the clock,
    the database, a full lease table or, when the limit allows more leases than the pool has
    addresses, an exhausted pool, and then the leases are untouched. *)
Theorem allocate_keeps_or_extends s now domain real_ t ttl :
  reachable s ->
  let s' := (allocate s now domain real_ t ttl).1 in
  match (allocate s now domain real_ t ttl).2 with
  | Ok (m, false) => exists l l', leases s !! (domain, real_) = Some l /\ mapping l = m
      /\ leases s' = <[(domain, real_) := l']> (leases s) /\ mapping l' = m /\ expires l <= expires l'
  | Ok (m, true) => leases s !! (domain, real_) = None /\ real m = real_ /\ fm_target m = t
      /\ (fake m ∉ used s) /\ FIRST_FAKE <= fake m <= LAST_FAKE
      /\ exists e, leases s' = <[(domain, real_) := Lease m e]> (leases s)
  | Err e => leases s' = leases s /\
      (now = Err e
       \/ (exists x f, set_expires x f (connection s) = Err e)
       \/ (exists f r, insert_row f r (connection s) = Err e)
       \/ max_leases s <= Z.of_nat (size (leases s))
       \/ pool_size <= Z.of_nat (size (leases s)) < max_leases s)
  end.
Proof.
  intros Hok%reachable_ok. cbn zeta. unfold allocate.
  destruct now as [now | e]; [| by split; [| left]].
  destruct (leases s !! (domain, real_)) as [l |] eqn:Hk.
  - destruct (expires l <? _) eqn:He.
    + destruct (set_expires _ _ _) as [d | e] eqn:Hd; cbn; [| split; [done |]; right; left; eauto].
      eexists l, _. split_and!; [done | done | done | done | cbn; lia].
    + exists l, l. split_and!; [done | done | | done | done]. cbn. by rewrite insert_id.
  - destruct (negb _) eqn:Hlim; [cbn; split; [done |]; right; right; right; left; lia |].
    destruct (probe s (Z.to_nat pool_size) 0) as [f |] eqn:Hp.
    + pose proof (probe_Some _ _ _ _ Hp) as [Hpool Hfree]. unfold in_pool in Hpool.
      destruct (insert_row _ _ _) as [d | e] eqn:Hd; cbn in *.
      * split_and!; [done | done | done | done | lia | lia | by eexists].
      * split; [done |]. right; right; left. eauto.
    + cbn. split; [done |]. do 4 right. pose proof (exhausted_size s Hok Hp). lia.
Qed.

Lemma add_i64_small a b : i64_min <= a + b <= i64_max -> add_i64 a b = a + b.
Proof. unfold add_i64, i64_min, i64_max. intros Hr. rewrite Z.mod_small; lia. Qed.

Lemma allocate_expiry s now domain real_ t ttl m new :
  0 <= now -> now + 3900 <= i64_max ->
  (allocate s (Ok now) domain real_ t ttl).2 = Ok (m, new) ->
  exists l, leases (allocate s (Ok now) domain real_ t ttl).1 !! (domain, real_) = Some l
    /\ mapping l = m /\ now + clamp 30 3600 ttl + 300 <= expires l.
Proof.
  intros H1 H2. assert (30 <= clamp 30 3600 ttl <= 3600) as Hc by (unfold clamp; lia).
  assert (add_i64 (add_i64 now (clamp 30 3600 ttl)) 300 = now + clamp 30 3600 ttl + 300) as Hadd
    by (unfold i64_max in *; rewrite (add_i64_small now), add_i64_small; unfold i64_min, i64_max; lia).
  unfold allocate. rewrite Hadd. destruct (leases s !! (domain, real_)) as [l |] eqn:Hk.
  - destruct (expires l <? _) eqn:He.
    + destruct (set_expires _ _ _); cbn; [| done]. intros [= <- _]. eexists.
      split_and!; [apply lookup_insert_eq | done | cbn; lia].
    + cbn. intros [= <- _]. exists l. split_and!; [done | done | lia].
  - destruct (negb _); cbn; [done |]. destruct (probe s _ 0); cbn; [| done].
    destruct (insert_row _ _ _); cbn; [| done]. intros [= <- _]. eexists.
    split_and!; [apply lookup_insert_eq | done | cbn; lia].
Qed.

Lemma live_not_expired s k l now :
  store_ok s -> leases s !! k = Some l -> cutoff now < expires l ->
  fake (mapping l) ∉ fake <$> expired_at s now.
Proof.
  intros Hok Hk Hlive (m & Hm & Hin)%list_elem_of_fmap. unfold expired_at in Hin.
  apply list_elem_of_fmap in Hin as ([k' l'] & -> & Hin). apply list_elem_of_filter in Hin as [He Hk'].
  apply elem_of_map_to_list in Hk'. cbn in *. unfold cutoff in Hlive.
  assert (k = k') as <- by by eapply ok_inj. rewrite Hk in Hk'. injection Hk' as <-. lia.
Qed.

(** Nothing is reclaimed under a live connection: a mapping allocated or renewed is not among the
    expired ones before its time to live (between 30 seconds and an hour), five minutes and the day of
    grace for long connections have passed; and removing other mappings, or an expired one, never
    takes it away. *)
Theorem live_lease_kept s now domain real_ t ttl m new :
  reachable s -> is_u 32 real_ -> 0 <= now -> now + 3900 <= i64_max ->
  (allocate s (Ok now) domain real_ t ttl).2 = Ok (m, new) ->
  let s' := (allocate s (Ok now) domain real_ t ttl).1 in
  let until := now + clamp 30 3600 ttl + 300 + CONNECTION_GRACE_SECONDS in
  forall now', 0 <= now' < until ->
    m ∉ expired_at s' now' /\
    exists l, leases s' !! (domain, real_) = Some l /\ mapping l = m
      /\ leases (remove_mappings s' (expired_at s' now')).1 !! (domain, real_) = Some l.
Proof.
  intros Hok%reachable_ok Hreal H1 H2 Hres. cbn zeta. intros now' Hnow'.
  destruct (allocate_expiry _ _ _ _ _ _ _ _ H1 H2 Hres) as (l & Hl & Hm & He).
  pose proof (allocate_ok s (Ok now) domain real_ t ttl Hok Hreal) as Hok'.
  set (s' := (allocate s (Ok now) domain real_ t ttl).1) in *.
  assert (cutoff now' < expires l) as Hlive.
  { unfold cutoff, saturating_sub_i64, i64_min, CONNECTION_GRACE_SECONDS in *. unfold clamp in *. lia. }
  pose proof (live_not_expired s' _ l now' Hok' Hl Hlive) as Hnot. subst m. split.
  - intros Hin. apply Hnot, list_elem_of_fmap. eauto.
  - exists l. split_and!; [done | done |]. unfold remove_mappings. case_match; cbn; [| done].
    apply map_lookup_filter_Some. by rewrite elem_of_list_to_set.
Qed.

(** A restart keeps the store: opening the database of a store again, at any time, gives its
    leases but the ones whose grace has passed, each with its fake address, target and expiry; and
    it fails only if the database does. *)
Theorem reopen_keeps_leases s limits now d rs :
  reachable s -> delete_expired (cutoff now) (connection s) = Ok d -> select_rows d = Ok rs ->
  exists s', from_connection_with_limits limits (Ok now) (connection s) = Ok s'
    /\ leases s' = filter (fun p => cutoff now < expires p.2) (leases s)
    /\ max_leases s' = fake_leases limits.
Proof.
  intros Hok%reachable_ok Hdel Hsel. pose proof (delete_expired_rows _ _ _ Hdel) as Hrows.
  pose proof (select_rows_all _ _ Hsel) as Hall.
  assert (forall f r, rows d !! f = Some r ->
    exists k l, leases s !! k = Some l /\ ~ expires l <= cutoff now /\ read_row (f, r) = Ok (k, l)) as Hgood.
  { intros f r. rewrite Hrows. intros [(k & l & Hk & <- & ->)%ok_rows Hlive]%map_lookup_filter_Some; [| done].
    exists k, l. split_and!; [done | done |]. apply read_row_spec. destruct (ok_real _ Hok k l Hk).
    split_and!; [by eapply in_pool_u32, ok_pool | done..]. }
  destruct (result_mapM_total read_row rs) as [entries Hread].
  { intros [f r] Hin. rewrite Hall, elem_of_map_to_list in Hin. destruct (Hgood f r Hin) as (k & l & _ & _ & Hr). eauto. }
  assert (forall k v, (k, v) ∈ entries -> exists f r, rows d !! f = Some r /\ read_row (f, r) = Ok (k, v)) as Hent.
  { apply result_mapM_ok in Hread. intros k v [i Hi]%list_elem_of_lookup.
    destruct (Forall2_lookup_r _ _ _ _ _ Hread Hi) as ([f r] & Hfr%list_elem_of_lookup_2 & Hr).
    rewrite Hall, elem_of_map_to_list in Hfr. eauto. }
  destruct (from_connection_with_limits limits (Ok now) (connection s)) as [s' | e] eqn:Hopen.
  - exists s'. split; [done |]. apply open_spec in Hopen as (Hrows' & _ & Hl & _ & _ & _ & Hmax). split; [| done].
    assert (rows (connection s') = rows d) as Hsame by (rewrite Hrows', Hrows; done).
    apply map_eq. intros k. apply option_eq. intros l. rewrite Hl, Hsame, map_lookup_filter_Some. split.
    + intros (f & r & Hr & Hread'). destruct (Hgood f r Hr) as (k' & l' & Hk & Hlive & Hr').
      rewrite Hread' in Hr'. injection Hr' as <- <-. split; [done | cbn; lia].
    + intros [Hk Hlive]. cbn in Hlive. exists (fake (mapping l)), (row_of k l). split.
      * rewrite Hrows. apply map_lookup_filter_Some. split; [apply ok_rows; eauto | cbn; lia].
      * apply read_row_spec. destruct (ok_real _ Hok k l Hk). split_and!; [by eapply in_pool_u32, ok_pool | done..].
  - exfalso. unfold from_connection_with_limits in Hopen. cbn in Hopen. unfold cutoff in *.
    rewrite Hdel in Hopen. cbn in Hopen. rewrite Hsel in Hopen. cbn in Hopen. rewrite Hread in Hopen. cbn in Hopen.
    destruct (mapM _ (map_to_list _)) as [us | e'] eqn:Hm; [done |].
    match type of Hm with mapM ?f ?l = _ => destruct (result_mapM_total f l) as [us Hus]; [| congruence] end.
    intros [k v] Hin%elem_of_map_to_list. apply foldl_insert_in in Hin as [Hin | Hin]; [| by rewrite lookup_empty in Hin].
    destruct (Hent k v Hin) as (f & r & Hr & Hread'). destruct (Hgood f r Hr) as (k' & l' & Hk & _ & Hr').
    rewrite Hread' in Hr'. injection Hr' as <- <-. exists tt. apply ensure_ok. by eapply ok_pool.
Qed.
End Store.

(** ** A table in memory: the class is inhabited, and the store runs on it *)

Module MemTable.
Definition unique_rows (m : gmap Z row) : Prop :=
  NoDup ((fun p : Z * row => (row_domain p.2, row_real p.2)) <$> map_to_list m).

#[global] Instance unique_rows_dec m : Decision (unique_rows m).
Proof. unfold unique_rows. apply _. Defined.

Record t := Table { contents : gmap Z row; contents_unique : bool_decide (unique_rows contents) = true }.

Definition make (m : gmap Z row) : result t :=
  match bool_decide (unique_rows m) as b return bool_decide (unique_rows m) = b -> result t with
  | true => fun E => Ok (Table m E)
  | false => fun _ => Err (Msg "UNIQUE constraint failed")
  end eq_refl.

Lemma make_rows m d : make m = Ok d -> contents d = m.
Proof.
  unfold make. generalize (eq_refl (bool_decide (unique_rows m))).
  generalize (bool_decide (unique_rows m)) at 2 3. intros [] E; [by intros [= <-] | done].
Qed.

#[global] Instance table : FakeTable t := {
  rows := contents;
  select_rows d := Ok (map_to_list (contents d));
  delete_expired c d := make (filter (fun p => ~ row_expires p.2 <= c) (contents d));
  insert_row f r d := match contents d !! f with
                      | Some _ => Err (Msg "UNIQUE constraint failed")
                      | None => make (<[f := r]> (contents d))
                      end;
  set_expires e f d := make (alter (fun r => Row (row_domain r) (row_real r) (row_target r) e) f (contents d));
  set_target t f d := make (alter (fun r => Row (row_domain r) (row_real r) t (row_expires r)) f (contents d));
  delete_row f d := make (delete f (contents d));
  commit d := Ok d;
}.

#[global] Instance table_laws : FakeTableLaws t.
Proof.
  split; cbn.
  - intros [m Hm] f g r s Hf%elem_of_map_to_list Hg%elem_of_map_to_list Hd Hr.
    pose proof (proj1 (bool_decide_eq_true (unique_rows m)) Hm) as Hnd. unfold unique_rows in Hnd.
    cbn in *. apply list_elem_of_lookup in Hf as [i Hi]. apply list_elem_of_lookup in Hg as [j Hj].
    assert (i = j) as ->.
    { apply (NoDup_lookup _ i j (row_domain r, row_real r) Hnd); rewrite list_lookup_fmap.
      - by rewrite Hi.
      - rewrite Hj. cbn. by rewrite Hd, Hr. }
    rewrite Hi in Hj. by injection Hj.
  - by intros d l [= <-].
  - intros c d d'. apply make_rows.
  - intros f r d d'. destruct (contents d !! f); [done | apply make_rows].
  - intros e f d d'. apply make_rows.
  - intros u f d d'. apply make_rows.
  - intros f d d'. apply make_rows.
  - by intros d d' [= <-].
Qed.
End MemTable.

Definition empty_table : MemTable.t := MemTable.Table ∅ eq_refl.

Definition sample_open : result (store (db := MemTable.t)) :=
  from_connection_with_limits COMPACT (Ok 1000) empty_table.

Definition sample_store : store (db := MemTable.t) := Store empty_table ∅ ∅ FIRST_FAKE 8192.

Lemma sample_opened : sample_open = Ok sample_store.
Proof. by vm_compute. Qed.

Lemma sample_reachable : reachable sample_store.
Proof. exact (reach_open COMPACT 1000 empty_table sample_store sample_opened). Qed.

Definition sample_allocation := allocate sample_store (Ok 1000) "ya.ru" (ipv4 5 8 0 1) Vpn 60.

Definition sample_mapping : fake_mapping := FakeMapping FIRST_FAKE (ipv4 5 8 0 1) Vpn.

Lemma sample_allocated : sample_allocation.2 = Ok (sample_mapping, true).
Proof. by vm_compute. Qed.

Lemma lease_store_invariant_witness :
  FIRST_FAKE ∈ used sample_allocation.1 <->
    exists k l, leases sample_allocation.1 !! k = Some l /\ fake (mapping l) = FIRST_FAKE.
Proof.
  apply (lease_store_invariant sample_allocation.1).
  apply (reach_allocate sample_store (Ok 1000) "ya.ru" (ipv4 5 8 0 1) Vpn 60 sample_reachable).
  split; by vm_compute.
Defined.

Lemma allocate_keeps_or_extends_witness :
  match sample_allocation.2 with
  | Ok (m, true) => real m = ipv4 5 8 0 1 /\ fake m ∉ used sample_store
  | _ => False
  end.
Proof.
  pose proof (allocate_keeps_or_extends sample_store (Ok 1000) "ya.ru" (ipv4 5 8 0 1) Vpn 60 sample_reachable) as Ha.
  cbn zeta in Ha. fold sample_allocation in Ha. rewrite sample_allocated in Ha. rewrite sample_allocated.
  destruct Ha as (_ & Hr & _ & Hu & _). exact (conj Hr Hu).
Defined.

Lemma live_lease_kept_witness : sample_mapping ∉ expired_at sample_allocation.1 80000.
Proof.
  apply (live_lease_kept sample_store 1000 "ya.ru" (ipv4 5 8 0 1) Vpn 60 sample_mapping true sample_reachable);
    [split; by vm_compute | done | by vm_compute | exact sample_allocated | split; by vm_compute].
Defined.

Definition sample_rows : list (Z * row) := [(FIRST_FAKE, Row "ya.ru" (ipv4 5 8 0 1) 2 1360)].

Lemma sample_reopen_rows :
  (d ← delete_expired (cutoff 2000) (connection sample_allocation.1); select_rows d) = Ok sample_rows.
Proof. by vm_compute. Qed.

Lemma reopen_keeps_leases_witness :
  exists s', from_connection_with_limits COMPACT (Ok 2000) (connection sample_allocation.1) = Ok s'.
Proof.
  destruct (delete_expired (cutoff 2000) (connection sample_allocation.1)) as [d | e] eqn:Hd;
    pose proof sample_reopen_rows as Hr; rewrite Hd in Hr; [| discriminate Hr].
  destruct (reopen_keeps_leases sample_allocation.1 COMPACT 2000 d sample_rows) as (s' & Hs' & _).
  - apply (reach_allocate sample_store (Ok 1000) "ya.ru" (ipv4 5 8 0 1) Vpn 60 sample_reachable).
    split; by vm_compute.
  - exact Hd.
  - exact Hr.
  - exists s'. exact Hs'.
Defined.
