(* ===== verification/Resolver.v ===== *)
(** * The FakeDNS resolver (crates/gofro-agent/src/fake_dns/resolver.rs)

    Which upstream a name is asked at, how the answers are rewritten to leased
    fake addresses, and how a failure takes the leases back. The DNS message
    types of hickory-proto are the classes [DnsRecord] and [DnsMessage]; the
    sockets and [nft] are functions given to the definitions. *)

From stdpp Require Import base gmap sets strings list.
From Stdlib Require Import Ascii ZArith Lia.
From S2P Require Import Prelude RustStd Net Model Stats GeoWire GeoData Config Routing Dataplane FakeStore.

(** ** DNS data *)

Inductive rdata :=
| RA (address : Z)
| RCname (name : string)
| RAaaa (address : Z)
| RHttps
| RSvcb
| ROther.

Class DnsRecord (record : Type) := {
  record_name : record -> string;
  record_ttl : record -> Z;
  record_data : record -> rdata;
  set_ttl : Z -> record -> record;
  set_a : Z -> record -> record;
  record_is_dnssec : record -> bool;
}.

Class DnsRecordLaws (record : Type) `{DnsRecord record} := {
  data_a_u32 r a : record_data r = RA a -> is_u 32 a;
  data_set_a a r : is_u 32 a -> record_data (set_a a r) = RA a;
  name_set_a a r : record_name (set_a a r) = record_name r;
  name_set_ttl t r : record_name (set_ttl t r) = record_name r;
}.

(** The header and sections [empty_response] and [panel_response] fill in. *)
Record response (query record : Type) := Response {
  re_id : Z;
  re_op_code : Z;
  re_recursion_desired : bool;
  re_code : Z;
  re_queries : list query;
  re_answers : list record;
}.
Arguments Response {query record}.
Arguments re_queries {query record}.
Arguments re_answers {query record}.
Arguments re_id {query record}.
Arguments re_code {query record}.

Class DnsMessage (msg query record : Type) := {
  from_vec : list Z -> result msg;
  to_vec : msg -> result (list Z);
  build : response query record -> msg;
  queries : msg -> list query;
  msg_id : msg -> Z;
  op_code : msg -> Z;
  recursion_desired : msg -> bool;
  is_response : msg -> bool;
  answers : msg -> list record;
  additionals : msg -> list record;
  name_servers : msg -> list record;
  set_sections : list record -> list record -> list record -> msg -> msg;
  clear_authentic_data : msg -> msg;
  has_subnet : msg -> bool;
  remove_subnet : msg -> msg;
  query_name : query -> string;
  query_is_a : query -> bool;
  (* Record::from_rdata(query.name().clone(), ttl, RData::A(..)) *)
  record_a : query -> Z -> Z -> record;
}.

Class DnsMessageLaws (msg query record : Type) `{DnsMessage msg query record} := {
  answers_set a b c m : answers (set_sections a b c m) = a;
  additionals_set a b c m : additionals (set_sections a b c m) = b;
  name_servers_set a b c m : name_servers (set_sections a b c m) = c;
}.

(** ** IPv6 addresses, as 128-bit numbers *)

Definition ip6_segment (a : Z) : Z := Z.shiftr a 112.
Definition is_local_ip6 (a : Z) : bool :=
  (a =? 1)
  || (Z.land (ip6_segment a) 0xfe00 =? 0xfc00)
  || (Z.land (ip6_segment a) 0xffc0 =? 0xfe80)
  || (Z.shiftr a 120 =? 0xff).

(** ** Upstreams *)

Record upstream := Upstream { up_ip : Z; up_port : Z }.
Record upstream_route_t := UpstreamRoute { address : upstream; mark : Z }.

Definition TUNNEL_DNS_UPSTREAM : upstream := Upstream (ipv4 1 1 1 1) 53.
Definition WARP_DNS_UPSTREAM : upstream := Upstream (ipv4 1 0 0 1) 53.

Section Resolver.
Context {net : Type} `{IpnetLaws net} {rx : Type} (rx_is_match : rx -> string -> bool).
Variable to_lowercase : string -> string.
Variable domain_to_ascii : string -> option string.
#[local] Notation policy := (routing_policy (net := net) (rx := rx)).

Definition query_domain (value : string) : string :=
  match normalize_domain to_lowercase domain_to_ascii value with
  | Ok domain => domain
  | Err _ => to_ascii_lowercase (trim_end_matches "." (trim value))
  end.

Definition local_suffixes : list string := ["localhost"; "lan"; "local"; "home"; "home.arpa"; "internal"]%string.

(** The octets of an in-addr.arpa name, least significant label last. *)
Fixpoint reverse_octets (labels : list string) : option (list Z) :=
  match labels with
  | [] => Some []
  | label :: labels => octet ← parse_u8 label; rest ← reverse_octets labels; Some (octet :: rest)
  end.

(** The nibbles of an ip6.arpa name. *)
Fixpoint reverse_nibbles (labels : list string) (index : Z) : option Z :=
  match labels with
  | [] => Some 0
  | label :: labels =>
      if negb (slen label =? 1) then None
      else nibble ← parse_radix 16 (2 ^ 128 - 1) label;
           rest ← reverse_nibbles labels (index + 1);
           Some (Z.lor (Z.shiftl nibble (124 - index * 4)) rest)
  end.

(** A name under ip6.arpa, or neither kind of reverse name. *)
Definition local_ip6_name (domain : string) : bool :=
  match strip_suffix ".ip6.arpa" domain with
  | Some reverse =>
      let labels := split "." reverse in
      if (length labels <=? 32)%nat
      then match reverse_nibbles (rev labels) 0 with
           | Some a => is_local_ip6 a
           | None => false
           end
      else false
  | None => false
  end.

Definition local_dns_name (domain : string) (lan : lan_context net) : bool :=
  if negb (contains_byte "." domain) || existsb (fun suffix => suffix_matches suffix domain) local_suffixes then true
  else match strip_suffix ".in-addr.arpa" domain with
       | Some reverse =>
           let labels := split "." reverse in
           if (length labels <=? 4)%nat
           then match reverse_octets (rev labels) with
                | None => false
                | Some os =>
                    let octet i := default 0 (os !! i) in
                    let a := ipv4 (octet 0%nat) (octet 1%nat) (octet 2%nat) (octet 3%nat) in
                    is_lan_destination (net := net) a || contains_ip (lan_subnet lan) a
                end
           else local_ip6_name domain
       | None => local_ip6_name domain
       end.

(** [upstream_route]; the outer [None] is a panic of the policy. *)
Definition upstream_route (domain : string) (p : policy) (local_upstream : upstream) (vpn_enabled : bool)
  (lan : lan_context net) : option (option upstream_route_t) :=
  t ← (if local_dns_name domain lan then Some Direct else dns_target rx_is_match p domain);
  Some (match effective_target t vpn_enabled with
        | Block => None
        | Direct => Some (UpstreamRoute local_upstream (target_mark Direct))
        | Warp => Some (UpstreamRoute WARP_DNS_UPSTREAM (target_mark Warp))
        | Vpn => Some (UpstreamRoute TUNNEL_DNS_UPSTREAM (target_mark Vpn))
        end).

Section Records.
Context {record : Type} `{DnsRecordLaws record}.

(** One pass of the loop of [relevant_names]: the names and whether one was new. *)
Fixpoint names_pass (records : list record) (names : gset string) (changed : bool) : gset string * bool :=
  match records with
  | [] => (names, changed)
  | r :: records =>
      if bool_decide (query_domain (record_name r) ∈ names) then
        match record_data r with
        | RCname n =>
            let n := query_domain n in
            names_pass records ({[n]} ∪ names) (changed || negb (bool_decide (n ∈ names)))
        | _ => names_pass records names changed
        end
      else names_pass records names changed
  end.

(** [while changed]; [None] is out of fuel. *)
Fixpoint names_loop (fuel : nat) (records : list record) (names : gset string) : option (gset string) :=
  match fuel with
  | O => None
  | S fuel =>
      let '(names, changed) := names_pass records names false in
      if changed then names_loop fuel records names else Some names
  end.

(** Each further pass found a new target among the records' (see [relevant_names_closure]). *)
Definition relevant_names (records : list record) (domain : string) : option (gset string) :=
  names_loop (S (length records)) records {[domain]}.

(** [retain_ipv4_records]: the records kept, and whether some were dropped. *)
Definition keep_record (r : record) : bool :=
  match record_data r with
  | RAaaa a => is_local_ip6 a
  | RHttps | RSvcb => false
  | _ => true
  end.

Definition retain_ipv4_records (records : list record) : list record * bool :=
  let kept := filter (fun r => keep_record r = true) records in
  (kept, negb (length kept =? length records)%nat).

(** ** Rewriting the addresses *)

Context {db : Type} `{FakeTableLaws db}.
(* the clock: what the n-th reading gives *)
Variable clock : nat -> result Z.

Record rewriting := Rewriting {
  rw_store : store (db := db);
  rw_added : list fake_mapping;
  rw_reads : nat;
}.

(** The free [rewrite_records]; [None] is a panic of the policy. *)
Fixpoint rewrite_records (domain : string) (p : policy) (names : gset string) (lan : lan_context net)
  (records : list record) (rewritten : bool) (st : rewriting) : option (rewriting * list record * result bool) :=
  match records with
  | [] => Some (st, [], Ok rewritten)
  | r :: records =>
      match (if bool_decide (query_domain (record_name r) ∈ names) then record_data r else ROther) with
      | RA real =>
          if is_lan_destination (net := net) real || (real =? lan_address lan) || contains_ip (lan_subnet lan) real then
            '(st, rs, res) ← rewrite_records domain p names lan records rewritten st;
            Some (st, r :: rs, res)
          else
            let ttl := clamp 30 3600 (record_ttl r) in
            t ← target rx_is_match p domain real;
            let '(s, answer) := allocate (rw_store st) (clock (rw_reads st)) domain real t ttl in
            match answer with
            | Err e => Some (Rewriting s (rw_added st) (S (rw_reads st)), r :: records, Err e)
            | Ok (m, new) =>
                let added := if new : bool then rw_added st ++ [m] else rw_added st in
                '(st, rs, res) ← rewrite_records domain p names lan records true
                                   (Rewriting s added (S (rw_reads st)));
                Some (st, set_a (fake m) (set_ttl ttl r) :: rs, res)
            end
      | _ =>
          '(st, rs, res) ← rewrite_records domain p names lan records rewritten st;
          Some (st, r :: rs, res)
      end
  end.

(** ** The shared state *)

Context {kernel : Type}.
(* nft -f - *)
Variable nft : string -> kernel -> kernel * result unit.

Definition run_nft (script : string) (k : kernel) : kernel * result unit :=
  if bool_decide (script = ""%string) then (k, Ok tt) else nft script k.

Definition install_mappings (ms : list fake_mapping) : kernel -> kernel * result unit := run_nft (append_mappings ms).
Definition uninstall_mappings (ms : list fake_mapping) : kernel -> kernel * result unit := run_nft (render_removal ms).

Record fake_dns := FakeDns { fd_store : store (db := db); fd_vpn_enabled : bool; fd_kernel : kernel }.

Definition set_store (s : store) (d : fake_dns) : fake_dns := FakeDns s (fd_vpn_enabled d) (fd_kernel d).

(** [purge_expired] at the time [now] *)
Definition purge_expired (now : result Z) (d : fake_dns) : fake_dns * result Z :=
  match now with
  | Err e => (d, Err e)
  | Ok now =>
      let expired := expired_at (fd_store d) now in
      if bool_decide (expired = []) then (d, Ok 0)
      else match uninstall_mappings expired (fd_kernel d) with
      | (k, Err e) => (FakeDns (fd_store d) (fd_vpn_enabled d) k, Err e)
      | (k, Ok _) =>
          match remove_mappings (fd_store d) expired with
          | (s, Err error) =>
              let '(k, answer) := install_mappings expired k in
              (FakeDns s (fd_vpn_enabled d) k,
               match answer with
               | Ok _ => Err error
               | Err rollback => Err (Ctx "expired lease cleanup failed; dataplane rollback failed" rollback)
               end)
          | (s, Ok _) => (FakeDns s (fd_vpn_enabled d) k, Ok (Z.of_nat (length expired)))
          end
      end
  end.

(** ** Rewriting a response *)

Context {msg query : Type} `{DnsMessage msg query record} `{EqDecision query}.

(** What the method answers when the closure failed with [error]. *)
Definition rollback_added (st : rewriting) (e : error) : store (db := db) * error :=
  if bool_decide (rw_added st = []) then (rw_store st, e)
  else match remove_mappings (rw_store st) (rw_added st) with
       | (s, Ok _) => (s, e)
       | (s, Err rollback) => (s, Ctx "DNS mapping failed; store rollback failed" rollback)
       end.

(** [FakeDns::rewrite_records]; [None] is a panic. *)
Definition rewrite_message (m : msg) (domain : string) (p : policy) (lan : lan_context net) (d : fake_dns)
  : option (fake_dns * msg * result bool) :=
  names ← relevant_names (answers m) domain;
  '(st, ans, first) ← rewrite_records domain p names lan (answers m) false (Rewriting (fd_store d) [] 0);
  let m := set_sections ans (additionals m) (name_servers m) m in
  match first with
  | Err e => let '(s, e) := rollback_added st e in Some (set_store s d, m, Err e)
  | Ok rewritten =>
      '(st, adds, second) ← rewrite_records domain p names lan (additionals m) false st;
      let m := set_sections ans adds (name_servers m) m in
      match second with
      | Err e => let '(s, e) := rollback_added st e in Some (set_store s d, m, Err e)
      | Ok more =>
          let '(k, installed) := install_mappings (rw_added st) (fd_kernel d) in
          match installed with
          | Err e => let '(s, e) := rollback_added st e in Some (FakeDns s (fd_vpn_enabled d) k, m, Err e)
          | Ok _ => Some (FakeDns (rw_store st) (fd_vpn_enabled d) k, m, Ok (rewritten || more))
          end
      end
  end.

Definition strip_dnssec (records : list record) : list record := filter (fun r => record_is_dnssec r = false) records.

Definition rewrite_response (m : msg) (domain : string) (p : policy) (lan : lan_context net) (d : fake_dns)
  : option (fake_dns * msg * result unit) :=
  let domain_target := fst <$> domain_target rx_is_match p domain in
  '(d, m, rewritten) ← (if bool_decide (is_Some domain_target) then rewrite_message m domain p lan d
                        else Some (d, m, Ok false));
  match rewritten with
  | Err e => Some (d, m, Err e)
  | Ok rewritten =>
      let '(m, filtered) :=
        if fd_vpn_enabled d || bool_decide (domain_target = Some Block) || bool_decide (domain_target = Some Warp) then
          let '(ans, dropped) := retain_ipv4_records (answers m) in
          let '(adds, dropped') := retain_ipv4_records (additionals m) in
          (set_sections ans adds (name_servers m) m, dropped || dropped')
        else (m, false) in
      if rewritten || filtered then
        Some (d, clear_authentic_data (set_sections (strip_dnssec (answers m)) (strip_dnssec (additionals m))
                   (strip_dnssec (name_servers m)) m), Ok tt)
      else Some (d, m, Ok tt)
  end.

(** ** Responses of the resolver itself *)

Definition FORM_ERR : Z := 1.
Definition SERV_FAIL : Z := 2.
Definition REFUSED : Z := 5.

Definition empty_response (request : msg) (code : Z) : result (list Z) :=
  to_vec (build (Response (msg_id request) (op_code request) (recursion_desired request) code (queries request) [])).

Definition panel_response (request : msg) : result (list Z) :=
  let answers := match queries request with
                 | q :: _ => if query_is_a q then [record_a q 30 PANEL_VIRTUAL_IP] else []
                 | [] => []
                 end in
  with_context "failed to encode panel DNS response"
    (to_vec (build (Response (msg_id request) (op_code request) (recursion_desired request) 0 (queries request) answers))).

Definition failure_response (packet : list Z) : list Z :=
  match (request ← from_vec packet; empty_response request SERV_FAIL) with Ok bytes => bytes | Err _ => [] end.

Definition upstream_packet (packet : list Z) (request : msg) (route : upstream_route_t) : result (list Z) :=
  if (mark route =? target_mark Direct) || negb (has_subnet request) then Ok packet
  else to_vec (remove_subnet request).

(** ** One request *)

(* query_upstream_with_mark *)
Variable ask : list Z -> upstream -> Z -> result (list Z).

(** [FakeDns::process]; [None] is a panic. *)
Definition process (packet : list Z) (p : policy) (up : upstream) (lan : lan_context net) (d : fake_dns)
  : option (fake_dns * result (list Z)) :=
  match with_context "invalid DNS request" (from_vec packet) with
  | Err e => Some (d, Err e)
  | Ok request =>
      if negb (length (queries request) =? 1)%nat then Some (d, empty_response request FORM_ERR)
      else match queries request with
      | [] => Some (d, Err (Msg "DNS request has no question"))
      | query :: _ =>
          let domain := query_domain (query_name query) in
          if bool_decide (domain = AP_DOMAIN) then Some (d, panel_response request)
          else
            route ← upstream_route domain p up (fd_vpn_enabled d) lan;
            match route with
            | None => Some (d, empty_response request REFUSED)
            | Some route =>
                match (outgoing ← upstream_packet packet request route;
                       bytes ← ask outgoing (address route) (mark route);
                       message ← with_context "invalid upstream DNS response" (from_vec bytes);
                       if negb (is_response message) || negb (msg_id message =? msg_id request)
                          || negb (bool_decide (queries message = queries request))
                       then Err (Msg "upstream DNS response does not match the request") else Ok message) with
                | Err e => Some (d, Err e)
                | Ok message =>
                    '(d, message, answer) ← rewrite_response message domain p lan d;
                    Some (d, _ ← answer; with_context "failed to encode DNS response" (to_vec message))
                end
            end
      end
  end.
End Records.

(** ** Names are asked where their traffic goes *)

(** C29. A lookup never betrays protected traffic. Take a name that is not local to the LAN and the
    route the resolver picks for it under a compiled policy. If the local (provider's) upstream is
    asked, then a connection to the name at any public address goes directly or is dropped. If some
    connection to the name would go through the VPN, the query goes to a tunnel resolver with the VPN
    or the WARP mark, and if some would go through WARP, it goes to the WARP resolver with its mark. *)
Theorem lookup_follows_traffic rx_build us ui c g p up vpn lan domain route :
  compile rx_build us ui c g = Ok p -> local_dns_name domain lan = false ->
  upstream_route domain p up vpn lan = Some (Some route) ->
  let tunnel := UpstreamRoute TUNNEL_DNS_UPSTREAM VPN_MARK in
  let warp := UpstreamRoute WARP_DNS_UPSTREAM WARP_MARK in
  (route = UpstreamRoute up DIRECT_MARK \/ route = tunnel \/ route = warp) /\
  forall ip, is_u 32 ip -> is_lan_destination (net := net) ip = false ->
  exists t, target rx_is_match p domain ip = Some t /\
    (mark route = DIRECT_MARK -> effective_target t vpn = Direct \/ effective_target t vpn = Block) /\
    (effective_target t vpn = Vpn -> route = tunnel \/ route = warp) /\
    (effective_target t vpn = Warp -> route = warp).
Proof.
  clear to_lowercase domain_to_ascii. intros Hcomp Hlocal Hroute. cbn zeta. unfold upstream_route in Hroute. rewrite Hlocal in Hroute.
  destruct (dns_target rx_is_match p domain) as [d |] eqn:Hd; cbn in Hroute; [| done].
  split; [by destruct (effective_target d vpn); simplify_eq; auto |].
  intros ip Hip Hlan.
  destruct (dns_protects rx_build rx_is_match us ui c g p domain ip Hcomp Hip Hlan) as (d' & t & Hd' & Ht & Hrank).
  rewrite Hd in Hd'. injection Hd' as <-. exists t. split; [done |].
  destruct vpn, d, t; cbn in *; try lia; simplify_eq; cbn; naive_solver.
Qed.

(** ** The aliases of a name *)

Section Names.
Context {record : Type} `{DnsRecordLaws record}.

(** The names an answer leads to: the domain and the targets of CNAMEs of such names. *)
Inductive alias (records : list record) (domain : string) : string -> Prop :=
| alias_self : alias records domain domain
| alias_cname r n : alias records domain (query_domain (record_name r)) -> r ∈ records ->
    record_data r = RCname n -> alias records domain (query_domain n).

Definition cname_targets (records : list record) : list string :=
  omap (fun r => match record_data r with RCname n => Some (query_domain n) | _ => None end) records.

(** A set of names is closed under the CNAMEs of the records. *)
Definition closed (records : list record) (names : gset string) : Prop :=
  forall r n, r ∈ records -> query_domain (record_name r) ∈ names -> record_data r = RCname n -> query_domain n ∈ names.

Lemma names_pass_spec (records : list record) : forall names changed names' changed',
  names_pass records names changed = (names', changed') ->
  names ⊆ names' /\ (forall x, x ∈ names' -> x ∈ names \/ x ∈ cname_targets records) /\
  (changed' = false -> changed = false /\ names' = names /\ closed records names) /\
  (changed' = true -> changed = true \/ size names < size names')%nat.
Proof.
  induction records as [| r records IH]; intros names changed names' changed'; cbn [names_pass].
  { intros [= <- <-]. split_and!; [done | by left | | by left]. intros ->. split_and!; [done | done |].
    intros r n Hr. by apply not_elem_of_nil in Hr. }
  assert (forall x, x ∈ cname_targets records -> x ∈ cname_targets (r :: records)) as Hmore.
  { unfold cname_targets. intros x Hx. cbn. case_match; [by right | done]. }
  case_bool_decide as Hin.
  2: { intros (H1' & H2' & H3' & H4')%IH. split_and!; [done | | | done].
       - intros x [? | ?]%H2'; auto.
       - intros Hc. destruct (H3' Hc) as (-> & -> & Hcl). split_and!; [done | done |].
         intros r' n [-> | Hr']%elem_of_cons; [done | by apply Hcl]. }
  destruct (record_data r) as [a | n | a | | |] eqn:Hdata.
  2: { intros (H1' & H2' & H3' & H4')%IH. split_and!.
       - set_solver.
       - intros x [[->%elem_of_singleton | Hx]%elem_of_union | Hx]%H2'; [right | by left | right; by apply Hmore].
         unfold cname_targets. cbn. rewrite Hdata. by left.
       - intros Hc. destruct (H3' Hc) as (Hor & -> & Hcl). apply orb_false_iff in Hor as [-> Hn].
         apply negb_false_iff, bool_decide_eq_true in Hn.
         assert ({[query_domain n]} ∪ names = names) as Heq by (apply set_eq; set_solver). rewrite Heq in *.
         split_and!; [done | done |]. intros r' n' [-> | Hr']%elem_of_cons Hq Hd; [congruence | by apply (Hcl r' n')].
       - intros [[-> | Hn%negb_true_iff%bool_decide_eq_false]%orb_true_iff | Hlt]%H4'; [by left | right | right].
         + pose proof (subseteq_size _ _ H1') as Hle. rewrite size_union, size_singleton in Hle by set_solver. lia.
         + eapply Nat.le_lt_trans; [| exact Hlt]. apply subseteq_size. set_solver. }
  all: intros (H1' & H2' & H3' & H4')%IH; split_and!; [done | | | done];
    [ intros x [? | ?]%H2'; auto
    | intros Hc; destruct (H3' Hc) as (-> & -> & Hcl); split_and!; [done | done |];
      intros r' n' [-> | Hr']%elem_of_cons Hq Hd; [congruence | by apply (Hcl r' n')] ].
Qed.

Lemma names_pass_alias records0 domain (records : list record) : forall names changed,
  records ⊆ records0 -> (forall x, x ∈ names -> alias records0 domain x) ->
  forall x, x ∈ (names_pass records names changed).1 -> alias records0 domain x.
Proof.
  induction records as [| r records IH]; intros names changed Hsub Hal; cbn [names_pass fst]; [done |].
  assert (records ⊆ records0) as Hsub' by (intros x Hx; apply Hsub; by right).
  case_bool_decide as Hin; [| by apply IH].
  destruct (record_data r) as [a | n | a | | |] eqn:Hdata; try by apply IH.
  apply IH; [done |]. intros x [->%elem_of_singleton | Hx]%elem_of_union; [| by apply Hal].
  apply (alias_cname _ _ r); [by apply Hal | apply Hsub; by left | done].
Qed.

Lemma cname_targets_length (records : list record) : (length (cname_targets records) <= length records)%nat.
Proof. unfold cname_targets. induction records as [| r records IH]; cbn; [done |]. case_match; cbn; lia. Qed.

Lemma size_list_to_set_le (l : list string) : (size (list_to_set l : gset string) <= length l)%nat.
Proof.
  induction l as [| x l IH]; cbn; [by rewrite size_empty |].
  rewrite size_union_alt, size_singleton. etrans; [| apply le_n_S, IH]. apply le_n_S, subseteq_size. set_solver.
Qed.

Lemma names_loop_spec (records : list record) domain fuel : forall names,
  domain ∈ names -> (forall x, x ∈ names -> alias records domain x) ->
  (forall x, x ∈ names -> x = domain \/ x ∈ cname_targets records) ->
  (1 + length records < size names + fuel)%nat ->
  exists names', names_loop fuel records names = Some names' /\ domain ∈ names' /\ closed records names'
    /\ forall x, x ∈ names' -> alias records domain x.
Proof.
  induction fuel as [| fuel IH]; intros names Hd Hal Hb Hfuel.
  { exfalso. assert (names ⊆ list_to_set (domain :: cname_targets records)) as Hsub%subseteq_size.
    { intros x Hx. apply elem_of_list_to_set. destruct (Hb x Hx) as [-> | ?]; [by left | by right]. }
    pose proof (size_list_to_set_le (domain :: cname_targets records)) as Hle.
    pose proof (cname_targets_length records). rewrite length_cons in Hle. lia. }
  cbn [names_loop]. destruct (names_pass records names false) as [names' changed] eqn:Hpass.
  pose proof (names_pass_alias records domain records names false (reflexivity _) Hal) as Hal'.
  rewrite Hpass in Hal'. cbn [fst] in Hal'.
  apply names_pass_spec in Hpass as (H1' & H2' & H3' & H4'). destruct changed.
  - apply IH; [by apply H1' | done | | destruct (H4' eq_refl); [done | lia]].
    intros x [Hx | Hx]%H2'; [by apply Hb | by right].
  - destruct (H3' eq_refl) as (_ & -> & Hcl). by exists names.
Qed.

Lemma relevant_names_spec (records : list record) domain :
  exists names, relevant_names records domain = Some names /\ forall x, x ∈ names <-> alias records domain x.
Proof.
  destruct (names_loop_spec records domain (S (length records)) {[domain]}) as (names & Hn & Hd & Hcl & Hal).
  - set_solver.
  - intros x ->%elem_of_singleton. constructor.
  - intros x ->%elem_of_singleton. by left.
  - rewrite size_singleton. lia.
  - exists names. split; [done |]. intros x. split; [apply Hal |].
    induction 1 as [| r n _ IH Hr Hdata]; [done |]. by apply (Hcl r n).
Qed.

(** The search for the aliases of a name ends, however the CNAMEs of a response loop, and finds
    exactly the names that the response's CNAME records lead to from the name that was asked. *)
Theorem relevant_names_closure (records : list record) domain :
  exists names, relevant_names records domain = Some names /\ forall x, x ∈ names <-> alias records domain x.
Proof. apply relevant_names_spec. Qed.
End Names.

(** ** Rewriting leases *)

Section Rewriting.
Context {record : Type} `{DnsRecordLaws record} {db : Type} `{FakeTableLaws db}.
Variable clock : nat -> result Z.

(** Since [s0], leases were only added, the new ones with the mappings [added]. *)
Record extends (s0 : store (db := db)) (st : rewriting) : Prop := {
  ex_ok : store_ok (rw_store st);
  ex_old k l : leases s0 !! k = Some l ->
    exists l', leases (rw_store st) !! k = Some l' /\ mapping l' = mapping l;
  ex_new k l : leases (rw_store st) !! k = Some l -> leases s0 !! k = None -> mapping l ∈ rw_added st;
  ex_added m : m ∈ rw_added st -> exists k l, leases s0 !! k = None
    /\ leases (rw_store st) !! k = Some l /\ mapping l = m;
}.

Lemma extends_self s reads : store_ok s -> extends s (Rewriting s [] reads).
Proof.
  intros Hok. split; cbn; [done | by eauto | by intros; simplify_eq | by intros m ?%not_elem_of_nil].
Qed.

(** What [allocate] does to the leases. *)
Lemma allocate_leases (s : store (db := db)) now domain real_ t ttl :
  match (allocate s now domain real_ t ttl).2 with
  | Err _ => leases (allocate s now domain real_ t ttl).1 = leases s
  | Ok (m, new) => exists l', leases (allocate s now domain real_ t ttl).1 = <[(domain, real_) := l']> (leases s)
      /\ mapping l' = m /\ real m = real m
      /\ if new : bool then leases s !! (domain, real_) = None
         else exists l, leases s !! (domain, real_) = Some l /\ mapping l = m
  end.
Proof.
  unfold allocate. destruct now as [now | e]; [| done]. destruct (leases s !! (domain, real_)) as [l |] eqn:Hk.
  - destruct (expires l <? _); [destruct (set_expires _ _ _); [| done] |]; cbn.
    + eexists. split_and!; [done | done | done | by eexists].
    + exists l. split_and!; [by rewrite insert_id | done | done | by eexists].
  - destruct (negb _); [done |]. destruct (probe s _ 0); [| done]. destruct (insert_row _ _ _); cbn; [| done].
    by eexists.
Qed.

(** A lease that [allocate] makes has the target it was asked for. *)
Lemma allocate_fresh (s : store (db := db)) now domain real_ t ttl k l :
  leases (allocate s now domain real_ t ttl).1 !! k = Some l -> leases s !! k = None ->
  k = (domain, real_) /\ fm_target (mapping l) = t.
Proof.
  unfold allocate. destruct now as [now | e]; [| cbn; congruence ]. destruct (leases s !! (domain, real_)) as [l0 |] eqn:Hk.
  - destruct (expires l0 <? _); [destruct (set_expires _ _ _); [| cbn; congruence] | cbn; congruence]. cbn.
    intros [[<- _] | [_ ->]]%lookup_insert_Some; [congruence | done].
  - destruct (negb _); [cbn; congruence |]. destruct (probe s _ 0); [| cbn; congruence]. destruct (insert_row _ _ _); cbn; [| cbn; congruence].
    by intros [[<- <-] | [_ ->]]%lookup_insert_Some.
Qed.

Lemma allocate_mono (s : store (db := db)) now domain real_ t ttl k l :
  leases s !! k = Some l ->
  exists l', leases (allocate s now domain real_ t ttl).1 !! k = Some l' /\ mapping l' = mapping l.
Proof.
  intros Hk. pose proof (allocate_leases s now domain real_ t ttl) as Hl.
  destruct (allocate _ _ _ _ _ _) as [s' [[m new] | e]]; cbn [fst snd] in *; [| rewrite Hl; eauto].
  destruct Hl as (l' & -> & Hm & _ & Hcase). destruct (decide (k = (domain, real_))) as [-> | Hne].
  - exists l'. rewrite lookup_insert_eq. split; [done |]. destruct new; [congruence |].
    destruct Hcase as (l1 & Hl1 & Hm1). congruence.
  - exists l. by rewrite lookup_insert_ne.
Qed.

Lemma extends_allocate s0 st now domain real_ t ttl reads :
  extends s0 st -> is_u 32 real_ ->
  let '(s, answer) := allocate (rw_store st) now domain real_ t ttl in
  match answer with
  | Err _ => extends s0 (Rewriting s (rw_added st) reads)
  | Ok (m, new) => extends s0 (Rewriting s (if new : bool then rw_added st ++ [m] else rw_added st) reads)
      /\ exists l, leases s !! (domain, real_) = Some l /\ mapping l = m
  end.
Proof.
  intros [Hok Hold Hnew Hadded] Hreal.
  pose proof (allocate_ok (rw_store st) now domain real_ t ttl Hok Hreal) as Hok'.
  pose proof (allocate_leases (rw_store st) now domain real_ t ttl) as Hl.
  destruct (allocate _ _ _ _ _ _) as [s answer]. cbn [fst snd] in *.
  destruct answer as [[m new] | e]; [| by split; cbn; rewrite ?Hl].
  destruct Hl as (l' & Hl & Hm & _ & Hcase). split.
  2: { exists l'. by rewrite Hl, lookup_insert_eq. }
  split; cbn; [done | | |].
  - intros k l Hk. destruct (Hold k l Hk) as (l0 & Hl0 & Hm0). rewrite Hl.
    destruct (decide (k = (domain, real_))) as [-> | Hne]; [| rewrite lookup_insert_ne by done; eauto].
    rewrite lookup_insert_eq. exists l'. split; [done |]. destruct new; [congruence |].
    destruct Hcase as (l1 & Hl1 & Hm1). congruence.
  - intros k l. rewrite Hl. intros [[<- <-] | [Hne Hk]]%lookup_insert_Some Hs0.
    + rewrite Hm. destruct new; [by apply elem_of_app; right; apply list_elem_of_singleton |].
      destruct Hcase as (l1 & Hl1 & <-). by eapply Hnew.
    + destruct new; [apply elem_of_app; left |]; by eapply Hnew.
  - intros x Hx. assert (x ∈ rw_added st \/ (new = true /\ x = m)) as [Hin | [-> ->]].
    { destruct new; [apply elem_of_app in Hx as [? | ->%list_elem_of_singleton]; auto | by left]. }
    + destruct (Hadded x Hin) as (k & l & Hs0 & Hk & <-). exists k.
      destruct (decide (k = (domain, real_))) as [-> | Hne].
      * exists l'. rewrite Hl, lookup_insert_eq. split_and!; [done | done |]. destruct new; [congruence |].
        destruct Hcase as (l1 & Hl1 & Hm1). congruence.
      * exists l. by rewrite Hl, lookup_insert_ne.
    + exists (domain, real_), l'. rewrite Hl, lookup_insert_eq. split_and!; [| done | done].
      destruct (leases s0 !! (domain, real_)) as [l0 |] eqn:Hs0; [| done].
      destruct (Hold _ _ Hs0) as (? & ? & _). congruence.
Qed.

(** Taking the added mappings back leaves the old leases, with their mappings. *)
Lemma extends_rollback s0 st s u :
  extends s0 st -> remove_mappings (rw_store st) (rw_added st) = (s, Ok u) ->
  forall k, mapping <$> leases s !! k = mapping <$> leases s0 !! k.
Proof.
  intros [Hok Hold Hnew Hadded] Hrm k. unfold remove_mappings in Hrm.
  destruct (_ ≫= _) as [d | e]; [| done]. injection Hrm as <- _. cbn [leases].
  destruct (leases s0 !! k) as [l |] eqn:Hk; cbn.
  - destruct (Hold k l Hk) as (l' & Hl' & Hm). rewrite (map_lookup_filter_Some_2 _ _ k l'); [by rewrite <- Hm | done |].
    cbn. rewrite elem_of_list_to_set. intros (m & Hf & Hin)%list_elem_of_fmap.
    destruct (Hadded m Hin) as (k2 & l2 & Hs0 & Hl2 & <-).
    assert (k = k2) as <- by by eapply (ok_inj _ Hok). congruence.
  - destruct (filter _ _ !! k) as [l |] eqn:Hf; [| done]. exfalso.
    apply map_lookup_filter_Some in Hf as [Hl Hnot]. cbn in Hnot. apply Hnot, elem_of_list_to_set, list_elem_of_fmap.
    exists (mapping l). split; [done |]. by eapply Hnew.
Qed.

(** An address that is reached on the LAN: replies of a fake one would come back another way. *)
Definition on_link (lan : lan_context net) (real_ : Z) : Prop :=
  is_lan_destination (net := net) real_ = true \/ real_ = lan_address lan \/ contains_ip (lan_subnet lan) real_ = true.

(** An address record of one of the names, off the LAN. *)
Definition public_address (names : gset string) (lan : lan_context net) (r : record) (real_ : Z) : Prop :=
  query_domain (record_name r) ∈ names /\ record_data r = RA real_ /\ ~ on_link lan real_.

(** A record after rewriting: a public address is the fake one leased for it, and its time to
    live is bounded; any other record is as it was. *)
Definition rewritten_as (domain : string) (names : gset string) (lan : lan_context net) (s : store (db := db))
  (r r' : record) : Prop :=
  (exists real_ l, public_address names lan r real_ /\ leases s !! (domain, real_) = Some l
     /\ r' = set_a (fake (mapping l)) (set_ttl (clamp 30 3600 (record_ttl r)) r)
     /\ record_data r' = RA (fake (mapping l)) /\ real (mapping l) = real_ /\ record_name r' = record_name r)
  \/ (r' = r /\ forall real_, ~ public_address names lan r real_).

Lemma rewritten_as_mono domain names lan (s s' : store (db := db)) r r' :
  (forall k l, leases s !! k = Some l -> exists l', leases s' !! k = Some l' /\ mapping l' = mapping l) ->
  rewritten_as domain names lan s r r' -> rewritten_as domain names lan s' r r'.
Proof.
  intros Hmono [(re & l & Hp & Hl & Hr' & Hd' & Hr & Hn) | Hkeep]; [left | by right].
  destruct (Hmono _ _ Hl) as (l' & Hl' & Hm). exists re, l'. by rewrite Hm.
Qed.

(** Every new lease is one of the asked name, with the target its traffic has. *)
Definition fresh_targets (p : policy) (domain : string) (s s' : store (db := db)) : Prop :=
  forall k l, leases s' !! k = Some l -> leases s !! k = None ->
    k.1 = domain /\ target rx_is_match p domain k.2 = Some (fm_target (mapping l)).

Lemma fresh_self p domain s : fresh_targets p domain s s.
Proof. intros k l Hk Hno. congruence. Qed.

Lemma fresh_trans p domain s1 s2 s3 :
  (forall k l, leases s2 !! k = Some l -> exists l', leases s3 !! k = Some l' /\ mapping l' = mapping l) ->
  fresh_targets p domain s1 s2 -> fresh_targets p domain s2 s3 -> fresh_targets p domain s1 s3.
Proof.
  intros Hmono H12 H23 k l Hk Hno. destruct (leases s2 !! k) as [l2 |] eqn:E; [| by apply H23].
  destruct (Hmono _ _ E) as (l' & Hl' & Hm). rewrite Hk in Hl'. injection Hl' as <-. rewrite Hm. by apply H12.
Qed.

(** What a run over records did, from the state [st] to [st']. *)
Definition records_rewritten s0 domain p names lan (records rs : list record) (rewritten : bool) (st st' : rewriting) (res : result bool) : Prop :=
  extends s0 st' /\
  (forall k l, leases (rw_store st) !! k = Some l ->
     exists l', leases (rw_store st') !! k = Some l' /\ mapping l' = mapping l) /\
  fresh_targets p domain (rw_store st) (rw_store st') /\
  match res with
  | Ok b => Forall2 (rewritten_as domain names lan (rw_store st')) records rs
      /\ (b = true <-> rewritten = true \/ exists r real_, r ∈ records /\ public_address names lan r real_)
  | Err _ => True
  end.

(** A record that stays as it is, before others. *)
Lemma record_kept s0 domain p names lan r records rs rewritten st st' res :
  (forall real_, ~ public_address names lan r real_) ->
  records_rewritten s0 domain p names lan records rs rewritten st st' res ->
  records_rewritten s0 domain p names lan (r :: records) (r :: rs) rewritten st st' res.
Proof.
  intros Hr (Hex & Hmono & Hfresh & Hres). split_and!; [done.. |]. destruct res as [b |]; [| done]. destruct Hres as [Hall Hb].
  split; [constructor; [by right | done] |]. rewrite Hb. apply or_iff_compat_l. setoid_rewrite elem_of_cons. split; [naive_solver |].
  intros (r' & re & [-> | Hin] & Hp); [by destruct (Hr re) | eauto].
Qed.

(** A record that was rewritten, before others. *)
Lemma record_rewritten s0 domain p names lan r real_ l records rs rewritten st st1 st' res :
  public_address names lan r real_ -> is_u 32 (fake (mapping l)) ->
  leases (rw_store st1) !! (domain, real_) = Some l ->
  (forall k l, leases (rw_store st) !! k = Some l -> exists l', leases (rw_store st1) !! k = Some l' /\ mapping l' = mapping l) ->
  fresh_targets p domain (rw_store st) (rw_store st1) ->
  records_rewritten s0 domain p names lan records rs true st1 st' res ->
  records_rewritten s0 domain p names lan (r :: records) (set_a (fake (mapping l)) (set_ttl (clamp 30 3600 (record_ttl r)) r) :: rs) rewritten st st' res.
Proof.
  intros Hpublic Hfake Hlk Hmono0 Hfresh0 (Hex & Hmono & Hfresh & Hres). split_and!; [done | | by eapply fresh_trans |].
  - intros k l1 Hk. destruct (Hmono0 k l1 Hk) as (l2 & Hl2 & Hm2). destruct (Hmono k l2 Hl2) as (l3 & Hl3 & Hm3).
    exists l3. split; [done | congruence].
  - destruct res as [b |]; [| done]. destruct Hres as [Hall Hb]. split.
    + constructor; [left | done]. destruct (Hmono _ _ Hlk) as (l3 & Hl3 & Hm3). exists real_, l3.
      rewrite data_set_a, name_set_a, name_set_ttl, Hm3 by done.
      split_and!; try done. rewrite <- Hm3. by apply (ok_real _ (ex_ok _ _ Hex) (domain, real_)).
    + split; [| by intros _; apply Hb; left]. intros _. right. exists r, real_. split; [by left | done].
Qed.

Lemma rewrite_records_spec s0 domain p names lan (records : list record) : forall rewritten st st' rs res,
  extends s0 st ->
  rewrite_records clock domain p names lan records rewritten st = Some (st', rs, res) ->
  records_rewritten s0 domain p names lan records rs rewritten st st' res.
Proof.
  induction records as [| r records IH]; intros rewritten st st' rs res Hex; cbn [rewrite_records].
  { intros [= <- <- <-]. split_and!; [done | by eauto | apply fresh_self | constructor |]. split; [by left |].
    by intros [? | (? & ? & ?%not_elem_of_nil & _)]. }
  assert ((forall real_, ~ public_address names lan r real_) ->
    ('(st, rs, res) ← rewrite_records clock domain p names lan records rewritten st; Some (st, r :: rs, res)) = Some (st', rs, res) ->
    records_rewritten s0 domain p names lan (r :: records) rs rewritten st st' res) as Hkeep.
  { intros Hr Hrun. destruct (rewrite_records _ _ _ _ _ records rewritten st) as [[[st1 rs1] res1] |] eqn:Hrec; cbn in Hrun; [| done].
    injection Hrun as <- <- <-. apply record_kept; [done | by apply IH]. }
  case_bool_decide as Hin; [| apply Hkeep; by intros re [? _]].
  destruct (record_data r) as [real_ | n | a | | |] eqn:Hdata; try (apply Hkeep; intros re (_ & Hd & _); congruence).
  destruct (is_lan_destination real_ || _ || _) eqn:Hlan.
  { apply Hkeep. intros re (_ & Hd & Hno). apply Hno. rewrite Hdata in Hd. injection Hd as <-. unfold on_link. rewrite !orb_true_iff, Z.eqb_eq in Hlan. tauto. }
  assert (public_address names lan r real_) as Hpublic.
  { split_and!; [done | done |]. unfold on_link. rewrite !orb_false_iff, Z.eqb_neq in Hlan. destruct Hlan as [[-> ?] ->]. naive_solver. }
  destruct (target rx_is_match p domain real_) as [t |] eqn:Ht; cbn; [| done]. set (ttl := clamp _ _ _).
  pose proof (extends_allocate s0 st (clock (rw_reads st)) domain real_ t ttl (S (rw_reads st)) Hex (data_a_u32 r real_ Hdata)) as Hall.
  pose proof (allocate_mono (rw_store st) (clock (rw_reads st)) domain real_ t ttl) as Hmono0.
  assert (fresh_targets p domain (rw_store st) (allocate (rw_store st) (clock (rw_reads st)) domain real_ t ttl).1) as Hfresh0
    by (intros k l Hk Hno; destruct (allocate_fresh _ _ _ _ _ _ _ _ Hk Hno) as [-> ->]; done).
  destruct (allocate _ _ _ _ _ _) as [s [[m new] | e]]; cbn [fst] in Hmono0, Hfresh0.
  2: { intros [= <- <- <-]. by split_and!. }
  destruct Hall as [Hex1 (l & Hlk & <-)].
  destruct (rewrite_records _ _ _ _ _ records true _) as [[[st1 rs1] res1] |] eqn:Hrec; cbn; [| done].
  intros [= <- <- <-]. eapply (record_rewritten _ _ _ _ _ _ real_ l); [done | | | | | by eapply IH]; [| done..].
  by eapply in_pool_u32, (ok_pool _ (ex_ok _ _ Hex1)).
Qed.

Context {kernel msg query : Type} `{DnsMessageLaws msg query record} `{EqDecision query}.
Variable nft : string -> kernel -> kernel * result unit.

(** The mappings of a store: what the leases say but their expiry. *)
Definition same_mappings (s s' : store (db := db)) : Prop :=
  forall k, mapping <$> leases s !! k = mapping <$> leases s' !! k.

Lemma rollback_restores s0 st e :
  extends s0 st ->
  store_ok (rollback_added st e).1 /\
  (same_mappings (rollback_added st e).1 s0
   \/ exists rollback, (rollback_added st e).2 = Ctx "DNS mapping failed; store rollback failed" rollback).
Proof.
  intros Hex. unfold rollback_added. case_bool_decide as Hadded.
  - cbn. split; [by apply ex_ok in Hex |]. left. intros k. destruct Hex as [Hok Hold Hnew _]. rewrite Hadded in Hnew.
    destruct (leases s0 !! k) as [l |] eqn:Hk; [destruct (Hold k l Hk) as (l' & -> & Hm); cbn; by rewrite Hm |].
    destruct (leases (rw_store st) !! k) as [l |] eqn:Hl; [| done]. by destruct (not_elem_of_nil _ (Hnew k l Hl Hk)).
  - pose proof (remove_ok (rw_store st) (rw_added st) (ex_ok _ _ Hex)) as Hok.
    destruct (remove_mappings _ _) as [s [u | rb]] eqn:Hrm; cbn in *; split; try done; [left | right; by eexists].
    intros k. by eapply extends_rollback.
Qed.

(** The mappings that were added are those of the new leases. *)
Lemma extends_new s0 st m : extends s0 st ->
  m ∈ rw_added st <-> exists k l, leases s0 !! k = None /\ leases (rw_store st) !! k = Some l /\ mapping l = m.
Proof. intros [_ _ Hnew Hadded]. split; [apply Hadded |]. intros (k & l & Hs & Hk & <-). by eapply Hnew. Qed.

(** What a failure answers: the leases are taken back, or the answer says that they are not. *)
Lemma back_to_leases s0 st e k vpn (m m' : msg) (d' : fake_dns (db := db) (kernel := kernel)) res k0 :
  (k = k0 \/ exists added failure, install_mappings nft added k0 = (k, Err failure)) ->
  extends s0 st ->
  (let '(s, e) := rollback_added st e in Some (FakeDns s vpn k, m, Err (A := bool) e)) = Some (d', m', res) ->
  store_ok (fd_store d') /\ exists e', res = Err e' /\
    (same_mappings (fd_store d') s0 \/ exists rollback, e' = Ctx "DNS mapping failed; store rollback failed" rollback)
    /\ (fd_kernel d' = k0 \/ exists added failure, install_mappings nft added k0 = (fd_kernel d', Err failure)).
Proof.
  intros Hk Hex. destruct (rollback_restores _ st e Hex) as [Hok Hsame]. destruct (rollback_added st e) as [s e'].
  intros [= <- <- <-]. eauto.
Qed.

(** C9. Rewriting a response is a transaction on the leases. When it succeeds, every address record of
    the asked name or of an alias of it whose address is not reached on the LAN carries the
    fake address leased to the asked name for exactly that address and a time to live of 30 to 3600
    seconds, every other record is untouched, the answer says whether there was such a
    record, each new lease has the target that traffic to the name and its address has, the mappings of exactly the new leases were installed in the kernel, and no older lease was
    changed or lost. When it fails - the clock, the database, the lease limit or the kernel - every
    lease that was there keeps its mapping and every lease that was made for the response is taken
    back, or the answer says that taking it back failed; and the kernel is as before unless
    the installation itself failed. The store stays consistent either way. *)
Theorem rewriting_is_transactional m domain p lan (d d' : fake_dns (db := db) (kernel := kernel)) m' res :
  reachable (fd_store d) ->
  rewrite_message clock nft m domain p lan d = Some (d', m', res) ->
  store_ok (fd_store d') /\
  match res with
  | Ok b => exists names added, (forall x, x ∈ names <-> alias (answers m) domain x)
      /\ Forall2 (rewritten_as domain names lan (fd_store d')) (answers m) (answers m')
      /\ Forall2 (rewritten_as domain names lan (fd_store d')) (additionals m) (additionals m')
      /\ (b = true <-> exists r real_, r ∈ answers m ++ additionals m /\ public_address names lan r real_)
      /\ fresh_targets p domain (fd_store d) (fd_store d')
      /\ (forall x, x ∈ added <-> exists k l, leases (fd_store d) !! k = None /\ leases (fd_store d') !! k = Some l /\ mapping l = x)
      /\ install_mappings nft added (fd_kernel d) = (fd_kernel d', Ok tt)
      /\ forall k l, leases (fd_store d) !! k = Some l ->
           exists l', leases (fd_store d') !! k = Some l' /\ mapping l' = mapping l
  | Err e => (same_mappings (fd_store d') (fd_store d)
              \/ exists rollback, e = Ctx "DNS mapping failed; store rollback failed" rollback)
      /\ (fd_kernel d' = fd_kernel d
          \/ exists added failure, install_mappings nft added (fd_kernel d) = (fd_kernel d', Err failure))
  end.
Proof.
  intros Hok%reachable_ok. unfold rewrite_message.
  destruct (relevant_names_spec (answers m) domain) as (names & -> & Hnames). cbn.
  pose proof (extends_self (fd_store d) 0 Hok) as Hex0.
  destruct (rewrite_records _ _ _ _ _ (answers m) _ _) as [[[st1 ans] first] |] eqn:H1'; cbn; [| done].
  apply (rewrite_records_spec (fd_store d)) in H1' as (Hex1 & Hmono1 & Hfresh1 & Hans); [| done]. cbn in Hmono1.
  destruct first as [b1 | e]; [| intros Hrun; eapply back_to_leases in Hrun as (? & ? & -> & ?); [done | by left | done]].
  rewrite additionals_set, name_servers_set.
  destruct (rewrite_records _ _ _ _ _ (additionals m) _ _) as [[[st2 adds] second] |] eqn:H2'; cbn; [| done].
  apply (rewrite_records_spec (fd_store d)) in H2' as (Hex2 & Hmono2 & Hfresh2 & Hadds); [| done].
  destruct second as [b2 | e]; [| intros Hrun; eapply back_to_leases in Hrun as (? & ? & -> & ?); [done | by left | done]].
  destruct (install_mappings _ _ _) as [k [[] | e]] eqn:Hinstall; [| intros Hrun; eapply back_to_leases in Hrun as (? & ? & -> & ?); [done | right; eauto | done]].
  intros [= <- <- <-]. cbn [fd_store fd_kernel]. split; [by apply ex_ok in Hex2 |]. exists names, (rw_added st2).
  destruct Hans as [Hans Hb1], Hadds as [Hadds Hb2].
  rewrite !answers_set, additionals_set. split_and!; [done | | done | | by eapply fresh_trans | by intros x; apply extends_new | done |].
  - eapply Forall2_impl; [exact Hans |]. intros r r'. by apply rewritten_as_mono.
  - rewrite orb_true_iff, Hb1, Hb2. setoid_rewrite elem_of_app. split; [intros [[? | ?] | [? | ?]]; naive_solver | naive_solver].
  - intros k0 l Hk. destruct (Hmono1 k0 l Hk) as (l1 & Hl1 & Hm1). destruct (Hmono2 k0 l1 Hl1) as (l2 & Hl2 & Hm2).
    exists l2. split; [done | congruence].
Qed.
End Rewriting.
End Resolver.

(** ** Examples *)

(** Messages in memory. *)
Module PlainDns.
Record rec := Rec { r_name : string; r_ttl : Z; r_data : rdata }.

#[global] Instance records : DnsRecord rec := {
  record_name := r_name;
  record_ttl := r_ttl;
  record_data r := match r_data r with RA a => RA (wrap 32 a) | d => d end;
  set_ttl t r := Rec (r_name r) t (r_data r);
  set_a a r := Rec (r_name r) (r_ttl r) (RA a);
  record_is_dnssec _ := false;
}.

#[global] Instance records_laws : DnsRecordLaws rec.
Proof.
  split; cbn; [| | done | done].
  - intros r a. destruct (r_data r) as [x | | | | |]; try done. intros [= <-]. by apply wrap_range.
  - intros a r Ha. by rewrite wrap_small.
Qed.

Record message := Message { m_queries : list string; m_answers : list rec; m_additionals : list rec; m_servers : list rec }.

#[global] Instance messages : DnsMessage message string rec := {
  from_vec _ := Err (Msg "not encoded");
  to_vec _ := Ok [];
  build r := Message (re_queries r) (re_answers r) [] [];
  queries := m_queries;
  msg_id _ := 0;
  op_code _ := 0;
  recursion_desired _ := true;
  is_response _ := true;
  answers := m_answers;
  additionals := m_additionals;
  name_servers := m_servers;
  set_sections a b c m := Message (m_queries m) a b c;
  clear_authentic_data m := m;
  has_subnet _ := false;
  remove_subnet m := m;
  query_name q := q;
  query_is_a _ := true;
  record_a q t a := Rec q t (RA a);
}.

#[global] Instance messages_laws : DnsMessageLaws message string rec.
Proof. by split. Qed.
End PlainDns.

(** A response in which the aliases of "ya.ru" loop. *)
Definition sample_response : PlainDns.message :=
  PlainDns.Message ["ya.ru"%string]
    [PlainDns.Rec "ya.ru." 10 (RCname "www.ya.ru."); PlainDns.Rec "WWW.ya.ru" 10 (RCname "ya.ru");
     PlainDns.Rec "www.ya.ru" 10 (RA (ipv4 5 8 0 1)); PlainDns.Rec "other.ru" 10 (RA (ipv4 5 8 0 2))] [] [].

Definition sample_dns : fake_dns (db := MemTable.t) (kernel := list string) := FakeDns sample_store true [].

Definition sample_nft (script : string) (k : list string) : list string * result unit := (k ++ [script], Ok tt).

Definition sample_rewrite :=
  rewrite_message (fun _ _ => false) to_ascii_lowercase sample_idna (fun _ => Ok 1000) sample_nft
    sample_response "ya.ru" sample_policy sample_lan sample_dns.

Example sample_rewritten :
  match sample_rewrite with
  | Some (_, m, Ok true) => PlainDns.m_answers m
      = [PlainDns.Rec "ya.ru." 10 (RCname "www.ya.ru."); PlainDns.Rec "WWW.ya.ru" 10 (RCname "ya.ru");
         PlainDns.Rec "www.ya.ru" 30 (RA FIRST_FAKE); PlainDns.Rec "other.ru" 10 (RA (ipv4 5 8 0 2))]
  | _ => False
  end.
Proof. by vm_compute. Qed.

Lemma rewriting_is_transactional_witness :
  match sample_rewrite with
  | Some (d, m, Ok _) => store_ok (fd_store d) /\ exists names,
      Forall2 (rewritten_as to_ascii_lowercase sample_idna "ya.ru" names sample_lan (fd_store d)) (PlainDns.m_answers sample_response) (PlainDns.m_answers m)
  | _ => False
  end.
Proof.
  assert (match sample_rewrite with Some (_, _, Ok _) => True | _ => False end) as Hok by by vm_compute.
  destruct sample_rewrite as [[[d m] [b | e]] |] eqn:E; [| done..].
  destruct (rewriting_is_transactional _ _ _ _ _ _ _ _ _ sample_dns d m (Ok b) sample_reachable E) as (Hs & names & _ & _ & Hans & _).
  split; [exact Hs | exists names; exact Hans].
Defined.

Lemma sample_route :
  upstream_route (fun _ _ => false) "ya.ru" sample_policy (Upstream (ipv4 192 168 1 1) 53) true sample_lan
  = Some (Some (UpstreamRoute WARP_DNS_UPSTREAM WARP_MARK)).
Proof. by vm_compute. Qed.

Lemma sample_not_local : local_dns_name "ya.ru" sample_lan = false.
Proof. by vm_compute. Qed.

Lemma lookup_follows_traffic_witness :
  exists t, target (fun _ _ => false) sample_policy "ya.ru" (ipv4 8 8 8 8) = Some t.
Proof.
  destruct (lookup_follows_traffic (fun _ _ => false) (fun _ _ _ => None) (fun _ => false) (fun _ => false)
    sample_rules (GeoData None ∅ ∅) sample_policy _ _ _ _ _ sample_compiles sample_not_local sample_route) as [_ Hall].
  destruct (Hall (ipv4 8 8 8 8)) as (t & Ht & _); [split; by vm_compute | exact sample_not_lan |].
  exists t. exact Ht.
Defined.

Lemma relevant_names_closure_witness :
  exists names, relevant_names to_ascii_lowercase sample_idna (PlainDns.m_answers sample_response) "ya.ru" = Some names /\ "www.ya.ru"%string ∈ names.
Proof.
  destruct (relevant_names_closure to_ascii_lowercase sample_idna (PlainDns.m_answers sample_response) "ya.ru") as (names & Hn & _).
  exists names. refine (conj Hn _). vm_compute in Hn. injection Hn as <-. by vm_compute.
Defined.
