(* ===== verification/Upstream.v ===== *)
(** * Asking an upstream (crates/gofro-agent/src/fake_dns/resolver.rs)

    [query_upstream_with_mark], [query_upstream_tcp] and [marked_socket]: what the
    resolver's [ask] does with the sockets.  Every system call is numbered, [os n]
    is how the n-th fails; the datagram and the stream the other end sends
    come from outside, the log is what the kernel is told. *)

From stdpp Require Import base strings list.
From Stdlib Require Import Ascii ZArith Lia.
From S2P Require Import Prelude RustStd Effects Resolver.

Inductive socket_kind := Dgram | Stream.

Inductive socket_call := Made (kind : socket_kind) | Marked (mark : Z) | Connected (to : upstream) | Sent (bytes : list Z).

(** The calls, oldest first. *)
Record sockets := Sockets { so_tick : nat; so_log : list socket_call }.

Definition UDP_RESPONSE_BUFFER : nat := 4096.

(** [u16::to_be_bytes] and back *)
Definition be16 (n : Z) : list Z := [n / 256; n mod 256].
Definition of_be16 (l : list Z) : Z := match l with [hi; lo] => hi * 256 + lo | _ => 0 end.

Section Upstream.
Variable os : nat -> option error.
(* the answer of the upstream as a datagram, and all it sends on the connection before it ends or is late *)
Variable datagram : list Z.
Variable incoming : list Z.

#[local] Notation M := (eff sockets error).

Definition log (c : socket_call) : M unit := update (fun s => Sockets (so_tick s) (so_log s ++ [c])).

Definition call : M unit := fun s =>
  (Sockets (S (so_tick s)) (so_log s), match os (so_tick s) with Some e => inl e | None => inr tt end).

Definition marked_socket (kind : socket_kind) (mark : Z) : M unit :=
  call ;; log (Made kind) ;;
  if negb (mark =? 0) then contextual "failed to set DNS egress mark" call ;; log (Marked mark) else mret tt.

(** [read_exact] of [n] bytes from what is unread of the stream. *)
Definition read_exact (n : nat) (unread : list Z) : M (list Z * list Z) :=
  call ;;
  require (n <=? length unread)%nat (Msg "failed to fill whole buffer") ;;
  mret (take n unread, drop n unread).

Definition query_upstream_tcp (packet : list Z) (mark : Z) (to : upstream) : M (list Z) :=
  marked_socket Stream mark ;;
  call ;; call ;;
  call ;; log (Connected to) ;;
  require (Z.of_nat (length packet) <=? u16_max) (Msg "out of range integral type conversion attempted") ;;
  call ;; log (Sent (be16 (Z.of_nat (length packet)))) ;;
  call ;; log (Sent packet) ;;
  '(prefix, unread) ← read_exact 2 incoming;
  '(response, _) ← read_exact (Z.to_nat (of_be16 prefix)) unread;
  mret response.

(** Its first part: the answer as [recv] leaves it in the buffer. *)
Definition query_udp (packet : list Z) (to : upstream) (mark : Z) : M (list Z) :=
  marked_socket Dgram mark ;;
  call ;; call ;;
  call ;; log (Connected to) ;;
  call ;; log (Sent packet) ;;
  call ;;
  mret (take UDP_RESPONSE_BUFFER datagram).

Definition cut (response : list Z) : bool :=
  (length response =? UDP_RESPONSE_BUFFER)%nat || ((12 <=? length response)%nat && negb (Z.land (nth 2 response 0) 0x02 =? 0)).

Definition query_upstream_with_mark (packet : list Z) (to : upstream) (mark : Z) : M (list Z) :=
  response ← query_udp packet to mark;
  if cut response then query_upstream_tcp packet mark to else mret response.
End Upstream.

(** ** What the kernel is told *)

(** The calls of [m] are these, or those before the one that failed. *)
Definition sends {A} (l : list socket_call) (m : eff sockets error A) : Prop := forall s s' r, m s = (s', r) ->
  exists l', so_log s' = so_log s ++ l' /\ l' `prefix_of` l /\ forall x, r = inr x -> l' = l.

Lemma sends_bind {A B} l k (m : eff sockets error A) (f : A -> eff sockets error B) :
  sends l m -> (forall x, sends k (f x)) -> sends (l ++ k) (m ≫= f).
Proof.
  intros Hm Hf s s' r [(e & He & ->) | (s1 & x & Hx & Hr)]%bind_run.
  - destruct (Hm _ _ _ He) as (l' & Hl & Hp & _). exists l'. split_and!; [done | by apply prefix_app_r | done].
  - destruct (Hm _ _ _ Hx) as (l' & Hl & _ & Hall). destruct (Hf _ _ _ _ Hr) as (k' & Hk & Hp & Hallk).
    rewrite (Hall x eq_refl) in Hl. exists (l ++ k'). split_and!; [by rewrite Hk, Hl, <- app_assoc | by apply prefix_app |].
    intros y Hy. by rewrite (Hallk y Hy).
Qed.

(** A call the kernel log does not show. *)
Lemma sends_first {A B} l (m : eff sockets error A) (f : A -> eff sockets error B) :
  sends [] m -> (forall x, sends l (f x)) -> sends l (m ≫= f).
Proof. apply (sends_bind [] l). Qed.

Lemma sends_then {A} c l (f : unit -> eff sockets error A) : sends l (f tt) -> sends (c :: l) (log c ≫= f).
Proof. intros Hf. apply (sends_bind [c] l); [| by intros []]. intros s s' r [= <- <-]. by exists [c]. Qed.

Lemma sends_silent {A} (m : eff sockets error A) : (forall s, so_log (m s).1 = so_log s) -> sends [] m.
Proof.
  intros Hm s s' r Hr. specialize (Hm s). rewrite Hr in Hm. exists []. rewrite app_nil_r. split_and!; [done | by exists [] | done].
Qed.

Lemma sends_call os : sends [] (call os).
Proof. apply sends_silent. intros s. unfold call. by destruct (os _). Qed.

Lemma sends_contextual {A} c (m : eff sockets error A) : sends [] m -> sends [] (contextual c m).
Proof.
  intros Hm s s' r (r' & Hr & Ha)%contextual_run. destruct (Hm _ _ _ Hr) as (l & Hl & Hp & _).
  exists l. split_and!; [done | done |]. intros x _. by apply prefix_nil_inv in Hp.
Qed.

Lemma sends_require b e : sends [] (require b e).
Proof. apply sends_silent. by destruct b. Qed.

Lemma sends_ret {A} (x : A) : sends [] (mret x).
Proof. by apply sends_silent. Qed.

(** A socket of the resolver: made, marked, and only then connected and used. *)
Definition opened (kind : socket_kind) (mark : Z) : list socket_call := Made kind :: (if mark =? 0 then [] else [Marked mark]).

Definition udp_exchange (packet : list Z) (to : upstream) (mark : Z) : list socket_call := opened Dgram mark ++ [Connected to; Sent packet].

Definition tcp_exchange (packet : list Z) (to : upstream) (mark : Z) : list socket_call :=
  opened Stream mark ++ [Connected to; Sent (be16 (Z.of_nat (length packet))); Sent packet].

(** The message is whole: no longer than a datagram can be, and not marked as cut. *)
Definition whole (bytes : list Z) : Prop := (length bytes < UDP_RESPONSE_BUFFER)%nat /\ ((length bytes < 12)%nat \/ Z.land (nth 2 bytes 0) 0x02 = 0).

Section Exchange.
Variable os : nat -> option error.
Variable datagram : list Z.
Variable incoming : list Z.

#[local] Hint Resolve sends_call sends_contextual sends_require sends_ret : core.

Lemma marked_socket_sends kind mark : sends (opened kind mark) (marked_socket os kind mark).
Proof.
  unfold marked_socket, opened. apply sends_first; [done | intros []]. apply sends_then.
  destruct (mark =? 0); cbn [negb]; [done |]. apply sends_first; [auto | intros []].
  rewrite <- (app_nil_r [Marked mark]). intros s s' r [= <- <-]. by exists [Marked mark].
Qed.

Lemma read_exact_run n unread s s' r : read_exact os n unread s = (s', r) ->
  so_log s' = so_log s /\ forall x, r = inr x -> (n <= length unread)%nat /\ x = (take n unread, drop n unread).
Proof.
  unfold read_exact. intros [(e & He & ->) | (s1 & [] & Hc & Hr)]%bind_run; [unfold call in He; by destruct (os _); injection He as <- |].
  unfold call in Hc. destruct (os _); [done |]. injection Hc as <-.
  apply bind_run in Hr as [(e & [-> _]%require_run & ->) | (s2 & [] & [-> [[Hn%Nat.leb_le _] | [_ [=]]]]%require_run & [= <- <-])]; [done |].
  split; [done |]. by intros x [= <-].
Qed.

Lemma read_exact_sends n unread : sends [] (read_exact os n unread).
Proof.
  intros s s' r (Hl & _)%read_exact_run. exists []. rewrite app_nil_r. split_and!; [done | by exists [] | done].
Qed.

#[local] Hint Resolve read_exact_sends : core.

Lemma tcp_sends packet mark to : sends (tcp_exchange packet to mark) (query_upstream_tcp os incoming packet mark to).
Proof.
  unfold query_upstream_tcp, tcp_exchange. apply sends_bind; [apply marked_socket_sends | intros []].
  do 3 (apply sends_first; [done | intros []]). apply sends_then. apply sends_first; [done | intros []].
  apply sends_first; [done | intros []]. apply sends_then. apply sends_first; [done | intros []]. apply sends_then.
  apply sends_first; [done | intros [prefix unread]]. apply sends_first; [done | intros [response rest]]. done.
Qed.

(** A framed message: two bytes of length, and that many bytes. *)
Definition framed (stream message : list Z) : Prop :=
  exists prefix rest, stream = prefix ++ message ++ rest /\ length prefix = 2%nat /\ length message = Z.to_nat (of_be16 prefix).

Lemma tcp_framed packet mark to s s' response :
  query_upstream_tcp os incoming packet mark to s = (s', inr response) -> framed incoming response.
Proof.
  unfold query_upstream_tcp. intros Hr.
  do 10 (apply bind_run in Hr as [(e & _ & [=]) | (? & [] & _ & Hr)]).
  apply bind_run in Hr as [(e & _ & [=]) | (s1 & [prefix unread] & (_ & Hx)%read_exact_run & Hr)].
  destruct (Hx _ eq_refl) as [Hlen [= -> ->]].
  apply bind_run in Hr as [(e & _ & [=]) | (s2 & [res rest] & (_ & Hy)%read_exact_run & [= _ <-])].
  destruct (Hy _ eq_refl) as [Hlen2 [= -> ->]]. exists (take 2 incoming), (drop (Z.to_nat (of_be16 (take 2 incoming))) (drop 2 incoming)).
  rewrite !take_drop, length_take, length_take, length_drop. rewrite length_drop in Hlen2. split_and!; [done | lia | lia].
Qed.

Lemma udp_sends packet to mark : sends (udp_exchange packet to mark) (query_udp os datagram packet to mark).
Proof.
  unfold query_udp, udp_exchange. apply sends_bind; [apply marked_socket_sends | intros []].
  do 3 (apply sends_first; [done | intros []]). apply sends_then. apply sends_first; [done | intros []].
  apply sends_then. by apply sends_first; [| intros []].
Qed.

Lemma query_udp_answer packet to mark s s' response : query_udp os datagram packet to mark s = (s', inr response) -> response = take UDP_RESPONSE_BUFFER datagram.
Proof.
  unfold query_udp. intros Hr. do 8 (apply bind_run in Hr as [(e & _ & [=]) | (? & [] & _ & Hr)]). by injection Hr.
Qed.

Lemma cut_whole : cut (take UDP_RESPONSE_BUFFER datagram) = false <-> whole datagram.
Proof.
  unfold cut, whole. rewrite length_take, orb_false_iff, Nat.eqb_neq, andb_false_iff, Nat.leb_gt, negb_false_iff, Z.eqb_eq.
  assert (nth 2 (take UDP_RESPONSE_BUFFER datagram) 0 = nth 2 datagram 0) as ->.
  { rewrite !nth_lookup, lookup_take_lt; [done |]. unfold UDP_RESPONSE_BUFFER. lia. }
  split; intros [H1 H2]; (split; [lia |]); [| destruct H2; [left; lia | by right]]. destruct H2; [left; lia | by right].
Qed.

(** C22. A query to an upstream is sent as it is, on sockets that carry the mark of
    its route before they connect; its answer is a datagram that neither filled the buffer
    nor says that it was cut, or else the whole framed message of a second exchange over TCP
    under the same mark.  A cut answer is never used. *)
Theorem upstream_answer_whole packet to mark s s' r
    (Hr : query_upstream_with_mark os datagram incoming packet to mark s = (s', r)) :
  exists calls, so_log s' = so_log s ++ calls
  /\ calls `prefix_of` udp_exchange packet to mark ++ tcp_exchange packet to mark
  /\ forall response, r = inr response ->
       (whole datagram /\ response = datagram /\ calls = udp_exchange packet to mark)
       \/ (~ whole datagram /\ framed incoming response /\ calls = udp_exchange packet to mark ++ tcp_exchange packet to mark).
Proof.
  unfold query_upstream_with_mark in Hr. apply bind_run in Hr as [(e & Hu & ->) | (s1 & response & Hu & Hr)].
  - destruct (udp_sends packet to mark _ _ _ Hu) as (l & Hl & Hp & _). exists l. split_and!; [done | by apply prefix_app_r | done].
  - pose proof (query_udp_answer _ _ _ _ _ _ Hu) as ->.
    destruct (udp_sends packet to mark _ _ _ Hu) as (l & Hl & _ & Hall). rewrite (Hall _ eq_refl) in Hl. clear Hall.
    destruct (cut _) eqn:Ec.
    + destruct (tcp_sends packet mark to _ _ _ Hr) as (l' & Hl' & Hp' & Hall).
      exists (udp_exchange packet to mark ++ l'). split_and!; [by rewrite Hl', Hl, <- app_assoc | by apply prefix_app |].
      intros response ->. right. rewrite (Hall _ eq_refl). split_and!; [| by eapply tcp_framed | done].
      intros Hw%cut_whole. congruence.
    + injection Hr as <- <-. exists (udp_exchange packet to mark). split_and!; [done | by apply prefix_app_r |].
      intros response [= <-]. left. apply cut_whole in Ec as Hw. split_and!; [done | | done].
      apply take_ge. destruct Hw. lia.
Qed.
End Exchange.

(** The length prefix is read back. *)
Lemma be16_roundtrip n : 0 <= n -> of_be16 (be16 n) = n.
Proof. intros Hn. unfold of_be16, be16. pose proof (Z.div_mod n 256). lia. Qed.

Lemma framed_take stream message : framed stream message -> message = take (Z.to_nat (of_be16 (take 2 stream))) (drop 2 stream).
Proof. intros (prefix & rest & -> & Hp & Hm). by rewrite take_app_length', drop_app_length', <- Hm, take_app_length. Qed.

Lemma framed_message message rest : framed (be16 (Z.of_nat (length message)) ++ message ++ rest) message.
Proof.
  exists (be16 (Z.of_nat (length message))), rest. rewrite be16_roundtrip by lia. split_and!; [done | done | lia].
Qed.

#[local] Notation quiet := (fun _ : nat => @None error).

Lemma marked_socket_completes kind mark s : completes (marked_socket quiet kind mark) s.
Proof. unfold completes, marked_socket, mbind, eff_bind. destruct (mark =? 0); cbn; by do 2 eexists. Qed.

Lemma read_exact_completes n unread s : (n <= length unread)%nat -> completes (read_exact quiet n unread) s.
Proof.
  intros Hn%Nat.leb_le. unfold completes, read_exact, mbind, eff_bind. cbn. rewrite Hn. cbn. by do 2 eexists.
Qed.

(** When nothing fails, a message that no datagram can hold comes whole. *)
Lemma long_answer_recovered datagram message rest packet to mark s :
  ~ whole datagram -> Z.of_nat (length packet) <= u16_max ->
  exists s', query_upstream_with_mark quiet datagram (be16 (Z.of_nat (length message)) ++ message ++ rest) packet to mark s = (s', inr message).
Proof.
  intros Hw Hlen. set (incoming := be16 _ ++ message ++ rest).
  assert (framed incoming message) as Hframed by apply framed_message.
  assert (completes (query_upstream_with_mark quiet datagram incoming packet to mark) s) as (s' & r & Hr).
  { assert (completes (query_udp quiet datagram packet to mark) s) as (s1 & x & Hu).
    { unfold query_udp. apply completes_bind; [apply marked_socket_completes | intros s1 [] _]. by do 2 eexists. }
    apply (completes_run _ _ _ _ _ Hu). apply query_udp_answer in Hu as ->.
    destruct (cut _) eqn:Ec; [| by apply cut_whole in Ec]. unfold query_upstream_tcp.
    apply completes_bind; [apply marked_socket_completes | intros s2 [] _].
    do 4 (apply completes_bind; [by do 2 eexists | intros ? [] _]).
    apply completes_bind; [rewrite (proj2 (Z.leb_le _ _) Hlen); by do 2 eexists | intros ? [] _].
    do 4 (apply completes_bind; [by do 2 eexists | intros ? [] _]).
    destruct Hframed as (prefix & rest' & -> & Hp & Hm).
    apply completes_bind; [apply read_exact_completes; rewrite length_app; lia | intros s4 [p u] (_ & Hx)%read_exact_run].
    destruct (Hx _ eq_refl) as [_ [= -> ->]]. rewrite take_app_length', drop_app_length' by done.
    apply completes_bind; [apply read_exact_completes; rewrite length_app; lia | intros ? [] _]. by do 2 eexists. }
  exists s'. rewrite Hr. do 2 f_equal. unfold query_upstream_with_mark in Hr.
  apply bind_run in Hr as [(e & _ & [=]) | (s1 & response & ->%query_udp_answer & Hr)].
  destruct (cut _) eqn:Ec; [| by apply cut_whole in Ec].
  apply tcp_framed, framed_take in Hr. apply framed_take in Hframed. congruence.
Qed.

(** ** An answer that was cut *)

Definition sample_query : list Z := [7; 7; 1; 0; 0; 1; 0; 0; 0; 0; 0; 0].
Definition sample_cut : list Z := [7; 7; 0x83; 0; 0; 1; 0; 0; 0; 0; 0; 0].
Definition sample_message : list Z := [7; 7; 0x81; 0; 0; 1; 0; 1; 0; 0; 0; 0; 1; 2; 3].

Notation sample_exchange :=
  (query_upstream_with_mark (fun _ => None) sample_cut (be16 15 ++ sample_message) sample_query TUNNEL_DNS_UPSTREAM 0x2 (Sockets 0 [])).

Lemma upstream_answer_whole_witness :
  sample_exchange.2 = inr sample_message
  /\ exists calls, so_log sample_exchange.1 = [] ++ calls
     /\ calls `prefix_of` udp_exchange sample_query TUNNEL_DNS_UPSTREAM 0x2 ++ tcp_exchange sample_query TUNNEL_DNS_UPSTREAM 0x2
     /\ forall response, sample_exchange.2 = inr response ->
          (whole sample_cut /\ response = sample_cut /\ calls = udp_exchange sample_query TUNNEL_DNS_UPSTREAM 0x2)
          \/ (~ whole sample_cut /\ framed (be16 15 ++ sample_message) response
              /\ calls = udp_exchange sample_query TUNNEL_DNS_UPSTREAM 0x2 ++ tcp_exchange sample_query TUNNEL_DNS_UPSTREAM 0x2).
Proof.
  split; [by vm_compute |].
  apply (upstream_answer_whole (fun _ => None) sample_cut (be16 15 ++ sample_message) sample_query TUNNEL_DNS_UPSTREAM 0x2 (Sockets 0 [])).
  apply surjective_pairing.
Defined.
