(* ===== verification/Controller.v ===== *)
(** * The controller (crates/gofro-agent/src/controller.rs and controller/*.rs)

    Every change of the desired configuration: edit a copy, apply it to the
    kernel and the network under a forwarding guard, save it, and publish it in
    memory, or roll everything back. What the agent does to the router by
    running commands is the class [System]; the kernel scripts, the lease
    store, the policy and the file are those of the other files. *)

From stdpp Require Import base gmap sets strings list sorting.
From Stdlib Require Import Ascii ZArith Lia.
From S2P Require Import Prelude RustStd Net Model Stats GeoWire GeoData Config Routing Dataplane FakeStore Resolver.

(** ** The router around the agent *)

Class System (sys : Type) := {
  snapshot : Type;
  (* nft -f - *)
  nft : string -> sys -> sys * result unit;
  (* network.rs: the apply lock, the mode script, the tunnel and its peer, the relay *)
  lock_apply : sys -> sys * result unit;
  apply_mode : string -> sys -> sys * result unit;
  start_and_select : server_profile -> sys -> sys * result unit;
  stop_tunnel : sys -> sys * result unit;
  cleanup_dns_flows : sys -> sys * result unit;
  retire_legacy_routing : sys -> sys * result unit;
  capture : sys -> sys * result snapshot;
  restore : snapshot -> sys -> sys * result unit;
  (* config.rs: sync_committed, and which step of a save fails, with what a failed write leaves *)
  sync_committed : sys -> sys * result unit;
  save_outcome : sys -> sys * (option save_step * string);
  (* managed.rs: preserve_host_pins *)
  preserve_host_pins : controller_config -> sys -> sys * result unit;
}.

Definition clear_script : string := wln ["destroy table inet "; GUARD_TABLE]%string.

(** What the router does for the clients of the LAN: the text the kernel's routing table was last written
    from, the text that last replaced its set of excluded devices since then, the mode of the mode script,
    and the server whose peer the tunnel has. *)
Record router_view := RouterView {
  rv_table : string;
  rv_excluded : option string;
  rv_mode : string;
  rv_server : option server_profile;
}.

Definition tables (v : router_view) : string * option string := (rv_table v, rv_excluded v).
Definition network_of (v : router_view) : string * option server_profile := (rv_mode v, rv_server v).

(** What the agent relies on. An nft transaction that fails changes nothing; the guard is up after its
    table was written and down after it was destroyed; scripts on the routing table and the commands
    leave it alone. A script on the routing table that succeeds replaces the table. The mode script sets the
    mode and leaves the peer, and the tunnel commands set the peer and leave the mode, if they succeed; nothing
    else touches what the clients get.  Errors carry no marker: only [save] and a committed failure make one. *)
Class SystemLaws (net : Type) `{Ipnet net} (sys : Type) `{System sys} := {
  guard_up : sys -> bool;
  view : sys -> router_view;
  nft_failed script s s' e : nft script s = (s', Err e) -> guard_up s' = guard_up s;
  nft_failed_view script s s' e : nft script s = (s', Err e) -> view s' = view s;
  nft_guard_view (lan : lan_context net) l s s' u : nft (render_guard_with_exclusions lan l) s = (s', Ok u) -> view s' = view s;
  nft_publish_view (lan : lan_context net) l s s' u : nft (render_publish_exclusions lan l) s = (s', Ok u) ->
    view s' = RouterView (rv_table (view s)) (Some (render_publish_exclusions lan l)) (rv_mode (view s)) (rv_server (view s));
  nft_clear_view s s' u : nft clear_script s = (s', Ok u) -> view s' = view s;
  nft_table_view (rx : Type) (lan : lan_context net) port egress (p : routing_policy (net := net) (rx := rx))
    mappings ports l script s s' u :
    render_with_exclusions lan port egress p mappings ports l = Some script -> nft script s = (s', Ok u) ->
    view s' = RouterView script None (rv_mode (view s)) (rv_server (view s));
  lock_view s s' r : lock_apply s = (s', r) -> view s' = view s;
  mode_view m s s' r : apply_mode m s = (s', r) ->
    tables (view s') = tables (view s) /\ forall u, r = Ok u -> network_of (view s') = (m, rv_server (view s));
  select_view p s s' r : start_and_select p s = (s', r) ->
    tables (view s') = tables (view s) /\ forall u, r = Ok u -> rv_server (view s') = Some p;
  stop_view s s' r : stop_tunnel s = (s', r) ->
    tables (view s') = tables (view s) /\ forall u, r = Ok u -> rv_server (view s') = None;
  flows_view s s' r : cleanup_dns_flows s = (s', r) -> view s' = view s;
  capture_view s s' r : capture s = (s', r) -> view s' = view s;
  restore_view x s s' r : restore x s = (s', r) -> view s' = view s;
  sync_view s s' r : sync_committed s = (s', r) -> view s' = view s;
  save_view s : view (save_outcome s).1 = view s;
  pins_view c s s' r : preserve_host_pins c s = (s', r) -> view s' = view s;
  nft_guard (lan : lan_context net) l s s' u :
    nft (render_guard_with_exclusions lan l) s = (s', Ok u) -> guard_up s' = true;
  nft_publish (lan : lan_context net) l s s' u :
    nft (render_publish_exclusions lan l) s = (s', Ok u) -> guard_up s' = true;
  nft_clear s s' u : nft clear_script s = (s', Ok u) -> guard_up s' = false;
  nft_table (rx : Type) (lan : lan_context net) port egress (p : routing_policy (net := net) (rx := rx))
    mappings ports l script s s' r :
    render_with_exclusions lan port egress p mappings ports l = Some script -> nft script s = (s', r) ->
    guard_up s' = guard_up s;
  lock_guard s s' r : lock_apply s = (s', r) -> guard_up s' = guard_up s;
  mode_guard m s s' r : apply_mode m s = (s', r) -> guard_up s' = guard_up s;
  select_guard p s s' r : start_and_select p s = (s', r) -> guard_up s' = guard_up s;
  stop_guard s s' r : stop_tunnel s = (s', r) -> guard_up s' = guard_up s;
  flows_guard s s' r : cleanup_dns_flows s = (s', r) -> guard_up s' = guard_up s;
  retire_guard s s' r : retire_legacy_routing s = (s', r) -> guard_up s' = guard_up s;
  capture_guard s s' r : capture s = (s', r) -> guard_up s' = guard_up s;
  restore_guard x s s' r : restore x s = (s', r) -> guard_up s' = guard_up s;
  sync_guard s s' r : sync_committed s = (s', r) -> guard_up s' = guard_up s;
  save_guard s : guard_up (save_outcome s).1 = guard_up s;
  pins_guard c s s' r : preserve_host_pins c s = (s', r) -> guard_up s' = guard_up s;
  nft_plain script s : plain (nft script s).2;
  lock_plain s : plain (lock_apply s).2;
  capture_plain s : plain (capture s).2;
  pins_plain c s : plain (preserve_host_pins c s).2;
  mode_plain m s : plain (apply_mode m s).2;
  select_plain p s : plain (start_and_select p s).2;
  stop_plain s : plain (stop_tunnel s).2;
}.

(** The errors of the lease table carry none either. *)
Class PlainTable (db : Type) `{FakeTable db} := {
  set_target_plain t f (d : db) : plain (set_target t f d);
  commit_plain (d : db) : plain (commit d);
}.

Inductive change := ChangeConfig | ChangePolicy | ChangeNetwork.

#[export] Instance change_eq_dec : EqDecision change.
Proof. solve_decision. Defined.

Definition set_servers (ss : list server_profile) (c : controller_config) : controller_config :=
  ControllerConfig (auto_update_enabled c) (device_exclusions c) (vpn_enabled c) (active_server_key c) ss (routing c).
Definition set_active (k : option string) (c : controller_config) : controller_config :=
  ControllerConfig (auto_update_enabled c) (device_exclusions c) (vpn_enabled c) k (servers c) (routing c).
Definition set_vpn (b : bool) (c : controller_config) : controller_config :=
  ControllerConfig (auto_update_enabled c) (device_exclusions c) b (active_server_key c) (servers c) (routing c).
Definition set_exclusions (l : list mac_address) (c : controller_config) : controller_config :=
  ControllerConfig (auto_update_enabled c) l (vpn_enabled c) (active_server_key c) (servers c) (routing c).
Definition set_routing (r : routing_config) (c : controller_config) : controller_config :=
  ControllerConfig (auto_update_enabled c) (device_exclusions c) (vpn_enabled c) (active_server_key c) (servers c) r.
Definition set_auto (b : bool) (c : controller_config) : controller_config :=
  ControllerConfig b (device_exclusions c) (vpn_enabled c) (active_server_key c) (servers c) (routing c).

Section Controller.
Context {net : Type} `{IpnetLaws net} {rx : Type} (rx_build : Z -> Z -> string -> option rx) (rx_is_match : rx -> string -> bool).
Context {db : Type} `{FakeTableLaws db} {sys : Type} `{System sys}.
Variable to_lowercase : string -> string.
Variable domain_to_ascii : string -> option string.
Variable to_json : controller_config -> string.
(* the geodata caches: which cached values are still alive *)
Variables up_sites up_ips : nat -> bool.
(* the constant fields of AppState *)
Variable lan : lan_context net.
Variable dns_port : Z.
Variable ports : panel_ports.
#[local] Notation policy := (routing_policy (net := net) (rx := rx)).
#[local] Notation geodata := (GeoData.geodata (net := net) (rx := rx)).

(** The part of [AppState] the controller changes. *)
Record app := App {
  a_sys : sys;
  a_disk : disk;
  a_store : store (db := db);
  a_geodata : geodata;
  a_config : controller_config;
  a_active : policy;
  a_dns_vpn : bool;
  a_degraded : bool;
}.

(** ** Actions: state, errors, and [None] for a panic *)

Definition act (A : Type) : Type := app -> option (app * result A).

Definition ok {A} (x : A) : act A := fun a => Some (a, Ok x).
Definition fail {A} (e : error) : act A := fun a => Some (a, Err e).
Definition lift {A} (r : result A) : act A := fun a => Some (a, r).
Definition gets {A} (f : app -> A) : act A := fun a => Some (a, Ok (f a)).
Definition modify (f : app -> app) : act unit := fun a => Some (f a, Ok tt).

(** [?]: an error ends the function. *)
Definition bind {A B} (m : act A) (k : A -> act B) : act B := fun a =>
  match m a with
  | None => None
  | Some (a, Err e) => Some (a, Err e)
  | Some (a, Ok x) => k x a
  end.

(** The result of a closure, as a value. *)
Definition caught {A} (m : act A) : act (result A) := fun a =>
  match m a with
  | None => None
  | Some (a, r) => Some (a, Ok r)
  end.

#[local] Notation "x <- m ;; k" := (bind m (fun x => k)) (at level 100, m at next level, right associativity).
#[local] Notation "m ;;; k" := (bind m (fun _ => k)) (at level 100, right associativity).

Definition on_sys {A} (f : sys -> sys * result A) : act A := fun a =>
  let '(s, r) := f (a_sys a) in
  Some (App s (a_disk a) (a_store a) (a_geodata a) (a_config a) (a_active a) (a_dns_vpn a) (a_degraded a), r).

Definition put_config (c : controller_config) : act unit := modify (fun a =>
  App (a_sys a) (a_disk a) (a_store a) (a_geodata a) c (a_active a) (a_dns_vpn a) (a_degraded a)).
Definition put_active (p : policy) : act unit := modify (fun a =>
  App (a_sys a) (a_disk a) (a_store a) (a_geodata a) (a_config a) p (a_dns_vpn a) (a_degraded a)).
Definition put_dns_vpn (b : bool) : act unit := modify (fun a =>
  App (a_sys a) (a_disk a) (a_store a) (a_geodata a) (a_config a) (a_active a) b (a_degraded a)).
Definition put_degraded (b : bool) : act unit := modify (fun a =>
  App (a_sys a) (a_disk a) (a_store a) (a_geodata a) (a_config a) (a_active a) (a_dns_vpn a) b).

(** ** Steps *)

Definition run_script (script : string) : act unit := on_sys (run_nft nft script).

Definition install_guard (exclusions : list mac_address) : act unit :=
  run_script (render_guard_with_exclusions lan exclusions).

Definition publish_exclusions (exclusions : list mac_address) : act unit :=
  run_script (render_publish_exclusions lan exclusions).

(** The text of the error below is left out of the message. *)
Definition clear_guard : act unit :=
  r <- caught (run_script clear_script) ;;
  match r with
  | Ok _ => ok tt
  | Err _ => put_degraded true ;;; fail (Msg "forwarding guard remains installed")
  end.

Definition save_config (c : controller_config) : act unit := fun a =>
  let '(s, (fails, torn)) := save_outcome (a_sys a) in
  let '(r, d) := save to_json fails torn (a_disk a) c in
  Some (App s d (a_store a) (a_geodata a) (a_config a) (a_active a) (a_dns_vpn a) (a_degraded a), r).

Definition apply_policy (c : controller_config) (p : policy) (exclusions : list mac_address) : act unit := fun a =>
  mappings ← reclassified rx_is_match p (a_store a);
  script ← render_with_exclusions lan dns_port (egress_from_config (net := net) c) p mappings ports exclusions;
  match run_script script a with
  | Some (a, Ok _) =>
      '(s, r) ← commit_targets rx_is_match p (a_store a);
      Some (App (a_sys a) (a_disk a) s (a_geodata a) (a_config a) (a_active a) (a_dns_vpn a) (a_degraded a), r)
  | other => other
  end.

Definition active_server (c : controller_config) : result server_profile :=
  key ← ok_or (active_server_key c) "активный VPN-сервер не выбран";
  ok_or (find_first (fun s => bool_decide (public_key s = key)) (servers c)) "активный VPN-сервер отсутствует в списке".

Definition apply_network (c : controller_config) : act unit :=
  if vpn_enabled c then
    server <- lift (active_server c) ;;
    on_sys (apply_mode "vpn") ;;;
    on_sys (start_and_select server) ;;;
    on_sys (apply_mode "tunnel-up")
  else on_sys stop_tunnel ;;; on_sys (apply_mode "bypass").

(** [committed_failure]: the error of a change that is already on disk. *)
Definition committed_failure {A} (c : controller_config) (e : error) (sync_required : bool) : act A :=
  put_degraded true ;;;
  repair <- caught ((if sync_required then on_sys sync_committed else ok tt) ;;;
                     publish_exclusions (device_exclusions c)) ;;
  match repair with
  | Err _ =>
      let e := Ctx "committed publication repair failed" e in
      guard <- caught (install_guard (device_exclusions c)) ;;
      fail (Mark CommittedRefreshFailed
              (match guard with Err _ => Ctx "committed forwarding guard failed" e | Ok _ => e end))
  | Ok _ =>
      cleanup <- caught (on_sys cleanup_dns_flows) ;;
      fail (Mark CommittedRefreshFailed
              (match cleanup with Err _ => Ctx "committed DNS cleanup failed" e | Ok _ => e end))
  end.

(** The memory after a commit that changed more than the file. *)
Definition publish (c : controller_config) (p : policy) : act unit :=
  put_config c ;;; put_active p ;;; put_dns_vpn (vpn_enabled c).

(** ** [update_config] *)

Definition update_file (next : controller_config) : act unit :=
  r <- caught (save_config next) ;;
  match r with
  | Ok _ => put_config next
  | Err e => if error_is PublishedSaveError e
             then put_config next ;;; committed_failure next e true
             else fail e
  end.

(** The closure that changes the kernel, the network and the file. *)
Definition apply_change (network : bool) (next : controller_config) (p : policy) (exclusions : list mac_address) : act unit :=
  (if network then apply_network next else ok tt) ;;;
  apply_policy next p exclusions ;;;
  save_config next.

(** What puts the previous configuration back. *)
Definition rollback_change (previous : option snapshot) (c : controller_config) (active : policy) : act (result unit) :=
  network <- caught (match previous with
                      | Some s => apply_network c ;;; on_sys (restore s)
                      | None => ok tt
                      end) ;;
  p <- caught (apply_policy c active (device_exclusions c)) ;;
  ok (match network with Ok _ => p | Err e => Err e end).

Definition finish_change (exclusions_changed : bool) (next : controller_config) : act unit :=
  (if exclusions_changed
   then publish_exclusions (device_exclusions next) ;;; on_sys cleanup_dns_flows
   else ok tt) ;;;
  clear_guard.

(** What follows the closure: the change is published, or taken back. *)
Definition settle_change (previous : option snapshot) (config : controller_config) (active : policy)
    (next : controller_config) (p : policy) (r : result unit) : act unit :=
  match r with
  | Err e =>
      if error_is PublishedSaveError e then publish next p ;;; committed_failure next e true
      else
        rollback <- rollback_change previous config active ;;
        match rollback with
        | Err _ => put_degraded true ;;;
                   fail (Msg "configuration update failed; rollback failed; forwarding guard remains installed")
        | Ok _ =>
            cleared <- caught clear_guard ;;
            match cleared with
            | Ok _ => fail e
            | Err _ => fail (Msg "configuration update failed; forwarding guard remains installed")
            end
        end
  | Ok _ =>
      publish next p ;;;
      finish <- caught (finish_change (negb (bool_decide (device_exclusions config = device_exclusions next))) next) ;;
      match finish with
      | Ok _ => ok tt
      | Err e => committed_failure next e false
      end
  end.

Definition update_live (network : bool) (next : controller_config) : act unit :=
  g <- gets a_geodata ;;
  p <- lift (compile rx_build up_sites up_ips (routing next) g) ;;
  active <- gets a_active ;;
  config <- gets a_config ;;
  previous <- (if network then s <- on_sys capture ;; ok (Some s) else ok None) ;;
  install_guard (device_exclusions config) ;;;
  r <- caught (apply_change network next p (device_exclusions config)) ;;
  settle_change previous config active next p r.

Definition update_config (edit : controller_config -> act (controller_config * change)) : act unit :=
  on_sys lock_apply ;;;
  degraded <- gets a_degraded ;;
  if degraded : bool
  then fail (Msg "routing is degraded; full reconcile is required before configuration changes")
  else
    config <- gets a_config ;;
    edited <- edit config ;;
    macs <- lift (normalize_exclusions (device_exclusions edited.1)) ;;
    let next := set_exclusions macs edited.1 in
    match edited.2 with
    | ChangeConfig => update_file next
    | ChangePolicy => update_live false next
    | ChangeNetwork => update_live true next
    end.

(** ** The edits *)

Definition edit_exclusion (mac : mac_address) (excluded : bool) (c : controller_config)
  : result (controller_config * change) :=
  let kept := filter (fun entry => entry <> mac) (device_exclusions c) in
  macs ← normalize_exclusions (if excluded then kept ++ [mac] else kept);
  Ok (set_exclusions macs c, ChangePolicy).

Definition position (key : string) (ss : list server_profile) : option nat :=
  fst <$> list_find (fun s => public_key s = key) ss.

Definition replace_imported_server (c : controller_config) (server : server_profile)
  : option (controller_config * bool) :=
  index ← position (public_key server) (servers c);
  previous ← servers c !! index;
  let reconnect := vpn_enabled c && bool_decide (active_server_key c = Some (public_key server)) in
  let managed := bool_decide (is_Some (management previous)) in
  let server := ServerProfile (name server) (emoji previous)
    (if managed then endpoint previous else endpoint server) (public_key server)
    (client_tunnel_address server) (client_private_key server)
    (if managed then management previous else management server) in
  Some (set_servers (<[index := server]> (servers c)) c, reconnect).

Definition insert_server (server : server_profile) (c : controller_config) : result (controller_config * change) :=
  if existsb (fun item => bool_decide (public_key item = public_key server)) (servers c)
  then Err (Msg "сервер с таким public key уже существует")
  else
    let becomes_active := bool_decide (active_server_key c = None) in
    let c := if becomes_active then set_active (Some (public_key server)) c else c in
    Ok (set_servers (servers c ++ [server]) c,
        if becomes_active && vpn_enabled c then ChangeNetwork else ChangeConfig).

Definition upsert_edit (server : server_profile) (c : controller_config) : result (controller_config * change) :=
  match replace_imported_server c server with
  | Some (next, reconnect) => Ok (next, if reconnect : bool then ChangeNetwork else ChangeConfig)
  | None => insert_server server c
  end.

Definition update_edit (u : server_update) (c : controller_config) : result (controller_config * change) :=
  index ← ok_or (position (up_previous_public_key u) (servers c)) "сервер не найден";
  old ← ok_or (servers c !! index) "panic";
  if bool_decide (is_Some (management old))
     && (negb (bool_decide (endpoint old = up_endpoint u)) || negb (bool_decide (public_key old = up_public_key u)))
  then Err (Msg "нельзя изменить endpoint или public key управляемого сервера")
  else
    let server := ServerProfile (up_name u) (default (emoji old) (up_emoji u)) (up_endpoint u) (up_public_key u)
                    (client_tunnel_address old) (client_private_key old) (management old) in
    _ ← validate_server (net := net) server;
    if existsb (fun '(other, item) => negb (other =? index)%nat && bool_decide (public_key item = public_key server))
         (imap (fun i s => (i, s)) (servers c))
    then Err (Msg "сервер с таким public key уже существует")
    else
      let was_active := bool_decide (active_server_key c = Some (up_previous_public_key u)) in
      let connection_changed := negb (bool_decide (endpoint old = endpoint server))
                                || negb (bool_decide (public_key old = public_key server)) in
      let next := if was_active then set_active (Some (public_key server)) c else c in
      Ok (set_servers (<[index := server]> (servers c)) next,
          if was_active && vpn_enabled c && connection_changed then ChangeNetwork else ChangeConfig).

Definition select_edit (key : string) (c : controller_config) : result (controller_config * change) :=
  server ← ok_or (find_first (fun s => bool_decide (public_key s = key)) (servers c)) "сервер не найден";
  if bool_decide (active_server_key c = Some key) then Ok (c, ChangeConfig)
  else Ok (set_active (Some (public_key server)) c, if vpn_enabled c then ChangeNetwork else ChangeConfig).

Definition delete_edit (key : string) (c : controller_config) : result (controller_config * change) :=
  let kept := filter (fun s => public_key s <> key) (servers c) in
  if (length kept =? length (servers c))%nat then Err (Msg "сервер не найден")
  else
    let next := set_servers kept c in
    if bool_decide (active_server_key c = Some key) then
      let next := set_active (public_key <$> head kept) next in
      if vpn_enabled c then
        if bool_decide (kept = []) then Err (Msg "сначала отключите VPN, затем удалите последний сервер")
        else Ok (next, ChangeNetwork)
      else Ok (next, ChangeConfig)
    else Ok (next, ChangeConfig).

Definition mode_edit (enabled : bool) (c : controller_config) : result (controller_config * change) :=
  let change := if Bool.eqb (vpn_enabled c) enabled then ChangePolicy else ChangeNetwork in
  let next := set_vpn enabled c in
  _ ← (if enabled then (_ ← active_server next; Ok tt) else Ok tt);
  Ok (next, change).

(** ** The operations *)

Definition edited (f : controller_config -> result (controller_config * change))
  : controller_config -> act (controller_config * change) := fun c => lift (f c).

Definition update_device_exclusion (mac : mac_address) (excluded : bool) : act unit :=
  update_config (edited (edit_exclusion mac excluded)).

Definition upsert_server (server : server_profile) : act unit :=
  lift (validate_server (net := net) server) ;;; update_config (edited (upsert_edit server)).

Definition import_server (nm profile : string) : act unit :=
  server <- lift (parse_server_profile (net := net) nm profile) ;; upsert_server server.

Definition add_server (server : server_profile) : act unit :=
  lift (validate_server (net := net) server) ;;; update_config (edited (insert_server server)).

Definition update_server (u : server_update) : act unit :=
  nm <- lift (normalize_server_name (up_name u)) ;;
  update_config (edited (update_edit (ServerUpdate (up_previous_public_key u) nm (up_endpoint u) (up_public_key u) (up_emoji u)))).

Definition select_server (key : string) : act unit := update_config (edited (select_edit key)).

Definition delete_server (key : string) : act unit :=
  update_config (fun c => on_sys (preserve_host_pins c) ;;; lift (delete_edit key c)).

Definition set_mode (enabled : bool) : act unit := update_config (edited (mode_edit enabled)).

Definition update_routing (r : routing_config) : act unit :=
  r <- lift (normalize_routing (net := net) to_lowercase domain_to_ascii r) ;;
  update_config (edited (fun c => Ok (set_routing r c, ChangePolicy))).

Definition set_auto_update (enabled : bool) : act unit :=
  on_sys lock_apply ;;;
  config <- gets a_config ;;
  let next := set_auto enabled config in
  save_config next ;;;
  put_config next.

(** [reconcile_locked] *)
Definition reconcile : act unit :=
  config <- gets a_config ;;
  put_degraded true ;;;
  on_sys sync_committed ;;;
  g <- gets a_geodata ;;
  p <- lift (compile rx_build up_sites up_ips (routing config) g) ;;
  install_guard (device_exclusions config) ;;;
  apply_policy config p (device_exclusions config) ;;;
  put_active p ;;;
  put_dns_vpn (vpn_enabled config) ;;;
  on_sys cleanup_dns_flows ;;;
  apply_network config ;;;
  on_sys retire_legacy_routing ;;;
  clear_guard ;;;
  put_degraded false.

(** ** Reasoning about actions *)

Lemma act_bind_inv {A B} (m : act A) (k : A -> act B) a a' r :
  bind m k a = Some (a', r) ->
  (exists e, m a = Some (a', Err e) /\ r = Err e) \/ (exists a1 x, m a = Some (a1, Ok x) /\ k x a1 = Some (a', r)).
Proof.
  unfold bind. destruct (m a) as [[a1 [x | e]] |]; [by right; eauto | | done].
  intros [= <- <-]. left. by exists e.
Qed.

Lemma caught_inv {A} (m : act A) a a' r :
  caught m a = Some (a', r) -> exists x, m a = Some (a', x) /\ r = Ok x.
Proof. unfold caught. destruct (m a) as [[a1 x] |]; [| done]. intros [= <- <-]. eauto. Qed.

(** What a change of the router and of the leases leaves alone. *)
Record same_memory (a a' : app) : Prop := {
  sm_config : a_config a' = a_config a;
  sm_active : a_active a' = a_active a;
  sm_dns : a_dns_vpn a' = a_dns_vpn a;
  sm_geodata : a_geodata a' = a_geodata a;
  sm_disk : Config.target (a_disk a') = Config.target (a_disk a);
}.

(** Moreover the degraded flag and the guard are as before. *)
Record quiet (up : sys -> bool) (a a' : app) : Prop := {
  q_memory : same_memory a a';
  q_degraded : a_degraded a' = a_degraded a;
  q_guard : up (a_sys a') = up (a_sys a);
}.

Lemma same_memory_refl a : same_memory a a.
Proof. done. Qed.

Lemma same_memory_trans a b c : same_memory a b -> same_memory b c -> same_memory a c.
Proof. intros [] []. split; congruence. Qed.

Lemma quiet_refl up a : quiet up a a.
Proof. done. Qed.

Lemma quiet_trans up a b c : quiet up a b -> quiet up b c -> quiet up a c.
Proof. intros [] []. split; [by eapply same_memory_trans | congruence..]. Qed.

(** An action that is quiet whatever it answers. *)
Definition quietly {A} (up : sys -> bool) (m : act A) : Prop :=
  forall a a' r, m a = Some (a', r) -> quiet up a a'.

Lemma quietly_bind {A B} up (m : act A) (k : A -> act B) :
  quietly up m -> (forall x, quietly up (k x)) -> quietly up (bind m k).
Proof.
  intros Hm Hk a a' r [(e & Hr & _) | (a1 & x & Hr & Hrun)]%act_bind_inv; [by eapply Hm |].
  eapply quiet_trans; [by eapply Hm | by eapply Hk].
Qed.

Lemma quietly_caught {A} up (m : act A) : quietly up m -> quietly up (caught m).
Proof. intros Hm a a' r (x & Hr & _)%caught_inv. by eapply Hm. Qed.

Lemma quietly_ok {A} up (x : A) : quietly up (ok x).
Proof. by intros a a' r [= <- <-]. Qed.

Lemma quietly_fail {A} up e : quietly up (fail (A := A) e).
Proof. by intros a a' r [= <- <-]. Qed.

Lemma quietly_lift {A} up (x : result A) : quietly up (lift x).
Proof. by intros a a' r [= <- <-]. Qed.

Lemma quietly_gets {A} up (f : app -> A) : quietly up (gets f).
Proof. by intros a a' r [= <- <-]. Qed.

Lemma quietly_on_sys {A} up (f : sys -> sys * result A) :
  (forall s s' r, f s = (s', r) -> up s' = up s) -> quietly up (on_sys f).
Proof.
  intros Hf a a' r. unfold on_sys. destruct (f (a_sys a)) as [s' x] eqn:E. intros [= <- <-].
  split; [done | done |]. cbn. by eapply Hf.
Qed.

Section Laws.
Context `{!SystemLaws net sys} `{!PlainTable db}.
#[local] Notation up := (guard_up (net := net) (sys := sys)).

Lemma run_nft_nonempty script (s : sys) : script <> ""%string -> run_nft nft script s = nft script s.
Proof. intros Hs. unfold run_nft. by rewrite bool_decide_false. Qed.

Lemma run_script_inv script a a' r :
  script <> ""%string -> run_script script a = Some (a', r) ->
  same_memory a a' /\ a_degraded a' = a_degraded a /\ nft script (a_sys a) = (a_sys a', r).
Proof.
  intros Hs. unfold run_script, on_sys. rewrite run_nft_nonempty by done.
  destruct (nft script (a_sys a)) as [s' x]. by intros [= <- <-].
Qed.

Lemma run_script_plain script a a' r : run_script script a = Some (a', r) -> plain r.
Proof.
  unfold run_script, on_sys, run_nft. case_bool_decide.
  - intros [= <- <-]. apply plain_ok.
  - pose proof (nft_plain script (a_sys a)) as Hp. destruct (nft script (a_sys a)) as [s' y]. by intros [= <- <-].
Qed.

Lemma install_guard_inv l a a' r :
  install_guard l a = Some (a', r) ->
  same_memory a a' /\ a_degraded a' = a_degraded a /\
  up (a_sys a') = match r with Ok _ => true | Err _ => up (a_sys a) end.
Proof.
  intros (? & ? & Hn)%run_script_inv; [| done]. split_and!; [done | done |].
  destruct r; [by eapply nft_guard | by eapply nft_failed].
Qed.

Lemma publish_inv l a a' r :
  publish_exclusions l a = Some (a', r) ->
  same_memory a a' /\ a_degraded a' = a_degraded a /\
  up (a_sys a') = match r with Ok _ => true | Err _ => up (a_sys a) end.
Proof.
  intros (? & ? & Hn)%run_script_inv; [| done]. split_and!; [done | done |].
  destruct r; [by eapply nft_publish | by eapply nft_failed].
Qed.

Lemma clear_guard_inv a a' r :
  clear_guard a = Some (a', r) ->
  same_memory a a' /\
  match r with
  | Ok _ => up (a_sys a') = false /\ a_degraded a' = a_degraded a
  | Err _ => a_degraded a' = true
  end.
Proof.
  unfold clear_guard. intros [(e & (x & _ & [=])%caught_inv & _) | (a1 & x & (y & Hr & [= ->])%caught_inv & Hrun)]%act_bind_inv.
  apply run_script_inv in Hr as (Hm & Hd & Hn); [| done]. destruct y as [u | e].
  - injection Hrun as <- <-. split_and!; [done | by eapply nft_clear | done].
  - injection Hrun as <- <-. split; [| done]. by destruct Hm.
Qed.

Lemma commit_targets_plain p (s s' : store (db := db)) r :
  commit_targets rx_is_match p s = Some (s', r) -> plain r.
Proof.
  unfold commit_targets. destruct (foldl _ _ _) as [d |] eqn:Hd; cbn; [| done].
  assert (plain d) as Hplain.
  { assert (forall l o, (forall x, o = Some x -> plain x) ->
      forall x, foldl (commit_one rx_is_match p) o l = Some x -> plain x) as Hall.
    { clear s s' r d Hd. induction l as [| e l IH]; intros o Ho x; cbn; [apply Ho |]. apply IH. intros y.
      unfold commit_one. destruct o as [[d1 | e1] |]; cbn; [| | done].
      - destruct (lease_target _ _ _); cbn; [| done]. intros [= <-]. apply set_target_plain.
      - destruct (lease_target _ _ _); cbn; [| done]. intros [= <-]. by apply (Ho (Err e1)). }
    by eapply (Hall _ (Some (Ok (connection s)))); [intros x [= <-] |]. }
  destruct d as [d | e]; cbn.
  - destruct (commit d) as [d' | e] eqn:Hc; [destruct (mapM _ _); cbn; [| done]; by intros [= <- <-] |].
    intros [= <- <-]. intros e' [= <-]. by apply (commit_plain d).
  - intros [= <- <-] e' [= <-]. by apply Hplain.
Qed.

Lemma apply_policy_inv c p l a a' r :
  apply_policy c p l a = Some (a', r) -> quiet up a a' /\ plain r.
Proof.
  unfold apply_policy. destruct (reclassified _ _ _) as [ms |]; cbn; [| done].
  destruct (render_with_exclusions _ _ _ _ _ _ _) as [script |] eqn:Hs; cbn; [| done].
  destruct (run_script script a) as [[a1 x] |] eqn:Hr; [| done].
  pose proof (run_script_plain _ _ _ _ Hr) as Hx.
  assert (quiet up a a1) as Hq.
  { unfold run_script, on_sys, run_nft in Hr. case_bool_decide; [by injection Hr as <- <- |].
    destruct (nft script (a_sys a)) as [s' y] eqn:Hn. injection Hr as <- <-.
    split; [done | done | by eapply nft_table]. }
  destruct x as [u | e]; [| by intros [= <- <-]].
  destruct (commit_targets _ _ _) as [[s' y] |] eqn:Hc; cbn; [| done]. intros [= <- <-].
  split; [by destruct Hq as [[] ? ?] | by eapply commit_targets_plain].
Qed.

(** Quiet and plain, whatever the answer. *)
Definition calm {A} (m : act A) : Prop := forall a a' r, m a = Some (a', r) -> quiet up a a' /\ plain r.

Lemma calm_bind {A B} (m : act A) (k : A -> act B) : calm m -> (forall x, calm (k x)) -> calm (bind m k).
Proof.
  intros Hm Hk a a' r [(e & Hr & ->) | (a1 & x & Hr & Hrun)]%act_bind_inv.
  - apply Hm in Hr as [Hq Hp]. split; [done |]. intros e' [= <-]. by apply Hp.
  - apply Hm in Hr as [Hq _]. apply Hk in Hrun as [Hq' Hp]. split; [by eapply quiet_trans | done].
Qed.

Lemma calm_lift {A} (r : result A) : plain r -> calm (lift r).
Proof. by intros Hp a a' x [= <- <-]. Qed.

Lemma calm_on_sys {A} (f : sys -> sys * result A) :
  (forall s s' r, f s = (s', r) -> up s' = up s) -> (forall s, plain (f s).2) -> calm (on_sys f).
Proof.
  intros Hf Hp a a' r Hr. split; [by eapply quietly_on_sys |]. unfold on_sys in Hr.
  specialize (Hp (a_sys a)). destruct (f (a_sys a)) as [s' x]. by injection Hr as <- <-.
Qed.

Lemma calm_ok {A} (x : A) : calm (ok x).
Proof. by intros a a' r [= <- <-]. Qed.

Lemma calm_mode m : calm (on_sys (apply_mode m)).
Proof. apply calm_on_sys; [apply mode_guard | apply mode_plain]. Qed.

Lemma apply_network_calm c : calm (apply_network c).
Proof.
  unfold apply_network. destruct (vpn_enabled c); repeat (apply calm_bind; [| intros ?]); try apply calm_mode.
  - apply calm_lift. unfold active_server. repeat plain_step.
  - apply calm_on_sys; [apply select_guard | apply select_plain].
  - apply calm_on_sys; [apply stop_guard | apply stop_plain].
Qed.

(** An error is a failed last sync or carries no marker. *)
Definition unpublished (r : result unit) : Prop := forall e, r = Err e -> error_is PublishedSaveError e = false -> plain_error e.

(** [save], as seen from the memory. *)
Lemma save_config_inv c a a' r :
  save_config c a = Some (a', r) ->
  a_config a' = a_config a /\ a_active a' = a_active a /\ a_dns_vpn a' = a_dns_vpn a
  /\ a_geodata a' = a_geodata a /\ a_degraded a' = a_degraded a /\ up (a_sys a') = up (a_sys a)
  /\ Config.target (a_disk a') =
     (if match r with Ok _ => true | Err e => error_is PublishedSaveError e end
      then Some (to_json c) else Config.target (a_disk a))
  /\ unpublished r.
Proof.
  unfold save_config. pose proof (save_guard (a_sys a)) as Hup.
  destruct (save_outcome (a_sys a)) as [s [fails torn]]. cbn in Hup.
  destruct (save to_json fails torn (a_disk a) c) as [x d] eqn:Hs. intros [= <- <-]. split_and!; try done. cbn.
  - unfold save in Hs. by destruct fails as [[] |]; cbn in Hs; injection Hs as <- <-.
  - unfold save in Hs. by destruct fails as [[] |]; cbn in Hs; injection Hs as <- <-; intros e [= <-] He.
Qed.

Lemma calm_quietly {A} (m : act A) : calm m -> quietly up m.
Proof. intros Hm a a' r Hr. by apply Hm in Hr as [? _]. Qed.

(** A committed failure always flags the routing as degraded and is marked so. *)
Lemma committed_failure_inv {A} c e sync a a' (r : result A) :
  committed_failure c e sync a = Some (a', r) ->
  same_memory a a' /\ a_degraded a' = true /\ exists e', r = Err (Mark CommittedRefreshFailed e').
Proof.
  intros [(e1 & [=] & _) | (a1 & [] & [= <-] & Hr)]%act_bind_inv.
  apply act_bind_inv in Hr as [(e1 & (x & _ & [=])%caught_inv & _) | (a2 & x & (y & Hrepair & [= ->])%caught_inv & Hr)].
  assert (same_memory a a2 /\ a_degraded a2 = true) as [Hm2 Hd2].
  { apply act_bind_inv in Hrepair as [(e1 & Hs & _) | (a3 & [] & Hs & Hp)].
    - destruct sync; [| done]. unfold on_sys in Hs. destruct (sync_committed _) in Hs. by injection Hs as <- _.
    - apply publish_inv in Hp as (Hm & Hd & _).
      assert (same_memory a a3 /\ a_degraded a3 = true) as [Hm3 Hd3].
      { destruct sync; [| by injection Hs as <-]. unfold on_sys in Hs. destruct (sync_committed _) in Hs. by injection Hs as <- _. }
      split; [by eapply same_memory_trans | congruence]. }
  destruct y as [u | e2].
  - apply act_bind_inv in Hr as [(e1 & (z & _ & [=])%caught_inv & _) | (a3 & z & (w & Hc & _)%caught_inv & Hr)].
    unfold on_sys in Hc. destruct (cleanup_dns_flows _) in Hc. injection Hc as <- _. injection Hr as <- <-.
    split_and!; [by eapply same_memory_trans | done | by eexists].
  - apply act_bind_inv in Hr as [(e1 & (z & _ & [=])%caught_inv & _) | (a3 & z & (w & Hc & _)%caught_inv & Hr)].
    apply install_guard_inv in Hc as (Hm & Hd & _). injection Hr as <- <-.
    split_and!; [by eapply same_memory_trans | congruence | by eexists].
Qed.

Lemma rollback_quiet previous c active : quietly up (rollback_change previous c active).
Proof.
  unfold rollback_change. repeat (apply quietly_bind; [| intros ?]); try apply quietly_ok; apply quietly_caught.
  - destruct previous as [s |]; [| apply quietly_ok]. apply quietly_bind; [by apply calm_quietly, apply_network_calm | intros ?].
    apply quietly_on_sys, restore_guard.
  - intros a a' r Hr. by apply apply_policy_inv in Hr as [? _].
Qed.

Lemma rollback_answers previous c active a a' e : rollback_change previous c active a <> Some (a', Err e).
Proof.
  intros [(e1 & (x & _ & [=])%caught_inv & _) | (a1 & x & _ & Hr)]%act_bind_inv.
  by apply act_bind_inv in Hr as [(e1 & (y & _ & [=])%caught_inv & _) | (a2 & y & _ & [=])].
Qed.

(** The closure of a live change: an error of [save] is the only one marked as published. *)
Lemma apply_change_inv network next p l a a' r :
  apply_change network next p l a = Some (a', r) ->
  a_config a' = a_config a /\ a_active a' = a_active a /\ a_dns_vpn a' = a_dns_vpn a
  /\ a_geodata a' = a_geodata a /\ a_degraded a' = a_degraded a /\ up (a_sys a') = up (a_sys a)
  /\ Config.target (a_disk a') =
     (if match r with Ok _ => true | Err e => error_is PublishedSaveError e end
      then Some (to_json next) else Config.target (a_disk a))
  /\ unpublished r.
Proof.
  assert (calm (if network then apply_network next else ok tt)) as Hnet
    by (destruct network; [apply apply_network_calm | by intros ? ? ? [= <- <-]]).
  assert (calm (apply_policy next p l)) as Hpol by (intros ? ? ?; apply apply_policy_inv).
  intros [(e & Hr & ->) | (a1 & [] & Hr & Hrun)]%act_bind_inv; apply Hnet in Hr as [[[] Hd Hu] Hp].
  { rewrite (Hp e eq_refl PublishedSaveError). split_and!; [done..|]. intros e' [= <-] _. by apply Hp. }
  apply act_bind_inv in Hrun as [(e & Hr & ->) | (a2 & [] & Hr & Hs)]; apply Hpol in Hr as [[[] Hd2 Hu2] Hp2].
  { rewrite (Hp2 e eq_refl PublishedSaveError). split_and!; try congruence. intros e' [= <-] _. by apply Hp2. }
  apply save_config_inv in Hs as (? & ? & ? & ? & ? & ? & Hdisk & ?). rewrite Hdisk. split_and!; try congruence; [| done].
  case_match; congruence.
Qed.

Lemma finish_inv b next a a' r :
  finish_change b next a = Some (a', r) ->
  same_memory a a' /\ match r with
                      | Ok _ => up (a_sys a') = false /\ a_degraded a' = a_degraded a
                      | Err _ => True
                      end.
Proof.
  intros [(e & Hr & ->) | (a1 & [] & Hr & Hc)]%act_bind_inv.
  - split; [| done]. destruct b; [| done]. apply act_bind_inv in Hr as [(e' & Hp & _) | (a1 & [] & Hp & Hc)].
    + by apply publish_inv in Hp as (? & _).
    + apply publish_inv in Hp as (Hm & _). unfold on_sys in Hc. destruct (cleanup_dns_flows _) in Hc. injection Hc as <- _.
      by eapply same_memory_trans.
  - apply clear_guard_inv in Hc as [Hm2 Hres].
    assert (same_memory a a1 /\ a_degraded a1 = a_degraded a) as [Hm1 Hd1].
    { destruct b; [| by injection Hr as <-]. apply act_bind_inv in Hr as [(e' & _ & [=]) | (a2 & [] & Hp & Hr)].
      apply publish_inv in Hp as (Hm & Hd & _). unfold on_sys in Hr. destruct (cleanup_dns_flows _) in Hr. injection Hr as <- _.
      split; [by eapply same_memory_trans | done]. }
    split; [by eapply same_memory_trans |]. destruct r; [| done]. destruct Hres. split; [done | congruence].
Qed.

(** ** What the clients get *)

#[local] Notation seen a := (view (net := net) (sys := sys) (a_sys a)).

(** Neither the router's view nor the leases change. *)
Record idle (a a' : app) : Prop := { i_view : seen a' = seen a; i_store : a_store a' = a_store a }.

(** At most the set of excluded devices does. *)
Record kept (a a' : app) : Prop := {
  k_table : rv_table (seen a') = rv_table (seen a);
  k_network : network_of (seen a') = network_of (seen a);
  k_store : a_store a' = a_store a;
}.

#[local] Instance idle_preorder : PreOrder idle.
Proof. split; [done | intros a b c [] []; split; congruence]. Qed.

#[local] Instance kept_preorder : PreOrder kept.
Proof. split; [done | intros a b c [] []; split; congruence]. Qed.

Lemma idle_kept a a' : idle a a' -> kept a a'.
Proof. intros [Hv Hs]. by split; rewrite ?Hv. Qed.

(** A relation between the states before and after, whatever the answer. *)
Definition always {A} (rel : app -> app -> Prop) (m : act A) : Prop := forall a a' r, m a = Some (a', r) -> rel a a'.

Lemma always_bind {A B} rel `{!PreOrder rel} (m : act A) (k : A -> act B) :
  always rel m -> (forall x, always rel (k x)) -> always rel (bind m k).
Proof.
  intros Hm Hk a a' r [(e & Hr & _) | (a1 & x & Hr & Hrun)]%act_bind_inv; [by eapply Hm |].
  transitivity a1; [by eapply Hm | by eapply Hk].
Qed.

Lemma always_caught {A} rel (m : act A) : always rel m -> always rel (caught m).
Proof. intros Hm a a' r (x & Hr & _)%caught_inv. by eapply Hm. Qed.

Lemma always_lift {A} rel `{!PreOrder rel} (x : result A) : always rel (lift x).
Proof. by intros a a' r [= <- <-]. Qed.

Lemma always_ok {A} rel `{!PreOrder rel} (x : A) : always rel (ok x).
Proof. by intros a a' r [= <- <-]. Qed.

Lemma always_fail {A} rel `{!PreOrder rel} e : always rel (fail (A := A) e).
Proof. by intros a a' r [= <- <-]. Qed.

Lemma always_degraded b : always idle (put_degraded b).
Proof. by intros a a' r [= <- <-]. Qed.

Lemma always_on_sys {A} (f : sys -> sys * result A) :
  (forall s s' r, f s = (s', r) -> view (net := net) s' = view (net := net) s) -> always idle (on_sys f).
Proof.
  intros Hf a a' r. unfold on_sys. destruct (f (a_sys a)) as [s' x] eqn:E. intros [= <- <-].
  split; [by eapply Hf | done].
Qed.

Lemma always_kept {A} (m : act A) : always idle m -> always kept m.
Proof. intros Hm a a' r Hr. by apply idle_kept, (Hm _ _ _ Hr). Qed.

Create HintDb idle.
#[local] Hint Resolve always_degraded : idle.

(** Goes through the steps of an action; the lemmas of its own steps are hints. *)
#[local] Ltac steps := repeat first
  [ simple apply always_bind; [apply _ | | intros ?] | simple apply always_caught
  | solve [eauto with idle] | solve [first [simple apply always_ok | simple apply always_fail | simple apply always_lift]; apply _]
  | apply always_kept; solve [eauto with idle]
  | match goal with |- context [if ?b then _ else _] => destruct b | |- context [match ?x with Ok _ => _ | Err _ => _ end] => destruct x end ].

Lemma script_view script a a' r :
  script <> ""%string -> run_script script a = Some (a', r) ->
  a_store a' = a_store a /\ match r with Ok u => nft script (a_sys a) = (a_sys a', Ok u) | Err _ => seen a' = seen a end.
Proof.
  intros Hne Hr. assert (a_store a' = a_store a) as Hst.
  { unfold run_script, on_sys in Hr. destruct (run_nft _ _ _) in Hr. by injection Hr as <- _. }
  apply run_script_inv in Hr as (_ & _ & Hn); [| done]. split; [done |]. destruct r; [done | by eapply nft_failed_view].
Qed.

Lemma install_guard_idle l : always idle (install_guard l).
Proof. intros a a' r [Hs Hr]%script_view; [| done]. split; [| done]. destruct r; [by eapply nft_guard_view | done]. Qed.

Lemma clear_guard_idle : always idle clear_guard.
Proof.
  unfold clear_guard. assert (always idle (run_script clear_script)) as Hc; [| by steps].
  intros a a' r [Hs Hr]%script_view; [| done]. split; [| done]. destruct r; [by eapply nft_clear_view | done].
Qed.

Lemma save_config_idle c : always idle (save_config c).
Proof.
  intros a a' r. unfold save_config. pose proof (save_view (net := net) (a_sys a)) as Hv.
  destruct (save_outcome (a_sys a)) as [s [fails torn]]. destruct (save _ _ _ _ _) as [x d]. intros [= <- <-]. by split.
Qed.

Lemma publish_view l a a' r : publish_exclusions l a = Some (a', r) ->
  kept a a' /\ forall u, r = Ok u -> rv_excluded (seen a') = Some (render_publish_exclusions lan l).
Proof.
  intros [Hs Hr]%script_view; [| done]. destruct r as [u | e]; [| split; [by apply idle_kept | by intros u [=]]].
  apply (nft_publish_view lan l) in Hr. by split; [split; rewrite ?Hr |]; [.. | intros ? _; rewrite Hr].
Qed.

Lemma publish_kept l : always kept (publish_exclusions l).
Proof. intros a a' r Hr. by apply publish_view in Hr as [? _]. Qed.

Lemma cleanup_idle : always idle (on_sys cleanup_dns_flows).
Proof. apply always_on_sys, flows_view. Qed.

#[local] Hint Resolve install_guard_idle clear_guard_idle save_config_idle publish_kept cleanup_idle : idle.

Lemma committed_failure_kept {A} c e sync : always kept (committed_failure (A := A) c e sync).
Proof.
  unfold committed_failure. assert (always idle (on_sys sync_committed)) by apply always_on_sys, sync_view. by steps.
Qed.

(** The routing table is the rendering of this policy for this configuration, these excluded devices and the
    leases [st], classified by the policy; and the leases hold that classification. *)
Definition routed (c : controller_config) (p : policy) (l : list mac_address) (st : store (db := db)) (a : app) : Prop :=
  commit_targets rx_is_match p st = Some (a_store a, Ok tt) /\
  exists mappings, reclassified rx_is_match p st = Some mappings /\
    render_with_exclusions lan dns_port (egress_from_config (net := net) c) p mappings ports l = Some (rv_table (seen a)).

(** And no other set of excluded devices has been written since. *)
Definition serves c p l st a : Prop := rv_excluded (seen a) = None /\ routed c p l st a.

(** The tunnel carries the active server, or there is none. *)
Definition network_set (c : controller_config) (v : router_view) : Prop :=
  if vpn_enabled c then exists server, active_server c = Ok server /\ network_of v = ("tunnel-up"%string, Some server)
  else network_of v = ("bypass"%string, None).

Lemma render_nonempty egress (p : policy) mappings l script :
  render_with_exclusions lan dns_port egress p mappings ports l = Some script -> script <> ""%string.
Proof.
  unfold render_with_exclusions, render_sets. intros (sets & Hsets & Hrest)%bind_Some.
  apply bind_Some in Hsets as (ips & _ & [= <-]). by apply bind_Some in Hrest as (marks & _ & [= <-]).
Qed.

Lemma apply_policy_view c p l a a' r : apply_policy c p l a = Some (a', r) ->
  network_of (seen a') = network_of (seen a) /\ forall u, r = Ok u -> serves c p l (a_store a) a'.
Proof.
  unfold apply_policy. destruct (reclassified _ _ _) as [ms |] eqn:Hms; cbn; [| done].
  destruct (render_with_exclusions _ _ _ _ _ _ _) as [script |] eqn:Hs; cbn; [| done].
  destruct (run_script script a) as [[a1 x] |] eqn:Hr; [| done].
  apply script_view in Hr as [Hst Hr]; [| by eapply render_nonempty].
  destruct x as [u | e]; [| intros [= <- <-]; split; [by rewrite Hr | by intros u [=]]].
  eapply nft_table_view in Hr; [| exact Hs].
  destruct (commit_targets _ _ _) as [[s' y] |] eqn:Hc; cbn; [| done]. intros [= <- <-]. unfold network_of. cbn. rewrite Hr.
  split; [done |]. intros [] ->. unfold serves, routed. cbn. rewrite Hr. split_and!; [done | by rewrite <- Hst |]. by exists ms.
Qed.

(** A step of the network, as seen from the clients. *)
Lemma on_sys_run {A} (f : sys -> sys * result A) a a' r :
  on_sys f a = Some (a', r) -> f (a_sys a) = (a_sys a', r) /\ a_store a' = a_store a.
Proof. unfold on_sys. destruct (f (a_sys a)) as [s x]. by intros [= <- <-]. Qed.

Lemma apply_network_view c a a' r : apply_network c a = Some (a', r) ->
  tables (seen a') = tables (seen a) /\ a_store a' = a_store a /\ forall u, r = Ok u -> network_set c (seen a').
Proof.
  unfold apply_network, network_set. destruct (vpn_enabled c).
  - intros [(e & [= <- _] & ->) | (a1 & server & [= <- Hs] & Hr)]%act_bind_inv; [by split_and! |].
    apply act_bind_inv in Hr as [(e & [Hm Hst]%on_sys_run & ->) | (a2 & [] & [Hm Hst]%on_sys_run & Hr)];
      apply (mode_view (net := net)) in Hm as [Hm _]; [by split_and! |].
    apply act_bind_inv in Hr as [(e & [Hp Hst2]%on_sys_run & ->) | (a3 & [] & [Hp Hst2]%on_sys_run & [Hl Hst3]%on_sys_run)];
      apply (select_view (net := net)) in Hp as [Hp Hsel]; [split_and!; by try congruence |].
    apply (mode_view (net := net)) in Hl as [Hl Hset]. split_and!; [congruence | congruence |]. intros u ->.
    exists server. split; [done |]. by rewrite (Hset u), (Hsel tt).
  - intros [(e & [Hp Hst]%on_sys_run & ->) | (a1 & [] & [Hp Hst]%on_sys_run & [Hl Hst2]%on_sys_run)]%act_bind_inv;
      apply (stop_view (net := net)) in Hp as [Hp Hsel]; [by split_and! |].
    apply (mode_view (net := net)) in Hl as [Hl Hset]. split_and!; [congruence | congruence |]. intros u ->.
    by rewrite (Hset u), (Hsel tt).
Qed.

(** The saved change is what the clients get. *)
Definition saved (r : result unit) : bool := match r with Ok _ => true | Err e => error_is PublishedSaveError e end.

Lemma apply_change_view network next p l a a' r : apply_change network next p l a = Some (a', r) ->
  (network = false -> network_of (seen a') = network_of (seen a)) /\
  (saved r = true -> serves next p l (a_store a) a' /\
     if network then network_set next (seen a') else network_of (seen a') = network_of (seen a)).
Proof.
  intros [(e & Hr & ->) | (a1 & [] & Hr & Hrun)]%act_bind_inv.
  { destruct network; [| discriminate Hr]. apply apply_network_calm in Hr as [_ Hp]. split; [done |].
    cbn. by rewrite (Hp e eq_refl PublishedSaveError). }
  assert (a_store a1 = a_store a /\ if network then network_set next (seen a1) else network_of (seen a1) = network_of (seen a)) as [Hst1 Hnet].
  { destruct network; [| by injection Hr as <-]. apply apply_network_view in Hr as (_ & Hst & Hset). by eauto. }
  apply act_bind_inv in Hrun as [(e & Hr2 & ->) | (a2 & [] & Hr2 & Hs)];
    pose proof Hr2 as [Hnet2 Hserves]%apply_policy_view.
  { apply apply_policy_inv in Hr2 as [_ Hp]. cbn. rewrite (Hp e eq_refl PublishedSaveError). split; [| done].
    intros ->. congruence. }
  apply save_config_idle in Hs as [Hv Hst]. specialize (Hserves tt eq_refl). rewrite Hst1 in Hserves.
  split; [intros ->; congruence |]. intros _. split.
  - destruct Hserves as (He & Hc & Hm). unfold serves, routed. by rewrite Hv, Hst.
  - unfold network_set, network_of in *. rewrite Hv. destruct network, (vpn_enabled next); congruence || (destruct Hnet as (server & ? & ?); exists server; split; congruence).
Qed.

Lemma rollback_view previous c active a a' u : rollback_change previous c active a = Some (a', Ok (Ok u)) ->
  (exists st, serves c active (device_exclusions c) st a') /\
  match previous with Some _ => network_set c (seen a') | None => network_of (seen a') = network_of (seen a) end.
Proof.
  intros [(e & (x & _ & [=])%caught_inv & _) | (a1 & x & (y & Hn & [= ->])%caught_inv & Hr)]%act_bind_inv.
  apply act_bind_inv in Hr as [(e & (z & _ & [=])%caught_inv & _) | (a2 & z & (w & Hp & [= ->])%caught_inv & [= <- Hw])].
  destruct y as [[] | e]; [| done]. subst w. apply apply_policy_view in Hp as [Hnet Hserves]. split; [by eauto |].
  destruct previous as [x |]; [| injection Hn as <-; congruence].
  apply act_bind_inv in Hn as [(e & _ & [=]) | (a3 & [] & Ha & [Hrest _]%on_sys_run)].
  apply apply_network_view in Ha as (_ & _ & Hset). apply (restore_view (net := net)) in Hrest. specialize (Hset tt eq_refl).
  unfold network_set, network_of in *. rewrite Hrest in Hnet. rewrite Hnet. exact Hset.
Qed.

Lemma finish_view b next a a' r : finish_change b next a = Some (a', r) ->
  kept a a' /\ forall u, r = Ok u ->
    rv_excluded (seen a') = if b then Some (render_publish_exclusions lan (device_exclusions next)) else rv_excluded (seen a).
Proof.
  intros [(e & Hr & ->) | (a1 & [] & Hr & [Hv Hst]%clear_guard_idle)]%act_bind_inv.
  - split; [| by intros u [=]]. destruct b; [| by injection Hr as <-]. revert Hr.
    assert (always kept (publish_exclusions (device_exclusions next) ;;; on_sys cleanup_dns_flows)) as Hk by by steps. apply Hk.
  - assert (kept a a1 /\ rv_excluded (seen a1) = if b then Some (render_publish_exclusions lan (device_exclusions next)) else rv_excluded (seen a)) as [Hk He].
    { destruct b; [| by injection Hr as <-]. apply act_bind_inv in Hr as [(e & _ & [=]) | (a2 & [] & Hp & [Hv2 Hst2]%cleanup_idle)].
      apply publish_view in Hp as [Hk He]. split; [by transitivity a2; [| apply idle_kept] |]. rewrite Hv2. by apply He with tt. }
    split; [by transitivity a1; [| apply idle_kept] |]. intros u _. by rewrite Hv.
Qed.

(** ** A configuration change is a transaction *)

(** The change is in force: in memory, on disk, and, when it is more than the file, in the policy. *)
Record committed (a a' : app) (next : controller_config) (ch : change) : Prop := {
  co_config : a_config a' = next;
  co_disk : Config.target (a_disk a') = Some (to_json next);
  co_live : match ch with
            | ChangeConfig => a_active a' = a_active a /\ a_dns_vpn a' = a_dns_vpn a
            | _ => compile rx_build up_sites up_ips (routing next) (a_geodata a) = Ok (a_active a')
                   /\ a_dns_vpn a' = vpn_enabled next
            end;
}.

(** A guard that stays up is flagged: only then may forwarding stay blocked. *)
Definition guard_flagged (a : app) : Prop := up (a_sys a) = true -> a_degraded a = true.

(** The change is what the clients get: the routing table in the kernel is the rendering of the new policy
    for the new configuration, the leases carry its targets, and the tunnel is that of the new
    configuration; a change that is only of the file leaves all of it alone. *)
Definition in_force (a a' : app) (next : controller_config) (ch : change) : Prop :=
  match ch with
  | ChangeConfig => kept a a'
  | ChangePolicy => routed next (a_active a') (device_exclusions (a_config a)) (a_store a) a' /\ network_of (seen a') = network_of (seen a)
  | ChangeNetwork => routed next (a_active a') (device_exclusions (a_config a)) (a_store a) a' /\ network_set next (seen a')
  end.

(** The excluded devices: those the table was written with, or the new ones if they are others. *)
Definition exclusions_set (a a' : app) (next : controller_config) (ch : change) : Prop :=
  rv_excluded (seen a') =
    match ch with
    | ChangeConfig => rv_excluded (seen a)
    | _ => if bool_decide (device_exclusions (a_config a) = device_exclusions next) then None
           else Some (render_publish_exclusions lan (device_exclusions next))
    end.

(** The clients have what they had: the router was not touched, or the old policy is rendered again and the
    tunnel set for the old configuration; or else the routing is flagged. *)
Definition undone (a a' : app) : Prop :=
  a_degraded a' = true \/
  (tables (seen a') = tables (seen a) \/ exists st, serves (a_config a) (a_active a) (device_exclusions (a_config a)) st a') /\
  (network_of (seen a') = network_of (seen a) \/ network_set (a_config a) (seen a')).

(** Nothing has changed, and the error does not say otherwise. *)
Definition refused (a a' : app) (r : result unit) : Prop :=
  exists e, r = Err e /\ plain_error e /\ same_memory a a' /\ undone a a'.

(** What the memory and the disk hold afterwards. *)
Definition remembered (a a' : app) (next : controller_config) (ch : change) (r : result unit) : Prop :=
  guard_flagged a' /\
  ((r = Ok tt /\ committed a a' next ch /\ a_degraded a' = false)
   \/ (exists e, r = Err (Mark CommittedRefreshFailed e) /\ committed a a' next ch /\ a_degraded a' = true)
   \/ exists e, r = Err e /\ plain_error e /\ same_memory a a').

(** What the clients get afterwards. *)
Definition delivered (a a' : app) (next : controller_config) (ch : change) (r : result unit) : Prop :=
  match r with
  | Ok _ => in_force a a' next ch /\ exclusions_set a a' next ch
  | Err e => if error_is CommittedRefreshFailed e then in_force a a' next ch else undone a a'
  end.

Definition outcome (a a' : app) (next : controller_config) (ch : change) (r : result unit) : Prop :=
  remembered a a' next ch r /\ delivered a a' next ch r.

Lemma routed_kept c p l st a a' : kept a a' -> routed c p l st a -> routed c p l st a'.
Proof. intros [Ht _ Hs]. unfold routed. by rewrite Ht, Hs. Qed.

Lemma network_set_eq c (v v' : router_view) : network_of v' = network_of v -> network_set c v -> network_set c v'.
Proof. unfold network_set. by intros ->. Qed.

Lemma in_force_kept a a1 a' next ch :
  same_memory a1 a' -> kept a1 a' -> in_force a a1 next ch -> in_force a a' next ch.
Proof.
  intros [_ Ha _ _ _] Hk. unfold in_force. pose proof Hk as [_ Hn _]. destruct ch; [by intros ?; transitivity a1 | |]; rewrite Ha;
    intros [Hr Hnet]; (split; [by eapply routed_kept |]); [congruence | by eapply network_set_eq].
Qed.

Lemma idle_undone a a' : idle a a' -> undone a a'.
Proof. intros [Hv _]. right. rewrite Hv. by split; left. Qed.

Lemma delivered_from a a1 a' next ch r :
  same_memory a a1 -> idle a a1 -> delivered a1 a' next ch r -> delivered a a' next ch r.
Proof.
  intros [Hc Ha _ _ _] [Hv Hs]. unfold delivered, in_force, exclusions_set, undone. rewrite Hc, Ha, Hv, Hs.
  destruct r as [u | e]; [| destruct (error_is _ e); [| done]]; destruct ch; try done; intros Hk.
  - destruct Hk as [[Hk1 Hk2 Hk3] He]. split; [split; congruence | done].
  - destruct Hk as [Hk1 Hk2 Hk3]. split; congruence.
Qed.

Lemma committed_trans a a1 a' next ch :
  a_active a1 = a_active a -> a_dns_vpn a1 = a_dns_vpn a -> a_geodata a1 = a_geodata a ->
  committed a1 a' next ch -> committed a a' next ch.
Proof. intros H1' H2' H3' [Hc Hd Hl]. split; [done | done |]. by rewrite <- H1', <- H2', <- H3'. Qed.

Lemma committed_same a a1 a' next ch : same_memory a1 a' -> committed a a1 next ch -> committed a a' next ch.
Proof.
  intros [E1 E2 E3 _ E5] [Hc Hd Hl]. split; [congruence | congruence |]. by destruct ch; rewrite E2, E3.
Qed.

Lemma update_file_delivered next a a' r :
  update_file next a = Some (a', r) -> delivered a a' next ChangeConfig r.
Proof.
  intros [(e & (x & _ & [=])%caught_inv & _) | (a1 & x & (y & Hs & [= ->])%caught_inv & Hr)]%act_bind_inv.
  pose proof Hs as [Hv Hst]%save_config_idle. apply save_config_inv in Hs as (_ & _ & _ & _ & _ & _ & _ & Hplain). destruct y as [u | e].
  - injection Hr as <- <-. cbn. unfold exclusions_set. cbn. split; [split; cbn; by rewrite ?Hv | by rewrite Hv].
  - destruct (error_is PublishedSaveError e) eqn:Hpe.
    + apply act_bind_inv in Hr as [(e1 & [=] & _) | (a2 & [] & [= <-] & Hr)].
      pose proof Hr as (_ & _ & e' & ->)%committed_failure_inv. apply committed_failure_kept in Hr as [H1' H2' H3']. cbn in *.
      split; congruence.
    + injection Hr as <- <-. cbn. rewrite (Hplain e eq_refl Hpe CommittedRefreshFailed). apply idle_undone. by split.
Qed.

Lemma update_file_remembered next a a' r :
  a_degraded a = false -> up (a_sys a) = false -> update_file next a = Some (a', r) -> remembered a a' next ChangeConfig r.
Proof.
  intros Hdeg Hup [(e & (x & _ & [=])%caught_inv & _) | (a1 & x & (y & Hs & [= ->])%caught_inv & Hr)]%act_bind_inv.
  apply save_config_inv in Hs as (Hc & Ha & Hv & Hg & Hd & Hu & Hdisk & Hplain). destruct y as [u | e].
  - injection Hr as <- <-. split; [intros Hg'; cbn in Hg'; congruence |]. left. split; [done |].
    split; [by split |]. cbn. congruence.
  - destruct (error_is PublishedSaveError e) eqn:Hpe.
    + apply act_bind_inv in Hr as [(e1 & [=] & _) | (a2 & [] & [= <-] & Hr)].
      apply committed_failure_inv in Hr as (Hm & Hd' & e' & ->). split; [by intros _ |]. right. left.
      exists e'. split; [done |]. split; [| done]. eapply committed_same; [exact Hm |]. by split.
    + injection Hr as <- <-. split; [intros Hg'; congruence |]. right. right. exists e. by split_and!; [| apply Hplain |].
Qed.

Lemma publish_run next p a a' (r : result unit) :
  publish next p a = Some (a', r) ->
  r = Ok tt /\ a_config a' = next /\ a_active a' = p /\ a_dns_vpn a' = vpn_enabled next /\ a_geodata a' = a_geodata a
  /\ a_degraded a' = a_degraded a /\ a_sys a' = a_sys a /\ a_disk a' = a_disk a /\ a_store a' = a_store a.
Proof. by intros [= <- <-]. Qed.

(** What follows the closure, in memory and on disk. *)
Lemma settle_remembered previous next p ch a a3 y a' r :
  ch <> ChangeConfig -> compile rx_build up_sites up_ips (routing next) (a_geodata a) = Ok p ->
  a_config a3 = a_config a -> a_active a3 = a_active a -> a_dns_vpn a3 = a_dns_vpn a -> a_geodata a3 = a_geodata a ->
  a_degraded a3 = false -> Config.target (a_disk a3) = (if saved y then Some (to_json next) else Config.target (a_disk a)) ->
  unpublished y -> settle_change previous (a_config a) (a_active a) next p y a3 = Some (a', r) -> remembered a a' next ch r.
Proof.
  intros Hch Hp Hc3 Ha3 Hv3 Hg3 Hd3 Hdisk Hplain Hr. destruct y as [[] | e]; cbn [settle_change saved] in Hr, Hdisk.
  - apply act_bind_inv in Hr as [(e & Hpub & _) | (a4 & [] & Hpub & Hr)]; apply publish_run in Hpub as (? & Hc4 & Ha4 & Hv4 & Hg4 & Hd4 & Hs4 & Hk4 & _); [done |].
    assert (committed a a4 next ch) as Hcom.
    { split; [done | by rewrite Hk4 |]. destruct ch; [done | |]; split; congruence. }
    apply act_bind_inv in Hr as [(e & (x & _ & [=])%caught_inv & _) | (a5 & x & (z & Hfin & [= ->])%caught_inv & Hr)].
    apply finish_inv in Hfin as [Hm5 Hfin]. destruct z as [u | e].
    + injection Hr as <- <-. destruct Hfin as [Hu5 Hd5]. split; [intros ?; congruence |]. left. split; [done |].
      split; [by eapply committed_same | congruence].
    + apply committed_failure_inv in Hr as (Hm6 & Hd6 & e' & ->). split; [by intros _ |]. right. left. exists e'.
      split; [done |]. split; [| done]. eapply committed_same; [| exact Hcom]. by eapply same_memory_trans.
  - destruct (error_is PublishedSaveError e) eqn:Hpe.
    + apply act_bind_inv in Hr as [(e1 & Hpub & _) | (a4 & [] & Hpub & Hr)]; apply publish_run in Hpub as (? & Hc4 & Ha4 & Hv4 & Hg4 & Hd4 & Hs4 & Hk4 & _); [done |].
      apply committed_failure_inv in Hr as (Hm6 & Hd6 & e' & ->). split; [by intros _ |]. right. left. exists e'.
      split; [done |]. split; [| done]. eapply committed_same; [exact Hm6 |].
      split; [done | by rewrite Hk4 |]. destruct ch; [done | |]; split; congruence.
    + assert (same_memory a a3) as Hm3 by by split.
      apply act_bind_inv in Hr as [(e1 & Hrb & _) | (a4 & rb & Hrb & Hr)]; [by apply rollback_answers in Hrb |].
      apply rollback_quiet in Hrb as [Hm4 Hd4 Hu4].
      pose proof (same_memory_trans _ _ _ Hm3 Hm4) as Hm34. destruct rb as [u | e1].
      * apply act_bind_inv in Hr as [(e2 & (x & _ & [=])%caught_inv & _) | (a5 & x & (z & Hcl & [= ->])%caught_inv & Hr)].
        apply clear_guard_inv in Hcl as [Hm5 Hcl]. pose proof (same_memory_trans _ _ _ Hm34 Hm5) as Hm35.
        destruct z as [u2 | e2]; injection Hr as <- <-.
        -- destruct Hcl as [Hu5 Hd5]. split; [intros ?; congruence |]. right. right. exists e.
           by split_and!; [| apply Hplain |].
        -- split; [by intros _ |]. right. right. by eexists.
      * injection Hr as <- <-. split; [by intros _ |]. right. right. eexists. split_and!; [done | done |].
        by destruct Hm34.
Qed.

(** And for the clients. *)
Lemma settle_saved previous config active next p y a3 a' r :
  saved y = true -> settle_change previous config active next p y a3 = Some (a', r) ->
  kept a3 a' /\ a_active a' = p /\
  match r with
  | Ok _ => rv_excluded (seen a') = if bool_decide (device_exclusions config = device_exclusions next) then rv_excluded (seen a3)
                                    else Some (render_publish_exclusions lan (device_exclusions next))
  | Err e => error_is CommittedRefreshFailed e = true
  end.
Proof.
  intros Hy Hr. destruct y as [[] | e]; cbn [settle_change saved] in Hr, Hy; [| rewrite Hy in Hr];
    (apply act_bind_inv in Hr as [(e1 & Hpub & _) | (a4 & [] & Hpub & Hr)];
       apply publish_run in Hpub as (? & _ & Ha4 & _ & _ & _ & Hs4 & _ & Hst4); [done |]);
    (assert (idle a3 a4) as Hi by (split; [by rewrite Hs4 | done])).
  - apply act_bind_inv in Hr as [(e & (x & _ & [=])%caught_inv & _) | (a5 & x & (z & Hfin & [= ->])%caught_inv & Hr)].
    pose proof Hfin as [Hm5 _]%finish_inv. apply finish_view in Hfin as [Hk5 He5]. destruct z as [u | e].
    + injection Hr as <- <-. split_and!; [by transitivity a4; [apply idle_kept |] | by rewrite (sm_active _ _ Hm5) |].
      rewrite (He5 u), (i_view _ _ Hi) by done. by case_bool_decide.
    + pose proof Hr as (Hm6 & _ & e' & ->)%committed_failure_inv. apply committed_failure_kept in Hr.
      split_and!; [by transitivity a4; [apply idle_kept | transitivity a5] | by rewrite (sm_active _ _ Hm6), (sm_active _ _ Hm5) | done].
  - pose proof Hr as (Hm6 & _ & e' & ->)%committed_failure_inv. apply committed_failure_kept in Hr.
    split_and!; [by transitivity a4; [apply idle_kept |] | by rewrite (sm_active _ _ Hm6) | done].
Qed.

Lemma settle_undone previous config active next p e a3 a' r :
  error_is PublishedSaveError e = false -> plain_error e ->
  settle_change previous config active next p (Err e) a3 = Some (a', r) ->
  (exists e', r = Err e' /\ plain_error e') /\
  (a_degraded a' = true \/
   (exists st, serves config active (device_exclusions config) st a') /\
   match previous with Some _ => network_set config (seen a') | None => network_of (seen a') = network_of (seen a3) end).
Proof.
  intros Hpe Hplain Hr. cbn [settle_change] in Hr. rewrite Hpe in Hr.
  apply act_bind_inv in Hr as [(e1 & Hrb & _) | (a4 & rb & Hrb & Hr)]; [by apply rollback_answers in Hrb |].
  destruct rb as [u | e1]; [| injection Hr as <- <-; split; [by eexists | by left]].
  apply rollback_view in Hrb as [(st & He & Hs) Hnet].
  apply act_bind_inv in Hr as [(e2 & (x & _ & [=])%caught_inv & _) | (a5 & x & (z & Hcl & [= ->])%caught_inv & Hr)].
  pose proof Hcl as [_ Hres]%clear_guard_inv. apply clear_guard_idle in Hcl as [Hv Hst].
  destruct z as [u2 | e2]; injection Hr as <- <-; (split; [by eexists |]); [right | by left].
  split; [exists st; unfold serves, routed in *; by rewrite Hv, Hst |].
  destruct previous; [by eapply network_set_eq; [by rewrite Hv |] | by rewrite Hv].
Qed.

Definition live (network : bool) : change := if network then ChangeNetwork else ChangePolicy.

(** A live change stops before it touches the router, or applies the closure and settles. *)
Lemma update_live_run network next a a' r : update_live network next a = Some (a', r) ->
  (exists e, r = Err e /\ plain_error e /\ quiet up a a' /\ idle a a')
  \/ exists p previous a2 y a3,
    compile rx_build up_sites up_ips (routing next) (a_geodata a) = Ok p /\ (previous = None <-> network = false)
    /\ same_memory a a2 /\ a_degraded a2 = a_degraded a /\ idle a a2
    /\ apply_change network next p (device_exclusions (a_config a)) a2 = Some (a3, y)
    /\ settle_change previous (a_config a) (a_active a) next p y a3 = Some (a', r).
Proof.
  intros Hr. unfold update_live in Hr.
  apply act_bind_inv in Hr as [(e & [=] & _) | (a0 & g & [= <- <-] & Hr)].
  apply act_bind_inv in Hr as [(e & [= <- Hp] & ->) | (a0 & p & [= <- Hp] & Hr)]; [left; exists e; split_and!; [done | by eapply compile_plain | done..] |].
  apply act_bind_inv in Hr as [(e & [=] & _) | (a0 & active & [= <- <-] & Hr)].
  apply act_bind_inv in Hr as [(e & [=] & _) | (a0 & config & [= <- <-] & Hr)].
  assert (calm (if network then bind (on_sys capture) (fun s => ok (Some s)) else ok None)
    /\ always idle (if network then bind (on_sys capture) (fun s => ok (Some s)) else ok None)) as [Hcap Hcapi].
  { split.
    - destruct network; [| apply calm_ok].
      apply calm_bind; [apply calm_on_sys; [apply capture_guard | apply capture_plain] | intros; apply calm_ok].
    - assert (always idle (on_sys capture)) by apply always_on_sys, capture_view. by steps. }
  apply act_bind_inv in Hr as [(e & Hs & ->) | (a1 & previous & Hs & Hr)]; pose proof (Hcapi _ _ _ Hs) as Hi1.
  { apply Hcap in Hs as [Hq Hp1]. left. exists e. by split_and!; [| apply Hp1 | |]. }
  assert (previous = None <-> network = false) as Hprev.
  { destruct network; [| by injection Hs as _ <-]. by apply act_bind_inv in Hs as [(e & _ & [=]) | (b & s & _ & [= _ <-])]. }
  apply Hcap in Hs as [[Hm1 Hd1 Hu1] _].
  apply act_bind_inv in Hr as [(e & Hg & ->) | (a2 & [] & Hg & Hr)]; pose proof (install_guard_idle _ _ _ _ Hg) as Hi2;
    pose proof (run_script_plain _ _ _ _ Hg) as Hp2; apply install_guard_inv in Hg as (Hm2 & Hd2 & Hu2).
  { left. exists e. split_and!; [done | by apply Hp2 | | by transitivity a1]. split; [by eapply same_memory_trans | congruence | congruence]. }
  apply act_bind_inv in Hr as [(e & (x & _ & [=])%caught_inv & _) | (a3 & x & (y & Hch' & [= ->])%caught_inv & Hr)].
  right. exists p, previous, a2, y, a3. split_and!; [done | apply Hprev | by eapply same_memory_trans | congruence | by transitivity a1 | done | done].
Qed.

Lemma update_live_outcome network next a a' r :
  a_degraded a = false -> up (a_sys a) = false ->
  update_live network next a = Some (a', r) -> outcome a a' next (live network) r.
Proof.
  intros Hdeg Hup [(e & -> & Hp & [Hm Hd Hu] & Hi) | (p & previous & a2 & y & a3 & Hp & Hprev & Hm & Hd & Hi & Hch & Hset)]%update_live_run.
  { split; [split; [intros ?; congruence |]; right; right; by exists e | cbn; rewrite (Hp CommittedRefreshFailed); by apply idle_undone]. }
  pose proof Hch as (Hc3 & Ha3 & Hv3 & Hg3 & Hd3 & _ & Hdisk & Hplain)%apply_change_inv.
  apply apply_change_view in Hch as [Hnone Hsaved]. pose proof Hm as [Hmc Hma Hmv Hmg Hmd]. split.
  { eapply (settle_remembered _ _ _ _ a a3 y); try done; try congruence; [by destruct network | unfold saved; case_match; congruence]. }
  apply (delivered_from a a2); [done | done |]. unfold delivered. destruct (saved y) eqn:Hy.
  - destruct (Hsaved eq_refl) as [[He Hrt] Hnet]. apply (settle_saved _ _ _ _ _ _ _ _ _ Hy) in Hset as (Hk & Hact & Hres).
    assert (in_force a2 a' next (live network)) as Hin.
    { pose proof (k_network _ _ Hk) as Hkn. unfold in_force. destruct network; cbn [live]; rewrite Hact, Hmc;
        (split; [by eapply routed_kept |]); [by eapply network_set_eq | congruence]. }
    destruct r as [u | e]; [split; [done |] | by rewrite Hres]. unfold exclusions_set. rewrite Hres, He, Hmc. by destruct network.
  - destruct y as [| e]; [done |]. apply settle_undone in Hset as [(e' & -> & Hpl) Hund]; [| done | by apply Hplain].
    rewrite (Hpl CommittedRefreshFailed). destruct Hund as [? | [[st Hst] Hnet]]; [by left | right].
    unfold undone. rewrite Hmc, Hma. split; [right; by exists st |]. destruct previous as [x |]; [by right | left].
    rewrite Hnet. apply Hnone, Hprev. done.
Qed.

(** What a change proposes: the edited configuration with its exclusions normalised. *)
Definition proposes (edit : controller_config -> act (controller_config * change)) (a : app)
  (next : controller_config) (ch : change) : Prop :=
  exists a0 a1 c macs, edit (a_config a) a0 = Some (a1, Ok (c, ch))
    /\ normalize_exclusions (device_exclusions c) = Ok macs /\ next = set_exclusions macs c.

Lemma outcome_from a a1 a' next ch r : quiet up a a1 -> idle a a1 -> outcome a1 a' next ch r -> outcome a a' next ch r.
Proof.
  intros [Hm Hd Hu] Hi [[Hg Hcases] Hdel]. split; [| by eapply delivered_from]. split; [done |]. pose proof Hm as [_ Ha Hv Hge _].
  destruct Hcases as [(-> & Hc & ?) | [(e & -> & Hc & ?) | (e & -> & Hp & Hs)]].
  - left. split; [done |]. split; [by eapply committed_trans | done].
  - right. left. exists e. split; [done |]. split; [by eapply committed_trans | done].
  - right. right. exists e. split_and!; [done | done |]. by eapply same_memory_trans.
Qed.

Lemma update_config_outcome edit a a' r :
  (forall c, calm (edit c)) -> (forall c, always idle (edit c)) -> guard_flagged a -> update_config edit a = Some (a', r) ->
  (guard_flagged a' /\ refused a a' r)
  \/ exists next ch, proposes edit a next ch /\ outcome a a' next ch r.
Proof.
  intros Hedit Hidle Hflag Hr. unfold update_config in Hr.
  assert (forall a1 e, quiet up a a1 -> idle a a1 -> plain (A := unit) (Err e) -> guard_flagged a1 /\ refused a a1 (Err e)) as Hout.
  { intros a1 e [Hm Hd Hu] Hi Hp%plain_err. split; [| exists e; by split_and!; [| | | apply idle_undone]].
    intros Hup. rewrite Hd. apply Hflag. by rewrite <- Hu. }
  assert (calm (on_sys lock_apply)) as Hlock by (apply calm_on_sys; [apply lock_guard | apply lock_plain]).
  assert (always idle (on_sys lock_apply)) as Hli by apply always_on_sys, lock_view.
  apply act_bind_inv in Hr as [(e & Hl & ->) | (a1 & [] & Hl & Hr)]; pose proof (Hli _ _ _ Hl) as Hi1;
    apply Hlock in Hl as [Hl Hlp]; [left; by apply Hout |].
  apply act_bind_inv in Hr as [(e & [=] & _) | (a0 & degraded & [= <- <-] & Hr)].
  destruct (a_degraded a1) eqn:Hdeg; [injection Hr as <- <-; left; apply Hout; [done | done | apply plain_msg] |].
  apply act_bind_inv in Hr as [(e & [=] & _) | (a0 & config & [= <- <-] & Hr)].
  apply act_bind_inv in Hr as [(e & He & ->) | (a2 & [c ch] & He & Hr)];
    pose proof (transitivity Hi1 (Hidle _ _ _ _ He)) as Hi; pose proof (Hedit _ _ _ _ He) as [Hq2 Hp2];
    pose proof (quiet_trans _ _ _ _ Hl Hq2) as Hq; [left; apply Hout; [done | done | by apply plain_err, Hp2] |].
  apply act_bind_inv in Hr as [(e & [= <- Hmacs] & ->) | (a0 & macs & [= <- Hmacs] & Hr)];
    [left; apply Hout; [done | done | by eapply plain_err, normalize_exclusions_plain] |].
  right. exists (set_exclusions macs c), ch. cbn [fst snd] in *.
  rewrite (sm_config _ _ (q_memory _ _ _ Hl)) in He. split; [by exists a1, a2, c, macs |].
  apply (outcome_from a a2); [done | done |]. destruct Hq as [Hm Hd Hu].
  assert (a_degraded a2 = false) as Hd2 by (destruct Hq2; congruence).
  assert (up (a_sys a2) = false) as Hu2.
  { rewrite Hu. destruct (up (a_sys a)) eqn:E; [| done]. apply Hflag in E. congruence. }
  destruct ch; [split; [by apply update_file_remembered | by apply update_file_delivered] | by eapply (update_live_outcome false) | by eapply (update_live_outcome true)].
Qed.

(** ** The operations of the API *)

Inductive operation :=
| OpExclusion (mac : mac_address) (excluded : bool)
| OpImport (nm profile : string)
| OpUpsert (server : server_profile)
| OpAdd (server : server_profile)
| OpUpdate (u : server_update)
| OpSelect (key : string)
| OpDelete (key : string)
| OpMode (enabled : bool)
| OpRouting (r : routing_config).

Definition run_operation (o : operation) : act unit :=
  match o with
  | OpExclusion mac excluded => update_device_exclusion mac excluded
  | OpImport nm profile => import_server nm profile
  | OpUpsert server => upsert_server server
  | OpAdd server => add_server server
  | OpUpdate u => update_server u
  | OpSelect key => select_server key
  | OpDelete key => delete_server key
  | OpMode enabled => set_mode enabled
  | OpRouting r => update_routing r
  end.

(** The edit an operation makes of the configuration, once its input is checked. *)
Definition edit_of (o : operation) (c : controller_config) : result (controller_config * change) :=
  match o with
  | OpExclusion mac excluded => edit_exclusion mac excluded c
  | OpImport nm profile =>
      server ← parse_server_profile (net := net) nm profile;
      _ ← validate_server (net := net) server; upsert_edit server c
  | OpUpsert server => _ ← validate_server (net := net) server; upsert_edit server c
  | OpAdd server => _ ← validate_server (net := net) server; insert_server server c
  | OpUpdate u =>
      nm ← normalize_server_name (up_name u);
      update_edit (ServerUpdate (up_previous_public_key u) nm (up_endpoint u) (up_public_key u) (up_emoji u)) c
  | OpSelect key => select_edit key c
  | OpDelete key => delete_edit key c
  | OpMode enabled => mode_edit enabled c
  | OpRouting r =>
      r ← normalize_routing (net := net) to_lowercase domain_to_ascii r; Ok (set_routing r c, ChangePolicy)
  end.

(** The proposal of an operation. *)
Definition op_proposes (o : operation) (a : app) (next : controller_config) (ch : change) : Prop :=
  exists c macs, edit_of o (a_config a) = Ok (c, ch)
    /\ normalize_exclusions (device_exclusions c) = Ok macs /\ next = set_exclusions macs c.

Lemma edit_exclusion_plain mac excluded c : plain (edit_exclusion mac excluded c).
Proof. unfold edit_exclusion. repeat plain_step. apply normalize_exclusions_plain. Qed.

Lemma insert_plain server c : plain (insert_server server c).
Proof. unfold insert_server. repeat plain_step. Qed.

Lemma upsert_plain server c : plain (upsert_edit server c).
Proof. unfold upsert_edit. repeat plain_step; apply insert_plain. Qed.

Lemma update_edit_plain u c : plain (update_edit u c).
Proof. unfold update_edit. repeat plain_step. apply validate_server_plain. Qed.

Lemma select_edit_plain key c : plain (select_edit key c).
Proof. unfold select_edit. repeat plain_step. Qed.

Lemma delete_edit_plain key c : plain (delete_edit key c).
Proof. unfold delete_edit. repeat plain_step. Qed.

Lemma mode_edit_plain enabled c : plain (mode_edit enabled c).
Proof. unfold mode_edit, active_server. repeat plain_step. Qed.

#[local] Hint Resolve edit_exclusion_plain insert_plain upsert_plain update_edit_plain select_edit_plain delete_edit_plain
  mode_edit_plain validate_server_plain parse_server_profile_plain normalize_server_name_plain normalize_routing_plain : plain.

Lemma edit_of_plain o c : plain (edit_of o c).
Proof. destruct o; cbn [edit_of]; repeat plain_step. Qed.

Lemma calm_edited f c : plain (f c) -> calm (edited f c).
Proof. apply calm_lift. Qed.

(** A check before the change: it stops the operation or answers. *)
Lemma lift_run {A} (x : result A) (k : A -> act unit) a a' r :
  guard_flagged a -> plain x -> bind (lift x) k a = Some (a', r) ->
  (guard_flagged a' /\ refused a a' r) \/ exists v, x = Ok v /\ k v a = Some (a', r).
Proof.
  intros Hflag Hx [(e & [= <- ->] & ->) | (a1 & v & [= <- ->] & Hr)]%act_bind_inv; [left | right; by exists v].
  split; [done | exists e]. apply plain_err in Hx. by split_and!; [| | | apply idle_undone].
Qed.

Lemma edited_outcome o f a a' r :
  guard_flagged a -> (forall c, plain (f c)) -> (forall x, f (a_config a) = Ok x -> edit_of o (a_config a) = Ok x) ->
  update_config (edited f) a = Some (a', r) ->
  (guard_flagged a' /\ refused a a' r) \/ exists next ch, op_proposes o a next ch /\ outcome a a' next ch r.
Proof.
  intros Hflag Hf Hof [Hleft | (next & ch & (a0 & a1 & c & macs & [= _ Hc] & Hmacs & ->) & Ho)]%update_config_outcome;
    [by left | right | intros c; by apply calm_edited | intros c; apply always_lift, _ | done].
  eexists _, ch. split; [exists c, macs; split_and!; [by apply Hof | done | done] | done].
Qed.

Lemma run_operation_outcome o a a' r :
  guard_flagged a -> run_operation o a = Some (a', r) ->
  (guard_flagged a' /\ refused a a' r)
  \/ exists next ch, op_proposes o a next ch /\ outcome a a' next ch r.
Proof.
  intros Hflag. destruct o; cbn [run_operation].
  - apply edited_outcome; eauto with plain.
  - intros [? | (server & Hs & Hr)]%lift_run; [by left | | done | eauto with plain].
    apply lift_run in Hr as [? | ([] & Hv & Hr)]; [by left | | done | eauto with plain].
    eapply edited_outcome in Hr; [exact Hr | done | eauto with plain |]. intros x. cbn. rewrite Hs. cbn. by rewrite Hv.
  - intros [? | ([] & Hv & Hr)]%lift_run; [by left | | done | eauto with plain].
    eapply edited_outcome in Hr; [exact Hr | done | eauto with plain |]. intros x. cbn. by rewrite Hv.
  - intros [? | ([] & Hv & Hr)]%lift_run; [by left | | done | eauto with plain].
    eapply edited_outcome in Hr; [exact Hr | done | eauto with plain |]. intros x. cbn. by rewrite Hv.
  - intros [? | (nm & Hn & Hr)]%lift_run; [by left | | done | eauto with plain].
    eapply edited_outcome in Hr; [exact Hr | done | eauto with plain |]. intros x. cbn. by rewrite Hn.
  - apply edited_outcome; eauto with plain.
  - intros [Hleft | (next & ch & (a0 & a1 & c & macs & Hed & Hmacs & ->) & Ho)]%update_config_outcome;
      [by left | right | | | done].
    + eexists _, ch. split; [exists c, macs; split_and!; [| done | done] | done].
      apply act_bind_inv in Hed as [(e & _ & [=]) | (a2 & [] & _ & [= _ Hf])]. done.
    + intros c. apply calm_bind; [apply calm_on_sys; [apply pins_guard | apply pins_plain] | intros; apply calm_lift, delete_edit_plain].
    + intros c. assert (always idle (on_sys (preserve_host_pins c))) by apply always_on_sys, pins_view. by steps.
  - apply edited_outcome; eauto with plain.
  - intros [? | (rc & Hn & Hr)]%lift_run; [by left | | done | eauto with plain].
    eapply edited_outcome in Hr; [exact Hr | done | eauto with plain |]. intros x. cbn. by rewrite Hn.
Qed.


(** ** The server list *)

Notation keys c := (public_key <$> servers c).

Record servers_ok (c : controller_config) : Prop := {
  so_unique : NoDup (keys c);
  so_active key : active_server_key c = Some key -> key ∈ keys c;
  so_vpn : vpn_enabled c = true -> is_Some (active_server_key c);
  so_valid : Forall (fun s => validate_saved_server (net := net) s = Ok tt) (servers c);
}.

Lemma validate_saved_ok s :
  validate_saved_server (net := net) s = Ok tt <->
  (validate_server_name (name s) = Ok tt /\ validate_emoji (emoji s) = Ok tt) /\
  (validate_endpoint (endpoint s) = Ok tt /\ validate_wireguard_key (public_key s) "public" = Ok tt) /\
  (match client_tunnel_address s with Some x => _ ← normalize_tunnel_address (net := net) x; Ok tt | None => Ok tt end) = Ok tt /\
  (match client_private_key s with Some key => validate_wireguard_key key "private" | None => Ok tt end) = Ok tt /\
  (match management s with Some m => validate_management m | None => Ok tt end) = Ok tt.
Proof.
  unfold validate_saved_server. repeat setoid_rewrite bind_ok. split.
  - intros ([] & ? & [] & ? & [] & ? & [] & ? & [] & ? & [] & ? & ?). by split_and!.
  - intros ((? & ?) & (? & ?) & ? & ? & ?). do 6 (exists tt; split; [done |]). done.
Qed.

Lemma validate_server_saved s :
  validate_server (net := net) s = Ok tt -> validate_saved_server (net := net) s = Ok tt.
Proof. unfold validate_server. intros ([] & ? & _)%bind_ok. done. Qed.

Lemma position_Some key ss i :
  position key ss = Some i -> exists s, ss !! i = Some s /\ public_key s = key.
Proof.
  unfold position. intros ([j s] & Hf & [= ->])%fmap_Some. apply list_find_Some in Hf as (? & ? & _). by exists s.
Qed.

Lemma position_None key ss : position key ss = None -> key ∉ public_key <$> ss.
Proof.
  unfold position. intros Hf%fmap_None (s & -> & Hin)%list_elem_of_fmap. apply list_find_None in Hf.
  by apply (proj1 (Forall_forall _ _) Hf s Hin).
Qed.

(** Replacing a server without changing its key. *)
Lemma servers_ok_replace c i old s :
  servers_ok c -> servers c !! i = Some old -> public_key s = public_key old ->
  validate_saved_server (net := net) s = Ok tt -> servers_ok (set_servers (<[i := s]> (servers c)) c).
Proof.
  intros [H1' H2' H3' H4'] Hi Hkey Hs.
  assert (public_key <$> <[i := s]> (servers c) = keys c) as Hkeys.
  { rewrite list_fmap_insert. apply list_insert_id. by rewrite list_lookup_fmap, Hi, Hkey. }
  split; cbn [servers active_server_key vpn_enabled set_servers]; rewrite ?Hkeys; try done. by apply Forall_insert.
Qed.

Lemma insert_ok server c c' ch :
  servers_ok c -> validate_saved_server (net := net) server = Ok tt ->
  insert_server server c = Ok (c', ch) -> servers_ok c'.
Proof.
  intros [H1' H2' H3' H4'] Hs. unfold insert_server. destruct (existsb _ _) eqn:Hex; [done |]. intros [= <- _].
  assert (public_key server ∉ keys c) as Hnew.
  { intros (s & Heq & Hin)%list_elem_of_fmap. apply list_elem_of_In in Hin.
    assert (existsb (fun item => bool_decide (public_key item = public_key server)) (servers c) = true); [| congruence].
    apply existsb_exists. exists s. split; [done | by apply bool_decide_eq_true]. }
  assert (NoDup (public_key <$> servers c ++ [server])) as Hnd.
  { rewrite fmap_app. apply NoDup_app. split_and!; [done | | apply NoDup_singleton].
    intros k Hk ->%list_elem_of_singleton. done. }
  case_bool_decide as Ha; split;
    cbn [servers active_server_key vpn_enabled set_servers set_active]; try done; try (apply Forall_app; by repeat constructor).
  - intros key [= <-]. rewrite fmap_app. apply elem_of_app. right. by left.
  - intros key Hk. rewrite fmap_app. apply elem_of_app. left. by apply H2'.
Qed.

Lemma upsert_ok server c c' ch :
  servers_ok c -> validate_saved_server (net := net) server = Ok tt ->
  upsert_edit server c = Ok (c', ch) -> servers_ok c'.
Proof.
  intros Hok Hs. unfold upsert_edit. destruct (replace_imported_server c server) as [[next b] |] eqn:Hr;
    [| by apply insert_ok]. intros [= <- _]. unfold replace_imported_server in Hr.
  destruct (position _ _) as [i |] eqn:Hp; cbn in Hr; [| done]. apply position_Some in Hp as (old & Hi & Hkey).
  rewrite Hi in Hr. cbn in Hr. injection Hr as <- _. apply (servers_ok_replace _ _ old); [done | done | done |].
  pose proof (proj1 (Forall_forall _ _) (so_valid _ Hok) old (list_elem_of_lookup_2 _ _ _ Hi)) as Hold.
  apply validate_saved_ok in Hs as ((? & ?) & (? & ?) & ? & ? & ?), Hold as ((? & ?) & (? & ?) & ? & ? & ?).
  apply validate_saved_ok. cbn. by case_bool_decide; split_and!.
Qed.

Lemma NoDup_insert_new {A} (l : list A) i x :
  NoDup l -> (forall j, j <> i -> l !! j <> Some x) -> NoDup (<[i := x]> l).
Proof.
  intros Hnd Hnew. apply NoDup_alt. intros j k y Hj Hk.
  apply list_lookup_insert_Some in Hj as [(<- & <- & _) | [Hj1 Hj2]], Hk as [(Heq & Hyk & _) | [Hk1 Hk2]]; subst; try done.
  - exfalso. by apply (Hnew k).
  - exfalso. by apply (Hnew j).
  - by apply (NoDup_lookup l j k y).
Qed.

Lemma update_ok u c c' ch : servers_ok c -> update_edit u c = Ok (c', ch) -> servers_ok c'.
Proof.
  intros [H1' H2' H3' H4']. unfold update_edit. destruct (position _ _) as [i |] eqn:Hp; cbn; [| done].
  apply position_Some in Hp as (old & Hi & Hkey). rewrite Hi. cbn. destruct (_ && _); [done |].
  set (server := ServerProfile _ _ _ _ _ _ _). destruct (validate_server server) as [[] |] eqn:Hv; cbn; [| done].
  destruct (existsb _ (imap _ _)) eqn:Hex; [done |].
  set (was_active := bool_decide (active_server_key c = _)). intros [= <- _].
  assert (forall j, j <> i -> keys c !! j <> Some (public_key server)) as Hnew.
  { intros j Hj Hk. rewrite list_lookup_fmap in Hk. destruct (servers c !! j) as [item |] eqn:Hs; [| done].
    cbn in Hk. injection Hk as Hk.
    apply not_true_iff_false in Hex. apply Hex, existsb_exists. exists (j, item). split.
    - apply list_elem_of_In, list_elem_of_lookup. exists j. by rewrite list_lookup_imap, Hs.
    - apply andb_true_iff. split; [by apply negb_true_iff, Nat.eqb_neq | by apply bool_decide_eq_true]. }
  assert (i < length (servers c))%nat as Hlt by by eapply lookup_lt_Some.
  assert (public_key server ∈ <[i := public_key server]> (keys c)) as Hin.
  { apply list_elem_of_lookup. exists i. apply list_lookup_insert_eq. by rewrite length_fmap. }
  assert (validate_saved_server (net := net) server = Ok tt) by by apply validate_server_saved.
  split; destruct was_active eqn:Ha; unfold was_active in Ha;
    (apply bool_decide_eq_true in Ha || apply bool_decide_eq_false in Ha);
    cbn [servers active_server_key vpn_enabled set_servers set_active];
    rewrite ?list_fmap_insert; try (by apply NoDup_insert_new); try (by apply Forall_insert); try done.
  - by intros key [= <-].
  - intros key Hk. pose proof (H2' key Hk) as [j Hj]%list_elem_of_lookup.
    apply list_elem_of_lookup. exists j. rewrite list_lookup_insert_ne; [done |]. intros <-.
    rewrite list_lookup_fmap, Hi in Hj. cbn in Hj. congruence.
Qed.

Lemma select_ok key c c' ch : servers_ok c -> select_edit key c = Ok (c', ch) -> servers_ok c'.
Proof.
  intros Hok. unfold select_edit. destruct (find_first _ _) as [s |] eqn:Hf; cbn; [| done].
  apply find_first_Some in Hf as (i & Hi & _ & _). case_bool_decide; intros [= <- _]; [done |].
  destruct Hok as [H1' H2' H3' H4']. split; cbn [servers active_server_key vpn_enabled set_active]; try done.
  intros k [= <-]. apply list_elem_of_fmap. exists s. split; [done | by eapply list_elem_of_lookup_2].
Qed.

Lemma delete_ok key c c' ch : servers_ok c -> delete_edit key c = Ok (c', ch) -> servers_ok c'.
Proof.
  intros [H1' H2' H3' H4']. unfold delete_edit. set (kept := filter _ (servers c)).
  destruct (_ =? _)%nat; [done |].
  assert (NoDup (public_key <$> kept)) as Hnd by (eapply sublist_NoDup; [done | apply fmap_sublist, sublist_filter]).
  assert (Forall (fun s => validate_saved_server (net := net) s = Ok tt) kept) as Hv
    by (apply Forall_forall; intros s [_ Hs]%list_elem_of_filter; by apply (proj1 (Forall_forall _ _) H4' s)).
  case_bool_decide as Ha.
  - assert (forall k, public_key <$> head kept = Some k -> k ∈ public_key <$> kept) as Hhead.
    { intros k Hk. destruct kept as [| s l]; [done |]. injection Hk as <-. by left. }
    destruct (vpn_enabled c) eqn:Hvpn.
    + case_bool_decide as Hempty; [done |]. intros [= <- _].
      split; cbn [servers active_server_key vpn_enabled set_servers set_active]; try done.
      intros _. destruct kept; [done | by eexists].
    + intros [= <- _]. split; cbn [servers active_server_key vpn_enabled set_servers set_active]; try done. congruence.
  - intros [= <- _]. split; cbn [servers active_server_key vpn_enabled set_servers]; try done.
    intros k Hk. apply H2' in Hk as Hin. apply list_elem_of_fmap in Hin as (s & -> & Hs). apply list_elem_of_fmap.
    exists s. split; [done |]. apply list_elem_of_filter. split; [congruence | done].
Qed.

Lemma mode_ok b c c' ch : servers_ok c -> mode_edit b c = Ok (c', ch) -> servers_ok c'.
Proof.
  intros [H1' H2' H3' H4']. unfold mode_edit. intros Hm. inv_result.
  split; cbn [servers active_server_key vpn_enabled set_vpn]; try done. intros ->.
  match goal with Hs : (_ ≫= _) = Ok _ |- _ => apply bind_ok in Hs as (s & Hs & _) end.
  unfold active_server in *. inv_result. by eexists.
Qed.

Lemma edit_ok o c c' ch : servers_ok c -> edit_of o c = Ok (c', ch) -> servers_ok c'.
Proof.
  intros Hok. destruct o; cbn [edit_of]; intros He.
  - unfold edit_exclusion in He. inv_result. by destruct Hok.
  - apply bind_ok in He as (server & _ & He). apply bind_ok in He as ([] & Hv & He).
    by eapply upsert_ok; [| apply validate_server_saved |].
  - apply bind_ok in He as ([] & Hv & He). by eapply upsert_ok; [| apply validate_server_saved |].
  - apply bind_ok in He as ([] & Hv & He). by eapply insert_ok; [| apply validate_server_saved |].
  - apply bind_ok in He as (nm & _ & He). by eapply update_ok.
  - by eapply select_ok.
  - by eapply delete_ok.
  - by eapply mode_ok.
  - apply bind_ok in He as (rc & _ & He). injection He as <- _. by destruct Hok.
Qed.

(** C27. The server list stays sound through every operation, whatever fails on the way: no two servers
    share a public key, the active key names a server of the list, the VPN is never on without an
    active server, and every server satisfies the validation that loading the file repeats, so the
    agent can start again from what it wrote. *)
Theorem server_list_invariant o a a' r :
  guard_flagged a -> run_operation o a = Some (a', r) -> servers_ok (a_config a) -> servers_ok (a_config a').
Proof.
  intros Hflag [[_ (e & _ & _ & [-> _ _ _ _] & _)] | (next & ch & (c & macs & He & _ & ->) & [_ Hcases] & _)]%run_operation_outcome Hok;
    [done | | done].
  assert (servers_ok (set_exclusions macs c)) as Hnext by by destruct (edit_ok _ _ _ _ Hok He).
  destruct Hcases as [(_ & [-> _ _] & _) | [(e & _ & [-> _ _] & _) | (e & _ & _ & [-> _ _ _ _])]]; done.
Qed.

(** The switch of automatic updates does not follow the protocol: when only the final directory sync of
    its save fails, it reports an error and keeps the old value in memory, but the file holds the
    new one. *)
Lemma auto_update_published_but_forgotten enabled a torn :
  (exists s, lock_apply (a_sys a) = (s, Ok tt) /\ (save_outcome s).2 = (Some SSyncParent, torn)) ->
  exists a' e, set_auto_update enabled a = Some (a', Err e) /\ error_is PublishedSaveError e = true
    /\ a_config a' = a_config a /\ Config.target (a_disk a') = Some (to_json (set_auto enabled (a_config a))).
Proof.
  intros (s & Hl & Hs). unfold set_auto_update, bind, on_sys, gets. rewrite Hl. cbn.
  unfold save_config. cbn. destruct (save_outcome s) as [s' [fails t]]. cbn in Hs. injection Hs as -> ->. cbn.
  eexists _, _. by split_and!.
Qed.
End Laws.
End Controller.

(** ** A concrete router: the classes are inhabited *)

Module PlainRouter.
(** Whether the guard is up, whether the last sync of a save fails, what the clients get, and which server
    the tunnel does not come up with. *)
Record t := Router { guarded : bool; sync_fails : bool; got : router_view; unreachable : option server_profile }.

Definition set_guarded b s := Router b (sync_fails s) (got s) (unreachable s).
Definition set_got v s := Router (guarded s) (sync_fails s) v (unreachable s).
Definition set_server p v := RouterView (rv_table v) (rv_excluded v) (rv_mode v) p.

Definition routing_script : string := ("destroy table inet " +:+ TABLE)%string.
Definition publish_script : string := ("flush set inet " +:+ TABLE)%string.

Definition run (script : string) (s : t) : t * result unit :=
  (if String.eqb script clear_script then set_guarded false s
   else if String.prefix routing_script script then set_got (RouterView script None (rv_mode (got s)) (rv_server (got s))) s
   else if String.prefix publish_script script
   then set_guarded true (set_got (RouterView (rv_table (got s)) (Some script) (rv_mode (got s)) (rv_server (got s))) s)
   else set_guarded true s, Ok tt).

#[global] Instance router : System t := {
  snapshot := unit;
  nft := run;
  lock_apply s := (s, Ok tt);
  apply_mode m s := (set_got (RouterView (rv_table (got s)) (rv_excluded (got s)) m (rv_server (got s))) s, Ok tt);
  start_and_select p s :=
    if bool_decide (unreachable s = Some p) then (s, Err (Msg "tunnel is down")) else (set_got (set_server (Some p) (got s)) s, Ok tt);
  stop_tunnel s := (set_got (set_server None (got s)) s, Ok tt);
  cleanup_dns_flows s := (s, Ok tt);
  retire_legacy_routing s := (s, Ok tt);
  capture s := (s, Ok tt);
  restore _ s := (s, Ok tt);
  sync_committed s := (s, Ok tt);
  save_outcome s := (s, (if sync_fails s then Some SSyncParent else None, ""%string));
  preserve_host_pins _ s := (s, Ok tt);
}.

Lemma run_table `{Ipnet net} {rx} (lan : lan_context net) port egress (p : routing_policy (net := net) (rx := rx))
  mappings ports l script s :
  render_with_exclusions lan port egress p mappings ports l = Some script ->
  (run script s).1 = set_got (RouterView script None (rv_mode (got s)) (rv_server (got s))) s.
Proof.
  unfold render_with_exclusions, render_sets. intros (sets & Hsets & Hrest)%bind_Some.
  apply bind_Some in Hsets as (ips & _ & [= <-]). apply bind_Some in Hrest as (marks & _ & [= <-]). done.
Qed.

Ltac silent := by intros * [= <- <-].

#[global] Instance router_laws {net} `{Ipnet net} : SystemLaws net t.
Proof.
  refine {| guard_up := guarded; view := got |}; try silent; try (by intros * e [=]); try done.
  - intros rx lan port egress p mappings ports l script s s' u Hs Hr.
    pose proof (run_table lan port egress p mappings ports l script s Hs) as Hg. cbn in Hr. rewrite Hr in Hg. cbn in Hg. by rewrite Hg.
  - intros p s s' r. cbn. case_bool_decide; intros [= <- <-]; (split; [done |]); by intros u [=].
  - intros rx lan port egress p mappings ports l script s s' r Hs Hr.
    pose proof (run_table lan port egress p mappings ports l script s Hs) as Hg. cbn in Hr. rewrite Hr in Hg. cbn in Hg. by rewrite Hg.
  - intros p s s' r. cbn. case_bool_decide; by intros [= <- <-].
  - intros p s e. cbn. by case_bool_decide; intros [= <-].
Defined.
End PlainRouter.

#[export] Instance mem_table_plain : PlainTable MemTable.t.
Proof.
  split; [| by intros d e [=]]. intros t f d e. cbn. unfold MemTable.make.
  generalize (eq_refl (bool_decide (MemTable.unique_rows (alter (fun r => Row (row_domain r) (row_real r) t (row_expires r)) f (MemTable.contents d))))).
  generalize (bool_decide (MemTable.unique_rows (alter (fun r => Row (row_domain r) (row_real r) t (row_expires r)) f (MemTable.contents d)))) at 2 3.
  intros [] E; [done | by intros [= <-]].
Qed.

(** ** Examples *)

Definition sample_key (c : ascii) : string := str (replicate 43 c ++ ["="%char]).

Definition sample_server (c : ascii) : server_profile :=
  ServerProfile "Home" "" "vpn.example:8443" (sample_key c) (Some "10.202.0.2/32"%string) (Some (sample_key "p"%char)) None.

Definition sample_controller : controller_config :=
  ControllerConfig false [] false (Some (sample_key "a"%char)) [sample_server "a"%char; sample_server "b"%char] sample_rules.

Definition sample_app (sync_fails : bool) : app (net := PrefixNet.t) (rx := unit) (db := MemTable.t) (sys := PlainRouter.t) :=
  App (PlainRouter.Router false sync_fails (RouterView "" None "bypass" None) None) (Disk None None) sample_store (GeoData None ∅ ∅) sample_controller
    sample_policy false false.

Notation sample_run o sync_fails :=
  (run_operation (net := PrefixNet.t) (rx := unit) (db := MemTable.t) (sys := PlainRouter.t)
    (fun _ _ _ => None) (fun _ _ => false) to_ascii_lowercase sample_idna sample_to_json
    (fun _ => false) (fun _ => false) sample_lan 1053 (PanelPorts 80 443) o (sample_app sync_fails)).

(** Selecting the other server saves the file; removing the active one hands over to the first left. *)
Example sample_select :
  match sample_run (OpSelect (sample_key "b"%char)) false with
  | Some (a, Ok _) => active_server_key (a_config a) = Some (sample_key "b"%char) /\ PlainRouter.guarded (a_sys a) = false
  | _ => False
  end.
Proof. by vm_compute. Qed.

Example sample_enable :
  match sample_run (OpMode true) false with
  | Some (a, Ok _) => vpn_enabled (a_config a) = true /\ a_dns_vpn a = true /\ PlainRouter.guarded (a_sys a) = false
  | _ => False
  end.
Proof. by vm_compute. Qed.

(** When the last sync of the save fails, the change stays and the guard with it. *)
Example sample_enable_sync_fails :
  match sample_run (OpMode true) true with
  | Some (a, Err e) => vpn_enabled (a_config a) = true /\ a_degraded a = true /\ PlainRouter.guarded (a_sys a) = true
                       /\ error_is CommittedRefreshFailed e = true
  | _ => False
  end.
Proof. by vm_compute. Qed.

(** When the tunnel does not come up, the old policy is rendered again and the tunnel is taken down. *)
Definition unreachable_app : app (net := PrefixNet.t) (rx := unit) (db := MemTable.t) (sys := PlainRouter.t) :=
  App (PlainRouter.Router false false (RouterView "" None "bypass" None) (Some (sample_server "a"%char))) (Disk None None) sample_store
    (GeoData None ∅ ∅) sample_controller sample_policy false false.

Example sample_unreachable :
  match run_operation (net := PrefixNet.t) (rx := unit) (db := MemTable.t) (sys := PlainRouter.t)
      (fun _ _ _ => None) (fun _ _ => false) to_ascii_lowercase sample_idna sample_to_json
      (fun _ => false) (fun _ => false) sample_lan 1053 (PanelPorts 80 443) (OpMode true) unreachable_app with
  | Some (a, Err e) => vpn_enabled (a_config a) = false /\ a_degraded a = false /\ PlainRouter.guarded (a_sys a) = false
      /\ network_of (PlainRouter.got (a_sys a)) = ("bypass"%string, None)
      /\ bool_decide (rv_table (PlainRouter.got (a_sys a)) = ""%string) = false
  | _ => False
  end.
Proof. by vm_compute. Qed.

Lemma sample_flagged sync_fails : guard_flagged (net := PrefixNet.t) (sample_app sync_fails).
Proof. by intros [=]. Qed.

(** What is seen of a run: the answer and a field, without the text of the file. *)
Definition seen {A} (f : app -> A) (x : option (app (net := PrefixNet.t) (rx := unit) (db := MemTable.t) (sys := PlainRouter.t) * result unit))
  : option (A * bool) :=
  '(a, r) ← x; Some (f a, match r with Ok _ => true | Err _ => false end).

Lemma sample_delete_seen :
  seen (fun a => active_server_key (a_config a)) (sample_run (OpDelete (sample_key "a"%char)) false)
  = Some (Some (sample_key "b"%char), true).
Proof. by vm_compute. Qed.

Lemma sample_enabled_seen : seen (fun a => a_degraded a) (sample_run (OpMode true) false) = Some (false, true).
Proof. by vm_compute. Qed.

Lemma sample_proposal next ch :
  op_proposes (net := PrefixNet.t) (rx := unit) (db := MemTable.t) (sys := PlainRouter.t) to_ascii_lowercase sample_idna
    (OpMode true) (sample_app false) next ch -> ch = ChangeNetwork.
Proof. intros (c & macs & [= _ <-] & _). done. Qed.


Lemma sample_servers_ok : servers_ok (net := PrefixNet.t) sample_controller.
Proof.
  split; [| | by intros [=] |].
  - apply (proj1 (bool_decide_eq_true _)). by vm_compute.
  - intros key [= <-]. by left.
  - repeat constructor; by vm_compute.
Qed.

Lemma server_list_invariant_witness :
  match sample_run (OpDelete (sample_key "a"%char)) false with
  | Some (a, Ok _) => servers_ok (net := PrefixNet.t) (a_config a)
                      /\ active_server_key (a_config a) = Some (sample_key "b"%char)
  | _ => False
  end.
Proof.
  pose proof sample_delete_seen as Hs.
  destruct (sample_run (OpDelete (sample_key "a"%char)) false) as [[a [u | e]] |] eqn:E;
    [| discriminate Hs | discriminate Hs].
  split.
  - exact (server_list_invariant _ _ _ _ _ _ _ _ _ _ _ _ _ _ (sample_flagged false) E sample_servers_ok).
  - injection Hs as Hs. exact Hs.
Defined.
