(* ===== verification/Server.v ===== *)
(** * The server's peers and their owners (crates/gofro-server/src/main.rs, managed.rs, warp.rs, managed/store.rs)

    The commands of gofro-server for one WireGuard interface. The state is the
    interface itself, the metadata directory with the file of the interface, and
    the files the commands look at; every call of the system is numbered, and the
    [n]-th one fails or not. The [wg] tool, the WARP helper and serde_json answer
    from outside ([WireGuard], [warp_helper], [to_json], ...). *)

From stdpp Require Import base gmap sets strings list sorting.
From Stdlib Require Import Ascii ZArith Lia.
From S2P Require Import Prelude RustStd IpAddr Effects RelayCodec Net Peers.

Definition CLIENT_SUBNET : string := "10.203.1.0/24".
Definition STORE_LIMIT : Z := 524288.
Definition VERSION : string := "0.5.26".

(** ** State *)

Inductive file_kind := RegularFile | DirectoryFile | SymbolicLink | SpecialFile.

#[export] Instance file_kind_eq_dec : EqDecision file_kind.
Proof. solve_decision. Defined.

(** What [symlink_metadata] says of a path, and a file with its bytes. *)
Record file_meta := FileMeta { fm_kind : file_kind; fm_mode : Z; fm_uid : Z; fm_nlink : Z; fm_dev : Z; fm_ino : Z }.
Record node := Node { n_meta : file_meta; n_data : string }.

Record friend_record := FriendRecord { fr_public_key : string; fr_name : string; fr_private_key : option string }.
Record friend_store := FriendStore { fs_schema : Z; fs_records : list friend_record; fs_owners : list string }.

#[export] Instance friend_record_eq_dec : EqDecision friend_record.
Proof. solve_decision. Defined.
#[export] Instance friend_store_eq_dec : EqDecision friend_store.
Proof. solve_decision. Defined.

(** The [wg] and [wg-quick] tools on one interface. *)
Class WireGuard (W : Type) := {
  (** [wg show IF allowed-ips], [wg show IF public-key], [wg show IF dump], [wg showconf IF] *)
  wg_allowed_ips : W -> string;
  wg_public_key : W -> string;
  wg_dump : W -> string;
  wg_showconf : W -> string;
  (** [wg set IF peer KEY allowed-ips ROUTES], [wg set IF peer KEY remove], [wg setconf IF /dev/stdin] *)
  wg_set : string -> string -> W -> W;
  wg_remove : string -> W -> W;
  wg_setconf : string -> W -> W;
  (** [wg-quick save IF], [systemctl restart wg-quick@IF.service] *)
  wg_save : W -> W;
  wg_restart : W -> W;
  (** [wg genkey] as the [n]-th call, [wg pubkey] *)
  wg_genkey : nat -> string;
  wg_pubkey : string -> option string;
}.

(** What else answers from outside. *)
Class ServerWorld (W : Type) := {
  (** the [n]-th call fails; what a command that fails as the [n]-th call leaves of the interface, and [wg-quick save] *)
  os : nat -> option error;
  torn : nat -> W -> W;
  torn_save : nat -> W -> W;
  (** the inode of a file made as the [n]-th call, the clock then *)
  new_inode : nat -> Z;
  clock : nat -> Z;
  (** serde_json: the store, its [schema] field, a store of schema 1, the other texts *)
  to_json : friend_store -> string;
  json_schema : string -> option Z;
  parse_legacy : string -> option (Z * list friend_record);
  parse_store : string -> option friend_store;
  parse_warp : string -> option warp_status;
  parse_friend_name : string -> option string;
  status_json : list peer_status -> string;
  managed_json : managed_server_status -> string;
  (** gofro-warp: what an action, as the [n]-th call, leaves of the network file if it fails or not, and what it prints *)
  warp_helper : nat -> string -> option node -> option node;
  warp_output : string -> option node -> string;
  to_lowercase : string -> string;
}.

Record host (W : Type) := Host {
  tick : nat;
  wg : W;
  directory : option file_meta;
  store_file : option node;
  temporary : option string;
  warp_network : option node;
  lock_file : option file_meta;
}.
Arguments Host {W}.
Arguments tick {W}.
Arguments wg {W}.
Arguments directory {W}.
Arguments store_file {W}.
Arguments temporary {W}.
Arguments warp_network {W}.
Arguments lock_file {W}.

Inductive peer_kind := Friend (ip : string) | Owner | Other.

Section Server.
Context {W : Type} `{WireGuard W} `{ServerWorld W} {net : Type} `{Ipnet net}.
Implicit Types h : host W.

Definition set_tick n h := Host n (wg h) (directory h) (store_file h) (temporary h) (warp_network h) (lock_file h).
Definition set_wg (w : W) h := Host (tick h) w (directory h) (store_file h) (temporary h) (warp_network h) (lock_file h).
Definition set_directory d h := Host (tick h) (wg h) d (store_file h) (temporary h) (warp_network h) (lock_file h).
Definition set_store_file f h := Host (tick h) (wg h) (directory h) f (temporary h) (warp_network h) (lock_file h).
Definition set_temporary t h := Host (tick h) (wg h) (directory h) (store_file h) t (warp_network h) (lock_file h).
Definition set_warp_network f h := Host (tick h) (wg h) (directory h) (store_file h) (temporary h) f (lock_file h).
Definition set_lock_file f h := Host (tick h) (wg h) (directory h) (store_file h) (temporary h) (warp_network h) f.

#[local] Notation M := (eff (host W) error).

Definition next_tick {E} : eff (host W) E nat := fun h => (set_tick (S (tick h)) h, inr (tick h)).

Definition call : M unit := n ← next_tick; match os n with Some e => throw e | None => mret tt end.

(** [run] and [run_with_input] of a command that prints and changes nothing. *)
Definition run (out : host W -> string) : M string :=
  call ;;
  text ← read out;
  require (utf8_valid (code <$> chars text)) (Msg "command returned non-UTF-8 output") ;;
  mret text.

(** [run] of a command that changes the interface. *)
Definition change (failed : nat -> W -> W) (f : W -> W) : M unit := fun h =>
  let n := tick h in
  match os n with
  | Some e => (set_wg (failed n (wg h)) (set_tick (S n) h), inl e)
  | None => (set_wg (f (wg h)) (set_tick (S n) h), inr tt)
  end.

Definition command (f : W -> W) : M unit := change torn f.

Definition save : M unit := change torn_save wg_save.

(** [run(Command::new("wg").arg("genkey"))?.trim().to_owned()], [wg pubkey] on it *)
Definition genkey : M string := n ← read tick; trim <$> run (fun _ => wg_genkey n).

Definition pubkey (private_key : string) : M string :=
  match wg_pubkey private_key with
  | Some key => run (fun _ => key)
  | None => call ;; throw (Msg "wg pubkey failed")
  end.

Definition assigned : M string := run (fun h => wg_allowed_ips (wg h)).

(** In a release build. *)
Definition expected_uid : Z := 0.

(** ** Addresses *)

Definition validate_tunnel_ip (value : string) : result net :=
  n ← ok_or (net_parse (net := net) value) "tunnel IP must be an IPv4 network";
  let '(a, b, c, d) := octets (addr n) in
  if negb (prefix_len n =? 32) || negb ((a =? 10) && (b =? 202) && (c =? 0)) || negb ((2 <=? d) && (d <=? 254))
  then Err (Msg "tunnel IP must be in 10.202.0.2-10.202.0.254/32") else Ok n.

Definition candidate (host : Z) : Z := ipv4 10 202 0 host.

(** The networks of a listing. *)
Definition networks (fields : list string) : list net := omap (net_parse (net := net)) (fields ≫= split ","%char).

Definition allocate_tunnel_ip (text : string) : result net :=
  let nets := networks (split_whitespace text) in
  match find_first (fun ip => negb (existsb (fun n => contains_ip n ip) nets)) (candidate <$> seqZ 2 253) with
  | Some ip => validate_tunnel_ip (show_ipv4 ip +:+ "/32")
  | None => Err (Msg "no tunnel IP addresses are available")
  end.

Definition overlaps (routes : list net) (existing : net) : bool :=
  existsb (fun route => contains_ip existing (network route) || contains_ip route (network existing)) routes.

Definition routes_conflict (text public_key : string) (routes : list net) : bool :=
  existsb (fun line => match split_whitespace line with
                       | [] => false
                       | key :: fields => negb (bool_decide (key = public_key)) && existsb (overlaps routes) (networks fields)
                       end) (lines text).

Definition ensure_routes_available (public_key : string) (routes : list net) : M unit :=
  text ← assigned;
  require (negb (routes_conflict text public_key routes)) (Msg "tunnel IP or subnet is already assigned to another peer").

Definition legacy_owner (subnet : option string) : result bool :=
  match subnet with
  | None => Ok false
  | Some s => if bool_decide (s = CLIENT_SUBNET) then Ok true else Err (Msg ("legacy subnet must be " +:+ CLIENT_SUBNET))
  end.

Definition format_profile (private_key client_public_key server_public_key endpoint tunnel_ip : string) : string :=
  unlines ["# ClientPublicKey = " +:+ client_public_key; "[Interface]"; "PrivateKey = " +:+ private_key;
    "Address = " +:+ tunnel_ip; "MTU = " +:+ show TUNNEL_MTU; ""; "[Peer]"; "PublicKey = " +:+ server_public_key;
    "AllowedIPs = 0.0.0.0/0"; "Endpoint = " +:+ endpoint; "PersistentKeepalive = 10"]%string.

Definition validate_endpoint (endpoint : string) : result unit :=
  '(h, port) ← ok_or (rsplit_once ":"%char endpoint) "endpoint must have host:port format";
  if (255 <? slen endpoint) || bool_decide (h = ""%string) || has_whitespace endpoint
     || negb (match parse_u16 port with Some p => 0 <? p | None => false end)
  then Err (Msg "endpoint must have host:port format") else Ok tt.

Definition unbracketed (s : string) : string :=
  default s (inner ← strip_prefix "[" s; strip_suffix "]" inner).

Definition validate_managed_endpoint (endpoint : string) : result unit :=
  let refused := "managed endpoint must have canonical IP:8443 format" in
  '(h, port) ← ok_or (rsplit_once ":"%char endpoint) refused;
  _ ← ensure (bool_decide (port = "8443"%string)) refused;
  let bracketed := starts_with "[" h || ends_with "]" h in
  let h := unbracketed h in
  address ← ok_or (parse_ip h) refused;
  ensure (bool_decide (h = show_ip address) && negb (is_ipv6 address && negb bracketed)
          && negb (negb (is_ipv6 address) && bracketed)) refused.

(** ** The metadata file *)

Definition name_byte (b : ascii) : bool := is_ascii_alphanumeric b || existsb (eqb_ascii b) ["_"%char; "-"%char; "."%char; ":"%char].

Definition interface_name (interface : string) : result unit :=
  if bool_decide (interface = ""%string) || negb (forallb name_byte (chars interface))
  then Err (Msg "invalid WireGuard interface") else Ok tt.

(** [store_path]: the file of the interface; only its name can be refused. *)
Definition store_path (interface : string) : result unit := interface_name interface.

(** Modes 0777, 0700 and 0600 are 0x1ff, 0x1c0 and 0x180. *)
Definition validate_directory : M unit :=
  call ;;
  found ← read directory;
  m ← of_result (ok_or found "failed to inspect friend metadata directory");
  require (bool_decide (fm_kind m = DirectoryFile) && (Z.land (fm_mode m) 0x1ff =? 0x1c0) && (fm_uid m =? expected_uid))
    (Msg "unsafe friend metadata directory").

Definition validate_file : M file_meta :=
  call ;;
  found ← read store_file;
  f ← of_result (ok_or found "failed to inspect friend metadata");
  let m := n_meta f in
  require (bool_decide (fm_kind m = RegularFile) && (Z.land (fm_mode m) 0x1ff =? 0x180) && (fm_uid m =? expected_uid)
           && (fm_nlink m =? 1) && (slen (n_data f) <=? STORE_LIMIT)) (Msg "unsafe friend metadata") ;;
  mret m.

Fixpoint check_records (keys : gset string) (records : list friend_record) : result (gset string) :=
  match records with
  | [] => Ok keys
  | r :: records =>
      _ ← validate_peer_key (fr_public_key r);
      _ ← validate_name (fr_name r);
      if match fr_private_key r with Some key => negb (is_ok (validate_peer_key key)) | None => false end
         || bool_decide (fr_public_key r ∈ keys)
      then Err (Msg "invalid friend metadata") else check_records ({[fr_public_key r]} ∪ keys) records
  end.

Fixpoint check_owners (keys : gset string) (owners : list string) : result unit :=
  match owners with
  | [] => Ok tt
  | o :: owners =>
      _ ← validate_peer_key o;
      if bool_decide (o ∈ keys) then Err (Msg "owner metadata overlaps friend metadata") else check_owners ({[o]} ∪ keys) owners
  end.

(** What [read_store_path] makes of the bytes of the file. *)
Definition decode_store (data : string) : result friend_store :=
  schema ← ok_or (json_schema data) "invalid friend metadata";
  store ← (if schema =? 1 then
             '(s, records) ← ok_or (parse_legacy data) "invalid friend metadata"; Ok (FriendStore s records [])
           else if schema =? 2 then ok_or (parse_store data) "invalid friend metadata"
           else Err (Msg "unsupported friend metadata schema"));
  keys ← check_records ∅ (fs_records store);
  _ ← (if fs_schema store =? 2 then check_owners keys (fs_owners store) else Ok tt);
  Ok store.

Definition same_file (a b : file_meta) : bool := (fm_dev a =? fm_dev b) && (fm_ino a =? fm_ino b).

Definition read_store_path : M friend_store :=
  call ;;
  found ← read store_file;
  match found with
  | None => mret (FriendStore 1 [] [])
  | Some _ =>
      inspected ← validate_file;
      call ;;
      file ← read store_file;
      file ← of_result (ok_or file "failed to open friend metadata");
      call ;;
      let opened := n_meta file in
      call ;;
      named ← read store_file;
      named ← of_result (ok_or (n_meta <$> named) "failed to inspect friend metadata");
      require (same_file opened named && same_file opened inspected && negb (bool_decide (fm_kind named = SymbolicLink)))
        (Msg "friend metadata changed while opening") ;;
      call ;;
      require (slen (n_data file) <=? STORE_LIMIT) (Msg "friend metadata is too large") ;;
      of_result (decode_store (n_data file))
  end.

Definition read_store (interface : string) : M friend_store :=
  of_result (store_path interface) ;;
  call ;;
  found ← read directory;
  match found : option file_meta with Some _ => validate_directory | None => mret tt end ;;
  read_store_path.

Definition encode_store (store : friend_store) : result string :=
  let encoded := to_json store in
  if STORE_LIMIT <? slen encoded + 1 then Err (Msg "friend metadata is too large") else Ok encoded.

Definition with_lf (s : string) : string := str (chars s ++ [LF]).

(** [fs::rename] of the temporary file, whose inode is [ino]. *)
Definition rename_temporary (ino : Z) : M unit :=
  call ;;
  update (fun h => set_temporary None (set_store_file
    ((fun data => Node (FileMeta RegularFile 0x180 expected_uid 1 0 ino) data) <$> temporary h) h)).

Definition write_temporary (data : string) : M unit := call ;; update (set_temporary (Some data)).

Definition write_store_path (store : friend_store) : M unit :=
  encoded ← of_result (encode_store store);
  found ← read directory;
  match found : option file_meta with
  | Some _ => mret tt
  | None => n ← read tick; call ;; update (set_directory (Some (FileMeta DirectoryFile 0x1c0 expected_uid 2 0 (new_inode n))))
  end ;;
  validate_directory ;;
  inspected ← try (call ;; found ← read store_file; of_result (ok_or found "failed to inspect friend metadata"));
  (if is_ok inspected : bool then (fun _ => tt) <$> validate_file else mret tt) ;;
  n ← read tick;
  call ;;
  left_over ← read temporary;
  require (negb (bool_decide (is_Some left_over))) (Msg "failed to create friend metadata") ;;
  update (set_temporary (Some ""%string)) ;;
  written ← try (write_temporary encoded ;; write_temporary (with_lf encoded) ;; call ;; rename_temporary (new_inode n) ;; call ;; call);
  match written with
  | Ok _ => mret tt
  | Err e => _ ← try (call ;; update (set_temporary None)); throw e
  end.

Definition write_store (interface : string) (store : friend_store) : M unit :=
  of_result (store_path interface) ;; write_store_path store.

(** ** WARP *)

Definition prepared (interface : string) : M bool :=
  call ;;
  found ← read warp_network;
  match found with
  | None => mret false
  | Some f =>
      let m := n_meta f in
      require (bool_decide (fm_kind m = RegularFile) && (fm_nlink m =? 1) && (fm_uid m =? expected_uid)
               && (Z.land (fm_mode m) 0x1ff =? 0x180)) (Msg "unsafe WARP network configuration") ;;
      call ;;
      content ← of_result (ok_or (utf8_string (n_data f)) "stream did not contain valid UTF-8");
      require (bool_decide ("WG_INTERFACE=" +:+ interface ∈ lines content)%string)
        (Msg "WARP belongs to a different WireGuard interface") ;;
      mret true
  end.

(** [warp::command] *)
Definition warp_command (action : string) : M unit :=
  n ← read tick;
  update (fun h => set_warp_network (warp_helper n action (warp_network h)) h) ;;
  (fun _ => tt) <$> run (fun h => warp_output action (warp_network h)).

(** [warp::status] *)
Definition read_warp_status (interface : string) : M warp_status :=
  is_prepared ← prepared interface;
  if is_prepared : bool then
    output ← run (fun h => warp_output "status" (warp_network h));
    status ← of_result (ok_or (parse_warp output) "invalid WARP status");
    require (negb (warp_connected status && (negb (warp_installed status) || negb (warp_enabled status))))
      (Msg "inconsistent WARP status") ;;
    mret status
  else mret warp_status_default.

(** ** Peers *)

Definition peer_fields (line : string) : option (string * list string) :=
  match split_whitespace line with
  | [] => None
  | key :: fields => Some (key, fields ≫= split ","%char)
  end.

Definition classify_friend (routes : list string) : peer_kind :=
  match routes with
  | [route] => match validate_tunnel_ip route with Ok ip => Friend (net_show ip) | Err _ => Other end
  | _ => Other
  end.

(** The later of two lines for a key counts. *)
Definition classify (owners : gset string) (text : string) : gmap string peer_kind :=
  foldl (fun m '(key, routes) => <[key := if bool_decide (key ∈ owners) then Owner else classify_friend routes]> m) ∅
    (omap peer_fields (lines text)).

Definition peers (owners : gset string) : M (gmap string peer_kind) := text ← assigned; mret (classify owners text).

Definition owner_keys (store : friend_store) : gset string := list_to_set (fs_owners store).

Definition is_friend (p : peer_kind) : bool := match p with Friend _ => true | _ => false end.

Definition find_record (store : friend_store) (public_key : string) : option friend_record :=
  find_first (fun r => bool_decide (fr_public_key r = public_key)) (fs_records store).

Definition has_record (store : friend_store) (public_key : string) : bool :=
  existsb (fun r => bool_decide (fr_public_key r = public_key)) (fs_records store).

Definition is_owner (store : friend_store) (public_key : string) : bool :=
  existsb (fun key => bool_decide (key = public_key)) (fs_owners store).

(** The keys of the lines with the legacy subnet. *)
Definition legacy_owners (text : string) : list string :=
  omap (fun line => '(key, routes) ← peer_fields line;
                    if bool_decide (CLIENT_SUBNET ∈ routes) then Some key else None) (lines text).

Definition check_legacy_owner (store : friend_store) (owner : string) : result unit :=
  _ ← validate_peer_key owner;
  ensure (negb (has_record store owner)) "legacy owner overlaps friend metadata; refusing ambiguous migration".

Definition load_store (interface : string) : M friend_store :=
  store ← read_store interface;
  if (fs_schema store =? 1) : bool then
    output ← assigned;
    of_result (store_path interface) ;;
    exists_ ← try (call ;; found ← read store_file; of_result (ok_or found "No such file or directory"));
    (if is_ok exists_ : bool then mret tt
     else active ← peers ∅;
          require (negb (existsb is_friend (map_to_list active).*2))
            (Msg "missing metadata cannot distinguish router owners from legacy friends")) ;;
    let owners := legacy_owners output in
    require (negb (bool_decide (owners = []) && existsb (fun line => (1 <? length (split_whitespace line))%nat) (lines output)))
      (Msg "cannot safely identify legacy router owner; use a migrated server") ;;
    let store := FriendStore 2 (fs_records store) owners in
    of_result (mapM (check_legacy_owner store) owners) ;;
    write_store interface store ;;
    mret store
  else mret store.

Definition active_name (store : friend_store) (active : gmap string peer_kind) (public_key : option string) (name : string) : bool :=
  existsb (fun '(key, peer) =>
    negb (bool_decide (Some key = public_key)) &&
    match peer with
    | Friend ip =>
        let shown := match find_record store key with Some r => fr_name r | None => ip end in
        bool_decide (to_lowercase shown = to_lowercase name)
    | _ => false
    end) (map_to_list active).

Definition peer_shape (store : friend_store) (active : gmap string peer_kind) (public_key : string) : result (option string) :=
  _ ← validate_peer_key public_key;
  _ ← ensure (negb (is_owner store public_key)) "router peer cannot be managed as a friend";
  match active !! public_key with
  | None => Ok None
  | Some (Friend ip) => Ok (Some ip)
  | Some Owner => Err (Msg "router peer cannot be managed as a friend")
  | Some Other => Err (Msg "peer is not a managed friend shape")
  end.

Definition friend_leb (a b : friend_peer) : bool :=
  match String.compare (fp_name a) (fp_name b) with
  | Lt => true
  | Gt => false
  | Eq => String.leb (fp_public_key a) (fp_public_key b)
  end.

Definition friend_le (a b : friend_peer) : Prop := friend_leb a b = true.

#[export] Instance friend_le_dec a b : Decision (friend_le a b).
Proof. unfold friend_le. apply _. Defined.

Definition known_peer (active : gmap string peer_kind) (r : friend_record) : option friend_peer :=
  match active !! fr_public_key r with
  | Some (Owner | Other) => None
  | Some (Friend _) => Some (FriendPeer (fr_public_key r) (fr_name r) false (bool_decide (is_Some (fr_private_key r))))
  | None => Some (FriendPeer (fr_public_key r) (fr_name r) true false)
  end.

Definition unknown_peer (store : friend_store) (entry : string * peer_kind) : option friend_peer :=
  match entry with
  | (key, Friend ip) => if has_record store key then None else Some (FriendPeer key ip false false)
  | _ => None
  end.

Definition friend_peers (store : friend_store) (active : gmap string peer_kind) : list friend_peer :=
  merge_sort friend_le
    (omap (known_peer active) (fs_records store) ++ omap (unknown_peer store) (map_to_list active)).

(** [wg set IF peer KEY allowed-ips ROUTES] and [wg-quick save IF]. *)
Definition set_routes (public_key routes : string) : M unit := command (wg_set public_key routes) ;; save.

(** Takes the peers back to what [wg showconf] said. *)
Definition restore_peers (previous_config : string) : M unit := command (wg_setconf previous_config) ;; save.

(** [anyhow!("{what} failed: {error:#}; rollback failed: {rollback:#}")] *)
Definition rollback_failed (what : string) (error rollback : error) : Prelude.error :=
  Msg (what +:+ " failed: " +:+ error_text error +:+ "; rollback failed: " +:+ error_text rollback).

(** The end of a change: [action], and on its error [rollback]; a rollback that fails too is part of the error. *)
Definition transact {A} (action : M A) (rollback : M unit) (failed : error -> error -> error) : M A :=
  outcome ← try action;
  match outcome with
  | Ok x => mret x
  | Err error =>
      rolled_back ← try rollback;
      match rolled_back with
      | Ok _ => throw error
      | Err rollback => throw (failed error rollback)
      end
  end.

Definition add_peer (public_key tunnel_ip : string) : M unit :=
  of_result (validate_peer_key public_key) ;;
  tunnel_ip ← of_result (validate_tunnel_ip tunnel_ip);
  ensure_routes_available public_key [tunnel_ip] ;;
  previous_config ← run (fun h => wg_showconf (wg h));
  transact (set_routes public_key (net_show tunnel_ip)) (restore_peers previous_config) (rollback_failed "peer setup").

(** [managed::status] *)
Definition status (interface : string) : M managed_server_status :=
  store ← load_store interface;
  active ← peers (owner_keys store);
  let listed := friend_peers store active in
  warp ← read_warp_status interface;
  mret (ManagedServerStatus VERSION listed (Some warp)).

Definition add_record (store : friend_store) (r : friend_record) : friend_store :=
  FriendStore (fs_schema store) (fs_records store ++ [r]) (fs_owners store).

Definition create (interface endpoint name : string) : M string :=
  store ← load_store interface;
  active ← peers (owner_keys store);
  require (negb (active_name store active None name)) (Msg "an active friend already has this name") ;;
  previous_config ← run (fun h => wg_showconf (wg h));
  private_key ← genkey;
  public_key ← trim <$> pubkey private_key;
  of_result (validate_peer_key public_key) ;;
  text ← assigned;
  tunnel_ip ← of_result (allocate_tunnel_ip text);
  let tunnel_ip := net_show tunnel_ip in
  server_key ← trim <$> run (fun h => wg_public_key (wg h));
  write_store interface (add_record store (FriendRecord public_key name (Some private_key))) ;;
  transact (set_routes public_key tunnel_ip)
    (restore_peers previous_config ;; write_store interface store) (rollback_failed "friend creation") ;;
  mret (format_profile private_key public_key server_key endpoint tunnel_ip).

(** [iter_mut().find(..)] with the new name, or a new record. *)
Fixpoint rename_records (public_key name : string) (records : list friend_record) : list friend_record :=
  match records with
  | [] => [FriendRecord public_key name None]
  | r :: records =>
      if bool_decide (fr_public_key r = public_key) then FriendRecord (fr_public_key r) name (fr_private_key r) :: records
      else r :: rename_records public_key name records
  end.

Definition rename (interface public_key name : string) : M unit :=
  store ← load_store interface;
  active ← peers (owner_keys store);
  current ← of_result (peer_shape store active public_key);
  require (bool_decide (is_Some current)) (Msg "friend is not active") ;;
  require (negb (active_name store active (Some public_key) name)) (Msg "an active friend already has this name") ;;
  write_store interface (FriendStore (fs_schema store) (rename_records public_key name (fs_records store)) (fs_owners store)).

Definition revoke (interface public_key : string) : M unit :=
  store ← load_store interface;
  active ← peers (owner_keys store);
  shape ← of_result (peer_shape store active public_key);
  match shape with
  | None => if has_record store public_key then save else throw (Msg "friend not found")
  | Some ip =>
      previous_config ← run (fun h => wg_showconf (wg h));
      let revoked := if has_record store public_key then store
                     else add_record store (FriendRecord public_key ip None) in
      write_store interface revoked ;;
      transact (command (wg_remove public_key) ;; save)
        (restore_peers previous_config ;; write_store interface store) (rollback_failed "friend revoke")
  end.

Definition profile (interface public_key endpoint : string) : M string :=
  store ← load_store interface;
  active ← peers (owner_keys store);
  shape ← of_result (peer_shape store active public_key);
  ip ← of_result (ok_or shape "friend is not active");
  r ← of_result (ok_or (find_record store public_key) "friend profile is unavailable");
  private_key ← of_result (ok_or (fr_private_key r) "friend profile is unavailable");
  server_key ← run (fun h => wg_public_key (wg h));
  derived ← pubkey private_key;
  require (bool_decide (trim derived = public_key)) (Msg "friend profile is unavailable") ;;
  mret (format_profile private_key public_key (trim server_key) endpoint ip).

(** ** Router owners *)

Definition alias_of (ip : net) : result net :=
  alias ← ok_or (source_address (addr ip)) "invalid WARP source";
  ok_or (net_new alias 32) "prefix length out of range".

Definition router_routes (interface : string) (tunnel_ip : net) : M (list net) :=
  is_prepared ← prepared interface;
  if is_prepared : bool then alias ← of_result (alias_of tunnel_ip); mret [tunnel_ip; alias] else mret [tunnel_ip].

Definition add_owner (store : friend_store) (public_key : string) : friend_store :=
  FriendStore (fs_schema store) (fs_records store) (fs_owners store ++ [public_key]).

Definition add_router_peer (interface public_key tunnel_ip : string) : M unit :=
  of_result (validate_peer_key public_key) ;;
  tunnel_ip ← of_result (validate_tunnel_ip tunnel_ip);
  routes ← router_routes interface tunnel_ip;
  ensure_routes_available public_key routes ;;
  let routes := join "," (net_show <$> routes) in
  store ← load_store interface;
  let existing_owner := is_owner store public_key in
  require (negb (has_record store public_key)) (Msg "cannot convert an existing friend or unclassified peer to an owner") ;;
  (if existing_owner : bool then mret tt
   else active ← peers (owner_keys store);
        require (negb (bool_decide (is_Some (active !! public_key))))
          (Msg "cannot convert an existing friend or unclassified peer to an owner")) ;;
  previous_config ← run (fun h => wg_showconf (wg h));
  let owned := if existing_owner then store else add_owner store public_key in
  write_store interface owned ;;
  outcome ← try (set_routes public_key routes);
  match outcome with
  | Ok _ => mret tt
  | Err error =>
      rolled_back ← try (restore_peers previous_config);
      match rolled_back with
      | Err rollback => throw (rollback_failed "router owner creation" error rollback)
      | Ok _ => (if existing_owner : bool then mret tt else write_store interface store) ;; throw error
      end
  end.

Definition create_router_profile (interface endpoint : string) : M string :=
  load_store interface ;;
  private_key ← genkey;
  public_key ← trim <$> pubkey private_key;
  of_result (validate_peer_key public_key) ;;
  text ← assigned;
  tunnel_ip ← of_result (allocate_tunnel_ip text);
  let tunnel_ip := net_show tunnel_ip in
  server_key ← trim <$> run (fun h => wg_public_key (wg h));
  add_router_peer interface public_key tunnel_ip ;;
  mret (format_profile private_key public_key server_key endpoint tunnel_ip).

(** One line of [warp_routes]: an owner with its routes and its alias. *)
Definition owner_routes (key : string) (routes : list string) : M (string * string) :=
  primary ← match omap (fun r => to_option (validate_tunnel_ip r)) routes with
            | [primary] => mret primary
            | _ => throw (Msg "router owner must have exactly one Gofro tunnel address")
            end;
  alias ← of_result (alias_of primary);
  let alias_text := net_show alias in
  require (negb (existsb (fun r => negb (bool_decide (r = net_show primary)) && negb (bool_decide (r = alias_text))
                                   && negb (bool_decide (r = CLIENT_SUBNET))) routes))
    (Msg "unrecognized router owner routes; refusing WARP authorization") ;;
  ensure_routes_available key [alias] ;;
  mret (key, join "," (if bool_decide (alias_text ∈ routes) then routes else routes ++ [alias_text])).

Fixpoint owners_routes (store : friend_store) (ls : list string) : M (list (string * string)) :=
  match ls with
  | [] => mret []
  | line :: ls =>
      match peer_fields line with
      | Some (key, routes) =>
          if is_owner store key then
            entry ← owner_routes key routes;
            entries ← owners_routes store ls;
            mret (entry :: entries)
          else owners_routes store ls
      | None => owners_routes store ls
      end
  end.

Definition warp_routes (interface : string) : M (list (string * string)) :=
  store ← load_store interface;
  text ← assigned;
  entries ← owners_routes store (lines text);
  require (negb (bool_decide (entries = []))) (Msg "no active router owners are available for WARP") ;;
  mret entries.

Fixpoint set_all (entries : list (string * string)) : M unit :=
  match entries with
  | [] => mret tt
  | (key, routes) :: entries => command (wg_set key routes) ;; set_all entries
  end.

Definition authorize_warp (interface : string) : M unit :=
  is_prepared ← prepared interface;
  require is_prepared (Msg "WARP firewall must be prepared before authorizing sources") ;;
  routes ← warp_routes interface;
  previous ← run (fun h => wg_showconf (wg h));
  transact (set_all routes ;; save) (restore_peers previous)
    (fun error => Ctx ("WARP authorization failed: " +:+ error_text error +:+ "; rollback failed")).

Definition remove_router_peer (interface public_key : string) : M unit :=
  store ← load_store interface;
  of_result (validate_peer_key public_key) ;;
  require (is_owner store public_key) (Msg "router owner not found") ;;
  previous_config ← run (fun h => wg_showconf (wg h));
  transact (command (wg_remove public_key) ;; save) (restore_peers previous_config)
    (rollback_failed "router owner removal").

(** The [RemovePeer] of [main] without a subnet. *)
Definition remove_peer (public_key : string) : M unit := command (wg_remove public_key) ;; save.

Definition restart (interface : string) : M unit :=
  of_result (interface_name interface) ;;
  save ;;
  command wg_restart ;;
  call ;; call ;; call.

(** ** Commands (main.rs) *)

Inductive server_command :=
| AddPeer (public_key tunnel_ip : string) (subnet : option string)
| CreateProfile (endpoint : string) (tunnel_ip subnet : option string)
| RemovePeer (public_key : string) (subnet : option string)
| CreateRouterProfile (endpoint : string)
| RemoveRouterPeer (public_key : string)
| Capabilities
| Status
| ManagedStatus
| CreateFriend (endpoint : string)
| RenameFriend (public_key : string)
| RevokeFriend (public_key : string)
| FriendProfile (public_key endpoint : string)
| RestartVpn
| EnableWarp (accept_terms : bool)
| DisableWarp.

(** The arguments, the standard input, and what [id -u] prints. *)
Record arguments := Arguments_ { a_interface : string; a_command : server_command; a_stdin : string; a_uid : string }.

Definition require_root (uid : string) : M unit :=
  text ← run (fun _ => uid);
  require (bool_decide (trim text = "0"%string)) (Msg "this command must run as root").

(** At most one byte more than the limit is read. *)
Definition read_friend_name (stdin : string) : M string :=
  call ;;
  let taken := str (take (S (Z.to_nat FRIEND_NAME_INPUT_LIMIT)) (chars stdin)) in
  input ← of_result (ok_or (utf8_string taken) "failed to read friend request");
  require (slen input <=? FRIEND_NAME_INPUT_LIMIT) (Msg "friend request is too large") ;;
  name ← of_result (ok_or (parse_friend_name input) "invalid friend request");
  of_result (validate_name name).

(** Mode 0022 is 0x12. *)
Definition safe_lock (m : file_meta) : bool :=
  bool_decide (fm_kind m = RegularFile) && (fm_uid m =? expected_uid) && (Z.land (fm_mode m) 0x12 =? 0) && (fm_nlink m =? 1).

(** Waiting for the lock does not appear: a command runs when it has it. *)
Definition mutating_lock : M unit :=
  call ;;
  found ← read lock_file;
  match found with
  | Some m => require (safe_lock m) (Msg "unsafe server lock")
  | None => mret tt
  end ;;
  n ← read tick;
  call ;;
  match found with
  | Some _ => mret tt
  | None => update (set_lock_file (Some (FileMeta RegularFile 0x180 expected_uid 1 0 (new_inode n))))
  end ;;
  opened ← read lock_file;
  opened ← of_result (ok_or opened "failed to open the lock");
  call ;; call ;;
  named ← read lock_file;
  named ← of_result (ok_or named "No such file or directory");
  require (bool_decide (fm_kind named = RegularFile) && same_file opened named && (fm_uid opened =? expected_uid)
           && (Z.land (fm_mode opened) 0x12 =? 0) && (fm_nlink opened =? 1)) (Msg "unsafe server lock") ;;
  call ;;
  call ;;
  named ← read lock_file;
  named ← of_result (ok_or named "No such file or directory");
  require (same_file opened named && bool_decide (fm_kind named = RegularFile)) (Msg "server lock changed while locking").

(** The owner's way in or the plain one, as the deprecated subnet says. *)
Definition add_either (owner : bool) (interface public_key tunnel_ip : string) : M unit :=
  if owner then add_router_peer interface public_key tunnel_ip else add_peer public_key tunnel_ip.

Definition create_profile (interface endpoint : string) (tunnel_ip subnet : option string) : M string :=
  of_result (validate_endpoint endpoint) ;;
  owner ← of_result (legacy_owner subnet);
  tunnel_ip ← match tunnel_ip with
              | Some ip => mret ip
              | None => text ← assigned; net_show <$> of_result (allocate_tunnel_ip text)
              end;
  n ← read tick;
  private_key ← run (fun _ => wg_genkey n);
  public_key ← pubkey private_key;
  server_public_key ← run (fun h => wg_public_key (wg h));
  add_either owner interface (trim public_key) tunnel_ip ;;
  mret (format_profile (trim private_key) (trim public_key) (trim server_public_key) endpoint tunnel_ip).

Definition wireguard_peers : M (list peer_status) :=
  dump ← run (fun h => wg_dump (wg h));
  n ← next_tick;
  of_result (parse_wireguard_dump dump (clock n)).

Definition QUOTE : string := str [of_code 34].
Definition capabilities : string :=
  "{" +:+ QUOTE +:+ "owner_protocol" +:+ QUOTE +:+ ":2," +:+ QUOTE +:+ "warp_protocol" +:+ QUOTE +:+ ":1}".

(** [main]: what the command prints. *)
Definition main (args : arguments) : M string :=
  let interface := a_interface args in
  let root := require_root (a_uid args) in
  match a_command args with
  | AddPeer public_key tunnel_ip subnet =>
      root ;; mutating_lock ;;
      owner ← of_result (legacy_owner subnet);
      add_either owner interface public_key tunnel_ip ;;
      mret (unlines ["peer added: " +:+ tunnel_ip +:+ " via " +:+ interface])
  | CreateProfile endpoint tunnel_ip subnet =>
      root ;; mutating_lock ;; create_profile interface endpoint tunnel_ip subnet
  | RemovePeer public_key subnet =>
      root ;; mutating_lock ;;
      owner ← of_result (legacy_owner subnet);
      (if owner : bool then remove_router_peer interface public_key else remove_peer public_key) ;;
      mret (unlines ["peer removed: " +:+ public_key])
  | CreateRouterProfile endpoint =>
      root ;; of_result (validate_managed_endpoint endpoint) ;; mutating_lock ;; create_router_profile interface endpoint
  | RemoveRouterPeer public_key => root ;; mutating_lock ;; remove_router_peer interface public_key ;; mret ""%string
  | Capabilities => mret (unlines [capabilities])
  | Status => (fun peers => unlines [status_json peers]) <$> wireguard_peers
  | ManagedStatus => root ;; mutating_lock ;; (fun s => unlines [managed_json s]) <$> status interface
  | CreateFriend endpoint =>
      root ;; of_result (validate_managed_endpoint endpoint) ;;
      name ← read_friend_name (a_stdin args);
      mutating_lock ;; create interface endpoint name
  | RenameFriend public_key =>
      root ;;
      name ← read_friend_name (a_stdin args);
      mutating_lock ;; rename interface public_key name ;; mret ""%string
  | RevokeFriend public_key => root ;; mutating_lock ;; revoke interface public_key ;; mret ""%string
  | FriendProfile public_key endpoint =>
      root ;; of_result (validate_managed_endpoint endpoint) ;; mutating_lock ;; profile interface public_key endpoint
  | RestartVpn => root ;; mutating_lock ;; restart interface ;; mret ""%string
  | EnableWarp accept_terms =>
      root ;;
      require accept_terms (Msg "Cloudflare WARP terms must be explicitly accepted with --accept-terms") ;;
      mutating_lock ;; warp_routes interface ;; warp_command "enable" ;; authorize_warp interface ;; mret ""%string
  | DisableWarp => root ;; mutating_lock ;; warp_command "disable" ;; mret ""%string
  end.
End Server.

(** ** The tests of the crate *)

Example endpoints_checked :
  (is_ok ∘ validate_managed_endpoint <$> ["198.51.100.1:8443"; "[2001:db8::1]:8443"; "999.51.100.1:8443"; "[:::]:8443";
     "[2001:0db8::1]:8443"; "vpn.test:8443"]%string) = [true; true; false; false; false; false]
  /\ (is_ok ∘ validate_endpoint <$> ["vpn.test:8443"; "vpn.test"; str (replicate 251 "a"%char) +:+ ":8443"]%string) = [true; false; false].
Proof. by vm_compute. Qed.

Example addresses_allocated :
  net_show <$> to_option (allocate_tunnel_ip (net := PrefixNet.t) (unlines [str (chars "one" ++ TAB :: chars "10.202.0.2/32,10.203.1.0/24");
     str (chars "two" ++ TAB :: chars "10.202.0.4/32")])) = Some "10.202.0.3/32"%string
  /\ is_ok (allocate_tunnel_ip (net := PrefixNet.t) "one 10.202.0.0/24") = false
  /\ is_ok (validate_tunnel_ip (net := PrefixNet.t) "10.202.0.1/32") = false.
Proof. by vm_compute. Qed.

Example routes_compared :
  let routes := [Net.PrefixNet.get (Net.PrefixNet.parse "10.202.0.5/32")] in
  (routes_conflict "other-key 10.202.0.5/32,10.203.1.0/24" "new-key" routes,
   routes_conflict "other-key 10.202.0.5/32" "new-key" routes,
   routes_conflict "same-key 10.202.0.5/32" "same-key" routes) = (true, true, false).
Proof. by vm_compute. Qed.

Example friend_shapes :
  (is_friend ∘ classify_friend (net := PrefixNet.t) <$>
    [["10.202.0.2/32"]; ["10.203.1.0/24"; "10.202.0.2/32"]; ["10.202.0.2/32"; "10.203.1.0/24"]; ["10.202.0.2/32"; "10.202.0.3/32"]]%string)
  = [true; false; false; false].
Proof. by vm_compute. Qed.
