(* ===== verification/ServerSafety.v ===== *)
(** * What the server's commands promise (Server.v)

    The laws of the tools ([WireGuardLaws], [ServerLaws]), the metadata file, the
    refinement of the commands by operations on a registry of who may connect,
    and the addresses that are handed out. *)

From stdpp Require Import base gmap sets strings list sorting.
From Stdlib Require Import Ascii ZArith Lia.
From S2P Require Import Prelude RustStd IpAddr Effects RelayCodec Net Peers Server.

(** ** Laws *)

(** The text of a network is its address and its prefix length. *)
Class IpnetText (net : Type) `{Ipnet net} := {
  net_show_text n : net_show n = show_ipv4 (addr n) +:+ "/" +:+ show (prefix_len n);
  net_parse_dotted s n : net_parse s = Some n -> contains_byte "."%char s = true;
}.

Lemma split_bytes_length c l : (1 < length (split_bytes c l))%nat -> existsb (eqb_ascii c) l = true.
Proof.
  induction l as [| a l IH]; cbn; [lia |]. unfold eqb_ascii. destruct (decide (c = a)) as [-> | Hne].
  - intros _. by rewrite bool_decide_true.
  - rewrite (bool_decide_false (c = a)), (bool_decide_false (a = c)) by congruence.
    destruct (split_bytes c l) as [| p ps] eqn:E; cbn; [lia |]. intros Hl. apply IH. cbn. lia.
Qed.

#[export] Instance prefix_net_text : IpnetText PrefixNet.t.
Proof.
  split; [done |]. intros s n Hp. cbn in Hp. unfold PrefixNet.parse, split_once in Hp.
  destruct (split_once_bytes "/"%char (chars s)) as [[a b] |] eqn:E; [| done]. cbn in Hp.
  apply split_once_bytes_Some in E as [E _]. destruct (parse_ipv4 (str a)) as [ip |] eqn:Ei; [| done].
  assert (existsb (eqb_ascii "."%char) a = true) as Ha.
  { apply split_bytes_length. unfold parse_ipv4, split in Ei. rewrite chars_str in Ei.
    destruct (split_bytes "."%char a) as [| ? [| ? l]]; [done | done | cbn; lia]. }
  unfold contains_byte. rewrite E. rewrite existsb_app, Ha. done.
Qed.

(** The peers of an interface with their routes, as listed, and those of its file for the next boot. *)
Class WireGuardPeers (W : Type) := {
  live : W -> list (string * list string);
  boot : W -> gmap string (gset string);
}.

Definition access {W} `{WireGuardPeers W} (w : W) : gmap string (gset string) := list_to_set <$> list_to_map (live w).

Definition route_word (r : string) : Prop := word r /\ contains_byte ","%char r = false.

(** The manual of [wg]: a listing has each peer once; [set] gives a peer exactly the routes of the list and takes
    them from the others; [setconf] of [showconf] restores the peers; [save] copies them to the file. *)
Class WireGuardLaws (W : Type) `{WireGuard W} `{WireGuardPeers W} (net : Type) `{Ipnet net} := {
  listed w : wg_allowed_ips w = allowed_text (live w);
  listed_words w : Forall (fun p => validate_peer_key p.1 = Ok tt /\ NoDup p.2 /\ Forall route_word p.2) (live w);
  listed_once w : NoDup (live w).*1;
  listed_apart w k1 k2 s1 s2 : k1 <> k2 -> access w !! k1 = Some s1 -> access w !! k2 = Some s2 -> s1 ## s2;
  access_set key (routes : list net) w : validate_peer_key key = Ok tt -> routes <> [] -> Forall truncated routes ->
    let rs : gset string := list_to_set (net_show <$> routes) in
    access (wg_set key (join "," (net_show <$> routes)) w) = <[key := rs]> ((fun s => s ∖ rs) <$> access w);
  boot_set key routes w : boot (wg_set key routes w) = boot w;
  access_remove key w : access (wg_remove key w) = delete key (access w);
  boot_remove key w : boot (wg_remove key w) = boot w;
  access_restored w w' : access (wg_setconf (wg_showconf w) w') = access w;
  access_save w : access (wg_save w) = access w;
  boot_save w : boot (wg_save w) = access w;
}.

(** serde_json reads back a store it wrote; a generated private key has the form of a key; a [wg-quick save] that
    fails leaves the interface alone. *)
Class ServerLaws (W : Type) `{WireGuard W} `{ServerWorld W} `{WireGuardPeers W} := {
  access_torn_save n w : access (torn_save n w) = access w;
  schema_written s : 0 <= fs_schema s < 256 -> json_schema (with_lf (to_json s)) = Some (fs_schema s);
  store_written s : 0 <= fs_schema s < 256 -> parse_store (with_lf (to_json s)) = Some s;
  generated n : validate_peer_key (trim (wg_genkey n)) = Ok tt;
}.

(** ** The metadata *)

Record record_ok (r : friend_record) : Prop := {
  ro_key : validate_peer_key (fr_public_key r) = Ok tt;
  ro_name : is_ok (validate_name (fr_name r)) = true;
  ro_private key : fr_private_key r = Some key -> validate_peer_key key = Ok tt;
}.

(** Every key of the metadata, once. *)
Definition store_keys (s : friend_store) : list string := (fr_public_key <$> fs_records s) ++ fs_owners s.

Record store_ok (s : friend_store) : Prop := {
  so_schema : fs_schema s = 2;
  so_records : Forall record_ok (fs_records s);
  so_owners : Forall (fun k => validate_peer_key k = Ok tt) (fs_owners s);
  so_keys : NoDup (store_keys s);
}.

Lemma key_unit (key : string) u : validate_peer_key key = Ok u -> validate_peer_key key = Ok tt.
Proof. by destruct u. Qed.

Lemma check_records_ok records : forall keys keys',
  check_records keys records = Ok keys' ->
  Forall record_ok records /\ NoDup (fr_public_key <$> records) /\
  (forall r, r ∈ records -> fr_public_key r ∉ keys) /\ keys' = list_to_set (fr_public_key <$> records) ∪ keys.
Proof.
  induction records as [| r rs IH]; intros keys keys' Hc; cbn in Hc.
  { injection Hc as <-. split_and!; [constructor | constructor | by intros ? ?%not_elem_of_nil | set_solver]. }
  apply bind_ok in Hc as ([] & Hk & Hc). apply bind_ok in Hc as (n & Hn & Hc).
  destruct (_ || _) eqn:E in Hc; [done |]. apply orb_false_iff in E as [Hp Hi%bool_decide_eq_false].
  apply IH in Hc as (Hrs & Hnd & Hout & ->). split_and!.
  - constructor; [| done]. split; [done | by rewrite Hn |]. intros key Hkey. rewrite Hkey in Hp.
    destruct (validate_peer_key key) as [[] |]; [done | discriminate].
  - cbn. constructor; [| done]. intros (r' & Hr' & Hin)%list_elem_of_fmap. apply Hout in Hin. rewrite <- Hr' in Hin. set_solver.
  - intros r' [-> | Hin]%elem_of_cons; [done |]. apply Hout in Hin. set_solver.
  - cbn. set_solver.
Qed.

Lemma check_records_complete records : forall keys,
  Forall record_ok records -> NoDup (fr_public_key <$> records) -> (forall r, r ∈ records -> fr_public_key r ∉ keys) ->
  check_records keys records = Ok (list_to_set (fr_public_key <$> records) ∪ keys).
Proof.
  induction records as [| r rs IH]; intros keys Hr Hnd Hout; cbn; [f_equal; set_solver |].
  inversion Hr as [| ? ? [Hk Hn Hp] Hrs]; subst. inversion Hnd as [| ? ? Hni Hnd']; subst.
  rewrite Hk. cbn [mbind result_bind]. destruct (validate_name (fr_name r)) as [n |]; [| discriminate]. cbn [mbind result_bind].
  assert ((match fr_private_key r with Some key => negb (is_ok (validate_peer_key key)) | None => false end) = false) as ->
    by (destruct (fr_private_key r) as [key |]; [by rewrite (Hp key) | done]).
  cbn [orb]. rewrite bool_decide_false by (apply Hout; by left). rewrite IH; [f_equal; set_solver | done | done |].
  intros r' Hin. apply not_elem_of_union. split; [| apply Hout; by right].
  intros Heq%elem_of_singleton. apply Hni. rewrite <- Heq. by apply list_elem_of_fmap_2.
Qed.

Lemma check_owners_ok owners : forall keys,
  check_owners keys owners = Ok tt <->
  Forall (fun k => validate_peer_key k = Ok tt) owners /\ NoDup owners /\ (forall k, k ∈ owners -> k ∉ keys).
Proof.
  induction owners as [| o os IH]; intros keys; cbn.
  { split; [intros _ | done]. split_and!; [constructor | constructor | by intros ? ?%not_elem_of_nil]. }
  rewrite bind_ok. split.
  - intros ([] & Ho & Hc). case_bool_decide as Hi; [done |]. apply IH in Hc as (Hos & Hnd & Hout).
    split_and!; [by constructor | constructor; [intros Hin%Hout; set_solver | done] |].
    intros k [-> | Hin]%elem_of_cons; [done |]. apply Hout in Hin. set_solver.
  - intros (Hf & Hnd & Hout). inversion Hf as [| ? ? Ho Hos]; subst. inversion Hnd as [| ? ? Hni Hnd']; subst.
    exists tt. split; [done |]. rewrite bool_decide_false by (apply Hout; by left). apply IH. split_and!; [done | done |].
    intros k Hin. apply not_elem_of_union. split; [by intros ->%elem_of_singleton | apply Hout; by right].
Qed.

Section Metadata.
Context {W : Type} `{ServerLaws W}.

(** Only well-formed metadata is accepted. *)
Lemma decode_ok data s : decode_store data = Ok s -> fs_schema s = 2 -> store_ok s.
Proof.
  unfold decode_store. intros (schema & _ & Hd)%bind_ok Hs. apply bind_ok in Hd as (s' & _ & Hd).
  apply bind_ok in Hd as (keys & Hr & Hd). apply bind_ok in Hd as ([] & Ho & [= ->]).
  rewrite Hs in Ho. cbn in Ho. apply check_records_ok in Hr as (Hr & Hnd & _ & ->).
  apply check_owners_ok in Ho as (Ho & Hndo & Hout). split; [done.. |].
  apply NoDup_app. split_and!; [done | | done]. intros k Hk Hko. apply Hout in Hko. set_solver.
Qed.

Lemma store_checks s : store_ok s ->
  check_records ∅ (fs_records s) = Ok (list_to_set (fr_public_key <$> fs_records s) ∪ ∅) /\
  check_owners (list_to_set (fr_public_key <$> fs_records s) ∪ ∅) (fs_owners s) = Ok tt.
Proof.
  intros [_ Hr Ho Hk]. apply NoDup_app in Hk as (Hk1 & Hdis & Hk2). split.
  - apply check_records_complete; [done | done | set_solver].
  - apply check_owners_ok. split_and!; [done | done |]. intros k Hin. set_solver.
Qed.

(** And all of it is read back. *)
Lemma decode_written s : store_ok s -> decode_store (with_lf (to_json s)) = Ok s.
Proof.
  intros Hs. destruct (store_checks s Hs) as [Hr Ho]. pose proof (so_schema _ Hs) as Hsch. unfold decode_store.
  rewrite schema_written, Hsch by (rewrite Hsch; lia). cbn. rewrite store_written by (rewrite Hsch; lia). cbn.
  rewrite Hr. cbn [mbind result_bind]. rewrite Hsch. cbn. by rewrite Ho.
Qed.
End Metadata.

(** ** Runs *)

Section Runs.
Context {W : Type} `{ServerLaws W} {net : Type} `{!Ipnet net} `{!WireGuardLaws W net}.
Context `{!EqDecision net} `{!IpnetLaws net} `{!IpnetText net}.
Implicit Types h : host W.
#[local] Notation M := (eff (host W) error).

(** What commands that only look leave alone. *)
Record quiet h h' : Prop := Quiet { q_wg : wg h' = wg h; q_store : store_file h' = store_file h }.

#[export] Instance quiet_preorder : PreOrder quiet.
Proof. split; [by split |]. intros a b c [Ha Hb] [Hc Hd]. split; congruence. Qed.

Hint Extern 1 (preserves quiet (update _)) => (apply preserves_update; intros ?; by split) : eff.

Lemma bind_quiet {A B} (m : M A) (k : A -> M B) h h' r :
  preserves quiet m -> (m ≫= k) h = (h', r) ->
  (exists e, r = inl e /\ quiet h h') \/ (exists x h1, m h = (h1, inr x) /\ quiet h h1 /\ k x h1 = (h', r)).
Proof.
  intros Hq [(e & He & ->) | (h1 & x & Hx & Hk)]%bind_run; [left | right]; [by exists e; split; [| by eapply Hq] |].
  exists x, h1. split_and!; [done | by eapply Hq | done].
Qed.

Lemma quiet_next_tick {E} : preserves quiet (next_tick (E := E)).
Proof. by intros h h' r [= <- <-]. Qed.
Hint Resolve quiet_next_tick : eff.

Lemma quiet_call : preserves quiet call.
Proof. unfold call. preserved. Qed.
Hint Resolve quiet_call : eff.

Lemma quiet_run out : preserves quiet (run out).
Proof. unfold run. preserved. Qed.
Hint Resolve quiet_run : eff.

Lemma quiet_assigned : preserves quiet assigned.
Proof. apply quiet_run. Qed.
Hint Resolve quiet_assigned : eff.

Lemma quiet_genkey : preserves quiet genkey.
Proof. unfold genkey. preserved. Qed.
Hint Resolve quiet_genkey : eff.

Lemma quiet_pubkey k : preserves quiet (pubkey k).
Proof. unfold pubkey. preserved. Qed.
Hint Resolve quiet_pubkey : eff.

Lemma quiet_ensure k routes : preserves quiet (ensure_routes_available (net := net) k routes).
Proof. unfold ensure_routes_available. preserved. Qed.
Hint Resolve quiet_ensure : eff.

Lemma quiet_validate_directory : preserves quiet validate_directory.
Proof. unfold validate_directory. preserved. Qed.
Hint Resolve quiet_validate_directory : eff.

Lemma quiet_validate_file : preserves quiet validate_file.
Proof. unfold validate_file. preserved. Qed.
Hint Resolve quiet_validate_file : eff.

Lemma quiet_read_store_path : preserves quiet read_store_path.
Proof. unfold read_store_path. preserved. Qed.
Hint Resolve quiet_read_store_path : eff.

Lemma quiet_read_store i : preserves quiet (read_store i).
Proof. unfold read_store. preserved. Qed.
Hint Resolve quiet_read_store : eff.

Lemma quiet_peers owners : preserves quiet (peers (net := net) owners).
Proof. unfold peers. preserved. Qed.
Hint Resolve quiet_peers : eff.

Lemma quiet_prepared i : preserves quiet (prepared i).
Proof. unfold prepared. preserved. Qed.
Hint Resolve quiet_prepared : eff.

Lemma quiet_router_routes i ip : preserves quiet (router_routes (net := net) i ip).
Proof. unfold router_routes. preserved. Qed.
Hint Resolve quiet_router_routes : eff.

Lemma quiet_require_root uid : preserves quiet (require_root uid).
Proof. unfold require_root. preserved. Qed.
Hint Resolve quiet_require_root : eff.

Lemma quiet_read_friend_name input : preserves quiet (read_friend_name input).
Proof. unfold read_friend_name. preserved. Qed.
Hint Resolve quiet_read_friend_name : eff.

Lemma quiet_lock : preserves quiet mutating_lock.
Proof. unfold mutating_lock. preserved. Qed.
Hint Resolve quiet_lock : eff.

Lemma quiet_warp_command action : preserves quiet (warp_command action).
Proof. unfold warp_command. preserved. Qed.
Hint Resolve quiet_warp_command : eff.

Lemma quiet_warp_status i : preserves quiet (read_warp_status i).
Proof. unfold read_warp_status. preserved. Qed.
Hint Resolve quiet_warp_status : eff.

(** [step H] takes the first call of a program that only looks; the error comes first. What is known of the
    state is said of the first one. *)
Ltac root := try match goal with Q1 : quiet ?a ?b, Q2 : quiet ?b ?c |- _ => apply (transitivity Q1) in Q2 end.
Ltac step H x Hx :=
  apply bind_quiet in H as [(?e & ?He & ?Hq) | (x & ?h & Hx & ?Hq & H)]; [first [discriminate | subst] | | solve [preserved]]; root.

(** The same for a call whose answer does not matter. *)
Ltac pass H :=
  apply bind_quiet in H as [(?e & ?He & ?Hq) | (?x & ?h & ?Hx & ?Hq & H)]; [first [discriminate | subst] | | solve [preserved]]; root.

(** ** What the calls that look answer *)

Lemma read_run {A} (f : host W -> A) h h' x : read (E := error) f h = (h', inr x) -> h' = h /\ x = f h.
Proof. by intros [= <- <-]. Qed.

Lemma of_result_run {A} (a : result A) h h' x : of_result a h = (h', inr x) -> h' = h /\ a = Ok x.
Proof. unfold of_result. destruct a; by intros [= <- <-]. Qed.

Lemma require_ok b (e : error) h h' u : require b e h = (h', inr u) -> b = true /\ h' = h.
Proof. destruct b; [by intros [= <- _] | by intros [=]]. Qed.

Lemma fmap_run {A B} (f : A -> B) (m : M A) h h' y : (f <$> m) h = (h', inr y) -> exists x, m h = (h', inr x) /\ y = f x.
Proof. unfold fmap, eff_fmap. destruct (m h) as [h1 [e | x]]; intros [= <- <-]. eauto. Qed.

Lemma run_out out h h' text : (forall h1, quiet h h1 -> out h1 = out h) -> run out h = (h', inr text) -> text = out h.
Proof.
  intros Hout Hr. unfold run in Hr. step Hr u Hu. step Hr t Ht. apply read_run in Ht as [<- ->].
  step Hr u2 Hu2. injection Hr as _ <-. by apply Hout.
Qed.

Lemma assigned_text h h' text : assigned h = (h', inr text) -> text = allowed_text (live (wg h)).
Proof. intros Hr. apply run_out in Hr; [by rewrite Hr, listed | by intros h1 [-> _]]. Qed.

Definition metadata_of h : result friend_store :=
  match store_file h with Some f => decode_store (n_data f) | None => Ok (FriendStore 1 [] []) end.

Lemma metadata_quiet h h' : quiet h h' -> metadata_of h' = metadata_of h.
Proof. intros [_ Hs]. unfold metadata_of. by rewrite Hs. Qed.

Lemma validate_file_run h h' m : validate_file h = (h', inr m) -> quiet h h'.
Proof. apply quiet_validate_file. Qed.

Lemma read_store_path_metadata h h' s : read_store_path h = (h', inr s) -> metadata_of h = Ok s.
Proof.
  intros Hr. unfold read_store_path in Hr. step Hr u Hu. step Hr found Hf.
  apply read_run in Hf as [-> ->]. unfold metadata_of. rewrite <- (q_store _ _ Hq).
  destruct (store_file h0) as [f |] eqn:Ef; [| by injection Hr as _ <-].
  step Hr m Hm. step Hr u2 Hu2. step Hr file Hfile. apply read_run in Hfile as [-> ->].
  step Hr file Hfile. apply of_result_run in Hfile as [-> Hfile%ok_or_ok].
  assert (file = f) as -> by (rewrite (q_store _ _ Hq2) in Hfile; rewrite (q_store _ _ Hq) in Ef; congruence).
  repeat pass Hr. by apply of_result_run in Hr as [_ Hr].
Qed.

Lemma read_store_metadata i h h' s : read_store i h = (h', inr s) -> metadata_of h = Ok s.
Proof.
  intros Hr. unfold read_store in Hr. do 4 pass Hr. apply read_store_path_metadata in Hr.
  rewrite <- Hr. symmetry. by apply metadata_quiet.
Qed.

(** ** Writing the metadata *)

Definition written s h : Prop := exists m, store_file h = Some (Node m (with_lf (to_json s))).

(** What a fallible change of the metadata leaves: the old, or, whatever it answers, the new. *)
Definition stored s h h' (r : error + unit) : Prop :=
  wg h' = wg h /\ match r with inr _ => written s h' | inl _ => store_file h' = store_file h \/ written s h' end.

Lemma stored_quiet s h h1 h' r : quiet h h1 -> stored s h1 h' r -> stored s h h' r.
Proof. intros [Hw Hs] [Hw' Hr]. split; [congruence |]. destruct r; [| done]. by rewrite <- Hs. Qed.

Lemma call_ran h h' u : call h = (h', inr u) -> h' = set_tick (S (tick h)) h.
Proof. unfold call, next_tick, mbind, eff_bind. destruct (os (tick h)); by intros [= <- _]. Qed.

Lemma call_stays h h' r : call h = (h', r) -> h' = set_tick (S (tick h)) h.
Proof. unfold call, next_tick, mbind, eff_bind. destruct (os (tick h)); by intros [= <- _]. Qed.

Lemma quiet_write_temporary d : preserves quiet (write_temporary d).
Proof. unfold write_temporary. preserved. Qed.
Hint Resolve quiet_write_temporary : eff.

Lemma write_temporary_ran d h h' u : write_temporary d h = (h', inr u) -> temporary h' = Some d.
Proof. unfold write_temporary. intros Hr. pass Hr. by injection Hr as <- _. Qed.

Lemma rename_ran ino h h' r : rename_temporary ino h = (h', r) ->
  wg h' = wg h /\ match r with
                  | inl _ => store_file h' = store_file h
                  | inr _ => store_file h' = (fun d => Node (FileMeta RegularFile 0x180 expected_uid 1 0 ino) d) <$> temporary h
                  end.
Proof.
  unfold rename_temporary. intros [(e & He & ->) | (h1 & u & Hc & Hu)]%bind_run.
  - by apply call_stays in He as ->.
  - apply call_ran in Hc as ->. by injection Hu as <- <-.
Qed.

Lemma replace_ran s ino h h' r :
  (write_temporary (to_json s) ;; write_temporary (with_lf (to_json s)) ;; call ;; rename_temporary ino ;; call ;; call) h = (h', r) ->
  stored s h h' r.
Proof.
  intros Hr. pass Hr; [by split; [apply Hq | left; apply Hq] |]. step Hr u Hu; [by split; [apply Hq0 | left; apply Hq0] |].
  apply write_temporary_ran in Hu. step Hr u2 Hu2; [by split; [apply Hq1 | left; apply Hq1] |].
  apply call_ran in Hu2 as ->. apply stored_quiet with (set_tick (S (tick h1)) h1); [done |].
  apply bind_run in Hr as [(e & He & ->) | (h2 & u3 & Hn & Hr)].
  { apply rename_ran in He as [Hw Hs]. by split; [| left]. }
  apply rename_ran in Hn as [Hw Hs]. cbn in Hs. rewrite Hu in Hs. cbn in Hs.
  assert (preserves quiet (call ;; call)) as Hlast by preserved. destruct (Hlast _ _ _ Hr) as [Hw' Hs'].
  split; [by rewrite Hw' |]. assert (written s h') by (eexists; rewrite Hs'; exact Hs). destruct r; [by right | done].
Qed.

Lemma write_store_path_run s h h' r : write_store_path s h = (h', r) -> stored s h h' r.
Proof.
  assert (forall h1 e, quiet h h1 -> stored s h h1 (inl e)) as Hearly by (intros h1 e [Hw Hs]; split; [done | by left]).
  intros Hr. unfold write_store_path in Hr. step Hr encoded He; [by apply Hearly |]. apply of_result_run in He as [-> He].
  assert (encoded = to_json s) as -> by (unfold encode_store in He; destruct (STORE_LIMIT <? _); [done | by injection He]).
  repeat (pass Hr; [by apply Hearly |]).
  match goal with Hq : quiet h ?hc, Hr : (try _ ≫= _) ?hc = _ |- _ => apply (stored_quiet _ _ hc); [exact Hq |] end.
  apply bind_run in Hr as [(e1 & He1 & _) | (h10 & a & Ht & Hr)].
  { by apply try_run in He1 as [(? & _ & [=]) | (? & _ & [=])]. }
  apply try_run in Ht as [([] & Ht & [= ->]) | (e1 & Ht & [= ->])]; apply replace_ran in Ht as [Hw Hs].
  - by injection Hr as <- <-.
  - assert (quiet h10 h') as [Hw' Hs'] by (revert Hr; apply preserves_bind; [exact _ | preserved | preserved]).
    split; [congruence |]. unfold written. rewrite Hs'.
    apply bind_run in Hr as [(e2 & _ & ->) | (h11 & x9 & _ & Hr)]; [done |]. by injection Hr as _ <-.
Qed.

Lemma write_store_run i s h h' r : write_store i s h = (h', r) -> stored s h h' r.
Proof.
  intros Hr. unfold write_store in Hr. pass Hr; [by destruct Hq; split; [| left] |].
  apply stored_quiet with h0; [done |]. by apply write_store_path_run.
Qed.

Lemma metadata_written s h : store_ok s -> written s h -> metadata_of h = Ok s.
Proof. intros Hs (m & Hm). unfold metadata_of. rewrite Hm. by apply decode_written. Qed.

(** ** Listings *)

Implicit Types w : W.

Lemma listed_lines w : Forall (fun p => word p.1 /\ Forall word p.2) (live w).
Proof.
  eapply Forall_impl; [apply listed_words |]. intros [k rs] (Hk & _ & Hrs). apply key_word in Hk as [Hk _]. split; [done |].
  eapply Forall_impl; [exact Hrs |]. by intros r [? _].
Qed.

Lemma split_plain r : contains_byte ","%char r = false -> split ","%char r = [r].
Proof.
  intros Hr. unfold split. rewrite split_bytes_none; [cbn; by rewrite str_chars |].
  apply Forall_forall. intros a Ha. unfold contains_byte in Hr. destruct (eqb_ascii a ","%char) eqn:E; [| done].
  apply bool_decide_eq_true in E as ->. assert (existsb (eqb_ascii ","%char) (chars r) = true); [| congruence].
  apply existsb_exists. exists ","%char. split; [by apply list_elem_of_In | by apply bool_decide_eq_true].
Qed.

Lemma shown_plain rs : Forall route_word rs -> shown rs ≫= split ","%char = shown rs.
Proof.
  intros Hrs. destruct rs as [| r rs]; [done |]. cbn [shown]. induction Hrs as [| x l [_ Hx] Hl IH]; [done |].
  cbn [mbind list_bind]. rewrite split_plain by done. cbn. by f_equal.
Qed.

(** The lines of a listing as the program takes them apart. *)
Lemma listed_fields w : omap peer_fields (lines (allowed_text (live w))) = (fun p => (p.1, shown p.2)) <$> live w.
Proof.
  pose proof (lines_allowed (live w) (listed_lines w)) as Hl. revert Hl.
  generalize (lines (allowed_text (live w))) as ls. pose proof (listed_words w) as Hw.
  induction Hw as [| [k rs] ps (Hk & _ & Hrs) Hps IH]; intros [| l ls] Hl; cbn in Hl; [done.. |].
  injection Hl as Hl Hls. cbn. unfold peer_fields at 1. rewrite Hl. cbn. rewrite shown_plain by done.
  f_equal. by apply IH.
Qed.

Lemma access_live w k s : access w !! k = Some s <-> exists rs, (k, rs) ∈ live w /\ s = list_to_set rs.
Proof.
  unfold access. rewrite lookup_fmap, fmap_Some. split; intros (rs & Hrs & ->); exists rs; (split; [| done]).
  - by apply elem_of_list_to_map_2.
  - apply elem_of_list_to_map_1; [apply listed_once | done].
Qed.

Lemma none_no_net : net_parse (net := net) "(none)" = None.
Proof. destruct (net_parse _) as [n |] eqn:E; [| done]. by apply net_parse_dotted in E. Qed.

Lemma key_no_net k : validate_peer_key k = Ok tt -> net_parse (net := net) k = None.
Proof.
  intros (_ & Hdot & _)%key_word. destruct (net_parse k) as [n |] eqn:E; [| done]. apply net_parse_dotted in E. congruence.
Qed.

(** The networks of a peer's fields are those of its routes. *)
Lemma networks_shown rs : Forall route_word rs -> networks (net := net) (shown rs) = omap net_parse rs.
Proof.
  intros Hrs. unfold networks. rewrite shown_plain by done. destruct rs as [| r rs]; [| done]. cbn. by rewrite none_no_net.
Qed.

Lemma no_conflict w k (routes : list net) k' rs n :
  routes_conflict (allowed_text (live w)) k routes = false -> (k', rs) ∈ live w -> k' <> k -> n ∈ omap (M := list) (net_parse (net := net)) rs ->
  overlaps routes n = false.
Proof.
  intros Hc Hin Hne Hn. apply not_true_is_false. intros Ho. apply not_true_iff_false in Hc. apply Hc. clear Hc.
  unfold routes_conflict. pose proof (lines_allowed (live w) (listed_lines w)) as Hl.
  apply (list_elem_of_fmap_2 (fun p => p.1 :: shown p.2)) in Hin as Hin'. rewrite <- Hl in Hin'.
  apply list_elem_of_fmap in Hin' as (line & Heq & Hline). apply existsb_exists. exists line.
  split; [by apply list_elem_of_In |]. rewrite <- Heq. cbn. rewrite bool_decide_false by done. cbn.
  pose proof (proj1 (Forall_forall _ _) (listed_words w) _ Hin) as (_ & _ & Hrs). cbn in Hrs.
  rewrite networks_shown by done. apply existsb_exists. exists n. split; [by apply list_elem_of_In | done].
Qed.

(** Nobody else has one of these routes. *)
Definition free (a : gmap string (gset string)) (k : string) (rs : gset string) : Prop :=
  forall k' s, k' <> k -> a !! k' = Some s -> s ## rs.

Lemma overlaps_self (routes : list net) n : n ∈ routes -> overlaps routes n = true.
Proof.
  intros Hn. apply existsb_exists. exists n. split; [by apply list_elem_of_In |]. apply orb_true_iff. left.
  apply contains_ip_spec. pose proof (network_le_broadcast n). lia.
Qed.

Lemma conflict_free w k (routes : list net) :
  routes_conflict (allowed_text (live w)) k routes = false -> free (access w) k (list_to_set (net_show <$> routes)).
Proof.
  intros Hc k' s Hne (rs & Hin & ->)%access_live. apply elem_of_disjoint.
  intros x Hx (n & -> & Hn)%elem_of_list_to_set%list_elem_of_fmap. apply elem_of_list_to_set in Hx.
  assert (overlaps routes n = false); [| by rewrite overlaps_self in *].
  eapply no_conflict; [exact Hc | exact Hin | done |]. apply list_elem_of_omap. exists (net_show n). split; [done | apply parse_net_show].
Qed.

(** ** Changes of the interface *)

Lemma iface_change_run failed f h h' r : change failed f h = (h', r) ->
  store_file h' = store_file h /\ exists n, wg h' = match r with inr _ => f (wg h) | inl _ => failed n (wg h) end.
Proof. unfold change. destruct (os (tick h)); intros [= <- <-]; (split; [done | by exists (tick h)]). Qed.

Lemma save_run h h' r : save h = (h', r) ->
  store_file h' = store_file h /\ access (wg h') = access (wg h) /\ match r with inr _ => boot (wg h') = access (wg h) | inl _ => True end.
Proof.
  intros (Hs & n & Hw)%iface_change_run. rewrite Hw. destruct r; [by rewrite access_torn_save |]. by rewrite access_save, boot_save.
Qed.

(** A change that is saved for the next boot. *)
Lemma change_saved f h h' r : (command f ;; save) h = (h', r) ->
  store_file h' = store_file h /\ match r with inr _ => wg h' = wg_save (f (wg h)) | inl _ => True end.
Proof.
  intros [(e & He & ->) | (h1 & u & Hf & Hs)]%bind_run; [by apply iface_change_run in He as [? _] |].
  apply iface_change_run in Hf as (Hs1 & n & Hf). unfold save in Hs. apply iface_change_run in Hs as (Hs2 & m & Hs). split; [congruence |].
  destruct r; [done |]. congruence.
Qed.

Lemma transact_run {A} (action : M A) rollback failed h h' r :
  transact action rollback failed h = (h', r) ->
  (exists x, r = inr x /\ action h = (h', inr x)) \/
  exists h1 e, action h = (h1, inl e) /\
    ((r = inl e /\ exists u, rollback h1 = (h', inr u)) \/ (exists e2, r = inl (failed e e2) /\ rollback h1 = (h', inl e2))).
Proof.
  unfold transact. intros [(e & He & _) | (h1 & a & Ht & Hr)]%bind_run.
  { by apply try_run in He as [(? & _ & [=]) | (? & _ & [=])]. }
  apply try_run in Ht as [(x & Ht & [= ->]) | (e & Ht & [= ->])].
  { left. injection Hr as <- <-. by exists x. }
  right. exists h1, e. split; [done |]. apply bind_run in Hr as [(e2 & He2 & _) | (h2 & b & Ht2 & Hr)].
  { by apply try_run in He2 as [(? & _ & [=]) | (? & _ & [=])]. }
  apply try_run in Ht2 as [(x & Ht2 & [= ->]) | (e2 & Ht2 & [= ->])]; injection Hr as <- <-; eauto.
Qed.

(** Rolled back, the peers are those that were listed, and the next boot has them too. *)
Definition restored w h : Prop := access (wg h) = access w /\ boot (wg h) = access w.

Lemma restore_run w h h' r : restore_peers (wg_showconf w) h = (h', r) ->
  store_file h' = store_file h /\ match r with inr _ => restored w h' | inl _ => True end.
Proof.
  intros [Hs Hr]%change_saved. split; [done |]. destruct r; [done |]. split; rewrite Hr.
  - by rewrite access_save, access_restored.
  - by rewrite boot_save, access_restored.
Qed.

(** Rolled back with the metadata. *)
Lemma restore_store_run w i s h h' r : (restore_peers (wg_showconf w) ;; write_store i s) h = (h', r) ->
  (store_file h' = store_file h \/ written s h') /\ match r with inr _ => restored w h' /\ written s h' | inl _ => True end.
Proof.
  intros [(e & He & ->) | (h1 & u & Hr & Hw)]%bind_run; [by apply restore_run in He as [? _]; split; [left |] |].
  apply restore_run in Hr as [Hs Hr]. apply write_store_run in Hw as [Hg Hw]. split.
  - destruct r; [| by right]. rewrite <- Hs. destruct Hw; [by left | by right].
  - destruct r; [done |]. split; [| done]. unfold restored in *. by rewrite Hg.
Qed.

(** ** The registry *)

(** Who may connect now and after a boot, the friends with their names and private keys, the router owners. *)
Record registry := Registry {
  g_access : gmap string (gset string);
  g_boot : gmap string (gset string);
  g_friends : gmap string (string * option string);
  g_owners : gset string;
}.

Definition friends_of (s : friend_store) : gmap string (string * option string) :=
  list_to_map ((fun r => (fr_public_key r, (fr_name r, fr_private_key r))) <$> fs_records s).

Definition registry_of h (s : friend_store) : registry :=
  Registry (access (wg h)) (boot (wg h)) (friends_of s) (owner_keys s).

Definition represents h (g : registry) : Prop := exists s, metadata_of h = Ok s /\ store_ok s /\ g = registry_of h s.

Inductive operation :=
| OpAddPeer (public_key tunnel_ip : string)
| OpCreate (endpoint name : string)
| OpRename (public_key name : string)
| OpRevoke (public_key : string)
| OpAddRouter (public_key tunnel_ip : string)
| OpRemoveRouter (public_key : string)
| OpRemovePeer (public_key : string).

Definition run_operation (interface : string) (op : operation) : M string :=
  match op with
  | OpAddPeer k ip => add_peer (net := net) k ip ;; mret ""%string
  | OpCreate endpoint name => create (net := net) interface endpoint name
  | OpRename k name => rename (net := net) interface k name ;; mret ""%string
  | OpRevoke k => revoke (net := net) interface k ;; mret ""%string
  | OpAddRouter k ip => add_router_peer (net := net) interface k ip ;; mret ""%string
  | OpRemoveRouter k => remove_router_peer interface k ;; mret ""%string
  | OpRemovePeer k => remove_peer k ;; mret ""%string
  end.

(** All but the removal of a peer without its subnet, which has no rollback. *)
Definition rolls_back (op : operation) : bool := match op with OpRemovePeer _ => false | _ => true end.

(** A peer that gets routes nobody else has, now and after a boot. *)
Definition grant (k : string) (rs : gset string) (g : registry) (friends : gmap string (string * option string)) (owners : gset string) : registry :=
  Registry (<[k := rs]> (g_access g)) (<[k := rs]> (g_access g)) friends owners.

Definition withdraw (k : string) (g : registry) (friends : gmap string (string * option string)) : registry :=
  Registry (delete k (g_access g)) (delete k (g_access g)) friends (g_owners g).

(** No connected friend goes by this name. *)
Definition name_free (g : registry) (except : option string) (name : string) : Prop :=
  forall k ip n p, g_access g !! k = Some {[net_show (net := net) ip]} -> validate_tunnel_ip (net_show ip) = Ok ip ->
    k ∉ g_owners g -> Some k <> except -> g_friends g !! k = Some (n, p) -> to_lowercase n <> to_lowercase name.

(** What the operations do when they succeed. *)
Inductive commits : operation -> registry -> registry -> Prop :=
| commit_add_peer g k ip n :
    validate_tunnel_ip ip = Ok n -> free (g_access g) k {[net_show (net := net) n]} ->
    commits (OpAddPeer k ip) g (grant k {[net_show n]} g (g_friends g) (g_owners g))
| commit_create g endpoint name k private_key n :
    validate_tunnel_ip (net_show n) = Ok n -> free (g_access g) k {[net_show (net := net) n]} -> name_free g None name ->
    g_friends g !! k = None -> k ∉ g_owners g ->
    commits (OpCreate endpoint name) g (grant k {[net_show n]} g (<[k := (name, Some private_key)]> (g_friends g)) (g_owners g))
| commit_rename g k name s :
    g_access g !! k = Some s -> k ∉ g_owners g -> name_free g (Some k) name ->
    commits (OpRename k name) g
      (Registry (g_access g) (g_boot g) (<[k := (name, g_friends g !! k ≫= snd)]> (g_friends g)) (g_owners g))
| commit_revoke_known g k f :
    k ∉ g_owners g -> g_friends g !! k = Some f -> commits (OpRevoke k) g (withdraw k g (g_friends g))
| commit_revoke_unknown g k r n :
    k ∉ g_owners g -> g_friends g !! k = None -> g_access g !! k = Some {[r]} -> validate_tunnel_ip r = Ok n ->
    commits (OpRevoke k) g (withdraw k g (<[k := (net_show (net := net) n, None)]> (g_friends g)))
| commit_add_router g k ip n (routes : list net) :
    validate_tunnel_ip ip = Ok n -> (routes = [n] \/ exists alias, alias_of n = Ok alias /\ routes = [n; alias]) ->
    free (g_access g) k (list_to_set (net_show <$> routes)) -> g_friends g !! k = None ->
    (k ∈ g_owners g \/ g_access g !! k = None) ->
    commits (OpAddRouter k ip) g (grant k (list_to_set (net_show <$> routes)) g (g_friends g) ({[k]} ∪ g_owners g))
| commit_remove_router g k :
    k ∈ g_owners g -> commits (OpRemoveRouter k) g (withdraw k g (g_friends g))
| commit_remove_peer g k : commits (OpRemovePeer k) g (withdraw k g (g_friends g)).

(** The metadata is as before or as the operation means it to be. *)
Definition metadata_kept (op : operation) (g g' : registry) : Prop :=
  (g_friends g' = g_friends g /\ g_owners g' = g_owners g) \/
  exists g2, commits op g g2 /\ g_friends g' = g_friends g2 /\ g_owners g' = g_owners g2.

(** A rollback that failed says so. *)
Definition broken (e : error) : Prop := exists what e1 e2, e = rollback_failed what e1 e2.

(** Only the file for the next boot is written. *)
Definition revoked_again (op : operation) (g : registry) : Prop := exists k, op = OpRevoke k /\ g_access g !! k = None.

Definition outcome {A} (op : operation) (g g' : registry) (r : error + A) : Prop :=
  match r with
  | inr _ => commits op g g'
  | inl e => metadata_kept op g g' /\
             (rolls_back op = true ->
               (g_access g' = g_access g /\ (g_boot g' = g_boot g \/ g_boot g' = g_access g \/ revoked_again op g)) \/ broken e)
  end.

Lemma metadata_same h h' : store_file h' = store_file h -> metadata_of h' = metadata_of h.
Proof. intros Hs. unfold metadata_of. by rewrite Hs. Qed.

(** From what an operation wrote and left of the interface to its outcome. *)
Lemma finish {A} op h s s2 g2 h' (r : error + A) :
  metadata_of h = Ok s -> store_ok s -> store_ok s2 ->
  commits op (registry_of h s) g2 -> g_friends g2 = friends_of s2 -> g_owners g2 = owner_keys s2 ->
  (store_file h' = store_file h \/ written s h' \/ written s2 h') ->
  match r with
  | inr _ => access (wg h') = g_access g2 /\ boot (wg h') = g_boot g2 /\ metadata_of h' = Ok s2
  | inl e => (wg h' = wg h \/ restored (wg h) h') \/ broken e
  end ->
  exists g', represents h' g' /\ outcome op (registry_of h s) g' r.
Proof.
  intros Hm Hs Hs2 Hc Hf Ho Hstore Hr. destruct r as [e | x].
  - assert (exists s', metadata_of h' = Ok s' /\ (s' = s \/ s' = s2)) as (s' & Hm' & Hs').
    { destruct Hstore as [Hst | [Hst | Hst]]; [exists s; split; [by rewrite (metadata_same h) | by left] | exists s | exists s2];
        (split; [by apply metadata_written | tauto]). }
    exists (registry_of h' s'). split; [by exists s'; split_and!; [done | destruct Hs' as [-> | ->] |] |]. split.
    + destruct Hs' as [-> | ->]; [by left | right]. by exists g2.
    + intros _. destruct Hr as [[Hw | [Ha Hb]] | Hb]; [left | left | by right]; cbn; [rewrite Hw; tauto | tauto].
  - destruct Hr as (Ha & Hb & Hm'). exists g2. split; [| done]. exists s2. split_and!; [done | done |].
    destruct g2. unfold registry_of. cbn in *. congruence.
Qed.

Lemma early {A} op h s h' e :
  metadata_of h = Ok s -> store_ok s -> quiet h h' ->
  exists g', represents h' g' /\ outcome (A := A) op (registry_of h s) g' (inl e).
Proof.
  intros Hm Hs Hq. exists (registry_of h s). split.
  - exists s. split_and!; [by rewrite (metadata_quiet h) | done |]. unfold registry_of. by rewrite (q_wg _ _ Hq).
  - split; [by left | intros _; left]. tauto.
Qed.

(** ** The ends of the operations *)

Lemma tail_plain what w f h h' r : wg h = w ->
  transact (command f ;; save) (restore_peers (wg_showconf w)) (rollback_failed what) h = (h', r) ->
  store_file h' = store_file h /\
  match r with inr _ => wg h' = wg_save (f w) | inl e => restored w h' \/ broken e end.
Proof.
  intros Hw [(x & -> & Ha) | (h1 & e & Ha & Hr)]%transact_run; apply change_saved in Ha as [Hs Ha].
  { split; [done |]. by rewrite Ha, Hw. }
  destruct Hr as [(-> & u & Hr) | (e2 & -> & Hr)]; apply restore_run in Hr as [Hs2 Hr]; (split; [congruence |]).
  - by left.
  - right. unfold broken. eauto.
Qed.

Lemma tail_with_store what w i s s2 f h h' r : wg h = w ->
  (write_store i s2 ;; transact (command f ;; save) (restore_peers (wg_showconf w) ;; write_store i s) (rollback_failed what)) h = (h', r) ->
  (store_file h' = store_file h \/ written s h' \/ written s2 h') /\
  match r with inr _ => wg h' = wg_save (f w) /\ written s2 h' | inl e => (wg h' = w \/ restored w h') \/ broken e end.
Proof.
  intros Hw [(e & He & ->) | (h1 & u & Hs2 & Hr)]%bind_run.
  { apply write_store_run in He as [Hg He]. split; [tauto |]. left. left. congruence. }
  apply write_store_run in Hs2 as [Hg Hs2]. apply transact_run in Hr as [(x & -> & Ha) | (h2 & e & Ha & Hr)];
    apply change_saved in Ha as [Hs Ha].
  { assert (written s2 h') by (unfold written in *; by rewrite Hs). split; [tauto |]. split; [| done]. by rewrite Ha, Hg, Hw. }
  assert (written s2 h2) as Hw2 by (unfold written in *; by rewrite Hs).
  assert (forall h3, store_file h3 = store_file h2 -> written s2 h3) as Hsame by (intros h3 H3; unfold written in *; by rewrite H3).
  destruct Hr as [(-> & v & Hr) | (e2 & -> & Hr)]; apply restore_store_run in Hr as [Hst Hr]; (split; [naive_solver |]).
  - left. right. apply Hr.
  - right. unfold broken. eauto.
Qed.

(** ** What the operations look at *)

Lemma bind_load {B} i (k : friend_store -> M B) h h' s r :
  metadata_of h = Ok s -> store_ok s -> (load_store (net := net) i ≫= k) h = (h', r) ->
  (exists e, r = inl e /\ quiet h h') \/ exists h1, quiet h h1 /\ k s h1 = (h', r).
Proof.
  intros Hm Hs [(e & He & ->) | (h1 & s' & Hl & Hk)]%bind_run; unfold load_store in *.
  - left. exists e. split; [done |]. apply bind_quiet in He as [(e' & _ & Hq) | (s1 & h2 & Hr & Hq & He)]; [done | | preserved].
    apply read_store_metadata in Hr. assert (s1 = s) as -> by congruence. rewrite (so_schema _ Hs) in He. cbn in He. discriminate He.
  - right. apply bind_quiet in Hl as [(e' & [=] & _) | (s1 & h2 & Hr & Hq & He)]; [| preserved].
    apply read_store_metadata in Hr. assert (s1 = s) as -> by congruence. rewrite (so_schema _ Hs) in He. cbn in He.
    injection He as <- <-. by exists h2.
Qed.

Lemma foldl_insert_map {A B} (f : string -> A -> B) (l : list (string * A)) : forall (m : gmap string B) k,
  NoDup l.*1 ->
  foldl (fun m '(k, x) => <[k := f k x]> m) m l !! k =
    match (list_to_map l : gmap string A) !! k with Some x => Some (f k x) | None => m !! k end.
Proof.
  induction l as [| [k0 x] l IH]; intros m k Hnd; cbn; [by rewrite lookup_empty |].
  inversion Hnd as [| ? ? Hni Hnd']; subst. rewrite IH by done. destruct (decide (k0 = k)) as [-> | Hne].
  - rewrite lookup_insert_eq, (not_elem_of_list_to_map_1 l k) by done. by rewrite lookup_insert_eq.
  - rewrite !lookup_insert_ne by done. done.
Qed.

(** The kind of a peer, as its routes tell. *)
Lemma classify_live w owners k :
  classify (net := net) owners (allowed_text (live w)) !! k =
    (fun rs => if bool_decide (k ∈ owners) then Owner else classify_friend (net := net) (shown rs)) <$> (list_to_map (live w) : gmap _ _) !! k.
Proof.
  unfold classify. rewrite listed_fields.
  rewrite (foldl_insert_map (fun k routes => if bool_decide (k ∈ owners) then Owner else classify_friend routes)).
  - assert ((list_to_map ((fun p => (p.1, shown p.2)) <$> live w) : gmap string (list string)) = shown <$> list_to_map (live w)) as ->.
    { by rewrite <- list_to_map_fmap. }
    rewrite lookup_fmap. destruct (_ !! k); [done | by rewrite lookup_empty].
  - rewrite <- list_fmap_compose. apply listed_once.
Qed.

Lemma classify_none w owners k : classify (net := net) owners (allowed_text (live w)) !! k = None <-> access w !! k = None.
Proof. rewrite classify_live. unfold access. rewrite lookup_fmap, !fmap_None. done. Qed.

(** Friends have one tunnel address. *)
Lemma classify_friend_routes rs ip : classify_friend (net := net) (shown rs) = Friend ip ->
  exists n r, rs = [r] /\ validate_tunnel_ip r = Ok n /\ net_parse (net := net) r = Some n /\ ip = net_show n.
Proof.
  unfold classify_friend. destruct (shown rs) as [| r [| r2 l]] eqn:E; [done | | done].
  destruct (validate_tunnel_ip r) as [n |] eqn:Hv; [| done]. intros [= <-].
  assert (net_parse (net := net) r = Some n) as Hp.
  { unfold validate_tunnel_ip in Hv. apply bind_ok in Hv as (m & Hm%ok_or_ok & Hv). rewrite Hm. f_equal.
    destruct (octets (addr m)) as [[[a b] c] d]. destruct (_ || _); [done |]. by injection Hv. }
  exists n, r. split_and!; [| done..]. destruct rs as [| r0 rs]; cbn in E; [| done].
  injection E as <-. by rewrite none_no_net in Hp.
Qed.

Lemma tunnel_shown n r : validate_tunnel_ip (net := net) r = Ok n -> validate_tunnel_ip (net_show n) = Ok n.
Proof.
  unfold validate_tunnel_ip. intros (m & Hm%ok_or_ok & Hv)%bind_ok.
  destruct (octets (addr m)) as [[[a b] c] d] eqn:E. destruct (_ || _) eqn:Eb; [done |]. injection Hv as <-.
  rewrite parse_net_show. cbn [ok_or mbind result_bind]. by rewrite E, Eb.
Qed.

Lemma is_owner_spec s k : is_owner s k = true <-> k ∈ owner_keys s.
Proof.
  unfold is_owner, owner_keys. rewrite existsb_exists, elem_of_list_to_set. split.
  - intros (x & Hx & Hk%bool_decide_eq_true). subst. by apply list_elem_of_In.
  - intros Hk. exists k. split; [by apply list_elem_of_In | by apply bool_decide_eq_true].
Qed.


(** ** Changes of the metadata *)

Lemma friends_lookup s k : friends_of s !! k = (fun r => (fr_name r, fr_private_key r)) <$> find_record s k.
Proof.
  unfold friends_of, find_record. induction (fs_records s) as [| r rs IH]; [done |]. cbn. case_bool_decide as Hk.
  - by rewrite Hk, lookup_insert_eq.
  - rewrite lookup_insert_ne by done. exact IH.
Qed.

Lemma find_record_none s k : find_record s k = None <-> k ∉ fr_public_key <$> fs_records s.
Proof.
  unfold find_record. rewrite find_first_None. split.
  - intros Hf (r & -> & Hr)%list_elem_of_fmap. by apply Hf, bool_decide_eq_false in Hr.
  - intros Hk r Hr. apply bool_decide_eq_false. intros <-. apply Hk. by apply list_elem_of_fmap_2.
Qed.

Lemma friends_none s k : friends_of s !! k = None <-> k ∉ fr_public_key <$> fs_records s.
Proof. by rewrite friends_lookup, fmap_None, find_record_none. Qed.

Lemma has_record_spec s k : has_record s k = true <-> k ∈ fr_public_key <$> fs_records s.
Proof.
  unfold has_record. rewrite existsb_exists. split.
  - intros (r & Hr & Hk%bool_decide_eq_true). subst. apply list_elem_of_fmap_2. by apply list_elem_of_In.
  - intros (r & -> & Hr)%list_elem_of_fmap. exists r. split; [by apply list_elem_of_In | by apply bool_decide_eq_true].
Qed.

Lemma has_record_false s k : has_record s k = false <-> friends_of s !! k = None.
Proof. rewrite friends_none. rewrite <- has_record_spec. by destruct (has_record s k). Qed.

Lemma friends_add s r : friends_of s !! fr_public_key r = None ->
  friends_of (add_record s r) = <[fr_public_key r := (fr_name r, fr_private_key r)]> (friends_of s).
Proof.
  intros Hk%friends_none. unfold friends_of, add_record. cbn. rewrite fmap_app. cbn. apply list_to_map_snoc.
  by rewrite <- list_fmap_compose.
Qed.

Lemma add_record_ok s r : store_ok s -> record_ok r -> fr_public_key r ∉ store_keys s -> store_ok (add_record s r).
Proof.
  intros [Hv Hr Ho Hk] Hnew Hout. split; cbn; [done | by apply Forall_app; split; [| constructor] | done |].
  unfold store_keys in *. cbn. rewrite fmap_app. cbn. rewrite <- app_assoc. cbn.
  apply NoDup_app in Hk as (Hk1 & Hk2 & Hk3). apply not_elem_of_app in Hout as [Hout1 Hout2].
  apply NoDup_app. split_and!; [done | | by constructor].
  intros x Hx [-> | Hxo]%elem_of_cons; [done | by apply (Hk2 x)].
Qed.

Lemma add_owner_ok s k : store_ok s -> validate_peer_key k = Ok tt -> k ∉ store_keys s -> store_ok (add_owner s k).
Proof.
  intros [Hv Hr Ho Hk] Hnew Hout. split; cbn; [done | done | by apply Forall_app; split; [| constructor] |].
  unfold store_keys in *. cbn. rewrite app_assoc. apply NoDup_app. split_and!; [done | | by apply NoDup_singleton].
  by intros x Hx ->%list_elem_of_singleton.
Qed.

Lemma owner_keys_add s k : owner_keys (add_owner s k) = {[k]} ∪ owner_keys s.
Proof. unfold owner_keys, add_owner. cbn. rewrite list_to_set_app_L. cbn. set_solver. Qed.

Lemma rename_records_keys k name rs :
  fr_public_key <$> rename_records k name rs = (fr_public_key <$> rs) ++ (if bool_decide (k ∈ fr_public_key <$> rs) then [] else [k]).
Proof.
  induction rs as [| r rs IH]; [done |]. cbn. destruct (decide (fr_public_key r = k)) as [Hk | Hk].
  - rewrite (bool_decide_true (_ = k)) by done. rewrite bool_decide_true by (rewrite Hk; apply elem_of_cons; by left). cbn. by rewrite app_nil_r.
  - rewrite (bool_decide_false (_ = k)) by done. cbn. rewrite IH. do 2 f_equal. erewrite bool_decide_ext; [done |]. cbn. rewrite elem_of_cons. naive_solver.
Qed.

Definition renamed (s : friend_store) (k name : string) : friend_store :=
  FriendStore (fs_schema s) (rename_records k name (fs_records s)) (fs_owners s).

Lemma friends_renamed s k name : friends_of (renamed s k name) = <[k := (name, friends_of s !! k ≫= snd)]> (friends_of s).
Proof.
  unfold friends_of, renamed. cbn [fs_records]. induction (fs_records s) as [| r rs IH]; [done |]. cbn. case_bool_decide as Hk.
  - cbn. subst. rewrite lookup_insert_eq. cbn. by rewrite insert_insert_eq.
  - cbn. rewrite IH, lookup_insert_ne by done. by rewrite insert_insert_ne.
Qed.

Lemma renamed_ok s k name : store_ok s -> validate_peer_key k = Ok tt -> is_ok (validate_name name) = true -> k ∉ fs_owners s ->
  store_ok (renamed s k name).
Proof.
  intros [Hv Hr Ho Hk] Hkey Hname Hout. split; cbn; [done | | done |].
  - clear Hk. induction Hr as [| r rs Hr Hrs IH]; cbn; [by repeat constructor |].
    case_bool_decide as Heq; constructor; [| done | done | done]. destruct Hr. by split.
  - unfold store_keys in *. cbn. rewrite rename_records_keys. case_bool_decide as Hin; [by rewrite app_nil_r |].
    rewrite <- app_assoc. cbn. apply NoDup_app in Hk as (Hk1 & Hk2 & Hk3). apply NoDup_app. split_and!; [done | | by constructor].
    intros x Hx [-> | Hxo]%elem_of_cons; [done | by apply (Hk2 x)].
Qed.

(** The names of the connected friends. *)
Lemma active_name_free h s except name :
  active_name s (classify (net := net) (owner_keys s) (allowed_text (live (wg h)))) except name = false ->
  name_free (registry_of h s) except name.
Proof.
  intros Ha k ip n p Hacc Hip Ho Hne Hf Heq. cbn in Hacc, Ho, Hf. apply not_true_iff_false in Ha. apply Ha. clear Ha.
  apply access_live in Hacc as (rs & Hin & Hrs). pose proof (proj1 (Forall_forall _ _) (listed_words (wg h)) _ Hin) as (_ & Hnd & _).
  assert (rs = [net_show ip]) as ->.
  { cbn in Hnd. destruct rs as [| a [| b rs]]; [set_solver | f_equal; set_solver |].
    assert (a = net_show ip /\ b = net_show ip) as [-> ->] by set_solver. apply NoDup_cons in Hnd as [Hnd _]. set_solver. }
  unfold active_name. apply existsb_exists. exists (k, Friend (net_show ip)). split.
  - apply list_elem_of_In, elem_of_map_to_list. rewrite classify_live, bool_decide_false by done.
    rewrite (elem_of_list_to_map_1 _ _ [net_show ip]) by (apply listed_once || done). cbn. by rewrite Hip.
  - rewrite bool_decide_false by done. cbn. apply bool_decide_eq_true. rewrite friends_lookup in Hf.
    destruct (find_record s k) as [r |]; [| done]. by injection Hf as -> _.
Qed.

(** ** Addresses *)

Lemma host_truncated (n : net) : prefix_len n = 32 -> truncated n.
Proof. intros Hp. unfold truncated. rewrite network_start, Hp. unfold block_start, block. cbn. by rewrite Z.div_1_r, Z.mul_1_r. Qed.

Lemma tunnel_prefix r n : validate_tunnel_ip (net := net) r = Ok n -> prefix_len n = 32.
Proof.
  unfold validate_tunnel_ip. intros (m & Hm & Hv)%bind_ok. destruct (octets (addr m)) as [[[a b] c] d].
  destruct (prefix_len m =? 32) eqn:Hp; cbn in Hv; [| done]. destruct (_ || _); [done |]. injection Hv as <-. by apply Z.eqb_eq.
Qed.

Lemma alias_prefix ip (alias : net) : alias_of ip = Ok alias -> prefix_len alias = 32.
Proof.
  unfold alias_of. intros (a & Ha%ok_or_ok & Hn%ok_or_ok)%bind_ok. unfold source_address in Ha.
  destruct (octets (addr ip)) as [[[x y] z] host]. destruct (_ && _) eqn:E in Ha; [| done]. injection Ha as <-.
  apply andb_true_iff in E as [_ [E1 E2]%andb_true_iff].
  destruct (new_some (net := net) (ipv4 10 202 1 host) 32) as (m & Hm & _ & Hp); [apply ipv4_range; unfold is_u; lia | lia | congruence].
Qed.

Lemma candidate_range host : 2 <= host <= 254 -> is_u 32 (candidate host).
Proof. intros. apply ipv4_range; unfold is_u; lia. Qed.

(** The network of one candidate passes the check. *)
Lemma candidate_network host : 2 <= host <= 254 ->
  exists n, net_new (net := net) (candidate host) 32 = Some n /\ addr n = candidate host /\ prefix_len n = 32 /\
    net_show n = show_ipv4 (candidate host) +:+ "/32" /\ validate_tunnel_ip (net_show n) = Ok n.
Proof.
  intros Hh. destruct (new_some (net := net) (candidate host) 32) as (n & Hn & Ha & Hp); [by apply candidate_range | lia |].
  exists n. split_and!; [done.. | by rewrite net_show_text, Ha, Hp |].
  unfold validate_tunnel_ip. rewrite parse_net_show. cbn [ok_or mbind result_bind]. rewrite Ha, Hp. unfold candidate.
  rewrite octets_ipv4 by (unfold is_u; lia). cbn. destruct ((2 <=? host) && (host <=? 254)) eqn:E; [done |].
  apply andb_false_iff in E as [E%Z.leb_gt | E%Z.leb_gt]; lia.
Qed.

(** The address lies in a network some peer has. *)
Definition taken w (ip : Z) : Prop :=
  exists k rs r m, (k, rs) ∈ live w /\ r ∈ rs /\ net_parse (net := net) r = Some m /\ covers m ip.

Lemma networks_taken w ip :
  existsb (fun n => contains_ip n ip) (networks (net := net) (split_whitespace (allowed_text (live w)))) = true <-> taken w ip.
Proof.
  rewrite existsb_exists, words_allowed by apply listed_lines. unfold taken, networks. split.
  - intros (m & Hm%list_elem_of_In & Hc%covers_contains). apply list_elem_of_omap in Hm as (r & Hr & Hp).
    apply list_elem_of_bind in Hr as (f & Hr & Hf). apply list_elem_of_bind in Hf as ([k rs] & Hf & Hin).
    pose proof (proj1 (Forall_forall _ _) (listed_words w) _ Hin) as (Hk & _ & Hrs). cbn in *.
    apply elem_of_cons in Hf as [-> | Hf].
    + apply key_word in Hk as Hk'. rewrite split_plain in Hr by apply Hk'. apply list_elem_of_singleton in Hr as ->.
      by rewrite key_no_net in Hp.
    + exists k, rs, r, m. split_and!; [done | | done | done].
      assert (r ∈ shown rs) as Hs by (rewrite <- (shown_plain rs) by done; apply list_elem_of_bind; by exists f).
      destruct rs; [| done]. apply list_elem_of_singleton in Hs as ->. by rewrite none_no_net in Hp.
  - intros (k & rs & r & m & Hin & Hr & Hp & Hc%covers_contains). exists m. split; [| done].
    pose proof (proj1 (Forall_forall _ _) (listed_words w) _ Hin) as (_ & _ & Hrs). cbn in Hrs.
    apply list_elem_of_In, list_elem_of_omap. exists r. split; [| done]. apply list_elem_of_bind. exists r. split.
    + rewrite split_plain by apply (proj1 (Forall_forall _ _) Hrs _ Hr). by left.
    + apply list_elem_of_bind. exists (k, rs). split; [| done]. cbn. right. destruct rs; [by apply not_elem_of_nil in Hr | done].
Qed.

Lemma allocate_address_ok w n : allocate_tunnel_ip (allowed_text (live w)) = Ok n ->
  exists host, 2 <= host <= 254 /\ addr n = candidate host /\ prefix_len n = 32 /\ validate_tunnel_ip (net_show n) = Ok n /\
    ~ taken w (candidate host) /\ forall lower, 2 <= lower < host -> taken w (candidate lower).
Proof.
  unfold allocate_tunnel_ip. cbv zeta. destruct (find_first _ _) as [ip |] eqn:Hf; [| done]. intros Hv.
  apply find_first_Some in Hf as (i & Hi & Hp%negb_true_iff & Hlow).
  rewrite list_lookup_fmap, fmap_Some in Hi. destruct Hi as (host & Hi%lookup_seqZ & ->). destruct Hi as [-> Hi].
  destruct (candidate_network (2 + Z.of_nat i)) as (m & Hm & Ha & Hl & Ht & Hok); [lia |].
  rewrite <- Ht, Hok in Hv. injection Hv as <-. exists (2 + Z.of_nat i). split_and!; [lia.. | done | done | done | |].
  - intros Htk%networks_taken. congruence.
  - intros lower Hlo. apply networks_taken, negb_false_iff. apply (Hlow (Z.to_nat (lower - 2))); [lia |].
    rewrite list_lookup_fmap, lookup_seqZ_lt by lia. cbn. f_equal. f_equal. lia.
Qed.

Lemma allocate_err w e : allocate_tunnel_ip (net := net) (allowed_text (live w)) = Err e ->
  forall host, 2 <= host <= 254 -> taken w (candidate host).
Proof.
  unfold allocate_tunnel_ip. cbv zeta. destruct (find_first _ _) as [ip |] eqn:Hf.
  { apply find_first_Some in Hf as (i & Hi & _ & _). rewrite list_lookup_fmap, fmap_Some in Hi.
    destruct Hi as (host & Hi%lookup_seqZ & ->). destruct Hi as [-> Hi].
    destruct (candidate_network (2 + Z.of_nat i)) as (m & _ & _ & _ & Ht & Hok); [lia |]. by rewrite <- Ht, Hok. }
  intros _ host Hh. apply networks_taken, negb_false_iff.
  rewrite find_first_None in Hf. apply Hf. apply list_elem_of_fmap_2. apply elem_of_seqZ. lia.
Qed.

Lemma allocate_free w n k : allocate_tunnel_ip (allowed_text (live w)) = Ok n -> free (access w) k {[net_show n]}.
Proof.
  intros (host & Hh & Ha & Hp & _ & Hnot & _)%allocate_address_ok k' s _ (rs & Hin & ->)%access_live.
  apply disjoint_singleton_r. intros Hr%elem_of_list_to_set. apply Hnot. exists k', rs, (net_show n), n.
  split_and!; [done | done | apply parse_net_show |]. unfold covers. rewrite broadcast_end, <- Ha.
  rewrite (host_truncated n Hp). rewrite Hp. unfold block. cbn. lia.
Qed.

Lemma grant_access a k (rs : gset string) : free a k rs -> <[k := rs]> ((fun s => s ∖ rs) <$> a) = <[k := rs]> a.
Proof.
  intros Hf. apply map_eq. intros k'. destruct (decide (k = k')) as [-> | Hne]; [by rewrite !lookup_insert_eq |].
  rewrite !lookup_insert_ne, lookup_fmap by done. destruct (a !! k') as [s |] eqn:E; [| done]. cbn. f_equal.
  assert (s ## rs) by (by eapply Hf). set_solver.
Qed.

(** ** The operations *)

Lemma set_saved k (routes : list net) w :
  validate_peer_key k = Ok tt -> routes <> [] -> Forall truncated routes ->
  let rs : gset string := list_to_set (net_show <$> routes) in
  free (access w) k rs ->
  let w' := wg_save (wg_set k (join "," (net_show <$> routes)) w) in
  access w' = <[k := rs]> (access w) /\ boot w' = <[k := rs]> (access w).
Proof. intros Hk Hne Ht rs Hf w'. unfold w'. rewrite access_save, boot_save, access_set by done. by rewrite grant_access. Qed.

Lemma remove_saved k w : access (wg_save (wg_remove k w)) = delete k (access w) /\ boot (wg_save (wg_remove k w)) = delete k (access w).
Proof. by rewrite access_save, boot_save, access_remove. Qed.

Lemma genkey_ran h h' k : genkey h = (h', inr k) -> exists n, k = trim (wg_genkey n).
Proof.
  intros Hr. unfold genkey in Hr. pass Hr. apply fmap_run in Hr as (out & Hr & ->). apply run_out in Hr; [| done]. subst. eauto.
Qed.

Lemma pubkey_ran k h h' out : pubkey k h = (h', inr out) -> wg_pubkey k = Some out.
Proof.
  unfold pubkey. destruct (wg_pubkey k) as [o |]; intros Hr; [by apply run_out in Hr as -> |]. pass Hr. done.
Qed.

(** The generator of keys does not repeat a key of the metadata. *)
Definition fresh_keys (g : registry) : Prop :=
  forall n out, wg_pubkey (trim (wg_genkey n)) = Some out -> g_friends g !! trim out = None /\ trim out ∉ g_owners g.

Lemma showconf_run h h' text : run (fun h => wg_showconf (wg h)) h = (h', inr text) -> text = wg_showconf (wg h).
Proof. intros Hr. apply run_out in Hr; [done |]. by intros h1 [-> _]. Qed.

Lemma ensure_run k (routes : list net) h h' u : ensure_routes_available k routes h = (h', inr u) ->
  free (access (wg h)) k (list_to_set (net_show <$> routes)).
Proof.
  intros Hr. unfold ensure_routes_available in Hr. step Hr text Ht. apply assigned_text in Ht as ->.
  apply require_ok in Hr as [Hc%negb_true_iff _]. by apply conflict_free.
Qed.

Lemma peers_ran owners h h' active : peers (net := net) owners h = (h', inr active) -> active = classify (net := net) owners (allowed_text (live (wg h))).
Proof. intros Hr. unfold peers in Hr. step Hr text Ht. apply assigned_text in Ht as ->. by injection Hr as _ <-. Qed.

Lemma singleton_routes (n : net) : (list_to_set (net_show <$> [n]) : gset string) = {[net_show n]}.
Proof. cbn. set_solver. Qed.

Lemma validated_key k u h h' : of_result (validate_peer_key k) h = (h', inr u) -> validate_peer_key k = Ok tt.
Proof. intros [_ Hk]%of_result_run. by apply key_unit in Hk. Qed.

Lemma join_one x : x = join "," [x].
Proof. unfold join. cbn. by rewrite str_chars. Qed.

Ltac early_exit := by eapply early.

Lemma create_refines i endpoint name h h' r s :
  metadata_of h = Ok s -> store_ok s -> is_ok (validate_name name) = true -> fresh_keys (registry_of h s) ->
  create (net := net) i endpoint name h = (h', r) ->
  exists g', represents h' g' /\ outcome (OpCreate endpoint name) (registry_of h s) g' r.
Proof.
  intros Hm Hs Hname Hfresh Hr. unfold create in Hr.
  apply (bind_load _ _ _ _ s) in Hr as [(e & -> & Hq) | (h1 & Hq & Hr)]; [early_exit | | done | done].
  step Hr active Ha; [early_exit |]. apply peers_ran in Ha as ->. rewrite (q_wg _ _ Hq) in Hr.
  step Hr u Hn; [early_exit |]. apply require_ok in Hn as [Hn%negb_true_iff _]. apply active_name_free in Hn.
  step Hr previous Hp; [early_exit |]. apply showconf_run in Hp as ->. rewrite (q_wg _ _ Hq1) in Hr.
  step Hr priv Hpriv; [early_exit |]. apply genkey_ran in Hpriv as (n & ->).
  step Hr pub Hpub; [early_exit |]. apply fmap_run in Hpub as (out & Hout & ->). apply pubkey_ran in Hout.
  destruct (Hfresh n out Hout) as [Hff Hfo]. cbn in Hff, Hfo.
  step Hr v Hkey; [early_exit |]. apply validated_key in Hkey.
  step Hr text Ht; [early_exit |]. apply assigned_text in Ht as ->. rewrite (q_wg _ _ Hq5) in Hr.
  step Hr ip Hip; [early_exit |]. apply of_result_run in Hip as [_ Hip].
  step Hr sk Hsk; [early_exit |].
  set (new := FriendRecord (trim out) name (Some (trim (wg_genkey n)))) in *.
  assert (store_ok (add_record s new)) as Hs2.
  { apply add_record_ok; [done | split; [done | done | by intros key [= <-]; apply generated] |]. unfold store_keys.
    apply not_elem_of_app. split; [by apply friends_none | by unfold owner_keys in Hfo; rewrite elem_of_list_to_set in Hfo]. }
  pose proof (allocate_address_ok _ _ Hip) as (host & _ & _ & Hpre & Hval & _ & _).
  pose proof (allocate_free _ _ (trim out) Hip) as Hfree.
  assert (commits (OpCreate endpoint name) (registry_of h s)
    (grant (trim out) {[net_show ip]} (registry_of h s) (<[trim out := (name, Some (trim (wg_genkey n)))]> (friends_of s)) (owner_keys s))) as Hc
    by by apply commit_create.
  rewrite <- bind_assoc in Hr. unfold set_routes in Hr. rewrite (join_one (net_show ip)) in Hr.
  eapply (finish _ h s _ _ h' r Hm Hs Hs2 Hc); [by rewrite friends_add | done | |];
    apply bind_run in Hr as [(e & Ht & ->) | (h10 & [] & Ht & [= <- <-])];
    apply (tail_with_store _ (wg h)) in Ht as [Hst Hend]; try apply Hq8; try (by rewrite <- (q_store _ _ Hq8)); [done |].
  destruct Hend as [Hw Hst2]. rewrite Hw. cbn [g_access g_boot grant].
  destruct (set_saved (trim out) [ip] (wg h)) as [Hacc Hboot]; [done | done | by repeat constructor; apply host_truncated | by rewrite singleton_routes |].
  rewrite singleton_routes in Hacc, Hboot. split_and!; [done | done | by apply metadata_written].
Qed.

Lemma peer_shape_ok s w k shape :
  peer_shape s (classify (net := net) (owner_keys s) (allowed_text (live w))) k = Ok shape ->
  validate_peer_key k = Ok tt /\ k ∉ owner_keys s /\
  match shape with
  | None => access w !! k = None
  | Some ip => exists n r, access w !! k = Some {[r]} /\ validate_tunnel_ip r = Ok n /\ ip = net_show n
  end.
Proof.
  unfold peer_shape. intros ([] & Hk & Hp)%bind_ok. apply bind_ok in Hp as ([] & Ho%ensure_ok%negb_true_iff & Hp).
  assert (k ∉ owner_keys s) as Hno by (rewrite <- is_owner_spec; congruence). split_and!; [done | done |].
  destruct (classify _ _ !! k) as [kind |] eqn:E.
  - rewrite classify_live, bool_decide_false in E by done. unfold access. rewrite lookup_fmap.
    destruct (list_to_map (live w) !! k) as [rs |]; [| done]. cbn in E. injection E as E.
    destruct kind as [ip | |]; [| done | done]. injection Hp as <-.
    apply classify_friend_routes in E as (n & r & -> & Hv & _ & ->). exists n, r. split_and!; [cbn; f_equal; set_solver | done | done].
  - injection Hp as <-. by apply classify_none in E.
Qed.

(** The text of a tunnel address is a name. *)
Lemma tunnel_name r n : validate_tunnel_ip (net := net) r = Ok n -> is_ok (validate_name (net_show n)) = true.
Proof.
  intros Hv. pose proof (tunnel_prefix _ _ Hv) as Hp. unfold validate_tunnel_ip in Hv. apply bind_ok in Hv as (m & _ & Hv).
  destruct (octets (addr m)) as [[[a b] c] d] eqn:Eo. destruct (_ || _) eqn:E in Hv; [done |]. injection Hv as ->.
  apply orb_false_iff in E as [[_ E1%negb_false_iff]%orb_false_iff E2%negb_false_iff].
  pose proof (ipv4_octets (addr n) (addr_range n)) as Ha. rewrite Eo in Ha. destruct Ha as (Ha & _ & _ & _ & Hd).
  assert (addr n = candidate d) as Hc.
  { rewrite Ha. unfold candidate. apply andb_true_iff in E1 as [[? ?]%andb_true_iff ?]. f_equal; lia. }
  assert (forallb (fun k => is_ok (validate_name (show_ipv4 (candidate (Z.of_nat k)) +:+ "/32"))) (seq 0 256) = true) as Hall by by vm_compute.
  rewrite forallb_forall in Hall. rewrite net_show_text, Hp, Hc. specialize (Hall (Z.to_nat d)).
  unfold is_u in Hd. rewrite Z2Nat.id in Hall by lia. apply Hall, in_seq. change (2 ^ 8) with 256 in Hd. lia.
Qed.

Lemma rename_refines i k name h h' r s :
  metadata_of h = Ok s -> store_ok s -> is_ok (validate_name name) = true ->
  rename (net := net) i k name h = (h', r) ->
  exists g', represents h' g' /\ outcome (OpRename k name) (registry_of h s) g' r.
Proof.
  intros Hm Hs Hname Hr. unfold rename in Hr.
  apply (bind_load _ _ _ _ s) in Hr as [(e & -> & Hq) | (h1 & Hq & Hr)]; [early_exit | | done | done].
  step Hr active Ha; [early_exit |]. apply peers_ran in Ha as ->. rewrite (q_wg _ _ Hq) in Hr.
  step Hr shape Hsh; [early_exit |]. apply of_result_run in Hsh as [_ (Hk & Ho & Hsh)%peer_shape_ok].
  step Hr u Hu; [early_exit |]. apply require_ok in Hu as [[ip ->]%bool_decide_eq_true _]. destruct Hsh as (n & a & Hacc & _ & _).
  step Hr v Hn; [early_exit |]. apply require_ok in Hn as [Hn%negb_true_iff _]. apply active_name_free in Hn.
  assert (store_ok (renamed s k name)) as Hs2.
  { apply renamed_ok; [done | done | done |]. unfold owner_keys in Ho. by rewrite elem_of_list_to_set in Ho. }
  pose proof (commit_rename (registry_of h s) k name _ Hacc Ho Hn) as Hc.
  apply write_store_run in Hr as [Hw Hst]. rewrite (q_wg _ _ Hq3) in Hw.
  eapply (finish _ h s _ _ h' r Hm Hs Hs2 Hc); [by rewrite friends_renamed | done | |]; destruct r.
  - rewrite <- (q_store _ _ Hq3). destruct Hst as [Hst | Hst]; [by left | by right; right].
  - by right; right.
  - left. by left.
  - rewrite Hw. cbn. split_and!; [done | done | by apply metadata_written].
Qed.

Lemma revoke_refines i k h h' r s :
  metadata_of h = Ok s -> store_ok s -> revoke (net := net) i k h = (h', r) ->
  exists g', represents h' g' /\ outcome (OpRevoke k) (registry_of h s) g' r.
Proof.
  intros Hm Hs Hr. unfold revoke in Hr.
  apply (bind_load _ _ _ _ s) in Hr as [(e & -> & Hq) | (h1 & Hq & Hr)]; [early_exit | | done | done].
  step Hr active Ha; [early_exit |]. apply peers_ran in Ha as ->. rewrite (q_wg _ _ Hq) in Hr.
  step Hr shape Hsh; [early_exit |]. apply of_result_run in Hsh as [_ (Hk & Ho & Hsh)%peer_shape_ok].
  destruct shape as [ip |].
  - destruct Hsh as (n & a & Hacc & Hval & ->).
    step Hr previous Hp; [early_exit |]. apply showconf_run in Hp as ->. rewrite (q_wg _ _ Hq1) in Hr. cbv zeta in Hr.
    apply (tail_with_store _ (wg h)) in Hr as [Hst Hend]; [| apply Hq2]. rewrite (q_store _ _ Hq2) in Hst.
    destruct (remove_saved k (wg h)) as [Hacc2 Hboot2].
    destruct (has_record s k) eqn:Hrec.
    + assert (is_Some (friends_of s !! k)) as [f Hf].
      { apply not_eq_None_Some. intros Hnone%has_record_false. congruence. }
      eapply (finish _ h s s _ h' r Hm Hs Hs (commit_revoke_known (registry_of h s) k f Ho Hf)); [done | done | done |].
      destruct r; [done |]. destruct Hend as [Hw Hst2]. rewrite Hw. split_and!; [done | done | by apply metadata_written].
    + apply has_record_false in Hrec. set (new := FriendRecord k (net_show n) None) in *.
      assert (store_ok (add_record s new)) as Hs2.
      { apply add_record_ok; [done | split; [done | by eapply tunnel_name | done] |]. unfold store_keys.
        apply not_elem_of_app. split; [by apply friends_none | by unfold owner_keys in Ho; rewrite elem_of_list_to_set in Ho]. }
      eapply (finish _ h s _ _ h' r Hm Hs Hs2 (commit_revoke_unknown (registry_of h s) k a n Ho Hrec Hacc Hval));
        [by rewrite friends_add | done | done |].
      destruct r; [done |]. destruct Hend as [Hw Hst2]. rewrite Hw. split_and!; [done | done | by apply metadata_written].
  - destruct (has_record s k) eqn:Hrec; [| injection Hr as <- <-; early_exit].
    apply save_run in Hr as (Hst & Hacc & Hboot). rewrite (q_wg _ _ Hq1) in Hacc, Hboot. rewrite (q_store _ _ Hq1) in Hst.
    assert (represents h' (registry_of h' s)) as Hrep by (exists s; by rewrite (metadata_same h)).
    exists (registry_of h' s). split; [done |]. destruct r as [e | []].
    + split; [by left | intros _; left]. cbn. rewrite Hacc. split; [done |]. do 2 right. by exists k.
    + assert (is_Some (friends_of s !! k)) as [f Hf].
      { apply not_eq_None_Some. intros Hnone%has_record_false. congruence. }
      pose proof (commit_revoke_known (registry_of h s) k f Ho Hf) as Hc. unfold withdraw in Hc. cbn in Hc.
      rewrite delete_id in Hc by done. unfold registry_of at 2. rewrite Hacc, Hboot. exact Hc.
Qed.

Lemma add_peer_refines k ip h h' r s :
  metadata_of h = Ok s -> store_ok s -> add_peer (net := net) k ip h = (h', r) ->
  exists g', represents h' g' /\ outcome (OpAddPeer k ip) (registry_of h s) g' r.
Proof.
  intros Hm Hs Hr. unfold add_peer in Hr. step Hr u Hk; [early_exit |]. apply validated_key in Hk.
  step Hr n Hn; [early_exit |]. apply of_result_run in Hn as [_ Hn].
  step Hr v He; [early_exit |]. apply ensure_run in He. rewrite (q_wg _ _ Hq0) in He.
  step Hr previous Hp; [early_exit |]. apply showconf_run in Hp as ->. rewrite (q_wg _ _ Hq1) in Hr.
  unfold set_routes in Hr. rewrite (join_one (net_show n)) in Hr.
  apply (tail_plain _ (wg h)) in Hr as [Hst Hend]; [| apply Hq2]. rewrite (q_store _ _ Hq2) in Hst.
  rewrite singleton_routes in He.
  eapply (finish _ h s s _ h' r Hm Hs Hs (commit_add_peer (registry_of h s) k ip n Hn He)); [done | done | by left |].
  destruct r; [by destruct Hend; [left; right | right] |]. rewrite Hend.
  destruct (set_saved k [n] (wg h)) as [Hacc Hboot]; [done | done | | by rewrite singleton_routes |].
  { repeat constructor. apply host_truncated. by eapply tunnel_prefix. }
  rewrite singleton_routes in Hacc, Hboot. cbn [g_access g_boot grant]. split_and!; [done | done | by rewrite (metadata_same h)].
Qed.

Lemma remove_router_refines i k h h' r s :
  metadata_of h = Ok s -> store_ok s -> remove_router_peer (net := net) i k h = (h', r) ->
  exists g', represents h' g' /\ outcome (OpRemoveRouter k) (registry_of h s) g' r.
Proof.
  intros Hm Hs Hr. unfold remove_router_peer in Hr.
  apply (bind_load _ _ _ _ s) in Hr as [(e & -> & Hq) | (h1 & Hq & Hr)]; [early_exit | | done | done].
  step Hr u Hk; [early_exit |].
  step Hr v Ho; [early_exit |]. apply require_ok in Ho as [Ho%is_owner_spec _].
  step Hr previous Hp; [early_exit |]. apply showconf_run in Hp as ->. rewrite (q_wg _ _ Hq1) in Hr.
  apply (tail_plain _ (wg h)) in Hr as [Hst Hend]; [| apply Hq2]. rewrite (q_store _ _ Hq2) in Hst.
  eapply (finish _ h s s _ h' r Hm Hs Hs (commit_remove_router (registry_of h s) k Ho)); [done | done | by left |].
  destruct r; [by destruct Hend; [left; right | right] |]. rewrite Hend.
  destruct (remove_saved k (wg h)) as [Hacc Hboot]. split_and!; [done | done | by rewrite (metadata_same h)].
Qed.

(** The routes of a router: its address, and its second one where WARP is prepared. *)
Lemma router_routes_ran i n h h' routes : router_routes (net := net) i n h = (h', inr routes) ->
  routes = [n] \/ exists alias, alias_of n = Ok alias /\ routes = [n; alias].
Proof.
  intros Hr. unfold router_routes in Hr. step Hr b Hb. destruct b; [| by injection Hr as _ <-; left].
  step Hr alias Ha. apply of_result_run in Ha as [_ Ha]. injection Hr as _ <-. right. by exists alias.
Qed.

Lemma router_truncated ip (n : net) routes : validate_tunnel_ip ip = Ok n ->
  routes = [n] \/ (exists alias, alias_of n = Ok alias /\ routes = [n; alias]) -> Forall truncated routes /\ routes <> [].
Proof.
  intros Hv%tunnel_prefix%host_truncated [-> | (alias & Ha%alias_prefix%host_truncated & ->)]; (split; [by repeat constructor | done]).
Qed.

(** The end of [add_router_peer]: the metadata first, the interface then, and back again. *)
Definition router_tail (i : string) (s owned : friend_store) (existing : bool) (k routes previous : string) : M unit :=
  write_store i owned ;;
  outcome ← try (set_routes k routes);
  match outcome with
  | Ok _ => mret tt
  | Err error =>
      rolled_back ← try (restore_peers previous);
      match rolled_back with
      | Err rollback => throw (rollback_failed "router owner creation" error rollback)
      | Ok _ => (if existing : bool then mret tt else write_store i s) ;; throw error
      end
  end.

Lemma router_tail_run i s owned existing k routes w h h' r : wg h = w ->
  router_tail i s owned existing k routes (wg_showconf w) h = (h', r) ->
  (store_file h' = store_file h \/ written s h' \/ written owned h') /\
  match r with
  | inr _ => wg h' = wg_save (wg_set k routes w) /\ written owned h'
  | inl e => (wg h' = w \/ restored w h') \/ (broken e /\ written owned h')
  end.
Proof.
  intros Hw [(e & He & ->) | (h1 & u & Hs2 & Hr)]%bind_run.
  { apply write_store_run in He as [Hg He]. split; [tauto |]. left. left. congruence. }
  apply write_store_run in Hs2 as [Hg Hs2].
  apply bind_run in Hr as [(e & Ht & _) | (h2 & a & Ht & Hr)]; [by apply try_run in Ht as [(? & _ & [=]) | (? & _ & [=])] |].
  apply try_run in Ht as [([] & Ha & [= ->]) | (e & Ha & [= ->])]; apply change_saved in Ha as [Hs Ha];
    (assert (written owned h2) as Hw2 by (unfold written in *; by rewrite Hs)).
  { injection Hr as <- <-. split; [tauto |]. split; [| done]. by rewrite Ha, Hg, Hw. }
  apply bind_run in Hr as [(e2 & Ht & _) | (h3 & b & Ht & Hr)]; [by apply try_run in Ht as [(? & _ & [=]) | (? & _ & [=])] |].
  apply try_run in Ht as [([] & Hb & [= ->]) | (e2 & Hb & [= ->])]; apply restore_run in Hb as [Hs3 Hb];
    (assert (written owned h3) as Hw3 by (unfold written in *; by rewrite Hs3)).
  2: { injection Hr as <- <-. split; [tauto |]. right. split; [unfold broken; eauto | done]. }
  assert (exists e', r = inl e') as [e' ->].
  { apply bind_run in Hr as [(e2 & _ & ->) | (h4 & x & _ & Hr)]; [by eexists |]. injection Hr as _ <-. by eexists. }
  assert (wg h' = wg h3 /\ (written s h' \/ written owned h')) as [Hwg Hst].
  { apply bind_run in Hr as [(e2 & Hx & _) | (h4 & x & Hx & Hr)]; [| injection Hr as <- _]; destruct existing;
      [discriminate Hx | | by injection Hx as <- _; split; [| right] |]; apply write_store_run in Hx as [Hg2 Hx]; (split; [done |]).
    - destruct Hx as [Hx | Hx]; [right | by left]. unfold written in *. by rewrite Hx.
    - by left. }
  split; [tauto |]. left. right. unfold restored. by rewrite Hwg.
Qed.

Lemma add_router_cases i k ip h h' r s :
  metadata_of h = Ok s -> store_ok s -> add_router_peer (net := net) i k ip h = (h', r) ->
  (exists e, r = inl e /\ quiet h h') \/
  exists n routes h1, quiet h h1 /\ validate_peer_key k = Ok tt /\ validate_tunnel_ip ip = Ok n /\
    (routes = [n] \/ exists alias, alias_of n = Ok alias /\ routes = [n; alias]) /\
    free (access (wg h)) k (list_to_set (net_show <$> routes)) /\ friends_of s !! k = None /\
    (is_owner s k = true \/ access (wg h) !! k = None) /\
    router_tail i s (if is_owner s k then s else add_owner s k) (is_owner s k) k (join "," (net_show <$> routes)) (wg_showconf (wg h)) h1 = (h', r).
Proof.
  intros Hm Hs Hr. unfold add_router_peer in Hr. step Hr u Hk; [by left; eexists |]. apply validated_key in Hk.
  step Hr n Hn; [by left; eexists |]. apply of_result_run in Hn as [_ Hn].
  step Hr routes Hro; [by left; eexists |]. apply router_routes_ran in Hro.
  step Hr v He; [by left; eexists |]. apply ensure_run in He. rewrite (q_wg _ _ Hq1) in He.
  apply (bind_load _ _ _ _ s) in Hr as [(e & -> & Hq3) | (h4 & Hq3 & Hr)]; [| | by rewrite (metadata_quiet h) | done].
  { left. exists e. split; [done |]. by transitivity h3. }
  root. step Hr x Hrec; [by left; eexists |]. apply require_ok in Hrec as [Hrec%negb_true_iff%has_record_false _].
  apply bind_quiet in Hr as [(e & -> & Hq5) | (y & h6 & Hy & Hq5 & Hr)]; [left; exists e; split; [done | by etransitivity] | | by destruct (is_owner s k); preserved].
  root. step Hr previous Hp; [by left; eexists |]. apply showconf_run in Hp as ->. rewrite (q_wg _ _ Hq5) in Hr.
  right. exists n, routes, h7. split_and!; try done.
  destruct (is_owner s k); [by left | right]. step Hy active Ha. apply peers_ran in Ha as ->.
  apply require_ok in Hy as [Hy%negb_true_iff%bool_decide_eq_false _]. rewrite (q_wg _ _ Hq4) in Hy.
  apply (classify_none _ (owner_keys s)). by apply eq_None_not_Some.
Qed.

Lemma owned_ok s k : store_ok s -> validate_peer_key k = Ok tt -> friends_of s !! k = None ->
  let owned := if is_owner s k then s else add_owner s k in
  store_ok owned /\ friends_of owned = friends_of s /\ owner_keys owned = {[k]} ∪ owner_keys s.
Proof.
  intros Hs Hk Hrec owned. unfold owned. destruct (is_owner s k) eqn:E; [apply is_owner_spec in E; split_and!; [done | done | set_solver] |].
  split_and!; [apply add_owner_ok; [done | done |] | done | apply owner_keys_add].
  unfold store_keys. apply not_elem_of_app. split; [by apply friends_none |].
  intros Hin. apply not_true_iff_false in E. apply E, is_owner_spec. unfold owner_keys. by apply elem_of_list_to_set.
Qed.

Lemma add_router_refines i k ip h h' r s :
  metadata_of h = Ok s -> store_ok s -> add_router_peer (net := net) i k ip h = (h', r) ->
  exists g', represents h' g' /\ outcome (OpAddRouter k ip) (registry_of h s) g' r.
Proof.
  intros Hm Hs [(e & -> & Hq) | (n & routes & h1 & Hq & Hk & Hn & Hro & Hfree & Hrec & Hown & Hr)]%(add_router_cases _ _ _ _ _ _ s); [early_exit | | done | done].
  set (owned := if is_owner s k then s else add_owner s k) in *.
  destruct (owned_ok s k Hs Hk Hrec) as (Hs2 & Hf & Ho). fold owned in Hs2, Hf, Ho.
  assert (k ∈ owner_keys s \/ access (wg h) !! k = None) as Hown' by (destruct Hown as [?%is_owner_spec |]; tauto).
  pose proof (commit_add_router (registry_of h s) k ip n routes Hn Hro Hfree Hrec Hown') as Hc.
  apply (router_tail_run _ _ _ _ _ _ (wg h)) in Hr as [Hst Hend]; [| apply Hq]. rewrite (q_store _ _ Hq) in Hst.
  eapply (finish _ h s _ _ h' r Hm Hs Hs2 Hc); [done | done | done |].
  destruct r; [tauto |]. destruct Hend as [Hw Hst2]. rewrite Hw. destruct (router_truncated _ _ _ Hn Hro) as [Htr Hne].
  destruct (set_saved k routes (wg h)) as [Hacc Hboot]; [done.. |].
  cbn [g_access g_boot grant]. split_and!; [done | done | by apply metadata_written].
Qed.

(** What an operation is given: names are those [read_friend_name] accepts. *)
Definition operation_ok (op : operation) : Prop :=
  match op with OpCreate _ name | OpRename _ name => is_ok (validate_name name) = true | _ => True end.

Lemma outcome_done {A B} op g h' (r : error + A) (y : B) :
  (exists g', represents h' g' /\ outcome op g g' r) ->
  exists g', represents h' g' /\ outcome op g g' (match r with inl e => inl e | inr _ => inr y end).
Proof. intros (g' & Hg & Ho). exists g'. split; [done |]. by destruct r. Qed.

Lemma bind_ret {A B} (m : M A) (y : B) h h' r : (m ;; mret y) h = (h', r) ->
  exists r0, m h = (h', r0) /\ r = match r0 with inl e => inl e | inr _ => inr y end.
Proof.
  intros [(e & He & ->) | (h1 & x & Hx & Hr)]%bind_run; [by exists (inl e) |]. injection Hr as <- <-. by exists (inr x).
Qed.

(** A peer that is removed without its subnet: the peer goes, then the file for the next boot is written. *)
Lemma remove_peer_run k h h' r : remove_peer k h = (h', r) ->
  store_file h' = store_file h /\
  match r with
  | inr _ => wg h' = wg_save (wg_remove k (wg h))
  | inl _ => access (wg h') = delete k (access (wg h)) \/ exists n, wg h' = torn n (wg h)
  end.
Proof.
  intros [(e & He & ->) | (h1 & u & Hf & Hs)]%bind_run.
  - apply iface_change_run in He as (Hs & n & Hw). split; [done |]. right. by exists n.
  - apply iface_change_run in Hf as (Hs1 & n & Hf). pose proof Hs as Hs'. unfold save in Hs. apply iface_change_run in Hs as (Hs2 & m & Hs).
    split; [congruence |]. destruct r; [left | congruence]. apply save_run in Hs' as (_ & Ha & _). by rewrite Ha, Hf, access_remove.
Qed.

Lemma remove_peer_refines k h h' r s :
  metadata_of h = Ok s -> store_ok s -> remove_peer k h = (h', r) ->
  exists g', represents h' g' /\ outcome (OpRemovePeer k) (registry_of h s) g' r.
Proof.
  intros Hm Hs [Hst Hr]%remove_peer_run. exists (registry_of h' s). split.
  { exists s. by rewrite (metadata_same h). }
  destruct r; [split; [by left | done] |]. destruct (remove_saved k (wg h)) as [Hacc Hboot].
  unfold outcome, registry_of. rewrite Hr, Hacc, Hboot. apply (commit_remove_peer (registry_of h s)).
Qed.

(** One operation, by its own lemma. *)
Lemma operation_run i op h s h' r :
  metadata_of h = Ok s -> store_ok s -> operation_ok op -> fresh_keys (registry_of h s) -> run_operation i op h = (h', r) ->
  exists g', represents h' g' /\ outcome op (registry_of h s) g' r.
Proof.
  intros Hm Hs Hop Hfresh Hr.
  destruct op; cbn in Hr; try (apply bind_ret in Hr as (r0 & Hr & ->); apply outcome_done).
  - by eapply add_peer_refines.
  - by eapply create_refines.
  - by eapply rename_refines.
  - by eapply revoke_refines.
  - by eapply add_router_refines.
  - by eapply remove_router_refines.
  - by eapply remove_peer_refines.
Qed.

(** C4. On a server whose metadata is of the present schema, what gives and takes access - adding a peer,
    creating, renaming and revoking a friend, adding and removing a router, removing a peer - follows a
    specification on the registry of who may connect. Whatever calls fail, and whatever a failing command
    does to the interface, an operation that succeeds does to the peers, to the peers of the next boot, to
    the friends and to the owners what its specification says: it gives out only routes that no other peer
    has, it takes a peer's routes away now and for the next boot, it keeps names apart. One that fails leaves
    the metadata readable, as before or as meant, and all but the last leave everybody's access as it was
    and the next boot with the access of before or of now, unless the error says that the rollback failed.
    The last, [gofro-server remove-peer] without a subnet, has no rollback: its failure leaves the metadata
    alone, and the peers without the one removed or as the failing command left them. The widening of
    the routers' access by WARP is C27. *)
Theorem operations_refine i op h g h' r :
  represents h g -> operation_ok op -> fresh_keys g -> run_operation i op h = (h', r) ->
  exists g', represents h' g' /\ outcome op g g' r /\
    match op, r with
    | OpRemovePeer k, inl _ =>
        store_file h' = store_file h /\ (g_access g' = delete k (g_access g) \/ exists n, wg h' = torn n (wg h))
    | _, _ => True
    end.
Proof.
  intros (s & Hm & Hs & ->) Hop Hfresh Hr. destruct (operation_run _ _ _ _ _ _ Hm Hs Hop Hfresh Hr) as (g' & Hg & Ho).
  exists g'. split_and!; [done | done |]. destruct op; try done. destruct r; [| done]. cbn in Hr.
  apply bind_ret in Hr as ([e1 | u] & Hr & [= ->]). apply remove_peer_run in Hr as [Hst Hr]. split; [done |].
  destruct Hg as (s' & _ & _ & ->). exact Hr.
Qed.

(** C25. Owners are known before they connect: however adding a router ends, with any call failing and
    the rollback failing too, either everybody's access is as it was, or the metadata on the disk names the
    key as an owner's, so that it is never taken for a friend's. *)
Theorem router_identity_first i k ip h h' r s :
  metadata_of h = Ok s -> store_ok s -> add_router_peer (net := net) i k ip h = (h', r) ->
  access (wg h') = access (wg h) \/ exists s', metadata_of h' = Ok s' /\ k ∈ fs_owners s'.
Proof.
  intros Hm Hs [(e & -> & Hq) | (n & routes & h1 & Hq & Hk & _ & _ & _ & Hrec & _ & Hr)]%(add_router_cases _ _ _ _ _ _ s); [| | done | done].
  { left. by rewrite (q_wg _ _ Hq). }
  destruct (owned_ok s k Hs Hk Hrec) as (Hs2 & _ & Ho).
  assert (written (if is_owner s k then s else add_owner s k) h' -> exists s', metadata_of h' = Ok s' /\ k ∈ fs_owners s') as Hnamed.
  { intros Hw%metadata_written; [| done]. eexists. split; [exact Hw |].
    assert (k ∈ owner_keys (if is_owner s k then s else add_owner s k)) as Hin by set_solver. unfold owner_keys in Hin.
    by rewrite elem_of_list_to_set in Hin. }
  apply (router_tail_run _ _ _ _ _ _ (wg h)) in Hr as [_ Hend]; [| apply Hq].
  destruct r as [e | x]; [destruct Hend as [[Hw | [Ha _]] | [_ Hw]] | destruct Hend as [_ Hw]].
  - left. by rewrite Hw.
  - by left.
  - right. by apply Hnamed.
  - right. by apply Hnamed.
Qed.

(** A new peer gets the first free tunnel address: given what WireGuard lists, the address is the lowest
    of 10.202.0.2 to 10.202.0.254 that no route of any peer covers, and none is given out only when all are
    covered. *)
Theorem lowest_free_address w :
  match allocate_tunnel_ip (net := net) (wg_allowed_ips w) with
  | Ok n => exists host, 2 <= host <= 254 /\ addr n = candidate host /\ prefix_len n = 32 /\
              ~ taken w (candidate host) /\ forall lower, 2 <= lower < host -> taken w (candidate lower)
  | Err _ => forall host, 2 <= host <= 254 -> taken w (candidate host)
  end.
Proof.
  rewrite listed. destruct (allocate_tunnel_ip _) as [n | e] eqn:E; [| by eapply allocate_err].
  apply allocate_address_ok in E as (host & Hh & Ha & Hp & _ & Hn & Hl). by exists host.
Qed.

(** ** WARP *)

(** What [warp_routes] makes of an owner's routes. *)
Definition owner_entry w (k : string) (routes : list string) (text : string) : Prop :=
  exists (n alias : net), omap (fun r => to_option (validate_tunnel_ip r)) routes = [n] /\ alias_of n = Ok alias /\
    Forall (fun r => r ∈ [net_show n; net_show alias; CLIENT_SUBNET]) routes /\
    free (access w) k {[net_show alias]} /\
    text = join "," (if bool_decide (net_show alias ∈ routes) then routes else routes ++ [net_show alias]).

Lemma quiet_owner_routes k routes : preserves quiet (owner_routes (net := net) k routes).
Proof. unfold owner_routes. preserved. Qed.
Hint Resolve quiet_owner_routes : eff.

Lemma owner_routes_ran k routes h h' entry : owner_routes (net := net) k routes h = (h', inr entry) ->
  entry.1 = k /\ owner_entry (wg h) k routes entry.2.
Proof.
  intros Hr. unfold owner_routes in Hr. step Hr n Hn.
  assert (omap (fun r => to_option (validate_tunnel_ip r)) routes = [n]) as Hn'
    by (destruct (omap _ _) as [| a [| b l]]; [discriminate Hn | by injection Hn as _ <- | discriminate Hn]).
  step Hr alias Ha. apply of_result_run in Ha as [_ Ha]. step Hr u Hu. apply require_ok in Hu as [Hu%negb_true_iff _].
  step Hr v Hv. apply ensure_run in Hv. rewrite (q_wg _ _ Hq1), singleton_routes in Hv. injection Hr as _ <-. split; [done |].
  exists n, alias. split_and!; [done | done | | done | done].
  apply Forall_forall. intros r Hin. apply not_true_iff_false in Hu.
  destruct (decide (r ∈ [net_show n; net_show alias; CLIENT_SUBNET])) as [| Hno]; [done |]. destruct Hu. apply existsb_exists.
  exists r. split; [by apply list_elem_of_In |]. rewrite !bool_decide_false by set_solver. done.
Qed.

Lemma quiet_owners_routes s ls : preserves quiet (owners_routes (net := net) s ls).
Proof. induction ls as [| l ls IH]; cbn; preserved; exact IH. Qed.
Hint Resolve quiet_owners_routes : eff.

Lemma owners_routes_ran s ls : forall h h' entries, owners_routes (net := net) s ls h = (h', inr entries) ->
  Forall2 (fun p entry => entry.1 = p.1 /\ owner_entry (wg h) p.1 p.2 entry.2)
    (filter (fun p => is_owner s p.1 = true) (omap peer_fields ls)) entries.
Proof.
  induction ls as [| l ls IH]; intros h h' entries Hr; cbn in Hr; [injection Hr as _ <-; constructor |]. cbn.
  destruct (peer_fields l) as [[k routes] |]; [| by eapply IH]. destruct (is_owner s k) eqn:Ho.
  - rewrite filter_cons_True by done. step Hr entry He. apply owner_routes_ran in He.
    step Hr rest Hrest. apply IH in Hrest. rewrite (q_wg _ _ Hq) in Hrest. injection Hr as _ <-. by constructor.
  - rewrite filter_cons_False by (cbn; congruence). by eapply IH.
Qed.

(** Peers whose routes are set one after the other, if no route is another's. *)
Lemma set_all_ran (entries : list (string * list net)) : forall h h' u,
  set_all ((fun p => (p.1, join "," (net_show <$> p.2))) <$> entries) h = (h', inr u) ->
  NoDup entries.*1 ->
  (forall k ns, (k, ns) ∈ entries -> validate_peer_key k = Ok tt /\ ns <> [] /\ Forall truncated ns /\
     free (access (wg h)) k (list_to_set (net_show <$> ns))) ->
  (forall k ns k' ns', (k, ns) ∈ entries -> (k', ns') ∈ entries -> k <> k' ->
     (list_to_set (net_show <$> ns) : gset string) ## list_to_set (net_show <$> ns')) ->
  store_file h' = store_file h /\
  access (wg h') = list_to_map ((fun p => (p.1, list_to_set (net_show <$> p.2))) <$> entries) ∪ access (wg h).
Proof.
  induction entries as [| [k ns] entries IH]; intros h h' u Hr Hnd Hok Hdis; cbn in Hr.
  { injection Hr as <- _. split; [done |]. cbn. by rewrite (left_id_L ∅ (∪)). }
  apply bind_run in Hr as [(e & _ & [=]) | (h1 & v & Hc & Hr)]. apply iface_change_run in Hc as (Hs & n & Hw). cbn [fst snd] in Hw.
  apply NoDup_cons in Hnd as [Hni Hnd]. destruct (Hok k ns ltac:(by left)) as (Hk & Hne & Ht & Hf).
  assert (access (wg h1) = <[k := list_to_set (net_show <$> ns)]> (access (wg h))) as Hacc
    by (rewrite Hw; setoid_rewrite (access_set k ns (wg h) Hk Hne Ht); by apply grant_access).
  apply IH in Hr as [Hs1 Ha1]; [| done | |].
  - split; [congruence |]. rewrite Ha1, Hacc. cbn. rewrite <- insert_union_r; [by rewrite insert_union_l |].
    apply not_elem_of_list_to_map_1. by rewrite <- list_fmap_compose.
  - intros k2 ns2 Hin. destruct (Hok k2 ns2 ltac:(by right)) as (Hk2 & Hne2 & Ht2 & Hf2). split_and!; [done.. |].
    rewrite Hacc. intros k' s' Hkk Hs'. destruct (decide (k = k')) as [<- | Hkne].
    + rewrite lookup_insert_eq in Hs'. injection Hs' as <-. apply (Hdis k ns k2 ns2); [by left | by right | done].
    + rewrite lookup_insert_ne in Hs' by done. by eapply Hf2.
  - intros k2 ns2 k3 ns3 H3 H4 Hne3. apply (Hdis k2 ns2 k3 ns3); [by right | by right | done].
Qed.

(** A text that lists networks. *)
Lemma as_networks (l : list string) : Forall (fun r => exists n : net, r = net_show n /\ truncated n) l ->
  exists ns : list net, l = net_show <$> ns /\ Forall truncated ns.
Proof.
  induction 1 as [| r l (n & -> & Hn) Hl (ns & -> & Hns)]; [by exists [] |]. exists (n :: ns). split; [done | by constructor].
Qed.

Lemma client_subnet_network : exists n : net, CLIENT_SUBNET = net_show n /\ truncated n.
Proof.
  destruct (new_some (net := net) (ipv4 10 203 1 0) 24) as (n & _ & Ha & Hp); [by vm_compute | lia |].
  exists n. split; [by rewrite net_show_text, Ha, Hp |]. unfold truncated. by rewrite network_start, Ha, Hp.
Qed.

(** The second address of an owner, and the routes with it. *)
Definition with_alias (k : string) (s : gset string) : gset string -> Prop := fun s' =>
  exists n alias, net_show (net := net) n ∈ s /\ validate_tunnel_ip (net_show n) = Ok n /\ alias_of n = Ok alias /\
    s' = {[net_show alias]} ∪ s.

Lemma alias_inj (n1 n2 a1 a2 : net) : alias_of n1 = Ok a1 -> alias_of n2 = Ok a2 -> net_show a1 = net_show a2 ->
  prefix_len n1 = 32 -> prefix_len n2 = 32 -> n1 = n2.
Proof.
  intros H1' H2' Heq Hp1 Hp2. assert (a1 = a2) as ->.
  { apply (f_equal (net_parse (net := net))) in Heq. rewrite !parse_net_show in Heq. by injection Heq. }
  assert (forall n, alias_of n = Ok a2 -> addr n = candidate (addr a2 - ipv4 10 202 1 0)) as Haddr.
  { intros n Hn. unfold alias_of in Hn. apply bind_ok in Hn as (a & Ha%ok_or_ok & Hn%ok_or_ok). unfold source_address in Ha.
    pose proof (ipv4_octets (addr n) (addr_range n)) as Ho. destruct (octets (addr n)) as [[[x y] z] host].
    destruct (_ && _) eqn:E in Ha; [| done]. injection Ha as <-. destruct Ho as [Ho _].
    apply andb_true_iff in E as [[[E1 E2]%andb_true_iff E3]%andb_true_iff [E4 E5]%andb_true_iff].
    destruct (new_some (net := net) (ipv4 10 202 1 host) 32) as (m & Hm & Hma & _); [apply ipv4_range; unfold is_u; lia | lia |].
    rewrite Hm in Hn. injection Hn as <-. rewrite Ho, Hma. unfold candidate, ipv4. lia. }
  apply net_ext; [| congruence]. by rewrite (Haddr n1), (Haddr n2).
Qed.

(** An entry as networks: the owner's routes and its second address. *)
Lemma entry_networks w k rs text : (k, rs) ∈ live w -> owner_entry w k (shown rs) text ->
  exists ns (n alias : net), text = join "," (net_show <$> ns) /\ ns <> [] /\ Forall truncated ns /\
    net_show n ∈ rs /\ validate_tunnel_ip (net_show n) = Ok n /\ alias_of n = Ok alias /\ free (access w) k {[net_show alias]} /\
    (list_to_set (net_show <$> ns) : gset string) = {[net_show alias]} ∪ list_to_set rs.
Proof.
  intros Hin (n & alias & Hn & Ha & Hall & Hf & ->).
  assert (exists r, r ∈ shown rs /\ validate_tunnel_ip r = Ok n) as (r & Hr & Hv).
  { assert (n ∈ omap (fun r => to_option (validate_tunnel_ip (net := net) r)) (shown rs)) as Hin' by (rewrite Hn; by left).
    apply list_elem_of_omap in Hin' as (r & Hr & Hv). exists r. split; [done |]. by destruct (validate_tunnel_ip r); [injection Hv as -> |]. }
  assert (shown rs = rs) as Hs.
  { destruct rs; [| done]. apply list_elem_of_singleton in Hr as ->. unfold validate_tunnel_ip in Hv. by rewrite none_no_net in Hv. }
  rewrite Hs in *. destruct client_subnet_network as (c & Hc & Hct).
  pose proof (host_truncated n (tunnel_prefix _ _ Hv)) as Hnt. pose proof (host_truncated alias (alias_prefix _ _ Ha)) as Hat.
  assert (forall x, x ∈ [net_show n; net_show alias; CLIENT_SUBNET] -> exists m : net, x = net_show m /\ truncated m) as Hnet.
  { intros x. rewrite !elem_of_cons, elem_of_nil. intros [-> | [-> | [-> | []]]]; eauto. }
  destruct (as_networks (if bool_decide (net_show alias ∈ rs) then rs else rs ++ [net_show alias])) as (ns & Hns & Htr).
  { apply Forall_forall. intros x Hx. apply Hnet. case_bool_decide; [by apply (proj1 (Forall_forall _ _) Hall) |].
    apply elem_of_app in Hx as [Hx | ->%list_elem_of_singleton]; [by apply (proj1 (Forall_forall _ _) Hall) | set_solver]. }
  assert (r = net_show n) as ->.
  { apply (proj1 (Forall_forall _ _) Hall) in Hr as Hr'. apply Hnet in Hr' as (m & -> & _). f_equal.
    unfold validate_tunnel_ip in Hv. rewrite parse_net_show in Hv. cbn [ok_or mbind result_bind] in Hv.
    destruct (octets (addr m)) as [[[x y] z] d]. destruct (_ || _); [done |]. by injection Hv. }
  exists ns, n, alias. rewrite <- Hns. split_and!; try done.
  - intros ->. destruct rs; [by apply not_elem_of_nil in Hr |]. by case_bool_decide.
  - case_bool_decide; [set_solver |]. rewrite list_to_set_app_L. set_solver.
Qed.

(** The routes an owner [p] of the listing gets. *)
Definition owner_gets w (p : string * list string) (e : string * list net) : Prop :=
  e.1 = p.1 /\ e.2 <> [] /\ Forall truncated e.2 /\
  exists n alias : net, net_show n ∈ p.2 /\ validate_tunnel_ip (net_show n) = Ok n /\ alias_of n = Ok alias /\
    free (access w) p.1 {[net_show alias]} /\
    (list_to_set (net_show <$> e.2) : gset string) = {[net_show alias]} ∪ list_to_set p.2.

Lemma entries_networks w lives entries : (forall p, p ∈ lives -> p ∈ live w) ->
  Forall2 (fun p entry => entry.1 = p.1 /\ owner_entry w p.1 (shown p.2) entry.2) lives entries ->
  exists es : list (string * list net), entries = (fun e => (e.1, join "," (net_show <$> e.2))) <$> es /\ Forall2 (owner_gets w) lives es.
Proof.
  intros Hin Hf. induction Hf as [| [k rs] [k' text] lives entries [Hk He] Hf IH]; [by exists [] |].
  destruct IH as (es & -> & Hes); [intros p Hp; apply Hin; by right |]. cbn in Hk, He. subst k'.
  destruct (entry_networks w k rs text) as (ns & n & alias & -> & Hne & Ht & Hn & Hv & Ha & Hfr & Hset); [apply Hin; by left | done |].
  exists ((k, ns) :: es). split; [done |]. constructor; [| done]. split_and!; [done.. |]. by exists n, alias.
Qed.

Lemma owners_apart w p1 p2 e1 e2 : p1 ∈ live w -> p2 ∈ live w -> p1.1 <> p2.1 -> owner_gets w p1 e1 -> owner_gets w p2 e2 ->
  (list_to_set (net_show <$> e1.2) : gset string) ## list_to_set (net_show <$> e2.2).
Proof.
  intros Hp1 Hp2 Hne (_ & _ & _ & n1 & a1 & Hn1 & Hv1 & Ha1 & Hf1 & ->) (_ & _ & _ & n2 & a2 & Hn2 & Hv2 & Ha2 & Hf2 & ->).
  destruct p1 as [k1 rs1], p2 as [k2 rs2]. cbn in *.
  assert (access w !! k1 = Some (list_to_set rs1)) as L1 by (apply access_live; eauto).
  assert (access w !! k2 = Some (list_to_set rs2)) as L2 by (apply access_live; eauto).
  pose proof (listed_apart w k1 k2 _ _ Hne L1 L2) as Hap.
  pose proof (Hf1 k2 _ ltac:(done) L2) as D1. pose proof (Hf2 k1 _ ltac:(done) L1) as D2.
  assert (net_show a1 <> net_show a2) as Ha.
  { intros Heq. assert (n1 = n2) as -> by (eapply (alias_inj n1 n2 a1 a2); eauto using tunnel_prefix). set_solver. }
  set_solver.
Qed.

(** The keys of a listing tell its entries apart. *)
Lemma live_key w p1 p2 : p1 ∈ live w -> p2 ∈ live w -> p1.1 = p2.1 -> p1 = p2.
Proof.
  intros [i Hi]%list_elem_of_lookup_1 [j Hj]%list_elem_of_lookup_1 Heq.
  assert (i = j) as ->; [| congruence]. apply (NoDup_lookup (live w).*1 i j p1.1); [apply listed_once | |].
  - by rewrite list_lookup_fmap, Hi.
  - by rewrite list_lookup_fmap, Hj, Heq.
Qed.

Lemma owners_entries w s es : Forall2 (owner_gets w) (filter (fun p => is_owner s p.1 = true) (live w)) es ->
  (forall k ns, (k, ns) ∈ es -> exists rs, (k, rs) ∈ live w /\ is_owner s k = true /\ owner_gets w (k, rs) (k, ns)) /\
  (forall k rs, (k, rs) ∈ live w -> is_owner s k = true -> exists ns, (k, ns) ∈ es /\ owner_gets w (k, rs) (k, ns)) /\ NoDup es.*1.
Proof.
  intros Hf. split_and!.
  - intros k ns [i Hi]%list_elem_of_lookup_1. destruct (Forall2_lookup_r _ _ _ _ _ Hf Hi) as ([k' rs] & Hp & Hg).
    apply list_elem_of_lookup_2, list_elem_of_filter in Hp as [Ho Hp]. assert (k = k') as <- by apply Hg. by exists rs.
  - intros k rs Hin Ho. assert ((k, rs) ∈ filter (fun p => is_owner s p.1 = true) (live w)) as [i Hi]%list_elem_of_lookup_1
      by by apply list_elem_of_filter.
    destruct (Forall2_lookup_l _ _ _ _ _ Hf Hi) as ([k' ns] & He & Hg). assert (k' = k) as -> by apply Hg.
    exists ns. split; [by eapply list_elem_of_lookup_2 | done].
  - assert (es.*1 = (filter (fun p => is_owner s p.1 = true) (live w)).*1) as ->
      by (induction Hf as [| p e ps es [He _] Hf IH]; [done |]; cbn; by rewrite IH, He).
    eapply sublist_NoDup; [apply listed_once | apply fmap_sublist, sublist_filter].
Qed.

Lemma set_owners_ran w s es h h' u : wg h = w -> Forall2 (owner_gets w) (filter (fun p => is_owner s p.1 = true) (live w)) es ->
  set_all ((fun e => (e.1, join "," (net_show <$> e.2))) <$> es) h = (h', inr u) ->
  forall k, access (wg h') !! k =
    match (list_to_map ((fun e => (e.1, list_to_set (net_show <$> e.2))) <$> es) : gmap string (gset string)) !! k with
    | Some rs => Some rs
    | None => access w !! k
    end.
Proof.
  intros Hw Hf Hr k. destruct (owners_entries w s es Hf) as (Hback & _ & Hnd).
  apply set_all_ran in Hr as [_ Ha]; [| done | |].
  - rewrite Ha, Hw, lookup_union. by destruct (list_to_map _ !! k), (access w !! k).
  - intros k1 ns Hin. destruct (Hback k1 ns Hin) as (rs & Hl & _ & (_ & Hne & Ht & n & a & _ & _ & _ & Hfr & Hset)).
    pose proof (proj1 (Forall_forall _ _) (listed_words w) _ Hl) as (Hk & _). cbn in *. split_and!; [done.. |].
    rewrite Hw. intros k' s' Hne' Hs'. rewrite Hset. apply disjoint_union_r. split; [by eapply Hfr |].
    eapply listed_apart; [exact Hne' | exact Hs' | apply access_live; eauto].
  - intros k1 ns1 k2 ns2 H1' H2' Hne. destruct (Hback _ _ H1') as (rs1 & Hl1 & _ & Hg1). destruct (Hback _ _ H2') as (rs2 & Hl2 & _ & Hg2).
    by apply (owners_apart w (k1, rs1) (k2, rs2) (k1, ns1) (k2, ns2)).
Qed.

Lemma filter_shown st (l : list (string * list string)) :
  filter (fun p => is_owner st p.1 = true) ((fun p => (p.1, shown p.2)) <$> l) =
  (fun p => (p.1, shown p.2)) <$> filter (fun p => is_owner st p.1 = true) l.
Proof.
  induction l as [| p l IH]; [done |]. cbn [fmap list_fmap]. destruct (decide (is_owner st p.1 = true)).
  - rewrite !filter_cons_True by done. cbn. by rewrite IH.
  - by rewrite !filter_cons_False by done.
Qed.

Lemma warp_routes_ran i h h' r s : metadata_of h = Ok s -> store_ok s -> warp_routes (net := net) i h = (h', r) ->
  quiet h h' /\ forall entries, r = inr entries -> exists es, entries = (fun e => (e.1, join "," (net_show <$> e.2))) <$> es /\
    Forall2 (owner_gets (wg h)) (filter (fun p => is_owner s p.1 = true) (live (wg h))) es.
Proof.
  intros Hm Hs Hr. unfold warp_routes in Hr.
  apply (bind_load _ _ _ _ s) in Hr as [(e & -> & Hq) | (h1 & Hq & Hr)]; [done | | done | done].
  step Hr text Ht; [done |]. apply assigned_text in Ht as ->. step Hr found Hfound; [done |]. apply owners_routes_ran in Hfound.
  step Hr u Hu; [done |]. injection Hr as <- <-. split; [done |]. intros entries [= <-].
  rewrite listed_fields, (q_wg _ _ Hq), (q_wg _ _ Hq0), filter_shown in Hfound. apply Forall2_fmap_l in Hfound.
  apply (entries_networks (wg h)) in Hfound; [done |]. by intros p [_ Hp]%list_elem_of_filter.
Qed.

(** C26. WARP never broadens a friend: authorizing it gives every connected router owner exactly its own
    second address in addition to its routes, leaves the routes of all other peers alone, and saves that for
    the next boot; on an error everybody's access is as before, unless the rollback failed too. *)
Theorem warp_broadens_owners_only i h h' r s :
  metadata_of h = Ok s -> store_ok s -> authorize_warp (net := net) i h = (h', r) ->
  match r with
  | inr _ => boot (wg h') = access (wg h') /\ forall k,
      (k ∉ fs_owners s \/ access (wg h) !! k = None -> access (wg h') !! k = access (wg h) !! k) /\
      (k ∈ fs_owners s -> forall rs, access (wg h) !! k = Some rs ->
         exists n alias : net, net_show n ∈ rs /\ validate_tunnel_ip (net_show n) = Ok n /\ alias_of n = Ok alias /\
           access (wg h') !! k = Some ({[net_show alias]} ∪ rs))
  | inl e => access (wg h') = access (wg h) \/ exists m e2, e = Ctx m e2
  end.
Proof.
  intros Hm Hs Hr. unfold authorize_warp in Hr. step Hr b Hb; [left; by rewrite (q_wg _ _ Hq) |].
  step Hr u Hu; [left; by rewrite (q_wg _ _ Hq0) |].
  apply bind_run in Hr as [(e & He & ->) | (h2 & entries & He & Hr)]; apply (warp_routes_ran _ _ _ _ s) in He as [Hq1 He];
    try done; try (by rewrite (metadata_quiet h)); root; [left; by rewrite (q_wg _ _ Hq1) |].
  destruct (He entries eq_refl) as (es & -> & Hes). rewrite (q_wg _ _ Hq0) in Hes. clear He.
  step Hr previous Hp; [left; by rewrite (q_wg _ _ Hq2) |]. apply showconf_run in Hp as ->. rewrite (q_wg _ _ Hq1) in Hr.
  apply transact_run in Hr as [(x & -> & Ha) | (h4 & e & Ha & Hr)].
  - apply bind_run in Ha as [(e & _ & [=]) | (h4 & v & Ha & Hsave)].
    pose proof (set_owners_ran (wg h) s es _ _ _ (q_wg _ _ Hq2) Hes Ha) as Hacc.
    apply save_run in Hsave as (_ & Hw & Hb2). split; [congruence |]. intros k. rewrite Hw, Hacc.
    destruct (owners_entries _ _ _ Hes) as (Hback & Hfwd & Hnd).
    assert ((list_to_map ((fun e => (e.1, list_to_set (net_show <$> e.2))) <$> es) : gmap string (gset string)) =
            (fun ns => list_to_set (net_show <$> ns)) <$> list_to_map es) as -> by (rewrite <- list_to_map_fmap; by apply (f_equal list_to_map), list_fmap_ext; intros ? [] _).
    rewrite lookup_fmap. split.
    + intros Hk. destruct (list_to_map es !! k) as [ns |] eqn:E; [| done]. apply elem_of_list_to_map_2, Hback in E as (rs & Hl & Ho & _).
      apply is_owner_spec in Ho. unfold owner_keys in Ho. rewrite elem_of_list_to_set in Ho. destruct Hk as [Hk | Hk]; [done |].
      assert (access (wg h) !! k = Some (list_to_set rs)) by (apply access_live; eauto). congruence.
    + intros Ho rs (l & Hl & ->)%access_live. destruct (Hfwd k l Hl) as (ns & Hin & Hg).
      { apply is_owner_spec. unfold owner_keys. by rewrite elem_of_list_to_set. }
      rewrite (elem_of_list_to_map_1 _ k ns) by done. cbn.
      destruct Hg as (_ & _ & _ & n & alias & Hn & Hv & Hal & _ & Hset). cbn in *. exists n, alias.
      split_and!; [by apply elem_of_list_to_set | done | done | by rewrite Hset].
  - destruct Hr as [(-> & v & Hr) | (e2 & -> & _)]; [left | right; by eexists _, _].
    apply restore_run in Hr as [_ [Hr _]]. exact Hr.
Qed.
End Runs.

(** ** An interface and a disk for the examples *)

Module SampleServer.
Definition route_ok (r : string) : Prop := word r /\ contains_byte ","%char r = false.

#[export] Instance route_ok_dec r : Decision (route_ok r).
Proof. unfold route_ok. apply _. Defined.

Definition peer_ok (k : string) (s : gset string) : Prop := validate_peer_key k = Ok tt /\ set_Forall route_ok s.

#[export] Instance peer_ok_dec k s : Decision (peer_ok k s).
Proof. unfold peer_ok. apply _. Defined.

Definition peers_ok (m : gmap string (gset string)) : Prop :=
  map_Forall peer_ok m /\ map_Forall (fun k1 s1 => map_Forall (fun k2 s2 => k1 <> k2 -> s1 ## s2) m) m.

#[export] Instance peers_ok_dec m : Decision (peers_ok m).
Proof. unfold peers_ok. apply _. Defined.

Record iface := Iface { i_peers : gmap string (gset string); i_boot : gmap string (gset string); i_ok : bool_decide (peers_ok i_peers) = true }.

Definition with_peers (m : gmap string (gset string)) (w : iface) : iface :=
  match Bool.bool_dec (bool_decide (peers_ok m)) true with left H => Iface m (i_boot w) H | right _ => w end.

Definition listing (w : iface) : list (string * list string) := (fun p => (p.1, elements p.2)) <$> map_to_list (i_peers w).
Definition conf (w : iface) : string := str (bits_of (countable.encode (i_peers w))).
Definition key_of (c : ascii) : string := str (replicate 43 c ++ ["="%char]).

#[export] Instance wireguard : WireGuard iface := {
  wg_allowed_ips w := allowed_text (listing w);
  wg_public_key _ := key_of "S"%char;
  wg_dump _ := ""%string;
  wg_showconf := conf;
  wg_set k routes w :=
    let rs := list_to_set (split ","%char routes) in with_peers (<[k := rs]> ((fun s => s ∖ rs) <$> i_peers w)) w;
  wg_remove k w := with_peers (delete k (i_peers w)) w;
  wg_setconf text w :=
    match countable.decode (of_bits (chars text)) with Some m => with_peers m w | None => w end;
  wg_save w := Iface (i_peers w) (i_peers w) (i_ok w);
  wg_restart w := with_peers (i_boot w) w;
  wg_genkey _ := key_of "P"%char;
  wg_pubkey _ := Some (key_of "N"%char);
}.

#[export] Instance wireguard_peers : WireGuardPeers iface := { live := listing; boot := i_boot }.

Lemma iface_ok (w : iface) : peers_ok (i_peers w).
Proof. eapply bool_decide_eq_true, i_ok. Qed.

Lemma access_peers (w : iface) : access w = i_peers w.
Proof.
  unfold access. cbn. unfold listing. apply map_eq. intros k.
  assert ((list_to_map ((fun p => (p.1, elements p.2)) <$> map_to_list (i_peers w)) : gmap string (list string)) = elements <$> i_peers w) as ->
    by (rewrite <- (list_to_map_to_list (i_peers w)) at 2; by rewrite <- list_to_map_fmap).
  rewrite !lookup_fmap. destruct (i_peers w !! k); [| done]. cbn. by rewrite list_to_set_elements_L.
Qed.

Lemma with_peers_ok m w : peers_ok m -> i_peers (with_peers m w) = m /\ i_boot (with_peers m w) = i_boot w.
Proof.
  intros Hm. unfold with_peers. destruct (Bool.bool_dec _ _) as [H | H]; [done |]. exfalso. apply H. by apply bool_decide_eq_true.
Qed.

Lemma with_peers_boot m w : i_boot (with_peers m w) = i_boot w.
Proof. unfold with_peers. by destruct (Bool.bool_dec _ _). Qed.

Lemma shown_route (n : PrefixNet.t) : route_ok (net_show n).
Proof.
  assert (Forall (fun a => is_ascii_digit a = true \/ a = "."%char \/ a = "/"%char) (chars (net_show n))) as Hall.
  { change (net_show n) with (show_ipv4 (PrefixNet.base n) +:+ "/" +:+ show (PrefixNet.len n)).
    rewrite !chars_app. destruct (PrefixNet.field_range n) as [Hb Hl]. apply Forall_app. split; [| apply Forall_app; split].
    - unfold show_ipv4. pose proof (ipv4_octets _ Hb) as Ho. destruct (octets (PrefixNet.base n)) as [[[a b] c] d].
      destruct Ho as (_ & Ha & Hb' & Hc & Hd). unfold join. rewrite chars_str. apply join_Forall; [tauto |]. unfold is_u in *.
      cbn [fmap list_fmap]. repeat apply Forall_cons_2; try apply Forall_nil_2; unfold show; rewrite chars_str;
        (eapply Forall_impl; [apply show_bytes_digits; lia | intros ? ?; by left]).
    - apply Forall_singleton. by right; right.
    - unfold show. rewrite chars_str. eapply Forall_impl; [apply show_bytes_digits; lia | intros ? ?; by left]. }
  split; [split |].
  - intros He. apply (f_equal chars) in He.
    change (net_show n) with (show_ipv4 (PrefixNet.base n) +:+ "/" +:+ show (PrefixNet.len n)) in He. rewrite !chars_app in He. change (chars "/") with ["/"%char] in He.
    destruct (chars (show_ipv4 _)); done.
  - eapply Forall_impl; [exact Hall |]. intros a [Ha | [-> | ->]]; [| done | done]. apply alnum_printable.
    unfold is_ascii_alphanumeric. by rewrite Ha.
  - apply not_true_is_false. intros (a & Ha & Hc)%existsb_exists. apply bool_decide_eq_true in Hc as <-.
    apply list_elem_of_In, (proj1 (Forall_forall _ _) Hall) in Ha as [Ha | [Ha | Ha]]; done.
Qed.

Lemma set_peers_ok k rs (m : gmap string (gset string)) : validate_peer_key k = Ok tt -> set_Forall route_ok rs -> peers_ok m ->
  peers_ok (<[k := rs]> ((fun s => s ∖ rs) <$> m)).
Proof.
  intros Hk Hrs [Hp Ha].
  assert (forall k' s', (<[k := rs]> ((fun s => s ∖ rs) <$> m) : gmap string (gset string)) !! k' = Some s' ->
    (k' = k /\ s' = rs) \/ (k' <> k /\ exists s0, m !! k' = Some s0 /\ s' = s0 ∖ rs)) as Hcase.
  { intros k' s' Hs. destruct (decide (k = k')) as [<- | Hne]; [rewrite lookup_insert_eq in Hs; injection Hs as <-; by left |].
    rewrite lookup_insert_ne, lookup_fmap in Hs by done. right. split; [done |]. destruct (m !! k') as [s0 |]; [| done].
    injection Hs as <-. by exists s0. }
  split.
  - intros k' s' [[-> ->] | (_ & s0 & Hs0 & ->)]%Hcase; [by split |]. destruct (Hp _ _ Hs0) as [Hk' Hs']. split; [done |].
    intros r Hr. apply Hs'. set_solver.
  - intros k1 s1 Hs1 k2 s2 Hs2 Hne. apply Hcase in Hs1 as [[-> ->] | (_ & a & Ha1 & ->)], Hs2 as [[-> ->] | (_ & b & Hb1 & ->)];
      [done | set_solver | set_solver |]. pose proof (Ha _ _ Ha1 _ _ Hb1 Hne). set_solver.
Qed.

Lemma sample_split (routes : list PrefixNet.t) : routes <> [] -> split ","%char (join "," (net_show <$> routes)) = net_show <$> routes.
Proof.
  intros Hne. unfold split, join. rewrite chars_str, split_join; [| by destruct routes |].
  - rewrite <- list_fmap_compose. rewrite <- (list_fmap_id (net_show <$> routes)) at 2. apply list_fmap_ext. intros i x _. apply str_chars.
  - apply Forall_fmap, Forall_fmap, Forall_forall. intros n _. apply Forall_forall. intros a Ha.
    destruct (eqb_ascii a ","%char) eqn:E; [| done]. apply bool_decide_eq_true in E as ->. destruct (shown_route n) as [_ Hc].
    assert (contains_byte ","%char (net_show n) = true); [| congruence]. apply existsb_exists. exists ","%char.
    split; [by apply list_elem_of_In | by apply bool_decide_eq_true].
Qed.

#[export] Instance wireguard_laws : WireGuardLaws iface PrefixNet.t.
Proof.
  split.
  - done.
  - intros w. destruct (iface_ok w) as [Hp _]. cbn. unfold listing. apply Forall_fmap, Forall_forall. intros [k s] Hin%elem_of_map_to_list.
    destruct (Hp _ _ Hin) as [Hk Hs]. cbn. split_and!; [done | apply NoDup_elements |].
    apply Forall_forall. intros r Hr. apply Hs. by apply elem_of_elements.
  - intros w. cbn. unfold listing. rewrite <- list_fmap_compose. apply NoDup_fst_map_to_list.
  - intros w k1 k2 s1 s2 Hne. rewrite access_peers. intros Hs1 Hs2. by apply (proj2 (iface_ok w) k1 s1 Hs1 k2 s2 Hs2).
  - intros key routes w Hk Hne _ rs. rewrite !access_peers.
    unfold wg_set, wireguard. rewrite sample_split by done. apply with_peers_ok. apply set_peers_ok; [done | | apply iface_ok].
    intros r (n & -> & _)%elem_of_list_to_set%list_elem_of_fmap. apply shown_route.
  - intros. apply with_peers_boot.
  - intros key w. rewrite !access_peers. cbn. apply with_peers_ok. destruct (iface_ok w) as [Hp Ha]. split.
    + by apply map_Forall_delete.
    + intros k1 s1 Hs1 k2 s2 Hs2. apply lookup_delete_Some in Hs1 as [_ Hs1], Hs2 as [_ Hs2]. by apply (Ha _ _ Hs1).
  - intros. apply with_peers_boot.
  - intros w w'. rewrite !access_peers. cbn. unfold conf. rewrite chars_str, of_bits_of, countable.decode_encode.
    apply with_peers_ok, iface_ok.
  - intros w. by rewrite !access_peers.
  - intros w. by rewrite access_peers.
Qed.

Definition record_tuple (r : friend_record) := (fr_public_key r, fr_name r, fr_private_key r).

#[export] Instance friend_record_countable : Countable friend_record.
Proof. by apply (inj_countable' record_tuple (fun '(k, n, p) => FriendRecord k n p)); intros []. Defined.

Definition store_tuple (s : friend_store) := (fs_schema s, fs_records s, fs_owners s).

#[export] Instance friend_store_countable : Countable friend_store.
Proof. by apply (inj_countable' store_tuple (fun '(n, r, o) => FriendStore n r o)); intros []. Defined.

Definition encode_json (s : friend_store) : string := str (bits_of (countable.encode s)).
Definition decode_json (d : string) : option friend_store := countable.decode (of_bits (removelast (chars d))).

Lemma decode_encode_json s : decode_json (with_lf (encode_json s)) = Some s.
Proof. unfold decode_json, with_lf, encode_json. by rewrite chars_str, removelast_last, chars_str, of_bits_of, countable.decode_encode. Qed.

(** The calls of [fails] fail, and leave the interface without peers. *)
Definition world (fails : nat -> option error) : ServerWorld iface := {|
  os := fails;
  torn _ w := with_peers ∅ w;
  torn_save _ w := Iface (i_peers w) ∅ (i_ok w);
  new_inode n := Z.of_nat n;
  clock _ := 0;
  to_json := encode_json;
  json_schema d := fs_schema <$> decode_json d;
  parse_legacy _ := None;
  parse_store := decode_json;
  parse_warp _ := None;
  parse_friend_name s := Some s;
  status_json _ := ""%string;
  managed_json _ := ""%string;
  warp_helper _ _ f := f;
  warp_output _ _ := ""%string;
  to_lowercase := to_ascii_lowercase;
|}.

Lemma world_laws fails : @ServerLaws iface wireguard (world fails) wireguard_peers.
Proof.
  split.
  - intros n w. rewrite !access_peers. done.
  - intros s _. exact (f_equal (fmap fs_schema) (decode_encode_json s)).
  - intros s _. exact (decode_encode_json s).
  - intros n. by vm_compute.
Qed.

Definition sample_peers : gmap string (gset string) :=
  {[key_of "O"%char := {["10.202.0.2/32"%string]}; key_of "F"%char := {["10.202.0.3/32"%string]}]}.

Definition sample_store : friend_store := FriendStore 2 [FriendRecord (key_of "F"%char) "Ann" None] [key_of "O"%char].

Lemma sample_peers_ok : bool_decide (peers_ok sample_peers) = true.
Proof. by vm_compute. Qed.

(** A router and a friend that is connected, on a server where WARP is prepared. *)
Definition sample_host : host iface :=
  Host 0 (Iface sample_peers sample_peers sample_peers_ok) (Some (FileMeta DirectoryFile 0x1c0 0 2 0 1))
    (Some (Node (FileMeta RegularFile 0x180 0 1 0 2) (with_lf (encode_json sample_store)))) None
    (Some (Node (FileMeta RegularFile 0x180 0 1 0 3) "WG_INTERFACE=gt0")) None.

Lemma sample_store_ok : store_ok sample_store.
Proof.
  split; [done | | | ].
  - repeat constructor; done.
  - repeat constructor; done.
  - apply (bool_decide_unpack _). by vm_compute.
Qed.

Lemma sample_metadata fails : @metadata_of iface (world fails) sample_host = Ok sample_store.
Proof. unfold metadata_of. cbn [store_file sample_host n_data]. apply (@decode_written _ _ _ _ (world_laws fails)). exact sample_store_ok. Qed.

Definition quiet_world : nat -> option error := fun _ => None.
(** The call that gives the new peer its route fails. *)
Definition bad_set : nat -> option error := fun n => if (n =? 24)%nat then Some (Msg "wg failed") else None.

Definition run_sample (fails : nat -> option error) (op : operation) : host iface * (error + string) :=
  @run_operation iface wireguard (world fails) PrefixNet.t _ "gt0" op sample_host.


(** What is seen of an outcome: the error, the peers, the friends by name, the owners. *)
Definition seen {A} (out : host iface * (error + A)) :=
  (match out.2 with inl e => Some e | inr _ => None end, listing (wg out.1),
   match (store_file out.1) with Some f => match decode_json (n_data f) with Some s => (fr_name <$> fs_records s, fs_owners s) | None => ([], []) end | None => ([], []) end).

Example friend_created :
  seen (run_sample quiet_world (OpCreate "198.51.100.1:8443" "Bob")) =
    (None, [(key_of "O", ["10.202.0.2/32"]); (key_of "N", ["10.202.0.4/32"]); (key_of "F", ["10.202.0.3/32"])],
     (["Ann"; "Bob"], [key_of "O"]))%string%char.
Proof. by vm_compute. Qed.

Example friend_rolled_back :
  seen (run_sample bad_set (OpCreate "198.51.100.1:8443" "Bob")) =
    (Some (Msg "wg failed"), [(key_of "O", ["10.202.0.2/32"]); (key_of "F", ["10.202.0.3/32"])], (["Ann"], [key_of "O"]))%string%char.
Proof. by vm_compute. Qed.

Example name_taken :
  (seen (run_sample quiet_world (OpCreate "198.51.100.1:8443" "ANN"))).1.1 = Some (Msg "an active friend already has this name").
Proof. by vm_compute. Qed.

Example router_added :
  seen (run_sample quiet_world (OpAddRouter (key_of "R"%char) "10.202.0.9/32")) =
    (None, [(key_of "O", ["10.202.0.2/32"]); (key_of "F", ["10.202.0.3/32"]); (key_of "R", ["10.202.1.9/32"; "10.202.0.9/32"])],
     (["Ann"], [key_of "O"; key_of "R"]))%string%char.
Proof. by vm_compute. Qed.

(** A removal whose save fails: the peer is gone, the file for the next boot is what the save left of it. *)
Example removal_unsaved :
  let out := run_sample (fun n => if (n =? 1)%nat then Some (Msg "save failed") else None) (OpRemovePeer (key_of "F"%char)) in
  (seen out).1.1 = Some (Msg "save failed") /\ i_peers (wg out.1) !! key_of "F"%char = None /\ i_boot (wg out.1) = ∅.
Proof. by vm_compute. Qed.

Lemma sample_fresh : @fresh_keys iface wireguard (registry_of sample_host sample_store).
Proof.
  intros n out. change (wg_pubkey (trim (wg_genkey n))) with (Some (key_of "N"%char)). intros [= <-].
  split; [by vm_compute |]. apply (bool_decide_unpack _). by vm_compute.
Qed.
End SampleServer.

(** The sample server in a world where the creation of a friend is rolled back. *)
Section Witnesses.
Import SampleServer.
#[local] Instance bad_world : ServerWorld iface := world bad_set.
#[local] Instance bad_world_laws : ServerLaws iface := world_laws bad_set.

Lemma operations_refine_witness :
  let '(h', r) := run_operation (net := PrefixNet.t) "gt0" (OpCreate "198.51.100.1:8443" "Bob") sample_host in
  exists g', represents h' g' /\ outcome (net := PrefixNet.t) (OpCreate "198.51.100.1:8443" "Bob") (registry_of sample_host sample_store) g' r.
Proof.
  destruct (run_operation _ _ _) as [h' r] eqn:E.
  assert (represents sample_host (registry_of sample_host sample_store)) as Hrep.
  { exists sample_store. split_and!; [apply sample_metadata | apply sample_store_ok | done]. }
  destruct (operations_refine (net := PrefixNet.t) _ _ _ _ _ _ Hrep (eq_refl : operation_ok (OpCreate "198.51.100.1:8443" "Bob")) sample_fresh E)
    as (g' & Hg & Ho & _).
  exact (ex_intro _ g' (conj Hg Ho)).
Defined.

Lemma router_identity_first_witness :
  let '(h', r) := add_router_peer (net := PrefixNet.t) "gt0" (key_of "R"%char) "10.202.0.9/32" sample_host in
  access (wg h') = access (wg sample_host) \/ exists s', metadata_of h' = Ok s' /\ key_of "R"%char ∈ fs_owners s'.
Proof.
  destruct (add_router_peer _ _ _ _) as [h' r] eqn:E.
  exact (router_identity_first (net := PrefixNet.t) _ _ _ _ _ _ _ (sample_metadata _) sample_store_ok E).
Defined.

Lemma lowest_free_address_witness :
  match allocate_tunnel_ip (net := PrefixNet.t) (wg_allowed_ips (wg sample_host)) with
  | Ok n => exists host, 2 <= host <= 254 /\ addr n = candidate host /\ prefix_len n = 32 /\
              ~ taken (net := PrefixNet.t) (wg sample_host) (candidate host) /\
              forall lower, 2 <= lower < host -> taken (net := PrefixNet.t) (wg sample_host) (candidate lower)
  | Err _ => forall host, 2 <= host <= 254 -> taken (net := PrefixNet.t) (wg sample_host) (candidate host)
  end.
Proof. apply (lowest_free_address (net := PrefixNet.t) (wg sample_host)). Defined.

Lemma warp_broadens_owners_only_witness :
  match authorize_warp (net := PrefixNet.t) "gt0" sample_host with
  | (h', inr _) => access (wg h') !! key_of "F"%char = Some {["10.202.0.3/32"%string]}
  | (h', inl e) => access (wg h') = access (wg sample_host) \/ exists m e2, e = Ctx m e2
  end.
Proof.
  destruct (authorize_warp _ _) as [h' r] eqn:E.
  pose proof (warp_broadens_owners_only (net := PrefixNet.t) _ _ _ _ _ (sample_metadata _) sample_store_ok E) as Hw.
  destruct r as [e | u]; [exact Hw |]. destruct Hw as [_ Hk]. destruct (Hk (key_of "F"%char)) as [Hsame _].
  rewrite Hsame; [by vm_compute |]. left. apply (bool_decide_unpack _). by vm_compute.
Defined.
End Witnesses.
