(* ===== verification/Onboarding.v ===== *)
(** * Onboarding and the panel's state (crates/gofro-agent/src/onboarding.rs)

    The state of the panel's credentials and sessions ([auth]), the files they
    live in, and the onboarding marker that says which step of the first setup
    the router is at. The world answers every interaction by its number: the
    [n]-th system call fails or not, the [n]-th look at the clock reads [now n]. *)

From stdpp Require Import base strings list.
From Stdlib Require Import Ascii ZArith Lia.
From S2P Require Import Prelude RustStd Effects.

(** ** State *)

(** A file: whether it is a regular one, its permission bits, its bytes. *)
Record file := File { f_regular : bool; f_mode : Z; f_data : string }.

(** What the agent writes, for itself alone: mode 0600 (0x180). *)
Definition private_file (data : string) : file := File true 0x180 data.

Record session := Session { s_token : string; s_csrf : string; s_expires : Z }.

(** [Auth] with its files, the onboarding files, and the number of the next interaction. *)
Record auth := Auth {
  tick : nat;
  password : option file;
  temporary : bool;
  setup_code : option file;
  onboarding_state : option file;
  onboarding_window : option file;
  onboarding_error : option file;
  sessions : list session;
  failed : option Z;
  permit : bool;
}.

Definition set_tick n a := Auth n (password a) (temporary a) (setup_code a) (onboarding_state a)
  (onboarding_window a) (onboarding_error a) (sessions a) (failed a) (permit a).
Definition set_password f a := Auth (tick a) f (temporary a) (setup_code a) (onboarding_state a)
  (onboarding_window a) (onboarding_error a) (sessions a) (failed a) (permit a).
Definition set_temporary b a := Auth (tick a) (password a) b (setup_code a) (onboarding_state a)
  (onboarding_window a) (onboarding_error a) (sessions a) (failed a) (permit a).
Definition set_setup_code f a := Auth (tick a) (password a) (temporary a) f (onboarding_state a)
  (onboarding_window a) (onboarding_error a) (sessions a) (failed a) (permit a).
Definition set_onboarding_state f a := Auth (tick a) (password a) (temporary a) (setup_code a) f
  (onboarding_window a) (onboarding_error a) (sessions a) (failed a) (permit a).
Definition set_sessions l a := Auth (tick a) (password a) (temporary a) (setup_code a) (onboarding_state a)
  (onboarding_window a) (onboarding_error a) l (failed a) (permit a).
Definition set_failed t a := Auth (tick a) (password a) (temporary a) (setup_code a) (onboarding_state a)
  (onboarding_window a) (onboarding_error a) (sessions a) t (permit a).
Definition set_permit b a := Auth (tick a) (password a) (temporary a) (setup_code a) (onboarding_state a)
  (onboarding_window a) (onboarding_error a) (sessions a) (failed a) b.

(** [Auth::configured]; looking at a path of the state directory does not fail. *)
Definition configured (a : auth) : bool := bool_decide (is_Some (password a)).

Inductive step := StepAdmin | StepServer | StepComplete.

#[export] Instance step_eq_dec : EqDecision step.
Proof. solve_decision. Defined.

Record onboarding_status := OnboardingStatus {
  os_step : step;
  os_setup_window_seconds : option Z;
  os_error : option string;
}.

Definition STATE_LIMIT : Z := 32.
Definition ADMIN_MARKER : string := str (chars "admin" ++ [LF]).
Definition SERVER_MARKER : string := str (chars "server" ++ [LF]).
Definition LEGACY_MARKERS : list string := (fun s => str (chars s ++ [LF])) <$> ["wifi"; "wifi_applying"]%string.

Section Onboarding.
(* the n-th system call fails *)
Variable os : nat -> option error.
(* /proc/sys/kernel/random/boot_id and /proc/uptime *)
Variables boot_id uptime : nat -> option string.

#[local] Notation M := (eff auth error).

Definition next_tick {E} : eff auth E nat := fun a => (set_tick (S (tick a)) a, inr (tick a)).

Definition call : M unit := n ← next_tick; match os n with Some e => throw e | None => mret tt end.

(** Opening a file for reading: [None] is [NotFound]. *)
Definition open_file (f : auth -> option file) : M (option file) := call ;; read f.

Definition read_limited (f : auth -> option file) (limit : Z) : M (option string) :=
  found ← open_file f;
  match found with
  | None => mret None
  | Some f =>
      call ;;
      require (f_regular f && (Z.land (f_mode f) 0x3f =? 0)) (Msg "unsafe onboarding state file") ;;
      call ;;
      require (slen (f_data f) <=? limit) (Msg "onboarding state is too large") ;;
      mret (Some (f_data f))
  end.

Definition marker : M (option step) :=
  value ← read_limited onboarding_state STATE_LIMIT;
  match value with
  | None => mret None
  | Some v =>
      if bool_decide (v = ADMIN_MARKER) then mret (Some StepAdmin)
      else if bool_decide (v = SERVER_MARKER) then mret (Some StepServer)
      else if bool_decide (v ∈ LEGACY_MARKERS) then throw (Msg "legacy Wi-Fi onboarding requires migration")
      else throw (Msg "invalid onboarding state")
  end.

(** [step] *)
Definition onboarding_step : M step :=
  m ← marker;
  c ← read configured;
  match m with
  | None => mret StepComplete
  | Some StepAdmin => require (negb c) (Msg "onboarding marker does not match credentials") ;; mret StepAdmin
  | Some StepServer => require c (Msg "onboarding marker does not match credentials") ;; mret StepServer
  | Some StepComplete => throw (Msg "onboarding marker does not match credentials")
  end.

Definition window_seconds (window boot uptime : string) : Z :=
  default 0 (
    value ← utf8_string window;
    '(stored_boot, deadline) ← split_once " "%char (trim_end value);
    now ← head (split "."%char uptime) ≫= parse_u64;
    deadline ← (if bool_decide (stored_boot = boot) then parse_u64 deadline else None);
    left ← (if now <=? deadline then Some (deadline - now) else None);
    if left <=? 900 then Some left else None).

Definition setup_window_seconds {E} : eff auth E Z :=
  window ← try (read_limited onboarding_window 128);
  n ← next_tick;
  m ← next_tick;
  mret (match window, boot_id n, uptime m with
        | Ok (Some window), Some boot, Some uptime => window_seconds window (trim boot) uptime
        | _, _, _ => 0
        end).

(** [status] *)
Definition onboarding_status_of : M onboarding_status :=
  s ← onboarding_step;
  window ← (if bool_decide (s = StepAdmin) then Some <$> setup_window_seconds else mret None);
  e ← read_limited onboarding_error 256;
  mret (OnboardingStatus s window ((fun _ => "onboarding_failed"%string) <$> e)).

(** [atomic] on [onboarding-state]: its temporary file is never read. *)
Definition atomic_state (value : string) : M unit :=
  call ;; call ;; call ;;
  call ;; update (set_onboarding_state (Some (private_file value))) ;;
  call ;; call.

Definition complete_admin : M unit :=
  c ← read configured;
  require c (Msg "admin credentials are required") ;;
  m ← marker;
  match m with
  | None => mret tt
  | Some StepComplete => throw (Msg "invalid onboarding state")
  | Some s =>
      (match s with StepAdmin => atomic_state SERVER_MARKER | _ => call ;; call end) ;;
      call ;; update (set_setup_code None) ;;
      call ;; call
  end.

(** [complete] *)
Definition complete_onboarding : M onboarding_status :=
  s ← onboarding_step;
  require (bool_decide (s = StepServer)) (Msg "onboarding is not ready") ;;
  call ;; update (set_onboarding_state None) ;;
  call ;; call ;;
  onboarding_status_of.
End Onboarding.
