(* ===== verification/Auth.v ===== *)
(** * The panel's authentication (crates/gofro-agent/src/auth.rs)

    The credential file, the sessions, and the HTTP handlers around them. A
    handler holds the hashing permit from the check of a password to the session
    it issues; between its parts other requests run, so the parts are
    definitions of their own, [step] interleaves them, and the sequential
    handler is their composition. scrypt is that of [Kdf]; PBKDF2, the random
    generator, the clock and the file system answer from outside. *)

From stdpp Require Import base strings list.
From Stdlib Require Import Ascii ZArith Lia.
From S2P Require Import Prelude RustStd Effects Kdf Model Onboarding.

Definition SESSION : string := "__Host-gofro-session".
Definition CSRF : string := "__Host-gofro-csrf".

(** Instants and durations count nanoseconds. *)
Definition SECOND : Z := 1000000000.
Definition TTL : Z := 1800 * SECOND.

(** ** Requests and responses *)

(** Names in lower case, values as they were sent, in order. *)
Definition headers := list (string * string).

Inductive method := GET | HEAD | OPTIONS | OtherMethod (name : string).

#[export] Instance method_eq_dec : EqDecision method.
Proof. solve_decision. Defined.

Record uri := Uri { u_authority : option string; u_path : string }.

Inductive auth_body :=
| ErrorBody (code : string)
| AuthReply (state csrf_token : string) (setup_method : option string) (setup_window_seconds : option Z).

Record response := Response { r_status : Z; r_body : auth_body; r_set_cookie : list string; r_cache_control : string }.

Definition get_all (name : string) (h : headers) : list string := omap (fun '(n, v) => if bool_decide (n = name) then Some v else None) h.
Definition get_header (name : string) (h : headers) : option string := head (get_all name h).

(** [HeaderValue::to_str]: visible ASCII and tabs. *)
Definition to_str (v : string) : option string :=
  if forallb (fun a => in_range 32 126 a || (code a =? 9)) (chars v) then Some v else None.

(** [headers.get(name).and_then(|v| v.to_str().ok())] *)
Definition header_text (name : string) (h : headers) : option string := get_header name h ≫= to_str.

Definition error_response (status : Z) (code : string) : response := Response status (ErrorBody code) [] "no-store".

Definition reply (state csrf : string) (session : option string) (setup_method : option string)
  (setup_window_seconds : option Z) : response :=
  Response 200 (AuthReply state csrf setup_method setup_window_seconds)
    ((CSRF +:+ "=" +:+ csrf +:+ "; Path=/; Secure; HttpOnly; SameSite=Strict")%string
     :: match session with
        | Some token => [(SESSION +:+ "=" +:+ token +:+ "; Path=/; Secure; HttpOnly; SameSite=Strict; Max-Age=1800")%string]
        | None => []
        end)
    "no-store".

Definition constant_time_eq (left right : string) : bool :=
  (slen left =? slen right) && bool_decide (chars left = chars right).

Definition setup_code_matches (input codes : string) : bool := existsb (constant_time_eq input) (lines codes).

Definition password_too_long (password : string) : bool := 128 <? slen password.

Definition setup_password_error (password : string) : option string :=
  if char_count password <? 8 then Some "password_too_short"%string
  else if password_too_long password then Some "password_too_long"%string
  else None.

Definition request_authority (u : uri) (h : headers) : option string :=
  match get_all "host" h with
  | [] => u_authority u
  | value :: rest =>
      host ← to_str value;
      match rest with
      | [] =>
          match u_authority u with
          | Some authority => if bool_decide (authority = host) then Some authority else None
          | None => Some host
          end
      | _ => None
      end
  end.

(** The loop over the parts of one [Cookie] header; [None] is the early return. *)
Fixpoint cookie_parts (name : string) (parts : list string) (found : option string) : option (option string) :=
  match parts with
  | [] => Some found
  | part :: parts =>
      '(key, value) ← split_once "="%char (trim part);
      if bool_decide (key = name) then
        match found with
        | Some _ => None
        | None => cookie_parts name parts (Some value)
        end
      else cookie_parts name parts found
  end.

Fixpoint cookie_headers (name : string) (values : list string) (found : option string) : option (option string) :=
  match values with
  | [] => Some found
  | value :: values =>
      text ← to_str value;
      found ← cookie_parts name (split ";"%char text) found;
      cookie_headers name values found
  end.

Definition cookie (h : headers) (name : string) : option string :=
  found ← cookie_headers name (get_all "cookie" h) None; found.

(** ** The credential record *)

Definition hex (bytes : list Z) : string := str (concat (hex2 <$> bytes)).

Fixpoint pairs (l : list ascii) : list (list ascii) :=
  match l with
  | a :: b :: l => [a; b] :: pairs l
  | _ => []
  end.

Definition is_ascii (s : string) : bool := forallb (fun a => code a <? 128) (chars s).

Definition unhex (value : string) : result (list Z) :=
  _ ← ensure (is_ascii value && (slen value mod 2 =? 0)) "bad credential";
  mapM (fun p => ok_or (parse_radix 16 u8_max (str p)) "bad credential") (pairs (chars value)).

Definition RECORD_PREFIX : list string := ["gofro-scrypt-v1"; "16384"; "8"; "1"].

(** The text of [write_record]. *)
Definition record_text (salt hash : list Z) : string := join "$" (RECORD_PREFIX ++ [hex salt; hex hash]).

(** What [read_record] makes of the text. *)
Definition parse_record (value : string) : result (list Z * list Z) :=
  let parts := split "$"%char value in
  _ ← ensure ((length parts =? 6)%nat && bool_decide (take 4 parts = RECORD_PREFIX)) "malformed credential";
  salt ← unhex (default ""%string (parts !! 4%nat));
  hash ← unhex (default ""%string (parts !! 5%nat));
  _ ← ensure ((length salt =? 32)%nat && (length hash =? 32)%nat) "malformed credential";
  Ok (salt, hash).

Definition password_bytes (s : string) : list Z := code <$> chars s.

Section Auth.
Variable now : nat -> Z.
Variable os : nat -> option error.
(* the t-th interaction fills a buffer of n bytes *)
Variable rand_bytes : nat -> nat -> result (list Z).
Variables boot_id uptime : nat -> option string.
Variable pbkdf2_hmac : list Z -> list Z -> nat -> result (list Z).
(* the constant fields of AppState *)
Variables lan_address https_port : Z.

#[local] Notation M := (eff auth error).
(** A handler: the error is an early response. *)
#[local] Notation handler := (eff auth response).
#[local] Notation call := (call os).

Definition instant {E} : eff auth E Z := now <$> next_tick.

Definition random (n : nat) : M (list Z) := t ← next_tick; of_result (rand_bytes t n).

Definition token : M string := bytes ← random 32; mret (hex bytes).

Definition scrypt32 (password : string) (salt : list Z) : result (list Z) :=
  scrypt R N STRIDE pbkdf2_hmac (password_bytes password) salt 32.

Definition read_record : M (list Z * list Z) :=
  call ;;
  found ← read password;
  match found with
  | None => throw (Msg "no such file")
  | Some f =>
      require ((Z.land (f_mode f) 0x3f =? 0) && (slen (f_data f) <=? 512)) (Msg "credential permissions are unsafe") ;;
      call ;;
      value ← of_result (ok_or (utf8_string (f_data f)) "stream did not contain valid UTF-8");
      of_result (parse_record value)
  end.

(** [verify] *)
Definition verify_record (record : list Z * list Z) (password : string) : result bool :=
  actual ← scrypt32 password record.1;
  Ok (bool_decide (actual = record.2)).

(** [fs::remove_file(&temporary)], and the file it leaves. *)
Definition remove_temporary : M unit := call ;; update (set_temporary false).

Definition write_record (password : string) : M unit :=
  salt ← random 32;
  hash ← of_result (scrypt32 password salt);
  remove_temporary ;;
  call ;; t ← read temporary; require (negb t) (Msg "File exists") ;; update (set_temporary true) ;;
  result ← try (call ;; call ;; call ;;
                update (fun a => set_temporary false (set_password (Some (private_file (record_text salt hash))) a)));
  match result with
  | Err e => try (E := error) remove_temporary ;; throw e
  | Ok _ =>
      synced ← try (call ;; call);
      match synced with
      | Err e => throw (Mark RecordPublished e)
      | Ok _ => mret tt
      end
  end.

(** [Auth::open] *)
Definition open_auth : M unit :=
  c ← read configured;
  (if c : bool then read_record ;; mret tt else mret tt) ;;
  update (fun a => set_permit true (set_failed None (set_sessions [] a))).

(** ** Sessions *)

(** [sessions.retain(|item| item.expires > Instant::now())] *)
Fixpoint retain_live (n : nat) (l : list session) : list session * nat :=
  match l with
  | [] => ([], n)
  | s :: l =>
      let live := now n <? s_expires s in
      let '(kept, n) := retain_live (S n) l in
      (if live then s :: kept else kept, n)
  end.

Definition drop_expired {E} : eff auth E unit :=
  update (fun a => let '(kept, n) := retain_live (tick a) (sessions a) in set_tick n (set_sessions kept a)).

(** [while sessions.len() >= 32 { sessions.remove(0) }] *)
Definition make_room (l : list session) : list session := drop (length l - 31) l.

(** [Auth::issue] *)
Definition issue : M (string * string) :=
  drop_expired ;;
  update (fun a => set_sessions (make_room (sessions a)) a) ;;
  session_token ← token;
  csrf ← token;
  t ← instant;
  update (fun a => set_sessions (sessions a ++ [Session session_token csrf (t + TTL)]) a) ;;
  mret (session_token, csrf).

(** [session] *)
Definition find_session (h : headers) : M (string * string) :=
  token ← of_result (ok_or (cookie h SESSION) "missing session");
  drop_expired ;;
  l ← read sessions;
  s ← of_result (ok_or (find_first (fun item => bool_decide (s_token item = token)) l) "invalid session");
  mret (s_token s, s_csrf s).

(** ** Who may ask *)

Definition allowed_https_authority (value : string) : bool :=
  bool_decide (value ∈ [AP_DOMAIN; AP_DOMAIN +:+ ":443"; AP_DOMAIN +:+ ":8443";
                        show_ipv4 lan_address +:+ ":" +:+ show https_port;
                        AP_DOMAIN +:+ ":" +:+ show https_port]%string).

Definition allowed_host (u : uri) (h : headers) : bool :=
  match request_authority u h with Some value => allowed_https_authority value | None => false end.

Definition allowed_origin (h : headers) : bool :=
  match header_text "origin" h ≫= strip_prefix "https://" with
  | Some value => allowed_https_authority value
  | None => false
  end.

(** The header [x-csrf-token] is [expected]. *)
Definition csrf_matches (h : headers) (expected : string) : bool :=
  match header_text "x-csrf-token" h with
  | Some value => constant_time_eq value expected
  | None => false
  end.

Definition preauth (u : uri) (h : headers) : bool :=
  allowed_host u h && allowed_origin h
  && match cookie h CSRF, header_text "x-csrf-token" h with
     | Some a, Some b => constant_time_eq a b
     | _, _ => false
     end.

(** ** Handlers *)

Definition acquire : handler unit :=
  p ← read permit;
  require p (error_response 409 "auth_busy") ;; update (set_permit false).

Definition release {E} : eff auth E unit := update (set_permit true).

(** An error answer that gives the permit back. *)
Definition refuse {A} (status : Z) (code : string) : handler A := release ;; throw (error_response status code).

(** [inner.failed.is_some_and(|time| time.elapsed() < Duration::from_secs(1))] *)
Definition throttled {E} : eff auth E bool :=
  f ← read failed;
  match f with
  | None => mret false
  | Some t => n ← instant; mret (saturating_sub n t <? SECOND)
  end.

(** [status] *)
Definition auth_status (u : uri) (h : headers) : handler response :=
  require (allowed_host u h) (error_response 403 "request_rejected") ;;
  c ← read configured;
  csrf ← (if c : bool then
            found ← try (find_session h);
            match found with
            | Ok (_, csrf) => mret (Ok csrf)
            | Err _ => try token
            end
          else try token);
  match csrf with
  | Err _ => throw (error_response 500 "internal_error")
  | Ok csrf =>
      setup ← negb <$> read configured;
      window ← (if setup : bool then Some <$> setup_window_seconds os boot_id uptime else mret None);
      state ← (if setup : bool then mret "setup"%string
               else found ← try (find_session h);
                    mret (if is_ok found then "authenticated" else "login")%string);
      mret (reply state csrf None (if setup : bool then Some "code"%string else None) window)
  end.

(** The handler's answer once a session may be issued. *)
Definition issued (r : result (string * string)) : handler response :=
  match r with
  | Ok (token, csrf) => mret (reply "authenticated" csrf (Some token) None None)
  | Err _ => throw (error_response 500 "internal_error")
  end.

(** [setup]: up to the permit and the code, *)
Definition setup_enter (u : uri) (h : headers) (code : option string) (password : string) : handler unit :=
  require (preauth u h) (error_response 403 "request_rejected") ;;
  match setup_password_error password with
  | Some code => throw (error_response 400 code)
  | None => mret tt
  end ;;
  acquire ;;
  c ← read configured;
  if c : bool then refuse 409 "setup_completed"
  else
    w ← setup_window_seconds os boot_id uptime;
    if w =? 0 then refuse 403 "setup_closed"
    else
      opened ← try (call ;; f ← read setup_code;
                    f ← of_result (ok_or f "no such file");
                    of_result (ok_or (utf8_string (f_data f)) "stream did not contain valid UTF-8"));
      match opened with
      | Err _ => refuse 500 "setup_unavailable"
      | Ok codes =>
          if match code with Some input => setup_code_matches input codes | None => false end
          then mret tt else refuse 403 "invalid_setup_code"
      end.

(** on the blocking thread, *)
Definition setup_store (password : string) : M unit := write_record password ;; complete_admin os.

(** and after it. *)
Definition setup_finish (stored : result unit) : handler response :=
  match stored with
  | Err _ => refuse 500 "internal_error"
  | Ok _ => r ← try issue; release ;; issued r
  end.

Definition setup (u : uri) (h : headers) (code : option string) (password : string) : auth -> auth * response :=
  answered (setup_enter u h code password ;; stored ← try (setup_store password); setup_finish stored).

Definition login_enter (u : uri) (h : headers) (password : string) : handler unit :=
  require (preauth u h) (error_response 403 "request_rejected") ;;
  require (negb (password_too_long password)) (error_response 400 "password_too_long") ;;
  c ← read configured;
  require c (error_response 409 "setup_required") ;;
  acquire ;;
  t ← throttled;
  if t : bool then refuse 429 "login_throttled" else mret tt.

Definition login_verify (password : string) : M bool :=
  valid ← try (record ← read_record; of_result (verify_record record password));
  match valid with
  | Ok true => complete_admin os ;; mret true
  | _ => mret false
  end.

Definition login_finish (verified : result bool) : handler response :=
  match verified with
  | Err _ => refuse 500 "internal_error"
  | Ok false => t ← instant; update (set_failed (Some t)) ;; refuse 401 "invalid_password"
  | Ok true => r ← try issue; release ;; issued r
  end.

Definition login (u : uri) (h : headers) (password : string) : auth -> auth * response :=
  answered (login_enter u h password ;; verified ← try (login_verify password); login_finish verified).

(** The sessions under the token, up to the first that has not expired. *)
Fixpoint find_live (token : option string) (n : nat) (l : list session) : option session * nat :=
  match l with
  | [] => (None, n)
  | s :: l =>
      if bool_decide (Some (s_token s) = token) then
        if now n <? s_expires s then (Some s, S n) else find_live token (S n) l
      else find_live token n l
  end.

Definition current_session (h : headers) : handler (option session) := fun a =>
  let '(found, n) := find_live (cookie h SESSION) (tick a) (sessions a) in (set_tick n a, inr found).

(** Its end: a new session under the new password, and no other. *)
Definition replace_password (new_password : string) : handler response :=
  session_token ← try token;
  csrf ← try token;
  match session_token, csrf with
  | Ok session_token, Ok csrf =>
      persisted ← try (write_record new_password);
      match persisted with
      | Err e =>
          if error_is RecordPublished e
          then update (set_sessions []) ;; throw (error_response 500 "password_change_uncertain")
          else throw (error_response 500 "internal_error")
      | Ok _ =>
          t ← instant;
          update (fun a => set_sessions [Session session_token csrf (t + TTL)] (set_failed None a)) ;;
          mret (reply "authenticated" csrf (Some session_token) None None)
      end
  | _, _ => throw (error_response 500 "internal_error")
  end.

Definition change_password_record (h : headers) (current_password new_password : string) : handler response :=
  found ← current_session h;
  match found with
  | None => throw (error_response 401 "session_expired")
  | Some session =>
      require (csrf_matches h (s_csrf session)) (error_response 403 "request_rejected") ;;
      match setup_password_error new_password with
      | Some code => throw (error_response 400 code)
      | None => mret tt
      end ;;
      t ← throttled;
      require (negb t) (error_response 429 "login_throttled") ;;
      valid ← try (record ← read_record;
                   if password_too_long current_password then mret false
                   else of_result (verify_record record current_password));
      match valid with
      | Err _ => throw (error_response 500 "internal_error")
      | Ok false =>
          t ← instant; update (set_failed (Some t)) ;; throw (error_response 400 "invalid_current_password")
      | Ok true => replace_password new_password
      end
  end.

Definition change_password (h : headers) (current_password new_password : string) : auth -> auth * response :=
  answered (acquire ;;
            r ← settled (change_password_record h current_password new_password);
            release ;; mret r).

Definition logout (h : headers) : auth -> auth * response :=
  answered (
    found ← try (find_session h);
    match found with
    | Ok (token, csrf) =>
        require (bool_decide (header_text "x-csrf-token" h = Some csrf)) (error_response 403 "request_rejected") ;;
        update (fun a => set_sessions (filter (fun item => s_token item <> token) (sessions a)) a)
    | Err _ => mret tt
    end ;;
    csrf ← try token;
    let r := reply "login" (match csrf with Ok t => t | Err _ => "" end) None None None in
    mret (Response (r_status r) (r_body r)
            (r_set_cookie r ++ [(SESSION +:+ "=; Path=/; Secure; HttpOnly; SameSite=Strict; Max-Age=0")%string])
            (r_cache_control r))).

(** ** The middleware *)

(** The methods that change nothing. *)
Definition safe_method (m : method) : bool := match m with OtherMethod _ => false | _ => true end.

(** What may pass before the administrator's password is set. *)
Definition before_setup (m : method) (path : string) : bool :=
  bool_decide (m = GET /\ path = "/api/status"%string) || bool_decide (path = "/api/auth/logout"%string)
  || bool_decide (path = "/api/onboarding"%string) || bool_decide (path = "/api/onboarding/complete"%string).

(** [inr tt]: [next.run(request)]. *)
Definition require_auth (m : method) (u : uri) (h : headers) : handler unit :=
  require (allowed_host u h) (error_response 403 "request_rejected") ;;
  found ← try (find_session h);
  match found with
  | Err _ => throw (error_response 401 "session_expired")
  | Ok (_, csrf) =>
      require (safe_method m || (allowed_origin h && csrf_matches h csrf)) (error_response 403 "request_rejected") ;;
      s ← try (onboarding_step os);
      match s with
      | Err _ => throw (error_response 403 "onboarding_required")
      | Ok s => require (negb (bool_decide (s = StepAdmin) && negb (before_setup m (u_path u))))
                  (error_response 409 "onboarding_required")
      end
  end.
End Auth.
