(* ===== verification/AuthSafety.v ===== *)
(** * Safety of the panel's authentication

    The credential file survives a round trip and is replaced as a whole; the
    handlers of [Auth], cut where they let other requests run, as a step
    relation; and its invariants: a session belongs to someone who knew the
    password that is on disk now, wrong guesses are a second apart, and the
    middleware lets nobody else through. *)

From stdpp Require Import base strings list sorting.
From Stdlib Require Import Ascii ZArith Lia.
From S2P Require Import Prelude RustStd Effects Kdf Model Onboarding Auth.

(** ** Hexadecimal credentials *)

Lemma hex_digit_value d : 0 <= d < 16 -> digit_value 16 (digit_char d) = Some d.
Proof. intros Hd. apply digit_value_char; lia. Qed.

Lemma pairs_hex l : pairs (concat (hex2 <$> l)) = hex2 <$> l.
Proof. induction l as [| b l IH]; [done |]. cbn. by rewrite IH. Qed.

Lemma hex_length l : length (concat (hex2 <$> l)) = (2 * length l)%nat.
Proof. induction l as [| b l IH]; [done |]. cbn in *. rewrite IH. lia. Qed.

Definition byte_string (l : list Z) : Prop := Forall (is_u 8) l.

(** Hexadecimal text is made of digits and the letters a to f. *)
Lemma hex_byte_chars b : is_u 8 b -> Forall (fun a => is_ascii_hexdigit a = true) (hex2 b).
Proof.
  intros Hb. unfold is_u in Hb. assert (forall d, 0 <= d < 16 -> is_ascii_hexdigit (digit_char d) = true) as Hd.
  { intros d Hd. assert (d = 0 \/ d = 1 \/ d = 2 \/ d = 3 \/ d = 4 \/ d = 5 \/ d = 6 \/ d = 7 \/ d = 8 \/ d = 9
      \/ d = 10 \/ d = 11 \/ d = 12 \/ d = 13 \/ d = 14 \/ d = 15) as Hc by lia.
    by repeat destruct Hc as [-> | Hc]; [done.. |]; subst. }
  repeat constructor; apply Hd; [split; [apply Z.div_pos | apply Z.div_lt_upper_bound] | apply Z.mod_pos_bound]; lia.
Qed.

Lemma hex_chars l : byte_string l -> Forall (fun a => is_ascii_hexdigit a = true) (chars (hex l)).
Proof.
  intros Hl. unfold hex. rewrite chars_str. induction Hl as [| b l Hb Hl IH]; [constructor |].
  cbn [fmap list_fmap concat]. apply Forall_app. split; [by apply hex_byte_chars | done].
Qed.

Lemma hexdigit_without (c : ascii) l :
  is_ascii_hexdigit c = false -> Forall (fun a => is_ascii_hexdigit a = true) l -> Forall (fun a => eqb_ascii a c = false) l.
Proof.
  intros Hc Hl. eapply Forall_impl; [exact Hl |]. intros a Ha. apply bool_decide_eq_false. intros ->. congruence.
Qed.

(** [unhex] undoes [hex]. *)
Lemma unhex_hex l : byte_string l -> unhex (hex l) = Ok l.
Proof.
  intros Hl. unfold unhex. pose proof (hex_chars l Hl) as Hc.
  assert (is_ascii (hex l) = true) as ->.
  { apply forallb_forall. intros a Ha%list_elem_of_In. apply (proj1 (Forall_forall _ _) Hc) in Ha.
    unfold is_ascii_hexdigit, is_ascii_digit, in_range in Ha. repeat case_bool; lia. }
  assert (slen (hex l) mod 2 =? 0 = true) as ->.
  { unfold slen, hex. rewrite chars_str, hex_length. apply Z.eqb_eq.
    replace (Z.of_nat (2 * length l)) with (Z.of_nat (length l) * 2) by lia. by rewrite Z.mod_mul. }
  cbn. unfold hex. rewrite chars_str, pairs_hex. clear Hc.
  induction Hl as [| b l Hb Hl IH]; [done |]. cbn [fmap list_fmap mapM]. unfold is_u in Hb.
  assert (parse_radix 16 u8_max (str (hex2 b)) = Some b) as ->.
  { unfold parse_radix. rewrite chars_str. cbn [hex2].
    destruct (eqb_ascii (digit_char (b / 16)) "+"%char) eqn:E.
    { apply bool_decide_eq_true in E. pose proof (hex_byte_chars b Hb) as Hd. inversion Hd as [| x y Hx _ Heq]; subst.
      rewrite E in Hx. done. }
    cbn [parse_digits]. rewrite !hex_digit_value
      by (split; [apply Z.div_pos || apply Z.mod_pos_bound | apply Z.div_lt_upper_bound || apply Z.mod_pos_bound]; lia).
    rewrite Z.mul_0_r, Z.add_0_l, <- Z.div_mod by lia.
    assert (b <=? u8_max = true) as -> by (apply Z.leb_le; unfold u8_max; lia). done. }
  cbn. by rewrite IH.
Qed.

Lemma parse_record_text salt hash :
  byte_string salt -> byte_string hash -> length salt = 32%nat -> length hash = 32%nat ->
  parse_record (record_text salt hash) = Ok (salt, hash).
Proof.
  intros Hs Hh Hls Hlh. unfold parse_record, record_text, split, join. rewrite chars_str, split_join; [| done |].
  - cbn -[hex unhex]. rewrite !str_chars, !unhex_hex by done. cbn. by rewrite Hls, Hlh.
  - cbn [fmap list_fmap RECORD_PREFIX app]. repeat (apply Forall_cons; split; [by repeat constructor |]).
    repeat constructor; by (apply hexdigit_without; [done | apply hex_chars]).
Qed.

Section Safety.
Variable now : nat -> Z.
Variable os : nat -> option error.
Variable rand_bytes : nat -> nat -> result (list Z).
Variables boot_id uptime : nat -> option string.
Variable pbkdf2_hmac : list Z -> list Z -> nat -> result (list Z).
Variables lan_address https_port : Z.

#[local] Notation M := (eff auth error).
#[local] Notation read_record := (read_record os).
#[local] Notation scrypt32 := (scrypt32 pbkdf2_hmac).
#[local] Notation verify_record := (verify_record pbkdf2_hmac).
#[local] Notation write_record := (write_record os rand_bytes pbkdf2_hmac).
#[local] Notation complete_admin := (complete_admin os).
#[local] Notation issue := (issue now rand_bytes).
#[local] Notation find_session := (find_session now).

(** The clock does not run backwards; the random generator fills its buffer
    with bytes, and so does PBKDF2; an error of these is not [RecordPublished]. *)
Record honest_world : Prop := {
  hw_clock n : now n <= now (S n);
  hw_rand t n l : rand_bytes t n = Ok l -> length l = n /\ byte_string l;
  hw_kdf p s n l : pbkdf2_hmac p s n = Ok l -> length l = n /\ byte_string l;
  hw_os n e : os n = Some e -> error_is RecordPublished e = false;
  hw_rand_error t n e : rand_bytes t n = Err e -> error_is RecordPublished e = false;
  hw_kdf_error p s n e : pbkdf2_hmac p s n = Err e -> error_is RecordPublished e = false;
}.

(** ** What the parts leave alone *)

Record keeps (a a' : auth) : Prop := {
  k_tick : (tick a <= tick a')%nat;
  k_password : password a' = password a;
  k_sessions : sessions a' = sessions a;
  k_failed : failed a' = failed a;
  k_permit : permit a' = permit a;
}.

#[local] Instance keeps_preorder : PreOrder keeps.
Proof. split; [by intros a | intros a b c [] []; split; (congruence || lia)]. Qed.

Lemma next_tick_keeps {E} : preserves keeps (next_tick (E := E)).
Proof. intros a a' r [= <- <-]. split; cbn; (done || lia). Qed.
#[local] Hint Resolve next_tick_keeps : eff.

Lemma update_keeps {E} (f : auth -> auth) : (forall a, keeps a (f a)) -> preserves keeps (update (E := E) f).
Proof. apply preserves_update. Qed.
#[local] Hint Extern 4 (preserves keeps (update _)) => apply update_keeps; by split : eff.

Lemma call_keeps : preserves keeps (call os).
Proof. unfold call. preserved. Qed.
#[local] Hint Resolve call_keeps : eff.

Lemma read_limited_keeps f limit : preserves keeps (read_limited os f limit).
Proof. unfold read_limited, open_file. preserved. Qed.
#[local] Hint Resolve read_limited_keeps : eff.

Lemma marker_keeps : preserves keeps (marker os).
Proof. unfold marker. preserved. Qed.
#[local] Hint Resolve marker_keeps : eff.

Lemma complete_admin_keeps : preserves keeps complete_admin.
Proof. unfold Onboarding.complete_admin, atomic_state. preserved. Qed.
#[local] Hint Resolve complete_admin_keeps : eff.

Lemma onboarding_step_keeps : preserves keeps (onboarding_step os).
Proof. unfold onboarding_step. preserved. Qed.
#[local] Hint Resolve onboarding_step_keeps : eff.

Lemma window_keeps {E} : preserves keeps (setup_window_seconds (E := E) os boot_id uptime).
Proof. unfold setup_window_seconds. preserved.
Qed.
#[local] Hint Resolve window_keeps : eff.

Lemma complete_onboarding_keeps : preserves keeps (complete_onboarding os boot_id uptime).
Proof. unfold complete_onboarding, onboarding_status_of. preserved. Qed.

Lemma token_keeps : preserves keeps (token rand_bytes).
Proof. unfold token, random. preserved. Qed.
#[local] Hint Resolve token_keeps : eff.

Lemma instant_keeps {E} : preserves keeps (instant (E := E) now).
Proof. unfold instant. preserved. Qed.
#[local] Hint Resolve instant_keeps : eff.

Lemma read_record_keeps : preserves keeps read_record.
Proof. unfold Auth.read_record. preserved. Qed.
#[local] Hint Resolve read_record_keeps : eff.

Lemma throttled_keeps {E} : preserves keeps (throttled (E := E) now).
Proof. unfold throttled. preserved. Qed.
#[local] Hint Resolve throttled_keeps : eff.

Lemma login_verify_keeps p : preserves keeps (login_verify os pbkdf2_hmac p).
Proof. unfold login_verify. preserved. Qed.

(** ** Writing the credential *)

(** All but the credential files. *)
Record holds (a a' : auth) : Prop := {
  h_tick : (tick a <= tick a')%nat;
  h_sessions : sessions a' = sessions a;
  h_failed : failed a' = failed a;
  h_permit : permit a' = permit a;
}.

#[local] Instance holds_preorder : PreOrder holds.
Proof. split; [by intros a | intros a b c [] []; split; (congruence || lia)]. Qed.

Lemma keeps_holds {E A} (m : eff auth E A) : preserves keeps m -> preserves holds m.
Proof. intros Hm a a' r Hr. by destruct (Hm _ _ _ Hr). Qed.

#[local] Hint Extern 4 (preserves holds (update _)) => apply preserves_update; by split : eff.
#[local] Hint Extern 5 (preserves holds _) => apply keeps_holds : eff.

Lemma random_keeps n : preserves keeps (random rand_bytes n).
Proof. unfold random. preserved. Qed.
#[local] Hint Resolve random_keeps : eff.

Lemma remove_temporary_keeps : preserves keeps (remove_temporary os).
Proof. unfold remove_temporary. preserved. Qed.
#[local] Hint Resolve remove_temporary_keeps : eff.

Lemma write_record_holds p : preserves holds (write_record p).
Proof. unfold Auth.write_record. preserved. Qed.

Definition written (p : string) (a : auth) : Prop :=
  exists salt hash, password a = Some (private_file (record_text salt hash)) /\ scrypt32 p salt = Ok hash
    /\ byte_string salt /\ byte_string hash /\ length salt = 32%nat /\ length hash = 32%nat.

(** The password unlocks the record on disk. *)
Definition unlocks (a : auth) (p : string) : Prop :=
  exists f record, password a = Some f /\ parse_record (f_data f) = Ok record /\ verify_record record p = Ok true.

Lemma written_unlocks p a : written p a -> unlocks a p.
Proof.
  intros (salt & hash & Hf & Hk & Hs & Hh & Hls & Hlh). eexists _, (salt, hash). split; [exact Hf |]. split.
  - by apply parse_record_text.
  - unfold Auth.verify_record. cbn. rewrite Hk. cbn. by rewrite bool_decide_true.
Qed.

Lemma call_fails a a' e : honest_world -> call os a = (a', inl e) -> error_is RecordPublished e = false.
Proof.
  intros Hw. unfold call. intros [(x & [=] & _) | (a1 & n & _ & Hr)]%bind_run.
  destruct (os n) eqn:Hn; [| discriminate Hr]. injection Hr as _ <-. by eapply hw_os.
Qed.

(** The steps up to the rename. *)
Lemma rename_run f a a' r :
  honest_world ->
  (call os ;; call os ;; call os ;; update (fun a => set_temporary false (set_password (Some f) a))) a = (a', r) ->
  match r with
  | inr _ => password a' = Some f
  | inl e => password a' = password a /\ error_is RecordPublished e = false
  end.
Proof.
  intros Hw. intros [(e & He & ->) | (a1 & [] & H1 & Hr)]%bind_run.
  { split; [by eapply k_password, call_keeps | by eapply call_fails]. }
  apply call_keeps, k_password in H1. apply bind_run in Hr as [(e & He & ->) | (a2 & [] & H2 & Hr)].
  { split; [apply call_keeps, k_password in He; congruence | by eapply call_fails]. }
  apply call_keeps, k_password in H2. apply bind_run in Hr as [(e & He & ->) | (a3 & [] & H3 & [= <- <-])].
  { split; [apply call_keeps, k_password in He; congruence | by eapply call_fails]. }
  done.
Qed.

Lemma random_run n a a' r :
  honest_world -> random rand_bytes n a = (a', r) ->
  match r with inr l => length l = n /\ byte_string l | inl e => error_is RecordPublished e = false end.
Proof.
  intros Hw [(e & [=] & _) | (a1 & t & _ & [= <- <-])]%bind_run. destruct (rand_bytes t n) as [l | e] eqn:Hr.
  - by eapply hw_rand.
  - by eapply hw_rand_error.
Qed.

Lemma scrypt32_run p salt : honest_world ->
  match scrypt32 p salt with
  | Ok hash => length hash = 32%nat /\ byte_string hash
  | Err e => error_is RecordPublished e = false
  end.
Proof.
  intros Hw. unfold Auth.scrypt32, scrypt. destruct (pbkdf2_hmac _ salt _) as [l | e] eqn:H1; cbn [mbind result_bind].
  - destruct (pbkdf2_hmac _ _ 32) as [hash | e] eqn:H2; [by eapply hw_kdf | by eapply hw_kdf_error].
  - by eapply hw_kdf_error.
Qed.

Lemma write_record_run p a a' r :
  honest_world -> write_record p a = (a', r) ->
  match r with
  | inr _ => written p a'
  | inl e => if error_is RecordPublished e then written p a' else password a' = password a
  end.
Proof.
  intros Hw. unfold Auth.write_record.
  intros [(e & Hr & ->) | (a1 & salt & H1 & Hr)]%bind_run.
  { pose proof (random_run _ _ _ _ Hw Hr) as ->. by eapply k_password, random_keeps. }
  apply random_run in H1 as Hsalt; [| done]. destruct Hsalt as [Hls Hbs]. apply random_keeps, k_password in H1.
  apply bind_run in Hr as [(e & [= <- He] & ->) | (a2 & hash & [= <- Hh] & Hr)];
    pose proof (scrypt32_run p salt Hw) as Hk; destruct (scrypt32 p salt) as [h |] eqn:Hsc; try done.
  { injection He as ->. by rewrite Hk. }
  injection Hh as ->. destruct Hk as [Hlh Hbh].
  assert (forall a'', password a'' = Some (private_file (record_text salt hash)) -> written p a'') as Hwritten
    by (intros a'' Hf; by exists salt, hash).
  apply bind_run in Hr as [(e & Hr & ->) | (a2 & [] & H2 & Hr)].
  { assert (error_is RecordPublished e = false) as ->.
    { apply bind_run in Hr as [(e' & Hr & [= ->]) | (a2 & [] & _ & [=])]. by eapply call_fails. }
    apply remove_temporary_keeps, k_password in Hr. congruence. }
  apply remove_temporary_keeps, k_password in H2.
  apply bind_run in Hr as [(e & Hr & ->) | (a3 & [] & H3 & Hr)].
  { rewrite (call_fails _ _ _ Hw Hr). apply call_keeps, k_password in Hr. congruence. }
  apply call_keeps, k_password in H3. apply bind_run in Hr as [(e & [=] & _) | (a4 & t & [= <- <-] & Hr)].
  apply bind_run in Hr as [(e & [-> [[_ [=]] | [_ [= ->]]]]%require_run & ->) | (a4 & [] & [-> _]%require_run & Hr)].
  { cbn. congruence. }
  apply bind_run in Hr as [(e & [=] & _) | (a4 & [] & [= <-] & Hr)].
  apply bind_run in Hr as [(e & [(x & _ & [=]) | (x & _ & [=])]%try_run & _) | (a5 & res & [(x & H5 & [= ->]) | (e & H5 & [= ->])]%try_run & Hr)];
    apply rename_run in H5; try done.
  - apply bind_run in Hr as [(e & [(y & _ & [=]) | (y & _ & [=])]%try_run & _) | (a6 & res & [(y & H6 & [= ->]) | (e & H6 & [= ->])]%try_run & Hr)].
    + injection Hr as <- <-. apply Hwritten. rewrite <- H5.
      by eapply k_password, (preserves_bind keeps (call os) (fun _ => call os)); [exact call_keeps | intros _; exact call_keeps |].
    + injection Hr as <- <-. cbn. apply Hwritten. rewrite <- H5.
      by eapply k_password, (preserves_bind keeps (call os) (fun _ => call os)); [exact call_keeps | intros _; exact call_keeps |].
  - destruct H5 as [H5 He]. apply bind_run in Hr as [(e' & [(y & _ & [=]) | (y & _ & [=])]%try_run & _) | (a6 & res & Htry & Hr)].
    injection Hr as <- <-. rewrite He.
    assert (preserves keeps (try (E := error) (remove_temporary os))) as Hk by preserved.
    apply Hk, k_password in Htry. cbn in H5. congruence.
Qed.

(** ** The session table *)

(** Sessions were only dropped. *)
Record shrinks (a a' : auth) : Prop := {
  sh_tick : (tick a <= tick a')%nat;
  sh_password : password a' = password a;
  sh_failed : failed a' = failed a;
  sh_permit : permit a' = permit a;
  sh_sessions : sublist (sessions a') (sessions a);
}.

#[local] Instance shrinks_preorder : PreOrder shrinks.
Proof. split; [by intros a | intros a b c [] []; split; try (congruence || lia); by etransitivity]. Qed.

Lemma keeps_shrinks {E A} (m : eff auth E A) : preserves keeps m -> preserves shrinks m.
Proof. intros Hm a a' r Hr. destruct (Hm _ _ _ Hr) as [? ? Hs ? ?]. split; try done. by rewrite Hs. Qed.
#[local] Hint Extern 5 (preserves shrinks _) => apply keeps_shrinks : eff.

Lemma retain_live_spec l : forall n kept n', retain_live now n l = (kept, n') ->
  sublist kept l /\ (n <= n')%nat /\ forall s, s ∈ kept -> exists m, (n <= m < n')%nat /\ now m < s_expires s.
Proof.
  induction l as [| s l IH]; intros n kept n'; cbn [retain_live].
  - intros [= <- <-]. split_and!; [constructor | done | by intros s ?%not_elem_of_nil].
  - destruct (retain_live now (S n) l) as [k m] eqn:Hr. apply IH in Hr as (Hsub & Hle & Hlive). intros [= <- <-].
    destruct (now n <? s_expires s) eqn:Hn; split_and!; try lia.
    + by apply sublist_skip.
    + intros x [-> | Hx]%elem_of_cons; [exists n; lia |]. destruct (Hlive x Hx) as (i & ? & ?). exists i. lia.
    + by apply sublist_cons.
    + intros x Hx. destruct (Hlive x Hx) as (i & ? & ?). exists i. lia.
Qed.

Lemma drop_expired_shrinks {E} : preserves shrinks (drop_expired (E := E) now).
Proof.
  apply preserves_update. intros a. destruct (retain_live now (tick a) (sessions a)) as [kept n] eqn:Hr.
  apply retain_live_spec in Hr as (Hsub & Hle & _). by split.
Qed.
#[local] Hint Resolve drop_expired_shrinks : eff.

Lemma find_session_shrinks h : preserves shrinks (find_session h).
Proof. unfold Auth.find_session. preserved. Qed.
#[local] Hint Resolve find_session_shrinks : eff.

(** What [session] finds is a session of the table that has not expired. *)
Lemma find_session_run h a a' t c :
  find_session h a = (a', inr (t, c)) ->
  exists s n, s ∈ sessions a /\ s ∈ sessions a' /\ s_token s = t /\ s_csrf s = c /\ cookie h SESSION = Some t
    /\ (tick a <= n < tick a')%nat /\ now n < s_expires s.
Proof.
  intros [(e & _ & [=]) | (a1 & token & [= <- Ht] & Hr)]%bind_run.
  destruct (cookie h SESSION) as [t0 |]; [| done]. injection Ht as ->.
  apply bind_run in Hr as [(e & _ & [=]) | (a2 & [] & [= <-] & Hr)].
  destruct (retain_live now (tick a) (sessions a)) as [kept n] eqn:Hret. apply retain_live_spec in Hret as (Hsub & _ & Hlive).
  apply bind_run in Hr as [(e & _ & [=]) | (a3 & l & [= <- <-] & Hr)].
  apply bind_run in Hr as [(e & _ & [=]) | (a4 & s & [= <- Hs] & [= <- <- <-])].
  destruct (find_first _ _) as [s0 |] eqn:Hf; [| done]. injection Hs as ->.
  apply find_first_Some in Hf as (i & Hi%list_elem_of_lookup_2 & Heq%bool_decide_eq_true & _). cbn in Hi.
  destruct (Hlive s Hi) as (m & Hm & Hexp). exists s, m. cbn. split_and!; try (done || lia).
  - by eapply elem_of_sublist.
  - by rewrite Heq.
Qed.

Lemma issue_run a a' r :
  honest_world -> issue a = (a', r) ->
  (tick a <= tick a')%nat /\ password a' = password a /\ failed a' = failed a /\ permit a' = permit a /\
  match r with
  | inr (t, c) => exists l e b, sublist l (sessions a) /\ (length l <= 31)%nat /\ sessions a' = l ++ [Session t c e]
                    /\ t = hex b /\ byte_string b /\ length b = 32%nat
  | inl _ => sublist (sessions a') (sessions a) /\ (length (sessions a') <= 31)%nat
  end.
Proof.
  intros Hw [(e & [=] & _) | (a1 & [] & H1 & Hr)]%bind_run. apply drop_expired_shrinks in H1 as [T1 P1 F1 M1 S1].
  apply bind_run in Hr as [(e & [=] & _) | (a2 & [] & [= <-] & Hr)].
  set (a2 := set_sessions _ a1) in Hr.
  assert (sublist (sessions a2) (sessions a) /\ (length (sessions a2) <= 31)%nat) as [S2 L2].
  { cbn. split; [etransitivity; [apply sublist_drop | done] |]. unfold make_room. rewrite length_drop. lia. }
  assert (tick a2 = tick a1 /\ password a2 = password a1 /\ failed a2 = failed a1 /\ permit a2 = permit a1)
    as (T2 & P2 & F2 & M2) by done. clearbody a2.
  apply bind_run in Hr as [(e & Ht & ->) | (a3 & t & Ht & Hr)]; apply token_keeps in Ht as Hk; destruct Hk as [T3 P3 S3 F3 M3].
  { rewrite S3. split_and!; (done || congruence || lia). }
  assert (exists b, t = hex b /\ byte_string b /\ length b = 32%nat) as (b & -> & Hb & Hlb).
  { apply bind_run in Ht as [(e & _ & [=]) | (a4 & b & Hb & [= _ <-])]. apply random_run in Hb as [? ?]; [| done]. by exists b. }
  apply bind_run in Hr as [(e & Hc & ->) | (a4 & c & Hc & Hr)]; apply token_keeps in Hc as [T4 P4 S4 F4 M4].
  { rewrite S4, S3. split_and!; (done || congruence || lia). }
  apply bind_run in Hr as [(e & [=] & _) | (a5 & n & [= <- <-] & Hr)].
  apply bind_run in Hr as [(e & [=] & _) | (a6 & [] & [= <-] & [= <- <-])]. cbn.
  split_and!; try (congruence || lia). rewrite S4, S3. eexists (sessions a2), _, b. by split_and!.
Qed.

(** ** The parts of the handlers *)

(** [m] always answers, and leaves the state alone. *)
Definition answers {E A} (m : eff auth E A) : Prop := forall a a' r, m a = (a', r) -> keeps a a' /\ exists x, r = inr x.

Lemma answers_try {E A} (m : eff auth error A) : preserves keeps m -> answers (try (E := E) m).
Proof. intros Hm a a' r [(x & Hx & ->) | (e & He & ->)]%try_run; eauto. Qed.

Lemma answers_bind {E A B} (m : eff auth E A) (k : A -> eff auth E B) : answers m -> (forall x, answers (k x)) -> answers (m ≫= k).
Proof.
  intros Hm Hk a a' r [(e & He & ->) | (a1 & x & Hx & Hr)]%bind_run.
  - by destruct (Hm _ _ _ He) as [_ [? [=]]].
  - destruct (Hm _ _ _ Hx) as [H1 _], (Hk _ _ _ _ Hr) as [H2 ?]. split; [by etransitivity | done].
Qed.

Lemma answers_pure {E A} (m : eff auth E A) : (forall a, exists x, m a = (a, inr x)) -> answers m.
Proof. intros Hm a a' r Hr. destruct (Hm a) as [x Hx]. rewrite Hx in Hr. injection Hr as <- <-. by split; [| exists x]. Qed.

Lemma next_tick_answers {E} : answers (next_tick (E := E)).
Proof. intros a a' r Hr. split; [by eapply next_tick_keeps |]. injection Hr as <- <-. eauto. Qed.

Lemma window_answers {E} : answers (setup_window_seconds (E := E) os boot_id uptime).
Proof.
  unfold setup_window_seconds. apply answers_bind; [by apply answers_try, read_limited_keeps | intros w].
  apply answers_bind; [apply next_tick_answers | intros n]. apply answers_bind; [apply next_tick_answers | intros m].
  apply answers_pure. eauto.
Qed.

(** [failed] is more than a second ago. *)
Definition unthrottled (a a' : auth) : Prop :=
  forall t, failed a = Some t -> exists n, (tick a <= n < tick a')%nat /\ t + SECOND <= now n.

Lemma throttled_run {E} a a' (r : E + bool) :
  throttled now a = (a', r) -> keeps a a' /\ exists b, r = inr b /\ (b = false -> unthrottled a a').
Proof.
  intros Hr. split; [by eapply throttled_keeps |]. revert Hr. unfold throttled, unthrottled.
  intros [(e & [=] & _) | (a1 & f & [= <- <-] & Hr)]%bind_run. destruct (failed a) as [t |].
  - apply bind_run in Hr as [(e & [=] & _) | (a1 & n & [= <- <-] & [= <- <-])]. eexists. split; [done |].
    intros Hn%Z.ltb_ge t' [= <-]. exists (tick a). cbn. split; [lia |].
    unfold saturating_sub, SECOND in *. lia.
  - injection Hr as <- <-. eexists. split; [done |]. by intros _ t [=].
Qed.

(** What a part that took the permit does: the permit comes back with every refusal. *)
Record enters (a a' : auth) (taken : bool) : Prop := {
  en_tick : (tick a <= tick a')%nat;
  en_password : password a' = password a;
  en_sessions : sessions a' = sessions a;
  en_failed : failed a' = failed a;
  en_permit : if taken then permit a = true /\ permit a' = false else permit a' = permit a;
}.

Definition taken {R A} (r : R + A) : bool := match r with inr _ => true | inl _ => false end.

(** After the permit is taken. *)
Record inside (a a' : auth) (kept : bool) : Prop := {
  in_tick : (tick a <= tick a')%nat;
  in_password : password a' = password a;
  in_sessions : sessions a' = sessions a;
  in_failed : failed a' = failed a;
  in_permit : permit a' = negb kept;
}.

Definition guarded {A} (k : eff auth response A) : Prop := forall a a' r, permit a = false -> k a = (a', r) -> inside a a' (taken r).

Lemma refuse_guarded {A} status reason : guarded (refuse (A := A) status reason).
Proof. by intros a a' r _ [= <- <-]. Qed.

Lemma ret_guarded {A} (x : A) : guarded (mret x).
Proof. by intros a a' r Hp [= <- <-]. Qed.

Lemma guarded_bind {A B} (m : eff auth response A) (k : A -> eff auth response B) :
  answers m -> (forall x, guarded (k x)) -> guarded (m ≫= k).
Proof.
  intros Hm Hk a a' r Hp [(e & He & ->) | (a1 & x & Hx & Hr)]%bind_run.
  - by destruct (Hm _ _ _ He) as [_ [? [=]]].
  - destruct (Hm _ _ _ Hx) as [[] _]. destruct (Hk x a1 a' r) as []; [congruence | done |]. split; (congruence || lia).
Qed.

Lemma acquire_enters (k : eff auth response unit) a a' r :
  guarded k -> (acquire ;; k) a = (a', r) -> enters a a' (taken r).
Proof.
  intros Hk [(e & He & ->) | (a1 & [] & Hx & Hr)]%bind_run.
  - revert He. unfold acquire, mbind, eff_bind, read, require. by destruct (permit a); [intros [=] | intros [= <- _]].
  - assert (permit a = true /\ a1 = set_permit false a) as [Hp ->].
    { revert Hx. unfold acquire, mbind, eff_bind, read, require. by destruct (permit a); [intros [= <-] | intros [=]]. }
    destruct (Hk (set_permit false a) a' r) as [T P S F Q]; [done | done |]. split; try done. rewrite Q. by destruct (taken r).
Qed.

(** A check before the permit. *)
Lemma require_enters b e (k : eff auth response unit) a a' r :
  (forall a a' r, k a = (a', r) -> enters a a' (taken r)) ->
  (require b e ;; k) a = (a', r) -> enters a a' (taken r).
Proof.
  intros Hk [(x & [-> [[_ [=]] | [_ [= ->]]]]%require_run & ->) | (a1 & [] & [-> _]%require_run & Hr)]%bind_run; [done |].
  by apply Hk.
Qed.

Lemma login_enter_run u h p a a' r :
  login_enter now lan_address https_port u h p a = (a', r) ->
  enters a a' (taken r) /\ (taken r = true -> unthrottled a a' /\ is_Some (password a)).
Proof.
  intros Hr. split.
  - revert Hr. apply require_enters. intros b b' r0. apply require_enters. intros c c' r1.
    intros [(e & [=] & _) | (c1 & x & [= <- <-] & Hr)]%bind_run. revert Hr. apply require_enters. intros d d' r2.
    apply acquire_enters, guarded_bind.
    + intros s s' t Ht. by apply throttled_run in Ht as (Hk & b0 & -> & _); eauto.
    + intros [|]; [apply refuse_guarded | apply ret_guarded].
  - unfold login_enter in Hr.
    apply bind_run in Hr as [(x & [-> [[_ [=]] | [_ [= ->]]]]%require_run & ->) | (a1 & [] & [-> _]%require_run & Hr)]; [done |].
    apply bind_run in Hr as [(x & [-> [[_ [=]] | [_ [= ->]]]]%require_run & ->) | (a1 & [] & [-> _]%require_run & Hr)]; [done |].
    apply bind_run in Hr as [(e & [=] & _) | (c1 & x & [= <- <-] & Hr)].
    apply bind_run in Hr as [(x & [-> [[_ [=]] | [_ [= ->]]]]%require_run & ->) | (a1 & [] & [-> [[Hc _] | [_ [=]]]]%require_run & Hr)]; [done |].
    apply bind_run in Hr as [(e & He & ->) | (a1 & [] & Hx & Hr)]; [done |].
    assert (a1 = set_permit false a) as ->.
    { revert Hx. unfold acquire, mbind, eff_bind, read, require. by destruct (permit a); [intros [= <-] | intros [=]]. }
    apply bind_run in Hr as [(e & He & ->) | (a1 & b & Ht & Hr)]; [done |].
    apply throttled_run in Ht as ([T _ _ _ _] & b' & [= <-] & Hun).
    destruct b; [by injection Hr as _ <- | injection Hr as <- <-]. intros _.
    split; [by apply Hun | by apply bool_decide_eq_true in Hc].
Qed.

Lemma setup_enter_run u h c p a a' r :
  setup_enter os boot_id uptime lan_address https_port u h c p a = (a', r) ->
  enters a a' (taken r) /\ (taken r = true -> password a = None).
Proof.
  intros Hr. split.
  - revert Hr. apply require_enters. intros b b' r0 Hr.
    apply bind_run in Hr as [(e & He & ->) | (b1 & [] & Hx & Hr)].
    { destruct (setup_password_error p); [by injection He as <- <- | done]. }
    assert (b1 = b) as -> by (destruct (setup_password_error p); [done | by injection Hx as <-]).
    revert Hr. apply acquire_enters, guarded_bind; [by apply answers_pure; eauto |]. intros [|]; [apply refuse_guarded |].
    apply guarded_bind; [apply window_answers |]. intros w. destruct (w =? 0); [apply refuse_guarded |].
    apply guarded_bind; [apply answers_try; preserved |]. intros [codes | e]; [| apply refuse_guarded].
    destruct (match c with Some _ => _ | None => _ end); [apply ret_guarded | apply refuse_guarded].
  - unfold setup_enter in Hr.
    apply bind_run in Hr as [(x & [-> [[_ [=]] | [_ [= ->]]]]%require_run & ->) | (a1 & [] & [-> _]%require_run & Hr)]; [done |].
    apply bind_run in Hr as [(e & He & ->) | (b1 & [] & Hx & Hr)]; [done |].
    assert (b1 = a) as -> by (destruct (setup_password_error p); [done | by injection Hx as <-]).
    apply bind_run in Hr as [(e & He & ->) | (a1 & [] & Hx' & Hr)]; [done |].
    assert (a1 = set_permit false a) as ->.
    { revert Hx'. unfold acquire, mbind, eff_bind, read, require. by destruct (permit a); [intros [= <-] | intros [=]]. }
    apply bind_run in Hr as [(e & [=] & _) | (a1 & b & [= <- <-] & Hr)].
    destruct (configured (set_permit false a)) eqn:Hc; [by injection Hr as _ <- |]. intros _.
    apply bool_decide_eq_false, eq_None_not_Some in Hc. done.
Qed.

Lemma setup_store_run p a a' r :
  honest_world -> setup_store os rand_bytes pbkdf2_hmac p a = (a', r) ->
  holds a a' /\ (r = inr tt -> written p a').
Proof.
  intros Hw Hr. split.
  - revert Hr. cut (preserves holds (setup_store os rand_bytes pbkdf2_hmac p)); [by intros Hh; apply Hh |].
    unfold setup_store. apply preserves_bind; [exact _ | apply write_record_holds | intros _; apply keeps_holds, complete_admin_keeps].
  - apply bind_run in Hr as [(e & _ & ->) | (a1 & [] & Hx & Hr)]; [done |]. intros _.
    apply write_record_run in Hx as (salt & hash & Hp & Hrest); [| done]. apply complete_admin_keeps, k_password in Hr.
    exists salt, hash. split; [congruence | done].
Qed.

(** A session issued at the end of [setup] and [login]. *)
Inductive issues (a a' : auth) : response + response -> Prop :=
| issues_session l t c e b : sublist l (sessions a) -> (length l <= 31)%nat -> sessions a' = l ++ [Session t c e] ->
    t = hex b -> byte_string b -> length b = 32%nat -> issues a a' (inr (reply "authenticated" c (Some t) None None))
| issues_nothing : sublist (sessions a') (sessions a) -> (length (sessions a') <= 31)%nat ->
    issues a a' (inl (error_response 500 "internal_error")).

Lemma issued_run a a' (r : response + response) :
  honest_world -> (x ← try issue; release ;; issued x) a = (a', r) ->
  (tick a <= tick a')%nat /\ password a' = password a /\ failed a' = failed a /\ permit a' = true /\ issues a a' r.
Proof.
  intros Hw [(e & [(x & _ & [=]) | (x & _ & [=])]%try_run & _) | (a1 & res & [(x & Hx & [= ->]) | (e & Hx & [= ->])]%try_run & Hr)]%bind_run;
    apply issue_run in Hx as (T & P & F & _ & Hs); try done;
    apply bind_run in Hr as [(e' & [=] & _) | (a2 & [] & [= <-] & Hr)].
  - destruct x as [t c]. injection Hr as <- <-. split_and!; try done. destruct Hs as (l & e & b & ? & ? & ? & ? & ? & ?).
    by eapply issues_session.
  - injection Hr as <- <-. split_and!; try done. destruct Hs. by apply issues_nothing.
Qed.

(** What the end of [login] or [setup] does with what the blocking thread found. *)
Inductive finished (a a' : auth) : option bool -> response + response -> Prop :=
| finished_true r : failed a' = failed a -> issues a a' r -> finished a a' (Some true) r
| finished_false n : sessions a' = sessions a -> (tick a <= n < tick a')%nat -> failed a' = Some (now n) ->
    finished a a' (Some false) (inl (error_response 401 "invalid_password"))
| finished_error : sessions a' = sessions a -> failed a' = failed a ->
    finished a a' None (inl (error_response 500 "internal_error")).

Lemma login_finish_run v a a' r :
  honest_world -> login_finish now rand_bytes v a = (a', r) ->
  (tick a <= tick a')%nat /\ password a' = password a /\ permit a' = true /\ finished a a' (to_option v) r.
Proof.
  intros Hw. destruct v as [[|] | e]; cbn [login_finish to_option].
  - intros (? & ? & ? & ? & ?)%issued_run; [| done]. split_and!; try done. by apply finished_true.
  - intros [= <- <-]. cbn. split_and!; try (done || lia). eapply finished_false; [done | | done]. cbn. lia.
  - intros [= <- <-]. cbn. split_and!; try done. by apply finished_error.
Qed.

Lemma setup_finish_run v a a' r :
  honest_world -> setup_finish now rand_bytes v a = (a', r) ->
  (tick a <= tick a')%nat /\ password a' = password a /\ permit a' = true
  /\ finished a a' (match v with Ok _ => Some true | Err _ => None end) r.
Proof.
  intros Hw. destruct v as [[] | e]; cbn [setup_finish].
  - intros (? & ? & ? & ? & ?)%issued_run; [| done]. split_and!; try done. by apply finished_true.
  - intros [= <- <-]. cbn. split_and!; try done. by apply finished_error.
Qed.

(** A record that was read is the one on disk. *)
Lemma read_record_run a a' record :
  read_record a = (a', inr record) -> exists f, password a' = Some f /\ parse_record (f_data f) = Ok record.
Proof.
  intros [(e & _ & [=]) | (b1 & [] & Hb1 & Hrec)]%bind_run. apply call_keeps in Hb1.
  apply bind_run in Hrec as [(e & [=] & _) | (b2 & found & [= <- <-] & Hrec)].
  destruct (password b1) as [f |] eqn:Hf; [| done].
  apply bind_run in Hrec as [(e & _ & [=]) | (b2 & [] & [-> _]%require_run & Hrec)].
  apply bind_run in Hrec as [(e & _ & [=]) | (b2 & [] & Hb2 & Hrec)]. apply call_keeps in Hb2.
  apply bind_run in Hrec as [(e & _ & [=]) | (b3 & value & [= <- Hu] & [= <- Hp])].
  exists f. destruct Hb2. split; [congruence |].
  unfold utf8_string in Hu. destruct (utf8_valid _); [| done]. injection Hu as <-.
  destruct (parse_record (f_data f)); [| done]. congruence.
Qed.

Lemma login_verify_run p a a' r :
  login_verify os pbkdf2_hmac p a = (a', r) -> keeps a a' /\ (r = inr true -> unlocks a' p).
Proof.
  intros Hr. split; [by eapply login_verify_keeps |]. unfold login_verify in Hr.
  apply bind_run in Hr as [(e & _ & ->) | (a1 & valid & Hv & Hr)]; [done |].
  apply try_run in Hv as [(x & Hx & [= ->]) | (e & _ & [= ->])]; [| by injection Hr as _ <-].
  destruct x; [| by injection Hr as _ <-]. intros ->.
  apply bind_run in Hr as [(e & _ & [=]) | (a2 & [] & Hc & [= <-])]. apply complete_admin_keeps, k_password in Hc.
  apply bind_run in Hx as [(e & _ & [=]) | (a3 & record & Hrec & [= <- Hver])].
  apply read_record_run in Hrec as (f & Hf & Hparse).
  exists f, record. split; [congruence |]. split; [done |]. destruct (verify_record record p) as [b |]; [| done]. congruence.
Qed.

Lemma current_session_run h a a' r :
  current_session now h a = (a', r) -> keeps a a' /\ exists s, r = inr s.
Proof.
  unfold current_session. destruct (find_live now _ (tick a) (sessions a)) as [found n] eqn:Hf. intros [= <- <-].
  split; [| eauto]. assert (tick a <= n)%nat; [| by split].
  revert Hf. generalize (tick a). induction (sessions a) as [| s l IH]; intros m; cbn [find_live]; [intros [= _ <-]; done |].
  case_bool_decide; [| apply IH]. destruct (now m <? s_expires s); [intros [= _ <-]; lia |].
  intros Hf%IH. lia.
Qed.

(** The answers to a wrong password. *)
Definition blaming : list string := ["invalid_password"; "invalid_current_password"]%string.

(** What [change_password_record] does. *)
Inductive changed (a a' : auth) (current new : string) : response -> Prop :=
| changed_nothing status reason : bool_decide (reason ∈ blaming) = false -> holds a a' -> password a' = password a ->
    changed a a' current new (error_response status reason)
| changed_wrong n : unthrottled a a' -> password a' = password a -> sessions a' = sessions a -> permit a' = permit a ->
    (tick a <= n < tick a')%nat -> (forall t, failed a = Some t -> exists m, (m <= n)%nat /\ t + SECOND <= now m) ->
    failed a' = Some (now n) -> changed a a' current new (error_response 400 "invalid_current_password")
| changed_uncertain : unlocks a current -> written new a' -> sessions a' = [] -> permit a' = permit a ->
    (tick a <= tick a')%nat -> failed a' = failed a ->
    changed a a' current new (error_response 500 "password_change_uncertain")
| changed_done t c e b : unlocks a current -> unthrottled a a' -> written new a' -> sessions a' = [Session t c e] ->
    permit a' = permit a -> (tick a <= tick a')%nat -> failed a' = None -> t = hex b -> byte_string b -> length b = 32%nat ->
    changed a a' current new (reply "authenticated" c (Some t) None None).

Lemma settled_run (m : eff auth response response) a a' (r : response + response) :
  settled m a = (a', r) -> exists resp, r = inr resp /\ (m a = (a', inl resp) \/ m a = (a', inr resp)).
Proof. unfold settled, answered. destruct (m a) as [s [x | x]]; intros [= <- <-]; eauto. Qed.

Lemma token_run a a' t : honest_world -> token rand_bytes a = (a', inr t) ->
  keeps a a' /\ exists b, t = hex b /\ byte_string b /\ length b = 32%nat.
Proof.
  intros Hw Ht. split; [by eapply token_keeps |].
  apply bind_run in Ht as [(e & _ & [=]) | (a4 & b & Hb & [= _ <-])]. apply random_run in Hb as [? ?]; [| done]. by exists b.
Qed.

(** The check of the current password. *)
Lemma current_password_run current a a' valid :
  (record ← read_record; if password_too_long current then mret false else of_result (verify_record record current)) a
    = (a', inr valid) -> keeps a a' /\ (valid = true -> unlocks a current).
Proof.
  intros Hr. split; [revert Hr; cut (preserves keeps (record ← read_record;
    if password_too_long current then mret false else of_result (verify_record record current)));
    [by intros Hk; apply Hk | preserved] |].
  intros ->. apply bind_run in Hr as [(e & _ & [=]) | (a1 & record & Hrec & Hr)].
  pose proof (k_password _ _ (read_record_keeps _ _ _ Hrec)) as Hp. apply read_record_run in Hrec as (f & Hf & Hparse).
  destruct (password_too_long current); [done |]. injection Hr as _ Hv.
  exists f, record. split; [congruence |]. split; [done |]. destruct (verify_record record current); [| done]. congruence.
Qed.

(** How the last part of [change_password_record] answers. *)
Inductive replaced (a a' : auth) (new : string) : response + response -> Prop :=
| replaced_nothing : holds a a' -> password a' = password a -> replaced a a' new (inl (error_response 500 "internal_error"))
| replaced_uncertain : written new a' -> sessions a' = [] -> permit a' = permit a -> (tick a <= tick a')%nat -> failed a' = failed a ->
    replaced a a' new (inl (error_response 500 "password_change_uncertain"))
| replaced_done c e b : written new a' -> sessions a' = [Session (hex b) c e] -> permit a' = permit a ->
    (tick a <= tick a')%nat -> failed a' = None -> byte_string b -> length b = 32%nat ->
    replaced a a' new (inr (reply "authenticated" c (Some (hex b)) None None)).

Lemma replace_password_run new a a' r : honest_world -> replace_password now os rand_bytes pbkdf2_hmac new a = (a', r) -> replaced a a' new r.
Proof.
  intros Hw Hr. unfold replace_password in Hr.
  apply bind_run in Hr as [(e & [(x & _ & [=]) | (x & _ & [=])]%try_run & _) | (a5 & tk & Htk & Hr)].
  assert (keeps a a5) as K5 by (eapply (preserves_try keeps); [exact token_keeps | exact Htk]).
  apply bind_run in Hr as [(e & [(x & _ & [=]) | (x & _ & [=])]%try_run & _) | (a6 & cs & Hcs & Hr)].
  assert (keeps a5 a6) as K6 by (eapply (preserves_try keeps); [exact token_keeps | exact Hcs]).
  pose proof (transitivity K5 K6) as [T6 P6 S6 F6 M6].
  destruct tk as [t | e]; [| injection Hr as <- <-; by apply replaced_nothing].
  destruct cs as [c | e]; [| injection Hr as <- <-; by apply replaced_nothing].
  apply try_run in Htk as [(t' & Htk & [= <-]) | (e & _ & [=])]. apply token_run in Htk as (_ & bs & -> & Hbs & Hlb); [| done].
  apply bind_run in Hr as [(e & [(x & _ & [=]) | (x & _ & [=])]%try_run & _) | (a7 & per & Hper & Hr)].
  apply try_run in Hper as [([] & Hper & [= ->]) | (e & Hper & [= ->])];
    pose proof (write_record_holds _ _ _ _ Hper) as [T7 S7 F7 M7]; apply write_record_run in Hper; try done.
  - apply bind_run in Hr as [(e & [=] & _) | (a8 & n & [= <- <-] & Hr)].
    apply bind_run in Hr as [(e & [=] & _) | (a9 & [] & [= <-] & [= <- <-])].
    eapply replaced_done; cbn; try done; [congruence | lia].
  - destruct (error_is RecordPublished e).
    + apply bind_run in Hr as [(e' & [=] & _) | (a8 & [] & [= <-] & [= <- <-])].
      apply replaced_uncertain; cbn; try (done || congruence || lia).
    + injection Hr as <- <-. apply replaced_nothing; [split; (congruence || lia) | congruence].
Qed.

Lemma change_password_run h current new a a' resp :
  honest_world -> answered (change_password_record now os rand_bytes pbkdf2_hmac h current new) a = (a', resp) ->
  changed a a' current new resp.
Proof.
  intros Hw Hans. unfold answered in Hans.
  destruct (change_password_record now os rand_bytes pbkdf2_hmac h current new a) as [s r] eqn:Hr.
  assert (s = a' /\ r = inl resp \/ s = a' /\ r = inr resp) as Hcase
    by (destruct r; injection Hans as -> ->; [by left | by right]). clear Hans.
  assert (forall status reason, r = inl (error_response status reason) -> bool_decide (reason ∈ blaming) = false -> keeps a a' ->
    changed a a' current new resp) as Hnothing.
  { intros status reason -> Hne []. destruct Hcase as [[-> [= <-]] | [-> [=]]]. by apply changed_nothing. }
  assert (s = a') as -> by (by destruct Hcase as [[-> _] | [-> _]]).
  unfold change_password_record in Hr.
  apply bind_run in Hr as [(e & He & _) | (a1 & found & H1 & Hr)]; [by apply current_session_run in He as [_ [? [=]]] |].
  apply current_session_run in H1 as [K1 _]. destruct found as [sess |]; [| injection Hr as <- <-; by eapply Hnothing].
  apply bind_run in Hr as [(x & [-> [[_ [=]] | [_ [= ->]]]]%require_run & ->) | (a2 & [] & [-> _]%require_run & Hr)];
    [by eapply Hnothing |].
  apply bind_run in Hr as [(e & He & ->) | (a2 & [] & Hx & Hr)].
  { unfold setup_password_error in He. repeat case_match; simplify_eq; by injection He as -> <-; eapply Hnothing. }
  assert (a2 = a1) as -> by (destruct (setup_password_error new); [done | by injection Hx as <-]). clear Hx.
  apply bind_run in Hr as [(e & He & _) | (a2 & b & Ht & Hr)]; [by apply throttled_run in He as [_ (? & [=] & _)] |].
  apply throttled_run in Ht as (K2 & b' & [= <-] & Hun).
  apply bind_run in Hr as [(x & [-> [[_ [=]] | [_ [= ->]]]]%require_run & ->) | (a3 & [] & [-> [[Hb _] | [_ [=]]]]%require_run & Hr)];
    [eapply Hnothing; [done | done | by etransitivity] |].
  apply negb_true_iff in Hb. specialize (Hun Hb).
  assert (unthrottled a a2) as Hun0.
  { intros t Hf. rewrite <- (k_failed _ _ K1) in Hf. destruct (Hun t Hf) as (n & Hn & Hle). exists n. destruct K1. split; [lia | done]. }
  apply bind_run in Hr as [(e & [(x & _ & [=]) | (x & _ & [=])]%try_run & _) | (a4 & valid & Hv & Hr)].
  assert (keeps a2 a4) as K3 by (eapply (preserves_try keeps); [| exact Hv]; preserved).
  pose proof (transitivity K1 K2) as K12. pose proof (transitivity K12 K3) as K13.
  apply try_run in Hv as [(v & Hv & [= ->]) | (e & _ & [= ->])]; [| injection Hr as <- <-; by eapply Hnothing].
  apply current_password_run in Hv as [_ Hunlock].
  assert (unlocks a2 current -> unlocks a current) as Hunl.
  { intros (f & rec & Hf & Hrest). exists f, rec. split; [by rewrite <- (k_password _ _ K12) | done]. }
  destruct v.
  - specialize (Hunl (Hunlock eq_refl)). apply replace_password_run in Hr as Hrep; [| done]. destruct K13.
    destruct Hrep as [[] Hp | Hwr Hs Hpm Ht Hf | c e bs Hwr Hs Hpm Ht Hf Hbs Hlb]; destruct Hcase as [[_ [= <-]] | [_ [= <-]]]; try done.
    + apply changed_nothing; [done | split; (congruence || lia) | congruence].
    + apply changed_uncertain; (done || congruence || lia).
    + eapply (changed_done _ _ _ _ _ c _ bs); try (done || congruence || lia).
      intros t0 Hft. destruct (Hun0 t0 Hft) as (m & Hm & Hle). exists m. destruct K3. split; [lia | done].
  - apply bind_run in Hr as [(e & [=] & _) | (a5 & n & [= <- <-] & Hr)].
    apply bind_run in Hr as [(e & [=] & _) | (a6 & [] & [= <-] & [= <- <-])].
    destruct Hcase as [[_ [= <-]] | [_ [=]]]. destruct K13, K3.
    eapply (changed_wrong _ _ _ _ (tick a4)); cbn; try (done || lia).
    + intros t0 Hf. destruct (Hun0 t0 Hf) as (m & Hm & Hle). exists m. cbn. split; [lia | done].
    + intros t0 Hf. destruct (Hun0 t0 Hf) as (m & Hm & Hle). exists m. split; [lia | done].
Qed.

(** ** What a client is given *)

(** The session token of a response, as a browser reads its cookies. *)
Definition session_cookie (c : string) : option string :=
  value ← strip_prefix (SESSION +:+ "=")%string c;
  '(t, _) ← split_once ";"%char value;
  if bool_decide (t = "")%string then None else Some t.

Definition grants (r : response) : option string := head (omap session_cookie (r_set_cookie r)).

Lemma hex_nonempty b : length b = 32%nat -> hex b <> ""%string.
Proof. destruct b; [done |]. by intros _ Hh%(f_equal chars). Qed.

Lemma grants_reply state c b m w :
  byte_string b -> length b = 32%nat -> grants (reply state c (Some (hex b)) m w) = Some (hex b).
Proof.
  intros Hb Hl. unfold grants, reply. cbn [r_set_cookie omap list_omap].
  assert (session_cookie (CSRF +:+ "=" +:+ c +:+ "; Path=/; Secure; HttpOnly; SameSite=Strict") = None) as -> by done.
  assert (session_cookie (SESSION +:+ "=" +:+ hex b +:+ "; Path=/; Secure; HttpOnly; SameSite=Strict; Max-Age=1800")
    = Some (hex b)) as ->; [| done].
  unfold session_cookie.
  assert (strip_prefix (SESSION +:+ "=") (SESSION +:+ "=" +:+ hex b +:+ "; Path=/; Secure; HttpOnly; SameSite=Strict; Max-Age=1800")
    = Some (hex b +:+ "; Path=/; Secure; HttpOnly; SameSite=Strict; Max-Age=1800")%string) as ->.
  { apply strip_prefix_Some. by rewrite string_app_assoc. }
  cbn [mbind option_bind]. unfold split_once. rewrite chars_app.
  assert (split_once_bytes ";"%char (chars (hex b) ++ chars "; Path=/; Secure; HttpOnly; SameSite=Strict; Max-Age=1800")
    = Some (chars (hex b), chars " Path=/; Secure; HttpOnly; SameSite=Strict; Max-Age=1800")) as ->
    by (apply split_once_bytes_app, hexdigit_without; [done | by apply hex_chars]).
  cbn [mbind option_bind]. rewrite str_chars, bool_decide_false; [done | by apply hex_nonempty].
Qed.

Lemma grants_nothing status reason : grants (error_response status reason) = None.
Proof. done. Qed.

(** ** The panel, request by request *)

(** A handler between two of its parts. *)
Inductive job :=
| LoginChecked (p : string)
| LoginVerified (p : string) (v : result bool)
| SetupChecked (p : string)
| SetupStored (p : string) (v : result unit).

(** With what the world saw: which token was given for which password, and for every wrong password the
    ticks between which the part that answered it ran. *)
Record panel := Panel {
  p_auth : auth;
  p_jobs : list job;
  p_proven : list (string * string);
  p_wrong : list (nat * nat);
}.

(** The response of a part, an early one or the last. *)
Definition answer (r : response + response) : response := match r with inl x | inr x => x end.

Definition give (r : response) (p : string) (l : list (string * string)) : list (string * string) :=
  match grants r with Some t => (t, p) :: l | None => l end.

(** An answer that tells the client of a password change that its password is wrong. *)
Definition blames (r : response) : bool :=
  match r_body r with ErrorBody reason => bool_decide (reason ∈ blaming) | _ => false end.

(** A login whose password was checked and is wrong, whatever it is answered. *)
Definition refuted (v : result bool) : bool := match v with Ok false => true | _ => false end.

(** One more wrong password, answered between [a] and [a']. *)
Definition blame (wrong : bool) (a a' : auth) (l : list (nat * nat)) : list (nat * nat) :=
  if wrong then (tick a, tick a') :: l else l.

Inductive panel_step : panel -> panel -> Prop :=
| step_login_enter u h p a js pr w a' r :
    login_enter now lan_address https_port u h p a = (a', r) ->
    panel_step (Panel a js pr w) (Panel a' (if taken r then LoginChecked p :: js else js) pr w)
| step_login_verify p a j1 j2 pr w a' v :
    try (E := response) (login_verify os pbkdf2_hmac p) a = (a', inr v) ->
    panel_step (Panel a (j1 ++ LoginChecked p :: j2) pr w) (Panel a' (j1 ++ LoginVerified p v :: j2) pr w)
| step_login_finish p v a j1 j2 pr w a' r :
    login_finish now rand_bytes v a = (a', r) ->
    panel_step (Panel a (j1 ++ LoginVerified p v :: j2) pr w)
      (Panel a' (j1 ++ j2) (give (answer r) p pr) (blame (refuted v) a a' w))
| step_setup_enter u h c p a js pr w a' r :
    setup_enter os boot_id uptime lan_address https_port u h c p a = (a', r) ->
    panel_step (Panel a js pr w) (Panel a' (if taken r then SetupChecked p :: js else js) pr w)
| step_setup_store p a j1 j2 pr w a' v :
    try (E := response) (setup_store os rand_bytes pbkdf2_hmac p) a = (a', inr v) ->
    panel_step (Panel a (j1 ++ SetupChecked p :: j2) pr w) (Panel a' (j1 ++ SetupStored p v :: j2) pr w)
| step_setup_finish p v a j1 j2 pr w a' r :
    setup_finish now rand_bytes v a = (a', r) ->
    panel_step (Panel a (j1 ++ SetupStored p v :: j2) pr w)
      (Panel a' (j1 ++ j2) (give (answer r) p pr) w)
(* the client went away while the blocking thread worked: the permit comes back, nothing else happens *)
| step_abandon_login p v a j1 j2 pr w :
    panel_step (Panel a (j1 ++ LoginVerified p v :: j2) pr w) (Panel (set_permit true a) (j1 ++ j2) pr w)
| step_abandon_setup p v a j1 j2 pr w :
    panel_step (Panel a (j1 ++ SetupStored p v :: j2) pr w) (Panel (set_permit true a) (j1 ++ j2) pr w)
| step_change h current new a js pr w a' r :
    change_password now os rand_bytes pbkdf2_hmac h current new a = (a', r) ->
    panel_step (Panel a js pr w) (Panel a' js (give r new pr) (blame (blames r) a a' w))
| step_logout h a js pr w a' r :
    logout now rand_bytes h a = (a', r) -> panel_step (Panel a js pr w) (Panel a' js pr w)
| step_status u h a js pr w a' r :
    auth_status now os rand_bytes boot_id uptime lan_address https_port u h a = (a', r) ->
    panel_step (Panel a js pr w) (Panel a' js pr w)
| step_require_auth m u h a js pr w a' r :
    require_auth now os lan_address https_port m u h a = (a', r) -> panel_step (Panel a js pr w) (Panel a' js pr w)
| step_complete a js pr w a' r :
    complete_onboarding os boot_id uptime a = (a', r) -> panel_step (Panel a js pr w) (Panel a' js pr w)
(* other parts of the agent look at the clock *)
| step_time n a js pr w : (tick a <= n)%nat -> panel_step (Panel a js pr w) (Panel (set_tick n a) js pr w).

(** A panel that was just opened, and what it can become. *)
Inductive panel_run : panel -> Prop :=
| run_open a a' : open_auth os a = (a', inr tt) -> panel_run (Panel a' [] [] [])
| run_step s s' : panel_run s -> panel_step s s' -> panel_run s'.

(** ** The invariant *)

(** Newest first, each a second or more after the one before. *)
Fixpoint spaced (l : list Z) : Prop :=
  match l with
  | [] => True
  | t :: l' => match l' with [] => True | t' :: _ => t' + SECOND <= t end /\ spaced l'
  end.

Definition job_ok (a : auth) (j : job) : Prop :=
  match j with
  | LoginVerified p (Ok true) => unlocks a p
  | SetupStored p (Ok _) => unlocks a p
  | SetupChecked _ => password a = None
  | _ => True
  end.

Definition is_login (j : job) : Prop := match j with LoginChecked _ | LoginVerified _ _ => True | _ => False end.

(** The last wrong password is a second ago. *)
Definition rested (a : auth) (w : list Z) : Prop :=
  forall t, head w = Some t -> exists n, (n < tick a)%nat /\ t + SECOND <= now n.

(** The instants of the wrong passwords, each while its answer was made. *)
Definition seen (w : list Z) (l : list (nat * nat)) : Prop :=
  Forall2 (fun t b => exists n, (b.1 <= n < b.2)%nat /\ t = now n) w l.

Record panel_ok (s : panel) (w : list Z) : Prop := {
  ok_permit : if permit (p_auth s) then p_jobs s = [] else exists j, p_jobs s = [j];
  ok_sessions x : x ∈ sessions (p_auth s) -> exists p, (s_token x, p) ∈ p_proven s /\ unlocks (p_auth s) p;
  ok_count : (length (sessions (p_auth s)) <= 32)%nat;
  ok_jobs j : j ∈ p_jobs s -> job_ok (p_auth s) j /\ (is_login j -> rested (p_auth s) w);
  ok_failed t : failed (p_auth s) = Some t -> head w = Some t;
  ok_past : rested (p_auth s) w \/ failed (p_auth s) = head w;
  ok_spaced : spaced w;
  ok_seen : seen w (p_wrong s);
}.

Lemma unlocks_same a a' p : password a' = password a -> unlocks a p -> unlocks a' p.
Proof. intros Hp (f & rec & Hf & Hrest). exists f, rec. by rewrite Hp. Qed.

Lemma rested_later a a' w : (tick a <= tick a')%nat -> rested a w -> rested a' w.
Proof. intros Ht Hr t Hh. destruct (Hr t Hh) as (n & Hn & Hle). exists n. split; [lia | done]. Qed.

Lemma job_ok_same a a' j : password a' = password a -> job_ok a j -> job_ok a' j.
Proof.
  intros Hp. destruct j as [| p [[|] |] | p | p [[] |]]; cbn; try done; try (by apply unlocks_same). by rewrite Hp.
Qed.

Lemma unthrottled_rested a a' w :
  (tick a <= tick a')%nat -> (rested a w \/ failed a = head w) -> unthrottled a a' -> rested a' w.
Proof.
  intros Ht [Hr | Hf] Hun; [by eapply rested_later |]. intros t Hh. rewrite <- Hf in Hh.
  destruct (Hun t Hh) as (n & Hn & Hle). exists n. split; [lia | done].
Qed.

Lemma now_mono : honest_world -> forall n m, (n <= m)%nat -> now n <= now m.
Proof. intros Hw n m. induction 1 as [| m _ IH]; [done |]. pose proof (hw_clock Hw m). lia. Qed.

Lemma rested_spaced a w n : honest_world -> rested a w -> (tick a <= n)%nat -> spaced w -> spaced (now n :: w).
Proof.
  intros Hw Hr Hn Hs. split; [| done]. destruct w as [| t w]; [done |].
  destruct (Hr t eq_refl) as (m & Hm & Hle). pose proof (now_mono Hw m n). lia.
Qed.

(** What only drops sessions keeps the invariant. *)
Lemma shrinks_ok a a' js pr l w : panel_ok (Panel a js pr l) w -> shrinks a a' -> panel_ok (Panel a' js pr l) w.
Proof.
  intros [H1 H2 H3 H4 H5 H6 H7 H8] [T P F Q S]. cbn in *. split; cbn; try done.
  - by rewrite Q.
  - intros x Hx. destruct (H2 x) as (p & Hp & Hu); [by eapply elem_of_sublist |].
    exists p. split; [done | by eapply unlocks_same].
  - apply sublist_length in S. lia.
  - intros j Hj. destruct (H4 j Hj) as [Hok Hr]. split; [by eapply job_ok_same |]. intros Hl. by eapply rested_later, Hr.
  - by rewrite F.
  - rewrite F. destruct H6; [left; by eapply rested_later | by right].
Qed.

(** A request that takes the permit adds its job; one that is refused changes nothing. *)
Lemma enters_ok a a' b j js pr l w :
  panel_ok (Panel a js pr l) w -> enters a a' b -> (b = true -> job_ok a' j /\ (is_login j -> rested a' w)) ->
  panel_ok (Panel a' (if b then j :: js else js) pr l) w.
Proof.
  intros Hok [T P S F Q] Hj. destruct b.
  - destruct Hok as [H1 H2 H3 H4 H5 H6 H7 H8]. destruct Q as [Q Q']. cbn in *. rewrite Q in H1. subst js.
    split; cbn; try done.
    + rewrite Q'. eauto.
    + rewrite S. intros x Hx. destruct (H2 x Hx) as (p & Hp & Hu). exists p. split; [done | by eapply unlocks_same].
    + by rewrite S.
    + intros j' ->%list_elem_of_singleton. by apply Hj.
    + by rewrite F.
    + rewrite F. destruct H6; [left; by eapply rested_later | by right].
  - eapply shrinks_ok; [exact Hok |]. by split; [.. | rewrite S].
Qed.

(** The one job there is. *)
Lemma only_job a j1 j j2 pr l w : panel_ok (Panel a (j1 ++ j :: j2) pr l) w -> permit a = false /\ j1 = [] /\ j2 = [].
Proof.
  intros [H1 _ _ _ _ _ _ _]. cbn in H1. destruct (permit a); [by destruct j1 |].
  destruct H1 as [x Hx]. split; [done |]. destruct j1 as [| y j1]; [by injection Hx | by destruct j1].
Qed.

(** A job that goes on to its next part. *)
Lemma next_job_ok a a' j1 j j' j2 pr l w :
  panel_ok (Panel a (j1 ++ j :: j2) pr l) w -> holds a a' -> (forall x p, x ∈ sessions a -> unlocks a p -> unlocks a' p) ->
  job_ok a' j' -> (is_login j' -> is_login j) -> panel_ok (Panel a' (j1 ++ j' :: j2) pr l) w.
Proof.
  intros Hok [T S F Q] Hunl Hj Hl. destruct (only_job _ _ _ _ _ _ _ Hok) as (Hp & -> & ->).
  destruct Hok as [H1 H2 H3 H4 H5 H6 H7 H8]. cbn in *. split; cbn; try done.
  - rewrite Q, Hp. eauto.
  - rewrite S. intros x Hx. destruct (H2 x Hx) as (p & Hpr & Hu). exists p. split; [done | by eapply Hunl].
  - by rewrite S.
  - intros x ->%list_elem_of_singleton. split; [done |]. intros Hl'%Hl.
    destruct (H4 j) as [_ Hr]; [by left |]. eapply rested_later; [done | by apply Hr].
  - by rewrite F.
  - rewrite F. destruct H6; [left; by eapply rested_later | by right].
Qed.

(** A job that answers its client. *)
Lemma finish_ok a a' j1 j j2 p pr l w v r :
  honest_world -> panel_ok (Panel a (j1 ++ j :: j2) pr l) w ->
  (tick a <= tick a')%nat -> password a' = password a -> permit a' = true -> finished a a' v r ->
  (v = Some true -> unlocks a p) -> (v = Some false -> is_login j) ->
  exists w', panel_ok (Panel a' (j1 ++ j2) (give (answer r) p pr) (blame (bool_decide (v = Some false)) a a' l)) w'.
Proof.
  intros Hw Hok T P Q Hfin Hun Hlog. destruct (only_job _ _ _ _ _ _ _ Hok) as (Hp & -> & ->).
  destruct Hok as [H1 H2 H3 H4 H5 H6 H7 H8]. cbn in *.
  destruct (H4 j) as [Hjob Hrest]; [by left |].
  assert (forall x, x ∈ sessions a -> forall q : list (string * string), (forall y, y ∈ pr -> y ∈ q) -> exists p, (s_token x, p) ∈ q /\ unlocks a' p) as Hold.
  { intros x Hx q Hq. destruct (H2 x Hx) as (p0 & Hp0 & Hu). exists p0. split; [by apply Hq | by eapply unlocks_same]. }
  destruct Hfin as [r F Hiss | n S Hn F | S F].
  - exists w. specialize (Hun eq_refl). destruct Hiss as [l' t c e b Hsub Hlen S -> Hb Hlb | Hsub Hlen]; cbn [answer].
    + unfold give. rewrite grants_reply by done.
      split; cbn; try done; [by rewrite Q | | rewrite S, length_app; cbn; lia | by intros j0 ?%not_elem_of_nil | by rewrite F |].
      * rewrite S. intros x [Hx | ->%list_elem_of_singleton]%elem_of_app.
        -- apply Hold; [by eapply elem_of_sublist | intros y; by right].
        -- exists p. split; [by left | by eapply unlocks_same].
      * rewrite F. destruct H6; [left; by eapply rested_later | by right].
    + unfold give. rewrite grants_nothing.
      split; cbn; try done; [by rewrite Q | | lia | by intros j0 ?%not_elem_of_nil | by rewrite F |].
      * intros x Hx. apply Hold; [by eapply elem_of_sublist | done].
      * rewrite F. destruct H6; [left; by eapply rested_later | by right].
  - exists (now n :: w). cbn [answer]. unfold give, blame. rewrite grants_nothing.
    split; cbn; [by rewrite Q | by rewrite S; intros x Hx; apply Hold | by rewrite S | by intros j0 ?%not_elem_of_nil
      | by rewrite F | by rewrite F; right | | constructor; [by exists n | done]].
    apply (rested_spaced a); [done | by apply Hrest, Hlog | lia | done].
  - exists w. cbn [answer]. unfold give. rewrite grants_nothing.
    split; cbn; [by rewrite Q | by rewrite S; intros x Hx; apply Hold | by rewrite S | by intros j0 ?%not_elem_of_nil
      | by rewrite F | | done | done].
    rewrite F. destruct H6; [left; by eapply rested_later | by right].
Qed.

Lemma acquire_run {A} (k : eff auth response A) a a' r :
  (acquire ;; k) a = (a', r) ->
  (permit a = false /\ a' = a /\ r = inl (error_response 409 "auth_busy"))
  \/ (permit a = true /\ k (set_permit false a) = (a', r)).
Proof.
  unfold acquire, mbind, eff_bind, read, require. destruct (permit a); [by right | intros [= <- <-]; by left].
Qed.

Lemma change_run h current new a a' r :
  honest_world -> change_password now os rand_bytes pbkdf2_hmac h current new a = (a', r) ->
  (permit a = false /\ a' = a /\ r = error_response 409 "auth_busy")
  \/ exists a1, permit a = true /\ a' = set_permit true a1 /\ changed (set_permit false a) a1 current new r.
Proof.
  intros Hw. unfold change_password, answered.
  destruct ((acquire ;; _) a) as [s x] eqn:Hr. apply acquire_run in Hr as [(Hp & -> & ->) | (Hp & Hr)].
  - intros [= <- <-]. by left.
  - apply bind_run in Hr as [(e & He & _) | (a1 & resp & Hs & Hr)]; [by apply settled_run in He as (? & [=] & _) |].
    apply bind_run in Hr as [(e & [=] & _) | (a2 & [] & [= <-] & [= <- <-])]. intros [= <- <-]. right. exists a1.
    split_and!; [done | done |]. eapply change_password_run; [done |]. unfold answered.
    apply settled_run in Hs as (x & [= <-] & [-> | ->]); done.
Qed.

Lemma change_ok h current new a js pr l w a' r :
  honest_world -> panel_ok (Panel a js pr l) w -> change_password now os rand_bytes pbkdf2_hmac h current new a = (a', r) ->
  exists w', panel_ok (Panel a' js (give r new pr) (blame (blames r) a a' l)) w'.
Proof.
  intros Hw Hok Hr. apply change_run in Hr as [(_ & -> & ->) | (a1 & Hp & -> & Hch)]; [by exists w | | done].
  destruct Hok as [H1 H2 H3 H4 H5 H6 H7 H8]. cbn in *. rewrite Hp in H1. subst js.
  destruct Hch as [status reason Hnb [T S F Q] P | n Hun P S Q Hn Hm F | Hcur Hnew S Q T F | t c e b Hcur Hun Hnew S Q T F -> Hb Hlb];
    cbn [set_permit tick password sessions failed permit] in *.
  - exists w. unfold give, blames. rewrite grants_nothing. cbn [r_body error_response]. rewrite Hnb.
    split; cbn; try (done || by intros ? ?%not_elem_of_nil); [rewrite S; intros x Hx | by rewrite S | by rewrite F |].
    + destruct (H2 x Hx) as (p & ? & ?). exists p. split; [done | by eapply unlocks_same].
    + rewrite F. destruct H6; [left; by eapply rested_later | by right].
  - exists (now n :: w). unfold give, blames, blame. rewrite grants_nothing. cbn [r_body error_response].
    rewrite bool_decide_true by by right; left.
    split; cbn; try (done || by intros ? ?%not_elem_of_nil);
      [rewrite S; intros x Hx | by rewrite S | by rewrite F | by rewrite F; right | | constructor; [by exists n | done]].
    + destruct (H2 x Hx) as (p & ? & ?). exists p. split; [done | by eapply unlocks_same].
    + split; [| done]. destruct w as [| t w]; [done |]. destruct H6 as [H6 | H6].
      * destruct (H6 t eq_refl) as (m & Hm' & Hle). pose proof (now_mono Hw m n). lia.
      * destruct (Hm t H6) as (m & Hm' & Hle). pose proof (now_mono Hw m n Hm'). lia.
  - exists w. unfold give, blames. rewrite grants_nothing. cbn [r_body error_response]. cbn -[bool_decide]. rewrite bool_decide_false by (by intros [?|[?|?%not_elem_of_nil]%elem_of_cons]%elem_of_cons).
    split; cbn; try (done || by intros ? ?%not_elem_of_nil); [rewrite S; by intros x ?%not_elem_of_nil | rewrite S; cbn; lia | by rewrite F |].
    rewrite F. destruct H6; [left; by eapply rested_later | by right].
  - exists w. unfold give. rewrite grants_reply by done. cbn.
    split; cbn; try (done || by intros ? ?%not_elem_of_nil); [rewrite S; intros x ->%list_elem_of_singleton | rewrite S; cbn; lia | by rewrite F |].
    + exists new. split; [by left |]. apply written_unlocks. by destruct Hnew as (salt & hash & ?); exists salt, hash.
    + left. by apply (unthrottled_rested (set_permit false a)).
Qed.

(** ** Every step keeps it *)

Lemma answered_preserves R (m : eff auth response response) a a' r : preserves R m -> answered m a = (a', r) -> R a a'.
Proof. unfold answered. intros Hm. destruct (m a) as [s [x | x]] eqn:Hr; intros [= <- <-]; by eapply Hm. Qed.

Lemma logout_shrinks h a a' r : logout now rand_bytes h a = (a', r) -> shrinks a a'.
Proof.
  apply answered_preserves. preserved. apply preserves_update. intros ?. split; try done. apply sublist_filter.
Qed.

Lemma status_shrinks u h : preserves shrinks (auth_status now os rand_bytes boot_id uptime lan_address https_port u h).
Proof. unfold auth_status. preserved. Qed.

Lemma require_auth_shrinks m u h : preserves shrinks (require_auth now os lan_address https_port m u h).
Proof. unfold require_auth. preserved. Qed.

Lemma panel_step_ok s s' w : honest_world -> panel_ok s w -> panel_step s s' -> exists w', panel_ok s' w'.
Proof.
  intros Hw Hok Hstep. revert Hok. destruct Hstep as [u h p a js pr l a' r Hr | p a j1 j2 pr l a' v Hr | p v a j1 j2 pr l a' r Hr | u h c p a js pr l a' r Hr
    | p a j1 j2 pr l a' v Hr | p v a j1 j2 pr l a' r Hr | p v a j1 j2 pr l | p v a j1 j2 pr l | h current new a js pr l a' r Hr
    | h a js pr l a' r Hr | u h a js pr l a' r Hr | m u h a js pr l a' r Hr | a js pr l a' r Hr | n a js pr l Hn]; intros Hok;
    try by eapply change_ok.
  - exists w. apply login_enter_run in Hr as [He Hun]. eapply enters_ok; [exact Hok | exact He |]. intros Ht. split; [done |]. intros _.
    destruct Hok as [_ _ _ _ H5 H6 _ _], He as [T _ _ _ _]. by apply (unthrottled_rested a); [| | apply Hun].
  - exists w. apply try_run in Hr as [(b & Hr & [= ->]) | (e & Hr & [= ->])]; apply login_verify_run in Hr as [[T P S F Q] Hun];
      (eapply next_job_ok; [exact Hok | by split | by intros x q _; apply unlocks_same | | done]); [| done].
    destruct b; [by apply Hun | done].
  - destruct (only_job _ _ _ _ _ _ _ Hok) as (_ & -> & ->). apply login_finish_run in Hr as (T & P & Q & Hfin); [| done].
    destruct (finish_ok a a' [] (LoginVerified p v) [] p pr l w (to_option v) r) as [w' Hok']; [done.. | | done |].
    + destruct v as [[] |]; try done. intros _. by destruct (ok_jobs _ _ Hok (LoginVerified p (Ok true))) as [? _]; [left |].
    + exists w'. by destruct v as [[] |].
  - exists w. apply setup_enter_run in Hr as [He Hnone]. eapply enters_ok; [exact Hok | exact He |]. intros Ht. split; [| done].
    cbn. rewrite (en_password _ _ _ He). by apply Hnone.
  - exists w. destruct (ok_jobs _ _ Hok (SetupChecked p)) as [Hnone _]; [by apply elem_of_app; right; left |]. cbn in Hnone.
    apply try_run in Hr as [([] & Hr & [= ->]) | (e & Hr & [= ->])]; apply setup_store_run in Hr as [Hh Hwr]; try done;
      (eapply next_job_ok; [exact Hok | done | | | done]);
      try (intros x q _ (f & rec & Hf & _); congruence); [| done].
    by apply written_unlocks, Hwr.
  - destruct (only_job _ _ _ _ _ _ _ Hok) as (_ & -> & ->). apply setup_finish_run in Hr as (T & P & Q & Hfin); [| done].
    destruct (finish_ok a a' [] (SetupStored p v) [] p pr l w _ r Hw Hok T P Q Hfin) as [w' Hok'].
    + destruct v as [[] |]; try done. intros _. by destruct (ok_jobs _ _ Hok (SetupStored p (Ok tt))) as [? _]; [left |].
    + by destruct v.
    + exists w'. by destruct v.
  - exists w. destruct (only_job _ _ _ _ _ _ _ Hok) as (_ & -> & ->). by destruct Hok; split; cbn in *; try done; intros j ?%not_elem_of_nil.
  - exists w. destruct (only_job _ _ _ _ _ _ _ Hok) as (_ & -> & ->). by destruct Hok; split; cbn in *; try done; intros j ?%not_elem_of_nil.
  - exists w. eapply shrinks_ok; [done | by eapply logout_shrinks].
  - exists w. eapply shrinks_ok; [done | by eapply status_shrinks].
  - exists w. eapply shrinks_ok; [done | by eapply require_auth_shrinks].
  - exists w. eapply shrinks_ok; [done |]. revert Hr. apply (keeps_shrinks _ complete_onboarding_keeps).
  - exists w. eapply shrinks_ok; [done | by split].
Qed.

Lemma panel_run_ok s : honest_world -> panel_run s -> exists w, panel_ok s w.
Proof.
  intros Hw. induction 1 as [a a' Ho | s s' _ [w IH] Hs]; [| by eapply panel_step_ok]. exists [].
  unfold open_auth in Ho. apply bind_run in Ho as [(e & _ & [=]) | (a1 & c & _ & Ho)].
  apply bind_run in Ho as [(e & _ & [=]) | (a2 & [] & _ & [= <-])].
  split; cbn; try done; try lia; try (by intros x ?%not_elem_of_nil); [by left | by constructor].
Qed.

(** C6. Whatever the interleaving of requests - a login that verified its password before a change of
    password and issues its session after it, a client that goes away, a failed write -, every
    session of the table was given to a client that presented a password which unlocks the credential
    record that is on disk now: no session outlives the password it was opened with. And there are
    never more than 32. *)
Theorem sessions_prove_password s :
  honest_world -> panel_run s ->
  (forall x, x ∈ sessions (p_auth s) -> exists p, (s_token x, p) ∈ p_proven s /\ unlocks (p_auth s) p)
  /\ (length (sessions (p_auth s)) <= 32)%nat.
Proof. intros Hw Hr. destruct (panel_run_ok s Hw Hr) as [w Hok]. split; [apply Hok | apply Hok]. Qed.

(** C15. Guessing is slow: whatever requests run side by side, every wrong password - at a login whose check
    failed, whatever the answer, and at a change of password that is told its password is wrong - has an
    instant while its answer was made, and these instants are at least a second apart. And a password is only
    ever checked by the one request that holds the permit. The instants are the world's: that the panel has
    written its throttle down is not assumed, so a panel that forgets to would let two of them be close. *)
Theorem wrong_passwords_spaced s :
  honest_world -> panel_run s ->
  (exists w, seen w (p_wrong s) /\ spaced w)
  /\ (length (p_jobs s) <= 1)%nat.
Proof.
  intros Hw Hr. destruct (panel_run_ok s Hw Hr) as [w [Hp _ _ _ _ _ Hs Hn]]. split; [by exists w |].
  destruct (permit (p_auth s)); [by rewrite Hp; cbn; lia | destruct Hp as [j ->]; cbn; lia].
Qed.

(** C14. A change of password is all or nothing for the sessions: either the record, the sessions and the
    client's cookie stay as they were, or the client knew the old password, the new one unlocks the
    record, and every session but the one this response grants is gone - also when the answer is
    that the outcome is uncertain. *)
Theorem change_password_revokes h current new a a' r :
  honest_world -> change_password now os rand_bytes pbkdf2_hmac h current new a = (a', r) ->
  (password a' = password a /\ sessions a' = sessions a /\ grants r = None)
  \/ (unlocks a current /\ unlocks a' new
      /\ ((sessions a' = [] /\ grants r = None) \/ exists x, sessions a' = [x] /\ grants r = Some (s_token x))).
Proof.
  intros Hw [(_ & -> & ->) | (a1 & Hp & -> & Hch)]%change_run; [by left | | done].
  assert (forall b p, unlocks b p -> unlocks (set_permit true b) p) as Hset by (intros b p (f & rec & ?); by exists f, rec).
  assert (unlocks (set_permit false a) current -> unlocks a current) as Hcur by (intros (f & rec & ?); by exists f, rec).
  destruct Hch as [status reason Hnb [T S F Q] P | n Hun P S Q Hn Hm F | Hc Hnew S Q T F | t c e b Hc Hun Hnew S Q T F -> Hb Hlb].
  - left. by split_and!.
  - left. by split_and!.
  - right. split; [by apply Hcur |]. split; [by apply Hset, written_unlocks |]. left. by split.
  - right. split; [by apply Hcur |]. split; [by apply Hset, written_unlocks |]. right.
    eexists. split; [exact S |]. by apply grants_reply.
Qed.

(** ** Reading back what was written *)

Lemma utf8_record salt hash : byte_string salt -> byte_string hash -> utf8_string (record_text salt hash) = Some (record_text salt hash).
Proof.
  intros Hs Hh. unfold utf8_string.
  assert (Forall (fun a => code a < 128) (chars (record_text salt hash))) as Hascii.
  { assert (forall l, Forall (fun a => is_ascii_hexdigit a = true) l -> Forall (fun a => code a < 128) l) as Hhex.
    { intros l Hl. eapply Forall_impl; [exact Hl |]. intros a Ha.
      unfold is_ascii_hexdigit, is_ascii_digit, in_range in Ha. repeat case_bool; lia. }
    unfold record_text, join. rewrite chars_str.
    cbn -[hex code]. rewrite !Forall_cons. rewrite Forall_app, Forall_cons.
    pose proof (Hhex _ (hex_chars _ Hs)). pose proof (Hhex _ (hex_chars _ Hh)). split_and!; done. }
  assert (utf8_valid (code <$> chars (record_text salt hash)) = true) as ->; [| done].
  induction Hascii as [| a l Ha _ IH]; [done |]. cbn [fmap list_fmap utf8_valid].
  assert (code a <? 128 = true) as -> by by apply Z.ltb_lt. done.
Qed.

Lemma record_length salt hash : length salt = 32%nat -> length hash = 32%nat -> slen (record_text salt hash) = 155.
Proof.
  intros Hs Hh. unfold slen, record_text, join. rewrite chars_str. cbn -[hex].
  rewrite length_app. cbn -[hex]. unfold hex. rewrite !chars_str, !hex_length, Hs, Hh. done.
Qed.

Lemma call_healthy a : os (tick a) = None -> call os a = (set_tick (S (tick a)) a, inr tt).
Proof. intros Ho. unfold call, mbind, eff_bind, next_tick. by rewrite Ho. Qed.

Lemma read_written p a :
  written p a -> (forall n, (tick a <= n)%nat -> os n = None) ->
  exists a' record, read_record a = (a', inr record) /\ verify_record record p = Ok true
    /\ forall q b, verify_record record q = Ok b -> (b = true <-> scrypt32 q record.1 = Ok record.2).
Proof.
  intros (salt & hash & Hf & Hk & Hs & Hh & Hls & Hlh) Hos. unfold Auth.read_record.
  eexists _, (salt, hash). split; [| split].
  - forward ltac:(by apply call_healthy, Hos). forward ltac:(done). cbn [password set_tick]. rewrite Hf.
    cbn [f_mode f_data private_file]. rewrite record_length by done. forward ltac:(done).
    forward ltac:(apply call_healthy, Hos; cbn; lia). rewrite utf8_record by done. forward ltac:(done).
    by rewrite parse_record_text.
  - unfold Auth.verify_record. cbn. rewrite Hk. cbn. by rewrite bool_decide_true.
  - intros q b. unfold Auth.verify_record. cbn. destruct (scrypt32 q salt) as [x | e]; cbn; [| done]. intros [= <-].
    rewrite bool_decide_eq_true. split; [by intros -> | by intros [= ->]].
Qed.

(** The credential survives its file. What [write_record] stored for a password is read back, accepts
    that password, and accepts exactly the passwords whose scrypt hash under the stored salt is the
    stored one. *)
Theorem credential_roundtrip p a a' :
  honest_world -> write_record p a = (a', inr tt) -> (forall n, (tick a' <= n)%nat -> os n = None) ->
  exists a2 record, read_record a' = (a2, inr record) /\ verify_record record p = Ok true
    /\ forall q b, verify_record record q = Ok b -> (b = true <-> scrypt32 q record.1 = Ok record.2).
Proof. intros Hw Hr%write_record_run Hos; [| done]. by apply read_written. Qed.

(** Writing the credential is atomic. Whichever call fails, the record on disk is the old one or one
    that the new password unlocks; the error says which ([RecordPublished]); and sessions, throttle and
    permit are not touched. *)
Theorem credential_write_atomic p a a' r :
  honest_world -> write_record p a = (a', r) ->
  (match r with
   | inr _ => unlocks a' p
   | inl e => if error_is RecordPublished e then unlocks a' p else password a' = password a
   end) /\ sessions a' = sessions a /\ failed a' = failed a /\ permit a' = permit a.
Proof.
  intros Hw Hr. pose proof (write_record_holds _ _ _ _ Hr) as [_ S F Q]. split; [| done].
  apply write_record_run in Hr; [| done]. destruct r as [e | []]; [| by apply written_unlocks].
  destruct (error_is RecordPublished e); [by apply written_unlocks | done].
Qed.

(** ** Who gets through the middleware *)

Definition same_marker (a a' : auth) : Prop := onboarding_state a' = onboarding_state a.

#[local] Instance same_marker_preorder : PreOrder same_marker.
Proof. split; [by intros a | intros a b c; unfold same_marker; congruence]. Qed.

Lemma call_marker : preserves same_marker (call os).
Proof. unfold call. preserved. intros a a' r. by intros [= <- <-]. Qed.

Lemma find_session_marker h : preserves same_marker (find_session h).
Proof.
  unfold Auth.find_session. preserved. apply preserves_update. intros a. by destruct (retain_live now (tick a) (sessions a)).
Qed.

(** A step that is not the first: the marker does not say so. *)
Lemma onboarding_step_run a a' s :
  onboarding_step os a = (a', inr s) -> s <> StepAdmin ->
  forall f, onboarding_state a = Some f -> f_data f <> ADMIN_MARKER.
Proof.
  intros [(e & _ & [=]) | (a1 & m & Hm & Hr)]%bind_run Hs f Hf Hdata.
  apply bind_run in Hr as [(e & [=] & _) | (a2 & c & [= <- <-] & Hr)].
  apply bind_run in Hm as [(e & _ & [=]) | (a3 & v & Hv & Hm)].
  apply bind_run in Hv as [(e & _ & [=]) | (a4 & found & Hopen & Hv)].
  apply bind_run in Hopen as [(e & _ & [=]) | (a5 & [] & H5%call_marker & [= <- <-])]. rewrite H5, Hf in Hv.
  apply bind_run in Hv as [(e & _ & [=]) | (a6 & [] & _ & Hv)].
  apply bind_run in Hv as [(e & _ & [=]) | (a7 & [] & _ & Hv)].
  apply bind_run in Hv as [(e & _ & [=]) | (a8 & [] & _ & Hv)].
  apply bind_run in Hv as [(e & _ & [=]) | (a9 & [] & _ & [= -> <-])].
  rewrite Hdata, bool_decide_true in Hm by done. injection Hm as -> <-.
  apply bind_run in Hr as [(e & _ & [=]) | (a10 & [] & _ & [= _ <-])]. done.
Qed.

(** What a request must show to pass. *)
Definition admitted (m : method) (u : uri) (h : headers) (a : auth) : Prop :=
  allowed_host lan_address https_port u h = true
  /\ (exists x n, x ∈ sessions a /\ cookie h SESSION = Some (s_token x) /\ (tick a <= n)%nat /\ now n < s_expires x
        /\ (safe_method m = true \/ (allowed_origin lan_address https_port h = true
                                     /\ header_text "x-csrf-token" h = Some (s_csrf x))))
  /\ (before_setup m (u_path u) = true \/ forall f, onboarding_state a = Some f -> f_data f <> ADMIN_MARKER).

Lemma require_auth_admits m u h a a' :
  require_auth now os lan_address https_port m u h a = (a', inr tt) -> admitted m u h a.
Proof.
  intros [(e & _ & [=]) | (a1 & [] & [-> [[Hhost _] | [_ [=]]]]%require_run & Hr)]%bind_run. split; [done |].
  apply bind_run in Hr as [(e & _ & [=]) | (a2 & found & Hf & Hr)].
  apply try_run in Hf as [([t c] & Hf & [= ->]) | (e & _ & [= ->])]; [| done].
  pose proof (find_session_marker _ _ _ _ Hf) as Hmark.
  apply find_session_run in Hf as (x & n & Hx & _ & <- & <- & Hcookie & Hn & Hexp).
  apply bind_run in Hr as [(e & _ & [=]) | (a3 & [] & [-> [[Hsafe _] | [_ [=]]]]%require_run & Hr)].
  split.
  - exists x, n. split_and!; try (done || lia). apply orb_true_iff in Hsafe as [Hs | [Ho Hc]%andb_true_iff]; [by left | right].
    split; [done |]. unfold csrf_matches in Hc. destruct (header_text "x-csrf-token" h) as [v |]; [| done].
    apply andb_true_iff in Hc as [_ Hv%bool_decide_eq_true%chars_inj]. by rewrite Hv.
  - apply bind_run in Hr as [(e & _ & [=]) | (a4 & st & Hst & Hr)].
    apply try_run in Hst as [(s & Hst & [= ->]) | (e & _ & [= ->])]; [| done].
    apply require_run in Hr as [_ [[Hreq _] | [_ [=]]]]. apply negb_true_iff, andb_false_iff in Hreq as [Hs | Hb].
    + right. intros f Hf. eapply onboarding_step_run; [exact Hst | by apply bool_decide_eq_false in Hs |].
      by rewrite Hmark.
    + left. by apply negb_false_iff in Hb.
Qed.

(** The middleware lets a request through only if its host is the panel's, its session cookie names a
    session of the table that has not expired, it changes nothing or comes from the panel's origin with
    that session's CSRF token, and, outside the few paths of the first setup, the administrator's
    password has been set. *)
Theorem require_auth_sound m u h a a' :
  require_auth now os lan_address https_port m u h a = (a', inr tt) ->
  allowed_host lan_address https_port u h = true
  /\ (exists x n, x ∈ sessions a /\ cookie h SESSION = Some (s_token x) /\ (tick a <= n)%nat /\ now n < s_expires x
        /\ (safe_method m = true \/ (allowed_origin lan_address https_port h = true
                                     /\ header_text "x-csrf-token" h = Some (s_csrf x))))
  /\ (before_setup m (u_path u) = true \/ forall f, onboarding_state a = Some f -> f_data f <> ADMIN_MARKER).
Proof. apply require_auth_admits. Qed.

(** ** A login finishes an interrupted setup *)

Definition healthy : Prop := (forall n, os n = None) /\ forall t n, exists l, rand_bytes t n = Ok l.

Lemma call_ok a : healthy -> call os a = (set_tick (S (tick a)) a, inr tt).
Proof. intros [Hos _]. by apply call_healthy. Qed.

#[local] Ltac calls Hok := repeat forward ltac:(by apply call_ok).

Lemma read_limited_ok f limit v a :
  healthy -> (forall n, f (set_tick n a) = Some (private_file v)) -> slen v <= limit ->
  read_limited os f limit a = (set_tick (3 + tick a) a, inr (Some v)).
Proof.
  intros Hok Hf Hv. unfold read_limited.
  forward ltac:(unfold open_file; forward ltac:(by apply call_ok); unfold read; by rewrite Hf).
  forward ltac:(by apply call_ok). forward ltac:(done). forward ltac:(by apply call_ok).
  cbn [f_data private_file]. assert (slen v <=? limit = true) as -> by by apply Z.leb_le. done.
Qed.

Lemma marker_ok v s a :
  healthy -> onboarding_state a = Some (private_file v) ->
  (v = ADMIN_MARKER /\ s = StepAdmin) \/ (v = SERVER_MARKER /\ s = StepServer) ->
  marker os a = (set_tick (3 + tick a) a, inr (Some s)).
Proof.
  intros Hok Hv Hs. unfold marker. forward ltac:(apply (read_limited_ok _ _ v); [done | done | by destruct Hs as [[-> _] | [-> _]]]).
  by destruct Hs as [[-> ->] | [-> ->]].
Qed.

(** With the password set, [complete_admin] moves a marker on and removes the setup code. *)
Lemma complete_admin_ok v a :
  healthy -> is_Some (password a) -> onboarding_state a = Some (private_file v) -> v = ADMIN_MARKER \/ v = SERVER_MARKER ->
  exists a', complete_admin a = (a', inr tt) /\ onboarding_state a' = Some (private_file SERVER_MARKER) /\ setup_code a' = None.
Proof.
  intros Hok Hp Hv Hm. unfold Onboarding.complete_admin.
  forward ltac:(done). unfold configured. rewrite bool_decide_true by done. forward ltac:(done).
  destruct Hm as [-> | ->].
  - forward ltac:(apply (marker_ok ADMIN_MARKER StepAdmin); [done | done | by left]).
    eexists. split; [| split].
    + forward ltac:(unfold atomic_state; do 4 forward ltac:(by apply call_ok); forward ltac:(done);
        forward ltac:(by apply call_ok); by apply call_ok).
      forward ltac:(by apply call_ok). forward ltac:(done). forward ltac:(by apply call_ok). by apply call_ok.
    + done.
    + done.
  - forward ltac:(apply (marker_ok SERVER_MARKER StepServer); [done | done | by right]).
    eexists. split; [| split].
    + forward ltac:(forward ltac:(by apply call_ok); by apply call_ok).
      forward ltac:(by apply call_ok). forward ltac:(done). forward ltac:(by apply call_ok). by apply call_ok.
    + done.
    + done.
Qed.

Lemma token_ok a : healthy -> exists t, token rand_bytes a = (set_tick (S (tick a)) a, inr t).
Proof.
  intros [_ Hr]. destruct (Hr (tick a) 32%nat) as [l Hl]. exists (hex l). unfold token.
  forward ltac:(unfold random; forward ltac:(done); unfold of_result; by rewrite Hl). done.
Qed.

Lemma issue_ok a : healthy -> exists a' t c, issue a = (a', inr (t, c))
  /\ onboarding_state a' = onboarding_state a /\ setup_code a' = setup_code a /\ password a' = password a.
Proof.
  intros Hok. unfold Auth.issue. set (b := (drop_expired (E := error) now a).1).
  assert (drop_expired (E := error) now a = (b, inr tt)) as Hb by done.
  assert (onboarding_state b = onboarding_state a /\ setup_code b = setup_code a /\ password b = password a) as (H1 & H2 & H3)
    by (subst b; cbn; by destruct (retain_live now (tick a) (sessions a))).
  clearbody b. rewrite (run_bind _ _ _ _ _ Hb). forward ltac:(done). set (c0 := set_sessions _ b).
  destruct (token_ok c0 Hok) as [t Ht]. rewrite (run_bind _ _ _ _ _ Ht).
  destruct (token_ok (set_tick (S (tick c0)) c0) Hok) as [c Hc]. rewrite (run_bind _ _ _ _ _ Hc).
  by eexists _, t, c.
Qed.

(** A first setup that was interrupted after the password was stored - the marker still says that no
    password is set, so every request is refused - is completed by the next login with that
    password: the router goes on to the server step, the setup code is gone, and the client has its
    session. *)
Theorem login_repairs_onboarding u h p a f record :
  honest_world -> healthy -> preauth lan_address https_port u h = true -> password_too_long p = false ->
  permit a = true -> failed a = None ->
  password a = Some f -> Z.land (f_mode f) 0x3f = 0 -> slen (f_data f) <= 512 -> utf8_string (f_data f) = Some (f_data f) ->
  parse_record (f_data f) = Ok record -> verify_record record p = Ok true ->
  onboarding_state a = Some (private_file ADMIN_MARKER) ->
  (exists b e, onboarding_step os a = (b, inl e)) /\
  exists a' r t b, login now os rand_bytes pbkdf2_hmac lan_address https_port u h p a = (a', r) /\ grants r = Some t
    /\ onboarding_step os a' = (b, inr StepServer) /\ setup_code a' = None /\ permit a' = true.
Proof.
  intros Hw Hok Hpre Hlong Hperm Hfail Hf Hmode Hlen Hutf Hparse Hver Hmark. split.
  { unfold onboarding_step. eexists _, _.
    forward ltac:(apply (marker_ok ADMIN_MARKER StepAdmin); [done | done | by left]). forward ltac:(done).
    unfold configured. rewrite bool_decide_true by (cbn; rewrite Hf; eauto). done. }
  assert (login_enter now lan_address https_port u h p a = (set_permit false a, inr tt)) as Henter.
  { unfold login_enter. rewrite Hpre, Hlong. forward ltac:(done). forward ltac:(done). forward ltac:(done).
    unfold configured. rewrite bool_decide_true by (rewrite Hf; eauto). forward ltac:(done).
    forward ltac:(unfold acquire; forward ltac:(done); rewrite Hperm; forward ltac:(done); done).
    forward ltac:(unfold throttled; forward ltac:(done); cbn [failed set_permit]; rewrite Hfail; done). done. }
  set (a1 := set_permit false a) in *.
  assert (read_record a1 = (set_tick (2 + tick a1) a1, inr record)) as Hread.
  { unfold Auth.read_record. forward ltac:(by apply call_ok). forward ltac:(done). cbn [password set_tick set_permit a1]. rewrite Hf.
    rewrite Hmode. assert (slen (f_data f) <=? 512 = true) as -> by by apply Z.leb_le. forward ltac:(done).
    forward ltac:(by apply call_ok). rewrite Hutf. forward ltac:(done). by rewrite Hparse. }
  destruct (complete_admin_ok ADMIN_MARKER (set_tick (2 + tick a1) a1)) as (a2 & Hc & Hm2 & Hs2); [done | cbn; rewrite Hf; eauto | done | by left |].
  assert (login_verify os pbkdf2_hmac p a1 = (a2, inr true)) as Hverify.
  { unfold login_verify. forward ltac:(apply run_try; forward ltac:(exact Hread); by rewrite Hver). cbn.
    forward ltac:(exact Hc). done. }
  pose proof (complete_admin_keeps _ _ _ Hc) as [_ P2 _ _ _].
  destruct (issue_ok a2 Hok) as (a3 & t & c & Hi & Hm3 & Hs3 & P3).
  assert (login_finish now rand_bytes (Ok true) a2 = (set_permit true a3, inr (reply "authenticated" c (Some t) None None))) as Hfinish.
  { unfold login_finish. forward ltac:(apply run_try; exact Hi). forward ltac:(done). done. }
  pose proof (issue_run a2 a3 _ Hw Hi) as (_ & _ & _ & _ & (l & e & b & _ & _ & _ & -> & Hb & Hlb)).
  exists (set_permit true a3), (reply "authenticated" c (Some (hex b)) None None), (hex b), (set_tick (3 + tick a3) (set_permit true a3)).
  split.
  { unfold login, answered. rewrite (run_bind _ _ _ _ _ Henter).
    rewrite (run_bind _ _ _ _ _ (run_try _ _ _ _ Hverify)). by rewrite Hfinish. }
  split; [by apply grants_reply |]. split; [| split; [cbn; congruence | done]].
  unfold onboarding_step. forward ltac:(apply (marker_ok SERVER_MARKER StepServer); [done | cbn; by rewrite Hm3 | by right]).
  forward ltac:(done). unfold configured. rewrite bool_decide_true; [done |]. cbn. rewrite P3, P2. cbn. rewrite Hf. eauto.
Qed.
End Safety.

(** ** Examples *)

(** A PBKDF2 that tells passwords of different lengths apart, a random generator of bytes, a clock that
    ticks twice a second, a system that does not fail. *)
Definition sample_pbkdf2 (p s : list Z) (n : nat) : result (list Z) := Ok (replicate n (Z.of_nat (length p) mod 256)).
Definition sample_rand (t n : nat) : result (list Z) := Ok (replicate n (Z.of_nat t mod 256)).
Definition sample_now (n : nat) : Z := Z.of_nat n * 500000000.
Definition sample_os (n : nat) : option error := None.
Definition sample_boot (n : nat) : option string := Some "boot"%string.
Definition sample_uptime (n : nat) : option string := Some "200.5 3"%string.

Lemma replicate_bytes n b : is_u 8 b -> byte_string (replicate n b).
Proof. intros Hb. by apply Forall_replicate. Qed.

Lemma sample_honest : honest_world sample_now sample_os sample_rand sample_pbkdf2.
Proof.
  split; unfold sample_now, sample_rand, sample_pbkdf2, sample_os; try done.
  - intros n. lia.
  - intros t n l [= <-]. split; [apply length_replicate |]. apply replicate_bytes. apply Z.mod_pos_bound. lia.
  - intros p s n l [= <-]. split; [apply length_replicate |]. apply replicate_bytes. apply Z.mod_pos_bound. lia.
Qed.

(** A router on its first boot, with the setup window open. *)
Definition first_boot : auth :=
  Auth 0 None false (Some (private_file (str (chars "12345" ++ [LF])))) (Some (private_file ADMIN_MARKER))
    (Some (private_file "boot 1000")) None [] None true.

Definition sample_uri : uri := Uri None "/api/auth/setup".
Definition sample_headers : headers :=
  [("host", "wifi.gofro.net"); ("origin", "https://wifi.gofro.net"); ("cookie", "a=b; __Host-gofro-csrf=tok");
   ("x-csrf-token", "tok")]%string.

Definition sample_entered := setup_enter sample_os sample_boot sample_uptime 0 8443 sample_uri sample_headers
  (Some "12345"%string) "password1" first_boot.
Definition sample_stored := try (E := response) (setup_store sample_os sample_rand sample_pbkdf2 "password1") sample_entered.1.
Definition sample_finished := setup_finish sample_now sample_rand (Ok tt) sample_stored.1.

Definition sample_panel : panel :=
  Panel sample_finished.1 [] (give (answer sample_finished.2) "password1" []) [].

Lemma sample_entered_ok :
  setup_enter sample_os sample_boot sample_uptime 0 8443 sample_uri sample_headers (Some "12345"%string) "password1" first_boot
  = (sample_entered.1, inr tt).
Proof. lazy. reflexivity. Qed.

Lemma sample_stored_ok :
  try (E := response) (setup_store sample_os sample_rand sample_pbkdf2 "password1") sample_entered.1 = (sample_stored.1, inr (Ok tt)).
Proof. lazy. reflexivity. Qed.

Lemma sample_finished_ok :
  setup_finish sample_now sample_rand (Ok tt) sample_stored.1 = (sample_finished.1, sample_finished.2).
Proof. unfold sample_finished. by destruct (setup_finish _ _ _ _). Qed.

Lemma sample_panel_run :
  panel_run sample_now sample_os sample_rand sample_boot sample_uptime sample_pbkdf2 0 8443 sample_panel.
Proof.
  apply (run_step _ _ _ _ _ _ _ _ (Panel sample_stored.1 [SetupStored "password1" (Ok tt)] [] [])).
  - apply (run_step _ _ _ _ _ _ _ _ (Panel sample_entered.1 [SetupChecked "password1"] [] [])).
    + apply (run_step _ _ _ _ _ _ _ _ (Panel first_boot [] [] [])).
      * by apply (run_open _ _ _ _ _ _ _ _ first_boot).
      * exact (step_setup_enter _ _ _ _ _ _ _ _ sample_uri sample_headers (Some "12345"%string) "password1" first_boot [] [] []
          sample_entered.1 (inr tt) sample_entered_ok).
    + exact (step_setup_store _ _ _ _ _ _ _ _ "password1" sample_entered.1 [] [] [] [] sample_stored.1 (Ok tt) sample_stored_ok).
  - exact (step_setup_finish _ _ _ _ _ _ _ _ "password1" (Ok tt) sample_stored.1 [] [] [] [] sample_finished.1 sample_finished.2
      sample_finished_ok).
Qed.

Lemma sample_session : exists x, x ∈ sessions (p_auth sample_panel).
Proof. eexists. lazy. left. Qed.

Lemma sessions_prove_password_witness :
  exists x p, x ∈ sessions (p_auth sample_panel) /\ (s_token x, p) ∈ p_proven sample_panel
    /\ unlocks sample_pbkdf2 (p_auth sample_panel) p.
Proof.
  destruct (sessions_prove_password _ _ _ _ _ _ _ _ sample_panel sample_honest sample_panel_run) as [Hs _].
  destruct sample_session as [x Hx]. destruct (Hs x Hx) as (p & Hp & Hu). exists x, p. exact (conj Hx (conj Hp Hu)).
Defined.

(** Someone who guesses, in three parts: the checks, the thread that verifies, the answer. *)
Definition guess_entered (a : auth) := login_enter sample_now 0 8443 sample_uri sample_headers "guess" a.
Definition guess_verified (a : auth) :=
  try (E := response) (login_verify sample_os sample_pbkdf2 "guess") (guess_entered a).1.
Definition guess_finished (a : auth) := login_finish sample_now sample_rand (Ok false) (guess_verified a).1.

Lemma guess_run a pr l :
  panel_run sample_now sample_os sample_rand sample_boot sample_uptime sample_pbkdf2 0 8443 (Panel a [] pr l) ->
  (guess_entered a).2 = inr tt -> (guess_verified a).2 = inr (Ok false) ->
  panel_run sample_now sample_os sample_rand sample_boot sample_uptime sample_pbkdf2 0 8443
    (Panel (guess_finished a).1 [] pr ((tick (guess_verified a).1, tick (guess_finished a).1) :: l)).
Proof.
  intros Hrun He Hv. apply (run_step _ _ _ _ _ _ _ _ (Panel (guess_verified a).1 [LoginVerified "guess" (Ok false)] pr l)).
  - apply (run_step _ _ _ _ _ _ _ _ (Panel (guess_entered a).1 [LoginChecked "guess"] pr l)).
    + apply (run_step _ _ _ _ _ _ _ _ _ _ Hrun).
      apply (step_login_enter _ _ _ _ _ _ _ _ sample_uri sample_headers "guess" a [] pr l _ (inr tt)).
      rewrite <- He. by destruct (guess_entered a) eqn:Hg.
    + apply (step_login_verify _ _ _ _ _ _ _ _ "guess" (guess_entered a).1 [] [] pr l).
      rewrite <- Hv. unfold guess_verified. by destruct (try _ _).
  - exact (step_login_finish _ _ _ _ _ _ _ _ "guess" (Ok false) (guess_verified a).1 [] [] pr l (guess_finished a).1 _ eq_refl).
Qed.

(** One guess after the setup, and one two seconds later. *)
Definition first_guess : auth := (guess_finished sample_finished.1).1.
Definition waited : auth := set_tick (4 + tick first_guess) first_guess.
Definition guessed : panel :=
  Panel (guess_finished waited).1 [] (p_proven sample_panel)
    [(tick (guess_verified waited).1, tick (guess_finished waited).1);
     (tick (guess_verified sample_finished.1).1, tick first_guess)].

Lemma first_guess_taken :
  (guess_entered sample_finished.1).2 = inr tt /\ (guess_verified sample_finished.1).2 = inr (Ok false).
Proof. split; lazy; reflexivity. Qed.

Lemma second_guess_taken : (guess_entered waited).2 = inr tt /\ (guess_verified waited).2 = inr (Ok false).
Proof. split; lazy; reflexivity. Qed.

(** Without the wait it is refused: nothing is verified. *)
Example third_guess_throttled : (guess_entered (guess_finished waited).1).2 = inl (error_response 429 "login_throttled").
Proof. lazy. reflexivity. Qed.

Lemma guessed_run : panel_run sample_now sample_os sample_rand sample_boot sample_uptime sample_pbkdf2 0 8443 guessed.
Proof.
  refine (guess_run waited _ _ _ (proj1 second_guess_taken) (proj2 second_guess_taken)).
  apply (run_step _ _ _ _ _ _ _ _ (Panel first_guess [] (p_proven sample_panel) [(tick (guess_verified sample_finished.1).1, tick first_guess)])).
  - exact (guess_run sample_finished.1 _ _ sample_panel_run (proj1 first_guess_taken) (proj2 first_guess_taken)).
  - apply step_time. apply Nat.le_add_l.
Qed.

Lemma wrong_passwords_spaced_witness :
  exists early late, seen sample_now [late; early] (p_wrong guessed) /\ early + SECOND <= late.
Proof.
  destruct (wrong_passwords_spaced _ _ _ _ _ _ _ _ guessed sample_honest guessed_run) as [(w & Hseen & Hspaced) _].
  pose proof (Forall2_length _ _ _ Hseen) as Hlen. cbn [length p_wrong guessed] in Hlen.
  destruct w as [| late [| early [| more w]]]; try discriminate Hlen.
  exists early, late. exact (conj Hseen (proj1 Hspaced)).
Defined.

(** The requests of the client that set the password up. *)
Definition sample_client : headers :=
  [("host", "wifi.gofro.net"); ("origin", "https://wifi.gofro.net");
   ("cookie", SESSION +:+ "=" +:+ default "" (grants (answer sample_finished.2)));
   ("x-csrf-token", match r_body (answer sample_finished.2) with AuthReply _ csrf _ _ => csrf | _ => "" end)]%string.

Definition sample_change := change_password sample_now sample_os sample_rand sample_pbkdf2 sample_client "password1" "password2" sample_finished.1.

Example sample_change_granted : is_Some (grants sample_change.2).
Proof. eexists. lazy. reflexivity. Qed.

Lemma sample_change_ok :
  change_password sample_now sample_os sample_rand sample_pbkdf2 sample_client "password1" "password2" sample_finished.1
  = (sample_change.1, sample_change.2).
Proof. unfold sample_change. by destruct (change_password _ _ _ _ _ _ _ _). Qed.

Lemma change_password_revokes_witness :
  exists x, sessions sample_change.1 = [x] /\ unlocks sample_pbkdf2 sample_change.1 "password2".
Proof.
  destruct (change_password_revokes _ _ _ _ sample_client "password1" "password2" sample_finished.1 _ _ sample_honest
    sample_change_ok) as [(_ & _ & Hn) | (_ & Hu & [[_ Hn] | (x & Hx & _)])].
  - exfalso. destruct sample_change_granted as [t Ht]. rewrite Hn in Ht. discriminate Ht.
  - exfalso. destruct sample_change_granted as [t Ht]. rewrite Hn in Ht. discriminate Ht.
  - exists x. exact (conj Hx Hu).
Defined.

Definition sample_written := write_record sample_os sample_rand sample_pbkdf2 "password1" first_boot.

Lemma sample_written_ok :
  write_record sample_os sample_rand sample_pbkdf2 "password1" first_boot = (sample_written.1, inr tt).
Proof. lazy. reflexivity. Qed.

Lemma credential_roundtrip_witness :
  exists a record, read_record sample_os sample_written.1 = (a, inr record)
    /\ verify_record sample_pbkdf2 record "password1" = Ok true.
Proof.
  destruct (credential_roundtrip _ _ _ _ "password1" first_boot _ sample_honest sample_written_ok (fun n _ => eq_refl))
    as (a & record & Hr & Hv & _).
  exists a, record. exact (conj Hr Hv).
Defined.

Lemma credential_write_atomic_witness : unlocks sample_pbkdf2 sample_written.1 "password1".
Proof. exact (proj1 (credential_write_atomic _ _ _ _ "password1" first_boot _ _ sample_honest sample_written_ok)). Defined.

Definition sample_passed := require_auth sample_now sample_os 0 8443 (OtherMethod "POST") (Uri None "/api/servers") sample_client sample_finished.1.

Lemma sample_passed_ok :
  require_auth sample_now sample_os 0 8443 (OtherMethod "POST") (Uri None "/api/servers") sample_client sample_finished.1
  = (sample_passed.1, inr tt).
Proof. lazy. reflexivity. Qed.

Lemma require_auth_sound_witness : exists x, x ∈ sessions sample_finished.1 /\ header_text "x-csrf-token" sample_client = Some (s_csrf x).
Proof.
  destruct (require_auth_sound _ _ _ _ _ _ _ _ _ sample_passed_ok) as (_ & (x & n & Hx & _ & _ & _ & [Hs | [_ Hc]]) & _).
  - discriminate Hs.
  - exists x. exact (conj Hx Hc).
Defined.

(** The password was stored, the marker was not moved on. *)
Definition interrupted : auth := set_permit true (set_onboarding_state (Some (private_file ADMIN_MARKER)) sample_written.1).

Lemma login_repairs_onboarding_witness :
  exists a r t, login sample_now sample_os sample_rand sample_pbkdf2 0 8443 sample_uri sample_headers "password1" interrupted = (a, r)
    /\ grants r = Some t /\ setup_code a = None.
Proof.
  destruct (login_repairs_onboarding sample_now sample_os sample_rand sample_pbkdf2 0 8443 sample_uri sample_headers
    "password1" interrupted (private_file (record_text (replicate 32 0) (replicate 32 9))) (replicate 32 0, replicate 32 9))
    as (_ & a & r & t & b & Hl & Hg & _ & Hs & _).
  - exact sample_honest.
  - split; [exact (fun n => eq_refl) |]. intros t n. eexists. reflexivity.
  - lazy. reflexivity.
  - lazy. reflexivity.
  - reflexivity.
  - lazy. reflexivity.
  - lazy. reflexivity.
  - lazy. reflexivity.
  - lazy. discriminate.
  - lazy. reflexivity.
  - lazy. reflexivity.
  - lazy. reflexivity.
  - lazy. reflexivity.
  - exists a, r, t. exact (conj Hl (conj Hg Hs)).
Defined.
