(* ===== verification/Devices.v ===== *)
(** * The devices of the LAN (crates/gofro-agent/src/devices.rs)

    What the panel lists: the leases of dnsmasq and the kernel's neighbours, merged
    by hardware address. The three programs that are asked ([uci], [cat], [ip])
    answer from outside, within their deadline or not; serde_json reads the
    neighbours. *)

From stdpp Require Import base gmap strings list sorting.
From Stdlib Require Import Ascii ZArith Lia.
From Stdlib Require OrdersEx.
From S2P Require Import Prelude RustStd IpAddr Net Model.

Definition MAX_BYTES : Z := 1048576.
Definition MAX_ROWS : Z := 4096.
Definition MAX_FILES : Z := 8.
Definition MAX_NAME : Z := 63.
Definition FALLBACK : string := "/tmp/dhcp.leases".

Record lan_device := LanDevice { d_mac : mac_address; d_name : option string; d_addresses : list ip_addr }.

Inductive discovery := Complete | Partial | Unavailable.

Record lan_device_inventory := LanDeviceInventory { i_devices : list lan_device; i_discovery : discovery }.

#[export] Instance lan_device_eq_dec : EqDecision lan_device.
Proof. solve_decision. Defined.
#[export] Instance discovery_eq_dec : EqDecision discovery.
Proof. solve_decision. Defined.

(** ** Orders *)

(** The derived order of [IpAddr]: IPv4 before IPv6, and those by their segments. *)
Definition ip_leb (a b : ip_addr) : bool :=
  match a, b with
  | V4 x, V4 y => x <=? y
  | V4 _, V6 _ => true
  | V6 _, V4 _ => false
  | V6 x, V6 y => mac_leb x y
  end.

Definition ip_le (a b : ip_addr) : Prop := ip_leb a b = true.

#[export] Instance ip_le_dec a b : Decision (ip_le a b).
Proof. unfold ip_le. apply _. Defined.

(** ** Merging *)

Definition str_ltb (a b : string) : bool := match String.compare a b with Lt => true | _ => false end.

Definition empty_device (mac : mac_address) : lan_device := LanDevice mac None [].

Definition better_name (old new : option string) : option string :=
  match new with
  | Some name => match old with Some o => if str_ltb name o then Some name else old | None => Some name end
  | None => old
  end.

(** One row: the device's name and addresses with the row's. *)
Definition merge_row (devices : gmap mac_address lan_device) (row : lan_device) : gmap mac_address lan_device :=
  let device := default (empty_device (d_mac row)) (devices !! d_mac row) in
  <[d_mac row := LanDevice (d_mac device) (better_name (d_name device) (d_name row))
                   (sort_dedup ip_le (d_addresses device ++ d_addresses row))]> devices.

Definition merge (devices : gmap mac_address lan_device) (rows : list lan_device) : gmap mac_address lan_device :=
  foldl merge_row devices rows.

(** [into_values] of a [BTreeMap] *)
Definition key_le (a b : mac_address * lan_device) : Prop := mac_le a.1 b.1.

#[export] Instance key_le_dec a b : Decision (key_le a b).
Proof. unfold key_le. apply _. Defined.

Definition into_values (devices : gmap mac_address lan_device) : list lan_device := (merge_sort key_le (map_to_list devices)).*2.

Definition finish (devices : gmap mac_address lan_device) (observed failed : bool) : lan_device_inventory :=
  LanDeviceInventory (into_values devices) (if negb observed then Unavailable else if failed then Partial else Complete).

(** ** Reading the sources *)

Definition line_count (text : string) : Z := Z.of_nat (length (lines text)).

Definition section_byte (b : ascii) : bool := is_ascii_alphanumeric b || existsb (eqb_ascii b) (chars "._@[]-").

(** [line.split_once('=')] of every line that has one. *)
Definition assignments (text : string) : list (string * string) := omap (split_once "="%char) (lines text).

Definition section_option (text section : string) : result (option string) :=
  _ ← ensure (starts_with "dhcp." section && forallb section_byte (chars section)) "invalid UCI section";
  let opt := section +:+ ".leasefile" in
  Ok (if existsb (fun '(key, _) => bool_decide (key = opt)) (assignments text) then Some opt else None).

Definition lease_options (text : string) : result (list (option string)) :=
  _ ← ensure ((slen text <=? MAX_BYTES) && (line_count text <=? MAX_ROWS)) "UCI output limit";
  let sections := (filter (fun a : string * string => a.2 = "dnsmasq" \/ a.2 = "'dnsmasq'")%string (assignments text)).*1 in
  _ ← ensure (Z.of_nat (length sections) <=? MAX_FILES) "too many dnsmasq instances";
  options ← mapM (section_option text) sections;
  Ok (match options with [] => [None] | _ => options end).

(** The characters of a UTF-8 text: a first byte with the continuation bytes after it. *)
Fixpoint utf8_chars (l : list ascii) : list (list ascii) :=
  match l with
  | [] => []
  | a :: l =>
      match utf8_chars l with
      | (b :: c) :: cs => if is_continuation b then (a :: b :: c) :: cs else [a] :: (b :: c) :: cs
      | cs => [a] :: cs
      end
  end.

(** A control character, or one that turns the direction of the text. *)
Definition hidden_char (c : list ascii) : bool :=
  match code <$> c with
  | [a] => (a <? 32) || (a =? 127)
  | [a; b] => (a =? 194) && (128 <=? b) && (b <=? 159)
  | [a; b; d] => (a =? 226) && (((b =? 128) && (((142 <=? d) && (d <=? 143)) || ((170 <=? d) && (d <=? 174))))
                                || ((b =? 129) && (166 <=? d) && (d <=? 169)))
  | _ => false
  end.

(** The characters up to [MAX_NAME] bytes. *)
Fixpoint take_name (bytes : Z) (cs : list (list ascii)) : list (list ascii) :=
  match cs with
  | [] => []
  | c :: cs =>
      let bytes := bytes + Z.of_nat (length c) in
      if bytes <=? MAX_NAME then c :: take_name bytes cs else []
  end.

Definition hostname (value : string) : option string :=
  let name := str (concat (take_name 0 (filter (fun c => hidden_char c = false) (utf8_chars (chars value))))) in
  if bool_decide (name = ""%string) || bool_decide (name = "*"%string) then None else Some name.

Definition ascii_whitespace (a : ascii) : bool := existsb (Z.eqb (code a)) [32; 9; 10; 12; 13].

Fixpoint ascii_words (cur : list ascii) (l : list ascii) : list (list ascii) :=
  match l with
  | [] => match cur with [] => [] | _ => [rev cur] end
  | a :: l =>
      if ascii_whitespace a then match cur with [] => ascii_words [] l | _ => rev cur :: ascii_words [] l end
      else ascii_words (a :: cur) l
  end.

Definition split_ascii_whitespace (s : string) : list string := str <$> ascii_words [] (chars s).

Section Devices.
Context {net : Type} `{Ipnet net}.
Variable lan : lan_context net.
(* what a program prints, or that it failed or was late; the JSON of a text *)
Variable command : string -> list string -> result string.

(** serde_json's [Value], as far as the rows of [ip -j neigh] have it. *)
Inductive json :=
| JString (s : string)
| JArray (items : list json)
| JObject (fields : list (string * json))
| JOther.

Variable parse_rows : string -> option (list json).

Definition unspecified (ip : ip_addr) : bool :=
  match ip with V4 a => a =? 0 | V6 gs => forallb (Z.eqb 0) gs end.

Definition loopback (ip : ip_addr) : bool :=
  match ip with V4 a => a / 16777216 =? 127 | V6 gs => bool_decide (gs = [0; 0; 0; 0; 0; 0; 0; 1]) end.

Definition multicast (ip : ip_addr) : bool :=
  match ip with V4 a => (224 <=? a / 16777216) && (a / 16777216 <=? 239) | V6 gs => default 0 (gs !! 0%nat) / 256 =? 255 end.

Definition in_lan (ip : ip_addr) : bool :=
  if unspecified ip || loopback ip || multicast ip then false
  else match ip with
       | V4 a => contains_ip (lan_subnet lan) a && negb (a =? network (lan_subnet lan))
                 && negb (a =? broadcast (lan_subnet lan)) && negb (a =? lan_address lan)
       | V6 gs => negb (bool_decide (is_Some (to_ipv4_mapped gs)))
       end.

Definition lease (now : Z) (line : string) : option lan_device :=
  match split_ascii_whitespace line with
  | [expires; mac; ip; name; _] =>
      expires ← parse_u64 expires;
      mac ← to_option (mac_parse mac);
      ip ← parse_ip ip;
      if (negb (expires =? 0) && (expires <=? now)) || is_ipv6 ip || negb (in_lan ip) then None
      else Some (LanDevice mac (hostname name) [ip])
  | _ => None
  end.

Definition leases (now : Z) (text : string) : result (list lan_device) :=
  _ ← ensure ((slen text <=? MAX_BYTES) && (line_count text <=? MAX_ROWS)) "lease input limit";
  Ok (omap (lease now) (lines text)).

Definition get (field : string) (entry : json) : option json :=
  match entry with
  | JObject fields => snd <$> find_first (fun f => bool_decide (f.1 = field)) fields
  | _ => None
  end.

Definition as_str (v : json) : option string := match v with JString s => Some s | _ => None end.

Definition lost_state (state : json) : bool :=
  match as_str state with
  | None => true
  | Some s => let s := to_ascii_lowercase s in bool_decide (s = "failed"%string) || bool_decide (s = "incomplete"%string)
  end.

Definition neighbor (entry : json) : option lan_device :=
  if match get "dev" entry with
     | Some dev => negb (bool_decide (as_str dev = Some (Model.lan_device lan)))
     | None => false
     end then None
  else
    states ← get "state" entry;
    states ← match states with JArray items => Some items | _ => None end;
    if match states with [] => true | _ => existsb lost_state states end then None
    else
      dst ← get "dst" entry;
      dst ← as_str dst;
      ip ← parse_ip dst;
      mac ← get "lladdr" entry;
      mac ← as_str mac;
      mac ← to_option (mac_parse mac);
      if in_lan ip then Some (LanDevice mac None [ip]) else None.

Definition neighbors (text : string) : result (list lan_device) :=
  _ ← ensure (slen text <=? MAX_BYTES) "neighbor input limit";
  entries ← ok_or (parse_rows text) "invalid JSON";
  _ ← ensure (Z.of_nat (length entries) <=? MAX_ROWS) "neighbor row limit";
  Ok (omap neighbor entries).

(** ** The inventory *)

Definition uci_options : result (list (option string)) := text ← command "uci" ["-q"; "show"; "dhcp"]%string; lease_options text.

Definition lease_path (opt : option string) : option string :=
  match match opt with Some o => command "uci" ["-q"; "get"; o]%string | None => Ok FALLBACK end with
  | Ok path =>
      let path := trim path in
      if starts_with "/" path && (slen path <=? 4096) && negb (has_control path) then Some path else None
  | Err _ => None
  end.

Definition read_leases (now : option Z) (path : string) : result (list lan_device) :=
  text ← command "cat" ["--"; path]%string;
  now ← ok_or now "clock before epoch";
  leases now text.

Definition read_neighbors : result (list lan_device) :=
  text ← command "ip" ["-j"; "neigh"; "show"; "dev"; Model.lan_device lan]%string;
  neighbors text.

(** The devices so far, whether a source was read, whether one was not. *)
Definition progress : Type := gmap mac_address lan_device * bool * bool.

Definition take_rows (p : progress) (rows : result (list lan_device)) : progress :=
  let '(devices, observed, failed) := p in
  match rows with
  | Ok rows => (merge devices rows, true, failed)
  | Err _ => (devices, observed, true)
  end.

Definition str_le (a b : string) : Prop := String.leb a b = true.

#[export] Instance str_le_dec a b : Decision (str_le a b).
Proof. unfold str_le. apply _. Defined.

(** The lease files to read, and whether one could not be told. *)
Definition lease_paths : list string * bool :=
  let '(options, failed) := match uci_options with Ok options => (options, false) | Err _ => ([None], true) end in
  let found := lease_path <$> options in
  (sort_dedup str_le (omap id found), failed || existsb (fun p => negb (bool_decide (is_Some p))) found).

Definition sources (now : option Z) : list (result (list lan_device)) := (read_leases now <$> lease_paths.1) ++ [read_neighbors].

(** [list]: the devices the panel routes around, and those that are seen. *)
Definition inventory (exclusions : list mac_address) (now : option Z) : lan_device_inventory :=
  let devices := list_to_map ((fun mac => (mac, empty_device mac)) <$> exclusions) in
  let '(devices, observed, failed) := foldl take_rows (devices, false, lease_paths.2) (sources now) in
  finish devices observed failed.
End Devices.

(** ** The tests of the module *)

Definition sample_lan : lan_context PrefixNet.t :=
  LanContext "br-lan" (ipv4 192 168 1 1) (PrefixNet.get (PrefixNet.parse "192.168.1.0/24")).

Definition mac (n : Z) : mac_address := [2; 0; 0; 0; 0; n].

Example leases_filtered :
  leases sample_lan 100 (str (join_bytes [LF] (chars <$> [
    "0 02:00:00:00:00:01 192.168.1.2 * *"; "101 02:00:00:00:00:02 192.168.1.3 laptop *"; "100 02:00:00:00:00:03 192.168.1.4 expired *";
    "0 01:00:00:00:00:01 192.168.1.6 multicast *"; "0 02:00:00:00:00:05 203.0.113.1 wan *"; "0 02:00:00:00:00:06 fe80::1 v6 *"; "broken"]))) =
  Ok [LanDevice (mac 1) None [V4 (ipv4 192 168 1 2)]; LanDevice (mac 2) (Some "laptop"%string) [V4 (ipv4 192 168 1 3)]].
Proof. by vm_compute. Qed.

Example neighbors_filtered :
  neighbors sample_lan (fun _ => Some [
      JObject [("dst", JString "fe80::2"); ("lladdr", JString "02:00:00:00:00:01"); ("state", JArray [JString "REACHABLE"]); ("dev", JString "br-lan")];
      JObject [("dst", JString "fe80::3"); ("lladdr", JString "02:00:00:00:00:02"); ("state", JArray [JString "STALE"]); ("dev", JString "wan")];
      JObject [("dst", JString "192.168.1.3"); ("lladdr", JString "02:00:00:00:00:02"); ("state", JArray [JString "FAILED"])];
      JObject []; JOther]%string) "" = Ok [LanDevice (mac 1) None [V6 [65152; 0; 0; 0; 0; 0; 0; 2]]].
Proof. by vm_compute. Qed.

Example sections_selected :
  lease_options (str (join_bytes [LF] (chars <$> ["dhcp.main=dnsmasq"; "dhcp.main.leasefile='/tmp/custom leases'"; "dhcp.@dnsmasq[1]=dnsmasq";
    "dhcp.@dnsmasq[1].leasefile='/tmp/other'"; "dhcp.lan=dhcp"; "dhcp.lan.leasefile='/tmp/wrong'"; "dhcp.default=dnsmasq"]%string))) =
  Ok [Some "dhcp.main.leasefile"; Some "dhcp.@dnsmasq[1].leasefile"; None]%string.
Proof. by vm_compute. Qed.

Example hostname_cleaned :
  hostname (str (of_code <$> [97; 0; 98; 226; 128; 174; 99])) = Some "abc"%string
  /\ (slen <$> hostname (str (concat (replicate 100 (of_code <$> [195; 169]))))) = Some 62.
Proof. by vm_compute. Qed.

(** ** Orders *)

#[export] Instance ip_le_total : Total ip_le.
Proof.
  intros [x | x] [y | y]; unfold ip_le; cbn; [| by left | by right | apply mac_le_total].
  destruct (Z.leb_spec x y); [by left | right; apply Z.leb_le; lia].
Qed.

#[export] Instance ip_le_trans : Transitive ip_le.
Proof.
  intros [x | x] [y | y] [z | z]; unfold ip_le; cbn; try done; [lia | apply mac_le_trans].
Qed.

#[export] Instance ip_le_antisymm : AntiSymm (=) ip_le.
Proof.
  intros [x | x] [y | y]; unfold ip_le; cbn; try done; intros Ha Hb; f_equal; [lia | by apply (anti_symm mac_le)].
Qed.

Lemma str_lt_trans a b c : str_ltb a b = true -> str_ltb b c = true -> str_ltb a c = true.
Proof.
  unfold str_ltb. destruct (String.compare a b) eqn:E1, (String.compare b c) eqn:E2; try done. intros _ _.
  pose proof (@StrictOrder_Transitive _ _ OrdersEx.String_as_OT.lt_strorder a b c E1 E2) as E. unfold OrdersEx.String_as_OT.lt in E.
  change (OrdersEx.String_as_OT.compare a c) with (String.compare a c) in E. by rewrite E.
Qed.

Lemma str_not_lt a b : str_ltb a b = false -> a = b \/ str_ltb b a = true.
Proof.
  unfold str_ltb. rewrite (String.compare_antisym b a). destruct (String.compare a b) eqn:E; cbn; try done; [| by right].
  left. by apply String.compare_eq_iff.
Qed.

Lemma str_lt_irrefl a : str_ltb a a = false.
Proof. unfold str_ltb. pose proof (String.compare_antisym a a) as Ha. by destruct (String.compare a a). Qed.

#[export] Instance str_le_total : Total str_le.
Proof. intros a b. apply String.leb_total. Qed.

Lemma str_le_not_lt a b : str_le a b <-> str_ltb b a = false.
Proof. unfold str_le, String.leb, str_ltb. rewrite (String.compare_antisym b a). by destruct (String.compare a b). Qed.

#[export] Instance str_le_trans : Transitive str_le.
Proof.
  intros a b c. rewrite !str_le_not_lt. intros Hab Hbc. destruct (str_ltb c a) eqn:E; [| done].
  destruct (str_not_lt _ _ Hab) as [-> | Hab']; [congruence |]. pose proof (str_lt_trans _ _ _ E Hab'). congruence.
Qed.

#[export] Instance str_le_antisymm : AntiSymm (=) str_le.
Proof. intros a b Ha Hb. by apply String.leb_antisym. Qed.

(** The least name stays, in whichever order names come. *)
Lemma better_name_comm o a b : better_name (better_name o a) b = better_name (better_name o b) a.
Proof.
  assert (forall x y : string, (if str_ltb y x then Some y else Some x) = (if str_ltb x y then Some x else Some y)) as Hsym.
  { intros x y. destruct (str_ltb y x) eqn:E1, (str_ltb x y) eqn:E2; try done.
    - pose proof (str_lt_trans _ _ _ E1 E2). by rewrite str_lt_irrefl in *.
    - apply str_not_lt in E1 as [-> | ?]; congruence. }
  destruct o as [o |], a as [a |], b as [b |]; cbn [better_name]; try done.
  destruct (str_ltb a o) eqn:Ea, (str_ltb b o) eqn:Eb; cbn; rewrite ?Ea, ?Eb; try done.
  - destruct (str_ltb b a) eqn:E; [| done]. pose proof (str_lt_trans _ _ _ E Ea). congruence.
  - destruct (str_ltb a b) eqn:E; [| done]. pose proof (str_lt_trans _ _ _ E Eb). congruence.
Qed.

(** ** Merging *)

(** One row on one device. *)
Definition merge_device (row device : lan_device) : lan_device :=
  LanDevice (d_mac device) (better_name (d_name device) (d_name row)) (sort_dedup ip_le (d_addresses device ++ d_addresses row)).

Lemma merge_row_lookup devices row k :
  merge_row devices row !! k =
    if bool_decide (k = d_mac row) then Some (merge_device row (default (empty_device k) (devices !! k))) else devices !! k.
Proof.
  unfold merge_row. case_bool_decide as Hk; [subst; by rewrite lookup_insert_eq | by rewrite lookup_insert_ne].
Qed.

Lemma merge_device_comm a b d : merge_device a (merge_device b d) = merge_device b (merge_device a d).
Proof.
  unfold merge_device. cbn. f_equal; [apply better_name_comm |]. apply (sort_dedup_ext ip_le). intros x.
  rewrite !elem_of_app, !(sort_dedup_elem ip_le), !elem_of_app. tauto.
Qed.

Lemma merge_row_comm devices a b : merge_row (merge_row devices a) b = merge_row (merge_row devices b) a.
Proof.
  apply map_eq. intros k. rewrite !merge_row_lookup.
  destruct (decide (k = d_mac a)) as [Ha | Ha], (decide (k = d_mac b)) as [Hb | Hb];
    rewrite ?(bool_decide_true (k = d_mac a)), ?(bool_decide_true (k = d_mac b)), ?(bool_decide_false (k = d_mac a)),
      ?(bool_decide_false (k = d_mac b)) by done; try done.
  cbn. by rewrite merge_device_comm.
Qed.

(** What is listed does not depend on the order in which the sources have it: merging the rows of the
    lease files and of the neighbours in any order gives the same devices, with the same names and
    addresses. *)
Theorem merge_any_order devices rows rows' : rows ≡ₚ rows' -> merge devices rows = merge devices rows'.
Proof.
  intros Hp. unfold merge. revert devices. induction Hp as [| r l l' Hp IH | a b l | l l' l'' H1 IH1 H2 IH2]; intros devices; cbn.
  - done.
  - apply IH.
  - by rewrite merge_row_comm.
  - by rewrite IH1.
Qed.

(** ** What the inventory says *)

Lemma merge_lookup rows : forall devices k,
  merge devices rows !! k =
    if bool_decide (k ∈ d_mac <$> rows)
    then Some (foldl (fun d r => if bool_decide (k = d_mac r) then merge_device r d else d) (default (empty_device k) (devices !! k)) rows)
    else devices !! k.
Proof.
  unfold merge. induction rows as [| r rows IH]; intros devices k; cbn; [done |]. rewrite IH, merge_row_lookup.
  destruct (decide (k = d_mac r)) as [-> | Hne].
  - rewrite !(bool_decide_true (d_mac r = d_mac r)) by done. rewrite (bool_decide_true (d_mac r ∈ d_mac r :: _)) by (apply elem_of_cons; by left).
    cbn. case_bool_decide as Hin; [done |]. f_equal.
    clear IH. revert Hin. generalize (merge_device r (default (empty_device (d_mac r)) (devices !! d_mac r))) as d.
    induction rows as [| q rows IH]; intros d Hin; cbn; [done |]. cbn in Hin. apply not_elem_of_cons in Hin as [Hq Hin].
    rewrite bool_decide_false by done. by apply IH.
  - rewrite !(bool_decide_false (k = d_mac r)) by done. erewrite bool_decide_ext; [done |]. rewrite elem_of_cons. naive_solver.
Qed.

(** The addresses of a device and of the rows for it. *)
Lemma merged_addresses k rows : forall d x,
  x ∈ d_addresses (foldl (fun d r => if bool_decide (k = d_mac r) then merge_device r d else d) d rows) <->
  x ∈ d_addresses d \/ exists r, r ∈ rows /\ d_mac r = k /\ x ∈ d_addresses r.
Proof.
  induction rows as [| r rows IH]; intros d x; cbn; [set_solver |]. rewrite IH. case_bool_decide as Hk.
  - cbn. rewrite (sort_dedup_elem ip_le), elem_of_app. set_solver.
  - set_solver.
Qed.

(** The better of two names is one of them, and the lesser. *)
Lemma better_name_from o a n : better_name o a = Some n -> o = Some n \/ a = Some n.
Proof. destruct o as [o |], a as [a |]; cbn; [destruct (str_ltb a o) |..]; naive_solver. Qed.

Lemma better_name_least o a n : o = Some n \/ a = Some n -> exists m, better_name o a = Some m /\ str_le m n.
Proof.
  assert (forall x, str_le x x) as Hrefl by (intros x; by destruct (str_le_total x x)).
  destruct o as [o |], a as [a |]; cbn; [destruct (str_ltb a o) eqn:E |..]; intros [[= <-] | [= <-]]; eauto.
  - exists a. split; [done |]. apply str_le_not_lt. destruct (str_ltb o a) eqn:E'; [| done].
    pose proof (str_lt_trans _ _ _ E E'). by rewrite str_lt_irrefl in *.
  - exists o. split; [done |]. by apply str_le_not_lt.
Qed.

Definition names_from (k : mac_address) (rows : list lan_device) (d : lan_device) (n : string) : Prop :=
  d_name d = Some n \/ exists r, r ∈ rows /\ d_mac r = k /\ d_name r = Some n.

(** The name of a device is the least of those that it and the rows for it have. *)
Lemma merged_name k rows : forall d,
  let d' := foldl (fun d r => if bool_decide (k = d_mac r) then merge_device r d else d) d rows in
  (forall n, d_name d' = Some n -> names_from k rows d n)
  /\ (forall n, names_from k rows d n -> exists m, d_name d' = Some m /\ str_le m n).
Proof.
  induction rows as [| r rows IH]; intros d; cbn.
  - split; [by left |]. intros n [Hn | (r & []%not_elem_of_nil & _)]. exists n. split; [done |]. by destruct (str_le_total n n).
  - destruct (IH (if bool_decide (k = d_mac r) then merge_device r d else d)) as [Hfrom Hleast]. split.
    + intros n [Hn | (q & Hq & Hk & Hn)]%Hfrom; [| right; exists q; split; [by right | done]].
      case_bool_decide as Hk; [| by left]. apply better_name_from in Hn as [Hn | Hn]; [by left |]. right. exists r. split; [by left | done].
    + intros n Hn. assert (exists m, names_from k rows (if bool_decide (k = d_mac r) then merge_device r d else d) m /\ str_le m n) as (m & Hm & Hle).
      { assert (str_le n n) as Hrefl by by destruct (str_le_total n n). destruct Hn as [Hn | (q & [-> | Hq]%elem_of_cons & Hk & Hn)].
        - case_bool_decide; [| by exists n; split; [left |]]. destruct (better_name_least (d_name d) (d_name r) n) as (m & Hm & Hle); [by left |].
          exists m. split; [by left | done].
        - rewrite bool_decide_true by done. destruct (better_name_least (d_name d) (d_name r) n) as (m & Hm & Hle); [by right |].
          exists m. split; [by left | done].
        - exists n. split; [| done]. right. eauto. }
      destruct (Hleast m Hm) as (m' & Hm' & Hle'). exists m'. split; [done |]. by etransitivity.
Qed.

Definition device_ok (d : lan_device) : Prop := StronglySorted ip_le (d_addresses d) /\ NoDup (d_addresses d).

Lemma merged_ok k rows : forall d, device_ok d -> d_mac d = k ->
  let d' := foldl (fun d r => if bool_decide (k = d_mac r) then merge_device r d else d) d rows in device_ok d' /\ d_mac d' = k.
Proof.
  induction rows as [| r rows IH]; intros d Hd Hk; cbn; [done |]. case_bool_decide; apply IH; try done.
  apply (sort_dedup_sorted ip_le).
Qed.

Lemma take_rows_all sources : forall devices observed failed,
  foldl take_rows (devices, observed, failed) sources =
    (merge devices (concat (omap to_option sources)), observed || existsb is_ok sources, failed || negb (forallb is_ok sources)).
Proof.
  induction sources as [| [rows | e] sources IH]; intros devices observed failed; cbn.
  - by rewrite !orb_false_r.
  - rewrite IH. cbn. rewrite orb_true_r. unfold merge. by rewrite foldl_app.
  - rewrite IH. cbn. by rewrite orb_true_r.
Qed.

Lemma into_values_perm (m : gmap mac_address lan_device) : into_values m ≡ₚ (map_to_list m).*2.
Proof. unfold into_values. by rewrite merge_sort_Permutation. Qed.

Lemma into_values_macs (m : gmap mac_address lan_device) : (forall k d, m !! k = Some d -> d_mac d = k) ->
  StronglySorted mac_le (d_mac <$> into_values m) /\ NoDup (d_mac <$> into_values m).
Proof.
  intros Hm. unfold into_values. set (l := merge_sort key_le (map_to_list m)).
  assert (l ≡ₚ map_to_list m) as Hp by apply merge_sort_Permutation.
  assert (d_mac <$> l.*2 = l.*1) as ->.
  { rewrite <- list_fmap_compose. apply list_fmap_ext. intros i [k d] Hi%list_elem_of_lookup_2. rewrite Hp in Hi.
    apply elem_of_map_to_list in Hi. by apply Hm. }
  split.
  - assert (StronglySorted key_le l) as Hs.
    { apply Sorted_StronglySorted; [intros a b c; unfold key_le; apply mac_le_trans |].
      apply Sorted_merge_sort. intros a b. unfold key_le. apply mac_le_total. }
    clear - Hs. clearbody l. induction Hs as [| a l' Hs IH Hall]; cbn; constructor; [apply IH | by apply Forall_fmap].
  - rewrite Hp. apply NoDup_fst_map_to_list.
Qed.

Section Inventory.
Context {net : Type} `{IpnetLaws net}.
Variable lan : lan_context net.
Variable command : string -> list string -> result string.
Variable parse_rows : string -> option (list json).

(** *** What the sources state *)

(** An address that a device of the LAN can have. *)
Definition lan_host (ip : ip_addr) : Prop :=
  match ip with
  | V4 a => contains_ip (lan_subnet lan) a = true /\ a <> network (lan_subnet lan) /\ a <> broadcast (lan_subnet lan)
            /\ a <> lan_address lan /\ a <> 0 /\ a / 2 ^ 24 <> 127 /\ ~ 224 <= a / 2 ^ 24 <= 239
  | V6 gs => ~ Forall (eq 0) gs /\ gs <> [0; 0; 0; 0; 0; 0; 0; 1] /\ default 0 (gs !! 0%nat) / 256 <> 255 /\ to_ipv4_mapped gs = None
  end.

(** A line of a lease file: it never expires or has not yet, and has five words. *)
Inductive leased (now : Z) (line : string) : mac_address -> ip_addr -> option string -> Prop :=
| leased_until expires mac_text ip_text name client t mac a :
    split_ascii_whitespace line = [expires; mac_text; ip_text; name; client] ->
    parse_u64 expires = Some t -> t = 0 \/ now < t ->
    mac_parse mac_text = Ok mac -> parse_ip ip_text = Some (V4 a) -> lan_host (V4 a) ->
    leased now line mac (V4 a) (hostname name).

(** A state in which the kernel reached the neighbour. *)
Definition reached (state : json) : Prop :=
  exists s, state = JString s /\ to_ascii_lowercase s <> "failed"%string /\ to_ascii_lowercase s <> "incomplete"%string.

(** A neighbour on the LAN that was reached. *)
Inductive seen (entry : json) : mac_address -> ip_addr -> Prop :=
| seen_at states ip_text mac_text mac ip :
    (forall dev, get "dev" entry = Some dev -> dev = JString (Model.lan_device lan)) ->
    get "state" entry = Some (JArray states) -> states <> [] -> Forall reached states ->
    get "dst" entry = Some (JString ip_text) -> parse_ip ip_text = Some ip ->
    get "lladdr" entry = Some (JString mac_text) -> mac_parse mac_text = Ok mac -> lan_host ip ->
    seen entry mac ip.

Definition small_text (text : string) : Prop := slen text <= MAX_BYTES /\ line_count text <= MAX_ROWS.

Definition of_dnsmasq (kind : string) : Prop := kind = "dnsmasq"%string \/ kind = "'dnsmasq'"%string.

(** The lease files of the dnsmasq instances that [uci] shows: of each the option that names it,
    if it has one. *)
Inductive instance_option (text : string) : option string -> Prop :=
| instance_named section kind file :
    (section, kind) ∈ assignments text -> of_dnsmasq kind -> (section +:+ ".leasefile", file) ∈ assignments text ->
    instance_option text (Some (section +:+ ".leasefile"))
| instance_unnamed section kind :
    (section, kind) ∈ assignments text -> of_dnsmasq kind -> (forall file, (section +:+ ".leasefile", file) ∉ assignments text) ->
    instance_option text None
| instance_none : (forall section kind, (section, kind) ∈ assignments text -> ~ of_dnsmasq kind) -> instance_option text None.

Definition valid_section (section : string) : Prop := starts_with "dhcp." section = true /\ Forall (fun b => section_byte b = true) (chars section).

(** What [uci] shows, when it does and it can be read. *)
Definition uci_shows (text : string) : Prop :=
  command "uci" ["-q"; "show"; "dhcp"]%string = Ok text /\ small_text text
  /\ Z.of_nat (length (filter (fun a : string * string => of_dnsmasq a.2) (assignments text))) <= MAX_FILES
  /\ forall section kind, (section, kind) ∈ assignments text -> of_dnsmasq kind -> valid_section section.

Definition names_path (opt : option string) (path : string) : Prop :=
  exists text, match opt with Some o => command "uci" ["-q"; "get"; o]%string = Ok text | None => text = FALLBACK end
    /\ path = trim text /\ starts_with "/" path = true /\ slen path <= 4096 /\ has_control path = false.

(** Where leases are read; the standard file when [uci] shows nothing. *)
Definition lease_file (path : string) : Prop :=
  (exists text opt, uci_shows text /\ instance_option text opt /\ names_path opt path)
  \/ ((forall text, ~ uci_shows text) /\ names_path None path).

Definition lease_text (now : option Z) (path text : string) (t : Z) : Prop :=
  command "cat" ["--"; path]%string = Ok text /\ now = Some t /\ small_text text.

Definition neighbor_text (entries : list json) : Prop :=
  exists text, command "ip" ["-j"; "neigh"; "show"; "dev"; Model.lan_device lan]%string = Ok text
    /\ slen text <= MAX_BYTES /\ parse_rows text = Some entries /\ Z.of_nat (length entries) <= MAX_ROWS.

(** A source that could be read gives the device this address, and this name if it has one. *)
Inductive stated (now : option Z) : mac_address -> ip_addr -> option string -> Prop :=
| stated_lease path text t line mac ip name :
    lease_file path -> lease_text now path text t -> line ∈ lines text -> leased t line mac ip name -> stated now mac ip name
| stated_neighbor entries entry mac ip :
    neighbor_text entries -> entry ∈ entries -> seen entry mac ip -> stated now mac ip None.

Definition some_read (now : option Z) : Prop :=
  (exists path text t, lease_file path /\ lease_text now path text t) \/ exists entries, neighbor_text entries.

Definition all_read (now : option Z) : Prop :=
  (exists text, uci_shows text /\ forall opt, instance_option text opt ->
     exists path lines t, names_path opt path /\ lease_text now path lines t)
  /\ exists entries, neighbor_text entries.

(** *** The readers *)

Lemma all_zero gs : forallb (Z.eqb 0) gs = true <-> Forall (eq 0) gs.
Proof. induction gs as [| g gs IH]; [by split |]; cbn [forallb]. by rewrite andb_true_iff, Forall_cons, Z.eqb_eq, IH. Qed.

Lemma in_lan_host ip : in_lan lan ip = true <-> lan_host ip.
Proof.
  unfold in_lan, lan_host, unspecified, loopback, multicast. change (2 ^ 24) with 16777216. destruct ip as [a | gs].
  - destruct (Z.eqb_spec a 0), (Z.eqb_spec (a / 16777216) 127); cbn [orb]; [split; [done | lia].. |].
    destruct (Z.leb_spec 224 (a / 16777216)), (Z.leb_spec (a / 16777216) 239); cbn [andb orb];
      [split; [done | lia] | ..]; rewrite !andb_true_iff, !negb_true_iff, !Z.eqb_neq; intuition lia.
  - rewrite <- all_zero, <- Z.eqb_neq. destruct (forallb _ gs); cbn [orb]; [split; [done | by intros [[] _]] |].
    case_bool_decide as Hb; cbn [orb]; [split; [done | by intros (_ & [] & _)] |].
    destruct (_ =? 255); cbn [orb]; [split; [done | by intros (_ & _ & [=] & _)] |].
    rewrite negb_true_iff, bool_decide_eq_false, <- eq_None_not_Some. split; [by intros -> | by intros (_ & _ & _ & ->)].
Qed.

Lemma lease_leased now line d : lease lan now line = Some d <-> exists ip, d_addresses d = [ip] /\ leased now line (d_mac d) ip (d_name d).
Proof.
  unfold lease. split.
  - destruct (split_ascii_whitespace line) as [| e [| m [| i [| n [| c []]]]]] eqn:El; try done.
    intros (t & Ht & Hd)%bind_Some. apply bind_Some in Hd as (k & Hk & Hd). apply bind_Some in Hd as (ip & Hip & Hd).
    destruct (_ || negb (in_lan lan ip)) eqn:E in Hd; [done |]. injection Hd as <-. cbn. exists ip. split; [done |].
    apply orb_false_iff in E as [[Ee Ev]%orb_false_iff Hl%negb_false_iff%in_lan_host]. destruct ip as [a |]; [| done].
    econstructor; [done | done | | by destruct (mac_parse m); simplify_eq/= | done | done].
    apply andb_false_iff in Ee as [?%negb_false_iff%Z.eqb_eq | ?%Z.leb_gt]; [by left | by right].
  - intros (ip & Hd & Hl). destruct d as [mac name addresses]; cbn in *. subst addresses.
    destruct Hl as [e m i n c t mac a -> He Ht Hm Hi Ha%in_lan_host]. rewrite He, Hm, Hi. cbn. rewrite Ha.
    replace (negb (t =? 0) && (t <=? now)) with false; [done |]. symmetry. apply andb_false_iff.
    rewrite negb_false_iff, Z.eqb_eq, Z.leb_gt. lia.
Qed.

Lemma reached_not_lost states : existsb lost_state states = false <-> Forall reached states.
Proof.
  induction states as [| state states IH]; [by split |]. cbn [existsb]. rewrite orb_false_iff, IH, Forall_cons.
  apply and_iff_compat_r. unfold lost_state, reached, as_str. destruct state as [s | | |]; try (split; [done | by intros (? & [=] & _)]).
  rewrite orb_false_iff, !bool_decide_eq_false. split; [intros []; eauto | by intros (? & [= <-] & ?)].
Qed.

Lemma neighbor_seen entry d : neighbor lan entry = Some d <-> exists ip, d_addresses d = [ip] /\ d_name d = None /\ seen entry (d_mac d) ip.
Proof.
  unfold neighbor. split.
  - destruct (match get "dev" entry with Some _ => _ | None => _ end) eqn:Edev; [done |].
    intros (state & Est & Hd)%bind_Some. apply bind_Some in Hd as (states & Ess & Hd). destruct state as [| items | |]; simplify_eq/=.
    destruct (match _ with [] => true | _ => _ end) eqn:El in Hd; [done |].
    apply bind_Some in Hd as (dst & Edst & Hd). apply bind_Some in Hd as (t & Et & Hd). apply bind_Some in Hd as (ip & Eip & Hd).
    apply bind_Some in Hd as (lladdr & Ell & Hd). apply bind_Some in Hd as (m & Em & Hd). apply bind_Some in Hd as (mac & Emac & Hd).
    destruct (in_lan lan ip) eqn:Ein in Hd; simplify_eq/=. exists ip. split_and!; [done.. |].
    destruct dst, lladdr; simplify_eq/=. econstructor; [| done | | | done | done | done | by destruct (mac_parse _); simplify_eq/= | by apply in_lan_host].
    + intros dev Hdev. rewrite Hdev in Edev. apply negb_false_iff, bool_decide_eq_true in Edev. by destruct dev; simplify_eq/=.
    + by destruct states.
    + apply reached_not_lost. by destruct states.
  - intros (ip & Hip & Hname & Hs). destruct d as [mac name addresses]. cbn in *. subst.
    destruct Hs as [states i m mac ip Hdev Hst Hne Hall%reached_not_lost Hdst Hi Hll Hm Hl%in_lan_host].
    rewrite Hst, Hdst, Hll. cbn. rewrite Hi. cbn. rewrite Hm. cbn. rewrite Hl.
    replace (match get "dev" entry with Some _ => _ | None => _ end) with false; [by destruct states; [| rewrite Hall] |].
    destruct (get "dev" entry) as [dev |]; [| done]. rewrite (Hdev dev) by done. cbn. by rewrite bool_decide_true.
Qed.

Lemma section_option_ok text section o : section_option text section = Ok o <->
  valid_section section /\ ((exists file, (section +:+ ".leasefile", file) ∈ assignments text) /\ o = Some (section +:+ ".leasefile")
                            \/ (forall file, (section +:+ ".leasefile", file) ∉ assignments text) /\ o = None).
Proof.
  unfold section_option. set (opt := section +:+ _).
  assert (existsb (fun '(key, _) => bool_decide (key = opt)) (assignments text) = true <-> exists file, (opt, file) ∈ assignments text) as He.
  { rewrite existsb_exists. setoid_rewrite <- list_elem_of_In. split.
    - intros ([k v] & Hin & ->%bool_decide_eq_true). eauto.
    - intros [v Hin]. exists (opt, v). by rewrite bool_decide_true. }
  rewrite bind_ok. setoid_rewrite ensure_ok. setoid_rewrite andb_true_iff.
  assert (forallb section_byte (chars section) = true <-> Forall (fun b => section_byte b = true) (chars section)) as Hb
    by (rewrite forallb_forall, Forall_forall; by setoid_rewrite list_elem_of_In).
  setoid_rewrite Hb. fold (valid_section section). destruct (existsb _ _); split.
  - intros ([] & Hv & [= <-]). split; [done | left]. by rewrite <- He.
  - intros [Hv [[_ ->] | [Hno _]]]; [by exists tt |]. exfalso. destruct (proj1 He eq_refl) as [file Hf]. by apply (Hno file).
  - intros ([] & Hv & [= <-]). split; [done | right]. split; [| done]. intros file Hf. by assert (false = true) by (apply He; eauto).
  - intros [Hv [[Hf _] | [_ ->]]]; [| by exists tt]. by apply He in Hf.
Qed.

Definition dnsmasq_sections (text : string) : list string := (filter (fun a : string * string => of_dnsmasq a.2) (assignments text)).*1.

Lemma dnsmasq_section text section : section ∈ dnsmasq_sections text <-> exists kind, (section, kind) ∈ assignments text /\ of_dnsmasq kind.
Proof.
  unfold dnsmasq_sections. rewrite list_elem_of_fmap. setoid_rewrite list_elem_of_filter. split.
  - intros ([s k] & -> & Hk & Hin). eauto.
  - intros (k & Hin & Hk). by exists (section, k).
Qed.

Lemma lease_options_ok text options : lease_options text = Ok options <->
  small_text text /\ Z.of_nat (length (dnsmasq_sections text)) <= MAX_FILES /\ exists found,
    Forall2 (fun s o => section_option text s = Ok o) (dnsmasq_sections text) found /\ options = match found with [] => [None] | _ => found end.
Proof.
  unfold lease_options. change ((filter _ (assignments text)).*1) with (dnsmasq_sections text). split.
  - intros ([] & [Hs%Z.leb_le Hr%Z.leb_le]%ensure_ok%andb_true_iff & H1)%bind_ok. apply bind_ok in H1 as ([] & Hn%ensure_ok%Z.leb_le & H1).
    apply bind_ok in H1 as (found & Hf%result_mapM_ok & [= <-]). split; [done |]. split; [done |]. eauto.
  - intros ([Hs%Z.leb_le Hr%Z.leb_le] & Hn%Z.leb_le & found & Hf%result_mapM_ok & ->). rewrite Hs, Hr, Hn. cbn. by rewrite Hf.
Qed.

(** The options that are read are those of the instances. *)
Lemma lease_options_instances text options : lease_options text = Ok options -> forall o, o ∈ options <-> instance_option text o.
Proof.
  intros (_ & _ & found & Hf & ->)%lease_options_ok o. split.
  - intros Ho. destruct found as [| f found].
    + apply list_elem_of_singleton in Ho as ->. apply Forall2_nil_inv_r in Hf. apply instance_none. intros section kind Hin Hk.
      assert (section ∈ dnsmasq_sections text) as Hs by (apply dnsmasq_section; eauto). rewrite Hf in Hs. by apply not_elem_of_nil in Hs.
    + apply list_elem_of_lookup in Ho as [i Hi]. eapply Forall2_lookup_r in Hf as (s & Hs%list_elem_of_lookup_2 & Ho); [| done].
      apply dnsmasq_section in Hs as (kind & Hin & Hk). apply section_option_ok in Ho as [_ [[[file Hfile] ->] | [Hno ->]]]; [by econstructor | by eapply instance_unnamed].
  - intros Ho. assert (forall s kind, (s, kind) ∈ assignments text -> of_dnsmasq kind -> exists o, o ∈ found /\ section_option text s = Ok o) as Hall.
    { intros s kind Hin Hk. assert (s ∈ dnsmasq_sections text) as [i Hs]%list_elem_of_lookup by (apply dnsmasq_section; eauto).
      eapply Forall2_lookup_l in Hf as (o' & Ho' & Hok); [| done]. exists o'. split; [by eapply list_elem_of_lookup_2 | done]. }
    assert (forall o, o ∈ found -> o ∈ match found with [] => [None] | _ => found end) as Hm by (destruct found; [by intros ? ?%not_elem_of_nil | done]).
    destruct Ho as [s kind file Hin Hk Hfile | s kind Hin Hk Hno | Hno].
    + destruct (Hall _ _ Hin Hk) as (o & Ho & [_ [[_ ->] | [Hn _]]]%section_option_ok); [| by destruct (Hn file)]. by apply Hm.
    + destruct (Hall _ _ Hin Hk) as (o & Ho & [_ [[[file Hf'] _] | [_ ->]]]%section_option_ok); [by destruct (Hno file) |]. by apply Hm.
    + assert (dnsmasq_sections text = []) as Hnil.
      { apply elem_of_nil_inv. intros s (kind & Hin & Hk)%dnsmasq_section. by destruct (Hno s kind). }
      rewrite Hnil in Hf. apply Forall2_nil_inv_l in Hf as ->. by apply list_elem_of_singleton.
Qed.

Lemma uci_options_shows : match uci_options command with
  | Ok options => exists text, uci_shows text /\ forall o, o ∈ options <-> instance_option text o
  | Err _ => forall text, ~ uci_shows text
  end.
Proof.
  assert (forall text, uci_shows text -> exists options, lease_options text = Ok options) as Hok.
  { intros text (_ & Hs & Hn & Hv). destruct (result_mapM_total (section_option text) (dnsmasq_sections text)) as [found Hf].
    { intros s (kind & Hin & Hk)%dnsmasq_section. setoid_rewrite section_option_ok.
      destruct (existsb (fun a => bool_decide (a.1 = s +:+ ".leasefile")) (assignments text)) eqn:E.
      - apply existsb_exists in E as ([k file] & Hf%list_elem_of_In & Heq%bool_decide_eq_true). cbn in Heq. subst k. eauto 8.
      - exists None. split; [by eapply Hv |]. right. split; [| done]. intros file Hf%list_elem_of_In.
        apply not_true_iff_false in E. apply E, existsb_exists. exists (s +:+ ".leasefile", file). split; [done | by apply bool_decide_true]. }
    eexists. apply lease_options_ok. unfold dnsmasq_sections in *. rewrite length_fmap. split_and!; [done.. |].
    exists found. split; [by apply result_mapM_ok in Hf | done]. }
  unfold uci_options. destruct (command "uci" _) as [text | e] eqn:Ec; cbn.
  - destruct (lease_options text) as [options | e] eqn:Eo.
    + exists text. split; [| by apply lease_options_instances]. apply lease_options_ok in Eo as (Hs & Hn & found & Hf & _).
      unfold dnsmasq_sections in Hn. rewrite length_fmap in Hn. split_and!; [done.. |]. intros s kind Hin Hk.
      assert (s ∈ dnsmasq_sections text) as [i Hi]%list_elem_of_lookup by (apply dnsmasq_section; eauto).
      by eapply Forall2_lookup_l in Hf as (o & _ & [Hv _]%section_option_ok).
    + intros t Ht. pose proof Ht as (Ht' & _). rewrite Ec in Ht'. injection Ht' as <-. destruct (Hok _ Ht) as [o Ho]. congruence.
  - intros t (Ht & _). congruence.
Qed.

Lemma lease_path_names o path : lease_path command o = Some path <-> names_path o path.
Proof.
  unfold lease_path, names_path. set (r := match o with Some o => command "uci" _ | None => _ end).
  assert (forall text, match o with Some o => command "uci" ["-q"; "get"; o]%string = Ok text | None => text = FALLBACK end <-> r = Ok text) as Hr
    by (subst r; intros text; destruct o; [done | by split; [intros -> | intros [= ->]]]).
  setoid_rewrite Hr. destruct r as [text | e]; [| split; [done | by intros (? & [=] & _)]].
  destruct (_ && _ && _) eqn:E.
  - rewrite !andb_true_iff, negb_true_iff, Z.leb_le in E. split; [intros [= <-]; naive_solver | by intros (? & [= <-] & -> & _)].
  - split; [done |]. intros (? & [= <-] & -> & H1 & H2%Z.leb_le & H3). by rewrite H1, H2, H3 in E.
Qed.

Lemma lease_paths_files path : path ∈ (lease_paths command).1 <-> lease_file path.
Proof.
  unfold lease_paths, lease_file. pose proof uci_options_shows as Hu. destruct (uci_options command) as [options | e];
    cbn [fst]; rewrite (sort_dedup_elem str_le), list_elem_of_omap.
  - destruct Hu as (text & Ht & Ho). split.
    + intros (p & (o & -> & Hin%Ho)%list_elem_of_fmap & Hp%lease_path_names). left. eauto.
    + intros [(text' & o & Ht' & Hin & Hp%lease_path_names) | [Hno _]]; [| by destruct (Hno text)].
      assert (text' = text) as -> by (destruct Ht as [Ht _], Ht' as [Ht' _]; congruence). exists (Some path). split; [| done].
      rewrite <- Hp. apply list_elem_of_fmap_2. by apply Ho.
  - split.
    + intros (p & (o & -> & ->%list_elem_of_singleton)%list_elem_of_fmap & Hp). unfold id in Hp. apply lease_path_names in Hp. by right.
    + intros [(text & o & Ht & _) | [_ Hp%lease_path_names]]; [by destruct (Hu text) |]. exists (Some path). split; [| done].
      rewrite <- Hp. by apply list_elem_of_singleton.
Qed.

Lemma lease_paths_told : (lease_paths command).2 = false <-> exists text, uci_shows text /\ forall o, instance_option text o -> exists path, names_path o path.
Proof.
  unfold lease_paths. pose proof uci_options_shows as Hu. destruct (uci_options command) as [options | e]; cbn [snd].
  - destruct Hu as (text & Ht & Ho). cbn [orb]. rewrite <- not_true_iff_false, existsb_exists. setoid_rewrite <- list_elem_of_In.
    setoid_rewrite negb_true_iff. setoid_rewrite bool_decide_eq_false. split.
    + intros Hno. exists text. split; [done |]. intros o Hin%Ho. destruct (lease_path command o) as [path |] eqn:E; [exists path; by apply lease_path_names |].
      exfalso. apply Hno. exists None. split; [rewrite <- E; by apply list_elem_of_fmap_2 | by intros []].
    + intros (text' & Ht' & Hall) (p & (o & -> & Hin%Ho)%list_elem_of_fmap & Hno). apply Hno.
      assert (text' = text) as -> by (destruct Ht as [Ht _], Ht' as [Ht' _]; congruence).
      destruct (Hall _ Hin) as [path ->%lease_path_names]. eauto.
  - split; [done |]. intros (text & Ht & _). by destruct (Hu text).
Qed.

Lemma read_leases_ok now path rows : read_leases lan command now path = Ok rows <->
  exists text t, lease_text now path text t /\ rows = omap (lease lan t) (lines text).
Proof.
  unfold read_leases, lease_text, leases. split.
  - intros (text & Hc & Hr)%bind_ok. apply bind_ok in Hr as (t & Ht%ok_or_ok & Hr).
    apply bind_ok in Hr as ([] & [Hs%Z.leb_le Hn%Z.leb_le]%ensure_ok%andb_true_iff & [= <-]). by exists text, t.
  - intros (text & t & (Hc & -> & [Hs%Z.leb_le Hn%Z.leb_le]) & ->). rewrite Hc. cbn. by rewrite Hs, Hn.
Qed.

Lemma read_neighbors_ok rows : read_neighbors lan command parse_rows = Ok rows <->
  exists entries, neighbor_text entries /\ rows = omap (neighbor lan) entries.
Proof.
  unfold read_neighbors, neighbor_text, neighbors. split.
  - intros (text & Hc & Hr)%bind_ok. apply bind_ok in Hr as ([] & Hs%ensure_ok%Z.leb_le & Hr).
    apply bind_ok in Hr as (es & He%ok_or_ok & Hr). apply bind_ok in Hr as ([] & Hn%ensure_ok%Z.leb_le & [= <-]). eauto 8.
  - intros (es & (text & Hc & Hs%Z.leb_le & He & Hn%Z.leb_le) & ->). rewrite Hc. cbn. rewrite Hs. cbn. rewrite He. cbn. by rewrite Hn.
Qed.

Lemma source_elem now r : r ∈ sources lan command parse_rows now <->
  (exists path, lease_file path /\ r = read_leases lan command now path) \/ r = read_neighbors lan command parse_rows.
Proof.
  unfold sources. rewrite elem_of_app, list_elem_of_singleton, list_elem_of_fmap. setoid_rewrite lease_paths_files. naive_solver.
Qed.

(** The rows are what the sources state. *)
Lemma rows_stated now r : r ∈ concat (omap to_option (sources lan command parse_rows now)) <->
  exists ip, d_addresses r = [ip] /\ stated now (d_mac r) ip (d_name r).
Proof.
  rewrite list_elem_of_In, in_concat. setoid_rewrite <- list_elem_of_In. setoid_rewrite list_elem_of_omap. setoid_rewrite source_elem. split.
  - intros (rows & (s & [(path & Hp & ->) | ->] & Hs) & Hr).
    + destruct (read_leases _ _ _ _) as [rows' |] eqn:E; [| done]. injection Hs as ->.
      apply read_leases_ok in E as (text & t & Ht & ->). apply list_elem_of_omap in Hr as (line & Hl & (ip & Hip & Hle)%lease_leased).
      exists ip. split; [done | by econstructor].
    + destruct (read_neighbors _ _ _) as [rows' |] eqn:E; [| done]. injection Hs as ->.
      apply read_neighbors_ok in E as (es & He & ->). apply list_elem_of_omap in Hr as (entry & Hl & (ip & Hip & Hname & Hseen)%neighbor_seen).
      exists ip. rewrite Hname. split; [done | by eapply stated_neighbor].
  - intros (ip & Hip & Hst). destruct r as [mac name addresses]. cbn in *. subst addresses.
    destruct Hst as [path text t line mac ip name Hp Ht Hl Hle | es entry mac ip He Hin Hseen].
    + exists (omap (lease lan t) (lines text)). split.
      * exists (Ok (omap (lease lan t) (lines text))). split; [left | done]. exists path. split; [done |]. symmetry. apply read_leases_ok. eauto.
      * apply list_elem_of_omap. exists line. split; [done |]. apply lease_leased. eauto.
    + exists (omap (neighbor lan) es). split.
      * exists (Ok (omap (neighbor lan) es)). split; [by right; symmetry; apply read_neighbors_ok; eauto | done].
      * apply list_elem_of_omap. exists entry. split; [done |]. apply neighbor_seen. eauto.
Qed.

Lemma sources_some now : existsb is_ok (sources lan command parse_rows now) = true <-> some_read now.
Proof.
  rewrite existsb_exists. setoid_rewrite <- list_elem_of_In. setoid_rewrite source_elem. unfold some_read. split.
  - intros (r & [(path & Hp & ->) | ->] & Hok).
    + left. destruct (read_leases _ _ _ _) eqn:E; [| done]. apply read_leases_ok in E as (text & t & Ht & _). eauto.
    + right. destruct (read_neighbors _ _ _) eqn:E; [| done]. apply read_neighbors_ok in E as (es & He & _). eauto.
  - intros [(path & text & t & Hp & Ht) | [es He]].
    + exists (Ok (omap (lease lan t) (lines text))). split; [left | done]. exists path. split; [done |]. symmetry. apply read_leases_ok. eauto.
    + exists (Ok (omap (neighbor lan) es)). split; [by right; symmetry; apply read_neighbors_ok; eauto | done].
Qed.

Lemma sources_all now : (lease_paths command).2 = false /\ forallb is_ok (sources lan command parse_rows now) = true <-> all_read now.
Proof.
  rewrite lease_paths_told, forallb_forall. setoid_rewrite <- list_elem_of_In. setoid_rewrite source_elem. unfold all_read. split.
  - intros [(text & Ht & Ho) Hall]. split.
    + exists text. split; [done |]. intros o Hin. destruct (Ho o Hin) as [path Hp].
      assert (is_ok (read_leases lan command now path) = true) as Hok by (apply Hall; left; exists path; split; [left; eauto | done]).
      destruct (read_leases _ _ _ _) eqn:E; [| done]. apply read_leases_ok in E as (lines & t & Hl & _). eauto.
    + assert (is_ok (read_neighbors lan command parse_rows) = true) as Hok by (apply Hall; by right).
      destruct (read_neighbors _ _ _) eqn:E; [| done]. apply read_neighbors_ok in E as (es & He & _). eauto.
  - intros [(text & Ht & Ho) [es He]]. split.
    + exists text. split; [done |]. intros o Hin. destruct (Ho o Hin) as (path & _ & _ & Hp & _). eauto.
    + intros r [(path & Hp & ->) | ->].
      * destruct Hp as [(text' & o & Ht' & Hin & Hp) | [Hno _]]; [| by destruct (Hno text)].
        assert (text' = text) as -> by (destruct Ht as [Ht _], Ht' as [Ht' _]; congruence).
        destruct (Ho o Hin) as (path' & text' & t & Hp' & Hl). apply lease_path_names in Hp, Hp'. rewrite Hp in Hp'. injection Hp' as <-.
        by rewrite (proj2 (read_leases_ok now path _) (ex_intro _ text' (ex_intro _ t (conj Hl eq_refl)))).
      * by rewrite (proj2 (read_neighbors_ok _) (ex_intro _ es (conj He eq_refl))).
Qed.

Definition excluded (exclusions : list mac_address) : gmap mac_address lan_device :=
  list_to_map ((fun mac => (mac, empty_device mac)) <$> exclusions).

Lemma excluded_lookup exclusions k : excluded exclusions !! k = if bool_decide (k ∈ exclusions) then Some (empty_device k) else None.
Proof.
  unfold excluded. induction exclusions as [| m l IH]; cbn; [by rewrite lookup_empty |].
  destruct (decide (m = k)) as [-> | Hne].
  - rewrite lookup_insert_eq, bool_decide_true; [done | apply elem_of_cons; by left].
  - rewrite lookup_insert_ne, IH by done. erewrite bool_decide_ext; [done |]. rewrite elem_of_cons. naive_solver.
Qed.

Lemma inventory_run exclusions now :
  inventory lan command parse_rows exclusions now =
    let from := sources lan command parse_rows now in
    finish (merge (excluded exclusions) (concat (omap to_option from))) (existsb is_ok from)
           ((lease_paths command).2 || negb (forallb is_ok from)).
Proof. unfold inventory. by rewrite take_rows_all. Qed.

(** A device of the merge: its key is its address, and its addresses are those of its rows. *)
Lemma merged_device exclusions rows k d : merge (excluded exclusions) rows !! k = Some d ->
  d_mac d = k /\ device_ok d /\ (forall x, x ∈ d_addresses d <-> exists r, r ∈ rows /\ d_mac r = k /\ x ∈ d_addresses r)
  /\ (forall n, d_name d = Some n -> exists r, r ∈ rows /\ d_mac r = k /\ d_name r = Some n)
  /\ (forall r n, r ∈ rows -> d_mac r = k -> d_name r = Some n -> exists m, d_name d = Some m /\ str_le m n).
Proof.
  assert (device_ok (empty_device k)) as Hk by (split; constructor).
  rewrite merge_lookup, excluded_lookup.
  replace (default (empty_device k) (if bool_decide (k ∈ exclusions) then Some (empty_device k) else None)) with (empty_device k)
    by by case_bool_decide.
  case_bool_decide as Hin; [| case_bool_decide; [| done]]; intros [= <-].
  - destruct (merged_ok k rows (empty_device k) Hk eq_refl) as [? ?].
    destruct (merged_name k rows (empty_device k)) as [Hfrom Hleast]. split_and!; [done | done | | |].
    + intros x. rewrite merged_addresses. cbn. set_solver.
    + by intros n [? | Hn]%Hfrom.
    + intros r n Hr Hm Hn. apply Hleast. right. eauto.
  - assert (forall r, r ∈ rows -> d_mac r <> k) as Hno by (intros r Hr <-; apply Hin; by apply list_elem_of_fmap_2).
    split_and!; [done | done | | done |].
    + intros x. cbn. split; [set_solver |]. by intros (r & Hr & []%Hno & _).
    + intros r n Hr Hk0. by destruct (Hno r Hr).
Qed.

Lemma merged_keys exclusions rows k : is_Some (merge (excluded exclusions) rows !! k) <-> k ∈ exclusions \/ k ∈ d_mac <$> rows.
Proof.
  rewrite merge_lookup, excluded_lookup. case_bool_decide; [by split; [right | eauto] |].
  case_bool_decide; [by split; [left | eauto] |]. split; [by intros [] | by intros [? | ?]].
Qed.

Lemma into_values_elem (m : gmap mac_address lan_device) d : d ∈ into_values m <-> exists k, m !! k = Some d.
Proof.
  rewrite into_values_perm, list_elem_of_fmap. split.
  - intros ([k d'] & -> & Hin%elem_of_map_to_list). by exists k.
  - intros [k Hk]. exists (k, d). by rewrite elem_of_map_to_list.
Qed.

Lemma listed_keys exclusions rows m :
  m ∈ d_mac <$> into_values (merge (excluded exclusions) rows) <-> m ∈ exclusions \/ m ∈ d_mac <$> rows.
Proof.
  rewrite <- merged_keys, list_elem_of_fmap. setoid_rewrite into_values_elem. split.
  - intros (d & -> & k & Hd). destruct (merged_device _ _ _ _ Hd) as [-> _]. eauto.
  - intros [d Hd]. exists d. destruct (merged_device _ _ _ _ Hd) as [<- _]. eauto.
Qed.

(** One device, from the rows for it. *)
Lemma described now d : device_ok d ->
  (forall x, x ∈ d_addresses d <-> exists r, (exists ip, d_addresses r = [ip] /\ stated now (d_mac r) ip (d_name r)) /\ d_mac r = d_mac d /\ x ∈ d_addresses r) ->
  (forall n, d_name d = Some n -> exists r, (exists ip, d_addresses r = [ip] /\ stated now (d_mac r) ip (d_name r)) /\ d_mac r = d_mac d /\ d_name r = Some n) ->
  (forall r n, (exists ip, d_addresses r = [ip] /\ stated now (d_mac r) ip (d_name r)) -> d_mac r = d_mac d -> d_name r = Some n ->
     exists m, d_name d = Some m /\ str_le m n) ->
  device_ok d
  /\ (forall x, x ∈ d_addresses d <-> exists name, stated now (d_mac d) x name)
  /\ (forall n, d_name d = Some n <->
       (exists x, stated now (d_mac d) x (Some n)) /\ forall x m, stated now (d_mac d) x (Some m) -> str_le n m).
Proof.
  intros Hok Hx Hfrom Hleast. split; [done |].
  assert (forall x n, stated now (d_mac d) x (Some n) -> exists m, d_name d = Some m /\ str_le m n) as Hl.
  { intros x n Hst. apply (Hleast (LanDevice (d_mac d) (Some n) [x])); eauto. }
  split; [intros x; rewrite Hx | intros n]; split.
  - intros (r & (ip & Hr & Hst) & Hm & Hin). rewrite Hr in Hin. apply list_elem_of_singleton in Hin as ->. rewrite <- Hm. eauto.
  - intros [name Hst]. exists (LanDevice (d_mac d) name [x]). split_and!; [eauto | done | by apply list_elem_of_singleton].
  - intros Hn. split.
    + destruct (Hfrom n Hn) as (r & (ip & _ & Hst) & Hm & Hr). rewrite Hr, Hm in Hst. eauto.
    + intros x m (m' & Hm' & Hle)%Hl. by simplify_eq.
  - intros [[x Hst] Hmin]. destruct (Hl _ _ Hst) as (m & Hm & Hle). destruct (Hfrom m Hm) as (r & (ip & _ & Hst') & Hmac & Hr).
    rewrite Hr, Hmac in Hst'. rewrite Hm. f_equal. apply (anti_symm str_le); [done | by eapply Hmin].
Qed.

(** C39. The inventory is exactly what was seen. Every excluded device and every device that a readable
    source states is listed once, in the order of the hardware addresses, with exactly the addresses
    stated for it, sorted, each once, and the least name stated for it. A lease states an address of the
    LAN, other than the router's own, while it has not expired; a neighbour states one while the
    kernel reaches it on the LAN. Discovery is unavailable exactly when no source was read, and complete
    exactly when [uci], the lease file of every instance it shows and the neighbours were all read. *)
Theorem inventory_exact exclusions now :
  let inv := inventory lan command parse_rows exclusions now in
  (StronglySorted mac_le (d_mac <$> i_devices inv) /\ NoDup (d_mac <$> i_devices inv)) /\
  (forall m, m ∈ d_mac <$> i_devices inv <-> m ∈ exclusions \/ exists x name, stated now m x name) /\
  (forall d, d ∈ i_devices inv ->
     device_ok d
     /\ (forall x, x ∈ d_addresses d <-> exists name, stated now (d_mac d) x name)
     /\ (forall n, d_name d = Some n <->
          (exists x, stated now (d_mac d) x (Some n)) /\ forall x m, stated now (d_mac d) x (Some m) -> str_le n m)) /\
  (i_discovery inv = Unavailable <-> ~ some_read now) /\
  (i_discovery inv = Complete <-> all_read now).
Proof.
  intros inv. subst inv. rewrite inventory_run. cbn [finish i_devices i_discovery].
  pose proof (rows_stated now) as Hrows. set (rows := concat _) in *.
  split_and!.
  - apply into_values_macs. intros k d Hd. by destruct (merged_device _ _ _ _ Hd).
  - apply into_values_macs. intros k d Hd. by destruct (merged_device _ _ _ _ Hd).
  - intros m. rewrite listed_keys, list_elem_of_fmap. setoid_rewrite Hrows. split.
    + intros [? | (r & -> & ip & _ & Hst)]; [by left | right; eauto].
    + intros [? | (x & name & Hst)]; [by left | right]. by exists (LanDevice m name [x]); split; [| exists x].
  - intros d [k Hd]%into_values_elem. destruct (merged_device _ _ _ _ Hd) as (<- & Hok & Hx & Hfrom & Hleast).
    setoid_rewrite Hrows in Hx. setoid_rewrite Hrows in Hfrom. setoid_rewrite Hrows in Hleast.
    apply (described _ _ Hok Hx Hfrom Hleast).
  - rewrite <- sources_some. destruct (existsb _ _); cbn; [| by split]. destruct (_ || _); by split.
  - rewrite <- sources_all. destruct (existsb is_ok _) eqn:E.
    + destruct ((lease_paths command).2), (forallb is_ok _); cbn; naive_solver.
    + cbn. split; [done |]. intros [_ Hall]. exfalso. unfold sources in E, Hall. rewrite existsb_app, forallb_app in *. cbn in *.
      by destruct (is_ok (read_neighbors _ _ _)), (existsb _ _), (forallb _ _).
Qed.
End Inventory.

(** ** Witnesses *)

Lemma merge_any_order_witness :
  let a := LanDevice (mac 1) (Some "z"%string) [V4 (ipv4 192 168 1 3)] in
  let b := LanDevice (mac 1) (Some "a"%string) [V4 (ipv4 192 168 1 2)] in
  [a; b] ≡ₚ [b; a] /\ merge ∅ [a; b] = merge ∅ [b; a]
  /\ merge ∅ [a; b] = {[ mac 1 := LanDevice (mac 1) (Some "a"%string) [V4 (ipv4 192 168 1 2); V4 (ipv4 192 168 1 3)] ]}.
Proof.
  intros a b. assert ([a; b] ≡ₚ [b; a]) as Hp by apply Permutation_swap.
  split; [done |]. split; [by apply (merge_any_order ∅) | by vm_compute].
Defined.

(** An instance with a lease file of its own, in which one lease has expired, and two neighbours, of which one
    has failed: everything is read. *)
Definition sample_command (program : string) (args : list string) : result string :=
  if bool_decide (program = "cat"%string /\ args = ["--"; "/tmp/main leases"]%string)
  then Ok (str (join_bytes [LF] (chars <$> ["0 02:00:00:00:00:01 192.168.1.2 laptop *"; "90 02:00:00:00:00:04 192.168.1.4 old *"]%string)))
  else if bool_decide (program = "uci"%string /\ args = ["-q"; "show"; "dhcp"]%string)
  then Ok (str (join_bytes [LF] (chars <$> ["dhcp.main=dnsmasq"; "dhcp.main.leasefile='/tmp/main leases'"]%string)))
  else if bool_decide (program = "uci"%string) then Ok (str (chars "/tmp/main leases" ++ [LF]))
  else if bool_decide (program = "ip"%string) then Ok "rows"%string
  else Err (Msg "late").

Definition sample_rows (text : string) : option (list json) :=
  Some [JObject [("dst", JString "fe80::2"); ("lladdr", JString "02:00:00:00:00:03"); ("state", JArray [JString "STALE"])];
        JObject [("dst", JString "192.168.1.9"); ("lladdr", JString "02:00:00:00:00:05"); ("state", JArray [JString "FAILED"])]]%string.

Lemma inventory_exact_witness :
  let inv := inventory sample_lan sample_command sample_rows [mac 2] (Some 100) in
  inv = LanDeviceInventory [LanDevice (mac 1) (Some "laptop"%string) [V4 (ipv4 192 168 1 2)]; empty_device (mac 2);
                            LanDevice (mac 3) None [V6 [65152; 0; 0; 0; 0; 0; 0; 2]]] Complete
  /\ all_read sample_lan sample_command sample_rows (Some 100)
  /\ (exists x name, stated sample_lan sample_command sample_rows (Some 100) (mac 1) x name)
  /\ ~ exists x name, stated sample_lan sample_command sample_rows (Some 100) (mac 4) x name.
Proof.
  pose proof (inventory_exact sample_lan sample_command sample_rows [mac 2] (Some 100)) as (_ & Hm & _ & _ & Hall).
  assert (forall m, m ∈ [mac 2] -> m = mac 2) as H2 by by intros m ->%list_elem_of_singleton.
  split_and!; [by vm_compute | apply Hall; by vm_compute | |].
  - destruct (proj1 (Hm (mac 1))) as [[=]%H2 | Hs]; [| done]. apply (bool_decide_eq_true_1 _). by vm_compute.
  - intros Hs. assert (mac 4 ∈ d_mac <$> i_devices (inventory sample_lan sample_command sample_rows [mac 2] (Some 100))) as Hin by (apply Hm; by right).
    apply (bool_decide_eq_true_2 _) in Hin. by vm_compute in Hin.
Defined.
