(* ===== verification/Ssh.v ===== *)
(** * SSH to a managed server (crates/gofro-agent/src/managed/ssh.rs)

    Which hosts are asked, what ssh-keyscan answers, the stages that the
    installer reports while it runs, and what a failed command says.  The
    programs ([ssh], [sshpass], [ssh-keyscan], [ssh-keygen]) are outside; what
    they print and how they end is the input of these functions, and their
    pipes, threads and deadlines are in Children.v. *)

From stdpp Require Import base strings list.
From Stdlib Require Import Ascii ZArith Lia.
From S2P Require Import Prelude RustStd IpAddr Net Peers Model Config.

Definition SSH_COMMAND_TIMEOUT : Z := 120.
Definition SSH_UPDATE_TIMEOUT : Z := 960.
Definition SSH_BOOTSTRAP_TIMEOUT : Z := 1200.
Definition SSH_OUTPUT_LIMIT : Z := 1048576.

Inductive bootstrap_stage := Waiting | HostKey | Connect | Inspect | Install | Authorize | Profile | Save.

#[export] Instance bootstrap_stage_eq_dec : EqDecision bootstrap_stage.
Proof. solve_decision. Defined.

(** ** The target *)

Definition is_public (address : Z) : bool :=
  let '(a, b, c, _) := octets address in
  negb ((a =? 0) || (a =? 10) || (a =? 127) || ((224 <=? a) && (a <=? 255)))
  && negb ((a =? 100) && ((64 <=? b) && (b <=? 127)))
  && negb ((a =? 169) && (b =? 254))
  && negb ((a =? 172) && ((16 <=? b) && (b <=? 31)))
  && negb ((a =? 192) && ((b =? 0) || (b =? 168) || ((b =? 88) && (c =? 99))))
  && negb ((a =? 198) && ((b =? 18) || (b =? 19) || ((b =? 51) && (c =? 100))))
  && negb ((a =? 203) && (b =? 0) && (c =? 113)).

Definition validate_target (host : string) (port : Z) : result unit :=
  address ← with_context "Введите публичный IPv4-адрес VPS. IPv6 не поддерживается; получите IPv4 у провайдера VPS."
              (ok_or (parse_ipv4 host) "invalid IPv4 address syntax");
  if port =? 0 then Err (Msg "SSH-порт должен быть от 1 до 65535")
  else if negb (bool_decide (host = show_ipv4 address)) || negb (is_public address)
  then Err (Msg "Введите публичный IPv4-адрес VPS из панели провайдера, без ведущих нулей.")
  else Ok tt.

Definition validate_password (password : string) : result unit :=
  if bool_decide (password = ""%string) || (1024 <? slen password)
     || existsb (fun c => contains_byte c password) [CR; LF; of_code 0]
  then Err (Msg "Введите пароль root заново: он не должен быть пустым или содержать переносы строк.")
  else Ok tt.

(** ** Host keys *)

Definition scanned_key (line : string) : result string :=
  let fields := tail (split_whitespace line) in
  kind ← ok_or (fields !! 0%nat) "invalid ssh-keyscan output";
  key ← ok_or (fields !! 1%nat) "invalid ssh-keyscan output";
  if bool_decide (is_Some (fields !! 2%nat)) then Err (Msg "invalid ssh-keyscan output")
  else
    let value := (kind +:+ " " +:+ key)%string in
    _ ← parse_host_key value;
    Ok value.

Definition not_comment (line : string) : bool := negb (starts_with "#" line).

Definition parse_keyscan (value : string) : result string :=
  keys ← mapM scanned_key (List.filter not_comment (lines value));
  match keys with
  | [key] => Ok key
  | _ => Err (Msg "expected exactly one ed25519 SSH host key")
  end.

(** The file that ssh may trust: the one key of the one host. *)
Definition known_hosts_text (host : string) (port : Z) (host_key : string) : string :=
  let target := if port =? 22 then host else ("[" +:+ host +:+ "]:" +:+ show port)%string in
  str (chars target ++ [SPACE] ++ chars host_key ++ [LF]).

(** ** The stages of the installation *)

Definition stage_marker (line : list ascii) : option (Z * bootstrap_stage) :=
  if bool_decide (line = chars "GOFRO_STAGE inspect") then Some (1, Inspect)
  else if bool_decide (line = chars "GOFRO_STAGE install") then Some (2, Install)
  else if bool_decide (line = chars "GOFRO_STAGE authorize") then Some (3, Authorize)
  else None.

Record stage_reader := StageReader { sr_line : list ascii; sr_oversized : bool; sr_previous : Z; sr_sent : list bootstrap_stage }.

Definition read_stage_byte (r : stage_reader) (byte : ascii) : stage_reader :=
  if eqb_ascii byte LF then
    match (if sr_oversized r then None else stage_marker (sr_line r)) with
    | Some (order, stage) =>
        if sr_previous r <? order then StageReader [] false order (sr_sent r ++ [stage])
        else StageReader [] false (sr_previous r) (sr_sent r)
    | None => StageReader [] false (sr_previous r) (sr_sent r)
    end
  else if Z.of_nat (length (sr_line r)) <? 64 then
    StageReader (sr_line r ++ [byte]) (sr_oversized r) (sr_previous r) (sr_sent r)
  else StageReader (sr_line r) true (sr_previous r) (sr_sent r).

(** The loop over the reads of the pipe, up to the first empty one: the stages sent. *)
Fixpoint read_stages (r : stage_reader) (reads : list (list ascii)) : list bootstrap_stage :=
  match reads with
  | [] | [] :: _ => sr_sent r
  | buffer :: reads => read_stages (foldl read_stage_byte r buffer) reads
  end.

Definition read_bootstrap_stages (reads : list (list ascii)) : list bootstrap_stage := read_stages (StageReader [] false 0 []) reads.

(** ** What a failure says *)

(** [s.contains(sub)] *)
Fixpoint infix_bytes (sub l : list ascii) : bool :=
  bool_decide (is_Some (is_prefix_bytes sub l)) || match l with [] => false | _ :: l => infix_bytes sub l end.

Definition contains_str (sub s : string) : bool := infix_bytes (chars sub) (chars s).

Inductive exit_status := Exited (code : Z) | Signalled (signal : Z).

Definition success (s : exit_status) : bool := match s with Exited c => c =? 0 | Signalled _ => false end.

Definition is_code (s : exit_status) (codes : list Z) : bool := match s with Exited c => existsb (Z.eqb c) codes | Signalled _ => false end.

Definition UPGRADE_REQUIRED : string := "VPS upgrade required: the installed/published Gofro release does not support owner protocol 2. Install a compatible signed release before retrying; existing peers were not replaced.".

(** The first message whose condition holds. *)
Fixpoint first_reason (reasons : list (bool * string)) (otherwise : string) : string :=
  match reasons with
  | [] => otherwise
  | (b, m) :: reasons => if b then m else first_reason reasons otherwise
  end.

Section Errors.
(* how std prints an exit status *)
Variable show_status : exit_status -> string.

(** What the installer says of itself. *)
Definition installer_reason (stderr : string) : string :=
  first_reason [
    (contains_str "release signature is invalid" stderr, "Signed VPS release verification failed. Installation was refused.");
    (contains_str "release checksum does not match" stderr || contains_str "release manifest is invalid" stderr
       || contains_str "release bundle is invalid" stderr, "VPS release integrity verification failed. Installation was refused.");
    (contains_str "update public key is missing" stderr,
       "VPS signed-update verification key is missing. Repair it through a trusted console; unsigned installation is not allowed.");
    (contains_str "Debian or Ubuntu is required" stderr || contains_str "x86_64 is required" stderr,
       "VPS installation requires x86_64 Debian or Ubuntu.");
    (contains_str "another install or update is running" stderr,
       "Another VPS installation or update is running. Check its outcome before retrying.")]%string "".

Definition bootstrap_error (status : exit_status) (stderr : string) : string :=
  let installer := installer_reason stderr in
  first_reason [
    (is_code status [40], UPGRADE_REQUIRED);
    (is_code status [41], "Gofro is installed but the VPS is not ready: check its saved WireGuard configuration and VPN services. Existing peers were retained; no reinstall was attempted for a compatible server.");
    (is_code status [5] || contains_str "Permission denied (" stderr,
       "VPS не разрешил вход root по паролю. Проверьте актуальный пароль после переустановки и настройки SSH.");
    (is_code status [6; 7] || contains_str "Host key verification failed" stderr,
       "SSH-ключ VPS не совпал. Подключение отклонено; сохранённый ключ не изменён. Проверьте VPS через доверенную консоль.");
    (is_code status [22] && contains_str "404" stderr,
       "Серверный пакет Gofro недоступен (HTTP 404). Для установки или обновления нужен опубликованный совместимый подписанный релиз.");
    (negb (bool_decide (installer = ""%string)), installer +:+ " (" +:+ show_status status +:+ ")");
    (is_code status [255], "Не удалось подключиться к VPS по SSH. Проверьте IP-адрес, порт и доступность сервера.")]%string
    ("Установка Gofro на VPS завершилась с ошибкой (" +:+ show_status status +:+ "). Проверьте ОС сервера и доступ к пакетам и релизам.").

Definition bootstrap_result (status : exit_status) (stderr : string) : result unit :=
  if success status then Ok tt else Err (Msg (bootstrap_error status stderr)).

Definition is_remote (remotes : list string) (remote : string) : bool := existsb (fun r => bool_decide (remote = r)) remotes.

Definition ssh_reason (status : exit_status) (stderr remote : string) : string :=
  first_reason [
    (contains_str "Host key verification failed" stderr || contains_str "REMOTE HOST IDENTIFICATION HAS CHANGED" stderr,
       "SSH host key changed. Connection refused; the saved pin was not replaced.");
    (contains_str "Permission denied (" stderr,
       "VPS rejected the management SSH key. Check root public-key access and its restricted authorized_keys entry.");
    (is_code status [126] || (is_remote ["capabilities"] remote && is_code status [1; 2; 127]),
       "Этот VPS использует устаревшую версию Gofro. VPS upgrade required: install a compatible signed release with owner protocol 2.");
    (contains_str "metadata" stderr || contains_str "legacy router owner" stderr,
       "VPS ownership/friend metadata is missing, unsafe, or ambiguous. Existing access was retained; repair metadata through a trusted server console.");
    (contains_str "unsafe server lock" stderr || contains_str "server lock changed" stderr,
       "VPS management lock is unsafe. Repair its ownership and permissions through a trusted console.");
    (contains_str "no tunnel IP addresses" stderr,
       "VPS has no free tunnel addresses. Re-add creates a new router access and retains old access; remove obsolete access through a trusted console.");
    (contains_str "already assigned to another peer" stderr,
       "VPS tunnel address or legacy LAN subnet belongs to another peer. Upgrade to owner protocol 2; existing access was not replaced.");
    (contains_str "existing unmanaged WARP" stderr,
       "На VPS уже есть сторонняя установка WARP. Gofro не стал её перезаписывать; требуется согласованная ручная миграция.");
    (contains_str "custom changes" stderr || contains_str "foreign WARP" stderr || contains_str "foreign policy rule" stderr
       || contains_str "foreign routes in WARP" stderr,
       "Настройки сети VPS конфликтуют с WARP. Чужие правила не заменены; проверьте сервер через доверенную консоль.");
    (is_remote ["enable-warp"; "disable-warp"] remote,
       "Не удалось завершить настройку WARP. Изменение могло примениться частично: проверьте состояние сервера перед повтором. Обычный VPN не переключался на WARP.");
    (contains_str "Cannot find device" stderr || contains_str "No such device" stderr,
       "VPS WireGuard interface is unavailable. Check the VPN services on the server.");
    (contains_str "wg-quick" stderr,
       "VPS could not persist or restart its WireGuard configuration. Check server storage and VPN services; the remote outcome may be partial.");
    (is_code status [124], "VPS command timed out. Its outcome is unknown; inspect the server before retrying.");
    (is_code status [255], "SSH connection failed. Check network, SSH port, and management key; the remote outcome may be unknown.")]%string
    "VPS command failed. Check its VPN services and storage through a trusted console; no remote diagnostics or credentials are disclosed.".

Definition OPERATIONS : list string :=
  ["capabilities"; "version"; "update"; "managed-status"; "restart-vpn"; "create-router-profile"; "remove-router-peer"; "create-profile";
   "create-friend"; "rename-friend"; "revoke-friend"; "friend-profile"; "enable-warp"; "disable-warp"]%string.

Definition operation_name (remote : string) : string :=
  match split_whitespace remote with
  | name :: _ => if is_remote OPERATIONS name then name else "management"%string
  | [] => "management"%string
  end.

Definition ssh_command_error (status : exit_status) (stderr remote : string) : error :=
  Msg (operation_name remote +:+ ": " +:+ ssh_reason status stderr remote +:+ " (" +:+ show_status status +:+ ")").

(** ** A command over the management key *)

Definition ssh_timeout (remote : string) : Z := if is_remote ["update"; "enable-warp"]%string remote then SSH_UPDATE_TIMEOUT else SSH_COMMAND_TIMEOUT.

(** How a run of ssh ended: it could not be started, its pipe or itself failed or was late, or it exited with what it
    printed and whether all input was taken. *)
Inductive ssh_run :=
| NotRun (e : error)
| Ended (status : exit_status) (output stderr : string) (input_taken : bool).

Definition ssh_result (run : ssh_run) (remote : string) : result string :=
  match run with
  | NotRun e => Err e
  | Ended status output stderr input_taken =>
      if SSH_OUTPUT_LIMIT <? slen output then Err (Msg "managed server SSH output is too large")
      else if negb (success status) then Err (ssh_command_error status stderr remote)
      else if negb input_taken then Err (Msg "managed server SSH command input failed")
      else with_context "managed server returned invalid text" (ok_or (utf8_string output) "invalid utf-8")
  end.

Definition input_fits (input : option string) : bool := match input with Some value => slen value <=? FRIEND_NAME_INPUT_LIMIT | None => true end.
End Errors.

(** ** What the functions are for *)

(** The stages in the order they may be reported: each later than all before. *)
Fixpoint rising (previous : Z) (markers : list (Z * bootstrap_stage)) : list bootstrap_stage :=
  match markers with
  | [] => []
  | (order, stage) :: markers => if previous <? order then stage :: rising order markers else rising previous markers
  end.

(** The lines of a text that end. *)
Definition complete_lines (text : list ascii) : list (list ascii) := removelast (split_bytes LF text).

(** What is read before the end of the pipe. *)
Fixpoint until_eof (reads : list (list ascii)) : list ascii :=
  match reads with
  | [] | [] :: _ => []
  | buffer :: reads => buffer ++ until_eof reads
  end.

Lemma stage_marker_length line m : stage_marker line = Some m -> (length line <= 64)%nat.
Proof. unfold stage_marker. repeat (case_bool_decide; [subst; intros _; cbn; lia |]). done. Qed.

Lemma complete_lines_cut cur text : Forall (fun a => eqb_ascii a LF = false) cur ->
  complete_lines (cur ++ LF :: text) = cur :: complete_lines text.
Proof.
  intros Hc. unfold complete_lines. rewrite split_bytes_app by done. pose proof (split_bytes_nonempty LF text).
  by destruct (split_bytes LF text).
Qed.

Lemma read_stage_bytes text : forall cur previous sent, Forall (fun a => eqb_ascii a LF = false) cur ->
  sr_sent (foldl read_stage_byte (StageReader (take 64 cur) (64 <? length cur)%nat previous sent) text) =
    sent ++ rising previous (omap stage_marker (complete_lines (cur ++ text))).
Proof.
  induction text as [| a text IH]; intros cur previous sent Hc; cbn [foldl].
  - rewrite app_nil_r. unfold complete_lines. rewrite split_bytes_none by done. cbn. by rewrite app_nil_r.
  - unfold read_stage_byte at 2. cbn [sr_line sr_oversized sr_previous sr_sent]. destruct (eqb_ascii a LF) eqn:Ha.
    + assert (a = LF) as -> by (unfold eqb_ascii in Ha; by apply bool_decide_eq_true in Ha).
      rewrite complete_lines_cut by done. cbn [omap list_omap].
      replace (if (64 <? length cur)%nat then None else stage_marker (take 64 cur)) with (stage_marker cur).
      * pose proof (fun p s => IH [] p s (Forall_nil_2 _)) as IH0. cbn in IH0. destruct (stage_marker cur) as [[order stage] |]; [| apply IH0].
        cbn. destruct (previous <? order); [| apply IH0]. rewrite IH0. by rewrite <- app_assoc.
      * destruct (Nat.ltb_spec 64 (length cur)); [| by rewrite take_ge by lia].
        destruct (stage_marker cur) eqn:E; [apply stage_marker_length in E; lia | done].
    + change (cur ++ a :: text) with (cur ++ [a] ++ text). rewrite app_assoc, <- IH by (apply Forall_app; by split; [| constructor]).
      do 2 f_equal. rewrite length_app, length_take. cbn [length].
      destruct (Nat.ltb_spec 64 (length cur)), (Z.ltb_spec (Z.of_nat (64 `min` length cur)) 64); try lia.
      * rewrite (proj2 (Nat.ltb_lt 64 (length cur + 1))) by lia. by rewrite take_app_le by lia.
      * rewrite (proj2 (Nat.ltb_ge 64 (length cur + 1))) by lia. by rewrite !take_ge by (rewrite ?length_app; cbn; lia).
      * rewrite (proj2 (Nat.ltb_lt 64 (length cur + 1))) by lia. by rewrite take_app_le by lia.
Qed.

Lemma read_stages_eof reads : forall r, read_stages r reads = sr_sent (foldl read_stage_byte r (until_eof reads)).
Proof. induction reads as [| [| a buffer] reads IH]; intros r; cbn; [done | done |]. rewrite IH. cbn. by rewrite foldl_app. Qed.

Lemma rising_bounded l : forall p, Forall (fun m => stage_marker m.1 = Some m.2) l ->
  let s := rising p (snd <$> l) in
  sublist s [Inspect; Install; Authorize] /\ (1 <= p -> sublist s [Install; Authorize]) /\ (2 <= p -> sublist s [Authorize]) /\ (3 <= p -> s = []).
Proof.
  induction l as [| [line [order stage]] l IH]; intros p Hl; cbn; [split_and!; auto using sublist_nil_l |].
  apply Forall_cons in Hl as [Hm Hl]. cbn in Hm. destruct (Z.ltb_spec p order); [| by apply IH].
  destruct (IH order Hl) as (_ & H1 & H2 & H3). revert Hm. unfold stage_marker.
  repeat case_bool_decide; intros [= <- <-]; try specialize (H3 ltac:(lia)); try specialize (H2 ltac:(lia)); try specialize (H1 ltac:(lia));
    split_and!; intros; try lia; try (rewrite H3 by lia); auto using sublist_skip, sublist_cons, sublist_nil_l.
Qed.

Lemma markers_tagged (ls : list (list ascii)) : exists tagged,
  Forall (fun m => stage_marker m.1 = Some m.2) tagged /\ omap stage_marker ls = snd <$> tagged.
Proof.
  induction ls as [| line ls (tagged & Ht & Hm)]; [by exists [] |]. cbn. destruct (stage_marker line) as [m |] eqn:E; [| by exists tagged].
  exists ((line, m) :: tagged). rewrite Hm. by split; [constructor |].
Qed.

(** The panel is told the stages of an installation and nothing else of its output: however the pipe
    cuts it, the stages sent are those of the complete lines that are markers, each only after all before
    it, so at most three, in the order inspect, install, authorize. *)
Theorem stages_exact reads :
  read_bootstrap_stages reads = rising 0 (omap stage_marker (complete_lines (until_eof reads))) /\
  sublist (read_bootstrap_stages reads) [Inspect; Install; Authorize].
Proof.
  assert (read_bootstrap_stages reads = rising 0 (omap stage_marker (complete_lines (until_eof reads)))) as Heq.
  { unfold read_bootstrap_stages. rewrite read_stages_eof. by apply (read_stage_bytes _ [] 0 []). }
  split; [done |]. rewrite Heq. destruct (markers_tagged (complete_lines (until_eof reads))) as (tagged & Ht & ->). by apply rising_bounded.
Qed.

(** ** Nothing of the other side's diagnostics *)

Lemma first_reason_in reasons otherwise : first_reason reasons otherwise ∈ otherwise :: reasons.*2.
Proof.
  induction reasons as [| [[] m] reasons IH]; cbn; [by apply list_elem_of_singleton | apply elem_of_cons; right; apply elem_of_cons; by left |].
  apply elem_of_cons in IH as [-> | IH]; [apply elem_of_cons; by left | do 2 (apply elem_of_cons; right); done].
Qed.

Section Disclosure.
Variable show_status : exit_status -> string.

Lemma installer_said : exists l : list string, forall stderr, installer_reason stderr ∈ l.
Proof.
  eexists. intros stderr. unfold installer_reason. match goal with |- first_reason ?rs ?o ∈ _ => pose proof (first_reason_in rs o) as H end.
  cbn in H. exact H.
Qed.

Lemma reason_said status remote : exists l : list string, forall stderr, ssh_reason status stderr remote ∈ l.
Proof.
  eexists. intros stderr. unfold ssh_reason. match goal with |- first_reason ?rs ?o ∈ _ => pose proof (first_reason_in rs o) as H end.
  cbn in H. exact H.
Qed.

Lemma bootstrap_said status : exists l : list string, forall stderr, bootstrap_error show_status status stderr ∈ l.
Proof.
  destruct installer_said as [l Hl].
  eexists (_ :: _ :: _ :: _ :: _ :: _ :: _ :: ((fun reason => reason +:+ " (" +:+ show_status status +:+ ")")%string <$> l)). intros stderr.
  unfold bootstrap_error. 
  match goal with |- first_reason ?rs ?o ∈ _ => pose proof (first_reason_in rs o) as H; revert H; generalize (first_reason rs o) end.
  intros reason H. cbn -[installer_reason String.append] in H. rewrite !elem_of_cons in H. rewrite !elem_of_cons, list_elem_of_fmap.
  destruct H as [H | [H | [H | [H | [H | [H | [H | [H | H]]]]]]]]; [.. | by apply elem_of_nil in H]; rewrite H.
  7: { do 7 right. by exists (installer_reason stderr). }
  - by left.
  - right. by left.
  - do 2 right. by left.
  - do 3 right. by left.
  - do 4 right. by left.
  - do 5 right. by left.
  - do 6 right. by left.
Qed.

(** Nothing the other side writes to its error stream reaches the panel: what is said of a failed
    command and of a failed installation is one of finitely many texts, which the exit status and the
    operation alone determine. *)
Theorem diagnostics_not_disclosed status remote : exists said : list error, forall stderr,
  ssh_command_error show_status status stderr remote ∈ said /\
  (forall e, bootstrap_result show_status status stderr = Err e -> e ∈ said).
Proof.
  destruct (reason_said status remote) as [l Hl], (bootstrap_said status) as [k Hk].
  exists (((fun reason => Msg (operation_name remote +:+ ": " +:+ reason +:+ " (" +:+ show_status status +:+ ")")%string) <$> l) ++ (Msg <$> k)).
  intros stderr. rewrite elem_of_app. split.
  - left. apply list_elem_of_fmap. by exists (ssh_reason status stderr remote).
  - intros e. unfold bootstrap_result. destruct (success status); [done |]. intros [= <-]. rewrite elem_of_app. right. by apply list_elem_of_fmap_2.
Qed.

(** The name of an operation is one of the fixed ones, never what the command carries. *)
Lemma operation_name_fixed remote : operation_name remote ∈ "management"%string :: OPERATIONS.
Proof.
  unfold operation_name. destruct (split_whitespace remote) as [| name l]; [apply elem_of_cons; by left |].
  destruct (is_remote OPERATIONS name) eqn:E; [| apply elem_of_cons; by left]. unfold is_remote in E.
  apply existsb_exists in E as (x & Hx%list_elem_of_In & Hb%bool_decide_eq_true). subst. apply elem_of_cons. by right.
Qed.
End Disclosure.

(** ** Targets and host keys *)

(** The networks that are not asked, by prefix. *)
Definition RESERVED : list (Z * Z) :=
  [(ipv4 0 0 0 0, 8); (ipv4 10 0 0 0, 8); (ipv4 127 0 0 0, 8); (ipv4 224 0 0 0, 3); (ipv4 100 64 0 0, 10); (ipv4 169 254 0 0, 16);
   (ipv4 172 16 0 0, 12); (ipv4 192 0 0 0, 16); (ipv4 192 168 0 0, 16); (ipv4 192 88 99 0, 24); (ipv4 198 18 0 0, 15);
   (ipv4 198 51 100 0, 24); (ipv4 203 0 113 0, 24)].

Definition in_prefix (p : Z * Z) (a : Z) : bool := a / 2 ^ (32 - p.2) =? p.1 / 2 ^ (32 - p.2).

Ltac bool_arith := apply eq_true_iff_eq; rewrite ?orb_true_iff, ?andb_true_iff, ?orb_true_iff, ?Z.eqb_eq, ?Z.leb_le; Z.div_mod_to_equations; lia.

Lemma is_public_spec a : is_u 32 a -> is_public a = negb (existsb (fun p => in_prefix p a) RESERVED).
Proof.
  intros Ha. pose proof (ipv4_octets a Ha) as Ho. unfold is_public. destruct (octets a) as [[[w x] y] z].
  destruct Ho as (-> & Hw & Hx & Hy & Hz). clear Ha. unfold is_u in *. change (2 ^ 8) with 256 in *.
  unfold RESERVED, in_prefix. cbn [existsb fst snd].
  replace (ipv4 w x y z / 2 ^ (32 - 8)) with w by (unfold ipv4; cbn; Z.div_mod_to_equations; lia).
  replace (ipv4 w x y z / 2 ^ (32 - 3)) with (w / 32) by (unfold ipv4; cbn; Z.div_mod_to_equations; lia).
  replace (ipv4 w x y z / 2 ^ (32 - 10)) with (w * 4 + x / 64) by (unfold ipv4; cbn; Z.div_mod_to_equations; lia).
  replace (ipv4 w x y z / 2 ^ (32 - 16)) with (w * 256 + x) by (unfold ipv4; cbn; Z.div_mod_to_equations; lia).
  replace (ipv4 w x y z / 2 ^ (32 - 12)) with (w * 16 + x / 16) by (unfold ipv4; cbn; Z.div_mod_to_equations; lia).
  replace (ipv4 w x y z / 2 ^ (32 - 24)) with (w * 65536 + x * 256 + y) by (unfold ipv4; cbn; Z.div_mod_to_equations; lia).
  replace (ipv4 w x y z / 2 ^ (32 - 15)) with (w * 128 + x / 2) by (unfold ipv4; cbn; Z.div_mod_to_equations; lia).
  repeat match goal with |- context [?c / 2 ^ ?k] => let v := eval vm_compute in (c / 2 ^ k) in change (c / 2 ^ k) with v end. clear z Hz.
  replace (w / 32 =? 7) with ((224 <=? w) && (w <=? 255)) by bool_arith.
  replace (w * 4 + x / 64 =? 401) with ((w =? 100) && ((64 <=? x) && (x <=? 127))) by bool_arith.
  replace (w * 256 + x =? 43518) with ((w =? 169) && (x =? 254)) by bool_arith.
  replace (w * 16 + x / 16 =? 2753) with ((w =? 172) && ((16 <=? x) && (x <=? 31))) by bool_arith.
  replace (w * 256 + x =? 49152) with ((w =? 192) && (x =? 0)) by bool_arith.
  replace (w * 256 + x =? 49320) with ((w =? 192) && (x =? 168)) by bool_arith.
  replace (w * 65536 + x * 256 + y =? 12605539) with ((w =? 192) && (x =? 88) && (y =? 99)) by bool_arith.
  replace (w * 128 + x / 2 =? 25353) with ((w =? 198) && ((x =? 18) || (x =? 19))) by bool_arith.
  replace (w * 65536 + x * 256 + y =? 12989284) with ((w =? 198) && (x =? 51) && (y =? 100)) by bool_arith.
  replace (w * 65536 + x * 256 + y =? 13303921) with ((w =? 203) && (x =? 0) && (y =? 113)) by bool_arith.
  rewrite ?andb_orb_distrib_r, ?orb_false_r, ?negb_orb, ?andb_assoc. reflexivity.
Qed.

Lemma parse_digits_nonneg l : forall acc v, 0 <= acc -> parse_digits 10 acc l = Some v -> 0 <= v.
Proof.
  induction l as [| a l IH]; intros acc v Ha; cbn [parse_digits]; [by intros [= <-] |].
  destruct (digit_value 10 a) as [d |] eqn:E; [| done]. apply IH. enough (0 <= d) by lia.
  revert E. unfold digit_value, is_ascii_digit, is_ascii_lower, is_ascii_upper, in_range. repeat case_match; intros; simplify_eq; lia.
Qed.

Lemma parse_radix_range max s v : parse_radix 10 max s = Some v -> 0 <= v <= max.
Proof.
  unfold parse_radix. destruct (match chars s with [] => [] | _ => _ end) as [| a r]; [done |].
  destruct (parse_digits 10 0 (a :: r)) as [n |] eqn:E; [| done]. apply parse_digits_nonneg in E; [| done].
  destruct (Z.leb_spec n max); [| done]. intros [= <-]. lia.
Qed.

Lemma parse_octet_range s v : parse_octet s = Some v -> is_u 8 v.
Proof.
  unfold parse_octet. destruct (chars s) as [| a r]; [done |]. destruct (_ || _); [done |].
  intros Hp%parse_radix_range. unfold u8_max in Hp. unfold is_u. lia.
Qed.

Lemma parse_ipv4_range s a : parse_ipv4 s = Some a -> is_u 32 a.
Proof. unfold parse_ipv4. intros Hp. repeat case_match; simplify_eq. apply ipv4_range; by eapply parse_octet_range. Qed.

(** A server is only ever asked at the canonical text of an IPv4 address outside the reserved networks,
    at a port of its own. *)
Theorem target_is_public host port :
  validate_target host port = Ok tt <->
    port <> 0 /\ exists a, is_u 32 a /\ host = show_ipv4 a /\ Forall (fun p => in_prefix p a = false) RESERVED.
Proof.
  unfold validate_target. assert (forall a, is_u 32 a -> is_public a = true <-> Forall (fun p => in_prefix p a = false) RESERVED) as Hpub.
  { intros a Ha. rewrite is_public_spec, negb_true_iff, Forall_forall by done. rewrite <- not_true_iff_false, existsb_exists.
    setoid_rewrite list_elem_of_In. split.
    - intros Hn p Hp. destruct (in_prefix p a) eqn:E; [| done]. destruct Hn. by exists p.
    - intros Hn (p & Hp & E). by rewrite (Hn p Hp) in E. }
  split.
  - destruct (parse_ipv4 host) as [a |] eqn:E; [| done]. cbn [with_context ok_or mbind result_bind]. apply parse_ipv4_range in E. destruct (Z.eqb_spec port 0); [done |].
    case_bool_decide; [| done]. destruct (is_public a) eqn:Ep; [| done]. intros _. split; [done |]. exists a. split; [done |]. split; [done | by apply Hpub].
  - intros (Hp & a & Ha & -> & Hn). rewrite parse_show_ipv4 by done. cbn [with_context ok_or mbind result_bind]. rewrite (proj2 (Z.eqb_neq port 0)) by done.
    rewrite bool_decide_true by done. by rewrite (proj2 (Hpub a Ha)).
Qed.

Lemma target_is_public_witness : validate_target "203.0.112.9" 22 = Ok tt /\ validate_target "203.0.113.9" 22 <> Ok tt.
Proof.
  split; [| by vm_compute].
  apply (target_is_public "203.0.112.9" 22). split; [done |]. exists (ipv4 203 0 112 9). split; [done |]. split; [by vm_compute |].
  by repeat constructor.
Defined.

(** ** The tests of the module *)

Definition sample_key : string := "ssh-ed25519 AAAAC3NzaC1lZDI1NTE5AAAAILI7MdqAAAAAAAAAAAAAAAAAAAAAAAAAAAAAAAAAAAAA"%string.

Example scan_one : parse_keyscan (str (chars "# comment" ++ [LF] ++ chars "1.1.1.1 " ++ chars sample_key ++ [LF])) = Ok sample_key.
Proof. by vm_compute. Qed.

Example scan_two : is_ok (parse_keyscan (str (chars "h " ++ chars sample_key ++ [LF] ++ chars "h " ++ chars sample_key ++ [LF]))) = false.
Proof. by vm_compute. Qed.

Example stages_never_forward_logs :
  read_bootstrap_stages [chars "secret" ++ [LF] ++ chars "GOFRO_STAGE ins"; chars "pect" ++ [LF]; 
    chars "GOFRO_STAGE authorize" ++ [LF] ++ chars "GOFRO_STAGE inspect" ++ [LF] ++ chars "GOFRO_STAGE authorize" ++ [LF]] = [Inspect; Authorize].
Proof. by vm_compute. Qed.

Example outdated_server :
  ssh_command_error (fun _ => "exit status: 2"%string) (Exited 2) "usage" "capabilities" =
  Msg "capabilities: Этот VPS использует устаревшую версию Gofro. VPS upgrade required: install a compatible signed release with owner protocol 2. (exit status: 2)".
Proof. by vm_compute. Qed.
