(* ===== verification/Children.v ===== *)
(** * Child processes and their deadlines (managed/ssh.rs, devices.rs)

    The three functions that start a program and watch it: [key_ssh_with_command],
    [run_password_ssh] and [command] of the LAN discovery.  What the process,
    the threads that read its pipes and the clock answer comes from outside,
    call by call; the log is what the agent does to the process.  Times are milliseconds: the
    clock never goes back, and a sleep lasts at least as long as it was asked to. *)

From stdpp Require Import base strings list sets.
From Stdlib Require Import Ascii ZArith Lia.
From S2P Require Import Prelude RustStd Effects Ssh Devices.

(** ** The world of a supervisor *)

(** The channel of a reader thread, asked without waiting. *)
Inductive received := Empty | Disconnected | Received (r : result string).

Record outside := Outside {
  known_hosts : result unit;
  spawn : result unit;
  (* writing to its standard input *)
  feed : option error;
  (* the n-th call *)
  try_wait : nat -> result (option exit_status);
  wait : nat -> result exit_status;
  try_output : nat -> received;
  (* recv_timeout: None is a late thread or one that is gone *)
  output_in_time : nat -> option (result string);
  pipe_in_time : nat -> option (bool * result string);
  diagnostics_in_time : nat -> option string;
  (* the stages the installer prints, and how many of them have arrived *)
  stages : list bootstrap_stage;
  stages_ready : nat -> nat;
  stage_in_time : nat -> bool;
  (* milliseconds that pass before the clock is read, and that a sleep is late *)
  drift : nat -> nat;
}.

Inductive event := Spawned | Reaped (status : exit_status) | Killed | Waited | Removed | Progress (s : bootstrap_stage).

(** The newest event first. *)
Record sup := Sup { s_tick : nat; s_now : Z; s_pending : list bootstrap_stage; s_log : list event }.

(** The process was started and neither seen to end nor waited for. *)
Fixpoint alive (log : list event) : bool :=
  match log with
  | Spawned :: _ => true
  | (Reaped _ | Waited) :: _ => false
  | _ :: log => alive log
  | [] => false
  end.

(** The stages it was told, in order. *)
Fixpoint told (log : list event) : list bootstrap_stage :=
  match log with
  | Progress s :: log => told log ++ [s]
  | _ :: log => told log
  | [] => []
  end.

Section Supervisors.
Variable o : outside.
(* how std prints an exit status *)
Variable show_status : exit_status -> string.

#[local] Notation M := (eff sup error).

Definition tick : M nat := fun s => (Sup (S (s_tick s)) (s_now s) (s_pending s) (s_log s), inr (s_tick s)).

Definition emit (e : event) : M unit := update (fun s => Sup (s_tick s) (s_now s) (s_pending s) (e :: s_log s)).

Definition pass (ms : Z) : M unit := update (fun s => Sup (s_tick s) (s_now s + ms) (s_pending s) (s_log s)).

(** [Instant::now()] *)
Definition now : M Z := n ← tick; pass (Z.of_nat (drift o n)) ;; read s_now.

Definition sleep (ms : Z) : M unit := n ← tick; pass (ms + Z.of_nat (drift o n)).

(** [let _ = child.kill(); let _ = child.wait();] *)
Definition kill_and_wait : M unit := emit Killed ;; emit Waited.

(** [loop]: [inl] goes round again, [inr] breaks; [None] is the end of the fuel. *)
Fixpoint looped {A B} (body : A -> M (A + B)) (fuel : nat) (a : A) : M (option B) :=
  match fuel with
  | O => mret None
  | S fuel =>
      r ← body a;
      match r with
      | inl a => looped body fuel a
      | inr b => mret (Some b)
      end
  end.

(** ** A command over the management key *)

(** The loop's variable is what was read of the output, if it was. *)
Definition collect_output (output : option string) : M (result (option string)) :=
  match output with
  | Some value => mret (Ok (Some value))
  | None =>
      n ← tick;
      match try_output o n with
      | Received (Ok value) =>
          if SSH_OUTPUT_LIMIT <? slen value then kill_and_wait ;; mret (Err (Msg "managed server SSH output is too large"))
          else mret (Ok (Some value))
      | Received (Err e) => kill_and_wait ;; mret (Err e)
      | Disconnected => kill_and_wait ;; mret (Err (Msg "failed to read SSH output"))
      | Empty => mret (Ok None)
      end
  end.

(** The process has ended. *)
Definition finish_ssh (remote : string) (input_failed : bool) (status : exit_status) (output : option string) : M (result string) :=
  value ← match output with
          | Some value => mret (Ok value)
          | None =>
              now ;; n ← tick;
              mret (match output_in_time o n with
                    | Some r => r
                    | None => Err (Msg "managed server SSH output timed out; remote outcome is unknown")
                    end)
          end;
  match value with
  | Err e => mret (Err e)
  | Ok value =>
      if SSH_OUTPUT_LIMIT <? slen value then mret (Err (Msg "managed server SSH output is too large"))
      else if negb (success status) then
        n ← tick;
        mret (Err (ssh_command_error show_status status (default ""%string (diagnostics_in_time o n)) remote))
      else if input_failed : bool then mret (Err (Msg "managed server SSH command input failed"))
      else mret (with_context "managed server returned invalid text" (ok_or (utf8_string value) "invalid utf-8"))
  end.

Definition ssh_round (remote : string) (input_failed : bool) (deadline : Z) (output : option string) : M (option string + result string) :=
  output ← collect_output output;
  match output with
  | Err e => mret (inr (Err e))
  | Ok output =>
      n ← tick;
      match try_wait o n with
      | Err e => kill_and_wait ;; mret (inr (Err e))
      | Ok (Some status) => emit (Reaped status) ;; r ← finish_ssh remote input_failed status output; mret (inr r)
      | Ok None =>
          t ← now;
          if deadline <=? t then kill_and_wait ;; mret (inr (Err (Msg "managed server SSH command timed out")))
          else sleep 50 ;; mret (inl output)
      end
  end.

Definition key_ssh_with_command (fuel : nat) (remote : string) (input : option string) (timeout : Z) : M (option (result string)) :=
  require (input_fits input) (Msg "managed server command input is too large") ;;
  of_result (known_hosts o) ;;
  match spawn o with
  | Err e => emit Removed ;; mret (Some (Err (Ctx "failed to run SSH" e)))
  | Ok _ =>
      emit Spawned ;;
      let input_failed := match input with Some _ => bool_decide (is_Some (feed o)) | None => false end in
      t ← now;
      r ← looped (ssh_round remote input_failed (t + timeout)) fuel None;
      emit Removed ;;
      mret r
  end.

(** ** The installer over a password *)

Definition report (n : nat) : M unit := fun s =>
  (Sup (s_tick s) (s_now s) (drop n (s_pending s)) (rev (Progress <$> take n (s_pending s)) ++ s_log s), inr tt).

Definition password_round (deadline : Z) (_ : unit) : M (unit + unit) :=
  n ← tick;
  status ← of_result (try_wait o n);
  match status with
  | Some _ => mret (inr tt)
  | None =>
      n ← tick;
      report (stages_ready o n) ;;
      t ← now;
      if deadline <=? t
      then kill_and_wait ;; throw (Msg "Истекло время настройки VPS. Проверьте состояние сервера перед повторной попыткой.")
      else sleep 50 ;; mret (inl tt)
  end.

(** [while let Ok(stage) = stage_receiver.recv_timeout(..)]: the channel holds what is pending. *)
Fixpoint drain (pending : list bootstrap_stage) : M unit :=
  match pending with
  | [] => mret tt
  | _ :: pending =>
      n ← tick;
      if stage_in_time o n then report 1 ;; drain pending else mret tt
  end.

Definition run_password_ssh (fuel : nat) (timeout : Z) : M (option unit) :=
  of_result (with_context "failed to run sshpass" (spawn o)) ;;
  emit Spawned ;;
  match feed o with
  | Some e => kill_and_wait ;; throw (Ctx "failed to send SSH password" e)
  | None =>
      t ← now;
      ended ← looped (password_round (t + timeout)) fuel tt;
      match ended with
      | None => mret None
      | Some _ =>
          n ← tick;
          status ← of_result (wait o n);
          emit (Reaped status) ;;
          pending ← read s_pending;
          drain pending ;;
          n ← tick;
          of_result (bootstrap_result show_status status (default ""%string (diagnostics_in_time o n))) ;;
          mret (Some tt)
      end
  end.

(** ** A command of the LAN discovery *)

(** One of the two pipes, whichever is first. *)
Definition receive_pipe (outputs : string * string) : M (string * string) :=
  now ;; n ← tick;
  '(is_stdout, bytes) ← of_result (ok_or (pipe_in_time o n) "timed out waiting on channel");
  bytes ← of_result bytes;
  require (slen bytes <=? MAX_BYTES) (Msg "discovery output limit") ;;
  mret (if is_stdout : bool then (bytes, outputs.2) else (outputs.1, bytes)).

Definition command_round (program stdout stderr : string) (deadline : Z) (_ : unit) : M (unit + string) :=
  n ← tick;
  status ← of_result (try_wait o n);
  match status with
  | Some status =>
      emit (Reaped status) ;;
      require (success status) (Msg (program +:+ " failed (" +:+ show_status status +:+ "): " +:+ stderr)) ;;
      text ← of_result (ok_or (utf8_string stdout) "invalid utf-8 sequence");
      mret (inr text)
  | None =>
      t ← now;
      require (t <? deadline) (Msg "discovery deadline") ;;
      sleep 5 ;;
      mret (inl tt)
  end.

Definition command (fuel : nat) (program : string) (deadline : Z) : M (option string) :=
  t ← now;
  require (t <? deadline) (Msg "discovery deadline") ;;
  of_result (spawn o) ;;
  emit Spawned ;;
  result ← try (
    outputs ← receive_pipe (""%string, ""%string);
    '(stdout, stderr) ← receive_pipe outputs;
    looped (command_round program stdout stderr deadline) fuel tt);
  match result with
  | Ok r => mret r
  | Err e => kill_and_wait ;; throw e
  end.
End Supervisors.

(** ** Programs that are only waited for *)

(** What a program left behind: its output, and its diagnostics as text. *)
Record finished := Finished { e_status : exit_status; e_stdout : string; e_stderr : string }.

(** [write_all(..)?] *)
Definition fed (e : option error) : result unit := match e with Some e => Err e | None => Ok tt end.

(** Answers of the calls: starting it, feeding it and waiting for it. *)
Definition fingerprint (spawn : result unit) (feed : option error) (output : result finished) : result string :=
  _ ← with_context "failed to run ssh-keygen" spawn;
  _ ← fed feed;
  output ← output;
  _ ← ensure (success (e_status output)) "ssh-keygen rejected SSH host key";
  with_context "invalid ssh-keygen output" (ok_or (utf8_string (e_stdout output)) "invalid utf-8").

Definition ssh_keygen (output : result finished) : result string :=
  output ← output;
  _ ← ensure (success (e_status output)) "ssh-keygen failed";
  with_context "invalid ssh-keygen output" (ok_or (utf8_string (e_stdout output)) "invalid utf-8").

Definition run_command (status : result exit_status) : result unit :=
  status ← status;
  ensure (success status) "command failed".

Definition run_nft (spawn : result unit) (feed : option error) (output : result finished) : result unit :=
  _ ← with_context "failed to start nft" spawn;
  _ ← with_context "failed to write nft transaction" (fed feed);
  output ← with_context "failed to wait for nft" output;
  if success (e_status output) then Ok tt else Err (Msg ("nft transaction failed: " +:+ trim (e_stderr output))).

(** [run] of wireguard-status. *)
Definition wg_run (description : string) (output : result finished) : result string :=
  output ← with_context ("failed to run " +:+ description) output;
  if success (e_status output)
  then with_context "command returned non-UTF-8 output" (ok_or (utf8_string (e_stdout output)) "invalid utf-8")
  else Err (Msg (description +:+ " failed: " +:+ trim (e_stderr output))).

(** [run_with_input] of gofro-server. *)
Definition run_with_input (description : string) (spawn : result unit) (feed : option error) (output : result finished) : result string :=
  _ ← with_context ("failed to run " +:+ description) spawn;
  _ ← with_context "failed to write command input" (fed feed);
  output ← with_context ("failed to wait for " +:+ description) output;
  if success (e_status output)
  then with_context "command returned non-UTF-8 output" (ok_or (utf8_string (e_stdout output)) "invalid utf-8")
  else Err (Msg (description +:+ " failed: " +:+ trim (e_stderr output))).

(** ** Loops that end *)

(** A loop whose every further round finds the deadline ahead and lasts [d] comes to an end. *)
Lemma looped_ends {A B} (body : A -> eff sup error (A + B)) d deadline :
  0 < d -> (forall a s s' a', body a s = (s', inr (inl a')) -> s_now s < deadline /\ s_now s + d <= s_now s') ->
  forall fuel a s s', deadline - s_now s <= d * Z.of_nat fuel -> looped body (S fuel) a s <> (s', inr None).
Proof.
  intros Hd Hstep. induction fuel as [| fuel IH]; intros a s s' Hfuel Hr; cbn [looped] in Hr;
    (apply bind_run in Hr as [(e & _ & [=]) | (s1 & [a1 | b] & Hb & Hr)]; [| by injection Hr]); apply Hstep in Hb as [Hnow Hlate].
  - lia.
  - by apply (IH a1 s1 s') in Hr; [| lia].
Qed.

(** What every round keeps, and what the last one leaves. *)
Lemma looped_run {A B} (body : A -> eff sup error (A + B)) (I : sup -> Prop) (Q : B -> sup -> Prop) (E : error -> sup -> Prop) :
  (forall a s s' r, I s -> body a s = (s', r) -> match r with inl e => E e s' | inr (inl _) => I s' | inr (inr b) => Q b s' end) ->
  forall fuel a s s' r, I s -> looped body fuel a s = (s', r) ->
  match r with inl e => E e s' | inr (Some b) => Q b s' | inr None => True end.
Proof.
  intros Hbody. induction fuel as [| fuel IH]; intros a s s' r Hs Hr; cbn [looped] in Hr; [by injection Hr as <- <- |].
  apply bind_run in Hr as [(e & Hb & ->) | (s1 & x & Hb & Hr)]; [by apply (Hbody _ _ _ _ Hs Hb) |].
  pose proof (Hbody _ _ _ _ Hs Hb) as Hx. destruct x as [a1 | b]; [by eapply IH | by injection Hr as <- <-].
Qed.

Section Safety.
Variable o : outside.
Variable show_status : exit_status -> string.

Ltac run_out := unfold kill_and_wait, now, sleep, pass, emit, tick, update, read, mbind, eff_bind, mret, eff_ret in *; cbn in *.

Lemma collect_output_run output s s' r : collect_output o output s = (s', r) ->
  exists x, r = inr x /\ s_now s' = s_now s /\ s_log s' = (if x then [] else [Waited; Killed]) ++ s_log s.
Proof.
  unfold collect_output. destruct output as [v |]; [by intros [= <- <-]; eexists |].
  run_out. destruct (try_output o _) as [| | [v | e]]; run_out; [.. | destruct (_ <? _)|]; intros [= <- <-]; by eexists.
Qed.

Lemma finish_ssh_run remote input_failed status output s s' r : finish_ssh o show_status remote input_failed status output s = (s', r) ->
  exists run, r = inr (ssh_result show_status run remote) /\ s_log s' = s_log s
    /\ forall text, ssh_result show_status run remote = Ok text -> success status = true.
Proof.
  unfold finish_ssh. intros [(e & Hv & _) | (s1 & value & Hv & Hr)]%bind_run.
  { destruct output; run_out; discriminate Hv. }
  assert (s_log s1 = s_log s) as Hlog by (destruct output; run_out; by injection Hv as <- _).
  destruct value as [value | e]; [| exists (NotRun e); by injection Hr as <- <-].
  destruct (SSH_OUTPUT_LIMIT <? slen value) eqn:El.
  { exists (Ended status value "" true). cbn. rewrite El. by injection Hr as <- <-. }
  destruct (success status) eqn:Es; cbn [negb] in Hr.
  - exists (Ended status value "" (negb input_failed)). cbn. rewrite El, Es. cbn. rewrite negb_involutive.
    destruct input_failed; by injection Hr as <- <-.
  - run_out. injection Hr as <- <-. eexists (Ended status value _ true). cbn. by rewrite El, Es.
Qed.

(** A round of the command over the management key: the process still runs, or is over. *)
Lemma ssh_round_run remote input_failed deadline output s s' r :
  ssh_round o show_status remote input_failed deadline output s = (s', r) ->
  match r with
  | inl _ => False
  | inr (inl _) => s_log s' = s_log s /\ s_now s < deadline /\ s_now s + 50 <= s_now s'
  | inr (inr res) => exists l run, s_log s' = l ++ s_log s /\ alive (s_log s') = false /\ Removed ∉ l
      /\ res = ssh_result show_status run remote
      /\ forall text, res = Ok text -> exists status, success status = true /\ l = [Reaped status]
  end.
Proof.
  unfold ssh_round. intros [(e & (x & [=] & _)%collect_output_run & _) | (s1 & x & (x' & [= <-] & Hnow & Hlog) %collect_output_run & Hr)]%bind_run.
  destruct x as [out | e]; cbn [app] in Hlog.
  2: { injection Hr as <- <-. exists [Waited; Killed], (NotRun e). rewrite Hlog. by split_and!; [| | set_solver | |]. }
  apply bind_run in Hr as [(e & [=] & _) | (s2 & n & [= <- <-] & Hr)].
  destruct (try_wait o _) as [[status |] | e].
  - apply bind_run in Hr as [(e & [=] & _) | (s3 & [] & [= <-] & Hr)].
    apply bind_run in Hr as [(e & (run & [=] & _)%finish_ssh_run & _) | (s4 & res & (run & [= ->] & Hl & Hok)%finish_ssh_run & [= <- <-])].
    cbn in Hl. exists [Reaped status], run. rewrite Hl, Hlog. split_and!; [done | done | set_solver | done |]. intros text Ht. eauto.
  - run_out. destruct (deadline <=? _) eqn:El; injection Hr as <- <-; cbn.
    + eexists [Waited; Killed], (NotRun _). rewrite Hlog. by split_and!; [| | set_solver | |].
    + apply Z.leb_gt in El. rewrite Hlog, <- Hnow. split_and!; [done | lia | lia].
  - run_out. injection Hr as <- <-. exists [Waited; Killed], (NotRun e). cbn. rewrite Hlog. by split_and!; [| | set_solver | |].
Qed.

(** C20. Whatever ssh, its pipes and the clock do, a command over the management key
    comes back after a number of rounds that its time limit bounds; by then its process has
    ended or was killed and waited for, the file of known hosts is removed last, and
    the answer is one of those that the operations on managed servers are verified
    against: a text is answered only by a process that ended well by itself,
    never by one that was killed. *)
Theorem ssh_supervised fuel remote input timeout s s' r
    (Hidle : alive (s_log s) = false) (Hfuel : timeout <= 50 * Z.of_nat fuel)
    (Hr : key_ssh_with_command o show_status (S fuel) remote input timeout s = (s', r)) :
  (exists e, r = inl e /\ s_log s' = s_log s)
  \/ exists l run, r = inr (Some (ssh_result show_status run remote))
       /\ s_log s' = Removed :: l ++ s_log s /\ Removed ∉ l /\ alive (s_log s') = false
       /\ forall text, ssh_result show_status run remote = Ok text -> exists status, success status = true /\ l = [Reaped status; Spawned].
Proof.
  unfold key_ssh_with_command in Hr.
  apply bind_run in Hr as [(e & [-> _]%require_run & ->) | (s1 & [] & [-> _]%require_run & Hr)]; [left; by eexists |].
  apply bind_run in Hr as [(e & [-> _]%of_result_answer & ->) | (s1 & [] & [-> _]%of_result_answer & Hr)]; [left; by eexists |].
  right. destruct (spawn o) as [u | e].
  2: { run_out. injection Hr as <- <-. exists [], (NotRun (Ctx "failed to run SSH" e)). by split_and!; [| | set_solver | |]. }
  apply bind_run in Hr as [(e & [=] & _) | (s1 & [] & [= <-] & Hr)].
  apply bind_run in Hr as [(e & [=] & _) | (s2 & t & [= <- <-] & Hr)]. cbn in Hr.
  set (input_failed := match input with Some _ => _ | None => _ end) in Hr. set (s2 := Sup _ _ _ _) in Hr.
  set (deadline := _ + timeout) in Hr.
  assert (forall s3, looped (ssh_round o show_status remote input_failed deadline) (S fuel) None s2 <> (s3, inr None)) as Hends.
  { intros s3. apply (looped_ends _ 50 deadline); [done | | unfold deadline, s2; cbn; lia].
    intros a sa sb a' Hb. by apply ssh_round_run in Hb as (_ & H1 & H2). }
  pose proof (looped_run (ssh_round o show_status remote input_failed deadline) (fun s' => s_log s' = Spawned :: s_log s)
    (fun res s' => exists l run, s_log s' = l ++ Spawned :: s_log s /\ alive (s_log s') = false /\ Removed ∉ l
      /\ res = ssh_result show_status run remote
      /\ forall text, res = Ok text -> exists status, success status = true /\ l = [Reaped status]) (fun _ _ => False)) as Hloop.
  specialize (Hloop ltac:(intros a sa sb x Ha Hb; apply ssh_round_run in Hb; rewrite Ha in Hb;
    destruct x as [e | [o' | res]]; [done | by destruct Hb | done]) (S fuel) None s2).
  apply bind_run in Hr as [(e & Hl & ->) | (s3 & res & Hl & Hr)]; [by apply (Hloop _ (inl e)) in Hl |].
  destruct res as [res |]; [| by apply Hends in Hl].
  apply Hloop in Hl as (l & run & Hlog & Halive & Hl & -> & Hok); [| done].
  run_out. injection Hr as <- <-. exists (l ++ [Spawned]), run. cbn. rewrite <- app_assoc. cbn. rewrite <- Hlog.
  split_and!; [done | done | set_solver | done |]. intros text Ht. destruct (Hok text Ht) as (status & Hs & ->). by exists status.
Qed.

(** ** The installer *)

Lemma alive_progress l log : alive (rev (Progress <$> l) ++ log) = alive log.
Proof. induction l as [| x l IH] using rev_ind; [done |]. rewrite fmap_app, rev_app_distr. cbn. apply IH. Qed.

Lemma told_progress l log : told (rev (Progress <$> l) ++ log) = told log ++ l.
Proof.
  induction l as [| x l IH] using rev_ind; [by rewrite app_nil_r |]. rewrite fmap_app, rev_app_distr, app_assoc, <- IH. done.
Qed.

(** What was told and what is still in the channel. *)
Definition in_order (s : sup) : Prop := told (s_log s) ++ s_pending s = stages o.

Lemma report_run n s s' r : report n s = (s', r) ->
  r = inr tt /\ s_now s' = s_now s /\ alive (s_log s') = alive (s_log s) /\ (in_order s -> in_order s')
  /\ s_pending s' = drop n (s_pending s) /\ told (s_log s') = told (s_log s) ++ take n (s_pending s).
Proof.
  intros [= <- <-]. unfold in_order. cbn [s_log s_pending s_now]. rewrite alive_progress, told_progress, <- app_assoc, take_drop. by split_and!.
Qed.

Lemma drain_run pending : forall s s' r, s_pending s = pending -> drain o pending s = (s', r) ->
  r = inr tt /\ alive (s_log s') = alive (s_log s) /\ (in_order s -> in_order s')
  /\ exists l, s_log s' = rev (Progress <$> l) ++ s_log s.
Proof.
  induction pending as [| x pending IH]; intros s s' r Hp Hr; cbn [drain] in Hr; [injection Hr as <- <-; split_and!; try done; by exists [] |].
  apply bind_run in Hr as [(e & [=] & _) | (s1 & n & [= <- <-] & Hr)].
  destruct (stage_in_time o _); [| injection Hr as <- <-; split_and!; try done; by exists []].
  apply bind_run in Hr as [(e & ([=] & _)%report_run & _) | (s2 & [] & Hs & Hr)].
  pose proof Hs as (_ & _ & Ha & Ho & Hd & _)%report_run. cbn in Hd, Ha. rewrite Hp in Hd.
  assert (s_log s2 = [Progress x] ++ s_log s) as Hl by (injection Hs as <-; cbn; by rewrite Hp).
  apply IH in Hr as (-> & Ha2 & Ho2 & l & Hl2); [| done]. split_and!; [done | by rewrite Ha2 | auto |].
  exists (x :: l). rewrite Hl2, Hl. cbn. by rewrite <- app_assoc.
Qed.

Lemma password_round_time deadline u s s' : password_round o deadline u s = (s', inr (inl tt)) -> s_now s < deadline /\ s_now s + 50 <= s_now s'.
Proof.
  unfold password_round. intros Hr.
  apply bind_run in Hr as [(e & _ & [=]) | (s1 & n & [= <- <-] & Hr)].
  apply bind_run in Hr as [(e & _ & [=]) | (s1 & status & [-> _]%of_result_answer & Hr)].
  destruct status as [status |]; [by injection Hr |].
  apply bind_run in Hr as [(e & _ & [=]) | (s1 & n & [= <- <-] & Hr)].
  apply bind_run in Hr as [(e & _ & [=]) | (s2 & [] & (_ & Hn & _)%report_run & Hr)]. cbn in Hn. run_out. unfold throw in Hr.
  destruct (deadline <=? _) eqn:El; [done |]. apply Z.leb_gt in El. injection Hr as <-. cbn. rewrite <- Hn. lia.
Qed.

Lemma password_round_run deadline u s s' r : password_round o deadline u s = (s', r) -> alive (s_log s) = true -> in_order s ->
  in_order s' /\ match r with
  | inl e => alive (s_log s') = false \/ exists n, try_wait o n = Err e
  | inr _ => alive (s_log s') = true
  end.
Proof.
  unfold password_round. intros Hr Ha Ho.
  apply bind_run in Hr as [(e & [=] & _) | (s1 & n & [= <- <-] & Hr)].
  apply bind_run in Hr as [(e & [-> He]%of_result_answer & ->) | (s1 & status & [-> Hw]%of_result_answer & Hr)]; [by split; eauto |].
  destruct status as [status |]; [by injection Hr as <- <- |].
  apply bind_run in Hr as [(e & [=] & _) | (s1 & n & [= <- <-] & Hr)].
  apply bind_run in Hr as [(e & ([=] & _)%report_run & _) | (s2 & [] & (_ & Hn & Ha2 & Ho2 & _)%report_run & Hr)].
  specialize (Ho2 Ho). cbn in Hn, Ha2. rewrite Ha in Ha2. run_out. unfold throw in Hr.
  destruct (deadline <=? _) eqn:El; injection Hr as <- <-; (split; [exact Ho2 |]); [by left |].
  cbn. by rewrite Ha2.
Qed.

(** The installer's session comes back within its time limit too: the stages are reported
    in the order they were printed, and success is told only of an installer that
    ended well.  Only a failing wait of the operating system can leave a process. *)
Theorem installer_supervised fuel timeout s s' r
    (Hfresh : s_log s = [] /\ s_pending s = stages o) (Hfuel : timeout <= 50 * Z.of_nat fuel)
    (Hr : run_password_ssh o show_status (S fuel) timeout s = (s', r)) :
  r <> inr None
  /\ told (s_log s') `prefix_of` stages o
  /\ (alive (s_log s') = false \/ exists n e, r = inl e /\ (try_wait o n = Err e \/ wait o n = Err e))
  /\ (r = inr (Some tt) -> exists status l log, success status = true
       /\ s_log s' = rev (Progress <$> l) ++ Reaped status :: log /\ alive log = true).
Proof.
  destruct Hfresh as [Hlog Hpending]. assert (in_order s) as Ho by (unfold in_order; by rewrite Hlog, Hpending).
  assert (forall s, in_order s -> told (s_log s) `prefix_of` stages o) as Hprefix by (intros s0 <-; by apply prefix_app_r).
  unfold run_password_ssh in Hr.
  apply bind_run in Hr as [(e & [-> _]%of_result_answer & ->) | (s1 & [] & [-> _]%of_result_answer & Hr)].
  { split_and!; [done | by apply Hprefix | left; by rewrite Hlog | done]. }
  apply bind_run in Hr as [(e & [=] & _) | (s1 & [] & [= <-] & Hr)]. destruct (feed o) as [e |].
  { run_out. injection Hr as <- <-. split_and!; [done | by apply (Hprefix s) | by left | done]. }
  apply bind_run in Hr as [(e & [=] & _) | (s2 & t & [= <- <-] & Hr)]. cbn in Hr.
  set (s2 := Sup _ _ _ _) in Hr. set (deadline := _ + timeout) in Hr.
  pose (I := fun s => alive (s_log s) = true /\ in_order s). assert (I s2) as H2 by done.
  assert (forall s3, looped (password_round o deadline) (S fuel) tt s2 <> (s3, inr None)) as Hends.
  { intros s3. apply (looped_ends _ 50 deadline); [done | | unfold deadline, s2; cbn; lia].
    intros [] sa sb [] Hb. by eapply password_round_time. }
  pose proof (looped_run (password_round o deadline) I (fun _ => I)
    (fun e s' => in_order s' /\ (alive (s_log s') = false \/ exists n, try_wait o n = Err e))) as Hloop.
  specialize (Hloop ltac:(intros a sa sb x [Ha1 Ha2] Hb; apply password_round_run in Hb as [Hb1 Hb2]; [| done..];
    destruct x as [e | [u | u]]; by split) (S fuel) tt s2).
  apply bind_run in Hr as [(e & Hl & ->) | (s3 & ended & Hl & Hr)].
  { apply (Hloop _ (inl e)) in Hl as [Ho' Hend]; [| done]. split_and!; [done | by apply Hprefix | | done].
    destruct Hend as [| (n & Hn)]; [by left | right; eauto]. }
  destruct ended as [u |]; [| by apply Hends in Hl]. apply Hloop in Hl as [Ha3 Ho3]; [| done].
  apply bind_run in Hr as [(e & [=] & _) | (s4 & n & [= <- <-] & Hr)].
  apply bind_run in Hr as [(e & [-> He]%of_result_answer & ->) | (s4 & status & [-> _]%of_result_answer & Hr)].
  { split_and!; [done | by apply (Hprefix s3) | right; eauto | done]. }
  apply bind_run in Hr as [(e & [=] & _) | (s4 & [] & [= <-] & Hr)].
  apply bind_run in Hr as [(e & [=] & _) | (s4 & pending & [= <- <-] & Hr)].
  apply bind_run in Hr as [(e & ([=] & _)%drain_run & _) | (s5 & [] & (_ & Ha5 & Ho5 & l & Hl5)%drain_run & Hr)]; [done | | done].
  specialize (Ho5 Ho3). cbn in Ha5, Hl5.
  apply bind_run in Hr as [(e & [=] & _) | (s6 & n & [= <- <-] & Hr)].
  apply bind_run in Hr as [(e & [-> _]%of_result_answer & ->) | (s6 & [] & [-> Hres]%of_result_answer & [= <- <-])].
  - split_and!; [done | by apply (Hprefix s5) | by left | done].
  - split_and!; [done | by apply (Hprefix s5) | by left |]. intros _. exists status, l, (s_log s3). split_and!; [| done | done].
    unfold bootstrap_result in Hres. by destruct (success status).
Qed.

(** ** The discovery *)

Lemma receive_pipe_run outputs s s' r : receive_pipe o outputs s = (s', r) ->
  s_log s' = s_log s /\ s_now s <= s_now s'
  /\ forall outputs', r = inr outputs' -> slen outputs.1 <= MAX_BYTES -> slen outputs'.1 <= MAX_BYTES.
Proof.
  unfold receive_pipe. intros Hr.
  apply bind_run in Hr as [(e & [=] & _) | (s1 & t & [= <- <-] & Hr)].
  apply bind_run in Hr as [(e & [=] & _) | (s1 & n & [= <- <-] & Hr)]. cbn in Hr.
  set (s1 := Sup _ _ _ _) in Hr. assert (s_log s1 = s_log s /\ s_now s <= s_now s1) as [Hl Hn] by (unfold s1; cbn; split; [done | lia]).
  clearbody s1. rewrite <- Hl. clear Hl. revert Hr.
  intros [(e & [-> _]%of_result_answer & ->) | (s2 & [is_stdout bytes] & [-> _]%of_result_answer & Hr)]%bind_run; [by split_and! |].
  apply bind_run in Hr as [(e & [-> _]%of_result_answer & ->) | (s2 & b & [-> _]%of_result_answer & Hr)]; [by split_and! |].
  apply bind_run in Hr as [(e & [-> _]%require_run & ->) | (s2 & [] & [-> [[Hlen _] | [_ [=]]]]%require_run & [= <- <-])]; [by split_and! |].
  split_and!; [done | done |]. intros outputs' [= <-] Ho. apply Z.leb_le in Hlen. by destruct is_stdout.
Qed.

Lemma command_round_run program stdout stderr deadline u s s' r : command_round o show_status program stdout stderr deadline u s = (s', r) ->
  match r with
  | inl _ => True
  | inr (inl _) => s_log s' = s_log s /\ s_now s < deadline /\ s_now s + 5 <= s_now s'
  | inr (inr text) => utf8_string stdout = Some text /\ exists status, success status = true /\ s_log s' = Reaped status :: s_log s
  end.
Proof.
  unfold command_round. intros Hr.
  apply bind_run in Hr as [(e & [=] & _) | (s1 & n & [= <- <-] & Hr)].
  apply bind_run in Hr as [(e & _ & ->) | (s1 & status & [-> _]%of_result_answer & Hr)]; [done |]. destruct status as [status |].
  - apply bind_run in Hr as [(e & [=] & _) | (s2 & [] & [= <-] & Hr)].
    apply bind_run in Hr as [(e & _ & ->) | (s2 & [] & [-> [[Hs _] | [_ [=]]]]%require_run & Hr)]; [done |].
    apply bind_run in Hr as [(e & _ & ->) | (s2 & text & [-> Ht%ok_or_ok]%of_result_answer & [= <- <-])]; [done |]. by eauto.
  - apply bind_run in Hr as [(e & [=] & _) | (s2 & t & [= <- <-] & Hr)].
    apply bind_run in Hr as [(e & _ & ->) | (s2 & [] & [-> [[Ht%Z.ltb_lt _] | [_ [=]]]]%require_run & Hr)]; [done |].
    run_out. injection Hr as <- <-. cbn in *. split_and!; [done | lia | lia].
Qed.

(** A command of the discovery comes back by its deadline's rounds with no process
    left, and answers only what a process that ended well printed, within the limit. *)
Theorem discovery_supervised fuel program deadline s s' r
    (Hidle : alive (s_log s) = false) (Hfuel : deadline - s_now s <= 5 * Z.of_nat fuel)
    (Hr : command o show_status (S fuel) program deadline s = (s', r)) :
  r <> inr None
  /\ alive (s_log s') = false
  /\ forall text, r = inr (Some text) -> slen text <= MAX_BYTES
       /\ exists status, success status = true /\ s_log s' = Reaped status :: Spawned :: s_log s.
Proof.
  unfold command in Hr.
  apply bind_run in Hr as [(e & [=] & _) | (s1 & t & [= <- <-] & Hr)].
  apply bind_run in Hr as [(e & [-> _]%require_run & ->) | (s1 & [] & [-> _]%require_run & Hr)]; [by split_and! |].
  apply bind_run in Hr as [(e & [-> _]%of_result_answer & ->) | (s1 & [] & [-> _]%of_result_answer & Hr)]; [by split_and! |].
  apply bind_run in Hr as [(e & [=] & _) | (s1 & [] & [= <-] & Hr)]. cbn in Hr. set (s1 := Sup _ _ _ _) in Hr.
  assert (s_now s <= s_now s1) as Hn by (unfold s1; cbn; lia).
  apply bind_run in Hr as [(e & Ht & _) | (s2 & res & Ht & Hr)]; apply try_run in Ht as [(x & Hx & [=]) | (e' & He & [=])]; subst res.
  2: { run_out. unfold throw in Hr. injection Hr as <- <-. by split_and!. }
  injection Hr as <- <-.
  apply bind_run in Hx as [(e & _ & [=]) | (s3 & outputs & (Hl3 & Hn3 & Hlen3)%receive_pipe_run & Hx)].
  specialize (Hlen3 _ eq_refl ltac:(done)).
  apply bind_run in Hx as [(e & _ & [=]) | (s4 & [stdout stderr] & (Hl4 & Hn4 & Hlen4)%receive_pipe_run & Hx)].
  specialize (Hlen4 _ eq_refl Hlen3). cbn in Hlen4. rewrite Hl3 in Hl4. destruct x as [text |].
  2: { exfalso. revert Hx. apply (looped_ends _ 5 deadline); [done | | lia]. intros a sa sb a' Hb. by apply command_round_run in Hb as (_ & H1 & H2). }
  pose proof (looped_run (command_round o show_status program stdout stderr deadline) (fun s' => s_log s' = s_log s1)
    (fun text s' => utf8_string stdout = Some text /\ exists status, success status = true /\ s_log s' = Reaped status :: s_log s1)
    (fun _ _ => True)) as Hloop.
  specialize (Hloop ltac:(intros a sa sb y Ha Hb; apply command_round_run in Hb; rewrite <- Ha;
    destruct y as [e | [u | v]]; [done | by destruct Hb as (-> & _) | done]) (S fuel) tt s4).
  apply Hloop in Hx as (Htext & status & Hs & Hlog); [| done].
  split_and!; [done | by rewrite Hlog |]. intros t' [= <-]. split; [| by exists status].
  unfold utf8_string in Htext. destruct (utf8_valid _); [by injection Htext as <- | done].
Qed.
End Safety.

(** ** A process that ends in its fourth round *)

Module SampleProcess.

Definition process : outside := {|
  known_hosts := Ok tt;
  spawn := Ok tt;
  feed := None;
  try_wait n := if (9 <=? n)%nat then Ok (Some (Exited 0)) else Ok None;
  wait _ := Ok (Exited 0);
  try_output n := if (4 <=? n)%nat then Received (Ok "gofro-server 0.5.26"%string) else Empty;
  output_in_time _ := None;
  pipe_in_time n := Some (Nat.even n, Ok "[]"%string);
  diagnostics_in_time _ := None;
  stages := [Inspect; Install; Authorize];
  stages_ready n := (n mod 2)%nat;
  stage_in_time n := (n <? 17)%nat;
  drift n := (3 * n)%nat;
|}.

Definition idle : sup := Sup 0 0 (stages process) [].

Definition show_status (s : exit_status) : string := match s with Exited _ => "exit status" | Signalled _ => "signal" end.

Definition stuck : outside := {|
  known_hosts := Ok tt;
  spawn := Ok tt;
  feed := None;
  try_wait _ := Ok None;
  wait _ := Ok (Exited 0);
  try_output _ := Empty;
  output_in_time _ := None;
  pipe_in_time _ := None;
  diagnostics_in_time _ := None;
  stages := [];
  stages_ready _ := 0%nat;
  stage_in_time _ := false;
  drift _ := 0%nat;
|}.

(** A process that never ends is killed when its time is up. *)
Example stuck_is_killed :
  let '(s, r) := key_ssh_with_command stuck show_status 100 "update" None 300 idle in
  r = inr (Some (Err (Msg "managed server SSH command timed out"))) /\ s_log s = [Removed; Waited; Killed; Spawned] /\ s_now s = 300.
Proof. by vm_compute. Qed.
End SampleProcess.

(** A rule set, a key or the output of wg counts only when its program took the whole input and ended well. *)
Lemma programs_end_well description spawn feed output :
  (run_nft spawn feed output = Ok tt <-> spawn = Ok tt /\ feed = None /\ exists out, output = Ok out /\ success (e_status out) = true)
  /\ forall text, fingerprint spawn feed output = Ok text \/ run_with_input description spawn feed output = Ok text ->
       spawn = Ok tt /\ feed = None /\ exists out, output = Ok out /\ success (e_status out) = true /\ e_stdout out = text.
Proof.
  unfold run_nft, fingerprint, run_with_input, fed, utf8_string.
  destruct spawn as [[] |], feed, output as [[st so se] |]; cbn; try destruct (success st) eqn:E; cbn;
    try destruct (utf8_valid _); (split; [split; [intros [=] | intros (G1 & G2 & out & G3 & G4)] | intros text [[=] | [=]]]); subst;
    try (injection G3 as <-); cbn in *; try congruence; (split_and!; [done | done |]); eexists; split_and!; done.
Qed.

Notation sample_ssh := (key_ssh_with_command SampleProcess.process SampleProcess.show_status 2401 "version" None 120000 SampleProcess.idle).

Lemma ssh_supervised_witness :
  sample_ssh.2 = inr (Some (Ok "gofro-server 0.5.26"%string))
  /\ ((exists e, sample_ssh.2 = inl e /\ s_log sample_ssh.1 = [])
      \/ exists l run, sample_ssh.2 = inr (Some (ssh_result SampleProcess.show_status run "version"))
           /\ s_log sample_ssh.1 = Removed :: l ++ [] /\ Removed ∉ l /\ alive (s_log sample_ssh.1) = false
           /\ forall text, ssh_result SampleProcess.show_status run "version" = Ok text
                -> exists status, success status = true /\ l = [Reaped status; Spawned]).
Proof.
  split; [by vm_compute |].
  apply (ssh_supervised SampleProcess.process SampleProcess.show_status 2400 "version" None 120000 SampleProcess.idle);
    [reflexivity | lia | apply surjective_pairing].
Defined.

Notation sample_installer := (run_password_ssh SampleProcess.process SampleProcess.show_status 601 30000 SampleProcess.idle).

Lemma installer_supervised_witness :
  sample_installer.2 = inr (Some tt) /\ told (s_log sample_installer.1) = stages SampleProcess.process
  /\ told (s_log sample_installer.1) `prefix_of` stages SampleProcess.process.
Proof.
  split_and!; [by vm_compute | by vm_compute |].
  destruct (installer_supervised SampleProcess.process SampleProcess.show_status 600 30000 SampleProcess.idle sample_installer.1 sample_installer.2)
    as (_ & Hp & _); [by split | lia | apply surjective_pairing | exact Hp].
Defined.
