(* ===== verification/Managed.v ===== *)
(** * Managed servers (crates/gofro-agent/src/managed.rs and managed/bootstrap.rs)

    What the panel does to a server over SSH: enrolling it, asking for its state,
    and changing it.  Around these functions are the class [Vps] - the agent's own
    configuration, the pins of pins.rs, the programs of ssh.rs - and the JSON that
    serde_json reads and prints; anything may happen to the configuration between
    two calls, as other requests hold its lock then. *)

From stdpp Require Import base gmap sets strings list.
From Stdlib Require Import Ascii ZArith Lia.
From S2P Require Import Prelude RustStd IpAddr Net Effects Peers Model Config Ssh.

(** A command over SSH: the host, what may be trusted, the command, its input and its deadline. *)
Record ssh_call := SshCall {
  sc_host : string;
  sc_port : Z;
  sc_known_hosts : string;
  sc_remote : string;
  sc_input : option string;
  sc_timeout : Z;
}.

Record password_call := PasswordCall { pc_host : string; pc_port : Z; pc_known_hosts : string; pc_password : string; pc_remote : string }.

(** How a session of sshpass ended, after its pipe was read like this. *)
Inductive password_run :=
| NoSession (reads : list (list ascii)) (e : error)
| Session (reads : list (list ascii)) (status : exit_status) (stderr : string).

Class Vps (W : Type) := {
  (* AppState.config, and the file as serde_json reads it *)
  the_config : W -> controller_config;
  saved_config : W -> option controller_config;
  (* AppState.managed_operations: whether it is held, and waiting for it *)
  operation_running : W -> bool;
  wait_operation : W -> W * result unit;
  report : bootstrap_stage -> W -> W;
  (* managed/pins.rs *)
  preserve_host_pins : controller_config -> W -> W * result unit;
  pin_host : string -> Z -> string -> W -> W * result unit;
  (* the file id_ed25519 of the management directory; ssh-keygen *)
  key_present : W -> bool;
  management_key : W -> W * result unit;
  management_public_key : W -> W * result string;
  (* ssh-keyscan's output, the fingerprint ssh-keygen prints, and writing a known_hosts file *)
  keyscan : string -> Z -> W -> W * result string;
  fingerprint : string -> W -> W * result string;
  write_known_hosts : string -> W -> W * result unit;
  ssh : ssh_call -> W -> W * ssh_run;
  sshpass : password_call -> W -> W * password_run;
  (* controller.rs *)
  add_server : server_profile -> W -> W * result unit;
}.

(** ** Texts *)

Definition QUOTE : ascii := of_code 34.

(** A text written with [~] for the double quote. *)
Definition dq (s : string) : string := str ((fun a => if eqb_ascii a "~"%char then QUOTE else a) <$> chars s).

Definition endpoint (host : string) : string :=
  match parse_ip host with
  | Some (V6 _) => "[" +:+ host +:+ "]:8443"
  | _ => host +:+ ":8443"
  end.

Definition semver (value : string) : result (Z * Z * Z) :=
  let part (i : nat) := piece ← ok_or (split "."%char value !! i) "invalid version"; ok_or (parse_u64 piece) "invalid digit found in string" in
  major ← part 0%nat;
  minor ← part 1%nat;
  patch ← part 2%nat;
  _ ← ensure (negb (bool_decide (is_Some (split "."%char value !! 3%nat)))) "invalid version";
  Ok (major, minor, patch).

Definition version_ltb (a b : Z * Z * Z) : bool :=
  let '(a1, a2, a3) := a in
  let '(b1, b2, b3) := b in
  (a1 <? b1) || ((a1 =? b1) && ((a2 <? b2) || ((a2 =? b2) && (a3 <? b3)))).

Definition parse_version (value : string) : result string :=
  version ← ok_or (strip_prefix "gofro-server " (trim value)) "unexpected server version output";
  if bool_decide (version = ""%string)
     || negb (forallb (fun part => negb (bool_decide (part = [])) && forallb is_ascii_digit part) (split_bytes "."%char (chars version)))
  then Err (Msg "unexpected server version output") else Ok version.

(** [env!("CARGO_PKG_VERSION")] *)
Definition CARGO_PKG_VERSION : string := "0.5.26".

Definition shell_quote (value : string) : string :=
  str ("'"%char :: concat ((fun a => if eqb_ascii a "'"%char then chars "'\''" else [a]) <$> chars value) ++ ["'"%char]).

Definition profile_client_public_key (profile : string) : result string :=
  key ← ok_or (head (omap (strip_prefix "# ClientPublicKey = ") (lines profile))) "server profile has no client public key";
  let bytes := chars key in
  if negb (length bytes =? 44)%nat || negb (bool_decide (bytes !! 43%nat = Some "="%char)) || negb (forallb key_char (take 43 bytes))
  then Err (Msg "server profile has an invalid client public key") else Ok key.

(** What serde_json reads of the capabilities: the members of an object, or the items of an array,
    each with its value where that is an unsigned number. *)
Inductive capabilities_json :=
| CapObject (members : list (string * option Z))
| CapArray (items : list (option Z)).

(** [Capabilities]: one field, and no unknown ones. *)
Definition owner_protocol (value : capabilities_json) : option Z :=
  n ← match value with
      | CapObject [(key, n)] => if bool_decide (key = "owner_protocol"%string) then n else None
      | CapArray [n] => n
      | _ => None
      end;
  if n <=? u8_max then Some n else None.

Definition managed_server_config (config : controller_config) (key : string) : result managed_server :=
  _ ← validate_peer_key key;
  server ← ok_or (find_first (fun s => bool_decide (public_key s = key)) (servers config)) "сервер не найден";
  ok_or (management server) "сервер не управляется Gofro".

(** ** The state of a server *)

Definition inconsistent_warp (w : warp_status) : bool := warp_connected w && (negb (warp_installed w) || negb (warp_enabled w)).

Fixpoint validate_peers (keys : gset string) (peers : list friend_peer) : result unit :=
  match peers with
  | [] => Ok tt
  | p :: peers =>
      _ ← validate_peer_key (fp_public_key p);
      if bool_decide (fp_public_key p ∈ keys) then Err (Msg "managed server returned duplicate peer key")
      else if fp_can_share p && fp_revoked p then Err (Msg "managed server returned an invalid friend state")
      else
        name ← validate_name (fp_name p);
        if negb (bool_decide (name = fp_name p)) then Err (Msg "managed server returned an unnormalized friend name")
        else validate_peers ({[fp_public_key p]} ∪ keys) peers
  end.

Definition validate_managed_status (status : managed_server_status) : result unit :=
  _ ← semver (ms_version status);
  if match ms_warp status with Some warp => inconsistent_warp warp | None => false end
  then Err (Msg "managed server returned inconsistent WARP health")
  else validate_peers ∅ (ms_peers status).

(** ** Operations *)

Section Managed.
Context {W : Type} `{Vps W}.
Context {net : Type} `{Ipnet net}.
(* serde_json: a status, the capabilities, and the printed FriendNameInput *)
Variable parse_status : string -> option managed_server_status.
Variable read_capabilities : string -> option capabilities_json.
Variable name_json : string -> string.
(* how std prints an exit status *)
Variable show_status : exit_status -> string.
(* deploy/server/gofro-server-install *)
Variable SERVER_INSTALLER : string.

#[local] Notation M := (eff W error).

Definition calls {A} (f : W -> W * result A) : M A := fun w =>
  let '(w, r) := f w in (w, match r with Ok x => inr x | Err e => inl e end).

(** A call that always answers. *)
Definition asks {A} (f : W -> W * A) : M A := fun w => let '(w, x) := f w in (w, inr x).

(** [.context(CommittedRefreshFailed)] *)
Definition committed {A} (m : M A) : M A := fun w =>
  match m w with
  | (w, inl e) => (w, inl (Mark CommittedRefreshFailed e))
  | answer => answer
  end.

(** [.map_err(|_| anyhow!(m))] *)
Definition or_error {A} (r : result A) (m : string) : M A := of_result (match r with Ok x => Ok x | Err _ => Err (Msg m) end).

(** [key_ssh] *)
Definition key_ssh (m : managed_server) (remote : string) (input : option string) : M string :=
  require (input_fits input) (Msg "managed server command input is too large") ;;
  run ← asks (ssh (SshCall (m_host m) (m_port m) (known_hosts_text (m_host m) (m_port m) (m_host_key m)) remote input (ssh_timeout remote)));
  of_result (ssh_result show_status run remote).

(** [managed_server]: the server of the configuration, with its host key pinned. *)
Definition managed_server (key : string) : M Model.managed_server :=
  config ← read the_config;
  management ← of_result (managed_server_config config key);
  calls (preserve_host_pins config) ;;
  present ← read key_present;
  require present (Msg "management SSH key is missing") ;;
  mret management.

Definition managed_ssh_unlocked (key remote : string) : M string := m ← managed_server key; key_ssh m remote None.

Definition managed_lock : M unit := calls wait_operation.

Record version := Version { v_version : string; v_update_available : bool }.

Definition check_unlocked (key : string) : M version :=
  output ← managed_ssh_unlocked key "version";
  version ← of_result (parse_version output);
  v ← of_result (semver version);
  own ← of_result (semver CARGO_PKG_VERSION);
  mret (Version version (version_ltb v own)).

Definition check (key : string) : M version := managed_lock ;; check_unlocked key.

Definition update (key : string) : M version := managed_lock ;; managed_ssh_unlocked key "update" ;; committed (check_unlocked key).

Definition create_profile (key : string) : M string :=
  managed_lock ;;
  m ← managed_server key;
  key_ssh m ("create-profile " +:+ endpoint (m_host m)) None.

Definition status_unlocked (key : string) : M managed_server_status :=
  output ← managed_ssh_unlocked key "managed-status";
  status ← of_result (with_context "invalid managed server status" (ok_or (parse_status output) "invalid JSON"));
  of_result (validate_managed_status status) ;;
  mret status.

Definition status (key : string) : M managed_server_status := managed_lock ;; status_unlocked key.

Definition restart (key : string) : M managed_server_status :=
  managed_lock ;; managed_ssh_unlocked key "restart-vpn" ;; committed (status_unlocked key).

Definition set_warp (key : string) (enabled accept_terms : bool) : M managed_server_status :=
  require (negb (enabled && negb accept_terms)) (Msg "Для установки WARP необходимо принять условия Cloudflare.") ;;
  managed_lock ;;
  before ← status_unlocked key;
  require (bool_decide (is_Some (ms_warp before))) (Msg "Обновите серверный пакет Gofro: эта версия VPS не поддерживает WARP.") ;;
  managed_ssh_unlocked key (if enabled then "enable-warp" else "disable-warp") ;;
  committed (status_unlocked key).

Definition create_friend (key name : string) : M managed_server_status :=
  managed_lock ;;
  name ← of_result (validate_name name);
  m ← managed_server key;
  key_ssh m ("create-friend " +:+ endpoint (m_host m)) (Some (name_json name)) ;;
  committed (status_unlocked key).

Definition rename_friend (key peer_key name : string) : M managed_server_status :=
  managed_lock ;;
  of_result (validate_peer_key peer_key) ;;
  name ← of_result (validate_name name);
  m ← managed_server key;
  key_ssh m ("rename-friend " +:+ peer_key) (Some (name_json name)) ;;
  committed (status_unlocked key).

Definition revoke_friend (key peer_key : string) : M managed_server_status :=
  managed_lock ;;
  of_result (validate_peer_key peer_key) ;;
  managed_ssh_unlocked key ("revoke-friend " +:+ peer_key) ;;
  committed (status_unlocked key).

Definition friend_profile (key peer_key : string) : M string :=
  managed_lock ;;
  of_result (validate_peer_key peer_key) ;;
  m ← managed_server key;
  key_ssh m ("friend-profile " +:+ peer_key +:+ " " +:+ endpoint (m_host m)) None.

(** ** Enrolment *)

Record host_probe := Probe { pr_host : string; pr_port : Z; pr_host_key : string; pr_fingerprint : string }.

Definition probe (host : string) (port : Z) : M host_probe :=
  of_result (validate_target host port) ;;
  output ← calls (keyscan host port);
  host_key ← of_result (parse_keyscan output);
  fingerprint ← calls (fingerprint host_key);
  mret (Probe host port host_key fingerprint).

Definition require_owner_protocol (value : string) : M unit :=
  capabilities ← or_error (ok_or (read_capabilities value ≫= owner_protocol) "invalid JSON") UPGRADE_REQUIRED;
  require (capabilities =? 2) (Msg UPGRADE_REQUIRED).

Definition bootstrap_script (authorized : string) : string :=
  unlines [
    "set -eu"; "printf 'GOFRO_STAGE inspect\n'"; "compatible() {"; "  [ -x /usr/local/bin/gofro-router-server ] &&";
    "  [ -x /usr/local/sbin/gofro-managed ] &&";
    dq "  [ ~$(SSH_ORIGINAL_COMMAND=capabilities /usr/local/sbin/gofro-managed 2>/dev/null)~ = '{~owner_protocol~:2}' ]";
    "}"; "if ! compatible; then"; "  printf 'GOFRO_STAGE install\n'"; "  installer=$(mktemp /tmp/gofro-server-install.XXXXXX)";
    dq "  trap 'rm -f ~$installer~' EXIT"; dq "  chmod 700 ~$installer~";
    "  printf %s " +:+ shell_quote SERVER_INSTALLER +:+ dq " > ~$installer~";
    dq "  if [ -s /etc/gofro/version ]; then bash ~$installer~ >&2; else bash ~$installer~ --install >&2; fi"; "  compatible || exit 40"; "fi";
    "[ -s /etc/gofro/version ] && [ -s /etc/wireguard/gt0.conf ] &&"; "  wg show gt0 public-key >/dev/null 2>&1 &&";
    "  systemctl is-active --quiet wg-quick@gt0.service &&"; "  systemctl is-active --quiet gofro-relay.service || exit 41";
    "printf 'GOFRO_STAGE authorize\n'"; "install -d -m 700 /root/.ssh"; "touch /root/.ssh/authorized_keys"; "chmod 600 /root/.ssh/authorized_keys";
    "grep -qxF " +:+ shell_quote authorized +:+ " /root/.ssh/authorized_keys || printf '\n%s\n' " +:+ shell_quote authorized
      +:+ " >> /root/.ssh/authorized_keys"]%string.

Definition authorized_key (public : string) : string :=
  dq "restrict,command=~/usr/local/sbin/gofro-managed~ " +:+ trim public.

Definition reports (stages : list bootstrap_stage) : M unit := Effects.update (fun w => foldl (fun w s => report s w) w stages).

(** [password_ssh]: the stages of the installer are reported while it runs. *)
Definition password_ssh (host : string) (port : Z) (known_hosts password remote : string) : M unit :=
  run ← asks (sshpass (PasswordCall host port known_hosts password remote));
  match run with
  | NoSession reads e => reports (read_bootstrap_stages reads) ;; throw e
  | Session reads status stderr => reports (read_bootstrap_stages reads) ;; of_result (bootstrap_result show_status status stderr)
  end.

(** Whether a server of the configuration is managed at this address. *)
Definition manages (host : string) (port : Z) (c : controller_config) : bool :=
  existsb (fun s => match management s with Some m => bool_decide (m_host m = host) && (m_port m =? port) | None => false end) (servers c).

Definition holds_key (private_key : string) (c : controller_config) : bool :=
  existsb (fun s => bool_decide (client_private_key s = Some private_key)) (servers c).

(** Neither the memory nor the file has a server with this key. *)
Definition enrollment_uncommitted (private_key : string) (w : W) : bool :=
  match saved_config w with
  | Some saved => negb (holds_key private_key (the_config w)) && negb (holds_key private_key saved)
  | None => false
  end.

Definition rollback_enrollment (private_key : string) (error : error) (rollback : M string) : M Prelude.error :=
  uncommitted ← read (enrollment_uncommitted private_key);
  if negb uncommitted then
    mret (Msg "Local enrollment may already be saved, but activation failed. Remote access was retained. Refresh the server list and repair local routing before retrying.")
  else
    outcome ← try rollback;
    mret (match outcome with
          | Ok _ => error
          | Err rollback => Msg ("local server enrollment failed: " +:+ error_text error +:+ "; remote peer rollback failed: " +:+ error_text rollback)
          end).

Definition managed_by (m : Model.managed_server) (s : server_profile) : server_profile :=
  ServerProfile (name s) (emoji s) (Model.endpoint s) (public_key s) (client_tunnel_address s) (client_private_key s) (Some m).

(** The first connection: the key of the host is pinned before anything is trusted to it. *)
Definition trust_host (host : string) (port : Z) : M string :=
  config ← read the_config;
  calls (preserve_host_pins config) ;;
  require (negb (manages host port config)) (Msg "управляемый сервер с этим host уже существует") ;;
  host_key ← pr_host_key <$> probe host port;
  config ← read the_config;
  calls (preserve_host_pins config) ;;
  calls (pin_host host port host_key) ;;
  mret host_key.

(** The installation, and the management key in the server's authorized_keys. *)
Definition install (m : Model.managed_server) (password : string) : M unit :=
  calls management_key ;;
  public_key ← calls management_public_key;
  let known_hosts := known_hosts_text (m_host m) (m_port m) (m_host_key m) in
  calls (write_known_hosts known_hosts) ;;
  reports [Connect] ;;
  password_ssh (m_host m) (m_port m) known_hosts password (bootstrap_script (authorized_key public_key)).

(** The profile of the router, its private key and its public key. *)
Definition enroll_router (m : Model.managed_server) (name : string) : M (server_profile * string * string) :=
  capabilities ← key_ssh m "capabilities" None;
  require_owner_protocol capabilities ;;
  reports [Profile] ;;
  profile ← key_ssh m ("create-router-profile " +:+ endpoint (m_host m)) None;
  public_key ← or_error (profile_client_public_key profile)
    "VPS returned an invalid router profile. Enrollment outcome is unknown; existing remote access was retained.";
  server ← or_error (parse_server_profile (net := net) name profile)
    "VPS returned an invalid router profile. Remote access was retained; check the server before retrying.";
  private_key ← of_result (ok_or (client_private_key server) "router profile has no private key");
  mret (server, private_key, public_key).

(** Adding it to the configuration, or taking the access away again. *)
Definition save_enrollment (m : Model.managed_server) (server : server_profile) (private_key public_key : string) : M unit :=
  reports [Save] ;;
  outcome ← try (calls (add_server (managed_by m server)));
  match outcome with
  | Ok _ => mret tt
  | Err error =>
      e ← rollback_enrollment private_key error (key_ssh m ("remove-router-peer " +:+ public_key) None);
      throw e
  end.

Definition bootstrap (name host : string) (port : Z) (password : string) : M unit :=
  reports [Waiting] ;;
  running ← read operation_running;
  require (negb running) (Msg "A managed VPS operation is already running. This request was not queued; check its outcome before retrying.") ;;
  of_result (validate_password password) ;;
  name ← of_result (normalize_server_name name);
  of_result (validate_target host port) ;;
  reports [HostKey] ;;
  host_key ← trust_host host port;
  let m := ManagedServer host port host_key in
  install m password ;;
  '(server, private_key, public_key) ← enroll_router m name;
  save_enrollment m server private_key public_key.

(** [reset_host_pin]: only for an address no server of the configuration is managed at. *)
Definition reset_host_pin (host : string) (port : Z) (remove_pin : W -> W * result unit) : M unit :=
  managed_lock ;;
  of_result (ensure (ip_canonical host && negb (port =? 0)) "invalid SSH host address or port") ;;
  config ← read the_config;
  calls (preserve_host_pins config) ;;
  require (negb (manages host port config)) (Msg "SSH host pin is still used by a managed server") ;;
  calls remove_pin.
End Managed.
