(* ===== verification/ManagedSafety.v ===== *)
(** * What managing a server guarantees

    Changes of a server are sent in one run of ssh, told as made only when it ended
    well, and their failure told apart from that of the refresh after them; an enrolment trusts a host only after its key was pinned
    and takes an access away only if no configuration has it. *)

From stdpp Require Import base gmap sets strings list.
From Stdlib Require Import Ascii ZArith Lia.
From S2P Require Import Prelude RustStd IpAddr Net Effects Peers Model Config Ssh Managed.

(** What the outside sees of the agent. *)
Inductive event :=
| Pinned (host : string) (port : Z) (host_key : string) (answered : bool)
| PasswordSent (call : password_call)
| Sent (call : ssh_call) (run : ssh_run).

(** The programs and files are seen in the order of the calls, and none of them fails with the
    value that only a refresh makes. *)
Class VpsLaws (W : Type) `{Vps W} := {
  events : W -> list event;
  ssh_seen c w : events (ssh c w).1 = events w ++ [Sent c (ssh c w).2];
  ssh_plain c w e : (ssh c w).2 = NotRun e -> plain_error e;
  sshpass_seen c w : events (sshpass c w).1 = events w ++ [PasswordSent c];
  pin_seen h p k w : events (pin_host h p k w).1 = events w ++ [Pinned h p k (is_ok (pin_host h p k w).2)];
  wait_seen w : events (wait_operation w).1 = events w;
  wait_plain w : plain (wait_operation w).2;
  report_seen s w : events (report s w) = events w;
  preserve_seen c w : events (preserve_host_pins c w).1 = events w;
  preserve_plain c w : plain (preserve_host_pins c w).2;
  key_seen w : events (management_key w).1 = events w;
  public_seen w : events (management_public_key w).1 = events w;
  scan_seen h p w : events (keyscan h p w).1 = events w;
  fingerprint_seen k w : events (fingerprint k w).1 = events w;
  known_seen t w : events (write_known_hosts t w).1 = events w;
  add_seen s w : events (add_server s w).1 = events w;
}.

Section Managed.
Context {W : Type} `{VpsLaws W}.
Context {net : Type} `{Ipnet net}.
Variable parse_status : string -> option managed_server_status.
Variable read_capabilities : string -> option capabilities_json.
Variable name_json : string -> string.
Variable show_status : exit_status -> string.
Variable SERVER_INSTALLER : string.

#[local] Notation M := (eff W error).

(** ** Quiet calls and reads *)

Definition is_read (ev : event) : Prop :=
  match ev with Sent c _ => (sc_remote c = "managed-status" \/ sc_remote c = "version")%string /\ sc_input c = None | _ => False end.

Definition silent (w w' : W) : Prop := events w' = events w.
Definition reading (w w' : W) : Prop := exists rs, events w' = events w ++ rs /\ Forall is_read rs.

#[export] Instance silent_preorder : PreOrder silent.
Proof. split; [done | unfold silent; intros a b c -> ->; done]. Qed.

#[export] Instance reading_preorder : PreOrder reading.
Proof.
  split; [intros w; exists []; by rewrite app_nil_r |].
  intros a b c (r & Hr & Hf) (s & Hs & Hg). exists (r ++ s). rewrite Hs, Hr, app_assoc. split; [done | by apply Forall_app].
Qed.

Lemma silent_reading w w' : silent w w' -> reading w w'.
Proof. intros Hs. exists []. by rewrite app_nil_r. Qed.

(** Errors that are no refresh error. *)
Definition plainly {A} (m : M A) : Prop := forall w w' e, m w = (w', inl e) -> plain_error e.

Lemma plainly_bind {A B} (m : M A) (k : A -> M B) : plainly m -> (forall x, plainly (k x)) -> plainly (m ≫= k).
Proof.
  intros Hm Hk w w' e [(e' & He & [= <-]) | (w1 & x & Hx & He)]%bind_run; [by eapply Hm | by eapply Hk].
Qed.

Lemma plainly_of_result {A} (r : result A) : plain r -> plainly (of_result r).
Proof. unfold of_result. intros Hr w w' e. destruct r as [x | f]; [done |]. intros [= <- <-]. by apply Hr. Qed.

Lemma plainly_calls {A} (f : W -> W * result A) : (forall w, plain (f w).2) -> plainly (calls f).
Proof.
  unfold calls. intros Hf w w' e. specialize (Hf w). destruct (f w) as [w1 [x | er]]; [done |]. intros [= <- <-]. by apply Hf.
Qed.

Lemma plainly_require b m : plainly (require (S := W) b (Msg m)).
Proof. destruct b; [by intros w w' e Hr |]. by intros w w' e [= <- <-]. Qed.

Lemma plainly_ret {A} (x : A) : plainly (mret (M := eff W error) x).
Proof. by intros w w' e Hr. Qed.

Lemma plainly_read {A} (f : W -> A) : plainly (read f).
Proof. by intros w w' e Hr. Qed.
End Managed.

Lemma semver_plain v : plain (semver v).
Proof. unfold semver. repeat plain_step. Qed.

Lemma validate_peer_key_plain k : plain (validate_peer_key k).
Proof. unfold validate_peer_key. repeat plain_step. Qed.

Lemma validate_name_plain n : plain (validate_name n).
Proof. unfold validate_name. repeat plain_step. Qed.

#[local] Hint Resolve semver_plain validate_peer_key_plain validate_name_plain : plain.

Lemma validate_peers_plain peers : forall keys, plain (validate_peers keys peers).
Proof. induction peers as [| p peers IH]; intros keys; cbn; repeat plain_step. Qed.

#[local] Hint Resolve validate_peers_plain : plain.

Lemma validate_managed_status_plain s : plain (validate_managed_status s).
Proof. unfold validate_managed_status. repeat plain_step. Qed.

Lemma parse_version_plain v : plain (parse_version v).
Proof. unfold parse_version. repeat plain_step. Qed.

Lemma managed_server_config_plain c k : plain (managed_server_config c k).
Proof. unfold managed_server_config. repeat plain_step. Qed.

#[local] Hint Resolve validate_managed_status_plain parse_version_plain managed_server_config_plain : plain.

(** The exit of ssh is told without that error. *)
Lemma ssh_result_plain show_status run remote : (forall e, run = NotRun e -> plain_error e) -> plain (ssh_result show_status run remote).
Proof.
  intros Hrun. destruct run as [e | status output stderr taken]; cbn.
  - intros e' [= <-]. by apply Hrun.
  - unfold ssh_command_error. repeat plain_step.
Qed.

(** ** Changes are sent once *)

(** The changes of a server, and the command that makes each. *)
Inductive write :=
| Update
| Restart
| SetWarp (enabled accept_terms : bool)
| CreateFriend (name : string)
| RenameFriend (peer_key name : string)
| RevokeFriend (peer_key : string)
| CreateProfile.

(** After every other change the state of the server is read again. *)
Definition reads_back (o : write) : bool := match o with CreateProfile => false | _ => true end.

(** The text of a new profile is the answer. *)
Definition reply (o : write) (text : string) : option string := match o with CreateProfile => Some text | _ => None end.

(** ssh ended with success, gave all of the input away and printed a short text: what it printed. *)
Definition ended_well (run : ssh_run) : option string :=
  match run with
  | Ended status output _ input_taken =>
      if (slen output <=? SSH_OUTPUT_LIMIT)%Z && success status && input_taken then utf8_string output else None
  | NotRun _ => None
  end.

Lemma ssh_result_ended show_status run remote :
  match ended_well run with Some x => ssh_result show_status run remote = Ok x | None => exists e, ssh_result show_status run remote = Err e end.
Proof.
  destruct run as [e | status output stderr taken]; cbn; [by eexists |]. rewrite Z.leb_antisym.
  destruct (_ <? _)%Z; cbn; [by eexists |]. destruct (success status); cbn; [| by eexists]. destruct taken; cbn; [| by eexists].
  destruct (utf8_string output); cbn; [done | by eexists].
Qed.

(** A command that succeeded but printed no UTF-8 is answered like one that failed. *)
Example invalid_text_open :
  ssh_result (fun _ => "exit status"%string) (Ended (Exited 0) (String (of_code 255) EmptyString) "" true) "restart-vpn" =
  Err (Ctx "managed server returned invalid text" (Msg "invalid utf-8")).
Proof. by vm_compute. Qed.

Section Writes.
Context {W : Type} `{VpsLaws W}.
Variable parse_status : string -> option managed_server_status.
Variable name_json : string -> string.
Variable show_status : exit_status -> string.

#[local] Notation M := (eff W error).
#[local] Notation status_unlocked := (status_unlocked parse_status show_status).

Definition run_write (key : string) (o : write) : M (option string) :=
  match o with
  | Update => update show_status key ;; mret None
  | Restart => restart parse_status show_status key ;; mret None
  | SetWarp enabled accept => set_warp parse_status show_status key enabled accept ;; mret None
  | CreateFriend name => create_friend parse_status name_json show_status key name ;; mret None
  | RenameFriend peer name => rename_friend parse_status name_json show_status key peer name ;; mret None
  | RevokeFriend peer => revoke_friend parse_status show_status key peer ;; mret None
  | CreateProfile => text ← create_profile show_status key; mret (Some text)
  end.

Definition write_command (m : Model.managed_server) (o : write) : string * option string :=
  match o with
  | Update => ("update", None)
  | Restart => ("restart-vpn", None)
  | SetWarp enabled _ => (if enabled then "enable-warp" else "disable-warp", None)
  | CreateFriend name => ("create-friend " +:+ Managed.endpoint (m_host m), Some (name_json (trim name)))
  | RenameFriend peer name => ("rename-friend " +:+ peer, Some (name_json (trim name)))
  | RevokeFriend peer => ("revoke-friend " +:+ peer, None)
  | CreateProfile => ("create-profile " +:+ Managed.endpoint (m_host m), None)
  end%string.

(** The change went out in one run of ssh, to the server of the configuration and with its pinned key. When
    the run ended well, [r] is the answer, or the marked error of the refresh after it. Otherwise [r] is the
    error of this run, without the mark, and nothing was sent after it. *)
Definition sent_once (key : string) (o : write) (w w' : W) (r : error + option string) : Prop :=
  exists w0 m run after,
    managed_server_config (the_config w0) key = Ok m /\
    let '(remote, input) := write_command m o in
    let c := SshCall (m_host m) (m_port m) (known_hosts_text (m_host m) (m_port m) (m_host_key m)) remote input (ssh_timeout remote) in
    (exists before, Forall is_read before /\ events w' = events w ++ before ++ [Sent c run] ++ after) /\
    match ended_well run with
    | Some text => Forall is_read after /\ (reads_back o = false -> after = []) /\
        (r = inr (reply o text) \/ reads_back o = true /\ exists e, r = inl (Mark CommittedRefreshFailed e))
    | None => after = [] /\ exists e, r = inl e /\ plain_error e /\ ssh_result show_status run remote = Err e
    end.

Definition not_sent (w w' : W) (r : error + option string) : Prop := reading w w' /\ exists e, r = inl e /\ plain_error e.

Lemma key_ssh_run m remote input w w' r : key_ssh show_status m remote input w = (w', r) ->
  (w' = w /\ exists e, r = inl e /\ plain_error e) \/
  exists run, let c := SshCall (m_host m) (m_port m) (known_hosts_text (m_host m) (m_port m) (m_host_key m)) remote input (ssh_timeout remote) in
    events w' = events w ++ [Sent c run] /\ plain (ssh_result show_status run remote) /\
    r = match ssh_result show_status run remote with Ok x => inr x | Err e => inl e end.
Proof.
  unfold key_ssh. intros [(e & (-> & [[? ?] | [Hb He]])%require_run & ->) | (w1 & [] & (-> & _)%require_run & Hr)]%bind_run; try done.
  - left. split; [done |]. injection He as ->. by eexists.
  - right. apply bind_run in Hr as [(e & He & ->) | (w2 & run & Ha & Hr)]; unfold asks in *.
    + by destruct (ssh _ _) in He.
    + set (c := SshCall _ _ _ _ _ _) in *. pose proof (ssh_seen c w) as Hs. pose proof (ssh_plain c w) as Hp.
      destruct (ssh c w) as [w3 run'] eqn:E. injection Ha as <- <-. exists run'. cbn in Hs, Hp.
      unfold of_result in Hr. injection Hr as <- <-. split_and!; [done | | done]. by apply ssh_result_plain.
Qed.

Lemma calls_silent {A} (f : W -> W * result A) : (forall w, events (f w).1 = events w) -> preserves silent (calls f).
Proof. intros Hf w w' r. unfold calls. specialize (Hf w). destruct (f w) as [w1 x]. by intros [= <- <-]. Qed.

Lemma managed_server_silent key : preserves silent (managed_server (W := W) key).
Proof.
  unfold managed_server. assert (PreOrder silent) by apply silent_preorder. preserved; apply calls_silent, preserve_seen.
Qed.

Lemma managed_server_plainly key : plainly (managed_server (W := W) key).
Proof.
  unfold managed_server. apply plainly_bind; [apply plainly_read |]. intros config. apply plainly_bind.
  { apply plainly_of_result, managed_server_config_plain. }
  intros m. apply plainly_bind; [apply plainly_calls, preserve_plain |]. intros []. apply plainly_bind; [apply plainly_read |].
  intros present. apply plainly_bind; [apply plainly_require | intros; apply plainly_ret].
Qed.

Lemma managed_server_run key w w' m : managed_server key w = (w', inr m) ->
  events w' = events w /\ managed_server_config (the_config w) key = Ok m.
Proof.
  intros Hr. split; [by apply managed_server_silent in Hr |]. revert Hr. unfold managed_server.
  intros [(e & ? & ?) | (w1 & c & [= <- <-] & Hr)]%bind_run; [done |].
  apply bind_run in Hr as [(e & ? & ?) | (w1 & m' & Hm & Hr)]; [done |]. unfold of_result in Hm.
  destruct (managed_server_config (the_config w) key) as [m0 |] eqn:E; [| done]. injection Hm as <- <-.
  apply bind_run in Hr as [(e & ? & ?) | (w1 & ? & ? & Hr)]; [done |]. apply bind_run in Hr as [(e & ? & ?) | (w2 & ? & ? & Hr)]; [done |].
  apply bind_run in Hr as [(e & ? & ?) | (w3 & ? & ? & Hr)]; [done |]. by injection Hr as _ <-.
Qed.
Lemma key_ssh_read m remote : (remote = "managed-status" \/ remote = "version")%string ->
  preserves reading (key_ssh show_status m remote None) /\ plainly (key_ssh show_status m remote None).
Proof.
  intros Hr. split.
  - intros w w' r [(-> & _) | (run & Hev & _)]%key_ssh_run; [by apply reading_preorder |]. eexists. split; [exact Hev |]. by constructor.
  - intros w w' e [(_ & e' & [= <-] & He) | (run & _ & Hp & He)]%key_ssh_run; [done |].
    destruct (ssh_result show_status run remote) as [| e'] eqn:E; [done |]. injection He as ->. by apply Hp.
Qed.

Lemma managed_read key remote : (remote = "managed-status" \/ remote = "version")%string ->
  preserves reading (managed_ssh_unlocked show_status key remote) /\ plainly (managed_ssh_unlocked show_status key remote).
Proof.
  intros Hr. assert (PreOrder reading) by apply reading_preorder. unfold managed_ssh_unlocked. split.
  - apply preserves_bind; [done | | intros m; by apply key_ssh_read]. intros w w' r Hm. apply silent_reading. by eapply managed_server_silent.
  - apply plainly_bind; [apply managed_server_plainly | intros m; by apply key_ssh_read].
Qed.

Lemma status_reads key : preserves reading (status_unlocked key) /\ plainly (status_unlocked key).
Proof.
  destruct (managed_read key "managed-status" (or_introl eq_refl)) as [Hr Hp]. assert (PreOrder reading) by apply reading_preorder.
  unfold Managed.status_unlocked. split.
  - preserved.
  - apply plainly_bind; [done |]. intros output. apply plainly_bind; [apply plainly_of_result; eauto with plain |].
    intros status. apply plainly_bind; [apply plainly_of_result; eauto with plain | intros []; apply plainly_ret].
Qed.

Lemma check_reads key : preserves reading (check_unlocked show_status key) /\ plainly (check_unlocked show_status key).
Proof.
  destruct (managed_read key "version" (or_intror eq_refl)) as [Hr Hp]. assert (PreOrder reading) by apply reading_preorder.
  unfold check_unlocked. split.
  - preserved.
  - apply plainly_bind; [done |]. intros output.
    repeat (apply plainly_bind; [apply plainly_of_result; eauto with plain | intros ?]). apply plainly_ret.
Qed.

Lemma lock_reads : preserves reading (managed_lock (W := W)) /\ plainly (managed_lock (W := W)).
Proof.
  unfold managed_lock. split; [| apply plainly_calls, wait_plain].
  intros w w' r Hr. apply silent_reading. revert Hr. apply calls_silent, wait_seen.
Qed.

(** ** Sequences *)

Definition outcome (key : string) (o : write) (w w' : W) (r : error + option string) : Prop := not_sent w w' r \/ sent_once key o w w' r.

(** A step before the change: it reads at most. *)
Lemma outcome_after {A} key o (m : M A) (k : A -> M (option string)) w w' r :
  preserves reading m -> plainly m -> (m ≫= k) w = (w', r) ->
  (forall x w1, m w = (w1, inr x) -> k x w1 = (w', r) -> outcome key o w1 w' r) -> outcome key o w w' r.
Proof.
  intros Hm Hp Hrun Hk. apply bind_run in Hrun as [(e & He & ->) | (w1 & x & Hx & Hr)].
  - left. split; [by eapply Hm |]. exists e. split; [done |]. by eapply Hp.
  - destruct (Hm _ _ _ Hx) as (rs & Hrs & Hf). destruct (Hk x w1 Hx Hr) as [[Hn He] | (w0 & m' & run & after & Hc & Hs)].
    + left. split; [| done]. etransitivity; [by eapply Hm | done].
    + right. exists w0, m', run, after. split; [done |]. destruct (write_command m' o) as [remote input].
      destruct Hs as [(before & Hb & Hev) Ho]. split; [| done]. exists (rs ++ before). split; [by apply Forall_app |].
      by rewrite Hev, Hrs, <- !app_assoc.
Qed.

(** The change, and what follows when its run ended well. *)
Lemma write_then {A} key o m input remote (k : string -> M A) (g : A -> option string) w0 w w' r :
  managed_server_config (the_config w0) key = Ok m -> write_command m o = (remote, input) ->
  (forall text w1 w2 x, k text w1 = (w2, x) -> exists after, events w2 = events w1 ++ after /\ Forall is_read after /\ (reads_back o = false -> after = []) /\
    match x with inr y => g y = reply o text | inl e => reads_back o = true /\ exists e', e = Mark CommittedRefreshFailed e' end) ->
  ((key_ssh show_status m remote input ≫= k) ≫= fun x => mret (g x)) w = (w', r) -> outcome key o w w' r.
Proof.
  intros Hm Hc Hk Hr. rewrite bind_assoc in Hr. apply bind_run in Hr as [(e & Hs & ->) | (w1 & x & Hs & Hr)].
  - apply key_ssh_run in Hs as [(-> & e' & [= <-] & He) | (run & Hev & Hp & He)].
    + left. split; [by apply reading_preorder | by exists e].
    + pose proof (ssh_result_ended show_status run remote) as Hend. right. exists w0, m, run, []. rewrite Hc. split; [done |]. split; [by exists [] |].
      destruct (ended_well run); [by rewrite Hend in He |]. destruct Hend as [e' E]. rewrite E in He, Hp. injection He as ->.
      split; [done |]. exists e'. split_and!; [done | by apply Hp | done].
  - apply key_ssh_run in Hs as [(-> & e' & [=] & He) | (run & Hev & Hp & He)]. pose proof (ssh_result_ended show_status run remote) as Hend.
    destruct (ended_well run) as [text |] eqn:Ew; [| destruct Hend as [e' E]; by rewrite E in He]. rewrite Hend in He. injection He as ->.
    destruct (k text w1) as [w2 x] eqn:Ek. destruct (Hk _ _ _ _ Ek) as (after & Hafter & Hf & Hn & Hx). right.
    exists w0, m, run, after. rewrite Hc, Ew. split; [done |].
    assert (w' = w2 /\ r = match x with inr y => inr (g y) | inl e => inl e end) as [-> ->].
    { unfold mbind, eff_bind in Hr. rewrite Ek in Hr. by destruct x; injection Hr as <- <-. }
    split; [exists []; split; [done |]; by rewrite Hafter, Hev, <- app_assoc |]. split_and!; [done.. |].
    destruct x as [e | y]; [right; destruct Hx as [? [e' ->]]; eauto | left; by rewrite Hx].
Qed.

(** The refresh after a change: it reads, and marks its error. *)
Lemma committed_after {A} o text (post : M A) : preserves reading post -> reads_back o = true ->
  forall w1 w2 (x : error + A), committed post w1 = (w2, x) -> exists after, events w2 = events w1 ++ after /\ Forall is_read after /\ (reads_back o = false -> after = []) /\
    match x with inr _ => None = reply o text | inl e => reads_back o = true /\ exists e', e = Mark CommittedRefreshFailed e' end.
Proof.
  intros Hpost Ho w1 w2 x. unfold committed. destruct (post w1) as [w3 y] eqn:E. destruct (Hpost _ _ _ E) as (after & Hev & Hf).
  assert (None = reply o text) by (by destruct o). rewrite Ho.
  destruct y as [e | y]; intros [= <- <-]; exists after; split_and!; try done. by exists e.
Qed.

Lemma write_then_read {A} key o m input remote (post : M A) w0 w w' r :
  managed_server_config (the_config w0) key = Ok m -> write_command m o = (remote, input) -> preserves reading post -> reads_back o = true ->
  ((key_ssh show_status m remote input ;; committed post) ;; mret None) w = (w', r) -> outcome key o w w' r.
Proof.
  intros Hm Hc Hpost Ho Hr. eapply (write_then key o m input remote (fun _ => committed post) (fun _ => None)); [done | done | | exact Hr].
  intros text. by apply committed_after.
Qed.

(** A profile is answered as it was printed, with nothing read after it. *)
Lemma profile_write key m w0 w w' r : managed_server_config (the_config w0) key = Ok m ->
  (text ← key_ssh show_status m ("create-profile " +:+ Managed.endpoint (m_host m)) None; mret (Some text)) w = (w', r) -> outcome key CreateProfile w w' r.
Proof.
  intros Hm Hr. eapply (write_then key CreateProfile m None _ (fun text => mret text) Some); [done | done | |].
  - intros text w1 w2 x [= <- <-]. exists []. rewrite app_nil_r. eauto.
  - rewrite bind_assoc. exact Hr.
Qed.

Lemma managed_write {A} key o remote (post : M A) w w' r :
  (forall m, write_command m o = (remote, None)) -> preserves reading post -> reads_back o = true ->
  ((managed_ssh_unlocked show_status key remote ;; committed post) ;; mret None) w = (w', r) -> outcome key o w w' r.
Proof.
  intros Hc Hpost Ho Hr. unfold managed_ssh_unlocked in Hr. rewrite bind_assoc, bind_assoc in Hr.
  eapply outcome_after; [| apply managed_server_plainly | exact Hr |].
  - intros ? ? ? Hm. apply silent_reading. by eapply managed_server_silent.
  - intros m w1 Hm Hk. apply managed_server_run in Hm as [_ Hm]. eapply write_then_read; [exact Hm | apply Hc | done | done |]. by rewrite bind_assoc.
Qed.
Lemma of_result_reads {A} (r : result A) : plain r -> preserves reading (of_result r) /\ plainly (of_result (S := W) r).
Proof. intros Hr. split; [apply preserves_of_result; apply reading_preorder | by apply plainly_of_result]. Qed.

Lemma managed_server_reads key : preserves reading (managed_server (W := W) key) /\ plainly (managed_server (W := W) key).
Proof.
  split; [| apply managed_server_plainly]. intros w w' r Hm. apply silent_reading. by eapply managed_server_silent.
Qed.

Lemma validate_name_trim name n : validate_name name = Ok n -> n = trim name.
Proof. unfold validate_name. destruct (_ || _); [done |]. by intros [= <-]. Qed.

(** The next step of a change is [m]: it only reads. *)
#[local] Ltac flat Hr := cbv beta in Hr; rewrite bind_assoc in Hr.

#[local] Ltac reads lemma := match goal with Hr : (_ ≫= _) _ = _ |- _ =>
  eapply outcome_after; [apply lemma | apply lemma | exact Hr |]; clear Hr end.

(** C23. A change of a managed server is an update, a restart, WARP on or off, a friend made, renamed or
    revoked, or a new profile. Each runs ssh for it at most once, with the whole change, to the server the
    configuration names and with its host key as the only trusted one; all else that is sent only reads.
    Success, and the error that forbids to repeat the change, are answered only after that run ended with
    success, took all of the input and printed a short text; a new profile is the text it printed. Any other
    error says that ssh was not run for the change, or is the error of its one run, after which nothing is
    sent: it leaves open whether the server made the change. *)
Theorem managed_writes_once key o w w' r : run_write key o w = (w', r) -> not_sent w w' r \/ sent_once key o w w' r.
Proof.
  intros Hr. change (outcome key o w w' r). destruct o as [| | enabled accept | name | peer name | peer |]; cbn [run_write] in Hr;
    unfold update, restart, set_warp, create_friend, rename_friend, revoke_friend, Managed.create_profile in Hr; rewrite bind_assoc in Hr.
  - reads lock_reads. intros [] w1 _ Hr. eapply managed_write; [done | apply check_reads | done | exact Hr].
  - reads lock_reads. intros [] w1 _ Hr. eapply managed_write; [done | apply status_reads | done | exact Hr].
  - eapply outcome_after; [apply preserves_require; apply reading_preorder | apply plainly_require | exact Hr |]. clear Hr.
    intros [] w1 _ Hr. flat Hr. reads lock_reads. intros [] w2 _ Hr. flat Hr. reads status_reads.
    intros before w3 _ Hr. flat Hr.
    eapply outcome_after; [apply preserves_require; apply reading_preorder | apply plainly_require | exact Hr |]. clear Hr.
    intros [] w4 _ Hr. eapply managed_write; [done | apply status_reads | done | exact Hr].
  - reads lock_reads. intros [] w1 _ Hr. flat Hr. reads (of_result_reads _ (validate_name_plain name)).
    intros n w2 Hn Hr. flat Hr. reads managed_server_reads. intros m w3 Hm Hr.
    apply managed_server_run in Hm as [_ Hm]. eapply write_then_read; [exact Hm | | apply status_reads | done | exact Hr].
    cbn. unfold of_result in Hn. destruct (validate_name name) eqn:E; [| done]. injection Hn as _ <-. by rewrite (validate_name_trim _ _ E).
  - reads lock_reads. intros [] w1 _ Hr. flat Hr. reads (of_result_reads _ (validate_peer_key_plain peer)).
    intros [] w2 _ Hr. flat Hr. reads (of_result_reads _ (validate_name_plain name)).
    intros n w3 Hn Hr. flat Hr. reads managed_server_reads. intros m w4 Hm Hr.
    apply managed_server_run in Hm as [_ Hm]. eapply write_then_read; [exact Hm | | apply status_reads | done | exact Hr].
    cbn. unfold of_result in Hn. destruct (validate_name name) eqn:E; [| done]. injection Hn as _ <-. by rewrite (validate_name_trim _ _ E).
  - reads lock_reads. intros [] w1 _ Hr. flat Hr. reads (of_result_reads _ (validate_peer_key_plain peer)).
    intros [] w2 _ Hr. eapply managed_write; [done | apply status_reads | done | exact Hr].
  - reads lock_reads. intros [] w1 _ Hr. flat Hr. reads managed_server_reads. intros m w2 Hm Hr.
    apply managed_server_run in Hm as [_ Hm]. by eapply profile_write.
Qed.
End Writes.

(** ** Enrolment *)

Section Enrolment.
Context {W : Type} `{VpsLaws W}.
Context {net : Type} `{Ipnet net}.
Variable read_capabilities : string -> option capabilities_json.
Variable show_status : exit_status -> string.
Variable SERVER_INSTALLER : string.

#[local] Notation M := (eff W error).

(** A command to the server that trusts its pinned key only. *)
Definition call_to (m : Model.managed_server) (remote : string) : ssh_call :=
  SshCall (m_host m) (m_port m) (known_hosts_text (m_host m) (m_port m) (m_host_key m)) remote None (ssh_timeout remote).

(** What an enrolment shows: [new] are its events, [r] its result, [w'] the state it ends in. *)
Inductive enrolment (host : string) (port : Z) (password : string) (w' : W) : list event -> error + unit -> Prop :=
| refused e :
    enrolment host port password w' [] (inl e)
| not_pinned k e :
    enrolment host port password w' [Pinned host port k false] (inl e)
| pinned_only k e :
    enrolment host port password w' [Pinned host port k true] (inl e)
| installed_only k script new e :
    let m := ManagedServer host port k in
    new = [Pinned host port k true; PasswordSent (PasswordCall host port (known_hosts_text host port k) password script)] ->
    enrolment host port password w' new (inl e)
| capabilities_refused k script run new e :
    let m := ManagedServer host port k in
    new = [Pinned host port k true; PasswordSent (PasswordCall host port (known_hosts_text host port k) password script);
           Sent (call_to m "capabilities") run] ->
    enrolment host port password w' new (inl e)
| profile_asked k script run text run' new r :
    let m := ManagedServer host port k in
    ssh_result show_status run "capabilities" = Ok text ->
    (read_capabilities text ≫= owner_protocol) = Some 2 ->
    new = [Pinned host port k true; PasswordSent (PasswordCall host port (known_hosts_text host port k) password script);
           Sent (call_to m "capabilities") run; Sent (call_to m ("create-router-profile " +:+ Managed.endpoint host)) run'] ->
    (r = inr tt -> exists w0 name profile server,
       ssh_result show_status run' ("create-router-profile " +:+ Managed.endpoint host) = Ok profile /\
       parse_server_profile (net := net) name profile = Ok server /\ add_server (managed_by m server) w0 = (w', Ok tt)) ->
    enrolment host port password w' new r
| access_removed k script run run' run'' profile name server private public w0 new e :
    let m := ManagedServer host port k in
    ssh_result show_status run' ("create-router-profile " +:+ Managed.endpoint host) = Ok profile ->
    parse_server_profile (net := net) name profile = Ok server ->
    client_private_key server = Some private ->
    profile_client_public_key profile = Ok public ->
    enrollment_uncommitted private w0 = true ->
    ssh (call_to m ("remove-router-peer " +:+ public)) w0 = (w', run'') ->
    new = [Pinned host port k true; PasswordSent (PasswordCall host port (known_hosts_text host port k) password script);
           Sent (call_to m "capabilities") run; Sent (call_to m ("create-router-profile " +:+ Managed.endpoint host)) run';
           Sent (call_to m ("remove-router-peer " +:+ public)) run''] ->
    enrolment host port password w' new (inl e).

Lemma reports_silent stages : preserves silent (reports (W := W) stages).
Proof.
  unfold reports. apply preserves_update. intros w. unfold silent. revert w. induction stages as [| s stages IH]; intros w; cbn; [done |].
  by rewrite IH, report_seen.
Qed.

Lemma reports_run stages (w w' : W) r : reports stages w = (w', r) -> silent w w' /\ r = inr tt.
Proof. intros Hr. split; [by apply reports_silent in Hr |]. by injection Hr as _ <-. Qed.

Lemma calls_run {A} (f : W -> W * result A) w w' r : calls f w = (w', r) ->
  exists x, f w = (w', x) /\ r = match x with Ok y => inr y | Err e => inl e end.
Proof. unfold calls. destruct (f w) as [w1 x]. intros [= <- <-]. eauto. Qed.

Lemma or_error_run {A} (x : result A) m (w w' : W) r : or_error x m w = (w', r) ->
  w' = w /\ r = match x with Ok y => inr y | Err _ => inl (Msg m) end.
Proof. unfold or_error, of_result. destruct x; by intros [= <- <-]. Qed.

Lemma probe_silent host port : preserves silent (probe (W := W) host port).
Proof.
  unfold probe. assert (PreOrder silent) by apply silent_preorder. preserved; apply calls_silent; intros; first [apply scan_seen | apply fingerprint_seen].
Qed.

Lemma probed_key_silent host port : preserves silent (pr_host_key <$> probe (W := W) host port).
Proof. apply preserves_fmap, probe_silent. Qed.

Lemma trust_host_run host port w w' r : trust_host host port w = (w', r) ->
  (events w' = events w /\ exists e, r = inl e) \/
  (exists k ok, events w' = events w ++ [Pinned host port k ok] /\ match r with inr k' => k' = k /\ ok = true | inl _ => True end).
Proof.
  unfold trust_host. assert (PreOrder silent) as Hpre by apply silent_preorder.
  assert (forall c, preserves silent (calls (preserve_host_pins c))) as Hpreserve by (intros; apply calls_silent, preserve_seen).
  intros [(e & He & ->) | (w1 & config & [= <- <-] & Hr)]%bind_run; [by injection He |].
  apply bind_run in Hr as [(e & He & ->) | (w1 & [] & Hs1%Hpreserve & Hr)]; [left; apply Hpreserve in He; eauto |].
  apply bind_run in Hr as [(e & He & ->) | (w2 & [] & Hq & Hr)]; [left; apply require_run in He as [-> _]; eauto |].
  apply require_run in Hq as [-> _].
  apply bind_run in Hr as [(e & He & ->) | (w3 & k & Hs2 & Hr)].
  { left. apply probed_key_silent in He. split; [by rewrite He | eauto]. }
  apply probed_key_silent in Hs2.
  apply bind_run in Hr as [(e & He & ->) | (w4 & config & [= <- <-] & Hr)]; [by injection He |].
  apply bind_run in Hr as [(e & He & ->) | (w4 & [] & Hs3%Hpreserve & Hr)].
  { left. apply Hpreserve in He. split; [by rewrite He, Hs2 | eauto]. }
  assert (events w4 = events w) as Heq by (by rewrite Hs3, Hs2). right.
  pose proof (pin_seen host port k w4) as Hp.
  apply bind_run in Hr as [(e & He & ->) | (w5 & [] & Hk & [= <- <-])]; apply calls_run in Hk as (x & Hx & Hk) || apply calls_run in He as (x & Hx & He);
    rewrite Hx in Hp; cbn in Hp; exists k; eexists; (split; [by rewrite Hp, Heq |]); [done |]. by destruct x.
Qed.

Lemma install_run m password w w' r : install show_status SERVER_INSTALLER m password w = (w', r) ->
  (events w' = events w /\ exists e, r = inl e) \/
  (exists script, events w' = events w ++ [PasswordSent (PasswordCall (m_host m) (m_port m) (known_hosts_text (m_host m) (m_port m) (m_host_key m)) password script)]).
Proof.
  unfold install. intros [(e & He & ->) | (w1 & [] & Hs1 & Hr)]%bind_run; [left; apply calls_silent in He; [eauto | apply key_seen] |].
  apply calls_silent in Hs1; [| apply key_seen].
  apply bind_run in Hr as [(e & He & ->) | (w2 & public & Hs2 & Hr)].
  { left. apply calls_silent in He; [| apply public_seen]. split; [by rewrite He | eauto]. }
  apply calls_silent in Hs2; [| apply public_seen]. cbv zeta in Hr.
  apply bind_run in Hr as [(e & He & ->) | (w3 & [] & Hs3 & Hr)].
  { left. apply calls_silent in He; [| apply known_seen]. split; [by rewrite He, Hs2 | eauto]. }
  apply calls_silent in Hs3; [| apply known_seen].
  apply bind_run in Hr as [(e & He & ->) | (w4 & [] & [Hs4 _]%reports_run & Hr)]; [by apply reports_run in He as [_ ?] |].
  assert (events w4 = events w) as Heq by (by rewrite Hs4, Hs3, Hs2). clear Hs1 Hs2 Hs3 Hs4. right.
  exists (bootstrap_script SERVER_INSTALLER (authorized_key public)). unfold password_ssh in Hr.
  apply bind_run in Hr as [(e & He & ->) | (w5 & run & Ha & Hr)]; unfold asks in *; [by destruct (sshpass _ _) in He |].
  set (c := PasswordCall _ _ _ _ _) in *. pose proof (sshpass_seen c w4) as Hc. destruct (sshpass c w4) as [w6 run']. injection Ha as <- <-.
  cbn in Hc. rewrite <- Heq, <- Hc. destruct run'; apply bind_run in Hr as [(e' & He & ->) | (w7 & [] & [Hs _]%reports_run & Hr)];
    try (by apply reports_run in He as [_ ?]); injection Hr as <- _; done.
Qed.
Lemma sent_run m remote w w' r : key_ssh show_status m remote None w = (w', r) ->
  exists run, ssh (call_to m remote) w = (w', run) /\ events w' = events w ++ [Sent (call_to m remote) run] /\
    r = match ssh_result show_status run remote with Ok x => inr x | Err e => inl e end.
Proof.
  unfold key_ssh. intros [(e & He & ->) | (w1 & [] & Hq & Hr)]%bind_run; [by apply require_run in He as [_ [[? ?] | [? ?]]] |].
  apply require_run in Hq as [-> _]. fold (call_to m remote) in Hr.
  apply bind_run in Hr as [(e & He & ->) | (w2 & run & Ha & Hr)]; unfold asks in *; [by destruct (ssh _ _) in He |].
  pose proof (ssh_seen (call_to m remote) w) as Hs. destruct (ssh (call_to m remote) w) as [w3 run'] eqn:E. injection Ha as <- <-.
  exists run'. unfold of_result in Hr. injection Hr as <- <-. done.
Qed.

Definition profile_command (m : Model.managed_server) : string := "create-router-profile " +:+ Managed.endpoint (m_host m).

(** The commands of [enroll_router]: one if the protocol is not the expected one, else two. *)
Lemma enroll_router_run m name w w' r : enroll_router (net := net) read_capabilities show_status m name w = (w', r) ->
  exists run, (events w' = events w ++ [Sent (call_to m "capabilities") run] /\ exists e, r = inl e) \/
  exists text run', ssh_result show_status run "capabilities" = Ok text /\ (read_capabilities text ≫= owner_protocol) = Some 2 /\
    events w' = events w ++ [Sent (call_to m "capabilities") run; Sent (call_to m (profile_command m)) run'] /\
    match r with
    | inr (server, private, public) => exists profile, ssh_result show_status run' (profile_command m) = Ok profile /\
        parse_server_profile (net := net) name profile = Ok server /\ client_private_key server = Some private /\
        profile_client_public_key profile = Ok public
    | inl _ => True
    end.
Proof.
  unfold enroll_router. intros [(e & He & ->) | (w1 & text & Hs & Hr)]%bind_run.
  { apply sent_run in He as (run & _ & Hev & _). exists run. left. eauto. }
  apply sent_run in Hs as (run & _ & Hev & Ht). exists run. destruct (ssh_result show_status run "capabilities") as [t |] eqn:Et; [| done]. injection Ht as ->.
  apply bind_run in Hr as [(e & He & ->) | (w2 & [] & Hc & Hr)].
  { left. split; [| eauto]. rewrite <- Hev. f_equal. unfold require_owner_protocol in He.
    apply bind_run in He as [(e' & [-> _]%or_error_run & _) | (w3 & n & [-> _]%or_error_run & Hq)]; [done | by apply require_run in Hq as [-> _]]. }
  right. exists t. unfold require_owner_protocol in Hc.
  apply bind_run in Hc as [(e' & _ & ?) | (w3 & n & [-> Hn]%or_error_run & Hq)]; [done |].
  apply require_run in Hq as [-> [[Hn2%Z.eqb_eq _] | [_ ?]]]; [| done]. subst n.
  apply bind_run in Hr as [(e & He & ->) | (w3 & [] & [Hs3 _]%reports_run & Hr)]; [by apply reports_run in He as [_ ?] |].
  assert ((read_capabilities t ≫= owner_protocol) = Some 2) as H2.
  { destruct (read_capabilities t ≫= owner_protocol) as [n |]; cbn in Hn; [| done]. by injection Hn as <-. }
  apply bind_run in Hr as [(e & He & ->) | (w4 & profile & Hs & Hr)].
  { apply sent_run in He as (run' & _ & Hev' & _). exists run'. split_and!; [done | done | | done]. by rewrite Hev', Hs3, Hev, <- app_assoc. }
  apply sent_run in Hs as (run' & _ & Hev' & Hp). exists run'. split_and!; [done | done | |].
  { enough (events w' = events w4) as -> by (by rewrite Hev', Hs3, Hev, <- app_assoc).
    apply bind_run in Hr as [(e & [-> _]%or_error_run & _) | (w5 & public & [-> _]%or_error_run & Hr)]; [done |].
    apply bind_run in Hr as [(e & [-> _]%or_error_run & _) | (w6 & server & [-> _]%or_error_run & Hr)]; [done |].
    unfold of_result in Hr. apply bind_run in Hr as [(e & [= -> _] & _) | (w7 & private & [= <- _] & [= <- _])]; done. }
  apply bind_run in Hr as [(e & _ & ->) | (w5 & public & [-> Hpub]%or_error_run & Hr)]; [done |].
  apply bind_run in Hr as [(e & _ & ->) | (w6 & server & [-> Hsrv]%or_error_run & Hr)]; [done |].
  apply bind_run in Hr as [(e & _ & ->) | (w7 & private & Hpriv & [= <- <-])]; [done |].
  change (ssh_result show_status run' (profile_command m)) with (ssh_result show_status run' (profile_command m)) in *.
  fold (profile_command m) in Hp. destruct (ssh_result show_status run' (profile_command m)) as [p |]; [| done]. injection Hp as ->.
  exists p. destruct (parse_server_profile _ _) as [sv |]; [| done]. injection Hsrv as ->.
  destruct (profile_client_public_key p) as [pk |]; [| done]. injection Hpub as ->.
  destruct (client_private_key sv) as [pr |]; [| done]. by injection Hpriv as _ ->.
Qed.

(** The end of an enrolment: the server is added, or nothing more is sent, or the access is removed in a state
    where no configuration has it. *)
Lemma save_enrollment_run m server private public w w' r :
  save_enrollment show_status m server private public w = (w', r) ->
  (events w' = events w /\ (r = inr tt -> exists w0, add_server (managed_by m server) w0 = (w', Ok tt))) \/
  (exists w0 run e, r = inl e /\ enrollment_uncommitted private w0 = true /\
     ssh (call_to m ("remove-router-peer " +:+ public)) w0 = (w', run) /\
     events w' = events w ++ [Sent (call_to m ("remove-router-peer " +:+ public)) run]).
Proof.
  unfold save_enrollment. intros [(e & He & ->) | (w1 & [] & [Hs1 _]%reports_run & Hr)]%bind_run; [by apply reports_run in He as [_ ?] |].
  apply bind_run in Hr as [(e & He & ->) | (w2 & outcome & Ht & Hr)]; [by apply try_run in He as [(? & _ & ?) | (? & _ & ?)] |].
  apply try_run in Ht as [([] & Ht & [= ->]) | (e0 & Ht & [= ->])].
  { left. injection Hr as <- <-. pose proof (add_seen (managed_by m server) w1) as Ha. unfold calls in Ht.
    destruct (add_server (managed_by m server) w1) as [w3 [[] |]] eqn:E; [| done]. injection Ht as <-. cbn in Ha.
    split; [by rewrite Ha, Hs1 | intros _; by exists w1]. }
  assert (events w2 = events w) as Heq.
  { apply calls_silent in Ht; [by rewrite Ht, Hs1 | apply add_seen]. }
  apply bind_run in Hr as [(e & He & ->) | (w3 & e & He & [= <- <-])]; unfold rollback_enrollment in He;
    apply bind_run in He as [(e' & ? & ?) | (w4 & b & [= <- <-] & He)]; try done.
  - destruct (negb _); [done |]. apply bind_run in He as [(e' & He & ?) | (w5 & o & _ & ?)]; [| done].
    by apply try_run in He as [(? & _ & ?) | (? & _ & ?)].
  - destruct (enrollment_uncommitted private w2) eqn:Eu; cbn [negb] in He; [| left; by injection He as <- _].
    right. apply bind_run in He as [(e' & He & ?) | (w5 & o & Ht' & [= <- _])]; [done |].
    assert (exists x, key_ssh show_status m ("remove-router-peer " +:+ public) None w2 = (w5, x)) as [x Hx].
    { apply try_run in Ht' as [(y & Hy & _) | (y & Hy & _)]; eauto. }
    apply sent_run in Hx as (run & Hrun & Hev & _). exists w2, run, e. rewrite <- Heq. done.
Qed.

(** C24. A host is trusted only under the key that was pinned for it: the password goes out at most once,
    after the pin, and every command trusts that key alone; a server whose protocol is not the expected one
    is not asked for access. Success means the server is in the configuration with this key. The access of a
    new router is taken away again only in a state where neither the memory nor the file has its key. *)
Theorem enrolment_trusts_pinned_key name host port password w w' r :
  bootstrap (net := net) read_capabilities show_status SERVER_INSTALLER name host port password w = (w', r) ->
  exists new, events w' = events w ++ new /\ enrolment host port password w' new r.
Proof.
  unfold bootstrap. intros [(e & He & ->) | (w1 & [] & [Hs1 _]%reports_run & Hr)]%bind_run; [by apply reports_run in He as [_ ?] |].
  assert (forall w2 e, events w2 = events w -> w' = w2 -> r = inl e -> exists new, events w' = events w ++ new /\ enrolment host port password w' new r) as Hstop.
  { intros w2 e Heq -> ->. exists []. rewrite app_nil_r. split; [done | constructor]. }
  apply bind_run in Hr as [(e & He & ->) | (w2 & running & [= <- <-] & Hr)]; [done |].
  apply bind_run in Hr as [(e & He & ->) | (w2 & [] & [-> _]%require_run & Hr)]; [apply require_run in He as [-> _]; by eapply Hstop |].
  apply bind_run in Hr as [(e & [= -> _] & ->) | (w2 & ? & [= <- _] & Hr)]; [by eapply Hstop |].
  apply bind_run in Hr as [(e & [= -> _] & ->) | (w2 & nm & [= <- _] & Hr)]; [by eapply Hstop |].
  apply bind_run in Hr as [(e & [= -> _] & ->) | (w2 & ? & [= <- _] & Hr)]; [by eapply Hstop |].
  apply bind_run in Hr as [(e & He & ->) | (w2 & [] & [Hs2 _]%reports_run & Hr)]; [by apply reports_run in He as [_ ?] |].
  unfold silent in Hs1, Hs2. rewrite Hs1 in Hs2. clear Hstop Hs1 w1.
  apply bind_run in Hr as [(e & He & ->) | (w3 & k & Ht & Hr)].
  { apply trust_host_run in He as [[Heq _] | (k & [] & Heq & _)]; eexists.
    - rewrite Heq, Hs2, <- (app_nil_r (events w)) at 1. split; [done | constructor].
    - rewrite Heq, Hs2. split; [done | constructor].
    - rewrite Heq, Hs2. split; [done | constructor]. }
  apply trust_host_run in Ht as [(_ & ? & ?) | (k' & ? & Ht & [<- ->])]; [done |]. cbv zeta in Hr. rewrite Hs2 in Ht. clear Hs2.
  set (m := ManagedServer host port k) in *.
  apply bind_run in Hr as [(e & He & ->) | (w4 & [] & Hi & Hr)].
  { apply install_run in He as [[Heq _] | (script & Heq)]; rewrite Ht, ?app_assoc in Heq; eexists.
    - split; [exact Heq | constructor].
    - split; [by rewrite Heq, <- app_assoc | by eapply installed_only]. }
  apply install_run in Hi as [(_ & ? & ?) | (script & Hi)]; [done |]. rewrite Ht, <- app_assoc in Hi. clear Ht.
  apply bind_run in Hr as [(e & He & ->) | (w5 & [[server private] public] & Hn & Hr)].
  { apply enroll_router_run in He as (run & [[Hev _] | (text & run' & Ht & H2 & Hev & _)]); rewrite Hi, <- app_assoc in Hev; eexists; (split; [exact Hev |]).
    - by eapply capabilities_refused.
    - by eapply profile_asked. }
  apply enroll_router_run in Hn as (run & [(_ & ? & ?) | (text & run' & Ht & H2 & Hn & profile & Hp & Hsrv & Hpriv & Hpub)]); [done |].
  rewrite Hi, <- app_assoc in Hn. cbn [app] in Hn.
  apply save_enrollment_run in Hr as [[Heq Hok] | (w0 & run'' & e & -> & Hun & Hrun & Hev)].
  - rewrite Hn in Heq. eexists. split; [exact Heq |]. eapply profile_asked; [exact Ht | done | done |].
    intros ->. destruct (Hok eq_refl) as [w0 Hadd]. by exists w0, nm, profile, server.
  - rewrite Hn, <- app_assoc in Hev. eexists. split; [exact Hev |]. by eapply access_removed.
Qed.
End Enrolment.

(** ** A server to manage *)

Module SampleVps.
Record world := World { w_config : controller_config; w_saved : option controller_config; w_events : list event }.

Definition see (ev : event) (w : world) : world := World (w_config w) (w_saved w) (w_events w ++ [ev]).

Definition profile : string := unlines
  ["# ClientPublicKey = AAAAAAAAAAAAAAAAAAAAAAAAAAAAAAAAAAAAAAAAAAA="; "[Interface]"; "PrivateKey = BAAAAAAAAAAAAAAAAAAAAAAAAAAAAAAAAAAAAAAAAAA=";
   "Address = 10.202.0.2/32"; "MTU = 1379"; ""; "[Peer]"; "PublicKey = CAAAAAAAAAAAAAAAAAAAAAAAAAAAAAAAAAAAAAAAAAA=";
   "AllowedIPs = 0.0.0.0/0"; "Endpoint = 1.1.1.1:8443"; "PersistentKeepalive = 10"]%string.

Definition answer (c : ssh_call) : ssh_run :=
  Ended (Exited 0) (if bool_decide (sc_remote c = "create-router-profile 1.1.1.1:8443")%string then profile else sc_remote c) "" true.

(** A world whose configuration takes new servers, or refuses them. *)
Definition add (refuses : bool) (s : server_profile) (w : world) : world * result unit :=
  if refuses then (w, Err (Msg "refused"))
  else
    let c := w_config w in
    let c := ControllerConfig (auto_update_enabled c) (device_exclusions c) (vpn_enabled c) (active_server_key c) (servers c ++ [s]) (routing c) in
    (World c (Some c) (w_events w), Ok tt).

#[refine] Instance vps (refuses : bool) : Vps world := {|
  the_config := w_config;
  saved_config := w_saved;
  operation_running _ := false;
  wait_operation w := (w, Ok tt);
  report _ w := w;
  preserve_host_pins _ w := (w, Ok tt);
  pin_host h p k w := (see (Pinned h p k true) w, Ok tt);
  key_present _ := true;
  management_key w := (w, Ok tt);
  management_public_key w := (w, Ok "ssh-ed25519 KEY"%string);
  keyscan _ _ w := (w, Ok ("1.1.1.1 " +:+ sample_key)%string);
  fingerprint _ w := (w, Ok "SHA256:sample"%string);
  write_known_hosts _ w := (w, Ok tt);
  ssh c w := (see (Sent c (answer c)) w, answer c);
  sshpass c w := (see (PasswordSent c) w, Session [] (Exited 0) "");
  add_server := add refuses;
|}.
Defined.

#[refine] Instance laws (refuses : bool) : VpsLaws world (H := vps refuses) := {| events := w_events |}.
Proof. all: try done. by intros s w; destruct refuses. Defined.

Definition empty_config : controller_config := ControllerConfig false [] false None [] routing_default.
Definition start : world := World empty_config (Some empty_config) [].

Definition capabilities (text : string) : option capabilities_json :=
  if bool_decide (text = "capabilities"%string) then Some (CapObject [("owner_protocol"%string, Some 2)]) else None.

Definition enroll (refuses : bool) : world * (error + unit) :=
  bootstrap (H := vps refuses) (net := PrefixNet.t) capabilities (fun _ => "exit status"%string) "installer" "VPS" "1.1.1.1" 22 "secret" start.

Definition remotes (w : world) : list string :=
  omap (fun ev => match ev with Sent c _ => Some (sc_remote c) | _ => None end) (w_events w).

Example enrolled : (enroll false).2 = inr tt /\ length (servers (w_config (enroll false).1)) = 1%nat
  /\ remotes (enroll false).1 = ["capabilities"; "create-router-profile 1.1.1.1:8443"]%string.
Proof. by vm_compute. Qed.

Example rolled_back : (enroll true).2 = inl (Msg "refused")
  /\ last (remotes (enroll true).1) = Some "remove-router-peer AAAAAAAAAAAAAAAAAAAAAAAAAAAAAAAAAAAAAAAAAAA="%string.
Proof. by vm_compute. Qed.
End SampleVps.

Lemma enrolment_trusts_pinned_key_witness : exists new,
  events (W := SampleVps.world) (VpsLaws := SampleVps.laws true) (SampleVps.enroll true).1 = new /\
  enrolment (H := SampleVps.vps true) (net := PrefixNet.t) SampleVps.capabilities (fun _ => "exit status"%string)
    "1.1.1.1" 22 "secret" (SampleVps.enroll true).1 new (SampleVps.enroll true).2.
Proof.
  destruct (enrolment_trusts_pinned_key (H0 := SampleVps.laws true) (net := PrefixNet.t) SampleVps.capabilities (fun _ => "exit status"%string) "installer"
              "VPS" "1.1.1.1" 22 "secret" SampleVps.start (SampleVps.enroll true).1 (SampleVps.enroll true).2 (surjective_pairing _)) as (new & Hnew & He).
  exists new. by split.
Defined.

(** The status cannot be read after the change: the change is told to be in force, and went out once. *)
Lemma managed_writes_once_witness :
  let state := SampleVps.World (ControllerConfig false [] false None
    [ServerProfile "VPS" "" "1.1.1.1:8443" "CAAAAAAAAAAAAAAAAAAAAAAAAAAAAAAAAAAAAAAAAAA=" None None (Some (ManagedServer "1.1.1.1" 22 sample_key))] routing_default) None [] in
  let key := "CAAAAAAAAAAAAAAAAAAAAAAAAAAAAAAAAAAAAAAAAAA="%string in
  let run := run_write (H := SampleVps.vps false) (fun _ => None) (fun n => n) (fun _ => "exit status"%string) key Restart state in
  SampleVps.remotes run.1 = ["restart-vpn"; "managed-status"]%string /\
  run.2 = inl (Mark CommittedRefreshFailed (Ctx "invalid managed server status" (Msg "invalid JSON"))) /\
  (not_sent (H := SampleVps.vps false) (H0 := SampleVps.laws false) state run.1 run.2 \/
   sent_once (H := SampleVps.vps false) (H0 := SampleVps.laws false) (fun n => n) (fun _ => "exit status"%string) key Restart state run.1 run.2).
Proof.
  intros state key run. split; [by vm_compute |]. split; [by vm_compute |].
  apply (managed_writes_once (H0 := SampleVps.laws false) (fun _ => None) (fun n => n) (fun _ => "exit status"%string) key Restart state).
  apply surjective_pairing.
Defined.
