(* ===== verification/Fleet.v ===== *)
(** * The agent and its servers (gofro-agent and gofro-server together)

    What one program prints and the other reads: the endpoint an agent asks for, the
    profile a server answers, its status, and what it says of its protocol. *)

From stdpp Require Import base gmap sets strings list sorting.
From Stdlib Require Import Ascii ZArith Lia.
From S2P Require Import Prelude RustStd IpAddr Net Effects RelayCodec Peers Model Config Ssh Managed Server ServerSafety.

(** ** Endpoints *)

Lemma split_once_bytes_last c l k : Forall (fun a => eqb_ascii a c = false) k -> split_once_bytes c (rev (l ++ c :: k)) = Some (rev k, rev l).
Proof.
  intros Hk. rewrite rev_app_distr. cbn. rewrite <- app_assoc. apply split_once_bytes_app. by apply Forall_rev.
Qed.

Lemma rsplit_once_port h p : Forall (fun a => eqb_ascii a ":"%char = false) (chars p) -> rsplit_once ":"%char (h +:+ ":" +:+ p) = Some (h, p).
Proof.
  intros Hp. unfold rsplit_once. rewrite !chars_app. change (chars ":" ++ chars p) with (":"%char :: chars p).
  rewrite split_once_bytes_last by done. by rewrite !rev_involutive, !str_chars.
Qed.

Lemma show_ipv4_chars a : is_u 32 a -> Forall (fun c => is_ascii_digit c || eqb_ascii c "."%char = true) (chars (show_ipv4 a)).
Proof.
  intros Ha. unfold show_ipv4. pose proof (ipv4_octets a Ha) as Ho. destruct (octets a) as [[[w x] y] z]. destruct Ho as (_ & Hw & Hx & Hy & Hz).
  unfold join. rewrite chars_str. cbn [fmap list_fmap]. apply join_Forall; [by vm_compute |].
  assert (forall n, is_u 8 n -> Forall (fun c => is_ascii_digit c || eqb_ascii c "."%char = true) (chars (show n))) as Hs.
  { intros n Hn. unfold show. rewrite chars_str. eapply Forall_impl; [apply show_bytes_digits; unfold is_u in Hn; lia |].
    cbn. intros c Hc. by rewrite Hc. }
  repeat constructor; by apply Hs.
Qed.

Lemma unbracketed_brackets h : unbracketed ("[" +:+ h +:+ "]") = h.
Proof.
  unfold unbracketed. rewrite (proj2 (strip_prefix_Some "[" _ (h +:+ "]"))) by done. cbn [mbind option_bind].
  by rewrite (proj2 (strip_suffix_Some "]" _ h)).
Qed.

Lemma plain_host h : Forall (fun c => is_ascii_digit c || eqb_ascii c "."%char = true) (chars h) ->
  starts_with "[" h = false /\ ends_with "]" h = false /\ unbracketed h = h.
Proof.
  intros Hh. assert (strip_prefix "[" h = None) as Hp.
  { apply eq_None_not_Some. intros [r Hr%strip_prefix_Some]. subst. rewrite chars_app in Hh. by inversion Hh. }
  split_and!.
  - unfold starts_with. by rewrite Hp.
  - unfold ends_with. apply bool_decide_eq_false. intros [r Hr%strip_suffix_Some]. subst. rewrite chars_app in Hh.
    apply Forall_app in Hh as [_ Hh]. by inversion Hh.
  - unfold unbracketed. by rewrite Hp.
Qed.

Lemma read_octet_range c first l n r : separated c first read_octet l = Some (n, r) -> is_u 8 n.
Proof.
  intros Hr. assert (exists l', read_octet l' = Some (n, r)) as [l' Ho].
  { destruct first; [by exists l |]. cbn in Hr. apply bind_Some in Hr as ([[] l'] & _ & Hr). by exists l'. }
  unfold read_octet in Ho. destruct (take_digits _ _) as [ds r']. apply bind_Some in Ho as (m & Hm & [= <- <-]). by eapply parse_octet_range.
Qed.

Lemma parse_ip_v4_range s a : parse_ip s = Some (V4 a) -> is_u 32 a.
Proof.
  unfold parse_ip. destruct (read_ipv4 (chars s)) as [[a' l] |] eqn:E; [| by repeat case_match]. case_bool_decide; [| done]. intros [= ->].
  unfold read_ipv4 in E. apply bind_Some in E as ([w l1] & Hw%read_octet_range & E). apply bind_Some in E as ([x l2] & Hx%read_octet_range & E).
  apply bind_Some in E as ([y l3] & Hy%read_octet_range & E). apply bind_Some in E as ([z l4] & Hz%read_octet_range & [= <- _]).
  by apply ipv4_range.
Qed.

(** The server accepts the endpoint an agent asks for: for every address in its canonical text, of
    either version, the text sent with a request is the one form the server takes. *)
Theorem managed_endpoint_accepted host : ip_canonical host = true -> Server.validate_managed_endpoint (Managed.endpoint host) = Ok tt.
Proof.
  unfold ip_canonical. destruct (parse_ip host) as [ip |] eqn:Ep; [| done]. intros Hc%bool_decide_eq_true.
  unfold Managed.endpoint. rewrite Ep. unfold Server.validate_managed_endpoint.
  assert (forall t, rsplit_once ":"%char (t +:+ ":8443") = Some (t, "8443"%string)) as Hsplit.
  { intros t. change ":8443"%string with (":" +:+ "8443")%string. apply rsplit_once_port. by repeat constructor. }
  destruct ip as [a | gs].
  - rewrite Hsplit. cbn [ok_or mbind result_bind ensure].
    assert (Forall (fun c => is_ascii_digit c || eqb_ascii c "."%char = true) (chars host)) as Hh.
    { rewrite <- Hc. cbn [show_ip]. by eapply show_ipv4_chars, parse_ip_v4_range. }
    destruct (plain_host host Hh) as (-> & -> & ->). rewrite Ep, bool_decide_true by done. cbn. by rewrite bool_decide_true.
  - replace ("[" +:+ host +:+ "]:8443")%string with (("[" +:+ host +:+ "]") +:+ ":8443")%string by (by rewrite <- !string_app_assoc).
    rewrite Hsplit.
    cbn [ok_or mbind result_bind ensure]. rewrite unbracketed_brackets, Ep.
    replace (starts_with "[" ("[" +:+ host +:+ "]")) with true by (symmetry; apply bool_decide_eq_true; eexists; by apply strip_prefix_Some).
    cbn. by rewrite !bool_decide_true.
Qed.

(** ** The status *)

Record peer_fine (p : friend_peer) : Prop := {
  pf_key : validate_peer_key (fp_public_key p) = Ok tt;
  pf_state : fp_can_share p && fp_revoked p = false;
}.

Lemma validate_peers_fine peers : forall keys, Forall peer_fine peers -> Forall (fun p => validate_name (fp_name p) = Ok (fp_name p)) peers -> NoDup (fp_public_key <$> peers) ->
  (forall p, p ∈ peers -> fp_public_key p ∉ keys) -> validate_peers keys peers = Ok tt.
Proof.
  induction peers as [| p peers IH]; intros keys Hf Hns Hnd Hkeys; cbn [validate_peers]; [done |].
  apply Forall_cons in Hf as [[Hk Hs] Hf]. apply Forall_cons in Hns as [Hn Hns]. cbn in Hnd. apply NoDup_cons in Hnd as [Hni Hnd].
  rewrite Hk. cbn [mbind result_bind]. rewrite bool_decide_false by (apply Hkeys, elem_of_cons; by left). rewrite Hs, Hn. cbn [mbind result_bind].
  rewrite bool_decide_true by done. apply IH; [done.. |]. intros q Hq. rewrite elem_of_union, elem_of_singleton. intros [Heq | Hin].
  - apply Hni. rewrite <- Heq. by apply list_elem_of_fmap_2.
  - revert Hin. apply Hkeys, elem_of_cons. by right.
Qed.

Lemma validate_peers_names peers : forall keys, validate_peers keys peers = Ok tt ->
  Forall (fun p => validate_name (fp_name p) = Ok (fp_name p)) peers.
Proof.
  induction peers as [| p peers IH]; intros keys; cbn [validate_peers]; [by constructor |].
  intros ([] & _ & Hv)%bind_ok. case_bool_decide; [done |].
  destruct (fp_can_share p && fp_revoked p); [done |]. apply bind_ok in Hv as (n & Hn & Hv). case_bool_decide; cbn [negb] in Hv; [| done].
  constructor; [congruence | by eapply IH].
Qed.

(** A name that [validate_name] leaves as it is. The check of the server's loader is weaker: it only asks
    that [validate_name] succeeds, so it reads a name with spaces around it. *)
Definition normal (name : string) : Prop := validate_name name = Ok name.

Lemma validated_normal input name : validate_name input = Ok name -> normal name.
Proof.
  unfold normal, validate_name. destruct (_ || _ || _) eqn:E; [done |]. intros [= <-]. by rewrite trim_idemp, E.
Qed.

(** The names of the metadata. *)
Definition names_normal (s : friend_store) : Prop := Forall (fun r => normal (fr_name r)) (fs_records s).

Section Status.
Context {W : Type} `{ServerLaws W} {net : Type} `{!Ipnet net} `{!WireGuardLaws W net}.
Context `{!EqDecision net} `{!IpnetLaws net} `{!IpnetText net}.

(** Every tunnel address is a name, by looking at each. *)
Lemma tunnel_names k : (k < 255)%nat ->
  let n := (show_ipv4 (ipv4 10 202 0 (Z.of_nat k)) +:+ "/" +:+ show 32)%string in validate_name n = Ok n.
Proof.
  intros Hk. assert (forallb (fun k => let n := (show_ipv4 (ipv4 10 202 0 (Z.of_nat k)) +:+ "/" +:+ show 32)%string in
    bool_decide (validate_name n = Ok n)) (seq 0 255) = true) as Hall by (by vm_compute).
  rewrite forallb_forall in Hall. specialize (Hall k). cbv zeta in Hall |- *.
  apply bool_decide_eq_true in Hall; [done |]. apply in_seq. lia.
Qed.

Lemma tunnel_ip_name r (n : net) : validate_tunnel_ip r = Ok n -> validate_name (net_show n) = Ok (net_show n).
Proof.
  intros (m & _ & Hv)%bind_ok. pose proof (ipv4_octets (addr m) (addr_range m)) as Ho.
  destruct (octets (addr m)) as [[[a b] c] d]. destruct (_ || _) eqn:E; [done |]. injection Hv as ->. destruct Ho as (Ha & _).
  apply orb_false_iff in E as [[Hp%negb_false_iff%Z.eqb_eq Hb%negb_false_iff]%orb_false_iff Hd%negb_false_iff].
  assert (a = 10 /\ b = 202 /\ c = 0 /\ 2 <= d <= 254) as (-> & -> & -> & Hd') by lia.
  rewrite net_show_text, Ha, Hp. assert (exists k, d = Z.of_nat k /\ (k < 255)%nat) as (k & -> & Hk) by (exists (Z.to_nat d); lia).
  by apply tunnel_names.
Qed.

(** The names that are listed: of the records, or the tunnel address of a friend without a record. *)
Lemma friend_peers_named s w : store_ok s -> names_normal s ->
  Forall (fun p => normal (fp_name p)) (friend_peers s (classify (net := net) (owner_keys s) (allowed_text (live w)))).
Proof.
  intros Hs Hn. unfold friend_peers. rewrite merge_sort_Permutation. apply Forall_app. split; apply Forall_forall; intros p Hp.
  - apply list_elem_of_omap in Hp as (r & Hr & Hp). unfold names_normal in Hn. rewrite Forall_forall in Hn. specialize (Hn r Hr). cbn in Hn.
    unfold known_peer in Hp. destruct (_ !! _) as [[]|]; by simplify_eq.
  - apply list_elem_of_omap in Hp as ([k kind] & Hk%elem_of_map_to_list & Hp). unfold unknown_peer in Hp. destruct kind as [ip | |]; [| done..].
    destruct (has_record s k); [done |]. injection Hp as <-. rewrite classify_live in Hk.
    apply fmap_Some in Hk as (rs & _ & Hkind). case_bool_decide; [done |]. symmetry in Hkind.
    apply classify_friend_routes in Hkind as (n & r & _ & Hv & _ & ->). by eapply tunnel_ip_name.
Qed.

Lemma friend_peers_fine s w : store_ok s ->
  let listed := friend_peers s (classify (net := net) (owner_keys s) (allowed_text (live w))) in
  Forall peer_fine listed /\ NoDup (fp_public_key <$> listed).
Proof.
  intros Hs listed. set (active := classify _ _) in listed.
  assert (listed ≡ₚ omap (known_peer active) (fs_records s) ++ omap (unknown_peer s) (map_to_list active)) as Hperm by apply merge_sort_Permutation.
  rewrite Hperm. split.
  - apply Forall_app. split; apply Forall_forall; intros p Hp.
    + apply list_elem_of_omap in Hp as (r & Hr & Hp). pose proof (so_records _ Hs) as Hrec. rewrite Forall_forall in Hrec.
      destruct (Hrec r Hr) as [Hk _ _].
      unfold known_peer in Hp. destruct (active !! _) as [[]|]; simplify_eq; (split; [done |]); cbn; by rewrite ?andb_false_r.
    + apply list_elem_of_omap in Hp as ([k kind] & Hk%elem_of_map_to_list & Hp). unfold unknown_peer in Hp. destruct kind as [ip | |]; [| done..].
      destruct (has_record s k) eqn:Hrec; [done |]. injection Hp as <-. unfold active in Hk. rewrite classify_live in Hk.
      apply fmap_Some in Hk as (rs & Hin & Hkind). case_bool_decide; [done |]. symmetry in Hkind.
      apply classify_friend_routes in Hkind as (n & r & _ & Hv & _ & ->). split; [| done].
      apply elem_of_list_to_map_2 in Hin. pose proof (listed_words (net := net) w) as Hw. rewrite Forall_forall in Hw. by apply (Hw _ Hin).
  - rewrite fmap_app. pose proof (so_keys _ Hs) as Hnd. apply NoDup_app in Hnd as [Hnd _].
    assert (forall p, p ∈ omap (known_peer active) (fs_records s) -> has_record s (fp_public_key p) = true) as Hknown.
    { intros p (r & Hr & Hp)%list_elem_of_omap. unfold has_record. apply existsb_exists. exists r. split; [by apply list_elem_of_In |].
      unfold known_peer in Hp. apply bool_decide_eq_true. destruct (active !! _) as [[]|]; by simplify_eq. }
    apply NoDup_app. split_and!.
    + clear -Hnd. induction (fs_records s) as [| r rs IH]; cbn in *; [constructor |]. apply NoDup_cons in Hnd as [Hni Hnd].
      specialize (IH Hnd). unfold known_peer at 1. assert (fr_public_key r ∉ fp_public_key <$> omap (known_peer active) rs) as Hout.
      { intros (p & Hk & (r' & Hr' & Hp)%list_elem_of_omap)%list_elem_of_fmap. apply Hni. rewrite Hk.
        assert (fp_public_key p = fr_public_key r') as -> by (unfold known_peer in Hp; destruct (active !! _) as [[]|]; by simplify_eq).
        by apply list_elem_of_fmap_2. }
      destruct (active !! fr_public_key r) as [[]|]; cbn; try done; by constructor.
    + intros ? (p & -> & Hp)%list_elem_of_fmap (q & Hq & ([k kind] & _ & Hu)%list_elem_of_omap)%list_elem_of_fmap.
      apply Hknown in Hp. unfold unknown_peer in Hu. destruct kind; [| done..]. destruct (has_record s k) eqn:E; [done |].
      injection Hu as <-. cbn in Hq. congruence.
    + pose proof (NoDup_fst_map_to_list active) as Hm. revert Hm. generalize (map_to_list active) as l. clear.
      induction l as [| [k kind] l IH]; cbn; [constructor |]. intros [Hni Hnd]%NoDup_cons. specialize (IH Hnd).
      assert (k ∉ fp_public_key <$> omap (unknown_peer s) l) as Hout.
      { intros (p & -> & ([k' kind'] & Hl & Hp)%list_elem_of_omap)%list_elem_of_fmap. apply Hni. unfold unknown_peer in Hp.
        destruct kind'; [| done..]. destruct (has_record s k'); [done |]. injection Hp as <-. cbn. by apply (list_elem_of_fmap_2 fst _ (k', _)) in Hl. }
      destruct kind; cbn; [destruct (has_record s k); [done | by constructor] | done | done].
Qed.

Lemma warp_status_consistent i (h h' : host W) st : read_warp_status i h = (h', inr st) -> inconsistent_warp st = false.
Proof.
  unfold read_warp_status. intros [(e & ? & ?) | (h1 & is_prepared & _ & Hr)]%bind_run; [done |].
  destruct is_prepared; [| by injection Hr as _ <-].
  apply bind_run in Hr as [(e & ? & ?) | (h2 & output & _ & Hr)]; [done |]. apply bind_run in Hr as [(e & ? & ?) | (h3 & st' & _ & Hr)]; [done |].
  apply bind_run in Hr as [(e & ? & ?) | (h4 & [] & Hq & Hr)]; [done |]. injection Hr as _ <-.
  by apply require_run in Hq as [_ [[Hq%negb_true_iff _] | [_ ?]]].
Qed.

(** *** Whose names they are *)

Definition named (g : registry) : Prop := map_Forall (fun _ f => normal f.1) (g_friends g).

Lemma named_store s : store_ok s -> names_normal s <-> map_Forall (fun _ f => normal f.1) (friends_of s).
Proof.
  intros Hs. pose proof (so_keys _ Hs) as Hnd. apply NoDup_app in Hnd as [Hnd _]. unfold names_normal. split.
  - intros Hn k f Hf. unfold friends_of in Hf. apply elem_of_list_to_map_2, list_elem_of_fmap in Hf as (r & [= -> ->] & Hr).
    rewrite Forall_forall in Hn. by apply Hn.
  - intros Hn. apply Forall_forall. intros r Hr. apply (Hn (fr_public_key r) (fr_name r, fr_private_key r)). unfold friends_of.
    apply elem_of_list_to_map_1; [| apply list_elem_of_fmap; by exists r]. by rewrite <- list_fmap_compose.
Qed.

(** What a command of [gofro-server] hands to an operation: a name comes from [read_friend_name]. *)
Definition requested (op : operation) : Prop :=
  match op with
  | OpCreate _ name | OpRename _ name => exists stdin h0 h1, read_friend_name stdin h0 = (h1, inr name)
  | _ => True
  end.

Lemma requested_normal stdin (h h' : host W) name : read_friend_name stdin h = (h', inr name) -> normal name.
Proof.
  intros [(e & _ & [=]) | (h1 & u & _ & Hr)]%bind_run. apply bind_run in Hr as [(e & _ & [=]) | (h2 & input & _ & Hr)].
  apply bind_run in Hr as [(e & _ & [=]) | (h3 & v & _ & Hr)]. apply bind_run in Hr as [(e & _ & [=]) | (h4 & n & _ & Hr)].
  apply of_result_run in Hr as [_ Hr]. by eapply validated_normal.
Qed.

Lemma commits_named op g g2 : requested op -> commits (net := net) op g g2 -> named g -> named g2.
Proof.
  unfold named. intros Hop Hc Hn. destruct Hc; cbn; try done; try (apply map_Forall_insert_2; [cbn | done]).
  - destruct Hop as (stdin & h0 & h1 & Hop). by eapply requested_normal.
  - destruct Hop as (stdin & h0 & h1 & Hop). by eapply requested_normal.
  - by eapply tunnel_ip_name.
Qed.

(** A server that began without friends, whose metadata only its own operations write; whatever else
    happens on the host may happen between them. *)
Inductive kept (i : string) : host W -> Prop :=
| kept_new h s : metadata_of h = Ok s -> store_ok s -> fs_records s = [] -> kept i h
| kept_operation h h' op r :
    kept i h -> requested op -> (forall s, metadata_of h = Ok s -> fresh_keys (registry_of h s)) ->
    run_operation (net := net) i op h = (h', r) -> kept i h'
| kept_world h h' : kept i h -> store_file h' = store_file h -> kept i h'.

Lemma kept_names i h : kept i h -> exists s, metadata_of h = Ok s /\ store_ok s /\ names_normal s.
Proof.
  induction 1 as [h s Hm Hs Hnil | h h' op r _ (s & Hm & Hs & Hn) Hop Hfresh Hr | h h' _ (s & Hm & Hs & Hn) Hst].
  - exists s. unfold names_normal. by rewrite Hnil.
  - assert (operation_ok op) as Hok.
    { destruct op; try done; destruct Hop as (stdin & h0 & h1 & Hop%requested_normal); unfold operation_ok; by rewrite Hop. }
    destruct (operation_run _ _ _ _ _ _ Hm Hs Hok (Hfresh s Hm) Hr) as (g' & (s' & Hm' & Hs' & ->) & Ho).
    exists s'. split_and!; [done | done |]. apply named_store; [done |]. apply named_store in Hn; [| done].
    destruct r as [e | x]; [| by apply (commits_named op (registry_of h s) (registry_of h' s'))].
    destruct Ho as [[[Hf _] | (g2 & Hc & Hf & _)] _]; cbn in Hf; rewrite Hf; [done |].
    by apply (commits_named op (registry_of h s) g2).
  - exists s. by rewrite (metadata_same h).
Qed.

End Status.

(** ** The profile *)

Lemma trim_ends a l z : printable a -> printable z -> trim (str (a :: l ++ [z])) = str (a :: l ++ [z]).
Proof.
  intros Ha Hz. apply trim_none; rewrite chars_str.
  - unfold starts_ws, ws1, ws2, ws3, in_range, printable in *. destruct l as [| b [| c l]]; cbn; lia.
  - change (a :: l ++ [z]) with ((a :: l) ++ [z]). rewrite rev_app_distr. cbn [rev app].
    unfold ends_ws, ws1, ws2, ws3, in_range, printable in *. destruct (rev l ++ [a]) as [| b [| c r]]; lia.
Qed.

Lemma word_ends s : word s -> exists a l, chars s = a :: l /\ printable a.
Proof. intros [Hs Hne]%word_chars. destruct (chars s) as [| a l]; [done |]. exists a, l. by inversion Hs. Qed.

Lemma word_last s : word s -> exists l z, chars s = l ++ [z] /\ printable z.
Proof.
  intros [Hs Hne]%word_chars. destruct (exists_last Hne) as (l & z & E). exists l, z. split; [done |]. rewrite E in Hs.
  apply Forall_app in Hs as [_ Hz]. by inversion Hz.
Qed.

(** A line from a printable character to a word is as it is. *)
Lemma trim_line a (t v : string) : printable a -> word v -> trim (str (a :: chars t) +:+ v) = str (a :: chars t) +:+ v.
Proof.
  intros Ha (l & z & Hv & Hz)%word_last. rewrite <- (str_chars (_ +:+ v)), chars_app, chars_str, Hv.
  rewrite app_assoc. rewrite <- app_comm_cons. rewrite <- app_comm_cons. by apply trim_ends.
Qed.

Lemma trim_space_after s : word s -> trim (s +:+ " ") = s.
Proof.
  intros Hw. destruct (word_ends s Hw) as (a & l & E & Ha). apply word_chars in Hw as [Hs _].
  unfold trim, trim_start, trim_end. rewrite chars_app. rewrite trim_start_none.
  2: { rewrite E. unfold starts_ws, ws1, ws2, ws3, in_range, printable in *. destruct l as [| b [| c l]]; cbn; lia. }
  rewrite chars_str, rev_app_distr. change (trim_end_rev (rev (chars " ") ++ rev (chars s))) with (trim_end_rev (rev (chars s))).
  rewrite trim_end_none by (apply printable_not_ws; by apply Forall_rev).
  by rewrite rev_involutive, str_chars.
Qed.

Lemma trim_space_before s : word s -> trim (" " +:+ s) = s.
Proof.
  intros [Hs _]%word_chars. unfold trim, trim_start, trim_end. rewrite chars_app. cbn [app]. change (chars " ") with [SPACE]. cbn [app].
  change (trim_start_bytes (SPACE :: chars s)) with (trim_start_bytes (chars s)). rewrite trim_start_none by (by apply printable_not_ws).
  rewrite chars_str, trim_end_none by (apply printable_not_ws; by apply Forall_rev). by rewrite rev_involutive, str_chars.
Qed.

Definition parameter_name (key : string) : Prop :=
  word key /\ Forall (fun a => eqb_ascii a "="%char = false) (chars key) /\
  match chars key with a :: _ => existsb (eqb_ascii a) ["#"%char; ";"%char; "["%char] = false | [] => False end.

Lemma starts_with_other c (s t : string) : match chars s with a :: _ => eqb_ascii a c = false | [] => False end -> starts_with (str [c]) (s +:+ t) = false.
Proof.
  intros Hs. unfold starts_with. apply bool_decide_eq_false. intros [r Hr%strip_prefix_Some]. apply (f_equal chars) in Hr.
  rewrite !chars_app, chars_str in Hr. destruct (chars s) as [| a l]; [done |]. injection Hr as -> _.
  unfold eqb_ascii in Hs. by rewrite bool_decide_true in Hs.
Qed.

(** A line of a profile sets its parameter. *)
Lemma profile_assignment p key value : parameter_name key -> word value ->
  profile_line p (key +:+ " = " +:+ value) = set_parameter p key value.
Proof.
  intros (Hk & Heq & Hfirst) Hv. unfold profile_line.
  assert (trim (key +:+ " = " +:+ value) = key +:+ " = " +:+ value) as ->.
  { destruct (word_ends key Hk) as (a & l & E & Ha). rewrite string_app_assoc. rewrite <- (str_chars (key +:+ " = ")), chars_app, E.
    rewrite <- app_comm_cons, <- (chars_str (l ++ chars " = ")). by apply trim_line. }
  assert (forall c, existsb (eqb_ascii c) ["#"%char; ";"%char; "["%char] = true -> starts_with (str [c]) (key +:+ " = " +:+ value) = false) as Hother.
  { intros c Hc. apply starts_with_other. destruct (chars key) as [| a l]; [done |]. unfold eqb_ascii in *. apply bool_decide_eq_false. intros ->. congruence. }
  change "#"%string with (str ["#"%char]). change ";"%string with (str [";"%char]). change "["%string with (str ["["%char]).
  rewrite !Hother by done. destruct (word_ends key Hk) as (a & l & E & Ha). rewrite (bool_decide_false (key +:+ _ = _)).
  2: { intros Hn. apply (f_equal chars) in Hn. by rewrite chars_app, E in Hn. }
  cbn [orb andb]. assert (split_once "="%char (key +:+ " = " +:+ value) = Some (key +:+ " ", " " +:+ value)%string) as ->.
  { unfold split_once. rewrite !chars_app. change (chars " = " ++ chars value) with (SPACE :: "="%char :: SPACE :: chars value).
    change (chars key ++ SPACE :: "="%char :: SPACE :: chars value) with (chars key ++ [SPACE] ++ "="%char :: SPACE :: chars value).
    rewrite app_assoc, split_once_bytes_app by (apply Forall_app; by repeat constructor). rewrite str_app, str_chars. do 2 f_equal.
    by rewrite <- (str_chars (" " +:+ value)), chars_app. }
  cbn [ok_or mbind result_bind]. rewrite trim_space_after, trim_space_before by done.
  apply word_chars in Hv as [_ Hv]. by rewrite bool_decide_false by (intros ->; done).
Qed.

Lemma profile_comment p (t v : string) : word v -> profile_line p (str ("#"%char :: chars t) +:+ v) = Ok p.
Proof.
  intros Hv. unfold profile_line. rewrite trim_line by (done || unfold printable; by vm_compute).
  replace (starts_with "#" (str ("#"%char :: chars t) +:+ v)) with true; [by rewrite orb_true_r |].
  symmetry. apply bool_decide_eq_true. exists (t +:+ v). apply strip_prefix_Some. apply chars_inj. rewrite !chars_app, chars_str. done.
Qed.

Lemma wireguard_key_valid key kind : validate_peer_key key = Ok tt -> validate_wireguard_key key kind = Ok tt.
Proof. unfold validate_peer_key, validate_wireguard_key, key_char. by destruct (_ || _). Qed.

Lemma printable_no_whitespace l : Forall printable l -> has_whitespace_bytes l = false.
Proof.
  induction 1 as [| a l Ha Hl IH]; [done |]. cbn. rewrite IH, orb_false_r.
  unfold ws1, ws2, ws3, in_range, printable in *. destruct l as [| b [| c l]]; lia.
Qed.

Lemma show_octet_length n : is_u 8 n -> (length (chars (show n)) <= 3)%nat.
Proof.
  intros Hn. assert (forallb (fun k => (length (chars (show (Z.of_nat k))) <=? 3)%nat) (seq 0 256) = true) as Hall by (by vm_compute).
  rewrite forallb_forall in Hall. specialize (Hall (Z.to_nat n)). unfold is_u in Hn. rewrite Z2Nat.id in Hall by lia.
  apply Nat.leb_le, Hall, in_seq. lia.
Qed.

Lemma show_ipv4_length a : is_u 32 a -> (length (chars (show_ipv4 a)) <= 15)%nat.
Proof.
  intros Ha. pose proof (ipv4_octets a Ha) as Ho. unfold show_ipv4. destruct (octets a) as [[[w x] y] z]. destruct Ho as (_ & Hw & Hx & Hy & Hz).
  apply show_octet_length in Hw, Hx, Hy, Hz. unfold join. rewrite chars_str. cbn [fmap list_fmap join_bytes].
  rewrite !length_app. change (length (chars ".")) with 1%nat. lia.
Qed.

Lemma show_ipv4_word a : is_u 32 a -> word (show_ipv4 a).
Proof.
  intros Ha. pose proof (show_ipv4_chars a Ha) as Hc. split.
  - intros E. pose proof (parse_show_ipv4 a Ha) as Hp. rewrite E in Hp. by vm_compute in Hp.
  - eapply Forall_impl; [exact Hc |]. cbn. intros c. unfold is_ascii_digit, in_range, printable, eqb_ascii.
    intros [Hd | ->%bool_decide_eq_true]%orb_true_iff; [lia | by vm_compute].
Qed.

Lemma word_app s t : word s -> Forall printable (chars t) -> word (s +:+ t).
Proof.
  intros [Hne Hs] Ht. split; [| rewrite chars_app; by apply Forall_app].
  intros E. apply (f_equal chars) in E. rewrite chars_app in E. apply app_eq_nil in E as [E _].
  by apply Hne, chars_inj.
Qed.

Section Profile.
Context {net : Type} `{!Ipnet net} `{!EqDecision net} `{!IpnetLaws net} `{!IpnetText net}.

Lemma tunnel_address_ok r (ip : net) : validate_tunnel_ip r = Ok ip ->
  normalize_tunnel_address (net := net) (net_show ip) = Ok (net_show ip) /\ word (net_show ip) /\ (length (chars (net_show ip)) <= 18)%nat.
Proof.
  intros (m & _ & Hv)%bind_ok. unfold normalize_tunnel_address. rewrite parse_net_show. cbn [ok_or with_context mbind result_bind].
  destruct (octets (addr m)) as [[[a b] c] d] eqn:Eo. destruct (_ || _) eqn:E; [done |]. injection Hv as ->. rewrite Eo.
  apply orb_false_iff in E as [[Hp%negb_false_iff Hb%negb_false_iff]%orb_false_iff Hd%negb_false_iff].
  split; [| split].
  - assert ((a =? 10) = true /\ (b =? 202) = true /\ (c =? 0) = true) as (-> & -> & ->) by lia. by rewrite Hp, Hd.
  - rewrite net_show_text. apply word_app; [apply show_ipv4_word, addr_range |]. apply Z.eqb_eq in Hp. rewrite Hp. by repeat constructor.
  - rewrite net_show_text, !chars_app, !length_app. apply Z.eqb_eq in Hp. rewrite Hp.
    pose proof (show_ipv4_length _ (addr_range ip)). change (length (chars "/")) with 1%nat. change (length (chars (show 32))) with 2%nat. lia.
Qed.

Lemma take_digits_stop q l r : Forall (fun a => q a = true) l -> match r with a :: _ => q a = false | [] => True end -> take_digits q (l ++ r) = (l, r).
Proof.
  intros Hl Hr. induction Hl as [| a l Ha Hl IH]; cbn; [| by rewrite Ha, IH]. destruct r as [| a r]; [done |]. cbn. by rewrite Hr.
Qed.

Lemma read_octet_show n r : is_u 8 n -> match r with a :: _ => is_ascii_digit a = false | [] => True end ->
  read_octet (chars (show n) ++ r) = Some (n, r).
Proof.
  intros Hn Hr. unfold read_octet. rewrite take_digits_stop; [| | done].
  - rewrite str_chars. by rewrite parse_octet_show.
  - unfold show. rewrite chars_str. apply show_bytes_digits. unfold is_u in Hn. lia.
Qed.

Lemma parse_ip_show_ipv4 a : is_u 32 a -> parse_ip (show_ipv4 a) = Some (V4 a).
Proof.
  intros Ha. pose proof (ipv4_octets a Ha) as Ho. unfold parse_ip, read_ipv4, show_ipv4. destruct (octets a) as [[[w x] y] z].
  destruct Ho as (-> & Hw & Hx & Hy & Hz). unfold join. rewrite chars_str. cbn [fmap list_fmap join_bytes]. change (chars ".") with ["."%char].
  cbn [separated app].
  do 3 (rewrite read_octet_show by done; cbn [mbind option_bind read_char]; change (eqb_ascii "."%char "."%char) with true; cbn [mbind option_bind]).
  by rewrite <- (app_nil_r (chars (show z))), read_octet_show by done.
Qed.

Lemma managed_endpoint_v4 a : is_u 32 a -> Managed.endpoint (show_ipv4 a) = show_ipv4 a +:+ ":8443".
Proof. intros Ha. unfold Managed.endpoint. by rewrite parse_ip_show_ipv4. Qed.

Lemma endpoint_valid a : is_u 32 a -> Config.validate_endpoint (show_ipv4 a +:+ ":8443") = Ok tt /\ ipv6_endpoint (show_ipv4 a +:+ ":8443") = false.
Proof.
  intros Ha. pose proof (show_ipv4_word a Ha) as Hw. pose proof (show_ipv4_length a Ha) as Hl.
  assert (rsplit_once ":"%char (show_ipv4 a +:+ ":8443") = Some (show_ipv4 a, "8443"%string)) as Hs.
  { change ":8443"%string with (":" +:+ "8443")%string. apply rsplit_once_port. by repeat constructor. }
  assert (word (show_ipv4 a +:+ ":8443")) as Hwe by (apply word_app; [done | by repeat constructor]).
  split.
  - unfold Config.validate_endpoint. rewrite Hs. rewrite bool_decide_false by apply Hwe. unfold slen. rewrite chars_app, length_app.
    change (length (chars ":8443")) with 5%nat. rewrite (proj2 (Z.ltb_ge _ _)) by lia. unfold has_whitespace.
    rewrite printable_no_whitespace by apply Hwe. cbn [orb ok_or mbind result_bind]. by rewrite bool_decide_false by apply Hw.
  - unfold ipv6_endpoint. rewrite Hs. pose proof (show_ipv4_chars a Ha) as Hc. rewrite Forall_forall in Hc.
    apply not_true_iff_false. intros (c & Hin & Hcon)%existsb_exists. unfold contains_byte in Hcon.
    apply existsb_exists in Hcon as (b & Hb%list_elem_of_In%Hc & Heq). unfold eqb_ascii in Heq. apply bool_decide_eq_true in Heq as <-.
    by repeat destruct Hin as [<- | Hin].
Qed.
Lemma key_length k : validate_peer_key k = Ok tt -> length (chars k) = 44%nat.
Proof. unfold validate_peer_key. destruct (Nat.eqb_spec (length (chars k)) 44); [done |]. by intros. Qed.

Lemma named_line (t v : string) : Forall line_char (chars t) -> word v -> Forall line_char (chars (t +:+ v)).
Proof. intros Ht Hv. rewrite chars_app. apply Forall_app. split; [done | by apply word_line_chars]. Qed.

Lemma line_chars t : forallb (fun a => negb (eqb_ascii a LF) && negb (eqb_ascii a CR)) (chars t) = true -> Forall line_char (chars t).
Proof.
  intros Ht. rewrite forallb_forall in Ht. apply Forall_forall. intros a Ha%list_elem_of_In%Ht. unfold eqb_ascii in Ha.
  apply andb_true_iff in Ha as [H1%negb_true_iff%bool_decide_eq_false H2%negb_true_iff%bool_decide_eq_false]. done.
Qed.

Lemma parameter_named key : forallb (in_range 33 127) (chars key) && negb (existsb (eqb_ascii "="%char) (chars key)) = true ->
  match chars key with a :: _ => existsb (eqb_ascii a) ["#"%char; ";"%char; "["%char] = false | [] => False end -> parameter_name key.
Proof.
  intros [Hp He%negb_true_iff]%andb_true_iff Hf. split; [| split; [| done]].
  - split; [by intros -> |]. rewrite forallb_forall in Hp. apply Forall_forall. intros a Ha%list_elem_of_In%Hp. unfold in_range, printable in *. lia.
  - apply Forall_forall. intros a Ha%list_elem_of_In. apply not_true_iff_false. intros Heq. apply not_true_iff_false in He. apply He.
    apply existsb_exists. exists a. split; [done |]. unfold eqb_ascii in *. by rewrite bool_decide_eq_true in Heq |- *.
Qed.

Lemma profile_step key v p q ls : forallb (in_range 33 127) (chars key) && negb (existsb (eqb_ascii "="%char) (chars key)) = true ->
  match chars key with a :: _ => existsb (eqb_ascii a) ["#"%char; ";"%char; "["%char] = false | [] => False end ->
  word v -> set_parameter p key v = Ok q -> profile_lines p ((key +:+ " = " +:+ v)%string :: ls) = profile_lines q ls.
Proof.
  intros Hk Hf Hv Hq. cbn [profile_lines]. rewrite profile_assignment by (done || by apply parameter_named). by rewrite Hq.
Qed.

Lemma profile_next p q l ls : profile_line p l = Ok q -> profile_lines p (l :: ls) = profile_lines q ls.
Proof. intros Hl. cbn [profile_lines]. by rewrite Hl. Qed.

#[local] Ltac step_parameter key v :=
  etransitivity; [apply (profile_step key v); [by vm_compute | by vm_compute | first [done | eauto] | reflexivity] |].

(** The profile as the reader of the agent goes through it. *)
Lemma profile_read private public server_key e ip :
  word private -> word public -> word server_key -> word e -> word ip ->
  let ls := lines (format_profile private public server_key e ip) in
  profile_lines empty_slots ls =
    Ok (ProfileSlots "peer" (Some private) (Some ip) (Some (show TUNNEL_MTU)) (Some server_key) (Some ALLOWED_IPS) (Some e) (Some "10"%string)) /\
  head ls = Some ("# ClientPublicKey = " +:+ public).
Proof.
  intros Hpriv Hpub Hsrv He Hip ls. subst ls. unfold format_profile. rewrite lines_unlines.
  2: { rewrite !Forall_cons. assert (word (show TUNNEL_MTU)) by (apply show_word; by vm_compute).
       repeat match goal with |- _ /\ _ => split end; first [by apply Forall_nil | by apply line_chars; vm_compute | by apply named_line; [apply line_chars; vm_compute |]]. }
  split; [| done]. 
  assert (word (show TUNNEL_MTU)) as Hmtu by (apply show_word; by vm_compute).
  assert (forall v, forallb (in_range 33 127) (chars v) && negb (bool_decide (v = "")) = true -> word v) as Hword.
  { intros v [Hv Hne%negb_true_iff%bool_decide_eq_false]%andb_true_iff. split; [done |]. rewrite forallb_forall in Hv. apply Forall_forall.
    intros c Hc%list_elem_of_In%Hv. unfold in_range, printable in *. lia. }
  etransitivity; [apply profile_next; exact (profile_comment empty_slots " ClientPublicKey = " public Hpub) |].
  etransitivity; [by apply (profile_next _ (set_section empty_slots "interface")) |].
  step_parameter "PrivateKey" private. step_parameter "Address" ip. step_parameter "MTU" (show TUNNEL_MTU).
  etransitivity; [by apply profile_next |].
  etransitivity; [by apply profile_next |].
  step_parameter "PublicKey" server_key. step_parameter "AllowedIPs" "0.0.0.0/0". step_parameter "Endpoint" e. step_parameter "PersistentKeepalive" "10".
  reflexivity.
Qed.

(** C34. The agent accepts the profile a server prints for it: with valid keys, a tunnel address and the
    endpoint the agent asked for, the profile is read as the server with exactly those values, and its
    comment gives the router's public key back, which is what an enrolment takes away if it fails. *)
Theorem server_profile_accepted nm n private public server_key r (ip : net) a :
  normalize_server_name nm = Ok n -> validate_peer_key private = Ok tt -> validate_peer_key public = Ok tt ->
  validate_peer_key server_key = Ok tt -> validate_tunnel_ip r = Ok ip -> is_u 32 a ->
  let profile := format_profile private public server_key (Managed.endpoint (show_ipv4 a)) (net_show ip) in
  parse_server_profile (net := net) nm profile =
    Ok (ServerProfile n "" (Managed.endpoint (show_ipv4 a)) server_key (Some (net_show ip)) (Some private) None) /\
  profile_client_public_key profile = Ok public.
Proof.
  intros Hn Hpriv Hpub Hsrv Hip Ha profile.
  destruct (tunnel_address_ok r ip Hip) as (Haddr & Hwip & Hlip), (endpoint_valid a Ha) as [Hep Hv6].
  pose proof (show_ipv4_length a Ha) as Hla. subst profile. rewrite managed_endpoint_v4 by done.
  assert (word (show_ipv4 a +:+ ":8443")) as Hwe by (apply word_app; [by apply show_ipv4_word | by repeat constructor]).
  destruct (profile_read private public server_key (show_ipv4 a +:+ ":8443") (net_show ip)) as [Hread Hhead];
    [by apply key_word | by apply key_word | by apply key_word | done | done |].
  assert (slen (format_profile private public server_key (show_ipv4 a +:+ ":8443") (net_show ip)) <= MAX_PROFILE_SIZE) as Hsize.
  { unfold slen, format_profile, unlines. rewrite chars_str. cbn [fmap list_fmap concat]. rewrite !length_app, !chars_app, !length_app.
    rewrite (key_length private), (key_length public), (key_length server_key) by done.
    change (length (chars (show TUNNEL_MTU))) with 4%nat. unfold MAX_PROFILE_SIZE. clear -Hla Hlip.
    revert Hla Hlip. generalize (length (chars (show_ipv4 a))) as x, (length (chars (net_show ip))) as y. intros x y Hx Hy. cbn. lia. }
  split.
  - unfold parse_server_profile. rewrite (proj2 (Z.ltb_ge _ _)) by done. rewrite Hread. cbn [mbind result_bind s_address required_profile_value ok_or].
    rewrite Haddr. cbn [mbind result_bind s_allowed_ips required_profile_value ok_or].
    rewrite bool_decide_true by (by vm_compute). cbn [negb s_keepalive s_mtu].
    change (parse_u16 "10") with (Some 10). change (parse_u16 (show TUNNEL_MTU)) with (Some TUNNEL_MTU).
    cbn [required_profile_value ok_or with_context mbind result_bind s_endpoint s_public_key s_private_key].
    change (negb (10 =? KEEPALIVE)) with false. change (negb (existsb (Z.eqb TUNNEL_MTU) [MTU; 1280; 1360])) with false.
    cbn [required_profile_value ok_or with_context mbind result_bind]. rewrite Hn. cbn [mbind result_bind].
    assert (validate_server_name n = Ok tt) as Hname by (unfold normalize_server_name in Hn; apply bind_ok in Hn as ([] & Hn & [= <-]); done).
    unfold validate_server, validate_saved_server. cbn [name emoji Model.endpoint public_key client_tunnel_address client_private_key management].
    rewrite Hname, Hep, Haddr, Hv6, !wireguard_key_valid by done. done.
  - unfold profile_client_public_key. destruct (lines _) as [| l ls]; [done |]. injection Hhead as ->.
    cbn [omap list_omap]. rewrite (proj2 (strip_prefix_Some _ _ public)) by done. cbn [head ok_or mbind result_bind].
    unfold validate_peer_key in Hpub. by destruct (_ || _).
Qed.
End Profile.

(** ** Witnesses *)

Section Witnesses.
Import SampleServer.
#[local] Instance quiet_server : ServerWorld iface := world quiet_world.
#[local] Instance quiet_server_laws : ServerLaws iface := world_laws quiet_world.

(** The sample server where WARP is not prepared, before it has a friend with a name. *)
Definition new_store : friend_store := FriendStore 2 [] [key_of "O"%char].
Definition new_host : host iface :=
  Host 0 (wg sample_host) (directory sample_host)
    (Some (Node (FileMeta RegularFile 0x180 0 1 0 2) (with_lf (encode_json new_store)))) None None None.

(** Then with one. *)
Definition grown_host : host iface :=
  (run_operation (net := PrefixNet.t) "gt0" (OpCreate "198.51.100.1:8443" "Bob") new_host).1.

Lemma managed_endpoint_accepted_witness :
  ip_canonical "2001:db8::1" = true /\ Server.validate_managed_endpoint (Managed.endpoint "2001:db8::1") = Ok tt.
Proof. split; [by vm_compute | apply (managed_endpoint_accepted "2001:db8::1"); by vm_compute]. Defined.

Lemma new_store_ok : store_ok new_store.
Proof. split; [done | by constructor | by repeat constructor | apply (bool_decide_unpack _); by vm_compute]. Qed.

Lemma new_metadata : metadata_of new_host = Ok new_store.
Proof. unfold metadata_of. cbn [store_file new_host n_data]. exact (decode_written new_store new_store_ok). Qed.

Lemma grown_kept : kept (net := PrefixNet.t) "gt0" grown_host.
Proof.
  refine (kept_operation "gt0" new_host _ (OpCreate "198.51.100.1:8443" "Bob") (run_operation (net := PrefixNet.t) "gt0" (OpCreate "198.51.100.1:8443" "Bob") new_host).2 _ _ _ _).
  - exact (kept_new "gt0" new_host new_store new_metadata new_store_ok eq_refl).
  - exists "Bob"%string, new_host. eexists. vm_compute. reflexivity.
  - rewrite new_metadata. intros s [= <-] n out. change (wg_pubkey (trim (wg_genkey n))) with (Some (key_of "N"%char)). intros [= <-].
    split; [by vm_compute |]. apply (bool_decide_unpack _). by vm_compute.
  - unfold grown_host. by destruct (run_operation _ _ _).
Qed.

(** What the status of a host lists, and whether the agent accepts it. *)
Definition shown_status (h : host iface) : option (list string * result unit) :=
  match (Server.status (net := PrefixNet.t) "gt0" h).2 with
  | inr st => Some (fp_name <$> ms_peers st, validate_managed_status st)
  | inl _ => None
  end.

(** A name with a space before it passes the server's loader and is refused by the agent. *)
Example spaced_name_refused :
  let s := FriendStore 2 [FriendRecord (key_of "F"%char) " B" None] [key_of "O"%char] in
  let h := set_store_file (Some (Node (FileMeta RegularFile 0x180 0 1 0 2) (with_lf (encode_json s)))) new_host in
  is_ok (metadata_of h) = true /\
  shown_status h = Some ([" B"%string], Err (Msg "managed server returned an unnormalized friend name")).
Proof. by vm_compute. Qed.


Lemma server_profile_accepted_witness :
  let profile := format_profile (key_of "P"%char) (key_of "N"%char) (key_of "S"%char) "198.51.100.1:8443" "10.202.0.9/32" in
  parse_server_profile (net := PrefixNet.t) " VPS " profile =
    Ok (ServerProfile "VPS" "" "198.51.100.1:8443" (key_of "S"%char) (Some "10.202.0.9/32"%string) (Some (key_of "P"%char)) None) /\
  profile_client_public_key profile = Ok (key_of "N"%char).
Proof.
  destruct (validate_tunnel_ip (net := PrefixNet.t) "10.202.0.9/32") as [ip |] eqn:E; [| by vm_compute in E].
  assert (net_show ip = "10.202.0.9/32"%string) as Hip.
  { assert (net_show <$> to_option (validate_tunnel_ip (net := PrefixNet.t) "10.202.0.9/32") = Some "10.202.0.9/32"%string) as H by (by vm_compute).
    rewrite E in H. by injection H. }
  pose proof (server_profile_accepted " VPS " "VPS" (key_of "P"%char) (key_of "N"%char) (key_of "S"%char) "10.202.0.9/32" ip (ipv4 198 51 100 1)
    eq_refl eq_refl eq_refl eq_refl E ltac:(by vm_compute)) as H.
  rewrite Hip in H. exact H.
Defined.
End Witnesses.
