(* ===== verification/Network.v ===== *)
(** * The router's network (crates/gofro-agent/src/network.rs)

    The tunnel, its peer and the relay: what the agent changes on the router
    by files of its own and by the programs [wg], [ip], [uci] and the scripts of
    the router.  The programs are the class [Tools]; a file call may fail at any
    point ([io]), a failed write leaves anything in its file. *)

From stdpp Require Import base gmap strings list.
From Stdlib Require Import Ascii ZArith Lia.
From S2P Require Import Prelude RustStd Effects RelayCodec Net Model Config.

Definition RELAY_ENDPOINT_PATH : string := "/etc/gofro/relay-endpoint".
Definition RELAY_SERVICE : string := "gofro-relay".
Definition RELAY_LOCAL_ENDPOINT : string := "127.0.0.1:51822".
Definition SERVICE_COMMAND : string := "/usr/libexec/gofro/service".
Definition TUNNEL_COMMAND : string := "/usr/libexec/gofro/tunnel".
Definition DNS_FLOWS_COMMAND : string := "/usr/libexec/gofro/dns-flows".
Definition LEGACY_TUNNEL_ADDRESS : string := "10.202.0.2/32".
Definition DEVICE_PRIVATE_KEY : string := "/etc/wireguard/client.key".

(** The commands that are run, and their words. *)
Inductive program :=
| Relay (action : string)
| Tunnel (action : string)
| AddressShow
| AddressFlush
| AddressAdd (address : string)
| SetMtu (mtu : Z)
| UciMtu
| WgPeers
| WgSetPeer (key : string)
| WgRemovePeer (key : string)
| WgSetconf (path : string)
| WgPrivateKey (file : string)
| DnsFlows (lan_device : string) (port : Z)
| Mode (command mode lan_device subnet : string).

Definition argv (interface : string) (p : program) : list string :=
  match p with
  | Relay action => [SERVICE_COMMAND; action; RELAY_SERVICE]
  | Tunnel action => [TUNNEL_COMMAND; action; interface]
  | AddressShow => ["ip"; "-o"; "-4"; "address"; "show"; "dev"; interface; "scope"; "global"]
  | AddressFlush => ["ip"; "-4"; "address"; "flush"; "dev"; interface; "scope"; "global"]
  | AddressAdd address => ["ip"; "-4"; "address"; "add"; address; "dev"; interface]
  | SetMtu mtu => ["ip"; "link"; "set"; "mtu"; show mtu; "dev"; interface]
  | UciMtu => ["uci"; "-q"; "get"; "network." +:+ interface +:+ ".mtu"]
  | WgPeers => ["wg"; "show"; interface; "peers"]
  | WgSetPeer key => ["wg"; "set"; interface; "peer"; key; "endpoint"; RELAY_LOCAL_ENDPOINT; "allowed-ips"; "0.0.0.0/0"; "persistent-keepalive"; "10"]
  | WgRemovePeer key => ["wg"; "set"; interface; "peer"; key; "remove"]
  | WgSetconf path => ["wg"; "setconf"; interface; path]
  | WgPrivateKey file => ["wg"; "set"; interface; "private-key"; file]
  | DnsFlows lan_device port => [DNS_FLOWS_COMMAND; "cleanup"; lan_device; show port]
  | Mode command mode lan_device subnet => [command; mode; lan_device; subnet]
  end%string.

(** How a program ends: not started, or with an exit status, its output and what it says of errors. *)
Inductive answer :=
| NotStarted (e : error)
(* started, but its input was not written or its end not awaited; the context says which *)
| Lost (context : string) (e : error)
| Exit (success : bool) (stdout stderr : string).

Record world (D : Type) := World { files : gmap string string; device : D }.
Arguments World {D}.
Arguments files {D}.
Arguments device {D}.

Class Tools (D : Type) := {
  (* a program with its standard input *)
  exec : program -> option string -> world D -> world D * answer;
  (* whether the next call on files fails, and what a failed write leaves *)
  io : D -> D * option (error * string);
}.

(** [path.with_extension(extension)]: a name that only starts with its dot has no extension. *)
Definition with_extension (extension path : string) : string :=
  match rsplit_once "."%char path with
  | Some (stem, suffix) =>
      if contains_byte "/"%char suffix || bool_decide (last (chars stem) = None) || bool_decide (last (chars stem) = Some "/"%char)
      then path +:+ "." +:+ extension
      else stem +:+ "." +:+ extension
  | None => path +:+ "." +:+ extension
  end.

Definition address_field (fields : list string) : option string :=
  match list_find (fun f => f = "inet"%string) fields with
  | Some (i, _) => fields !! S i
  | None => None
  end.

Definition next_tunnel_addresses (configured : option string) (previous : list string) : list string :=
  match configured with
  | Some address => [address]
  | None => match previous with [] => [LEGACY_TUNNEL_ADDRESS] | _ => previous end
  end.

Definition parse_tunnel_mtu (value : string) : result Z :=
  mtu ← with_context "invalid native WireGuard MTU" (ok_or (parse_u16 value) "invalid digit found in string");
  if negb (bool_decide (show mtu = value)) || negb ((MIN_TUNNEL_MTU <=? mtu) && (mtu <=? TUNNEL_MTU))
  then Err (Msg ("native WireGuard MTU must be between " +:+ show MIN_TUNNEL_MTU +:+ " and " +:+ show TUNNEL_MTU))
  else Ok mtu.

Section Network.
Context {D : Type} `{Tools D} {net : Type} `{Ipnet net}.
Variable interface : string.
(* [{command:?}] *)
Variable describe : list string -> string.

#[local] Notation M := (eff (world D) error).

Definition conf_path : string := "/etc/wireguard/" +:+ interface +:+ ".conf".

(** ** Files *)

(** A call on a file that may fail. *)
Definition file_call : M unit := fun w =>
  let '(d, failed) := io (device w) in
  (World (files w) d, match failed with Some (e, _) => inl e | None => inr tt end).

Definition set_file (path : string) (contents : option string) (w : world D) : world D :=
  World (match contents with Some c => <[path := c]> (files w) | None => delete path (files w) end) (device w).

(** [write_all]: a failed one leaves some of it, or all. *)
Definition write_all (path contents : string) : M unit := fun w =>
  let '(d, failed) := io (device w) in
  match failed with
  | Some (e, left_) => (set_file path (Some left_) (World (files w) d), inl e)
  | None => (set_file path (Some contents) (World (files w) d), inr tt)
  end.

(** [fs::read], with [None] for a file that does not exist *)
Definition read_optional (path : string) : M (option string) :=
  contextual ("failed to read " +:+ path) file_call ;; read (fun w => files w !! path).

Definition restore_file (path : string) (contents : option string) : M unit :=
  match contents with
  | Some contents =>
      let temporary := with_extension "restore.tmp" path in
      contextual ("failed to open " +:+ temporary) file_call ;;
      update (set_file temporary (Some ""%string)) ;;
      contextual ("failed to write " +:+ temporary) (write_all temporary contents) ;;
      contextual ("failed to replace " +:+ path) file_call ;;
      update (fun w => set_file temporary None (set_file path (files w !! temporary) w))
  | None =>
      (* a file that is not there is removed already *)
      contextual ("failed to remove " +:+ path) file_call ;;
      update (set_file path None)
  end.

(** ** Programs *)

Definition asks {A} (f : world D -> world D * A) : M A := fun w => let '(w, x) := f w in (w, inr x).

Definition run (p : program) : M string :=
  let description := describe (argv interface p) in
  a ← asks (exec p None);
  match a with
  | NotStarted e | Lost _ e => throw (Ctx ("failed to run " +:+ description) e)
  | Exit false _ stderr => throw (Msg (description +:+ " failed: " +:+ trim stderr))
  | Exit true stdout _ => of_result (with_context "command returned non-UTF-8 output" (ok_or (utf8_string stdout) "invalid utf-8"))
  end.

(** [Command::status] *)
Definition succeeds (p : program) (context : string) : M bool :=
  a ← asks (exec p None);
  match a with
  | NotStarted e | Lost _ e => throw (Ctx context e)
  | Exit success _ _ => mret success
  end.

Definition relay_active : M bool := succeeds (Relay "status") "failed to query relay service".
Definition service_active : M bool := succeeds (Tunnel "status") "failed to query WireGuard service".

Definition set_tunnel (action : string) : M unit := run (Tunnel action) ;; mret tt.
Definition stop_tunnel : M unit := set_tunnel "stop".

Definition cleanup_dns_flows (lan_device : string) (port : Z) : M unit := run (DnsFlows lan_device port) ;; mret tt.

Definition apply_mode (command mode lan_device : string) (subnet : net) : M unit :=
  run (Mode command mode lan_device (net_show subnet)) ;; mret tt.

Definition retire_legacy_routing (parent : string) : M unit := restore_file (parent +:+ "/routing-legacy.json") None.

(** A private key goes to [wg] over its standard input; without one the device's own is used. What [wg] prints is not read then. *)
Definition set_private_key (private_key : option string) : M unit :=
  match private_key with
  | Some key =>
      let p := WgPrivateKey "/dev/stdin" in
      let description := describe (argv interface p) in
      a ← asks (exec p (Some (str (chars key ++ [LF]))));
      match a with
      | NotStarted e => throw (Ctx ("failed to run " +:+ description) e)
      | Lost context e => throw (Ctx context e)
      | Exit false _ stderr => throw (Msg (description +:+ " failed: " +:+ trim stderr))
      | Exit true _ _ => mret tt
      end
  | None => run (WgPrivateKey DEVICE_PRIVATE_KEY) ;; mret tt
  end.

Definition address_of_line (line : string) : result string := ok_or (address_field (split_whitespace line)) "invalid ip address output".

Definition tunnel_addresses : M (list string) := output ← run AddressShow; of_result (mapM address_of_line (lines output)).

Fixpoint add_addresses (addresses : list string) : M unit :=
  match addresses with
  | [] => mret tt
  | address :: addresses => run (AddressAdd address) ;; add_addresses addresses
  end.

Definition replace_tunnel_addresses (addresses : list string) : M unit := run AddressFlush ;; add_addresses addresses.

Definition configured_tunnel_mtu : M Z := value ← run UciMtu; of_result (parse_tunnel_mtu (trim value)).
(** ** The relay *)

Definition write_relay_endpoint (endpoint : string) : M unit := restore_file RELAY_ENDPOINT_PATH (Some endpoint).

Definition restart_relay : M unit := run (Relay "restart") ;; mret tt.

Definition prepare_relay (server : server_profile) (force_restart : bool) : M unit :=
  of_result (validate_server (net := net) server) ;;
  let endpoint := str (chars (endpoint server) ++ [LF]) in
  current ← try (read_optional RELAY_ENDPOINT_PATH);
  let endpoint_changed := negb (bool_decide (current = Ok (Some endpoint))) in
  active ← relay_active;
  if negb endpoint_changed && negb force_restart && active then mret tt
  else
    (if endpoint_changed then write_relay_endpoint endpoint else mret tt) ;;
    restart_relay.

Definition restore_relay (previous_endpoint : option string) : M unit :=
  match previous_endpoint with
  | Some endpoint => write_relay_endpoint endpoint ;; restart_relay
  | None =>
      contextual "failed to remove relay endpoint" file_call ;;
      update (set_file RELAY_ENDPOINT_PATH None) ;;
      run (Relay "stop") ;;
      mret tt
  end.

(** ** The peer *)

(** The steps of a rollback are all tried; the texts of those that failed. *)
Definition rollback_step (what : string) (step : M unit) : M (list string) :=
  outcome ← try step;
  mret (match outcome with Ok _ => [] | Err e => [what +:+ ": " +:+ error_text e] end).

Definition rolled_back {A} (what : string) (error : error) (rollback_errors : list string) : M A :=
  match rollback_errors with
  | [] => throw error
  | _ => throw (Msg (what +:+ " failed: " +:+ error_text error +:+ "; rollback failed: " +:+ join "; " rollback_errors))
  end.

Fixpoint remove_peers (peers : list string) : M unit :=
  match peers with
  | [] => mret tt
  | peer :: peers => run (WgRemovePeer peer) ;; remove_peers peers
  end.

Definition apply_peer (server : server_profile) (peers : list string) (address_changed : bool) (next_addresses : list string) : M unit :=
  set_private_key (client_private_key server) ;;
  run (WgSetPeer (public_key server)) ;;
  remove_peers (filter (fun peer => peer <> public_key server) peers) ;;
  (if address_changed then replace_tunnel_addresses next_addresses else mret tt) ;;
  run (Tunnel "save") ;; mret tt.

Definition set_peer (server : server_profile) : M unit :=
  of_result (validate_server (net := net) server) ;;
  peers ← run WgPeers;
  previous_addresses ← tunnel_addresses;
  let next_addresses := next_tunnel_addresses (client_tunnel_address server) previous_addresses in
  let address_changed := negb (bool_decide (previous_addresses = next_addresses)) in
  result ← try (apply_peer server (split_whitespace peers) address_changed next_addresses);
  match result with
  | Ok _ => mret tt
  | Err error =>
      config ← rollback_step "WireGuard config" (run (WgSetconf conf_path) ;; mret tt);
      addresses ← (if address_changed then rollback_step "tunnel address" (replace_tunnel_addresses previous_addresses) else mret []);
      rolled_back "WireGuard peer update" error (config ++ addresses)
  end.

Definition apply_server (server : server_profile) (mtu : Z) (tunnel_was_active : bool) : M unit :=
  prepare_relay server (negb tunnel_was_active) ;;
  (if tunnel_was_active then mret tt else set_tunnel "start") ;;
  run (SetMtu mtu) ;;
  set_peer server.

Definition start_and_select (server : server_profile) : M unit :=
  mtu ← configured_tunnel_mtu;
  previous_endpoint ← read_optional RELAY_ENDPOINT_PATH;
  tunnel_was_active ← service_active;
  result ← try (apply_server server mtu tunnel_was_active);
  match result with
  | Ok _ => mret tt
  | Err error =>
      tunnel ← (if tunnel_was_active : bool then mret [] else rollback_step "tunnel stop" stop_tunnel);
      relay ← rollback_step "relay" (restore_relay previous_endpoint);
      rolled_back "server update" error (tunnel ++ relay)
  end.

(** ** Snapshots *)

Record snapshot := Snapshot {
  sn_endpoint : option string;
  sn_relay_active : bool;
  sn_saved_tunnel : option string;
  sn_addresses : option (list string);
}.

Definition capture : M snapshot :=
  endpoint ← read_optional RELAY_ENDPOINT_PATH;
  active ← relay_active;
  saved_tunnel ← read_optional conf_path;
  up ← service_active;
  addresses ← (if up : bool then Some <$> tunnel_addresses else mret None);
  mret (Snapshot endpoint active saved_tunnel addresses).

Definition restore (s : snapshot) : M unit :=
  (match sn_addresses s with Some addresses => replace_tunnel_addresses addresses | None => mret tt end) ;;
  restore_file conf_path (sn_saved_tunnel s) ;;
  restore_file RELAY_ENDPOINT_PATH (sn_endpoint s) ;;
  run (Relay (if sn_relay_active s then "restart" else "stop")) ;;
  mret tt.
End Network.

(** ** The lock of changes to the network *)

Record file_metadata := Metadata { is_dir : bool; is_file : bool; mode : Z; nlink : Z; uid : Z }.

Inductive creation := Created | AlreadyExists | CreateFailed (e : error).
Inductive locking := Locked | WouldBlock | LockFailed (e : error).

(** [path.parent()] *)
Definition parent (path : string) : option string :=
  if bool_decide (path = ""%string) || bool_decide (path = "/"%string) then None
  else match rsplit_once "/"%char path with
       | Some (up, _) => Some (if bool_decide (up = ""%string) then "/"%string else up)
       | None => Some ""%string
       end.

(** [path.ancestors()]: each is shorter than the one before. *)
Fixpoint ancestors (fuel : nat) (path : string) : list string :=
  path :: match fuel, parent path with S fuel, Some up => ancestors fuel up | _, _ => [] end.

Section Lock.
(* the answers of the file system, in the order of the calls *)
Variable symlink_metadata : string -> result file_metadata.
Variable create_new : string -> creation.
Variable open_existing : string -> result unit.
Variable try_lock : string -> locking.

Definition safe_ancestor (m : file_metadata) : bool := is_dir m && bool_decide (uid m = 0) && bool_decide (Z.land (mode m) 0x12 = 0).

Fixpoint check_ancestors (paths : list string) : result unit :=
  match paths with
  | [] => Ok tt
  | path :: paths =>
      m ← symlink_metadata path;
      ensure (safe_ancestor m) ("unsafe apply lock ancestor: " +:+ path) ;; check_ancestors paths
  end.

(** The path of the file that is locked. *)
Definition lock_apply_path (config_path : string) : result string :=
  up ← ok_or (parent config_path) "configuration path has no parent";
  directory ← with_context "failed to inspect apply lock directory" (symlink_metadata up);
  ensure (is_dir directory && bool_decide (Z.land (mode directory) 0x12 = 0)) "unsafe apply lock directory" ;;
  check_ancestors (ancestors (String.length up) up) ;;
  let path := up +:+ "/apply.lock" in
  (match create_new path with
   | Created => Ok tt
   | AlreadyExists =>
       m ← symlink_metadata path;
       ensure (is_file m && bool_decide (nlink m = 1) && bool_decide (Z.land (mode m) 0xfff = 0x180) && bool_decide (uid m = uid directory))
         ("unsafe apply lock file: " +:+ path) ;;
       open_existing path
   | CreateFailed e => with_context "failed to create apply lock" (Err e)
   end) ;;
  match try_lock path with
  | Locked => Ok path
  | WouldBlock => Err (Msg "network lifecycle operation is in progress")
  | LockFailed e => with_context "failed to acquire apply lock" (Err e)
  end.
End Lock.
