(* ===== verification/NetworkSafety.v ===== *)
(** * What a change of the network guarantees

    Selecting a server either is in force completely, or the relay's endpoint, the tunnel, the
    addresses and the peer are taken back and at most the configured MTU stays, or the error says that
    the rollback failed. *)

From stdpp Require Import base gmap sets strings list.
From Stdlib Require Import Ascii ZArith Lia.
From S2P Require Import Prelude RustStd Effects RelayCodec Peers Net Model Config Network.

(** ** What the programs do *)

Record peer := Peer { p_endpoint : string; p_allowed_ips : string; p_keepalive : Z }.

Record wireguard := Wg { wg_key : option string; wg_peers : gmap string peer }.

(** [uci_mtu] is what UCI says of the tunnel's MTU. *)
Record router := Router {
  relay_up : bool;
  tunnel_up : bool;
  link_mtu : Z;
  addresses : list string;
  wg : wireguard;
  uci_mtu : string;
}.

Inductive aspect := ARelay | ATunnel | AMtu | AAddresses | AWg | AUci | AFile (path : string).

#[export] Instance aspect_eq_dec : EqDecision aspect.
Proof. solve_decision. Defined.

(** What a program may change: a tunnel that starts or stops takes its interface along, and a start and a
    save write the file of the tunnel, the save through a temporary file that it leaves if it fails. *)
Definition touched (conf : string) (p : program) : list aspect :=
  match p with
  | Relay action => if bool_decide (action = "status"%string) then [] else [ARelay]
  | Tunnel action =>
      if bool_decide (action = "status"%string) then []
      else if bool_decide (action = "save"%string) then [AFile conf; AFile (conf +:+ ".tmp")]
      else [ATunnel; AMtu; AAddresses; AWg; AFile conf]
  | AddressFlush | AddressAdd _ => [AAddresses]
  | SetMtu _ => [AMtu]
  | WgSetPeer _ | WgRemovePeer _ | WgSetconf _ | WgPrivateKey _ => [AWg]
  | AddressShow | UciMtu | WgPeers | DnsFlows _ _ | Mode _ _ _ _ => []
  end.

(** The peer a selected server is. *)
Definition relay_peer : peer := Peer RELAY_LOCAL_ENDPOINT "0.0.0.0/0" 10.

(** The start script of the relay starts it only if its endpoint file is there and not empty. *)
Definition startable (endpoint : option string) : bool :=
  match endpoint with Some c => negb (bool_decide (c = ""%string)) | None => false end.

Section Laws.
Context {D : Type} `{Tools D}.
Variable observe : D -> router.
(* the configuration that setconf reads in a text *)
Variable conf_wg : string -> wireguard.

Definition agree (a : aspect) (w w' : world D) : Prop :=
  let v := observe (device w) in
  let v' := observe (device w') in
  match a with
  | ARelay => relay_up v' = relay_up v
  | ATunnel => tunnel_up v' = tunnel_up v
  | AMtu => link_mtu v' = link_mtu v
  | AAddresses => addresses v' = addresses v
  | AWg => wg v' = wg v
  | AUci => uci_mtu v' = uci_mtu v
  | AFile path => files w' !! path = files w !! path
  end.

(** What success says. *)
Definition effect (conf : string) (p : program) (stdin : option string) (w w' : world D) (out : string) : Prop :=
  let v := observe (device w) in
  let v' := observe (device w') in
  match p with
  | Relay action =>
      if bool_decide (action = "restart"%string) then relay_up v' = startable (files w !! RELAY_ENDPOINT_PATH)
      else if bool_decide (action = "stop"%string) then relay_up v' = false
      else relay_up v = true
  | Tunnel action =>
      if bool_decide (action = "start"%string) then tunnel_up v' = true
      else if bool_decide (action = "stop"%string) then tunnel_up v' = false
      else if bool_decide (action = "save"%string) then out = ""%string /\ exists c, files w' !! conf = Some c /\ conf_wg c = wg v
      else tunnel_up v = true
  | AddressShow => mapM (fun line => address_field (split_whitespace line)) (lines out) = Some (addresses v)
  | AddressFlush => addresses v' = []
  | AddressAdd a => addresses v' = addresses v ++ [a]
  | SetMtu m => link_mtu v' = m
  | WgPeers => split_whitespace out ≡ₚ (map_to_list (wg_peers (wg v))).*1
  | WgSetPeer k =>
      wg_key (wg v') = wg_key (wg v) /\ dom (wg_peers (wg v')) = {[k]} ∪ dom (wg_peers (wg v)) /\ wg_peers (wg v') !! k = Some relay_peer
  | WgRemovePeer k => wg v' = Wg (wg_key (wg v)) (delete k (wg_peers (wg v)))
  | WgSetconf path => exists c, files w !! path = Some c /\ wg v' = conf_wg c
  | WgPrivateKey _ => wg_peers (wg v') = wg_peers (wg v) /\ forall key, stdin = Some (str (chars key ++ [LF])) -> wg_key (wg v') = Some key
  | UciMtu => trim out = uci_mtu v
  | DnsFlows _ _ | Mode _ _ _ _ => True
  end.

(** Programs change only what they are for, also when they fail; a query answers what is; [save] replaces its
    file at the end or not at all; the MTU is set or left; calls on files leave the rest of the router alone. *)
Class ToolsLaws (conf : string) := {
  exec_touches p stdin w a : a ∉ touched conf p -> agree a w (exec p stdin w).1;
  exec_succeeds p stdin w out err : (exec p stdin w).2 = Exit true out err -> effect conf p stdin w (exec p stdin w).1 out;
  relay_status_fails w out err : (exec (Relay "status") None w).2 = Exit false out err -> relay_up (observe (device w)) = false;
  tunnel_status_fails w out err : (exec (Tunnel "status") None w).2 = Exit false out err -> tunnel_up (observe (device w)) = false;
  save_fails w : (forall out err, (exec (Tunnel "save") None w).2 <> Exit true out err) -> agree (AFile conf) w (exec (Tunnel "save") None w).1;
  mtu_set_or_left m stdin w : let mtu w := link_mtu (observe (device w)) in
    mtu (exec (SetMtu m) stdin w).1 = mtu w \/ mtu (exec (SetMtu m) stdin w).1 = m;
  io_observe d : observe (io d).1 = observe d;
}.
End Laws.
#[global] Arguments exec_touches {D _ observe conf_wg conf _}.
#[global] Arguments exec_succeeds {D _ observe conf_wg conf _}.
#[global] Arguments relay_status_fails {D _ observe conf_wg conf _}.
#[global] Arguments tunnel_status_fails {D _ observe conf_wg conf _}.
#[global] Arguments save_fails {D _ observe conf_wg conf _}.
#[global] Arguments mtu_set_or_left {D _ observe conf_wg conf _}.
#[global] Arguments io_observe {D _ observe conf_wg conf _}.

(** The temporary file beside a file is another one. *)
Lemma with_extension_ne path : with_extension "restore.tmp" path <> path.
Proof.
  assert (path +:+ "." +:+ "restore.tmp" <> path)%string as Hlonger.
  { intros Heq%(f_equal (fun s => length (chars s))). rewrite !chars_app, !length_app in Heq. cbn in Heq. lia. }
  unfold with_extension, rsplit_once. destruct (split_once_bytes _ _) as [[b a] |] eqn:E; [| done].
  apply split_once_bytes_Some in E as [Hr Hb]. destruct (_ || _); [done |]. intros Heq%(f_equal chars).
  rewrite <- (rev_involutive (chars path)), Hr, rev_app_distr in Heq. cbn [rev] in Heq. rewrite <- app_assoc, !chars_app, chars_str in Heq.
  apply app_inv_head, (inj (cons _)) in Heq. apply (f_equal (@rev ascii)) in Heq.
  rewrite rev_involutive in Heq. cbn in Heq.
  destruct b as [|? [|? [|? [|? b]]]]; simplify_eq. repeat (apply Forall_cons in Hb as [? Hb]). done.
Qed.

Section Network.
Context {D : Type} `{Tools D} {net : Type} `{Ipnet net}.
Context (observe : D -> router) (conf_wg : string -> wireguard).
Context (interface : string) (describe : list string -> string).
Context `{!ToolsLaws observe conf_wg (conf_path interface)}.

#[local] Notation M := (eff (world D) error).
#[local] Notation conf := (conf_path interface).
#[local] Notation view w := (observe (device w)).
#[local] Notation run := (Network.run interface describe).
#[local] Notation agree := (agree observe).
#[local] Notation effect := (effect observe conf_wg conf).
#[local] Notation prepare_relay := (Network.prepare_relay interface describe (net := net)).
#[local] Notation restore_relay := (Network.restore_relay interface describe).
#[local] Notation set_tunnel := (Network.set_tunnel interface describe).
#[local] Notation apply_peer := (Network.apply_peer interface describe).
#[local] Notation set_peer := (Network.set_peer interface describe (net := net)).
#[local] Notation apply_server := (Network.apply_server interface describe (net := net)).
#[local] Notation start_and_select := (Network.start_and_select interface describe (net := net)).
#[local] Notation replace_tunnel_addresses := (Network.replace_tunnel_addresses interface describe).
#[local] Notation tunnel_addresses := (Network.tunnel_addresses interface describe).
#[local] Notation configured_tunnel_mtu := (Network.configured_tunnel_mtu interface describe).

(** ** What stays *)

Definition keep (l : list aspect) (w w' : world D) : Prop := forall a, a ∈ l -> agree a w w'.

#[local] Instance keep_preorder l : PreOrder (keep l).
Proof.
  split; [by intros w []|]. intros w1 w2 w3 H1 H2 a Ha. specialize (H1 a Ha). specialize (H2 a Ha). destruct a; cbn in *; congruence.
Qed.

(** The aspects [l] are not what [p] may change. *)
Definition spares (p : program) (l : list aspect) : Prop := forall a, a ∈ l -> a ∉ touched conf p.

Lemma exec_keeps p stdin l w : spares p l -> keep l w (exec p stdin w).1.
Proof. intros Hs a Ha. by eapply exec_touches, Hs. Qed.

Lemma kept_all {A} l (m : M A) w w' r : m w = (w', r) -> preserves (keep l) m -> keep l w w'.
Proof. intros Hr Hm. by eapply Hm. Qed.

Lemma kept {A} a (m : M A) w w' r : m w = (w', r) -> preserves (keep [a]) m -> agree a w w'.
Proof. intros Hr Hm. by eapply Hm, list_elem_of_here. Qed.

Lemma asks_exec_keeps p stdin l : spares p l -> preserves (keep l) (asks (exec p stdin) : M answer).
Proof. intros Hs w w' r. unfold asks. pose proof (exec_keeps p stdin l w Hs) as Hk. destruct (exec p stdin w). by intros [= <- _]. Qed.

Lemma run_keeps p l : spares p l -> preserves (keep l) (run p).
Proof. intros Hs. unfold run. pose proof (asks_exec_keeps p None l Hs). preserved. Qed.

Lemma succeeds_keeps p m l : spares p l -> preserves (keep l) (succeeds p m).
Proof. intros Hs. unfold succeeds. pose proof (asks_exec_keeps p None l Hs). preserved. Qed.

Lemma file_call_keeps l : preserves (keep l) (file_call : M unit).
Proof.
  intros w w' r. unfold file_call. pose proof (io_observe (device w)) as Hio. destruct (io (device w)) as [d failed]. cbn in Hio.
  intros [= <- _] a _. destruct a; cbn; congruence.
Qed.

Lemma set_file_keeps l path c w : AFile path ∉ l -> keep l w (set_file path c w).
Proof.
  intros Hl a Ha. destruct a; cbn; [done.. |]. assert (path <> path0) by (intros <-; done).
  destruct c; by simplify_map_eq.
Qed.

Lemma write_all_keeps l path c : AFile path ∉ l -> preserves (keep l) (write_all path c : M unit).
Proof.
  intros Hl w w' r. unfold write_all. pose proof (io_observe (device w)) as Hio. destruct (io (device w)) as [d failed]. cbn in Hio.
  assert (keep l w (World (files w) d)) as Hd by (intros a _; destruct a; cbn; congruence).
  destruct failed as [[e left_] |]; intros [= <- _]; (etransitivity; [exact Hd |]); by apply set_file_keeps.
Qed.

Lemma restore_file_keeps l path c : AFile path ∉ l -> AFile (with_extension "restore.tmp" path) ∉ l -> preserves (keep l) (restore_file path c : M unit).
Proof.
  intros Hp Ht. unfold restore_file. pose proof (file_call_keeps l). pose proof (write_all_keeps l _ (default ""%string c) Ht).
  destruct c as [c |]; preserved; try done; apply preserves_update.
  all: intros w; cbv beta.
  - by apply (set_file_keeps _ _ (Some _)).
  - transitivity (set_file path (files w !! with_extension "restore.tmp" path) w); [by apply set_file_keeps |].
    by apply (set_file_keeps _ _ None).
  - by apply (set_file_keeps _ _ None).
Qed.

Lemma spares_one p a l : touched conf p = [a] -> a ∉ l -> spares p l.
Proof. intros Hp Hl b Hb. rewrite Hp, list_elem_of_singleton. by intros ->. Qed.

Lemma add_addresses_keeps l k : AAddresses ∉ l -> preserves (keep l) (add_addresses interface describe k).
Proof.
  intros Hl. induction k as [| a k IH]; cbn [add_addresses]; [preserved |].
  apply preserves_bind; [exact _ | by eapply run_keeps, spares_one | done].
Qed.

Lemma replace_tunnel_addresses_keeps l k : AAddresses ∉ l -> preserves (keep l) (replace_tunnel_addresses k).
Proof. intros Hl. apply preserves_bind; [exact _ | by eapply run_keeps, spares_one | intros _; by apply add_addresses_keeps]. Qed.

Lemma remove_peers_keeps l k : AWg ∉ l -> preserves (keep l) (remove_peers interface describe k).
Proof.
  intros Hl. induction k as [| a k IH]; cbn [remove_peers]; [preserved |].
  apply preserves_bind; [exact _ | by eapply run_keeps, spares_one | done].
Qed.

Lemma set_private_key_keeps l k : AWg ∉ l -> preserves (keep l) (set_private_key interface describe k).
Proof.
  intros Hl. assert (forall file, spares (WgPrivateKey file) l) as Hs by (intros file; by eapply spares_one).
  unfold set_private_key. destruct k as [key |]; cbv zeta.
  - pose proof (asks_exec_keeps (WgPrivateKey "/dev/stdin") (Some (str (chars key ++ [LF]))) l (Hs _)). preserved.
  - pose proof (run_keeps (WgPrivateKey DEVICE_PRIVATE_KEY) l (Hs _)). preserved.
Qed.

Lemma rollback_step_keeps l what step : preserves (keep l) step -> preserves (keep l) (rollback_step what step : M (list string)).
Proof. intros Hs. unfold rollback_step. preserved. Qed.

Lemma rolled_back_keeps {A} l what e failed : preserves (keep l) (rolled_back what e failed : M A).
Proof. unfold rolled_back. preserved. Qed.

Lemma conf_not_endpoint : conf <> RELAY_ENDPOINT_PATH.
Proof. done. Qed.

Lemma conf_not_temporary : conf <> with_extension "restore.tmp" RELAY_ENDPOINT_PATH.
Proof. done. Qed.

Lemma conf_temporary_not_endpoint : conf +:+ ".tmp" <> RELAY_ENDPOINT_PATH.
Proof. done. Qed.

Lemma conf_temporary_not_temporary : conf +:+ ".tmp" <> with_extension "restore.tmp" RELAY_ENDPOINT_PATH.
Proof. done. Qed.

(** [spared] settles what the calls below spare, [keeps] what a program of them keeps. *)
Ltac other_aspect :=
  first [discriminate | let H := fresh in intros [= H]; first [by apply conf_not_endpoint in H | by apply conf_not_temporary in H
    | by symmetry in H; apply conf_not_endpoint in H | by symmetry in H; apply conf_not_temporary in H
    | by symmetry in H; apply conf_temporary_not_endpoint in H | by symmetry in H; apply conf_temporary_not_temporary in H]].

Ltac spared :=
  match goal with
  | |- spares _ _ =>
      let a := fresh in let H := fresh in
      intros a H; repeat (apply elem_of_cons in H as [-> | H]; [spared |]); by apply not_elem_of_nil in H
  | |- _ ∉ touched _ _ => unfold touched; repeat (rewrite bool_decide_true by done || rewrite bool_decide_false by done); spared
  | |- _ ∉ _ => repeat (apply not_elem_of_cons; split; [other_aspect |]); apply not_elem_of_nil
  end.

Ltac keeps :=
  preserved;
  first [apply run_keeps | apply succeeds_keeps | apply file_call_keeps | apply replace_tunnel_addresses_keeps
    | apply set_private_key_keeps | apply remove_peers_keeps | apply restore_file_keeps | apply preserves_update; intros ?; apply set_file_keeps]; spared.

(** ** What happened *)

Lemma call_run m w w' r : contextual m (file_call : M unit) w = (w', r) -> files w' = files w /\ view w' = view w.
Proof.
  intros (r' & Hr & _)%contextual_run. revert Hr. unfold file_call. pose proof (io_observe (device w)) as Hio.
  destruct (io (device w)). by intros [= <- _].
Qed.

Lemma write_run m path c w w' r : contextual m (write_all path c : M unit) w = (w', r) ->
  exists written, files w' = <[path := written]> (files w) /\ (r = inr tt -> written = c).
Proof.
  intros (r' & Hr & Hm)%contextual_run. revert Hr. unfold write_all. destruct (io (device w)) as [d [[e left_] |]]; intros [= <- <-]; subst r; eauto.
  by exists left_.
Qed.

(** A file is replaced as a whole or stays as it was. *)
Lemma restore_file_run path c w w' r : (restore_file path c : M unit) w = (w', r) ->
  files w' !! path = (if r is inr _ then c else files w !! path).
Proof.
  pose proof (with_extension_ne path) as Hne. unfold restore_file. destruct c as [c |].
  - intros [(e & [-> _]%call_run & ->) | (w1 & [] & [<- _]%call_run & Hr)]%bind_run; [done |].
    apply bind_run in Hr as [(e & [=] & _) | (w2 & [] & [= <-] & Hr)].
    apply bind_run in Hr as [(e & (c' & -> & _)%write_run & ->) | (w3 & [] & (c' & Hw & Hc)%write_run & Hr)]; [by cbn; simplify_map_eq |].
    rewrite Hc in Hw by done. cbn in Hw.
    apply bind_run in Hr as [(e & [-> _]%call_run & ->) | (w4 & [] & [H4 _]%call_run & [= <- <-])]; rewrite ?Hw; cbn; [by simplify_map_eq |].
    rewrite H4, Hw. by simplify_map_eq.
  - intros [(e & [-> _]%call_run & ->) | (w1 & [] & [H1 _]%call_run & [= <- <-])]%bind_run; [done |]. cbn. by simplify_map_eq.
Qed.

Lemma asks_run {A B} (f : world D -> world D * A) (k : A -> M B) w : (asks f ≫= k) w = k (f w).2 (f w).1.
Proof. unfold mbind, eff_bind, asks. by destruct (f w). Qed.

Lemma program_ran p w w' out : run p w = (w', inr out) -> effect p None w w' out.
Proof.
  unfold Network.run. cbv zeta. rewrite asks_run. intros Hr. destruct (exec p None w) as [w2 a'] eqn:E. cbn in Hr.
  destruct a' as [| | [] out' err]; [done.. | | done]. unfold of_result, utf8_string in Hr.
  destruct (utf8_valid _); [| done]. injection Hr as <- <-. pose proof (exec_succeeds p None w out' err) as He. rewrite E in He. by apply He.
Qed.

Lemma run_unit_ok p w w' (x : unit) : (run p ;; mret tt : M unit) w = (w', inr x) -> exists out, effect p None w w' out.
Proof. intros [(e & _ & [=]) | (w1 & out & Hr%program_ran & [= <- _])]%bind_run. by exists out. Qed.

Lemma succeeds_run p m w w' b : succeeds p m w = (w', inr b) ->
  if b then exists out, effect p None w w' out
  else exists out err, (exec p None w).2 = Exit false out err.
Proof.
  unfold succeeds. rewrite asks_run. intros Hr. destruct (exec p None w) as [w2 a'] eqn:E. cbn in Hr.
  destruct a' as [| | b' out err]; [done.. |]. injection Hr as <- <-. pose proof (exec_succeeds p None w out err) as He. rewrite E in *.
  destruct b'; eauto.
Qed.

Lemma relay_active_run w w' b : relay_active w = (w', inr b) -> relay_up (view w') = b /\ forall l, keep l w w'.
Proof.
  intros Hr. assert (forall l, keep l w w') as Hk. { intros l. eapply succeeds_keeps, Hr. intros a _. cbn. apply not_elem_of_nil. }
  split; [| done]. pose proof (Hk [ARelay] ARelay (list_elem_of_here _ _)) as Hup. cbn in Hup. rewrite Hup.
  apply succeeds_run in Hr. destruct b; [by destruct Hr as [out Hr] |]. destruct Hr as (out & err & Hr). by apply relay_status_fails in Hr.
Qed.

Lemma service_active_run w w' b : service_active w = (w', inr b) -> tunnel_up (view w') = b /\ forall l, keep l w w'.
Proof.
  intros Hr. assert (forall l, keep l w w') as Hk. { intros l. eapply succeeds_keeps, Hr. intros a _. cbn. apply not_elem_of_nil. }
  split; [| done]. pose proof (Hk [ATunnel] ATunnel (list_elem_of_here _ _)) as Hup. cbn in Hup. rewrite Hup.
  apply succeeds_run in Hr. destruct b; [by destruct Hr as [out Hr] |]. destruct Hr as (out & err & Hr). by apply tunnel_status_fails in Hr.
Qed.

Lemma tunnel_addresses_run w w' l : tunnel_addresses w = (w', inr l) -> l = addresses (view w).
Proof.
  intros [(e & _ & [=]) | (w1 & out & Hr%program_ran & Hm)]%bind_run. cbn in Hr. revert Hm. unfold of_result.
  destruct (mapM address_of_line (lines out)) as [k | e] eqn:E; intros [= _ <-]. apply result_mapM_ok in E.
  assert (mapM (fun line => address_field (split_whitespace line)) (lines out) = Some k) as Hk; [| congruence].
  apply mapM_Some. eapply Forall2_impl; [exact E |]. by intros a x ?%ok_or_ok.
Qed.

Lemma add_addresses_run l w w' : add_addresses interface describe l w = (w', inr tt) -> addresses (view w') = addresses (view w) ++ l.
Proof.
  revert w. induction l as [| a l IH]; intros w; cbn; [intros [= <-]; by rewrite app_nil_r |].
  intros [(e & _ & [=]) | (w1 & out & Hr%program_ran & Ha)]%bind_run. apply IH in Ha. cbn in Hr. by rewrite Ha, Hr, <- app_assoc.
Qed.

Lemma replace_tunnel_addresses_run l w w' : replace_tunnel_addresses l w = (w', inr tt) -> addresses (view w') = l.
Proof. intros [(e & _ & [=]) | (w1 & out & Hr%program_ran & Ha)]%bind_run. apply add_addresses_run in Ha. cbn in Hr. by rewrite Ha, Hr. Qed.

Lemma set_private_key_run k w w' : set_private_key interface describe k w = (w', inr tt) ->
  wg_peers (wg (view w')) = wg_peers (wg (view w)) /\ forall key, k = Some key -> wg_key (wg (view w')) = Some key.
Proof.
  unfold set_private_key. destruct k as [key |]; cbv zeta.
  - rewrite asks_run. pose proof (exec_succeeds (conf := conf) (WgPrivateKey "/dev/stdin") (Some (str (chars key ++ [LF]))) w) as Hs.
    destruct (exec _ _ w) as [w1 [| | [] out err]]; try done. intros [= <-]. destruct (Hs out err eq_refl) as [Hp Hk]. split; [done |].
    intros _ [= <-]. by apply Hk.
  - intros (out & Hr & _)%run_unit_ok. split; [exact Hr | done].
Qed.

Lemma remove_peers_run l w w' : remove_peers interface describe l w = (w', inr tt) ->
  wg_key (wg (view w')) = wg_key (wg (view w)) /\ forall k, wg_peers (wg (view w')) !! k = if bool_decide (k ∈ l) then None else wg_peers (wg (view w)) !! k.
Proof.
  revert w. induction l as [| a l IH]; intros w; cbn; [by intros [= <-] |].
  intros [(e & _ & [=]) | (w1 & out & Hr%program_ran & Ha)]%bind_run. apply IH in Ha as [Hk Hp]. cbn in Hr. rewrite Hr in *. cbn in *. split; [done |].
  intros k. rewrite Hp. destruct (decide (k = a)) as [-> | Hne].
  - rewrite lookup_delete_eq, (bool_decide_true (a ∈ a :: l)) by apply list_elem_of_here. by case_bool_decide.
  - rewrite lookup_delete_ne by done. pose proof (elem_of_cons l k a) as He. destruct He as [He1 He2].
    case_bool_decide as H1; case_bool_decide as H2; [done | | | done]; exfalso; [by apply H2; apply He2; right |]. by destruct (He1 H2).
Qed.

(** ** The peer *)

Definition peer_in_force (server : server_profile) (w : world D) : Prop :=
  wg_peers (wg (view w)) = {[public_key server := relay_peer]} /\
  (forall key, client_private_key server = Some key -> wg_key (wg (view w)) = Some key) /\
  exists c, files w !! conf = Some c /\ conf_wg c = wg (view w).

Lemma apply_peer_ok server peers changed next w w' :
  (forall k, is_Some (wg_peers (wg (view w)) !! k) -> k ∈ peers) -> apply_peer server peers changed next w = (w', inr tt) ->
  peer_in_force server w' /\ addresses (view w') = if changed then next else addresses (view w).
Proof.
  intros Hall Hr. apply bind_run in Hr as [(e & _ & [=]) | (w1 & [] & Hkey & Hr)].
  apply bind_run in Hr as [(e & _ & [=]) | (w2 & out & Hset & Hr)]. apply bind_run in Hr as [(e & _ & [=]) | (w3 & [] & Hrm & Hr)].
  apply bind_run in Hr as [(e & _ & [=]) | (w4 & [] & Hadr & Hsave)].
  apply (kept AAddresses) in Hkey as A1; [| keeps]. apply (kept AAddresses) in Hset as A2; [| keeps]. 
  apply (kept AAddresses) in Hrm as A3; [| keeps]. apply (kept AAddresses) in Hsave as A5; [| keeps].
  apply (kept AWg) in Hadr as G4; [| destruct changed; keeps]. apply (kept AWg) in Hsave as G5; [| keeps].
  apply set_private_key_run in Hkey as [Hp1 Hk1]. apply program_ran in Hset as (Hk2 & Hd2 & Hp2). apply remove_peers_run in Hrm as [Hk3 Hp3].
  apply run_unit_ok in Hsave as (out' & _ & c & Hc & Hwg). cbn in *. split; [split_and!|].
  - rewrite G5, G4. apply map_eq. intros k. rewrite Hp3. destruct (decide (k = public_key server)) as [-> | Hne].
    + rewrite lookup_singleton_eq, bool_decide_false by (rewrite list_elem_of_filter; naive_solver). done.
    + rewrite lookup_singleton_ne by done. case_bool_decide as Hin; [done |]. apply not_elem_of_dom. rewrite Hd2, Hp1, elem_of_union, elem_of_singleton.
      intros [? | Hdom%elem_of_dom%Hall]; [done |]. by apply Hin, list_elem_of_filter.
  - intros key Hkey%Hk1. congruence.
  - exists c. split; [done | congruence].
  - rewrite A5. destruct changed; [by apply replace_tunnel_addresses_run in Hadr |]. injection Hadr as <-. congruence.
Qed.

(** ** Roll back *)

(** An error of an update whose rollback failed says so. *)
Definition rollback_reported (e : error) : Prop :=
  exists what cause failures, failures <> [] /\
    e = Msg (what +:+ " failed: " +:+ error_text cause +:+ "; rollback failed: " +:+ join "; " failures).

Lemma rollback_step_run what step w w' r : (rollback_step what step : M (list string)) w = (w', r) ->
  (exists x, step w = (w', inr x) /\ r = inr []) \/ (exists e text, step w = (w', inl e) /\ r = inr [text]).
Proof.
  unfold rollback_step, mbind, eff_bind, try. destruct (step w) as [w1 [e | x]]; intros [= <- <-]; eauto.
Qed.

Lemma rolled_back_run {A} what e failed w w' (r : error + A) : (rolled_back what e failed : M A) w = (w', r) ->
  w' = w /\ exists e', r = inl e' /\ ((failed = [] /\ e' = e) \/ rollback_reported e').
Proof.
  unfold rolled_back. destruct failed as [| f l]; intros [= <- <-]; (split; [done |]); eexists; (split; [done |]); [by left |].
  right. by exists what, e, (f :: l).
Qed.

Lemma save_failed w w' r : (run (Tunnel "save") ;; mret tt : M unit) w = (w', r) -> (exists e, r = inl e) -> agree (AFile conf) w w'.
Proof.
  intros Hr [e ->]. pose proof (save_fails w) as Hf. unfold Network.run in Hr. cbv zeta in Hr. rewrite bind_assoc, asks_run in Hr.
  pose proof (exec_succeeds (conf := conf) (Tunnel "save") None w) as He. destruct (exec _ _ w) as [w1 a]. cbn [fst snd] in *.
  destruct a as [e' | m e' | [] out err]; [by injection Hr as <- _; apply Hf.. | | by injection Hr as <- _; apply Hf].
  destruct (He out err eq_refl) as [-> _]. done.
Qed.

Definition untouched : list aspect := [ARelay; ATunnel; AMtu; AFile RELAY_ENDPOINT_PATH].

Lemma set_peer_keeps server : preserves (keep untouched) (set_peer server).
Proof.
  unfold Network.set_peer, Network.apply_peer, Network.tunnel_addresses. preserved; try apply rollback_step_keeps; try apply rolled_back_keeps; keeps.
Qed.

(** The peer, the addresses and the file of the tunnel before a failed update. *)
Definition peer_restored (w w' : world D) : Prop :=
  addresses (view w') = addresses (view w) /\ files w' !! conf = files w !! conf /\
  (wg (view w') = wg (view w) \/ exists c, files w !! conf = Some c /\ wg (view w') = conf_wg c).

Lemma apply_peer_err server peers changed next w w' e : apply_peer server peers changed next w = (w', inl e) ->
  files w' !! conf = files w !! conf /\ (changed = false -> addresses (view w') = addresses (view w)).
Proof.
  intros Hr. split; [| intros ->; apply (kept AAddresses) in Hr; [exact Hr | unfold Network.apply_peer; keeps]].
  unfold Network.apply_peer in Hr. do 4 (
    apply bind_run in Hr as [(? & K & _) | (? & ? & K & Hr)]; (apply (kept (AFile conf)) in K; [| try destruct changed; keeps]); [exact K |];
    cbn in K; rewrite <- K; clear K).
  eapply save_failed; eauto.
Qed.

(** What [set_peer] reads before it changes something. *)
Lemma set_peer_reads server w w' r : set_peer server w = (w', r) ->
  (exists e, r = inl e /\ keep [AAddresses; AWg; AFile conf] w w') \/
  exists w1 peers, keep [AAddresses; AWg; AFile conf] w w1 /\ (forall k, is_Some (wg_peers (wg (view w1)) !! k) -> k ∈ peers) /\
    let next := next_tunnel_addresses (client_tunnel_address server) (addresses (view w1)) in
    let changed := negb (bool_decide (addresses (view w1) = next)) in
    (result ← try (apply_peer server peers changed next);
     match result with
     | Ok _ => mret tt
     | Err error =>
         config ← rollback_step "WireGuard config" (run (WgSetconf conf) ;; mret tt);
         restored ← (if changed then rollback_step "tunnel address" (replace_tunnel_addresses (addresses (view w1))) else mret []);
         rolled_back "WireGuard peer update" error (config ++ restored)
     end) w1 = (w', r).
Proof.
  unfold Network.set_peer. intros [(e & Hv & ->) | (w1 & [] & Hv & Hr)]%bind_run.
  { left. exists e. split; [done |]. eapply (preserves_of_result _ _ _ _ _ Hv). }
  assert (w1 = w) as -> by (unfold of_result in Hv; destruct (validate_server _); by simplify_eq). clear Hv.
  assert (preserves (keep [AAddresses; AWg; AFile conf]) (run WgPeers)) as Kp by keeps.
  assert (preserves (keep [AAddresses; AWg; AFile conf]) tunnel_addresses) as Ka by (unfold Network.tunnel_addresses; keeps).
  apply bind_run in Hr as [(e & Hp & ->) | (w1 & out & Hp & Hr)]; [left; exists e; by eapply Kp in Hp |].
  apply bind_run in Hr as [(e & Ha & ->) | (w2 & l & Ha & Hr)]; [left; exists e; split; [done |]; etransitivity; [by eapply Kp | by eapply Ka] |].
  pose proof (tunnel_addresses_run _ _ _ Ha) as ->. pose proof (Ka _ _ _ Ha) as Hk2. pose proof (Kp _ _ _ Hp) as Hk1.
  assert (addresses (view w1) = addresses (view w2)) as Haddr by (symmetry; by apply (Hk2 AAddresses), list_elem_of_here).
  right. exists w2, (split_whitespace out). rewrite Haddr in Hr. split_and!; [by transitivity w1 | | exact Hr].
  intros k Hk. apply program_ran in Hp. cbn in Hp. rewrite Hp. assert (wg (view w2) = wg (view w)) as Hwg.
  { assert (AWg ∈ [AAddresses; AWg; AFile conf]) as Hin by (right; left). pose proof (Hk1 _ Hin). pose proof (Hk2 _ Hin). cbn in *. congruence. }
  rewrite Hwg in Hk. destruct Hk as [x Hx]. apply list_elem_of_fmap. exists (k, x). split; [done |]. by apply elem_of_map_to_list.
Qed.

Lemma set_peer_ok server w w' : set_peer server w = (w', inr tt) ->
  peer_in_force server w' /\ addresses (view w') = next_tunnel_addresses (client_tunnel_address server) (addresses (view w)).
Proof.
  intros [(e & [=] & _) | (w1 & peers & Hk & Hall & Hr)]%set_peer_reads. cbv zeta in Hr.
  assert (addresses (view w1) = addresses (view w)) as Ha by (apply (Hk AAddresses), list_elem_of_here). rewrite Ha in Hr.
  apply bind_run in Hr as [(e & [(? & _ & [=]) | (? & _ & [=])]%try_run & _) | (w2 & o & Ho & Hr)].
  apply try_run in Ho as [(x & Ho & [= ->]) | (e & _ & [= ->])].
  - injection Hr as <-. destruct x. apply apply_peer_ok in Ho as [Hin Had]; [| done]. split; [done |]. rewrite Had, Ha.
    case_bool_decide; by cbn.
  - apply bind_run in Hr as [(? & _ & [=]) | (w3 & c & _ & Hr)]. apply bind_run in Hr as [(? & _ & [=]) | (w4 & d & _ & Hr)].
    by apply rolled_back_run in Hr as (_ & e' & [=] & _).
Qed.

Lemma set_peer_err server w w' e : set_peer server w = (w', inl e) -> rollback_reported e \/ peer_restored w w'.
Proof.
  intros [(e' & _ & Hk) | (w1 & peers & Hk & _ & Hr)]%set_peer_reads.
  { right. split_and!; [apply (Hk AAddresses); left | apply (Hk (AFile conf)); right; right; left | left; apply (Hk AWg); right; left]. }
  cbv zeta in Hr. assert (addresses (view w1) = addresses (view w)) as Ha by (apply (Hk AAddresses), list_elem_of_here). rewrite Ha in Hr.
  assert (files w1 !! conf = files w !! conf) as Hc by (apply (Hk (AFile conf)); right; right; left).
  apply bind_run in Hr as [(? & [(? & _ & [=]) | (? & _ & [=])]%try_run & _) | (w2 & o & Ho & Hr)].
  apply try_run in Ho as [(x & Ho & [= ->]) | (e' & Ho & [= ->])]; [done |]. apply apply_peer_err in Ho as [Hf2 Ha2].
  apply bind_run in Hr as [(? & [(? & _ & [=]) | (? & ? & _ & [=])]%rollback_step_run & _) | (w3 & c & Hset & Hr)].
  assert (files w3 !! conf = files w2 !! conf) as Hf3 by (apply (kept (AFile conf)) in Hset; [exact Hset | apply rollback_step_keeps; keeps]).
  assert (addresses (view w3) = addresses (view w2)) as Ha3 by (apply (kept AAddresses) in Hset; [exact Hset | apply rollback_step_keeps; keeps]).
  apply bind_run in Hr as [(? & Hd & [= ->]) | (w4 & d & Hd & Hr)].
  { destruct (negb _); [apply rollback_step_run in Hd as [(? & _ & [=]) | (? & ? & _ & [=])] | done]. }
  apply rolled_back_run in Hr as (-> & e0 & [= <-] & [[[-> ->]%app_nil ->] | Hfail]); [right | by left].
  apply rollback_step_run in Hset as [([] & (out & c & Hc3 & Hwg)%run_unit_ok & _) | (? & ? & _ & [=])].
  assert (keep [AWg; AFile conf] w3 w4) as Hk4.
  { destruct (negb _); [eapply rollback_step_keeps, Hd; keeps | by injection Hd as <-]. }
  pose proof (Hk4 AWg (list_elem_of_here _ _)) as Hw4. pose proof (Hk4 (AFile conf) ltac:(right; left)) as Hf4. cbn in Hw4, Hf4.
  split_and!.
  - case_bool_decide as Hn; cbn [negb] in *; [injection Hd as <-; rewrite Ha3, Ha2 by done; exact Ha |].
    apply rollback_step_run in Hd as [([] & Hd & _) | (? & ? & _ & [=])]. by apply replace_tunnel_addresses_run in Hd.
  - congruence.
  - right. exists c. split; congruence.
Qed.

(** ** The relay *)

Definition routes : list aspect := [ATunnel; AMtu; AAddresses; AWg; AFile conf].

Lemma prepare_relay_keeps server force : preserves (keep routes) (prepare_relay server force).
Proof. unfold Network.prepare_relay, relay_active, write_relay_endpoint, restart_relay, read_optional. keeps. Qed.

Lemma restore_relay_keeps c : preserves (keep routes) (restore_relay c).
Proof. unfold Network.restore_relay, write_relay_endpoint, restart_relay. keeps. Qed.

Definition endpoint_file (server : server_profile) : string := str (chars (endpoint server) ++ [LF]).

Lemma write_and_restart c w w' : (write_relay_endpoint c ;; restart_relay interface describe) w = (w', inr tt) ->
  files w' !! RELAY_ENDPOINT_PATH = Some c /\ relay_up (view w') = startable (Some c).
Proof.
  intros [(? & _ & [=]) | (w1 & [] & Hw & Hr)]%bind_run. apply (restore_file_run _ (Some c)) in Hw.
  pose proof Hr as Hk. apply (kept (AFile RELAY_ENDPOINT_PATH)) in Hk; [| unfold restart_relay; keeps]. cbn in Hk.
  apply run_unit_ok in Hr as (out & Hup). cbn in Hup. by rewrite Hk, Hup, Hw.
Qed.

Lemma endpoint_startable server : startable (Some (endpoint_file server)) = true.
Proof.
  unfold startable, endpoint_file. rewrite bool_decide_false; [done |]. intros E%(f_equal chars). rewrite chars_str in E. by destruct (chars (endpoint server)).
Qed.

Lemma prepare_relay_ok server force w w' : prepare_relay server force w = (w', inr tt) ->
  files w' !! RELAY_ENDPOINT_PATH = Some (endpoint_file server) /\ relay_up (view w') = true.
Proof.
  unfold Network.prepare_relay. intros [(? & _ & [=]) | (w1 & [] & _ & Hr)]%bind_run. cbv zeta in Hr. fold (endpoint_file server) in Hr.
  apply bind_run in Hr as [(? & _ & [=]) | (w2 & current & Hread & Hr)]. apply bind_run in Hr as [(? & _ & [=]) | (w3 & active & [Hup Hk]%relay_active_run & Hr)].
  assert (current = Ok (Some (endpoint_file server)) -> files w3 !! RELAY_ENDPOINT_PATH = Some (endpoint_file server)) as Hcur.
  { intros ->. rewrite (Hk _ _ (list_elem_of_here (AFile RELAY_ENDPOINT_PATH) [])). apply try_run in Hread as [(x & Hx & [= <-]) | (? & _ & [=])].
    apply bind_run in Hx as [(? & _ & [=]) | (w4 & [] & _ & [= <- Hf])]. exact Hf. }
  case_bool_decide as Hc; cbn [negb] in Hr; cbn [andb] in Hr.
  - specialize (Hcur Hc). destruct (negb force && active) eqn:Hb; [injection Hr as <-; apply andb_true_iff in Hb as [_ ->]; by rewrite Hup |].
    change (restart_relay interface describe w3 = (w', inr tt)) in Hr. pose proof Hr as Hkeep.
    apply (kept (AFile RELAY_ENDPOINT_PATH)) in Hkeep; [| unfold restart_relay; keeps]. cbn in Hkeep.
    apply run_unit_ok in Hr as (out & Hr). cbn in Hr. by rewrite Hkeep, Hr, Hcur, endpoint_startable.
  - apply write_and_restart in Hr. by rewrite endpoint_startable in Hr.
Qed.

Lemma restore_relay_ok c w w' : restore_relay c w = (w', inr tt) ->
  files w' !! RELAY_ENDPOINT_PATH = c /\ relay_up (view w') = startable c.
Proof.
  destruct c as [c |]; [by intros Hr%write_and_restart |]. cbn.
  intros [(? & _ & [=]) | (w1 & [] & _ & Hr)]%bind_run. apply bind_run in Hr as [(? & _ & [=]) | (w2 & [] & [= <-] & Hr)].
  pose proof Hr as Hk. apply (kept (AFile RELAY_ENDPOINT_PATH)) in Hk; [| keeps]. cbn in Hk. apply run_unit_ok in Hr as (out & Hr). cbn in Hr.
  rewrite Hk. by simplify_map_eq.
Qed.
(** ** A server update *)

Definition server_in_force (server : server_profile) (w w' : world D) : Prop :=
  files w' !! RELAY_ENDPOINT_PATH = Some (endpoint_file server) /\ relay_up (view w') = true /\ tunnel_up (view w') = true /\
  (parse_tunnel_mtu (uci_mtu (view w)) = Ok (link_mtu (view w')) /\ MIN_TUNNEL_MTU <= link_mtu (view w') <= TUNNEL_MTU) /\ peer_in_force server w' /\
  exists previous, (tunnel_up (view w) = true -> previous = addresses (view w)) /\
    addresses (view w') = next_tunnel_addresses (client_tunnel_address server) previous.

Definition network_restored (w w' : world D) : Prop :=
  files w' !! RELAY_ENDPOINT_PATH = files w !! RELAY_ENDPOINT_PATH /\
  (relay_up (view w') = relay_up (view w) \/ relay_up (view w') = startable (files w !! RELAY_ENDPOINT_PATH)) /\
  tunnel_up (view w') = tunnel_up (view w) /\
  (tunnel_up (view w) = true -> peer_restored w w' /\
     (link_mtu (view w') = link_mtu (view w) \/ parse_tunnel_mtu (uci_mtu (view w)) = Ok (link_mtu (view w')))).

Lemma apply_server_ok server mtu active w w' :
  parse_tunnel_mtu (uci_mtu (view w)) = Ok mtu -> MIN_TUNNEL_MTU <= mtu <= TUNNEL_MTU -> tunnel_up (view w) = active -> apply_server server mtu active w = (w', inr tt) ->
  server_in_force server w w'.
Proof.
  intros Hu Hm Hup Hr. apply bind_run in Hr as [(? & _ & [=]) | (w1 & [] & Hprep & Hr)].
  apply bind_run in Hr as [(? & _ & [=]) | (w2 & [] & Hstart & Hr)]. apply bind_run in Hr as [(? & _ & [=]) | (w3 & out & Hmtu & Hset)].
  pose proof (prepare_relay_keeps _ _ _ _ _ Hprep) as Hk1. apply prepare_relay_ok in Hprep as [Hf1 Hr1].
  assert (keep [ARelay; AFile RELAY_ENDPOINT_PATH] w1 w2 /\ tunnel_up (view w2) = true /\ (active = true -> w2 = w1)) as (Hk2 & Hup2 & Hsame).
  { destruct active; [injection Hstart as <-; split_and!; [done | | done]; rewrite (Hk1 ATunnel (list_elem_of_here _ _)); done |].
    split_and!; [| by apply run_unit_ok in Hstart as (? & ?) | done]. assert (preserves (keep [ARelay; AFile RELAY_ENDPOINT_PATH]) (set_tunnel "start")) as Hk.
    { unfold Network.set_tunnel. keeps. } by eapply Hk. }
  assert (keep [ARelay; ATunnel; AAddresses; AFile RELAY_ENDPOINT_PATH] w2 w3) as Hk3.
  { assert (preserves (keep [ARelay; ATunnel; AAddresses; AFile RELAY_ENDPOINT_PATH]) (run (SetMtu mtu))) as Hk by keeps. by eapply Hk. }
  apply program_ran in Hmtu. cbn in Hmtu. pose proof (set_peer_keeps _ _ _ _ Hset) as Hk4. apply set_peer_ok in Hset as [Hin Haddr].
  unfold keep, untouched, routes in *. rewrite ?Forall_forall in *.
  assert (forall a, a ∈ [ARelay; AFile RELAY_ENDPOINT_PATH] -> agree a w1 w') as Hr4.
  { intros a Ha. pose proof (Hk2 a Ha) as K2. pose proof (Hk3 a ltac:(set_solver)) as K3. pose proof (Hk4 a ltac:(set_solver)) as K4.
    apply elem_of_cons in Ha as [-> | ->%list_elem_of_singleton]; cbn in *; congruence. }
  pose proof (Hr4 ARelay ltac:(set_solver)) as R. pose proof (Hr4 (AFile RELAY_ENDPOINT_PATH) ltac:(set_solver)) as F.
  pose proof (Hk3 ATunnel ltac:(set_solver)) as T3. pose proof (Hk4 ATunnel ltac:(set_solver)) as T4.
  pose proof (Hk4 AMtu ltac:(set_solver)) as M4. pose proof (Hk3 AAddresses ltac:(set_solver)) as A3. pose proof (Hk1 AAddresses ltac:(set_solver)) as A1.
  cbn in R, F, T3, T4, M4, A3, A1. split_and!; try congruence; [lia | lia |].
  exists (addresses (view w3)). split; [| exact Haddr]. intros Hw. rewrite Hw in Hup. rewrite A3, Hsame by done. exact A1.
Qed.
(** Up to the peer an update of an active tunnel leaves the interface alone but for its MTU. *)
Lemma apply_server_err server mtu w w' e : apply_server server mtu true w = (w', inl e) ->
  tunnel_up (view w') = tunnel_up (view w) /\
  (rollback_reported e \/ peer_restored w w' /\ (link_mtu (view w') = link_mtu (view w) \/ link_mtu (view w') = mtu)).
Proof.
  set (same := [ATunnel; AAddresses; AWg; AFile conf]).
  assert (forall w1, keep same w w1 -> tunnel_up (view w1) = tunnel_up (view w) /\ peer_restored w w1) as Hsame.
  { intros w1 Hk. split; [by apply (Hk ATunnel); left |]. split_and!; [apply (Hk AAddresses); right; left | apply (Hk (AFile conf)); do 3 right; left |].
    left. apply (Hk AWg). do 2 right. left. }
  intros Hr. assert (preserves (keep same) (prepare_relay server (negb true))) as Kp.
  { intros w1 w2 r Hp%prepare_relay_keeps a Ha. apply Hp. unfold same, routes in *. set_solver. }
  assert (forall w1 r, prepare_relay server (negb true) w = (w1, r) -> link_mtu (view w1) = link_mtu (view w)) as Hpm.
  { intros w1 r Hp%prepare_relay_keeps. apply (Hp AMtu). unfold routes. set_solver. }
  apply bind_run in Hr as [(? & Hp & [= <-]) | (w1 & [] & Hp & Hr)]; pose proof (Hpm _ _ Hp) as Hmtu1; apply Kp in Hp.
  { apply Hsame in Hp as []; eauto 6. }
  apply bind_run in Hr as [(? & [=] & _) | (w2 & [] & [= <-] & Hr)].
  assert (preserves (keep same) (run (SetMtu mtu))) as Km by (unfold same; keeps).
  assert (forall w2 r, run (SetMtu mtu) w1 = (w2, r) -> link_mtu (view w2) = link_mtu (view w) \/ link_mtu (view w2) = mtu) as Hset_mtu.
  { intros w2 r Hrun. pose proof (mtu_set_or_left (conf := conf) mtu None w1) as Hlaw. cbn in Hlaw. unfold Network.run in Hrun. cbv zeta in Hrun.
    rewrite asks_run in Hrun. destruct (exec _ _ w1) as [w3 a]. rewrite Hmtu1 in Hlaw. cbn [fst snd] in *.
    assert (w2 = w3) as -> by (unfold of_result in Hrun; destruct a as [| | [] ? ?]; [..| destruct (with_context _ _) |]; by injection Hrun as <- _). done. }
  apply bind_run in Hr as [(? & Hm & [= <-]) | (w3 & out & Hm & Hset)]; pose proof (Hset_mtu _ _ Hm) as Hmtu;
    apply Km in Hm; apply (transitivity Hp) in Hm; [apply Hsame in Hm as []; eauto |].
  pose proof (set_peer_keeps _ _ _ _ Hset) as Hk. pose proof (Hk ATunnel ltac:(right; left)) as Ht. pose proof (Hk AMtu ltac:(right; right; left)) as Hk4.
  apply Hsame in Hm as [Hup (Ha & Hf & Hw)]. cbn in Ht, Hk4. rewrite Hk4.
  split; [congruence |]. apply set_peer_err in Hset as [? | (Ha' & Hf' & Hw')]; [by left | right; split; [| done]].
  split_and!; [congruence | congruence |]. rewrite Hf in Hw'. destruct Hw' as [Hw' | Hw']; [| by right]. rewrite Hw'. exact Hw.
Qed.

Lemma parse_tunnel_mtu_range value m : parse_tunnel_mtu value = Ok m -> MIN_TUNNEL_MTU <= m <= TUNNEL_MTU.
Proof.
  unfold parse_tunnel_mtu. intros (n & _ & E)%bind_ok. destruct (_ || _) eqn:Hb; [done |]. injection E as <-. apply orb_false_iff in Hb as [_ Hb].
  apply negb_false_iff, andb_true_iff in Hb. lia.
Qed.

Lemma configured_tunnel_mtu_run w w' m : configured_tunnel_mtu w = (w', inr m) -> parse_tunnel_mtu (uci_mtu (view w)) = Ok m.
Proof.
  intros [(? & _ & [=]) | (w1 & out & Ho & Hp)]%bind_run. apply program_ran in Ho. cbn in Ho. unfold of_result in Hp. rewrite Ho in Hp.
  destruct (parse_tunnel_mtu _) as [k | e]; [| done]. by injection Hp as _ <-.
Qed.

(** The update itself, once the MTU, the old endpoint and the state of the tunnel are read. *)
Lemma update_from server mtu active (w w2 w3 w' : world D) (r : error + unit) :
  parse_tunnel_mtu (uci_mtu (view w)) = Ok mtu -> tunnel_up (view w3) = active ->
  keep [ARelay; ATunnel; AMtu; AAddresses; AWg; AUci; AFile conf; AFile RELAY_ENDPOINT_PATH] w w3 ->
  files w2 !! RELAY_ENDPOINT_PATH = files w !! RELAY_ENDPOINT_PATH ->
  (result ← try (apply_server server mtu active);
   match result with
   | Ok _ => mret tt
   | Err error =>
       tunnel ← (if active : bool then mret [] else rollback_step "tunnel stop" (Network.stop_tunnel interface describe));
       relay ← rollback_step "relay" (restore_relay (files w2 !! RELAY_ENDPOINT_PATH));
       rolled_back "server update" error (tunnel ++ relay)
   end) w3 = (w', r) ->
  match r with
  | inr _ => server_in_force server w w'
  | inl e => rollback_reported e \/ network_restored w w'
  end.
Proof.
  intros Hmtu Hup Ha Hp Hr. pose proof (parse_tunnel_mtu_range _ _ Hmtu) as Hrange.
  assert (tunnel_up (view w3) = tunnel_up (view w) /\ addresses (view w3) = addresses (view w)) as [Ht Hadr].
  { split; [apply (Ha ATunnel) | apply (Ha AAddresses)]; repeat constructor. }
  assert (files w3 !! conf = files w !! conf /\ wg (view w3) = wg (view w)) as [Hc Hwg].
  { split; [apply (Ha (AFile conf)) | apply (Ha AWg)]; repeat constructor. }
  assert (link_mtu (view w3) = link_mtu (view w) /\ uci_mtu (view w3) = uci_mtu (view w)) as [Hlm Huci].
  { split; [apply (Ha AMtu) | apply (Ha AUci)]; repeat constructor. }
  apply bind_run in Hr as [(? & [(? & _ & [=]) | (? & _ & [=])]%try_run & _) | (w4 & o & Ho & Hr)].
  apply try_run in Ho as [([] & Ho & [= ->]) | (e & Ho & [= ->])].
  { injection Hr as <- <-. apply apply_server_ok in Ho as (? & ? & ? & ? & ? & previous & Hprev & Hnext); [| by rewrite Huci | done..].
    split_and!; try done; try lia; try (by rewrite <- Huci; tauto). exists previous. split; [| done]. rewrite <- Ht, <- Hadr. done. }
  apply bind_run in Hr as [(? & Hs & _) | (w5 & t & Hs & Hr)].
  { destruct active; [by injection Hs | by apply rollback_step_run in Hs as [(? & _ & [=]) | (? & ? & _ & [=])]]. }
  apply bind_run in Hr as [(? & [(? & _ & [=]) | (? & ? & _ & [=])]%rollback_step_run & _) | (w6 & f & Hrel & Hr)].
  apply rolled_back_run in Hr as (-> & e0 & -> & [[[-> ->]%app_nil ->] | Hfail]); [| by left].
  apply rollback_step_run in Hrel as [([] & Hrel & _) | (? & ? & _ & [=])].
  pose proof (restore_relay_keeps _ _ _ _ Hrel) as Hk. apply restore_relay_ok in Hrel as [Hend Hrup].
  rewrite Hp in *. pose proof (Hk ATunnel (list_elem_of_here _ _)) as Ht6. cbn in Ht6.
  destruct active.
  - injection Hs as <-. apply apply_server_err in Ho as [Ht4 [? | ((Ha4 & Hc4 & Hw4) & Hm4)]]; [by left | right].
    split_and!; [done | by right | congruence |]. intros _.
    assert (addresses (view w6) = addresses (view w4)) as Ha6 by (apply (Hk AAddresses); repeat constructor).
    assert (files w6 !! conf = files w4 !! conf) as Hc6 by (apply (Hk (AFile conf)); repeat constructor).
    assert (wg (view w6) = wg (view w4)) as Hw6 by (apply (Hk AWg); repeat constructor).
    assert (link_mtu (view w6) = link_mtu (view w4)) as Hm6 by (apply (Hk AMtu); repeat constructor).
    rewrite Hm6, Hmtu. split; [| destruct Hm4; [left; congruence | right; congruence]].
    split_and!; [congruence | congruence |]. rewrite Hc, Hwg in Hw4. rewrite Hw6. exact Hw4.
  - right. apply rollback_step_run in Hs as [([] & (out & Hdown)%run_unit_ok & _) | (? & ? & _ & [=])]. cbn in Hdown.
    split_and!; [done | by right | congruence | intros Hw; congruence].
Qed.

(** C16. Selecting a server is complete or taken back. On success the relay runs with the server's endpoint in
    its file, the tunnel is up with the MTU that UCI configures, the server is the only peer, its key is
    set, its tunnel address is the only one (without one the addresses stay) and the saved configuration is
    the one in force. On an error, whatever program or file call failed, either the error says that the
    rollback failed, or: the relay's endpoint file is as before and the relay as before or started and stopped by
    that file; the tunnel is up or down as before; and if it was up its addresses and its saved
    configuration are as before, its peers are as before or read again from that saved configuration. One
    thing is not taken back: the MTU of a tunnel that was up is as before or the configured one. *)
Theorem server_update_complete_or_undone server w w' r : start_and_select server w = (w', r) ->
  match r with
  | inr _ => server_in_force server w w'
  | inl e => rollback_reported e \/ network_restored w w'
  end.
Proof.
  set (all := [ARelay; ATunnel; AMtu; AAddresses; AWg; AUci; AFile conf; AFile RELAY_ENDPOINT_PATH]).
  assert (forall w1, keep all w w1 -> network_restored w w1) as Hnone.
  { intros w1 Hk. split_and!; [by apply (Hk (AFile RELAY_ENDPOINT_PATH)); repeat constructor | left; apply (Hk ARelay); repeat constructor
      | apply (Hk ATunnel); repeat constructor |].
    intros _. split; [| left; apply (Hk AMtu); repeat constructor].
    split_and!; [apply (Hk AAddresses) | apply (Hk (AFile conf)) | left; apply (Hk AWg)]; repeat constructor. }
  intros Hr.
  assert (preserves (keep all) configured_tunnel_mtu) as K1 by (unfold Network.configured_tunnel_mtu, all; keeps).
  assert (preserves (keep all) (read_optional RELAY_ENDPOINT_PATH)) as K2 by (unfold read_optional; keeps).
  assert (preserves (keep all) service_active) as K3 by (unfold service_active, all; keeps).
  apply bind_run in Hr as [(e & Hm%K1 & ->) | (w1 & mtu & Hm & Hr)]; [right; by apply Hnone |].
  apply configured_tunnel_mtu_run in Hm as Hmtu. apply K1 in Hm.
  apply bind_run in Hr as [(e & He%K2 & ->) | (w2 & previous & He & Hr)]; [right; apply Hnone; by transitivity w1 |].
  assert (previous = files w2 !! RELAY_ENDPOINT_PATH) as ->.
  { apply bind_run in He as [(? & _ & [=]) | (? & _ & _ & [= <- ->])]. done. }
  apply K2 in He. apply (transitivity Hm) in He.
  apply bind_run in Hr as [(e & Ha%K3 & ->) | (w3 & active & Ha & Hr)]; [right; apply Hnone; by transitivity w2 |].
  apply service_active_run in Ha as [Hup Ha]. specialize (Ha all). apply (transitivity He) in Ha.
  eapply (update_from server mtu active w w2 w3); [exact Hmtu | exact Hup | exact Ha | | exact Hr].
  apply (He (AFile RELAY_ENDPOINT_PATH)); repeat constructor.
Qed.

(** The tunnel's MTU is read exactly: a value is accepted only as the decimal form, without a sign or
    leading zeros, of a number the relay's packets can carry. *)
Theorem parse_tunnel_mtu_exact value m : parse_tunnel_mtu value = Ok m <-> value = show m /\ MIN_TUNNEL_MTU <= m <= TUNNEL_MTU.
Proof.
  unfold parse_tunnel_mtu. rewrite bind_ok. split.
  - intros (n & _ & E). destruct (_ || _) eqn:Hb; [done |]. injection E as ->. apply orb_false_iff in Hb as [Hs Hb].
    apply negb_false_iff, bool_decide_eq_true in Hs. apply negb_false_iff, andb_true_iff in Hb. split; [done | lia].
  - intros [-> Hm]. exists m. change MIN_TUNNEL_MTU with 1280 in *. change TUNNEL_MTU with 1379 in *.
    split; [apply with_context_ok, ok_or_ok, (parse_show 65535); lia |].
    rewrite bool_decide_true by done. by assert ((1280 <=? m) && (m <=? 1379) = true) as -> by lia.
Qed.

(** ** Snapshots *)

Lemma captured w w' s : capture interface describe w = (w', inr s) ->
  sn_endpoint s = files w !! RELAY_ENDPOINT_PATH /\ sn_relay_active s = relay_up (view w) /\ sn_saved_tunnel s = files w !! conf /\
  sn_addresses s = (if tunnel_up (view w) then Some (addresses (view w)) else None).
Proof.
  set (all := [ARelay; ATunnel; AAddresses; AFile conf; AFile RELAY_ENDPOINT_PATH]).
  assert (forall path w1 w2 o, read_optional path w1 = (w2, inr o) -> o = files w2 !! path /\ keep all w1 w2) as Hread.
  { intros path w1 w2 o Hr. split; [| eapply (preserves_contextual _ _ _ (file_call_keeps all))]; apply bind_run in Hr as [(? & _ & [=]) | (w3 & [] & Hc & [= <- <-])]; [done | exact Hc]. }
  intros Hr. unfold capture in Hr. apply bind_run in Hr as [(? & _ & [=]) | (w1 & e & [-> K1]%Hread & Hr)].
  apply bind_run in Hr as [(? & _ & [=]) | (w2 & a & [Ha K2]%relay_active_run & Hr)]. specialize (K2 all). apply (transitivity K1) in K2.
  apply bind_run in Hr as [(? & _ & [=]) | (w3 & c & [-> K3]%Hread & Hr)]. apply (transitivity K2) in K3.
  apply bind_run in Hr as [(? & _ & [=]) | (w4 & up & [Hu K4]%service_active_run & Hr)]. specialize (K4 all). apply (transitivity K3) in K4.
  apply bind_run in Hr as [(? & _ & [=]) | (w5 & l & Hl & [= <- <-])]. cbn.
  split_and!; [apply (K1 (AFile RELAY_ENDPOINT_PATH)); repeat constructor | rewrite <- Ha; apply (K2 ARelay); repeat constructor | apply (K3 (AFile conf)); repeat constructor |].
  assert (tunnel_up (view w4) = tunnel_up (view w)) as Ht by (apply (K4 ATunnel); repeat constructor). rewrite <- Ht, Hu.
  destruct up; [| by injection Hl as _ <-]. revert Hl. unfold fmap, eff_fmap. destruct (tunnel_addresses w4) as [w6 [e | k]] eqn:E; [done |].
  intros [= _ <-]. apply tunnel_addresses_run in E as ->. f_equal. apply (K4 AAddresses). repeat constructor.
Qed.

(** A snapshot of the network brings back what it captured, whatever happened in between: the relay's
    endpoint and whether the relay runs, if its endpoint lets it start, the saved tunnel, and the addresses of a tunnel that was up. *)
Theorem snapshot_restores w0 w1 s w w' :
  capture interface describe w0 = (w1, inr s) -> restore interface describe s w = (w', inr tt) ->
  files w' !! RELAY_ENDPOINT_PATH = files w0 !! RELAY_ENDPOINT_PATH /\ files w' !! conf = files w0 !! conf /\
  relay_up (view w') = (relay_up (view w0) && startable (files w0 !! RELAY_ENDPOINT_PATH)) /\ (tunnel_up (view w0) = true -> addresses (view w') = addresses (view w0)).
Proof.
  intros (He & Hu & Hc & Ha)%captured Hr. unfold restore in Hr. apply bind_run in Hr as [(? & _ & [=]) | (w2 & [] & H2 & Hr)].
  apply bind_run in Hr as [(? & _ & [=]) | (w3 & [] & H3 & Hr)]. apply bind_run in Hr as [(? & _ & [=]) | (w4 & [] & H4 & Hr)].
  assert (keep [AAddresses] w2 w3) as A3 by (eapply (restore_file_keeps [AAddresses] conf), H3; spared).
  assert (keep [AAddresses; AFile conf] w3 w4) as A4 by (eapply (restore_file_keeps [AAddresses; AFile conf] RELAY_ENDPOINT_PATH), H4; spared).
  apply restore_file_run in H3, H4. pose proof Hr as A5. apply (kept_all [AAddresses; AFile conf; AFile RELAY_ENDPOINT_PATH]) in A5; [| destruct (sn_relay_active s); keeps].
  apply run_unit_ok in Hr as (out & Hr). split_and!.
  - rewrite <- He, <- H4. apply (A5 (AFile RELAY_ENDPOINT_PATH)). repeat constructor.
  - rewrite <- Hc, <- H3, <- (A4 (AFile conf)) by repeat constructor. apply (A5 (AFile conf)). repeat constructor.
  - rewrite <- Hu, <- He, <- H4. cbn in Hr. by destruct (sn_relay_active s).
  - intros Hup. rewrite Ha, Hup in H2. apply replace_tunnel_addresses_run in H2. rewrite <- H2.
    assert (forall l, AAddresses ∈ AAddresses :: l) as Hin by (left).
    pose proof (A3 AAddresses (Hin _)) as E3. pose proof (A4 AAddresses (Hin _)) as E4. pose proof (A5 AAddresses (Hin _)) as E5. cbn in *. congruence.
Qed.
End Network.

(** ** A router of its own *)

Module SampleTools.

Record dev := Dev { at_hand : router; refuses : option program }.

#[export] Instance program_eq_dec : EqDecision program.
Proof. solve_decision. Defined.
#[export] Instance peer_eq_dec : EqDecision peer.
Proof. solve_decision. Defined.
#[export] Instance wireguard_eq_dec : EqDecision wireguard.
Proof. solve_decision. Defined.

Definition set_router (f : router -> router) (w : world dev) : world dev :=
  World (files w) (Dev (f (at_hand (device w))) (refuses (device w))).

Definition with_wg (f : wireguard -> wireguard) (v : router) : router :=
  Router (relay_up v) (tunnel_up v) (link_mtu v) (addresses v) (f (wg v)) (uci_mtu v).

(** A saved configuration: the private key on its line, then the one peer. *)
Definition conf_wg (c : string) : wireguard :=
  match split_once LF c with
  | Some (key, peer) => Wg (Some key) {[peer := relay_peer]}
  | None => Wg None {[c := relay_peer]}
  end.

Definition saved (g : wireguard) : string :=
  let peer := default ""%string (head (map_to_list (wg_peers g)).*1) in
  match wg_key g with Some key => key +:+ str [LF] +:+ peer | None => peer end.

Definition done (out : string) : answer := Exit true out "".
Definition refused : answer := Exit false "" "refused".

Definition listing (v : router) : string :=
  String.concat "" ((fun a => "5: gofro inet " +:+ a +:+ " scope global" +:+ str [LF]) <$> addresses v).

Definition peer_listing (v : router) : string := String.concat "" ((fun k => k +:+ str [LF]) <$> (map_to_list (wg_peers (wg v))).*1).

Definition act (p : program) (stdin : option string) (w : world dev) : world dev * answer :=
  let v := at_hand (device w) in
  let relay up := set_router (fun v => Router up (tunnel_up v) (link_mtu v) (addresses v) (wg v) (uci_mtu v)) w in
  let tunnel up := set_router (fun v => Router (relay_up v) up (link_mtu v) (addresses v) (wg v) (uci_mtu v)) w in
  match p with
  | Relay action =>
      if bool_decide (action = "restart"%string) then (relay (startable (files w !! RELAY_ENDPOINT_PATH)), done "")
      else if bool_decide (action = "stop"%string) then (relay false, done "")
      else (w, if bool_decide (action = "status"%string) && relay_up v then done "" else refused)
  | Tunnel action =>
      if bool_decide (action = "start"%string) then (tunnel true, done "")
      else if bool_decide (action = "stop"%string) then (tunnel false, done "")
      else if bool_decide (action = "save"%string) then
        if bool_decide (conf_wg (saved (wg v)) = wg v) then (World (<[conf_path "gofro" := saved (wg v)]> (files w)) (device w), done "")
        else (World (<[conf_path "gofro" +:+ ".tmp" := ""%string]> (files w)) (device w), refused)
      else (w, if bool_decide (action = "status"%string) && tunnel_up v then done "" else refused)
  | AddressShow =>
      if bool_decide (mapM (fun line => address_field (split_whitespace line)) (lines (listing v)) = Some (addresses v)) then (w, done (listing v)) else (w, refused)
  | AddressFlush => (set_router (fun v => Router (relay_up v) (tunnel_up v) (link_mtu v) [] (wg v) (uci_mtu v)) w, done "")
  | AddressAdd a => (set_router (fun v => Router (relay_up v) (tunnel_up v) (link_mtu v) (addresses v ++ [a]) (wg v) (uci_mtu v)) w, done "")
  | SetMtu m => (set_router (fun v => Router (relay_up v) (tunnel_up v) m (addresses v) (wg v) (uci_mtu v)) w, done "")
  | UciMtu => if bool_decide (trim (uci_mtu v +:+ str [LF]) = uci_mtu v) then (w, done (uci_mtu v +:+ str [LF])) else (w, refused)
  | WgPeers => if bool_decide (split_whitespace (peer_listing v) = (map_to_list (wg_peers (wg v))).*1) then (w, done (peer_listing v)) else (w, refused)
  | WgSetPeer k => (set_router (with_wg (fun g => Wg (wg_key g) (<[k := relay_peer]> (wg_peers g)))) w, done "")
  | WgRemovePeer k => (set_router (with_wg (fun g => Wg (wg_key g) (delete k (wg_peers g)))) w, done "")
  | WgSetconf path =>
      match files w !! path with
      | Some c => (set_router (with_wg (fun _ => conf_wg c)) w, done "")
      | None => (w, refused)
      end
  | WgPrivateKey _ =>
      (set_router (with_wg (fun g => Wg (match stdin with Some s => Some (str (removelast (chars s))) | None => wg_key g end) (wg_peers g))) w, done "")
  | DnsFlows _ _ | Mode _ _ _ _ => (w, done "")
  end.

#[global] Instance tools : Tools dev := {|
  exec p stdin w := if bool_decide (refuses (device w) = Some p) then (w, NotStarted (Msg "not found")) else act p stdin w;
  io d := (d, None);
|}.

Lemma agree_same a (w : world dev) : agree at_hand a w w.
Proof. by destruct a. Qed.

Lemma act_touches p stdin w a : a ∉ touched (conf_path "gofro") p -> agree at_hand a w (act p stdin w).1.
Proof.
  intros Ha. destruct p; cbn [act touched] in *; repeat (case_bool_decide; subst); repeat case_match; try apply agree_same;
    destruct a; try reflexivity; try by (exfalso; apply Ha; repeat constructor).
  all: apply lookup_insert_ne; intros <-; apply Ha; repeat constructor.
Qed.

#[global] Instance laws : ToolsLaws at_hand conf_wg (conf_path "gofro").
Proof.
  split.
  - intros p stdin w a Ha. cbn. case_bool_decide; [apply agree_same | by apply act_touches].
  - intros p stdin w out err. cbn. case_bool_decide; [done |]. destruct p; cbn [act effect]; repeat (case_bool_decide; subst); try done.
    + cbn. by destruct (relay_up _).
    + intros [= <- _]. split; [done |]. exists (saved (wg (at_hand (device w)))). cbn. by rewrite lookup_insert_eq.
    + cbn. by destruct (tunnel_up _).
    + by intros [= <- _].
    + by intros [= <- _].
    + intros [= <- _]. by match goal with E : split_whitespace _ = _ |- _ => rewrite E end.
    + intros _. cbn. split_and!; [done | by rewrite dom_insert_L | by simplify_map_eq].
    + destruct (files w !! path) as [c |]; [| done]. intros _. by exists c.
    + intros _. cbn. split; [done |]. intros key ->. by rewrite chars_str, removelast_last, str_chars.
  - intros w out err. cbn. case_bool_decide; [done |]. cbn. by destruct (relay_up _).
  - intros w out err. cbn. case_bool_decide; [done |]. cbn. by destruct (tunnel_up _).
  - intros w Hno. revert Hno. unfold exec, tools. case_bool_decide; [intros; apply agree_same |]. unfold act.
    rewrite !(bool_decide_false (_ = _ :> string)), (bool_decide_true (_ = _ :> string)) by done.
    case_bool_decide; intros Hno; [by destruct (Hno ""%string ""%string) |]. by apply lookup_insert_ne.
  - intros m stdin w. cbn. case_bool_decide; [by left | by right].
  - done.
Qed.

(** A server is selected while the tunnel is up with another one; then the last program of the update is refused. *)
Definition old_key : string := "QAAAAAAAAAAAAAAAAAAAAAAAAAAAAAAAAAAAAAAAAAA=".
Definition new_key : string := "CAAAAAAAAAAAAAAAAAAAAAAAAAAAAAAAAAAAAAAAAAA=".

Definition vps : server_profile :=
  ServerProfile "VPS" "" "198.51.100.1:8443" new_key (Some "10.202.0.9/32"%string) (Some old_key) None.

Definition old_wg : wireguard := Wg None {[old_key := relay_peer]}.

Definition before (r : option program) : world dev :=
  World (<[RELAY_ENDPOINT_PATH := "192.0.2.1:8443"%string]> (<[conf_path "gofro" := saved old_wg]> ∅))
    (Dev (Router true true 1280 ["10.202.0.2/32"%string] old_wg "1360") r).

Definition describe (words : list string) : string := String.concat " " words.

Definition selected (r : option program) : world dev * (error + unit) :=
  start_and_select (net := PrefixNet.t) "gofro" describe vps (before r).

(** The MTU is UCI's, and stays when the update is taken back. *)
Example mtu_of_uci :
  link_mtu (at_hand (device (selected None).1)) = 1360 /\ link_mtu (at_hand (device (selected (Some (Tunnel "save"))).1)) = 1360.
Proof. by vm_compute. Qed.
End SampleTools.

Lemma server_update_complete_or_undone_witness :
  (SampleTools.selected None).2 = inr tt /\
  server_in_force SampleTools.at_hand SampleTools.conf_wg "gofro" SampleTools.vps (SampleTools.before None) (SampleTools.selected None).1 /\
  (let failed := SampleTools.selected (Some (Tunnel "save")) in
   failed.2 = inl (Ctx "failed to run /usr/libexec/gofro/tunnel save gofro" (Msg "not found")) /\
   network_restored SampleTools.at_hand SampleTools.conf_wg "gofro" (SampleTools.before (Some (Tunnel "save"))) failed.1).
Proof.
  destruct (SampleTools.selected None) as [w r] eqn:E. destruct (SampleTools.selected (Some (Tunnel "save"))) as [w2 r2] eqn:E2.
  assert (r = inr tt) as -> by (change r with (w, r).2; rewrite <- E; by vm_compute).
  assert (r2 = inl (Ctx "failed to run /usr/libexec/gofro/tunnel save gofro" (Msg "not found"))) as ->
    by (change r2 with (w2, r2).2; rewrite <- E2; by vm_compute).
  split_and!; [done | | cbv zeta; split; [done |]].
  - exact (server_update_complete_or_undone (ToolsLaws0 := SampleTools.laws) _ _ _ _ _ _ _ _ E).
  - pose proof (server_update_complete_or_undone (ToolsLaws0 := SampleTools.laws) _ _ _ _ _ _ _ _ E2) as [(what & cause & failures & _ & [=]) | Hr]. exact Hr.
Defined.

(** The sample router, captured while the old server is selected and restored after the new one was. *)
Lemma snapshot_restores_witness :
  let before := SampleTools.before None in
  exists w1 s w',
    capture "gofro" SampleTools.describe before = (w1, inr s) /\
    restore "gofro" SampleTools.describe s (SampleTools.selected None).1 = (w', inr tt) /\
    addresses (SampleTools.at_hand (device w')) = ["10.202.0.2/32"%string].
Proof.
  cbv zeta. destruct (capture "gofro" SampleTools.describe (SampleTools.before None)) as [w1 [e | s]] eqn:E1; [by vm_compute in E1 |].
  destruct (restore "gofro" SampleTools.describe s (SampleTools.selected None).1) as [w' r] eqn:E2. exists w1, s, w'.
  assert (r = inr tt) as ->.
  { change r with (w', r).2. rewrite <- E2. vm_compute in E1. injection E1 as _ <-. by vm_compute. }
  split_and!; [done | done |].
  pose proof (snapshot_restores (ToolsLaws0 := SampleTools.laws) _ _ _ _ _ _ _ _ _ E1 E2) as (_ & _ & _ & Ha). exact (Ha eq_refl).
Defined.

(** ** The tests of network.rs *)

Example preserves_legacy_tunnel_address :
  next_tunnel_addresses None ["10.202.0.4/32"] = ["10.202.0.4/32"] /\
  next_tunnel_addresses None [] = [LEGACY_TUNNEL_ADDRESS] /\
  next_tunnel_addresses (Some "10.202.0.5/32") ["10.202.0.4/32"] = ["10.202.0.5/32"].
Proof. done. Qed.

Example native_mtu_is_preserved_and_invalid_values_are_refused :
  forallb (fun m => bool_decide (parse_tunnel_mtu (show m) = Ok m)) [1280; 1360; TUNNEL_MTU] = true /\
  forallb (fun v => negb (is_ok (parse_tunnel_mtu v)))
    [""; "1279"; "1380"; "1420"; "65536"; "01379"; "+1379"; "1379" +:+ str [LF] +:+ "1280"]%string = true.
Proof. by vm_compute. Qed.

Lemma parent_shorter path up : parent path = Some up -> (length (chars up) < length (chars path))%nat.
Proof.
  unfold parent. case_bool_decide as Hempty; [done |]. case_bool_decide as Hroot; [done |]. cbn [orb].
  assert (chars path <> []) as Hne by (intros H; apply Hempty; by rewrite <- (str_chars path), H).
  unfold rsplit_once. destruct (split_once_bytes _ _) as [[b a] |] eqn:E.
  - apply split_once_bytes_Some in E as [E _]. apply (f_equal (@rev ascii)) in E. rewrite rev_involutive, rev_app_distr in E. cbn in E.
    intros [= <-]. rewrite E, !length_app. case_bool_decide as Ha; [| rewrite chars_str; cbn; lia].
    apply (f_equal chars) in Ha. rewrite chars_str in Ha. rewrite Ha in *. cbn in *.
    destruct b as [| x b]; [| rewrite List.length_rev; cbn; lia]. exfalso. apply Hroot. by rewrite <- (str_chars path), E.
  - intros [= <-]. cbn. destruct (chars path); [done | cbn; lia].
Qed.

(** A path's length bounds how many ancestors it has: more fuel gives the same. *)
Lemma ancestors_enough fuel : forall path, (length (chars path) <= fuel)%nat -> ancestors (S fuel) path = ancestors fuel path.
Proof.
  induction fuel as [| fuel IH]; intros path Hlen; cbn [ancestors]; f_equal.
  - destruct (parent path) as [up |] eqn:E; [| done]. apply parent_shorter in E. lia.
  - destruct (parent path) as [up |] eqn:E; [| done]. apply parent_shorter in E. apply IH. lia.
Qed.

Example lock_ancestors : ancestors 10 "/etc/gofro" = ["/etc/gofro"; "/etc"; "/"]%string.
Proof. done. Qed.
