(* ===== verification/Pins.v ===== *)
(** * Host key pins (crates/gofro-agent/src/managed/pins.rs)

    The key of an SSH host is trusted on first use and pinned in a file that is
    published by a hard link and never replaced.  The directory of the pins is a
    small file system with inodes and names; the class [System] is the rest of
    the machine: other processes act between any two calls, and any call fails. *)

From stdpp Require Import base gmap strings list.
From Stdlib Require Import Ascii ZArith Lia.
From S2P Require Import Prelude RustStd Effects IpAddr Net Model Config.

(** ** The directory of the pins *)

Inductive kind := Regular | Symlink | Directory | OtherFile.

#[export] Instance kind_eq_dec : EqDecision kind.
Proof. solve_decision. Defined.

Record inode := Inode { i_kind : kind; i_mode : Z; i_uid : Z; contents : string }.

Record fs := Fs {
  (* the directory: none, or what is at its name *)
  directory_inode : option inode;
  (* the names in it, and the inodes *)
  entries : gmap string Z;
  inodes : gmap Z inode;
  (* links to an inode from elsewhere *)
  outside : Z -> Z;
  (* what a crash leaves: the names of the last sync of the directory, the contents of the last sync of a file *)
  durable : gmap string Z;
  stable : gmap Z string;
  (* the temporary file of this process: its name and its inode *)
  mine : option (string * Z);
}.

(** [fs::Metadata] *)
Record stat := Metadata { m_kind : kind; m_mode : Z; m_uid : Z; m_len : Z; m_nlink : Z; m_ino : Z }.

Definition nlink (ino : Z) (s : fs) : Z := Z.of_nat (size (filter (fun x => x.2 = ino) (entries s))) + outside s ino.

Definition metadata_of (ino : Z) (s : fs) : option stat :=
  d ← inodes s !! ino;
  Some (Metadata (i_kind d) (i_mode d) (i_uid d) (slen (contents d)) (nlink ino s) ino).

(** The machine of one run: the files and the state of the rest. *)
Record machine (D : Type) := Machine { disk : fs; rest : D }.
Arguments Machine {D}.
Arguments disk {D}.
Arguments rest {D}.

Class System (D : Type) := {
  (* what other processes do before the next call of this one *)
  others : machine D -> machine D;
  (* whether the next call fails, and what a failed write leaves *)
  outcome : D -> D * option (error * string);
  (* [std::process::id()], and the counter of temporary files *)
  process_id : D -> Z;
  next_temporary : D -> D * Z;
}.

(** A name of a temporary pin: the prefix, then two runs of digits with a dot between. *)
Definition all_digits (part : string) : bool := negb (bool_decide (part = ""%string)) && forallb is_ascii_digit (chars part).

Definition owned_name (name : string) : bool :=
  match strip_prefix ".host-pin." name with
  | Some suffix =>
      match split_once "."%char suffix with
      | Some (pid, counter) => all_digits pid && all_digits counter
      | None => false
      end
  | None => false
  end.

Definition pin_name (host : string) (port : Z) : string := "host-" +:+ host +:+ "-" +:+ show port +:+ ".pub".

Definition safe_pin_metadata (m : stat) : bool :=
  bool_decide (m_kind m = Regular) && bool_decide (Z.land (m_mode m) 0xfff = 0x180) && (m_len m <=? 128) && bool_decide (m_uid m = 0).

Section Pins.
Context {D : Type} `{System D}.

#[local] Notation M := (eff (machine D) error).

(** ** Calls *)

(** Others act, then the call fails or acts. *)
Definition call {A} (f : fs -> fs * (error + A)) : M A := fun w =>
  let w := others w in
  let '(d, failed) := outcome (rest w) in
  match failed with
  | Some (e, _) => (Machine (disk w) d, inl e)
  | None => let '(s, r) := f (disk w) in (Machine s d, r)
  end.

Definition on_entries (f : gmap string Z -> gmap string Z) (s : fs) : fs :=
  Fs (directory_inode s) (f (entries s)) (inodes s) (outside s) (durable s) (stable s) (mine s).
Definition on_inodes (f : gmap Z inode -> gmap Z inode) (s : fs) : fs :=
  Fs (directory_inode s) (entries s) (f (inodes s)) (outside s) (durable s) (stable s) (mine s).
Definition on_directory (f : option inode -> option inode) (s : fs) : fs :=
  Fs (f (directory_inode s)) (entries s) (inodes s) (outside s) (durable s) (stable s) (mine s).
Definition set_mine (m : option (string * Z)) (s : fs) : fs :=
  Fs (directory_inode s) (entries s) (inodes s) (outside s) (durable s) (stable s) m.

(** [fs::symlink_metadata]: a call, with [None] for a name that is not there *)
Definition symlink_metadata (name : string) : M (option stat) :=
  call (fun s => (s, inr (ino ← entries s !! name; metadata_of ino s))).

(** [File::open] and [file.metadata()]: what a symbolic link names is not one of these inodes. *)
Definition open_pin (name : string) : M stat :=
  call (fun s => (s, match entries s !! name ≫= fun ino => metadata_of ino s with
                     | Some m => if bool_decide (m_kind m = Symlink) then inl (Msg "the link leads elsewhere") else inr m
                     | None => inl (Msg "No such file or directory")
                     end)).

(** [remove_file]: whether the name was there *)
Definition remove_file (name : string) : M bool :=
  call (fun s => (on_entries (delete name) s, inr (bool_decide (is_Some (entries s !! name))))).

(** [create_new], mode 0600 *)
Definition create_new (name : string) : M Z :=
  call (fun s =>
    match entries s !! name with
    | Some _ => (s, inl (Msg "File exists"))
    | None =>
        let ino := fresh (dom (inodes s) ∪ dom (stable s) ∪ map_img (entries s) ∪ map_img (durable s)) in
        (set_mine (Some (name, ino)) (on_inodes <[ino := Inode Regular 0x180 0 ""]> (on_entries <[name := ino]> s)), inr ino)
    end).

Definition set_contents (ino : Z) (c : string) : fs -> fs := on_inodes (alter (fun d => Inode (i_kind d) (i_mode d) (i_uid d) c) ino).

(** [file.write_all]: a failed one leaves anything in the file *)
Definition write_contents (ino : Z) (c : string) : M unit := fun w =>
  let w := others w in
  let '(d, failed) := outcome (rest w) in
  match failed with
  | Some (e, left_) => (Machine (set_contents ino left_ (disk w)) d, inl e)
  | None => (Machine (set_contents ino c (disk w)) d, inr tt)
  end.

Definition sync_file (ino : Z) : M unit :=
  call (fun s => (Fs (directory_inode s) (entries s) (inodes s) (outside s) (durable s)
    (match inodes s !! ino with Some d => <[ino := contents d]> (stable s) | None => stable s end) (mine s), inr tt)).

Definition sync_directory : M unit :=
  call (fun s => (Fs (directory_inode s) (entries s) (inodes s) (outside s) (entries s) (stable s) (mine s), inr tt)).

(** [fs::hard_link]: whether the name was free *)
Definition hard_link (from to : string) : M bool :=
  call (fun s =>
    match entries s !! to, entries s !! from with
    | Some _, _ => (s, inr false)
    | None, Some ino => (on_entries <[to := ino]> s, inr true)
    | None, None => (s, inl (Msg "No such file or directory"))
    end).

(** [fs::read_dir] *)
Definition read_dir : M (list string) := call (fun s => (s, inr (map_to_list (entries s)).*1)).

(** [take(129).read_to_string] of an open file *)
Definition read_to_string (ino : Z) : M string :=
  call (fun s =>
    match inodes s !! ino with
    | Some d =>
        (s, match utf8_string (str (take 129 (chars (contents d)))) with
            | Some c => inr c
            | None => inl (Msg "stream did not contain valid UTF-8")
            end)
    | None => (s, inl (Msg "bad file"))
    end).

(** ** The management directory *)

Definition sync_ancestors (ancestors : list string) : M unit :=
  contextual "failed to persist management directory" sync_directory ;;
  foldr (fun _ k => contextual "failed to persist management directory" (call (fun s => (s, inr tt))) ;; k) (mret tt) (tail ancestors).

Definition management_directory (ancestors : list string) : M unit :=
  call (fun s =>
    match directory_inode s with
    | None => (on_directory (fun _ => Some (Inode Directory 0x1c0 0 "")) s, inr tt)
    | Some d => (s, if bool_decide (i_kind d = Directory) then inr tt else inl (Msg "File exists"))
    end) ;;
  m ← call (fun s => (s, match directory_inode s with Some d => inr d | None => inl (Msg "No such file or directory") end));
  require (bool_decide (i_kind m = Directory) && bool_decide (i_uid m = 0)) (Msg "unsafe management directory") ;;
  call (fun s => (on_directory (fmap (fun d => Inode (i_kind d) 0x1c0 (i_uid d) (contents d))) s, inr tt)) ;;
  sync_ancestors ancestors.

(** ** A pin *)

(** The name of a new temporary file; the counter goes up. *)
Definition temporary_path : M string := fun w =>
  let '(d, n) := next_temporary (rest w) in
  (Machine (disk w) d, inr (".host-pin." +:+ show (process_id d) +:+ "." +:+ show n)%string).

Definition publish_pin (temporary : string) (ino : Z) (path host_key : string) : M bool :=
  write_contents ino host_key ;;
  sync_file ino ;;
  hard_link temporary path.

(** The pin is not there: it is written beside its name, then linked there. *)
Definition create_pin (path host_key : string) : M unit :=
  temporary ← temporary_path;
  ino ← create_new temporary;
  result ← try (publish_pin temporary ino path host_key);
  cleanup ← try (remove_file temporary);
  published ← contextual "failed to publish SSH host pin" (of_result result);
  match cleanup with
  | Ok existed =>
      (* another publisher can recover the name after the link *)
      if existed || published then mret tt else throw (Ctx "failed to remove temporary SSH host pin" (Msg "No such file or directory"))
  | Err e => throw (Ctx "failed to remove temporary SSH host pin" e)
  end.

Definition same_inode (m m' : stat) : bool := bool_decide (m_ino m' = m_ino m).

Definition read_pin (path : string) (m : stat) (context : string) : M string :=
  opened ← open_pin path;
  require (same_inode m opened) (Msg "stored SSH host pin changed while opening") ;;
  stored ← read_to_string (m_ino m);
  contextual context (of_result (parse_host_key stored)) ;;
  mret stored.

(** A crash between the link and the removal leaves a temporary name of the pin. *)
Definition recover_alias (m : stat) (name : string) : M unit :=
  if owned_name name then
    alias ← contextual "failed to inspect SSH host pin alias" (symlink_metadata name);
    match alias with
    | Some alias =>
        if safe_pin_metadata alias && bool_decide (m_uid alias = m_uid m) && same_inode m alias
        then contextual "failed to recover SSH host pin alias" (remove_file name) ;; mret tt
        else mret tt
    | None => mret tt
    end
  else mret tt.

Fixpoint recover_aliases (m : stat) (names : list string) : M unit :=
  match names with
  | [] => mret tt
  | name :: names => recover_alias m name ;; recover_aliases m names
  end.

Definition check_pin (path host_key : string) : M unit :=
  found ← symlink_metadata path;
  m ← of_result (ok_or found "No such file or directory");
  require (safe_pin_metadata m) (Msg "unsafe stored SSH host pin") ;;
  stored ← read_pin path m "invalid stored SSH host pin; refusing to replace it";
  require (bool_decide (stored = host_key)) (Msg "SSH host key changed. Connection refused; the saved key was not replaced. Verify the VPS identity through a trusted console before resetting its pin.") ;;
  (if 1 <? m_nlink m then names ← read_dir; recover_aliases m names else mret tt) ;;
  found ← symlink_metadata path;
  recovered ← of_result (ok_or found "No such file or directory");
  require (safe_pin_metadata recovered && bool_decide (m_nlink recovered = 1) && same_inode m recovered) (Msg "unsafe stored SSH host pin") ;;
  contextual "failed to sync SSH host pin" (sync_file (m_ino m)) ;;
  contextual "failed to persist SSH host pin directory entry" sync_directory.

Definition check_target (host : string) (port : Z) : result unit :=
  address ← with_context "invalid SSH host address" (ok_or (parse_ip host) "invalid IP address syntax");
  ensure (bool_decide (show_ip address = host) && negb (port =? 0)) "invalid SSH host address or port".

Definition pin_host (ancestors : list string) (host : string) (port : Z) (host_key : string) : M unit :=
  of_result (check_target host port) ;;
  of_result (parse_host_key host_key) ;;
  management_directory ancestors ;;
  let path := pin_name host port in
  found ← contextual "failed to persist SSH host pin" (symlink_metadata path);
  match found with
  | Some _ => mret tt
  | None => create_pin path host_key
  end ;;
  check_pin path host_key.

Fixpoint pin_hosts (ancestors : list string) (managed : list managed_server) : M unit :=
  match managed with
  | [] => mret tt
  | m :: managed => pin_host ancestors (m_host m) (m_port m) (m_host_key m) ;; pin_hosts ancestors managed
  end.

Definition preserve_host_pins (ancestors : list string) (config : controller_config) : M unit :=
  pin_hosts ancestors (omap Model.management (servers config)).

Definition reset_host_pin (ancestors : list string) (host : string) (port : Z) : M unit :=
  management_directory ancestors ;;
  let path := pin_name host port in
  found ← contextual "failed to inspect SSH host pin" (symlink_metadata path);
  match found with
  | None => mret tt
  | Some m =>
      require (safe_pin_metadata m && bool_decide (m_nlink m = 1)) (Msg "unsafe stored SSH host pin") ;;
      read_pin path m "invalid stored SSH host pin" ;;
      current ← symlink_metadata path;
      current ← of_result (ok_or current "No such file or directory");
      require (same_inode m current) (Msg "stored SSH host pin changed before removal") ;;
      existed ← contextual "failed to remove SSH host pin" (remove_file path);
      require existed (Ctx "failed to remove SSH host pin" (Msg "No such file or directory")) ;;
      contextual "failed to persist SSH host pin removal" sync_directory
  end.
End Pins.
