(* ===== verification/PinsSafety.v ===== *)
(** * What the pins guarantee

    Whatever call fails and whatever other processes do that keep the same rules:
    a pin is never replaced, it appears as a whole, and a call that succeeds
    leaves the key in a file and a directory that survive a crash. *)

From stdpp Require Import base gmap sets strings list.
From Stdlib Require Import Ascii ZArith Lia.
From S2P Require Import Prelude RustStd Effects IpAddr Net Model Config Pins.

(** The changes of the directory that leave the [protected] names alone: a name keeps its inode, an inode with a
    protected name keeps its contents, a pin appears only as a whole, and what was synced stays so. *)
Section Grows.
Variable protected : string -> Prop.

Record grows (s s' : fs) : Prop := {
  grows_entries n i : protected n -> entries s !! n = Some i -> entries s' !! n = Some i;
  grows_inodes n i : protected n -> entries s !! n = Some i -> inodes s' !! i = inodes s !! i;
  grows_pins h p i : protected (pin_name h p) -> entries s !! pin_name h p = None -> entries s' !! pin_name h p = Some i ->
    exists d, inodes s' !! i = Some d /\ parse_host_key (contents d) = Ok tt;
  grows_durable n i : protected n -> entries s !! n = Some i -> durable s !! n = Some i -> durable s' !! n = Some i;
  grows_stable n i d : protected n -> entries s !! n = Some i -> inodes s !! i = Some d -> stable s !! i = Some (contents d) ->
    stable s' !! i = Some (contents d);
}.

#[export] Instance grows_preorder : PreOrder grows.
Proof.
  split.
  - intros s. split; try done. intros h p i _ -> [=].
  - intros s1 s2 s3 H1 H2. split.
    + intros n i Hn Hi. by eapply grows_entries, grows_entries.
    + intros n i Hn Hi. rewrite <- (grows_inodes _ _ H1 n) by done. eapply grows_inodes; [done.. |]. by eapply grows_entries.
    + intros h p i Hn H0 Hi. destruct (entries s2 !! pin_name h p) as [j |] eqn:Hj; [| by eapply grows_pins].
      destruct (grows_pins _ _ H1 h p j Hn H0 Hj) as (d & Hd & Hk). pose proof (grows_entries _ _ H2 _ _ Hn Hj). simplify_eq.
      exists d. split; [| done]. by rewrite (grows_inodes _ _ H2 _ _ Hn Hj).
    + intros n i Hn Hi Hd. eapply (grows_durable _ _ H2); [done | by eapply grows_entries | by eapply grows_durable].
    + intros n i d Hn Hi Hd Hs. eapply (grows_stable _ _ H2 n); [done | by eapply grows_entries | | by eapply (grows_stable _ _ H1)].
      by rewrite (grows_inodes _ _ H1 n).
Qed.
End Grows.

Lemma grows_mono (P Q : string -> Prop) s s' : (forall n, Q n -> P n) -> grows P s s' -> grows Q s s'.
Proof.
  intros HQ Hg. split.
  - intros n i Hn. by apply (grows_entries _ _ _ Hg), HQ.
  - intros n i Hn. by apply (grows_inodes _ _ _ Hg), HQ.
  - intros h p i Hn. by apply (grows_pins _ _ _ Hg), HQ.
  - intros n i Hn. by apply (grows_durable _ _ _ Hg), HQ.
  - intros n i d Hn. by apply (grows_stable _ _ _ Hg n), HQ.
Qed.

(** Every name but the temporary ones. *)
Definition settled_name (n : string) : Prop := owned_name n = false.

(** The other processes leave the temporary file of this one alone: they may remove its name, as a recovery does. *)
Definition apart (s s' : fs) : Prop :=
  mine s' = mine s /\
  forall t i, mine s = Some (t, i) ->
    (entries s' !! t = entries s !! t \/ entries s' !! t = None) /\ inodes s' !! i = inodes s !! i /\
    (forall n, n <> t -> entries s' !! n = Some i -> entries s !! n = Some i).

(** Other processes keep the rules that [pin_host] is proved to keep below; numbers are not negative. *)
Class SystemLaws (D : Type) `{System D} := {
  others_grow w : grows settled_name (disk w) (disk (others w));
  others_apart w : apart (disk w) (disk (others w));
  process_id_nonneg d : 0 <= process_id d;
  next_temporary_nonneg d : 0 <= (next_temporary d).2;
}.

(** The pin of an address is there, whole, safe, and survives a crash. *)
Definition pinned (path key : string) (s : fs) : Prop :=
  exists i d, entries s !! path = Some i /\ durable s !! path = Some i /\ inodes s !! i = Some d /\ stable s !! i = Some key /\
    contents d = key /\ i_kind d = Regular /\ Z.land (i_mode d) 0xfff = 0x180 /\ i_uid d = 0.

Lemma pin_name_settled h p : settled_name (pin_name h p).
Proof. done. Qed.

Lemma pinned_grows path key s s' : settled_name path -> grows settled_name s s' -> pinned path key s -> pinned path key s'.
Proof.
  intros Hn Hg (i & d & He & Hdur & Hi & Hst & Hc & Hsafe). exists i, d. subst key. split_and!; try apply Hsafe.
  - by eapply (grows_entries _ _ _ Hg).
  - by eapply (grows_durable _ _ _ Hg).
  - by rewrite (grows_inodes _ _ _ Hg path).
  - by eapply (grows_stable _ _ _ Hg path).
  - done.
Qed.

Section Pins.
Context {D : Type} `{System D} `{!SystemLaws D}.

#[local] Notation M := (eff (machine D) error).

Definition grow (w w' : machine D) : Prop := grows settled_name (disk w) (disk w').

#[local] Instance grow_preorder : PreOrder grow.
Proof. split; [intros w; unfold grow; reflexivity | intros w1 w2 w3 H1 H2; unfold grow in *; by etransitivity]. Qed.

Lemma step_ran {A} (f : fs -> fs * (error + A)) w w' r : call f w = (w', r) ->
  let s := disk (others w) in (exists e, r = inl e /\ disk w' = s) \/ f s = (disk w', r).
Proof.
  unfold call. destruct (outcome (rest (others w))) as [d [[e ?] |]]; [intros [= <- <-]; eauto |].
  destruct (f (disk (others w))) as [s r0] eqn:E. intros [= <- <-]. by right.
Qed.

Lemma call_grows {A} (f : fs -> fs * (error + A)) : (forall s, grows settled_name s (f s).1) -> preserves grow (call f).
Proof.
  intros Hf w w' r Hr. unfold grow. transitivity (disk (others w)); [apply others_grow |].
  apply step_ran in Hr as [(e & _ & ->) | Hr]; [done |]. specialize (Hf (disk (others w))). by rewrite Hr in Hf.
Qed.

Lemma look_grows {A} (f : fs -> error + A) : preserves grow (call (fun s => (s, f s))).
Proof. by apply call_grows. Qed.

(** ** The calls *)

Lemma entries_grow f s :
  (forall n, owned_name n = false -> forall i, entries s !! n = Some i -> f (entries s) !! n = Some i) ->
  (forall h p i, entries s !! pin_name h p = None -> f (entries s) !! pin_name h p = Some i ->
     exists d, inodes s !! i = Some d /\ parse_host_key (contents d) = Ok tt) ->
  grows settled_name s (on_entries f s).
Proof. intros He Hp. split; cbn; eauto. Qed.

Lemma remove_file_grows name : owned_name name = true -> preserves grow (remove_file name).
Proof.
  intros Ho. apply call_grows. intros s. apply entries_grow.
  - intros n Hn i Hi. rewrite lookup_delete_ne; [done |]. intros ->. congruence.
  - intros h p i Hi. rewrite lookup_delete_Some. intros [_ ?]. congruence.
Qed.

Lemma sync_file_grows ino : preserves grow (sync_file ino).
Proof.
  apply call_grows. intros s. split; cbn; eauto; [congruence |]. intros n i d _ _ Hd Hst.
  destruct (inodes s !! ino) as [d' |] eqn:E; [| done]. destruct (decide (i = ino)) as [-> | Hne]; [| by rewrite lookup_insert_ne].
  rewrite lookup_insert_eq. congruence.
Qed.

Lemma sync_directory_grows : preserves grow sync_directory.
Proof. apply call_grows. intros s. split; cbn; eauto. congruence. Qed.

Lemma directory_grows f s : grows settled_name s (on_directory f s).
Proof. split; cbn; eauto. congruence. Qed.

Lemma temporary_path_grows : preserves grow (temporary_path : M string).
Proof. intros w w' r. unfold temporary_path. destruct (next_temporary (rest w)). intros [= <- _]. unfold grow. cbn. reflexivity. Qed.

Lemma temporary_name_owned (pid n : Z) : 0 <= pid -> 0 <= n -> owned_name (".host-pin." +:+ show pid +:+ "." +:+ show n) = true.
Proof.
  intros Hp Hn. unfold owned_name. rewrite (proj2 (strip_prefix_Some ".host-pin." _ (show pid +:+ "." +:+ show n))) by done.
  assert (forall k, 0 <= k -> all_digits (show k) = true /\ Forall (fun a => eqb_ascii a "."%char = false) (chars (show k))) as Hd.
  { intros k Hk. pose proof (show_bytes_digits k Hk) as Hall. pose proof (show_bytes_nonempty k) as Hne. unfold all_digits, show.
    rewrite chars_str. split; [| by apply digits_no_sep]. apply andb_true_iff. split.
    - apply negb_true_iff, bool_decide_eq_false. intros E%(f_equal chars). by rewrite chars_str in E.
    - apply forallb_forall. rewrite Forall_forall in Hall. intros a Ha. by apply Hall, list_elem_of_In. }
  destruct (Hd pid Hp) as [Hp1 Hp2]. unfold split_once. rewrite !chars_app. change (chars "." ++ chars (show n)) with ("."%char :: chars (show n)).
  rewrite split_once_bytes_app by done. rewrite !str_chars, Hp1. apply Hd, Hn.
Qed.

(** ** The temporary file *)

(** The temporary file of this process: only its own name links it. *)
Definition held (t : string) (ino : Z) (d : inode) (s : fs) : Prop :=
  mine s = Some (t, ino) /\ (entries s !! t = Some ino \/ entries s !! t = None) /\ (forall n, entries s !! n = Some ino -> n = t) /\
  inodes s !! ino = Some d.

Lemma held_others t ino d w : held t ino d (disk w) -> held t ino d (disk (others w)).
Proof.
  intros (Hm & He & Hn & Hd). destruct (others_apart w) as [Hm' Ha]. destruct (Ha t ino Hm) as (He' & Hi & Hl).
  split_and!; [congruence | destruct He' as [-> | ->]; [done | by right] | | congruence].
  intros n Hne. destruct (decide (n = t)) as [-> | Hnt]; [done |]. by apply Hn, Hl.
Qed.

Lemma create_new_run t w w' r : create_new t w = (w', r) -> (forall h p, t <> pin_name h p) ->
  grow w w' /\ forall ino, r = inr ino -> held t ino (Inode Regular 0x180 0 "") (disk w').
Proof.
  intros Hr Ht. pose proof (others_grow w) as Hg. apply step_ran in Hr as [(e & -> & Hd) | Hr]; [unfold grow; rewrite Hd; split; [exact Hg | done] |].
  destruct (entries (disk (others w)) !! t) as [j |] eqn:He; [injection Hr as Hd <-; unfold grow; rewrite <- Hd; split; [exact Hg | done] |].
  set (s := disk (others w)) in *. set (ino := fresh _) in Hr. injection Hr as Hd <-.
  assert (ino ∉ dom (inodes s) ∪ dom (stable s) ∪ map_img (entries s) ∪ map_img (durable s)) as Hf by apply is_fresh.
  assert (forall n j, entries s !! n = Some j -> j <> ino) as Hni.
  { intros n j Hj ->. apply Hf, elem_of_union_l, elem_of_union_r, elem_of_map_img. by exists n. }
  assert (ino ∉ dom (stable s)) as Hst by (intros Hin; apply Hf, elem_of_union_l, elem_of_union_l, elem_of_union_r, Hin).
  unfold grow. rewrite <- Hd. split.
  - transitivity s; [done |]. split; cbn.
    + intros n i _ Hi. rewrite lookup_insert_ne; [done | congruence].
    + intros n i _ Hi. rewrite lookup_insert_ne; [done | by apply not_eq_sym, (Hni n)].
    + intros h p i _ H0. rewrite lookup_insert_ne; [congruence | apply Ht].
    + done.
    + done.
  - intros _ [= <-]. split_and!; cbn; [done | left; apply lookup_insert_eq | | apply lookup_insert_eq].
    intros n. rewrite lookup_insert_Some. intros [[-> _] | [_ Hn]]; [done |]. by destruct (Hni n _ Hn).
Qed.

Lemma write_ran t ino d c w w' r : held t ino d (disk w) -> owned_name t = true -> write_contents ino c w = (w', r) ->
  grow w w' /\ exists c', held t ino (Inode (i_kind d) (i_mode d) (i_uid d) c') (disk w') /\ (r = inr tt -> c' = c).
Proof.
  intros Hh Ht. apply held_others in Hh. pose proof (others_grow w) as Hg. unfold write_contents. set (s := disk (others w)) in *.
  assert (forall c', grows settled_name s (set_contents ino c' s) /\ held t ino (Inode (i_kind d) (i_mode d) (i_uid d) c') (set_contents ino c' s)) as Hc.
  { intros c'. destruct Hh as (Hm & He & Hn & Hd). split; [split; cbn | split_and!; cbn; [done.. |]].
    - done.
    - intros n i Ho Hi. rewrite lookup_alter_ne; [done |]. intros <-. apply Hn in Hi as ->. congruence.
    - congruence.
    - done.
    - done.
    - by rewrite lookup_alter_eq, Hd. }
  destruct (outcome (rest (others w))) as [d0 [[e left_] |]]; intros [= <- <-]; (split; [unfold grow; cbn; etransitivity; [exact Hg | apply Hc] |]).
  - exists left_. by split; [apply Hc |].
  - exists c. by split; [apply Hc |].
Qed.

Lemma sync_file_run t ino d w w' r : held t ino d (disk w) -> sync_file ino w = (w', r) -> held t ino d (disk w').
Proof.
  intros Hh%held_others Hr. apply step_ran in Hr as [(e & _ & ->) | Hr]; [done |]. injection Hr as <- _. exact Hh.
Qed.

Lemma hard_link_run t ino d h p key w w' r :
  held t ino d (disk w) -> contents d = key -> parse_host_key key = Ok tt -> hard_link t (pin_name h p) w = (w', r) -> grow w w'.
Proof.
  intros Hh%held_others Hc Hk Hr. pose proof (others_grow w) as Hg. unfold grow. apply step_ran in Hr as [(e & _ & ->) | Hr]; [done |].
  set (s := disk (others w)) in *. destruct Hh as (_ & He & _ & Hd).
  destruct (entries s !! pin_name h p) as [j |] eqn:Hp; [injection Hr as <- _; done |].
  destruct (entries s !! t) as [j |] eqn:Ht; injection Hr as <- _; [| done]. destruct He as [[= ->] | [=]].
  etransitivity; [exact Hg |]. apply entries_grow.
  - intros n _ i Hi. rewrite lookup_insert_ne; [done | congruence].
  - intros h' p' i Hi. rewrite lookup_insert_Some. intros [[_ <-] | [_ ?]]; [| congruence]. exists d. by rewrite Hc.
Qed.

Lemma publish_pin_grows t ino h p key w w' r : held t ino (Inode Regular 0x180 0 "") (disk w) -> owned_name t = true -> parse_host_key key = Ok tt ->
  publish_pin t ino (pin_name h p) key w = (w', r) -> grow w w'.
Proof.
  intros Hh Ht Hk Hr. unfold publish_pin in Hr.
  apply bind_run in Hr as [(e & Hw & _) | (w1 & [] & Hw & Hr)]; apply (write_ran _ _ _ _ _ _ _ Hh Ht) in Hw as [G1 (c & H1 & Hc)]; [done |].
  specialize (Hc eq_refl) as ->. etransitivity; [exact G1 |].
  apply bind_run in Hr as [(e & Hs & _) | (w2 & [] & Hs & Hr)]; pose proof (sync_file_grows _ _ _ _ Hs) as G2; [done |].
  etransitivity; [exact G2 |]. eapply hard_link_run, Hr; [by eapply sync_file_run | done..].
Qed.

Lemma temporary_path_run w w' t : temporary_path w = (w', inr t) -> owned_name t = true /\ (forall h p, t <> pin_name h p).
Proof.
  unfold temporary_path. pose proof (next_temporary_nonneg (rest w)) as Hn. destruct (next_temporary (rest w)) as [d n]. intros [= _ <-].
  split; [| done]. apply temporary_name_owned; [apply process_id_nonneg | exact Hn].
Qed.

Lemma create_pin_grows h p key : parse_host_key key = Ok tt -> preserves grow (create_pin (pin_name h p) key).
Proof.
  intros Hk w w' r Hr. unfold create_pin in Hr.
  apply bind_run in Hr as [(e & Ht & _) | (w1 & t & Ht & Hr)]; pose proof (temporary_path_grows _ _ _ Ht) as G1; [done |].
  apply temporary_path_run in Ht as [Ho Hpin]. etransitivity; [exact G1 |].
  apply bind_run in Hr as [(e & Hc & _) | (w2 & ino & Hc & Hr)]; apply create_new_run in Hc as [G2 Hh]; try done.
  specialize (Hh ino eq_refl). etransitivity; [exact G2 |].
  assert (forall w3 r', try (E := error) (publish_pin t ino (pin_name h p) key) w2 = (w3, r') -> grow w2 w3) as Hpub.
  { intros w3 r' [(x & Hx & _) | (e & He & _)]%try_run; by eapply publish_pin_grows. }
  apply bind_run in Hr as [(e & Hp & _) | (w3 & result & Hp & Hr)]; pose proof (Hpub _ _ Hp) as G3; [done |].
  etransitivity; [exact G3 |]. revert Hr. apply (preserves_bind grow).
  - apply preserves_try, remove_file_grows, Ho.
  - intros cleanup. preserved.
Qed.

Lemma management_directory_grows l : preserves grow (management_directory l : M unit).
Proof.
  unfold management_directory, sync_ancestors. preserved; try by apply call_grows; intros s; cbn; (reflexivity || apply directory_grows).
  - apply call_grows. intros s. destruct (directory_inode s) as [d |]; cbn; [reflexivity | apply directory_grows].
  - apply sync_directory_grows.
  - induction (tail l) as [| a k IH]; cbn; preserved. by apply call_grows.
Qed.

Lemma recover_aliases_grows m names : preserves grow (recover_aliases m names : M unit).
Proof.
  induction names as [| n names IH]; cbn [recover_aliases]; [preserved |]. apply preserves_bind; [exact _ | | done].
  unfold recover_alias. destruct (owned_name n) eqn:Ho; [| preserved].
  pose proof (remove_file_grows n Ho) as Hr. unfold symlink_metadata. preserved. apply look_grows.
Qed.

Lemma read_pin_grows path m c : preserves grow (read_pin path m c : M string).
Proof.
  unfold read_pin, open_pin, read_to_string. preserved; apply call_grows; intros s; [done |]. by destruct (inodes s !! m_ino m).
Qed.

Lemma check_pin_grows path key : preserves grow (check_pin path key : M unit).
Proof.
  unfold check_pin, symlink_metadata, read_dir. pose proof (fun ino => sync_file_grows ino). pose proof sync_directory_grows.
  pose proof (fun m c => read_pin_grows path m c). pose proof recover_aliases_grows. preserved; apply look_grows.
Qed.

Lemma pin_host_grows l host port key : preserves grow (pin_host l host port key : M unit).
Proof.
  unfold pin_host. apply preserves_bind; [exact _ | apply preserves_of_result; exact _ | intros _].
  apply (preserves_of_result_bind grow). intros [] Hk. pose proof (management_directory_grows l). pose proof (create_pin_grows host port key).
  pose proof (check_pin_grows (pin_name host port) key). unfold symlink_metadata. preserved. apply look_grows.
Qed.

(** ** Success *)

Lemma symlink_metadata_run name w w' m : symlink_metadata name w = (w', inr (Some m)) ->
  exists d, entries (disk w') !! name = Some (m_ino m) /\ inodes (disk w') !! m_ino m = Some d /\ metadata_of (m_ino m) (disk w') = Some m /\
    i_kind d = m_kind m /\ i_mode d = m_mode m /\ i_uid d = m_uid m /\ slen (contents d) = m_len m.
Proof.
  intros [(e & [=] & _) | [= Hd Hm]]%step_ran. rewrite <- Hd. apply bind_Some in Hm as (i & He & Hm). pose proof Hm as Hmeta.
  apply bind_Some in Hm as (d & Hi & [= <-]). cbn. exists d. split_and!; done.
Qed.

Lemma read_pin_run path m c w w' stored d : read_pin path m c w = (w', inr stored) ->
  settled_name path -> entries (disk w) !! path = Some (m_ino m) -> inodes (disk w) !! m_ino m = Some d -> slen (contents d) <= 128 ->
  stored = contents d.
Proof.
  intros Hr Hn He Hd Hlen. unfold read_pin in Hr. apply bind_run in Hr as [(? & _ & [=]) | (w1 & o & Ho & Hr)].
  assert (preserves grow (open_pin path)) as K1 by (apply call_grows; intros s; reflexivity). apply K1 in Ho.
  apply bind_run in Hr as [(? & _ & [=]) | (w2 & [] & [-> _]%require_run & Hr)].
  apply bind_run in Hr as [(? & _ & [=]) | (w3 & s & Hs & Hr)]. apply bind_run in Hr as [(? & _ & [=]) | (w4 & [] & _ & [= _ <-])].
  assert (grow w (others w1)) as Hg by (unfold grow in *; etransitivity; [exact Ho | apply others_grow]).
  apply step_ran in Hs as [(e & [=] & _) | Hs]. rewrite (grows_inodes _ _ _ Hg path _ Hn He), Hd in Hs. injection Hs as _ Hs.
  assert (str (take 129 (chars (contents d))) = contents d) as Hall by (rewrite take_ge by (unfold slen in Hlen; lia); apply str_chars).
  rewrite Hall in Hs. unfold utf8_string in Hs. destruct (utf8_valid _); by simplify_eq.
Qed.

Lemma check_pin_ok path key w w' : settled_name path -> check_pin path key w = (w', inr tt) -> pinned path key (disk w').
Proof.
  intros Hn Hr. unfold check_pin in Hr. apply bind_run in Hr as [(? & _ & [=]) | (w1 & found & Hf & Hr)].
  apply bind_run in Hr as [(? & _ & [=]) | (w2 & m & [-> ->%ok_or_ok]%of_result_answer & Hr)].
  apply symlink_metadata_run in Hf as (d & He & Hd & _ & Hkind & Hmode & Huid & Hlen).
  apply bind_run in Hr as [(? & _ & [=]) | (w2 & [] & [-> [[Hsafe _] | [_ [=]]]]%require_run & Hr)].
  unfold safe_pin_metadata in Hsafe. rewrite !andb_true_iff, !bool_decide_eq_true, Z.leb_le in Hsafe. destruct Hsafe as [[[Hs1 Hs2] Hs3] Hs4].
  apply bind_run in Hr as [(? & _ & [=]) | (w2 & stored & Hread & Hr)]. pose proof (read_pin_grows _ _ _ _ _ _ Hread) as G1.
  apply (read_pin_run _ _ _ _ _ _ d) in Hread as ->; [| done.. | lia].
  apply bind_run in Hr as [(? & _ & [=]) | (w3 & [] & [-> [[Hkey%bool_decide_eq_true _] | [_ [=]]]]%require_run & Hr)].
  apply bind_run in Hr as [(? & _ & [=]) | (w3 & [] & Hrec & Hr)].
  assert (grow w2 w3) as G2.
  { revert Hrec. apply (preserves_kept grow). unfold read_dir. pose proof recover_aliases_grows. destruct (1 <? m_nlink m); preserved. apply look_grows. }
  apply bind_run in Hr as [(? & _ & [=]) | (w4 & found & Hf & Hr)]. assert (grow w3 w4) as G3 by (eapply (look_grows _), Hf).
  apply bind_run in Hr as [(? & _ & [=]) | (w5 & m' & [-> _]%of_result_answer & Hr)].
  apply bind_run in Hr as [(? & _ & [=]) | (w5 & [] & [-> _]%require_run & Hr)].
  apply bind_run in Hr as [(? & _ & [=]) | (w5 & [] & Hsync & Hdir)].
  apply contextual_run in Hsync as (r1 & Hsync & E1). apply contextual_run in Hdir as (r2 & Hdir & E2).
  destruct r1 as [| []]; [done |]. destruct r2 as [| []]; [done |].
  apply step_ran in Hsync as [(e & [=] & _) | [= Hsync]]. apply step_ran in Hdir as [(e & [=] & _) | [= Hdir]].
  assert (grow w1 (others w4)) as G4 by (unfold grow in *; etransitivity; [exact G1 |]; etransitivity; [exact G2 |]; etransitivity; [exact G3 | apply others_grow]).
  assert (inodes (disk (others w4)) !! m_ino m = Some d) as Hd4 by (by rewrite (grows_inodes _ _ _ G4 path)).
  rewrite Hd4 in Hsync. pose proof (grows_entries _ _ _ G4 path _ Hn He) as He4. pose proof (others_grow w5) as G5.
  assert (entries (disk w5) !! path = Some (m_ino m)) as He5 by (by rewrite <- Hsync).
  assert (inodes (disk w5) !! m_ino m = Some d) as Hd5 by (by rewrite <- Hsync).
  assert (stable (disk w5) !! m_ino m = Some (contents d)) as Hst5 by (rewrite <- Hsync; cbn; apply lookup_insert_eq).
  pose proof (grows_entries _ _ _ G5 path _ Hn He5) as He6. pose proof (grows_inodes _ _ _ G5 path _ Hn He5) as Hd6.
  pose proof (grows_stable _ _ _ G5 path _ _ Hn He5 Hd5 Hst5) as Hst6. exists (m_ino m), d. rewrite <- Hdir, <- Hkey. cbn.
  split_and!; congruence.
Qed.

Lemma pin_host_run l host port key w w' r : pin_host l host port key w = (w', r) ->
  grow w w' /\ (r = inr tt -> pinned (pin_name host port) key (disk w')).
Proof.
  intros Hr. split; [by eapply pin_host_grows |]. intros ->. unfold pin_host in Hr.
  apply bind_run in Hr as [(? & _ & [=]) | (w1 & [] & _ & Hr)]. apply bind_run in Hr as [(? & _ & [=]) | (w2 & [] & _ & Hr)].
  apply bind_run in Hr as [(? & _ & [=]) | (w3 & [] & _ & Hr)]. apply bind_run in Hr as [(? & _ & [=]) | (w4 & f & _ & Hr)].
  apply bind_run in Hr as [(? & _ & [=]) | (w5 & [] & _ & Hr)]. eapply check_pin_ok, Hr. apply pin_name_settled.
Qed.

Lemma pin_hosts_run l managed w w' r : pin_hosts l managed w = (w', r) ->
  grow w w' /\ (r = inr tt -> Forall (fun m => pinned (pin_name (m_host m) (m_port m)) (m_host_key m) (disk w')) managed).
Proof.
  revert w. induction managed as [| m managed IH]; intros w; cbn [pin_hosts]; [intros [= <- _]; split; [reflexivity | by constructor] |].
  intros [(e & Hp%pin_host_run & ->) | (w1 & [] & [Hg Hp]%pin_host_run & [Hg' Hr]%IH)]%bind_run; [by split; [apply Hp |] |].
  split; [unfold grow in *; by etransitivity |]. intros ->. constructor; [| by apply Hr].
  eapply pinned_grows; [apply pin_name_settled | exact Hg' | by apply Hp].
Qed.

(** C17. The key of a host is pinned on first use and never replaced. Whichever call fails, and whatever other
    processes do that follow the same rules, every name but the temporary ones keeps its file and the file its
    contents, a pin appears only with a whole well-formed key, and what survived a crash before survives one
    after; on success the pin of the address holds exactly the given key, in a plain file of root's own that no
    one else may read, and the file's contents and its name survive a crash. *)
Theorem pins_never_replaced l host port key w w' r : pin_host l host port key w = (w', r) ->
  grows settled_name (disk w) (disk w') /\ (r = inr tt -> pinned (pin_name host port) key (disk w')).
Proof. apply pin_host_run. Qed.

(** Before anything is sent to a managed server, the keys of all servers of the configuration are pinned:
    success means that every one of them is, under its own key and safe from a crash, so two servers at one
    address with different keys are always refused. *)
Theorem configured_hosts_pinned l config w w' r : preserve_host_pins l config w = (w', r) ->
  grows settled_name (disk w) (disk w') /\
  (r = inr tt -> forall s m, s ∈ servers config -> Model.management s = Some m ->
     pinned (pin_name (m_host m) (m_port m)) (m_host_key m) (disk w')).
Proof.
  intros [Hg Hr]%pin_hosts_run. split; [exact Hg |]. intros Hok s m Hs Hm. specialize (Hr Hok). rewrite Forall_forall in Hr.
  apply Hr, list_elem_of_omap. by exists s.
Qed.

(** A reset changes no other pin. *)
Lemma reset_grows l host port w w' r : reset_host_pin l host port w = (w', r) ->
  grows (fun n => settled_name n /\ n <> pin_name host port) (disk w) (disk w').
Proof.
  set (others_stay := fun n => settled_name n /\ n <> pin_name host port). set (R := fun x y : machine D => grows others_stay (disk x) (disk y)).
  assert (PreOrder R) as HR by (split; [intros x; unfold R; reflexivity | intros x y z Hx Hy; unfold R in *; by etransitivity]).
  assert (forall A (m : M A), preserves grow m -> preserves R m) as Hmono.
  { intros A m Hm x y a Ha. eapply grows_mono; [| by eapply Hm]. by intros n []. }
  assert (preserves R (remove_file (pin_name host port))) as Hrm.
  { intros x y a Ha. unfold R. transitivity (disk (others x)); [eapply grows_mono, others_grow; by intros n [] |].
    apply step_ran in Ha as [(e & _ & ->) | [= <- _]]; [done |]. split; cbn.
    - intros n i [_ Hn] Hi. by rewrite lookup_delete_ne.
    - done.
    - intros h p i _ H0. rewrite lookup_delete_Some. intros [_ ?]. congruence.
    - done.
    - done. }
  revert w w' r.
  change (preserves R (reset_host_pin l host port)). unfold reset_host_pin.
  pose proof (Hmono _ _ (management_directory_grows l)). pose proof (fun m c => Hmono _ _ (read_pin_grows (pin_name host port) m c)).
  pose proof (Hmono _ _ sync_directory_grows). unfold symlink_metadata. pose proof (fun A f => Hmono A _ (look_grows f)).
  preserved; done.
Qed.
End Pins.

(** ** The tests of pins.rs *)

Module SampleSystem.

(** Alone on the machine; the outcomes of the next calls, then all succeed. *)
Record rest_of := Rest { coming : list (option (error * string)); counter : Z }.

#[global] Instance system : System rest_of := {|
  others w := w;
  outcome d := match coming d with
               | [] => (d, None)
               | o :: later => (Rest later (counter d), o)
               end;
  process_id _ := 71;
  next_temporary d := (Rest (coming d) (counter d + 1), Z.abs (counter d));
|}.

#[global] Instance system_laws : SystemLaws rest_of.
Proof. split; [by intros w | | done | intros d; cbn; lia]. intros w. split; [done |]. intros t i _. split_and!; auto. Qed.

Definition empty : fs := Fs None ∅ ∅ (fun _ => 0) ∅ ∅ None.
Definition key_a : string := "ssh-ed25519 AAAAC3NzaC1lZDI1NTE5AAAAIJX0ZMTYqSOIUeLI7MdqiO9Q4VcHqZ3F9ZJxTqYgAAAA".
Definition key_b : string := "ssh-ed25519 AAAAC3NzaC1lZDI1NTE5AAAAIJX0ZMTYqSOIUeLI7MdriO9Q4VcHqZ3F9ZJxTqYgAAAA".

Definition dir : list string := ["/etc/gofro/management"; "/etc/gofro"; "/etc"; "/"].
Definition pin (o : list (option (error * string))) (key : string) (s : fs) : machine rest_of * (error + unit) :=
  pin_host dir "1.1.1.1" 22 key (Machine s (Rest o 0)).

Definition name : string := "host-1.1.1.1-22.pub".
Definition stored (s : fs) : option string := (fun d => contents d) <$> (entries s !! name ≫= fun i => inodes s !! i).

(** The process dies between the link and the removal of the temporary name. *)
Definition interrupted (extra : list (string * Z)) : fs :=
  Fs (Some (Inode Directory 0x1c0 0 "")) (list_to_map ([(name, 5); (".host-pin.71.0"%string, 5)] ++ extra))
    {[5 := Inode Regular 0x180 0 key_a; 6 := Inode Regular 0x180 0 key_a; 7 := Inode Symlink 0x1ff 0 name]} (fun _ => 0) ∅ ∅ None.

Definition fails_at (n : nat) : list (option (error * string)) := replicate n None ++ [Some (Msg "no space left on device", "torn"%string)].
End SampleSystem.

Import SampleSystem.

Example tofu_pins_first_key_and_refuses_changed_pins :
  let first := pin [] key_a empty in
  let again := pin [] key_a (disk first.1) in
  let changed := pin [] key_b (disk again.1) in
  first.2 = inr tt /\ again.2 = inr tt /\ is_ok (match changed.2 with inl e => Err e | inr x => Ok x end) = false /\
  stored (disk changed.1) = Some key_a /\ (map_to_list (entries (disk changed.1))).*1 = [name].
Proof. by vm_compute. Qed.

(** The write, the sync and the link: no pin and no temporary file stays. *)
Example failures_before_publication_leave_no_pin :
  Forall (fun n =>
    let failed := pin (fails_at n) key_a empty in
    let retried := pin [] key_a (disk failed.1) in
    (exists e, failed.2 = inl e) /\ entries (disk failed.1) = ∅ /\ retried.2 = inr tt /\ stored (disk retried.1) = Some key_a)
    [9; 10; 11]%nat.
Proof. repeat constructor; try (eexists; by vm_compute); by vm_compute. Qed.

(** Only the temporary name of this very file is taken away. *)
Example interrupted_publication_recovers_only_its_own_aliases :
  let recovered := pin [] key_a (interrupted [(".host-pin.71.1", 6); (".host-pin.71.2", 7)]%string) in
  recovered.2 = inr tt /\ bool_decide (entries (disk recovered.1) = {[name := 5; ".host-pin.71.1" := 6; ".host-pin.71.2" := 7]}%string) = true.
Proof. by vm_compute. Qed.

Example recovery_refuses_unrelated_links :
  Forall (fun other =>
    let refused := pin [] key_a (interrupted [(other, 5)]) in
    refused.2 = inl (Msg "unsafe stored SSH host pin") /\ entries (disk refused.1) = {[name := 5; other := 5]})
    [".host-pin.external"; "host-8.8.8.8-22.pub"]%string.
Proof. repeat constructor; by vm_compute. Qed.

Example reset_removes_only_a_safe_pin :
  let reset s := reset_host_pin dir "1.1.1.1" 22 (Machine s (Rest [] 0)) in
  let pinned := disk (pin [] key_a empty).1 in
  (reset pinned).2 = inr tt /\ entries (disk (reset pinned).1) = ∅ /\
  (reset (interrupted [])).2 = inl (Msg "unsafe stored SSH host pin") /\ (reset empty).2 = inr tt.
Proof. by vm_compute. Qed.

(** A first pin; then a retry after a crash with another key. *)
Lemma pins_never_replaced_witness :
  pinned name key_a (disk (pin [] key_a empty).1) /\ grows settled_name (interrupted []) (disk (pin [] key_b (interrupted [])).1).
Proof.
  split; [| destruct (pin [] key_b (interrupted [])) as [w r] eqn:E; exact (proj1 (pins_never_replaced _ _ _ _ _ _ _ E))].
  destruct (pin [] key_a empty) as [w r] eqn:E. assert (r = inr tt) as -> by (change r with (w, r).2; rewrite <- E; by vm_compute).
  exact (proj2 (pins_never_replaced _ _ _ _ _ _ _ E) eq_refl).
Defined.

(** Two servers at one address with different keys. *)
Lemma configured_hosts_pinned_witness :
  let server key := ServerProfile "VPS" "" "1.1.1.1:8443" "QAAAAAAAAAAAAAAAAAAAAAAAAAAAAAAAAAAAAAAAAAA=" None None (Some (ManagedServer "1.1.1.1" 22 key)) in
  let config keys := ControllerConfig false [] false None (server <$> keys) routing_default in
  let run keys := preserve_host_pins dir (config keys) (Machine empty (Rest [] 0)) in
  pinned name key_a (disk (run [key_a]).1) /\ (run [key_a; key_b]).2 <> inr tt.
Proof.
  cbv zeta. split.
  - destruct (preserve_host_pins dir _ _) as [w r] eqn:E. assert (r = inr tt) as -> by (change r with (w, r).2; rewrite <- E; by vm_compute).
    exact (proj2 (configured_hosts_pinned _ _ _ _ _ E) eq_refl _ _ (list_elem_of_here _ _) eq_refl).
  - by vm_compute.
Defined.
