(* ===== verification/Tls.v ===== *)
(** * The panel's certificate (crates/gofro-agent/src/tls.rs)

    The certificate and the private key of the panel: created together, found
    again, repaired after an interruption, and issued anew for another address of
    the router under the same key.  OpenSSL is the class [Openssl].  The four files
    are told apart by their part ([tls_name]); every call that may fail is
    numbered, [os n] is how the n-th fails, and a write that fails leaves
    anything in its file, so that a stop at any call is one of the runs. *)

From stdpp Require Import base strings list.
From Stdlib Require Import Ascii ZArith Lia.
From S2P Require Import Prelude RustStd Effects.

(** ** OpenSSL *)

(** A subject alternative name. *)
Inductive san := SanDns (name : string) | SanIp (address : list Z) | SanOther.

#[export] Instance san_eq_dec : EqDecision san.
Proof. solve_decision. Defined.

(** What [generate] puts into a certificate. *)
Record cert_spec := CertSpec {
  cs_common_name : string;
  cs_serial : list Z;
  cs_not_before : Z;
  cs_not_after : string;
  cs_names : list san;
}.

Class Openssl (pkey x509 : Type) := {
  (* rand_bytes, and EcKey::generate on P-256, with the random state of the n-th call *)
  rand_bytes : nat -> nat -> result (list Z);
  generate_key : nat -> result pkey;
  private_key_from_pem : string -> result pkey;
  private_key_to_pem : pkey -> result string;
  (* a critical end-entity server certificate for digital signatures, signed by its own key *)
  sign : cert_spec -> pkey -> result x509;
  x509_to_pem : x509 -> result string;
  x509_from_pem : string -> result x509;
  (* certificate.public_key()?.public_eq(&private) *)
  public_eq : x509 -> pkey -> result bool;
  subject_alt_names : x509 -> option (list san);
  sha256 : x509 -> result (list Z);
}.

Class OpensslLaws (pkey x509 : Type) `{Openssl pkey x509} := {
  key_pem_roundtrip k s : private_key_to_pem k = Ok s -> private_key_from_pem s = Ok k;
  cert_pem_roundtrip c s : x509_to_pem c = Ok s -> x509_from_pem s = Ok c;
  signed_matches spec k c : sign spec k = Ok c -> public_eq c k = Ok true;
  signed_names spec k c : sign spec k = Ok c -> subject_alt_names c = Some (cs_names spec);
}.

(** ** Files *)

Inductive tls_name := TlsCert | TlsKey | CertTmp | KeyTmp.

#[export] Instance tls_name_eq_dec : EqDecision tls_name.
Proof. solve_decision. Defined.

Record tls_file := TlsFile { tf_mode : Z; tf_data : string }.

Record tls := Tls { tls_tick : nat; tls_files : tls_name -> option tls_file }.

Definition set_file (n : tls_name) (f : option tls_file) (a : tls) : tls :=
  Tls (tls_tick a) (fun m => if decide (m = n) then f else tls_files a m).

Definition PANEL_NAME : string := "wifi.gofro.net".

(** [address.octets()] *)
Definition octet_list (address : Z) : list Z := let '(a, b, c, d) := octets address in [a; b; c; d].

(** [serial[0] &= 0x7f; serial[0] |= 1]: positive and not zero. *)
Definition serial_of (bytes : list Z) : list Z :=
  match bytes with b :: l => Z.lor (Z.land b 0x7f) 1 :: l | [] => [] end.

Definition spec_for (address : Z) (serial : list Z) : cert_spec :=
  CertSpec PANEL_NAME serial 0 "20500101000000Z" [SanDns PANEL_NAME; SanIp (octet_list address)].

(** [{byte:02X}] *)
Definition upper_hex (b : Z) : string :=
  str ((fun d => if d <? 10 then of_code (48 + d) else of_code (55 + d)) <$> [b / 16; b mod 16]).

Section Tls.
Context {pkey x509 : Type} `{Openssl pkey x509}.
Variable os : nat -> option error.
(* what the n-th call leaves in a file when it fails to write it *)
Variable torn : nat -> string.

#[local] Notation M := (eff tls error).

Definition tick : M nat := fun a => (Tls (S (tls_tick a)) (tls_files a), inr (tls_tick a)).

Definition call : M unit := n ← tick; match os n with Some e => throw e | None => mret tt end.

Definition exists_file (n : tls_name) : M bool := read (fun a => bool_decide (is_Some (tls_files a n))).

Definition find_file (n : tls_name) : M tls_file := f ← read (fun a => tls_files a n); of_result (ok_or f "No such file or directory").

Definition read_file (n : tls_name) : M string := call ;; f ← find_file n; mret (tf_data f).

Definition file_mode (n : tls_name) : M Z := call ;; f ← find_file n; mret (tf_mode f).

Definition remove_file (n : tls_name) : M unit := call ;; find_file n ;; update (set_file n None).

Definition rename (n m : tls_name) : M unit := call ;; f ← find_file n; update (fun a => set_file n None (set_file m (Some f) a)).

(** [write_private]: the mode is that of a new file only. *)
Definition write_private (n : tls_name) (contents : string) : M unit :=
  call ;;
  mode ← read (fun a => match tls_files a n with Some f => tf_mode f | None => 0x180 end);
  update (set_file n (Some (TlsFile mode ""))) ;;
  t ← tick;
  match os t with
  | Some e => update (set_file n (Some (TlsFile mode (torn t)))) ;; throw e
  | None => update (set_file n (Some (TlsFile mode contents)))
  end ;;
  call.

Definition validate (cert key : tls_name) : M unit :=
  mode ← file_mode key;
  require (Z.land mode 0x3f =? 0) (Msg "TLS private key permissions are unsafe") ;;
  pem ← read_file cert;
  certificate ← of_result (x509_from_pem pem);
  pem ← read_file key;
  private ← of_result (private_key_from_pem pem);
  matches ← of_result (public_eq certificate private);
  require matches (Msg "TLS certificate does not match private key") ;;
  names ← of_result (ok_or (subject_alt_names certificate) "TLS certificate has no SAN");
  require (existsb (fun n => bool_decide (n = SanDns PANEL_NAME)) names) (Msg "TLS certificate SAN is invalid").

Definition has_address (cert : tls_name) (address : Z) : M bool :=
  pem ← read_file cert;
  certificate ← of_result (x509_from_pem pem);
  names ← of_result (ok_or (subject_alt_names certificate) "TLS certificate has no SAN");
  mret (existsb (fun n => bool_decide (n = SanIp (octet_list address))) names).

Definition fingerprint (certificate : x509) : result string :=
  digest ← sha256 certificate;
  Ok (join ":" (upper_hex <$> digest)).

(** The private key of the file, or a new one. *)
Definition private_key : M pkey :=
  present ← exists_file TlsKey;
  if present : bool then pem ← read_file TlsKey; of_result (private_key_from_pem pem)
  else t ← tick; of_result (generate_key t).

Definition generate (address : Z) : M unit :=
  call ;; call ;;
  private ← private_key;
  t ← tick;
  bytes ← of_result (rand_bytes t 16);
  certificate ← of_result (sign (spec_for address (serial_of bytes)) private);
  pem ← of_result (x509_to_pem certificate);
  write_private CertTmp pem ;;
  present ← exists_file TlsKey;
  (if present : bool then mret tt
   else
     pem ← of_result (private_key_to_pem private);
     write_private KeyTmp pem ;;
     rename KeyTmp TlsKey) ;;
  rename CertTmp TlsCert.

(** A call whose failure is ignored: [let _ = ...]. *)
Definition ignore {A} (m : M A) : M unit := try m ;; mret tt.

(** The files as they are found, brought together. *)
Definition recover (address : Z) : M unit :=
  c ← exists_file TlsCert;
  k ← exists_file TlsKey;
  ct ← exists_file CertTmp;
  kt ← exists_file KeyTmp;
  match c, k with
  | false, false => ignore (remove_file CertTmp) ;; ignore (remove_file KeyTmp) ;; generate address
  | true, true =>
      validate TlsCert TlsKey ;;
      has ← has_address TlsCert address;
      if has : bool then mret tt else generate address
  | false, true =>
      if ct : bool then validate CertTmp TlsKey ;; rename CertTmp TlsCert ;; ignore (remove_file KeyTmp)
      else throw (Msg "TLS certificate and key must be created together")
  | true, false =>
      if kt : bool then validate TlsCert KeyTmp ;; rename KeyTmp TlsKey ;; ignore (remove_file CertTmp)
      else throw (Msg "TLS certificate and key must be created together")
  end.

(** [ensure] *)
Definition ensure_tls (address : Z) : M string :=
  recover address ;;
  validate TlsCert TlsKey ;;
  has ← has_address TlsCert address;
  (if has : bool then mret tt else generate address ;; validate TlsCert TlsKey) ;;
  pem ← read_file TlsCert;
  certificate ← of_result (x509_from_pem pem);
  of_result (fingerprint certificate).
End Tls.
