(* ===== verification/TlsSafety.v ===== *)
(** * What the panel's certificate survives (Tls.v)

    The files are recoverable whatever call of whatever start failed or was the
    last one: a start that runs through brings back a matching pair for the
    address it was asked for, and a private key that was once in place stays. *)

From stdpp Require Import base strings list countable.
From Stdlib Require Import Ascii ZArith Lia.
From S2P Require Import Prelude RustStd Effects Tls.

Section Safety.
Context {pkey x509 : Type} `{OpensslLaws pkey x509}.

Definition files := tls_name -> option tls_file.

(** A private key nobody else may read. *)
Definition key_file (d : files) (n : tls_name) (k : pkey) : Prop :=
  exists f, d n = Some f /\ Z.land (tf_mode f) 0x3f = 0 /\ private_key_from_pem (tf_data f) = Ok k.

(** A certificate of the panel for this key. *)
Definition cert_file (d : files) (n : tls_name) (k : pkey) : Prop :=
  exists f c l, d n = Some f /\ x509_from_pem (tf_data f) = Ok c /\ public_eq c k = Ok true
    /\ subject_alt_names c = Some l /\ SanDns PANEL_NAME ∈ l.

(** The certificate of the file is for this address too. *)
Definition names_address (d : files) (n : tls_name) (address : Z) : Prop :=
  exists f (c : x509) l, d n = Some f /\ x509_from_pem (tf_data f) = Ok c /\ subject_alt_names c = Some l /\ SanIp (octet_list address) ∈ l.

Definition complete (d : files) (k : pkey) : Prop := cert_file d TlsCert k /\ key_file d TlsKey k.

(** What a start can find: nothing in place yet, one of the two renamed, or both. *)
Inductive recoverable (d : files) : Prop :=
| Nothing : d TlsCert = None -> d TlsKey = None -> recoverable d
| KeyFirst k : d TlsCert = None -> key_file d TlsKey k -> cert_file d CertTmp k -> recoverable d
| CertFirst k : d TlsKey = None -> key_file d KeyTmp k -> cert_file d TlsCert k -> recoverable d
| Both k : complete d k -> recoverable d.

Definition tmp_private (d : files) : Prop := forall f, d KeyTmp = Some f -> Z.land (tf_mode f) 0x3f = 0.

Definition tls_ok (d : files) : Prop := recoverable d /\ tmp_private d.

(** A private key in place stays. *)
Definition kept (d d' : files) : Prop := forall f, d TlsKey = Some f -> d' TlsKey = Some f.

Lemma kept_trans d e g : kept d e -> kept e g -> kept d g.
Proof. unfold kept. auto. Qed.

Lemma key_file_at (d d' : files) n k : d' n = d n -> key_file d n k -> key_file d' n k.
Proof. unfold key_file. by intros ->. Qed.

Lemma cert_file_at (d d' : files) n k : d' n = d n -> cert_file d n k -> cert_file d' n k.
Proof. unfold cert_file. by intros ->. Qed.

Lemma key_file_moved (d d' : files) n m k : d' m = d n -> key_file d n k -> key_file d' m k.
Proof. unfold key_file. by intros ->. Qed.

Lemma cert_file_moved (d d' : files) n m k : d' m = d n -> cert_file d n k -> cert_file d' m k.
Proof. unfold cert_file. by intros ->. Qed.

Section Run.
Variable os : nat -> option error.
Variable torn : nat -> string.

#[local] Notation call := (call os).
#[local] Notation read_file := (read_file os).
#[local] Notation file_mode := (file_mode os).
#[local] Notation rename := (rename os).
#[local] Notation remove_file := (remove_file os).
#[local] Notation write_private := (write_private os torn).
#[local] Notation validate := (validate (pkey := pkey) (x509 := x509) os).
#[local] Notation has_address := (has_address (pkey := pkey) (x509 := x509) os).
#[local] Notation private_key := (private_key (x509 := x509) os).
#[local] Notation generate := (generate (pkey := pkey) (x509 := x509) os torn).
#[local] Notation recover := (recover (pkey := pkey) (x509 := x509) os torn).
#[local] Notation ensure_tls := (ensure_tls (pkey := pkey) (x509 := x509) os torn).

(** ** Calls that change no file *)

Definition same (a a' : tls) : Prop := tls_files a' = tls_files a.

#[local] Instance same_preorder : PreOrder same.
Proof. split; [done | unfold same; intros x y z; congruence]. Qed.

Lemma tick_same : preserves same tick.
Proof. by intros a a' r [= <- <-]. Qed.

#[local] Hint Resolve tick_same : eff.

Lemma call_same : preserves same call.
Proof. unfold Tls.call. preserved. Qed.

#[local] Hint Resolve call_same : eff.

Lemma read_file_same n : preserves same (read_file n).
Proof. unfold Tls.read_file, find_file. preserved. Qed.

Lemma file_mode_same n : preserves same (file_mode n).
Proof. unfold Tls.file_mode, find_file. preserved. Qed.

#[local] Hint Resolve read_file_same file_mode_same : eff.

Lemma validate_same c k : preserves same (validate c k).
Proof. unfold Tls.validate. preserved. Qed.

Lemma has_address_same c address : preserves same (has_address c address).
Proof. unfold Tls.has_address. preserved. Qed.

Lemma private_key_same : preserves same private_key.
Proof. unfold Tls.private_key, exists_file. preserved. Qed.

Lemma find_file_run n a a' f : find_file n a = (a', inr f) -> a' = a /\ tls_files a n = Some f.
Proof.
  unfold find_file. by intros [(e & _ & [=]) | (a1 & o & [= <- <-] & [-> Hf%ok_or_ok]%of_result_answer)]%bind_run.
Qed.

Lemma read_file_run n a a' s : read_file n a = (a', inr s) -> same a a' /\ exists f, tls_files a n = Some f /\ s = tf_data f.
Proof.
  intros Hr. split; [by eapply read_file_same |]. unfold Tls.read_file in Hr.
  apply bind_run in Hr as [(e & _ & [=]) | (a1 & [] & Hc%call_same & Hr)].
  apply bind_run in Hr as [(e & _ & [=]) | (a2 & f & [_ Hf]%find_file_run & [= _ <-])].
  exists f. by rewrite <- Hc.
Qed.

Lemma file_mode_run n a a' m : file_mode n a = (a', inr m) -> same a a' /\ exists f, tls_files a n = Some f /\ m = tf_mode f.
Proof.
  intros Hr. split; [by eapply file_mode_same |]. unfold Tls.file_mode in Hr.
  apply bind_run in Hr as [(e & _ & [=]) | (a1 & [] & Hc%call_same & Hr)].
  apply bind_run in Hr as [(e & _ & [=]) | (a2 & f & [_ Hf]%find_file_run & [= _ <-])].
  exists f. by rewrite <- Hc.
Qed.

Lemma validate_run c n a a' : validate c n a = (a', inr tt) ->
  same a a' /\ exists k, key_file (tls_files a) n k /\ cert_file (tls_files a) c k.
Proof.
  intros Hr. split; [by eapply validate_same |]. unfold Tls.validate in Hr.
  apply bind_run in Hr as [(e & _ & [=]) | (a1 & mode & (S1 & fk & Hk & ->)%file_mode_run & Hr)].
  apply bind_run in Hr as [(e & _ & [=]) | (a2 & [] & [-> [[Hm%Z.eqb_eq _] | [_ [=]]]]%require_run & Hr)].
  apply bind_run in Hr as [(e & _ & [=]) | (a2 & pem & (S2 & fc & Hc & ->)%read_file_run & Hr)].
  apply bind_run in Hr as [(e & _ & [=]) | (a3 & cert & [-> Hcert]%of_result_answer & Hr)].
  apply bind_run in Hr as [(e & _ & [=]) | (a3 & pem & (S3 & fk' & Hk' & ->)%read_file_run & Hr)].
  apply bind_run in Hr as [(e & _ & [=]) | (a4 & k & [-> Hkey]%of_result_answer & Hr)].
  apply bind_run in Hr as [(e & _ & [=]) | (a4 & eq & [-> Heq]%of_result_answer & Hr)].
  apply bind_run in Hr as [(e & _ & [=]) | (a4 & [] & [-> [[-> _] | [_ [=]]]]%require_run & Hr)].
  apply bind_run in Hr as [(e & _ & [=]) | (a4 & l & [-> Hl%ok_or_ok]%of_result_answer & Hr)].
  apply require_run in Hr as [_ [[Hin _] | [_ [=]]]]. apply existsb_exists in Hin as (x & Hx & ->%bool_decide_eq_true).
  unfold same in *. rewrite S1 in Hc. rewrite S2, S1, Hk in Hk'. injection Hk' as <-. exists k. split.
  - by exists fk.
  - exists fc, cert, l. split_and!; try done. by apply list_elem_of_In.
Qed.

Lemma has_address_run c address a a' b : has_address c address a = (a', inr b) ->
  same a a' /\ (b = true <-> names_address (tls_files a) c address).
Proof.
  intros Hr. split; [by eapply has_address_same |]. unfold Tls.has_address in Hr.
  apply bind_run in Hr as [(e & _ & [=]) | (a1 & pem & (S1 & f & Hf & ->)%read_file_run & Hr)].
  apply bind_run in Hr as [(e & _ & [=]) | (a2 & cert & [-> Hcert]%of_result_answer & Hr)].
  apply bind_run in Hr as [(e & _ & [=]) | (a2 & l & [-> Hl%ok_or_ok]%of_result_answer & [= _ <-])]. split.
  - intros (x & Hx & ->%bool_decide_eq_true)%existsb_exists. exists f, cert, l. split_and!; try done. by apply list_elem_of_In.
  - intros (f' & cert' & l' & Hf' & Hc' & Hl' & Hin). rewrite Hf in Hf'. injection Hf' as <-. rewrite Hcert in Hc'. injection Hc' as <-.
    rewrite Hl in Hl'. injection Hl' as <-. apply existsb_exists. eexists. split; [by apply list_elem_of_In |]. by apply bool_decide_eq_true.
Qed.

Lemma exists_run n a a' b : exists_file n a = (a', inr b) -> a' = a /\ b = bool_decide (is_Some (tls_files a n)).
Proof. by intros [= <- <-]. Qed.

(** ** Calls that change a file *)

(** All files but [n] are as before. *)
Definition only (n : tls_name) (a a' : tls) : Prop := forall m, m <> n -> tls_files a' m = tls_files a m.

Lemma same_only n a a' : same a a' -> only n a a'.
Proof. unfold same, only. by intros ->. Qed.

Lemma only_trans n a b c : only n a b -> only n b c -> only n a c.
Proof. unfold only. intros Hab Hbc m Hm. by rewrite Hbc, Hab. Qed.

Lemma set_file_only n f a : only n a (set_file n f a).
Proof. intros m Hm. cbn. by rewrite decide_False. Qed.

Lemma set_file_at n f a : tls_files (set_file n f a) n = f.
Proof. cbn. by rewrite decide_True. Qed.

Lemma remove_run n a a' r : remove_file n a = (a', r) -> only n a a' /\ (tls_files a' n = tls_files a n \/ tls_files a' n = None).
Proof.
  unfold Tls.remove_file. intros [(e & S1%call_same & _) | (a1 & [] & S1%call_same & Hr)]%bind_run;
    [split; [by apply same_only | by left; rewrite S1] |].
  apply bind_run in Hr as [(e & He & _) | (a2 & f & [-> _]%find_file_run & [= <- _])].
  - assert (same a1 a') as S2 by (by eapply (preserves_kept same (find_file n)); [unfold find_file; preserved | exact He]).
    split; [apply same_only; by etransitivity | left; by rewrite S2, S1].
  - split; [eapply only_trans; [by apply same_only | apply set_file_only] | right; apply set_file_at].
Qed.

Lemma ignore_run {A} (m : eff tls error A) a a' r : ignore m a = (a', r) -> (exists r', m a = (a', r')) /\ r = inr tt.
Proof.
  unfold ignore, try, mbind, eff_bind. destruct (m a) as [a1 [e | x]]; intros [= <- <-]; eauto.
Qed.

(** A move: all or nothing. *)
Lemma tls_rename_run n m a a' r : n <> m -> rename n m a = (a', r) ->
  (same a a' /\ exists e, r = inl e)
  \/ (r = inr tt /\ tls_files a' m = tls_files a n /\ tls_files a' n = None /\ forall x, x <> n -> x <> m -> tls_files a' x = tls_files a x).
Proof.
  intros Hnm. unfold Tls.rename. intros [(e & S1%call_same & ->) | (a1 & [] & S1%call_same & Hr)]%bind_run; [left; eauto |].
  apply bind_run in Hr as [(e & He & ->) | (a2 & f & [-> Hf]%find_file_run & [= <- <-])].
  - left. split; [| by eexists]. transitivity a1; [done |].
    by eapply (preserves_kept same (find_file n)); [unfold find_file; preserved | exact He].
  - right. unfold same in S1. rewrite S1 in Hf. split; [done |]. cbn. rewrite decide_False, decide_True, (decide_True (P := n = n)) by done.
    split_and!; [done | done |]. intros x Hn Hm. by rewrite !decide_False, S1.
Qed.

(** A write: the file keeps its mode, and only success tells what is in it. *)
Lemma write_private_run n contents a a' r : write_private n contents a = (a', r) ->
  only n a a'
  /\ (forall f, tls_files a' n = Some f -> tf_mode f = match tls_files a n with Some g => tf_mode g | None => 0x180 end)
  /\ (r = inr tt -> exists f, tls_files a' n = Some f /\ tf_data f = contents).
Proof.
  unfold Tls.write_private. intros [(e & S1%call_same & ->) | (a1 & [] & S1%call_same & Hr)]%bind_run.
  { unfold same in S1. split_and!; [by apply same_only | intros f; rewrite S1; by intros -> | done]. }
  unfold same in S1. apply bind_run in Hr as [(e & [=] & _) | (a2 & mode & [= <- <-] & Hr)]. rewrite S1 in Hr.
  apply bind_run in Hr as [(e & [=] & _) | (a2 & [] & [= <-] & Hr)].
  apply bind_run in Hr as [(e & [=] & _) | (a3 & t & [= <- _] & Hr)].
  set (mode := match tls_files a n with Some g => tf_mode g | None => 0x180 end) in *.
  assert (only n a (set_file n (Some (TlsFile mode "")) a1)) as Ho by (eapply only_trans; [by apply same_only | apply set_file_only]).
  apply bind_run in Hr as [(e & He & ->) | (a4 & [] & Hw & Hr)].
  - destruct (os t); [injection He as <- _ | done]. split_and!; [| | done].
    + eapply only_trans; [exact Ho | intros m Hm; cbn; by rewrite decide_False].
    + intros f. cbn. rewrite decide_True by done. by intros [= <-].
  - destruct (os t); [done | injection Hw as <-]. apply call_same in Hr as S5. unfold same in S5. split_and!.
    + eapply only_trans; [exact Ho |]. intros m Hm. rewrite S5. cbn. by rewrite !decide_False.
    + intros f. rewrite S5. cbn. rewrite decide_True by done. by intros [= <-].
    + intros _. rewrite S5. cbn. rewrite decide_True by done. by eexists.
Qed.

(** ** Issuing a certificate *)

Lemma private_key_run a a' k : private_key a = (a', inr k) ->
  same a a' /\ forall f, tls_files a TlsKey = Some f -> private_key_from_pem (tf_data f) = Ok k.
Proof.
  intros Hr. split; [by eapply private_key_same |]. unfold Tls.private_key in Hr.
  apply bind_run in Hr as [(e & _ & [=]) | (a1 & present & [-> ->]%exists_run & Hr)]. intros f Hf.
  rewrite bool_decide_true in Hr by (rewrite Hf; by eexists).
  apply bind_run in Hr as [(e & _ & [=]) | (a2 & pem & (_ & g & Hg & ->)%read_file_run & [_ Hk]%of_result_answer)].
  rewrite Hf in Hg. by injection Hg as <-.
Qed.

(** The states in which a certificate is issued. *)
Definition issuable (d : files) : Prop := (d TlsCert = None /\ d TlsKey = None) \/ exists k, complete d k.

Lemma issuable_recoverable d : issuable d -> recoverable d.
Proof. intros [[Hc Hk] | (k & Hk)]; [by apply Nothing | by eapply Both]. Qed.

(** Another certificate in its temporary file. *)
Lemma issuable_only_tmp d d' n : n <> TlsCert -> n <> TlsKey -> (forall m, m <> n -> d' m = d m) -> issuable d -> issuable d'.
Proof.
  intros Hc Hk Hd [[Hn1 Hn2] | (k & Hcert & Hkey)]; [left | right; exists k].
  - by rewrite !Hd by done.
  - split; [eapply cert_file_at; [| exact Hcert] | eapply key_file_at; [| exact Hkey]]; by apply Hd.
Qed.

(** The last rename: the new certificate and its key are in place. *)
Lemma install_certificate k address a a' r :
  key_file (tls_files a) TlsKey k -> cert_file (tls_files a) CertTmp k -> names_address (tls_files a) CertTmp address ->
  recoverable (tls_files a) -> tmp_private (tls_files a) -> rename CertTmp TlsCert a = (a', r) ->
  tls_ok (tls_files a') /\ kept (tls_files a) (tls_files a')
  /\ (r = inr tt -> complete (tls_files a') k /\ names_address (tls_files a') TlsCert address).
Proof.
  intros Hkey Hcert Hname Hrec Htmp [[S1 (e & ->)] | (-> & Hc & _ & Ho)]%tls_rename_run; [| | done].
  - rewrite S1. split_and!; [by split | by intros f | done].
  - assert (complete (tls_files a') k) as Hboth.
    { split; [by eapply cert_file_moved | eapply key_file_at; [by apply Ho | done]]. }
    split_and!; [split; [by eapply Both | intros f Hf; apply Htmp; by rewrite <- Ho] | intros f Hf; by rewrite Ho |].
    intros _. split; [done |]. unfold names_address. by rewrite Hc.
Qed.

(** The first private key: written in full beside its place, then renamed. *)
Lemma place_key_run k a a' r :
  tls_files a TlsCert = None -> tls_files a TlsKey = None -> cert_file (tls_files a) CertTmp k -> tmp_private (tls_files a) ->
  (pem ← of_result (private_key_to_pem k); write_private KeyTmp pem ;; rename KeyTmp TlsKey) a = (a', r) ->
  tls_ok (tls_files a') /\ tls_files a' CertTmp = tls_files a CertTmp /\ (r = inr tt -> key_file (tls_files a') TlsKey k).
Proof.
  intros Hc Hk Hcert Htmp [(e & [-> _]%of_result_answer & ->) | (a1 & pem & [-> Hpem]%of_result_answer & Hr)]%bind_run.
  { split_and!; [split; [by apply Nothing | done] | done | done]. }
  assert (forall a1, (forall f, tls_files a1 KeyTmp = Some f ->
    tf_mode f = match tls_files a KeyTmp with Some g => tf_mode g | None => 0x180 end) -> tmp_private (tls_files a1)) as Hpriv.
  { intros a1 Hm f Hf. rewrite (Hm f Hf). destruct (tls_files a KeyTmp) as [g |] eqn:Hg; [by apply Htmp | done]. }
  apply bind_run in Hr as [(e & Hw & ->) | (a2 & [] & Hw & Hr)]; apply write_private_run in Hw as (Ho & Hmode & Hfile);
    apply Hpriv in Hmode as Htmp2.
  { split_and!; [split; [apply Nothing; by rewrite Ho | done] | by apply Ho | done]. }
  destruct (Hfile eq_refl) as (f & Hf & Hdata). apply key_pem_roundtrip in Hpem.
  assert (key_file (tls_files a2) KeyTmp k) as Hkey by (exists f; rewrite Hdata; split_and!; [done | by apply Htmp2 | done]).
  apply tls_rename_run in Hr as [[S3 (e & ->)] | (-> & Hk3 & Hn3 & Ho3)]; [| | done].
  - rewrite S3. split_and!; [split; [apply Nothing; by rewrite Ho | done] | by apply Ho | done].
  - assert (key_file (tls_files a') TlsKey k) as Hkey3 by by eapply key_file_moved.
    assert (tls_files a' CertTmp = tls_files a CertTmp) as Hct by (by rewrite Ho3, Ho).
    split_and!; [| done | done]. split; [| intros g; by rewrite Hn3]. apply (KeyFirst _ k); [by rewrite Ho3, Ho | done |].
    by apply (cert_file_at (tls_files a)).
Qed.

Lemma generate_run address a a' r :
  tls_ok (tls_files a) -> issuable (tls_files a) -> generate address a = (a', r) ->
  tls_ok (tls_files a') /\ kept (tls_files a) (tls_files a')
  /\ (r = inr tt -> exists k, complete (tls_files a') k /\ names_address (tls_files a') TlsCert address).
Proof.
  intros [_ Htmp] Hiss Hr.
  assert (forall a1 e, same a a1 -> tls_ok (tls_files a1) /\ kept (tls_files a) (tls_files a1)
    /\ (inl e = inr tt :> error + unit -> exists k, complete (tls_files a1) k /\ names_address (tls_files a1) TlsCert address)) as Hstop.
  { intros a1 e ->. split_and!; [split; [by apply issuable_recoverable | done] | by intros f | done]. }
  unfold Tls.generate in Hr.
  apply bind_run in Hr as [(e & S1%call_same & ->) | (a1 & [] & S1%call_same & Hr)]; [by apply Hstop |].
  apply bind_run in Hr as [(e & S2%call_same & ->) | (a2 & [] & S2%call_same & Hr)]; [by apply Hstop; etransitivity |].
  pose proof (transitivity S1 S2) as S12.
  apply bind_run in Hr as [(e & S3%private_key_same & ->) | (a3 & k & [S3 Hk]%private_key_run & Hr)]; [by apply Hstop; etransitivity |].
  pose proof (transitivity S12 S3) as S13. unfold same in S12. rewrite S12 in Hk.
  apply bind_run in Hr as [(e & [=] & _) | (a4 & t & S4%tick_same & Hr)]. pose proof (transitivity S13 S4) as S14.
  apply bind_run in Hr as [(e & [-> _]%of_result_answer & ->) | (a5 & bytes & [-> _]%of_result_answer & Hr)]; [by apply Hstop |].
  apply bind_run in Hr as [(e & [-> _]%of_result_answer & ->) | (a5 & cert & [-> Hsign]%of_result_answer & Hr)]; [by apply Hstop |].
  apply bind_run in Hr as [(e & [-> _]%of_result_answer & ->) | (a5 & pem & [-> Hpem]%of_result_answer & Hr)]; [by apply Hstop |].
  apply bind_run in Hr as [(e & Hw & ->) | (a5 & [] & Hw & Hr)]; apply write_private_run in Hw as (Ho & _ & Hfile).
  all: assert (forall m, m <> CertTmp -> tls_files _ m = tls_files a m) as Ho5 by (intros m Hm; by rewrite Ho, S14).
  all: pose proof (issuable_only_tmp _ _ CertTmp ltac:(done) ltac:(done) Ho5 Hiss) as Hiss5.
  all: assert (tmp_private (tls_files _)) as Htmp5 by (intros f Hf; apply Htmp; by rewrite <- Ho5).
  all: assert (kept (tls_files a) (tls_files _)) as Hkept5 by (intros f Hf; by rewrite Ho5).
  { split_and!; [split; [by apply issuable_recoverable | done] | done | done]. }
  destruct (Hfile eq_refl) as (fc & Hfc & Hdata). clear Hfile.
  apply cert_pem_roundtrip in Hpem as Hparsed. apply signed_matches in Hsign as Heq. apply signed_names in Hsign as Hnames.
  assert (cert_file (tls_files a5) CertTmp k) as Hcert.
  { exists fc, cert. eexists. rewrite Hdata. split_and!; [done..|]. by left. }
  assert (names_address (tls_files a5) CertTmp address) as Haddr.
  { exists fc, cert. eexists. rewrite Hdata. split_and!; [done..|]. right. by left. }
  apply bind_run in Hr as [(e & [=] & _) | (a6 & present & [-> ->]%exists_run & Hr)]. rewrite Ho5 in Hr by done.
  destruct (tls_files a TlsKey) as [fk |] eqn:Hfk.
  - rewrite bool_decide_true in Hr by by eexists.
    apply bind_run in Hr as [(e & [=] & _) | (a6 & [] & [= <-] & Hr)].
    destruct Hiss5 as [[_ Hn] | (k' & Hc' & Hk')]; [by rewrite Ho5, Hfk in Hn |].
    assert (k' = k) as ->.
    { destruct Hk' as (f & Hf & _ & Hp). rewrite Ho5, Hfk in Hf by done. injection Hf as <-. rewrite (Hk fk eq_refl) in Hp. by injection Hp. }
    eapply install_certificate in Hr as (H1' & H2' & H3'); [| exact Hk' | exact Hcert | exact Haddr | by eapply Both | done].
    split_and!; [done | by eapply kept_trans | intros Hok; exists k; by apply H3'].
  - rewrite bool_decide_false in Hr by by intros [? ?].
    destruct Hiss5 as [[Hn5 Hn5'] | (k' & _ & (f & Hf & _))]; [| by rewrite Ho5, Hfk in Hf].
    apply bind_run in Hr as [(e & Hkf & ->) | (a6 & [] & Hkf & Hr)]; apply place_key_run in Hkf as (Hok6 & Hc6 & H6); try done.
    + split_and!; [done | by intros f; rewrite Hfk | done].
    + specialize (H6 eq_refl). apply (cert_file_at _ (tls_files a6)) in Hcert; [| done].
      assert (names_address (tls_files a6) CertTmp address) as Haddr6 by (unfold names_address; by rewrite Hc6).
      eapply install_certificate in Hr as (H1' & _ & H3'); [| done..| apply Hok6 | apply Hok6].
      split_and!; [done | by intros f; rewrite Hfk | intros Hok; exists k; by apply H3'].
Qed.

(** ** A start *)

Lemma ignored_remove n a a' r : n <> TlsCert -> n <> TlsKey -> ignore (remove_file n) a = (a', r) ->
  r = inr tt /\ tls_files a' TlsCert = tls_files a TlsCert /\ tls_files a' TlsKey = tls_files a TlsKey
  /\ (tmp_private (tls_files a) -> tmp_private (tls_files a')).
Proof.
  intros Hc Hk [(r' & [Ho Hn]%remove_run) ->]%ignore_run. split_and!; [done | by apply Ho | by apply Ho |].
  intros Htmp f Hf. destruct (decide (n = KeyTmp)) as [-> |]; [| apply Htmp; by rewrite <- Ho].
  destruct Hn as [Hn | Hn]; rewrite Hn in Hf; [by apply Htmp | done].
Qed.

Lemma complete_at d d' k : d' TlsCert = d TlsCert -> d' TlsKey = d TlsKey -> complete d k -> complete d' k.
Proof. intros Hc Hk [H1' H2']. split; [by eapply cert_file_at | by eapply key_file_at]. Qed.

Lemma recover_run address a a' r : tls_ok (tls_files a) -> recover address a = (a', r) ->
  tls_ok (tls_files a') /\ kept (tls_files a) (tls_files a') /\ (r = inr tt -> exists k, complete (tls_files a') k).
Proof.
  intros Hok Hr. unfold Tls.recover in Hr.
  assert (forall a1 e, same a a1 -> tls_ok (tls_files a1) /\ kept (tls_files a) (tls_files a1)
    /\ (inl e = inr tt :> error + unit -> exists k, complete (tls_files a1) k)) as Hstop.
  { intros a1 e ->. by split_and!; [| intros f |]. }
  do 4 (apply bind_run in Hr as [(e & [=] & _) | (? & ? & [-> ->]%exists_run & Hr)]).
  pose proof Hok as [Hrec Htmp].
  assert (forall n, (exists f, tls_files a n = Some f) -> bool_decide (is_Some (tls_files a n)) = true) as Hyes
    by (intros n (f & Hf); apply bool_decide_true; by exists f).
  assert (forall n, tls_files a n = None -> bool_decide (is_Some (tls_files a n)) = false) as Hno
    by (intros n Hf; apply bool_decide_false; rewrite Hf; by intros [? ?]).
  destruct Hrec as [Hc Hk | k Hc Hk Hct | k Hk Hkt Hc | k Hboth].
  - rewrite !Hno in Hr by done.
    apply bind_run in Hr as [(e & He & _) | (a1 & [] & Hi & Hr)]; [by apply ignored_remove in He as [[=] _] |].
    apply ignored_remove in Hi as (_ & Hc1 & Hk1 & Ht1); [| done..].
    apply bind_run in Hr as [(e & He & _) | (a2 & [] & Hi & Hr)]; [by apply ignored_remove in He as [[=] _] |].
    apply ignored_remove in Hi as (_ & Hc2 & Hk2 & Ht2); [| done..].
    assert (tls_files a2 TlsCert = None) as Hn1 by congruence. assert (tls_files a2 TlsKey = None) as Hn2 by congruence.
    apply generate_run in Hr as (Hok' & _ & Hres); [| split; [by apply Nothing | auto] | by left].
    split_and!; [done | by intros f; rewrite Hk |]. intros Hr'. destruct (Hres Hr') as (k & Hk' & _). by exists k.
  - pose proof Hk as (fk & Hfk & _). pose proof Hct as (fc & _ & _ & Hfc & _).
    rewrite (Hno TlsCert Hc), (Hyes TlsKey), (Hyes CertTmp) in Hr by eauto.
    apply bind_run in Hr as [(e & S1%validate_same & ->) | (a1 & [] & [S1 _]%validate_run & Hr)]; [by apply Hstop |].
    apply bind_run in Hr as [(e & Hm & ->) | (a2 & [] & Hm & Hr)]; apply tls_rename_run in Hm as [[S2 He] | (Hm0 & Hm & Hn & Ho)]; try done.
    + apply Hstop. by etransitivity.
    + by destruct He.
    + unfold same in S1. rewrite S1 in Hm, Ho.
      apply ignored_remove in Hr as (-> & Hc3 & Hk3 & Ht3); [| done..].
      assert (complete (tls_files a') k) as Hboth.
      { split; [eapply cert_file_moved; [| exact Hct]; congruence | eapply key_file_at; [| exact Hk]; by rewrite Hk3, Ho]. }
      split_and!; [| intros f; by rewrite Hk3, Ho | by exists k]. split; [by eapply Both |]. apply Ht3. intros f. rewrite Ho by done. apply Htmp.
  - pose proof Hkt as (fk & Hfk & _). pose proof Hc as (fc & _ & _ & Hfc & _).
    rewrite (Hno TlsKey Hk), (Hyes TlsCert), (Hyes KeyTmp) in Hr by eauto.
    apply bind_run in Hr as [(e & S1%validate_same & ->) | (a1 & [] & [S1 _]%validate_run & Hr)]; [by apply Hstop |].
    apply bind_run in Hr as [(e & Hm & ->) | (a2 & [] & Hm & Hr)]; apply tls_rename_run in Hm as [[S2 He] | (Hm0 & Hm & Hn & Ho)]; try done.
    + apply Hstop. by etransitivity.
    + by destruct He.
    + unfold same in S1. rewrite S1 in Hm, Ho.
      apply ignored_remove in Hr as (-> & Hc3 & Hk3 & Ht3); [| done..].
      assert (complete (tls_files a') k) as Hboth.
      { split; [eapply cert_file_at; [| exact Hc]; by rewrite Hc3, Ho | eapply key_file_moved; [| exact Hkt]; congruence]. }
      split_and!; [| intros f; by rewrite Hk | by exists k]. split; [by eapply Both |]. apply Ht3. intros f. by rewrite Hn.
  - pose proof Hboth as [(fc & _ & _ & Hfc & _) (fk & Hfk & _)]. rewrite (Hyes TlsCert), (Hyes TlsKey) in Hr by eauto.
    apply bind_run in Hr as [(e & S1%validate_same & ->) | (a1 & [] & [S1 _]%validate_run & Hr)]; [by apply Hstop |].
    apply bind_run in Hr as [(e & S2%has_address_same & ->) | (a2 & has & [S2 _]%has_address_run & Hr)]; [by apply Hstop; etransitivity |].
    pose proof (transitivity S1 S2) as S12. unfold same in S12. destruct has.
    + injection Hr as <- <-. rewrite S12. by split_and!; [| intros f | exists k].
    + apply generate_run in Hr as (Hok' & Hk' & Hres); [| by rewrite S12 | rewrite S12; right; by exists k].
      rewrite S12 in Hk'. split_and!; [done | done |]. intros Hr'. destruct (Hres Hr') as (k' & Hc' & _). by exists k'.
Qed.

(** The certificate in place, and the fingerprint that was answered. *)
Definition fingerprint_of (d : files) (s : string) : Prop :=
  exists f (c : x509), d TlsCert = Some f /\ x509_from_pem (tf_data f) = Ok c /\ fingerprint c = Ok s.

Lemma fingerprint_run a a' s :
  (pem ← read_file TlsCert; certificate ← of_result (x509_from_pem pem); of_result (fingerprint certificate)) a = (a', inr s) ->
  fingerprint_of (tls_files a') s.
Proof.
  intros [(e & _ & [=]) | (a1 & pem & (S1 & f & Hf & ->)%read_file_run & Hr)]%bind_run.
  apply bind_run in Hr as [(e & _ & [=]) | (a2 & c & [-> Hc]%of_result_answer & [-> Hs]%of_result_answer)].
  exists f, c. by rewrite S1.
Qed.

Lemma fingerprint_same :
  preserves same (pem ← read_file TlsCert; certificate ← of_result (x509_from_pem (x509 := x509) pem); of_result (fingerprint certificate)).
Proof. preserved. Qed.

Lemma ensure_tls_run address a a' r : tls_ok (tls_files a) -> ensure_tls address a = (a', r) ->
  tls_ok (tls_files a') /\ kept (tls_files a) (tls_files a')
  /\ forall s, r = inr s -> exists k, complete (tls_files a') k /\ names_address (tls_files a') TlsCert address /\ fingerprint_of (tls_files a') s.
Proof.
  intros Hok Hr. unfold Tls.ensure_tls in Hr.
  apply bind_run in Hr as [(e & (Hok1 & Hk1 & _)%recover_run & ->) | (a1 & [] & (Hok1 & Hk1 & Hc1)%recover_run & Hr)];
    [by split_and! | exact Hok | | exact Hok].
  destruct (Hc1 eq_refl) as (k & Hboth). clear Hc1.
  assert (forall a2 e, same a1 a2 -> tls_ok (tls_files a2) /\ kept (tls_files a) (tls_files a2) /\ forall s, inl e = inr s :> error + string ->
    exists k, complete (tls_files a2) k /\ names_address (tls_files a2) TlsCert address /\ fingerprint_of (tls_files a2) s) as Hstop
    by (intros a2 e ->; by split_and!).
  apply bind_run in Hr as [(e & S2%validate_same & ->) | (a2 & [] & [S2 _]%validate_run & Hr)]; [by apply Hstop |].
  apply bind_run in Hr as [(e & S3%has_address_same & ->) | (a3 & has & [S3 Hhas]%has_address_run & Hr)]; [by apply Hstop; etransitivity |].
  pose proof (transitivity S2 S3) as S13. unfold same in S2, S13. rewrite S2 in Hhas.
  assert (forall a4, tls_ok (tls_files a4) -> kept (tls_files a1) (tls_files a4) ->
    (exists k, complete (tls_files a4) k /\ names_address (tls_files a4) TlsCert address) ->
    (pem ← read_file TlsCert; certificate ← of_result (x509_from_pem (x509 := x509) pem); of_result (fingerprint certificate)) a4 = (a', r) ->
    tls_ok (tls_files a') /\ kept (tls_files a) (tls_files a') /\ forall s, r = inr s ->
      exists k, complete (tls_files a') k /\ names_address (tls_files a') TlsCert address /\ fingerprint_of (tls_files a') s) as Hend.
  { intros a4 Hok4 Hk4 (k4 & Hboth4 & Hname4) Hf. pose proof (fingerprint_same _ _ _ Hf) as S4. unfold same in S4. rewrite S4.
    split_and!; [done | by eapply kept_trans |]. intros s ->. exists k4. rewrite <- S4 at 3. by apply fingerprint_run in Hf. }
  destruct has.
  - apply bind_run in Hr as [(e & [=] & _) | (a4 & [] & [= <-] & Hr)].
    apply (Hend a3); [by rewrite S13 | rewrite S13; by intros f | rewrite S13; exists k; split; [done | by apply Hhas] | done].
  - apply bind_run in Hr as [(e & Hg & ->) | (a4 & [] & Hg & Hr)];
      (apply bind_run in Hg as [(e' & Hg & Hv) | (a5 & [] & Hg & Hv)];
       (apply generate_run in Hg as (Hok5 & Hk5 & Hc5); [| by rewrite S13 | rewrite S13; right; by exists k]); rewrite S13 in Hk5).
    + split_and!; [done | by eapply kept_trans | done].
    + apply validate_same in Hv as S5. unfold same in S5. rewrite S5. split_and!; [done | by eapply kept_trans | done].
    + done.
    + apply validate_run in Hv as [S5 _]. unfold same in S5.
      apply (Hend a4); [by rewrite S5 | by rewrite S5 | rewrite S5; by apply Hc5 | done].
Qed.

(** A pair for the address that is in place is left alone, whatever fails. *)
Lemma ensure_stable address a a' r k :
  complete (tls_files a) k -> names_address (tls_files a) TlsCert address -> ensure_tls address a = (a', r) -> same a a'.
Proof.
  intros [(fc & c & l & Hfc & _) (fk & Hfk & _)] Hname Hr. unfold Tls.ensure_tls in Hr.
  assert (forall a1 r1, recover address a = (a1, r1) -> same a a1) as Hrecover.
  { unfold Tls.recover. intros a1 r1 Hrec. do 4 (apply bind_run in Hrec as [(e & [=] & _) | (? & ? & [-> ->]%exists_run & Hrec)]).
    rewrite !bool_decide_true in Hrec by (rewrite ?Hfc, ?Hfk; by eexists).
    apply bind_run in Hrec as [(e & S1%validate_same & _) | (a2 & [] & [S1 _]%validate_run & Hrec)]; [done |].
    apply bind_run in Hrec as [(e & S2%has_address_same & _) | (a3 & has & [S2 Hhas]%has_address_run & Hrec)]; [by etransitivity |].
    unfold same in S1. rewrite S1 in Hhas. apply Hhas in Hname. subst has. injection Hrec as <- _. by transitivity a2. }
  apply bind_run in Hr as [(e & S1%Hrecover & _) | (a1 & [] & S1%Hrecover & Hr)]; [done |].
  apply bind_run in Hr as [(e & S2%validate_same & _) | (a2 & [] & [S2 _]%validate_run & Hr)]; [by etransitivity |].
  pose proof (transitivity S1 S2) as S12.
  apply bind_run in Hr as [(e & S3%has_address_same & _) | (a3 & has & [S3 Hhas]%has_address_run & Hr)]; [by etransitivity |].
  pose proof (transitivity S12 S3) as S13. unfold same in S12. rewrite S12 in Hhas. apply Hhas in Hname. subst has.
  apply bind_run in Hr as [(e & [=] & _) | (a4 & [] & [= <-] & Hr)]. apply fingerprint_same in Hr. by etransitivity.
Qed.
End Run.

(** ** A start that nothing fails *)

(** The calls of OpenSSL that a healthy router can rely on. *)
Record openssl_works : Prop := {
  random_works n len : exists b, rand_bytes n len = Ok b;
  keys_work n : exists k, generate_key n = Ok k;
  key_pem_works k : exists s, private_key_to_pem k = Ok s;
  sign_works spec k : exists c, sign spec k = Ok c;
  cert_pem_works c : exists s, x509_to_pem c = Ok s;
  digest_works c : exists d, sha256 c = Ok d;
}.

Section Healthy.
Variable torn : nat -> string.
Hypothesis Hworks : openssl_works.

#[local] Existing Instance same_preorder.
#[local] Notation quiet := (fun _ : nat => @None error).

Lemma call_completes a : completes (call quiet) a.
Proof. by do 2 eexists. Qed.

Lemma read_file_completes n a f : tls_files a n = Some f -> exists a', read_file quiet n a = (a', inr (tf_data f)) /\ same a a'.
Proof. intros Hf. unfold read_file, find_file, Tls.call, tick, mbind, eff_bind, read, of_result. cbn. rewrite Hf. by eexists. Qed.

Lemma file_mode_completes n a f : tls_files a n = Some f -> exists a', file_mode quiet n a = (a', inr (tf_mode f)) /\ same a a'.
Proof. intros Hf. unfold file_mode, find_file, Tls.call, tick, mbind, eff_bind, read, of_result. cbn. rewrite Hf. by eexists. Qed.

Lemma rename_completes n m a f : tls_files a n = Some f -> completes (rename quiet n m) a.
Proof. intros Hf. unfold rename, find_file, completes, Tls.call, tick, mbind, eff_bind, read, of_result. cbn. rewrite Hf. by do 2 eexists. Qed.

Lemma write_private_completes n contents a : completes (write_private quiet torn n contents) a.
Proof. by do 2 eexists. Qed.

Lemma validate_completes c n k a : key_file (tls_files a) n k -> cert_file (tls_files a) c k ->
  completes (validate (pkey := pkey) (x509 := x509) quiet c n) a.
Proof.
  intros (fk & Hfk & Hmode & Hkey) (fc & cert & l & Hfc & Hcert & Heq & Hl & Hin). unfold validate.
  destruct (file_mode_completes n a fk Hfk) as (a1 & H1' & S1). unfold same in *.
  apply (completes_run _ _ _ _ _ H1'). rewrite Hmode. cbn. apply (completes_run _ _ _ a1 tt eq_refl).
  destruct (read_file_completes c a1 fc) as (a2 & H2' & S2); [by rewrite S1 |]. unfold same in *.
  apply (completes_run _ _ _ _ _ H2'), (completes_run _ _ _ a2 cert); [by unfold of_result; rewrite Hcert |].
  destruct (read_file_completes n a2 fk) as (a3 & H3' & S3); [by rewrite S2, S1 |].
  apply (completes_run _ _ _ _ _ H3'), (completes_run _ _ _ a3 k); [by unfold of_result; rewrite Hkey |].
  apply (completes_run _ _ _ a3 true); [by unfold of_result; rewrite Heq |]. apply (completes_run _ _ _ a3 tt eq_refl).
  apply (completes_run _ _ _ a3 l); [by unfold of_result; rewrite Hl |].
  assert (existsb (fun n => bool_decide (n = SanDns PANEL_NAME)) l = true) as ->.
  { apply existsb_exists. eexists. split; [by apply list_elem_of_In | by apply bool_decide_eq_true]. }
  by do 2 eexists.
Qed.

Lemma has_address_completes c k address a : cert_file (tls_files a) c k ->
  completes (has_address (pkey := pkey) (x509 := x509) quiet c address) a.
Proof.
  intros (fc & cert & l & Hfc & Hcert & _ & Hl & _). unfold has_address.
  destruct (read_file_completes c a fc Hfc) as (a1 & H1' & _).
  apply (completes_run _ _ _ _ _ H1'), (completes_run _ _ _ a1 cert); [by unfold of_result; rewrite Hcert |].
  apply (completes_run _ _ _ a1 l); [by unfold of_result; rewrite Hl |]. by do 2 eexists.
Qed.

Lemma private_key_completes a : issuable (tls_files a) -> completes (private_key (pkey := pkey) (x509 := x509) quiet) a.
Proof.
  intros Hiss. unfold private_key. apply (completes_run _ _ _ a _ eq_refl).
  destruct Hiss as [[_ Hk] | (k & _ & fk & Hfk & _ & Hkey)].
  - rewrite Hk, bool_decide_false by by intros [? ?]. apply (completes_run tick _ _ (Tls (S (tls_tick a)) (tls_files a)) (tls_tick a) eq_refl).
    destruct (keys_work Hworks (tls_tick a)) as (k & Hg). exists (Tls (S (tls_tick a)) (tls_files a)), k. unfold of_result. by rewrite Hg.
  - rewrite Hfk, bool_decide_true by by eexists. destruct (read_file_completes TlsKey a fk Hfk) as (a1 & H1' & _).
    apply (completes_run _ _ _ _ _ H1'). exists a1, k. unfold of_result. by rewrite Hkey.
Qed.

Lemma generate_completes address a : issuable (tls_files a) ->
  completes (generate (pkey := pkey) (x509 := x509) quiet torn address) a.
Proof.
  intros Hiss. unfold generate.
  apply completes_bind; [apply call_completes |]. intros a1 [] S1%call_same.
  apply completes_bind; [apply call_completes |]. intros a2 [] S2%call_same.
  pose proof (transitivity S1 S2) as S12. unfold same in S12.
  apply completes_bind; [apply private_key_completes; by rewrite S12 |]. intros a3 k _.
  apply (completes_run tick _ _ (Tls (S (tls_tick a3)) (tls_files a3)) (tls_tick a3) eq_refl).
  destruct (random_works Hworks (tls_tick a3) 16) as (b & Hb). apply (completes_of_result _ b); [done |].
  destruct (sign_works Hworks (spec_for address (serial_of b)) k) as (c & Hc). apply (completes_of_result _ c); [done |].
  destruct (cert_pem_works Hworks c) as (pem & Hpem). apply (completes_of_result _ pem); [done |].
  apply completes_bind; [apply write_private_completes |]. intros a4 [] (_ & _ & Hfile)%write_private_run.
  destruct (Hfile eq_refl) as (f & Hf & _). apply (completes_run _ _ _ a4 _ eq_refl).
  apply completes_bind.
  - destruct (bool_decide _); [by do 2 eexists |].
    destruct (key_pem_works Hworks k) as (s & Hs). apply (completes_of_result _ s); [done |].
    apply completes_bind; [apply write_private_completes |]. intros a5 [] (_ & _ & Hkf)%write_private_run.
    destruct (Hkf eq_refl) as (g & Hg & _). by eapply rename_completes.
  - intros a5 [] Hr. apply rename_completes with f. rewrite <- Hf. destruct (bool_decide _); [by injection Hr as <- |].
    apply bind_run in Hr as [(e & _ & [=]) | (a6 & s & [-> _]%of_result_answer & Hr)].
    apply bind_run in Hr as [(e & _ & [=]) | (a6 & [] & (Ho & _)%write_private_run & Hr)].
    apply tls_rename_run in Hr as [[_ (e & [=])] | (_ & _ & _ & Ho')]; [| done]. by rewrite Ho', Ho.
Qed.

Lemma ignore_completes {A} (m : eff tls error A) a : completes (ignore m) a.
Proof. unfold completes, ignore, try, mbind, eff_bind. destruct (m a) as [a1 [e | x]]; by do 2 eexists. Qed.

Lemma recover_completes address a : tls_ok (tls_files a) ->
  completes (recover (pkey := pkey) (x509 := x509) quiet torn address) a.
Proof.
  intros [Hrec _]. unfold recover. do 4 (apply (completes_run _ _ _ a _ eq_refl)).
  assert (forall n f, tls_files a n = Some f -> bool_decide (is_Some (tls_files a n)) = true) as Hyes
    by (intros n f Hf; apply bool_decide_true; by exists f).
  assert (forall n, tls_files a n = None -> bool_decide (is_Some (tls_files a n)) = false) as Hno
    by (intros n Hf; apply bool_decide_false; rewrite Hf; by intros [? ?]).
  destruct Hrec as [Hc Hk | k Hc Hk Hct | k Hk Hkt Hc | k [Hc Hk]].
  - rewrite !Hno by done. apply completes_bind; [apply ignore_completes |]. intros a1 [] (_ & Hc1 & Hk1 & _)%ignored_remove; [| done..].
    apply completes_bind; [apply ignore_completes |]. intros a2 [] (_ & Hc2 & Hk2 & _)%ignored_remove; [| done..].
    apply generate_completes. left. split; congruence.
  - pose proof Hk as (fk & Hfk & _). pose proof Hct as (fc & _ & _ & Hfc & _). rewrite (Hno TlsCert), (Hyes _ _ Hfk), (Hyes _ _ Hfc) by done.
    apply completes_bind; [by eapply validate_completes |]. intros a1 [] S1%validate_same. unfold same in S1.
    apply completes_bind; [apply rename_completes with fc; by rewrite S1 |]. intros a2 [] _. apply ignore_completes.
  - pose proof Hkt as (fk & Hfk & _). pose proof Hc as (fc & _ & _ & Hfc & _). rewrite (Hno TlsKey), (Hyes _ _ Hfk), (Hyes _ _ Hfc) by done.
    apply completes_bind; [by eapply validate_completes |]. intros a1 [] S1%validate_same. unfold same in S1.
    apply completes_bind; [apply rename_completes with fk; by rewrite S1 |]. intros a2 [] _. apply ignore_completes.
  - pose proof Hk as (fk & Hfk & _). pose proof Hc as (fc & _ & _ & Hfc & _). rewrite (Hyes _ _ Hfk), (Hyes _ _ Hfc).
    apply completes_bind; [by eapply validate_completes |]. intros a1 [] S1%validate_same. unfold same in S1.
    apply completes_bind; [eapply has_address_completes; by rewrite S1 |]. intros a2 has S2%has_address_same. unfold same in S2.
    destruct has; [by do 2 eexists |]. apply generate_completes. rewrite S2, S1. right. by exists k.
Qed.

Lemma ensure_completes address a : tls_ok (tls_files a) -> completes (ensure_tls (pkey := pkey) (x509 := x509) quiet torn address) a.
Proof.
  intros Hok. unfold ensure_tls.
  apply completes_bind; [by apply recover_completes |]. intros a1 [] (Hok1 & _ & Hc)%recover_run; [| done].
  destruct (Hc eq_refl) as (k & Hboth). pose proof Hboth as [Hcert Hkey].
  apply completes_bind; [by eapply validate_completes |]. intros a2 [] S2%validate_same. unfold same in S2.
  apply completes_bind; [eapply has_address_completes; by rewrite S2 |]. intros a3 has S3%has_address_same. unfold same in S3.
  rewrite S2 in S3. apply completes_bind.
  - destruct has; [by do 2 eexists |]. apply completes_bind; [apply generate_completes; rewrite S3; right; by exists k |].
    intros a4 [] (_ & _ & Hc4)%generate_run; [| by rewrite S3 | rewrite S3; right; by exists k].
    destruct (Hc4 eq_refl) as (k4 & [Hcert4 Hkey4] & _). by eapply validate_completes.
  - intros a4 [] Hr. assert (exists k4, cert_file (tls_files a4) TlsCert k4) as (k4 & fc & c & l & Hfc & Hx & _).
    { destruct has; [injection Hr as <-; exists k; by rewrite S3 |].
      apply bind_run in Hr as [(e & _ & [=]) | (a5 & [] & _ & [S5 (k5 & _ & Hc5)]%validate_run)]. exists k5. by rewrite S5. }
    destruct (read_file_completes TlsCert a4 fc Hfc) as (a5 & H5 & _). apply (completes_run _ _ _ _ _ H5).
    apply (completes_of_result _ c); [done |]. destruct (digest_works Hworks c) as (d & Hd). unfold completes, of_result, fingerprint.
    rewrite Hd. by do 2 eexists.
Qed.
End Healthy.

(** ** Every start so far *)

(** From an empty directory: starts for any address, with any call failing, any
    write cut short, and stopped at any call. *)
Inductive started : tls -> Prop :=
| Fresh t : started (Tls t (fun _ => None))
| Start os torn address a a' r :
    started a -> ensure_tls (pkey := pkey) (x509 := x509) os torn address a = (a', r) -> started a'.

Lemma tls_started_ok a : started a -> tls_ok (tls_files a).
Proof.
  induction 1 as [t | os torn address a a' r _ IH Hr]; [split; [by apply Nothing | done] |].
  by apply ensure_tls_run in Hr as (Hok & _).
Qed.

(** C21. However the earlier starts of the panel failed or were cut short, its
    certificate files never need a hand: the next start that nothing fails answers the
    fingerprint of a certificate for the address it was asked for, under the private key
    beside it that nobody else may read.  No start, failed or not, ever replaces
    a private key that is in place, and none touches a pair that already serves
    the address. *)
Theorem panel_certificate_recovers a torn address (Hworks : openssl_works) (Hstarted : started a) :
  (exists a' s k, ensure_tls (pkey := pkey) (x509 := x509) (fun _ => None) torn address a = (a', inr s)
    /\ complete (tls_files a') k /\ names_address (tls_files a') TlsCert address /\ fingerprint_of (tls_files a') s)
  /\ forall os torn' address' a' r, ensure_tls (pkey := pkey) (x509 := x509) os torn' address' a = (a', r) ->
       kept (tls_files a) (tls_files a')
       /\ forall k, complete (tls_files a) k -> names_address (tls_files a) TlsCert address' -> tls_files a' = tls_files a.
Proof.
  apply tls_started_ok in Hstarted as Hok. split.
  - destruct (ensure_completes torn Hworks address a Hok) as (a' & s & Hr).
    apply ensure_tls_run in Hr as Hrun; [| done]. destruct Hrun as (_ & _ & Hres). destruct (Hres s eq_refl) as (k & H1' & H2' & H3').
    by exists a', s, k.
  - intros os torn' address' a' r Hr. split; [by eapply ensure_tls_run in Hr as (_ & Hk & _) |].
    intros k Hboth Hname. by eapply ensure_stable.
Qed.
End Safety.

(** ** A library and a start that was cut short *)

Module SampleTls.

#[local] Instance san_countable : Countable san.
Proof.
  refine (inj_countable' (fun s => match s with SanDns n => Some (inl n) | SanIp a => Some (inr a) | SanOther => None end)
    (fun o => match o with Some (inl n) => SanDns n | Some (inr a) => SanIp a | None => SanOther end) _).
  by intros [].
Defined.

(** A key is a number, a certificate its names and the number of its key. *)
Definition cert := (list san * nat)%type.

Definition pem {A} `{Countable A} (x : A) : string := str (bits_of (encode x)).

Definition unpem {A} `{Countable A} (s : string) : result A := ok_or (decode (of_bits (chars s))) "not a PEM".

#[export] Instance library : Openssl nat cert := {
  rand_bytes _ len := Ok (replicate len 0x2a);
  generate_key n := Ok n;
  private_key_from_pem := unpem;
  private_key_to_pem k := Ok (pem k);
  sign spec k := Ok (cs_names spec, k);
  x509_to_pem c := Ok (pem c);
  x509_from_pem := unpem;
  public_eq c k := Ok (bool_decide (c.2 = k));
  subject_alt_names c := Some c.1;
  sha256 c := Ok [Z.of_nat c.2];
}.

Lemma unpem_pem {A} `{Countable A} (x : A) : unpem (pem x) = Ok x.
Proof. unfold unpem, pem. by rewrite chars_str, of_bits_of, decode_encode. Qed.

#[export] Instance library_laws : OpensslLaws nat cert.
Proof.
  split.
  - intros k s [= <-]. apply unpem_pem.
  - intros c s [= <-]. apply unpem_pem.
  - intros spec k c [= <-]. cbn. by rewrite bool_decide_true.
  - by intros spec k c [= <-].
Qed.

Lemma library_works : openssl_works (pkey := nat) (x509 := cert).
Proof. by split; eauto. Qed.

(** Power is lost between the two renames of the first start. *)
Definition power_loss (n : nat) : option error := if (13 <=? n)%nat then Some (Msg "power") else None.

Definition router : Z := 0xc0a80001.

Definition cut_short : tls := (ensure_tls (pkey := nat) (x509 := cert) power_loss (fun _ => "") router (Tls 0 (fun _ => None))).1.

Lemma key_without_certificate : bool_decide (is_Some (tls_files cut_short TlsKey)) = true /\ tls_files cut_short TlsCert = None.
Proof. by vm_compute. Qed.
End SampleTls.

#[local] Existing Instance SampleTls.library.
#[local] Existing Instance SampleTls.library_laws.

Lemma panel_certificate_recovers_witness :
  tls_files SampleTls.cut_short TlsCert = None
  /\ exists a' s k, ensure_tls (pkey := nat) (x509 := SampleTls.cert) (fun _ => None) (fun _ => "") 0xc0a80002 SampleTls.cut_short = (a', inr s)
    /\ complete (pkey := nat) (x509 := SampleTls.cert) (tls_files a') k /\ names_address (pkey := nat) (x509 := SampleTls.cert) (tls_files a') TlsCert 0xc0a80002
    /\ fingerprint_of (pkey := nat) (x509 := SampleTls.cert) (tls_files a') s.
Proof.
  split; [apply SampleTls.key_without_certificate |].
  apply (panel_certificate_recovers SampleTls.cut_short (fun _ => "") 0xc0a80002 SampleTls.library_works).
  eapply Start; [apply (Fresh 0) | apply surjective_pairing].
Defined.
