(* ===== verification/Startup.v ===== *)
(** * The start of the agent (crates/gofro-agent/src/main.rs, dataplane.rs)

    The command line is checked before anything is touched; then the saved
    configuration is taken over under a guard on forwarding that stays up while
    anything fails, until the controller has reconciled the router. *)

From stdpp Require Import base gmap strings list.
From Stdlib Require Import Ascii ZArith Lia.
From S2P Require Import Prelude RustStd Effects IpAddr Net Model Config Dataplane.

(** ** The LAN *)

Definition validate_interface (interface : string) : result unit :=
  if bool_decide (interface = ""%string) || (15 <? slen interface)
     || negb (forallb (fun b => is_ascii_alphanumeric b || existsb (eqb_ascii b) ["-"%char; "_"%char; "."%char]) (chars interface))
  then Err (Msg "invalid interface name") else Ok tt.

(** [Ipv4Addr::is_unspecified], [is_loopback], [is_multicast] *)
Definition is_unspecified (a : Z) : bool := a =? 0.
Definition is_loopback (a : Z) : bool := Z.shiftr a 24 =? 127.
Definition is_multicast (a : Z) : bool := Z.shiftr a 28 =? 14.

Section Lan.
Context {net : Type} `{Ipnet net}.

Definition check_reserved (subnet : net) (reserved : string) : result unit :=
  r ← ok_or (net_parse (net := net) reserved) "invalid IP address syntax";
  if contains_ip subnet (network r) || contains_ip r (network subnet)
  then Err (Msg ("LAN subnet overlaps reserved " +:+ net_show r)) else Ok tt.

Definition validate_lan (lan : lan_context net) : result unit :=
  validate_interface (lan_device lan) ;;
  let a := lan_address lan in
  let subnet := lan_subnet lan in
  (if is_unspecified a || is_loopback a || is_multicast a || negb (contains_ip subnet a) || (30 <? prefix_len subnet)
      || (a =? network subnet) || (a =? broadcast subnet)
   then Err (Msg "LAN address must be a usable host in --lan-subnet") else Ok tt) ;;
  check_reserved subnet "10.202.0.0/24" ;;
  check_reserved subnet "198.18.0.0/15".

(** ** The command line *)

Definition socket_addr : Type := ip_addr * Z.

(** [IpAddr::is_loopback] *)
Definition ip_is_loopback (ip : ip_addr) : bool :=
  match ip with V4 a => is_loopback a | V6 gs => bool_decide (gs = [0; 0; 0; 0; 0; 0; 0; 1]) end.

Definition ipv4 (address : socket_addr) : result Z :=
  match address.1 with V4 a => Ok a | V6 _ => Err (Msg "panel listen address must be IPv4") end.

Record args := Args {
  listen : socket_addr;
  http_listen : socket_addr;
  https_listen : socket_addr;
  arg_interface : string;
  lan_interface : option string;
  arg_lan_subnet : option net;
  arg_dns_listen : option socket_addr;
  arg_dns_upstream : option socket_addr;
}.

Record settings := Settings { set_lan : lan_context net; dns_listen : socket_addr; dns_upstream : socket_addr }.

(** What [run] makes of the command line before it touches the router. *)
Definition check_args (a : args) : result settings :=
  ensure (ip_is_loopback (listen a).1) "--listen must be loopback-only" ;;
  panel_ports_validate (PanelPorts (http_listen a).2 (https_listen a).2) ;;
  ipv4 (http_listen a) ;;
  address ← ipv4 (https_listen a);
  ensure (bool_decide ((http_listen a).1 = V4 address)) "--http-listen and --https-listen must use the LAN address" ;;
  device ← ok_or (lan_interface a) "--lan-interface is required";
  subnet ← ok_or (arg_lan_subnet a) "--lan-subnet is required";
  let lan := LanContext device address subnet in
  validate_lan lan ;;
  validate_interface (arg_interface a) ;;
  let listen := default (V4 address, 5353) (arg_dns_listen a) in
  let upstream := default (V4 address, 53) (arg_dns_upstream a) in
  if negb (bool_decide (listen.1 = V4 address)) || negb (upstream.2 =? 53)
     || negb (ip_is_loopback upstream.1 || bool_decide (upstream.1 = V4 address)) || bool_decide (upstream = listen)
  then Err (Msg "DNS must listen on the LAN address and use local DNS port 53")
  else Ok (Settings lan listen upstream).
End Lan.
Arguments args : clear implicits.
Arguments settings : clear implicits.

(** ** What nft prints *)

Inductive json :=
| JNull
| JBool (b : bool)
| JNumber (text : string)
| JString (s : string)
| JArray (l : list json)
| JObject (fields : list (string * json)).

(** [value[key]]: [Null] for what is not there; [value.get(key)]; the last field of a name counts. *)
Definition get (k : string) (j : json) : option json :=
  match j with
  | JObject fields => snd <$> find (fun f => bool_decide (f.1 = k)) (rev fields)
  | _ => None
  end.
Definition index (k : string) (j : json) : json := default JNull (get k j).

Definition json_is (s : string) (j : json) : bool := match j with JString t => bool_decide (t = s) | _ => false end.
Definition as_array (j : json) : option (list json) := match j with JArray l => Some l | _ => None end.

Definition exclusion_match (expr : json) : bool :=
  let condition := index "match" expr in
  json_is "ether" (index "protocol" (index "payload" (index "left" condition)))
  && json_is "saddr" (index "field" (index "payload" (index "left" condition)))
  && json_is "@device_exclusions" (index "right" condition)
  && (json_is "==" (index "op" condition) || json_is "in" (index "op" condition)).

Definition has_exclusion_return (entries : list json) (chain : string) : bool :=
  existsb (fun entry =>
    let rule := index "rule" entry in
    json_is chain (index "chain" rule)
    && match as_array (index "expr" rule) with
       | Some expressions =>
           existsb (fun expr => bool_decide (is_Some (get "return" expr))) expressions && existsb exclusion_match expressions
       | None => false
       end) entries.

Definition is_routing_table (entry : json) : bool :=
  json_is "inet" (index "family" (index "table" entry)) && json_is TABLE (index "name" (index "table" entry)).

Definition is_exclusion_set (entry : json) : bool :=
  json_is "device_exclusions" (index "name" (index "set" entry)) && json_is "ether_addr" (index "type" (index "set" entry)).

Definition is_dns_rule (entry : json) : bool := json_is "gofro_dns" (index "chain" (index "rule" entry)).

(** Whether the table in the kernel can honour the exclusions; [has_set] when it can. *)
Definition inspect_table (exclusions : list mac_address) (table : json) : result bool :=
  entries ← ok_or (as_array (index "nftables" table)) "invalid nft table";
  ensure (bool_decide (exclusions = [])
          || (has_exclusion_return entries "gofro_mark" && (negb (existsb is_dns_rule entries) || has_exclusion_return entries "gofro_dns")))
    "routing table lacks device bypass rules; full routing repair required" ;;
  Ok (existsb is_exclusion_set entries).

(** ** The order of the start *)

Inductive initialization :=
| LoadGeoData
| CompileRouting
| OpenFakeDns
| EnsureTls
| OpenAuth
| BindDns
| BindHealth
| BindHttp
| BindHttps
| ReadTls.

Class Boot (sys : Type) := {
  nft : string -> sys -> sys * result unit;
  (* what the two listings of nft print *)
  list_tables : sys -> sys * result json;
  list_routing_table : sys -> sys * result json;
  lock_apply_path : sys -> sys * result unit;
  load_committed : sys -> sys * result controller_config;
  sync_committed : sys -> sys * result unit;
  cleanup_dns_flows_on : string -> Z -> sys -> sys * result unit;
  initialize : initialization -> sys -> sys * result unit;
}.

Section Startup.
Context {net : Type} `{Ipnet net} {sys : Type} `{Boot sys}.

#[local] Notation M := (eff sys error).

Definition ask {A} (f : sys -> sys * result A) : M A := fun s =>
  match f s with (s, Ok x) => (s, inr x) | (s, Err e) => (s, inl e) end.

Definition install_guard (lan : lan_context net) (exclusions : list mac_address) : M unit :=
  ask (nft (render_guard_with_exclusions lan exclusions)).

Definition synchronize (lan : lan_context net) (exclusions : list mac_address) : M unit :=
  tables ← ask list_tables;
  entries ← of_result (ok_or (as_array (index "nftables" tables)) "invalid nft tables");
  if existsb is_routing_table entries then
    table ← ask list_routing_table;
    has_set ← of_result (inspect_table exclusions table);
    script ← of_result (render_startup lan exclusions true has_set);
    ask (nft script)
  else
    script ← of_result (render_startup lan exclusions false false);
    ask (nft script).

Definition synchronize_startup (lan : lan_context net) (exclusions : list mac_address) : M unit :=
  outcome ← try (synchronize lan exclusions);
  match outcome with
  | Ok _ => mret tt
  | Err e => install_guard lan [] ;; throw e
  end.

(** The steps of [run] up to the servers and [reconcile_locked], whose failure is only logged. *)
Definition prepare (a : args net) : M (settings net * controller_config) :=
  s ← of_result (check_args a);
  let lan := set_lan s in
  ask lock_apply_path ;;
  loaded ← try (ask load_committed);
  config ← match loaded with
           | Ok config => mret config
           | Err e => contextual "failed to protect LAN forwarding" (install_guard lan []) ;; throw e
           end;
  synced ← try (ask sync_committed);
  match synced with
  | Ok _ => mret tt
  | Err e => install_guard lan [] ;; throw e
  end ;;
  synchronize_startup lan (device_exclusions config) ;;
  ask (cleanup_dns_flows_on (lan_device lan) (dns_listen s).2) ;;
  ask (initialize LoadGeoData) ;;
  ask (initialize CompileRouting) ;;
  ask (initialize OpenFakeDns) ;;
  ask (initialize EnsureTls) ;;
  ask (initialize OpenAuth) ;;
  ask (initialize BindDns) ;;
  ask (initialize BindHealth) ;;
  ask (initialize BindHttp) ;;
  ask (initialize BindHttps) ;;
  ask (initialize ReadTls) ;;
  mret (s, config).
End Startup.

(** ** What the start guarantees *)

(** An nft transaction that fails changes nothing, the guard is up after its table was written, and nothing else touches it. *)
Class BootLaws (net : Type) `{Ipnet net} (sys : Type) `{Boot sys} (guard_up : sys -> bool) := {
  boot_nft_failed script s s' e : nft script s = (s', Err e) -> guard_up s' = guard_up s;
  boot_nft_guard (lan : lan_context net) l s s' : nft (render_guard_with_exclusions lan l) s = (s', Ok tt) -> guard_up s' = true;
  boot_nft_publish (lan : lan_context net) l s s' : nft (render_publish_exclusions lan l) s = (s', Ok tt) -> guard_up s' = true;
  boot_tables s : guard_up (list_tables s).1 = guard_up s;
  boot_table s : guard_up (list_routing_table s).1 = guard_up s;
  boot_lock s : guard_up (lock_apply_path s).1 = guard_up s;
  boot_load s : guard_up (load_committed s).1 = guard_up s;
  boot_sync s : guard_up (sync_committed s).1 = guard_up s;
  boot_flows device port s : guard_up (cleanup_dns_flows_on device port s).1 = guard_up s;
  boot_initialize i s : guard_up (initialize i s).1 = guard_up s;
}.

Section Safety.
Context {net : Type} `{Ipnet net} {sys : Type} `{Boot sys} (guard_up : sys -> bool) `{!BootLaws net sys guard_up}.

#[local] Notation M := (eff sys error).

Lemma ask_run {A} (f : sys -> sys * result A) s s' r : ask f s = (s', r) ->
  exists a, f s = (s', a) /\ r = match a with Ok x => inr x | Err e => inl e end.
Proof. unfold ask. destruct (f s) as [s1 [x | e]]; intros [= <- <-]; by eexists. Qed.

Lemma startup_script_guards (lan : lan_context net) exclusions t h script s s' :
  render_startup lan exclusions t h = Ok script -> nft script s = (s', Ok tt) -> guard_up s' = true.
Proof.
  unfold render_startup. destruct (t && h); [intros [= <-]; apply boot_nft_publish |]. intros (_ & _ & [= <-])%bind_ok. apply boot_nft_guard.
Qed.

Lemma synchronize_run (lan : lan_context net) exclusions s s' r : synchronize lan exclusions s = (s', r) -> r = inr tt -> guard_up s' = true.
Proof.
  intros Hr ->. unfold synchronize in Hr. apply bind_run in Hr as [(? & _ & [=]) | (s1 & t & _ & Hr)].
  apply bind_run in Hr as [(? & _ & [=]) | (s2 & l & _ & Hr)]. destruct (existsb _ l).
  - apply bind_run in Hr as [(? & _ & [=]) | (s3 & table & _ & Hr)]. apply bind_run in Hr as [(? & _ & [=]) | (s4 & h & _ & Hr)].
    apply bind_run in Hr as [(? & _ & [=]) | (s5 & script & [-> Hs]%of_result_answer & Hr)].
    apply ask_run in Hr as ([[] | e] & Hn & [=]). by eapply startup_script_guards.
  - apply bind_run in Hr as [(? & _ & [=]) | (s5 & script & [-> Hs]%of_result_answer & Hr)].
    apply ask_run in Hr as ([[] | e] & Hn & [=]). by eapply startup_script_guards.
Qed.

(** The guard is up, or nft has just refused to write it. *)
Definition closed_or_refused (lan : lan_context net) (s' : sys) : Prop :=
  guard_up s' = true \/ exists s e, nft (render_guard_with_exclusions lan []) s = (s', Err e).

Lemma guarded_throw {A} (lan : lan_context net) (f : M unit -> M unit) e s s' (r : error + A) :
  (forall s s' r, f (install_guard lan []) s = (s', r) -> exists a, nft (render_guard_with_exclusions lan []) s = (s', a) /\ (r = inr tt -> a = Ok tt)) ->
  (f (install_guard lan []) ;; throw e) s = (s', r) -> (exists e', r = inl e') /\ closed_or_refused lan s'.
Proof.
  intros Hf [(e' & Hg & ->) | (s1 & [] & Hg & [= <- <-])]%bind_run.
  - split; [by eexists |]. apply Hf in Hg as ([[] | x] & Hn & _); [left; by eapply boot_nft_guard | right; eauto].
  - split; [by eexists |]. apply Hf in Hg as (a & Hn & Ha). left. rewrite Ha in Hn by done. by eapply boot_nft_guard.
Qed.

Lemma install_guard_run (lan : lan_context net) s s' r : install_guard lan [] s = (s', r) ->
  exists a, nft (render_guard_with_exclusions lan []) s = (s', a) /\ (r = inr tt -> a = Ok tt).
Proof. intros (a & Hn & ->)%ask_run. exists a. split; [done |]. destruct a as [[] |]; by intros [=]. Qed.

Lemma contextual_guard_run m (lan : lan_context net) s s' r : contextual m (install_guard lan []) s = (s', r) ->
  exists a, nft (render_guard_with_exclusions lan []) s = (s', a) /\ (r = inr tt -> a = Ok tt).
Proof.
  intros (x & (a & Hn & Ha)%install_guard_run & Hx)%contextual_run. exists a. split; [done |]. intros ->. destruct x; [done |]. simplify_eq. by apply Ha.
Qed.

Lemma synchronize_startup_run (lan : lan_context net) exclusions s s' r :
  synchronize_startup lan exclusions s = (s', r) -> closed_or_refused lan s' /\ (r = inr tt -> guard_up s' = true).
Proof.
  unfold synchronize_startup. intros [(e & [(? & _ & [=]) | (? & _ & [=])]%try_run & _) | (s1 & o & Ho & Hr)]%bind_run.
  apply try_run in Ho as [([] & Hs & [= ->]) | (e & _ & [= ->])].
  - injection Hr as <- <-. apply synchronize_run in Hs; [| done]. split; [by left | done].
  - apply (guarded_throw _ (fun m => m)) in Hr as [[e' ->] Hc]; [by split | apply install_guard_run].
Qed.

(** What leaves the guard alone. *)
Definition same_guard (s s' : sys) : Prop := guard_up s' = guard_up s.

#[local] Instance same_guard_preorder : PreOrder same_guard.
Proof. split; [by intros s | intros s1 s2 s3; unfold same_guard; congruence]. Qed.

Lemma ask_same {A} (f : sys -> sys * result A) : (forall s, guard_up (f s).1 = guard_up s) -> preserves same_guard (ask f).
Proof. intros Hf s s' r (a & Ha & _)%ask_run. specialize (Hf s). by rewrite Ha in Hf. Qed.

(** C18. The start fails closed: a command line that is refused touches nothing; once the lock is taken, every
    way the start can end - the configuration does not load or sync, the routing table cannot honour the saved
    exclusions, geodata, FakeDNS, the certificate, the credentials or a socket fail - leaves forwarding blocked
    by the guard, unless nft itself refused the guard's transaction, and a start that succeeds goes on to
    reconcile with the guard still up. *)
Theorem startup_fails_closed a s s' r : prepare a s = (s', r) ->
  match check_args a with
  | Err e => s' = s /\ r = inl e
  | Ok st => (exists e, lock_apply_path s = (s', Err e)) \/ closed_or_refused (set_lan st) s' /\ ((exists x, r = inr x) -> guard_up s' = true)
  end.
Proof.
  unfold prepare. intros [(e & [-> ->]%of_result_answer & ->) | (s1 & st & [-> ->]%of_result_answer & Hr)]%bind_run; [done |].
  cbv zeta in Hr. apply bind_run in Hr as [(e & ([[] | x] & Hl & [= ->])%ask_run & ->) | (s1 & [] & Hl & Hr)]; [left; eauto | right].
  apply bind_run in Hr as [(e & [(? & _ & [=]) | (? & _ & [=])]%try_run & _) | (s2 & loaded & _ & Hr)].
  apply bind_run in Hr as [(e & Hc & ->) | (s3 & config & Hc & Hr)]; destruct loaded as [c | le].
  { done. }
  { apply (guarded_throw _ (contextual _)) in Hc as [_ Hc]; [split; [exact Hc | by intros [? [=]]] | apply contextual_guard_run]. }
  2: { apply (guarded_throw _ (contextual _)) in Hc as [[? [=]] _]. apply contextual_guard_run. }
  apply bind_run in Hr as [(e & [(? & _ & [=]) | (? & _ & [=])]%try_run & _) | (s4 & synced & _ & Hr)].
  apply bind_run in Hr as [(e & Hg & ->) | (s5 & [] & Hg & Hr)]; destruct synced as [[] | se].
  { done. }
  { apply (guarded_throw _ (fun m => m)) in Hg as [_ Hg]; [split; [exact Hg | by intros [? [=]]] | apply install_guard_run]. }
  2: { apply (guarded_throw _ (fun m => m)) in Hg as [[? [=]] _]. apply install_guard_run. }
  apply bind_run in Hr as [(e & Hs & ->) | (s6 & [] & Hs & Hr)]; apply synchronize_startup_run in Hs as [Hcl Hup]; [split; [exact Hcl | by intros [? [=]]] |].
  specialize (Hup eq_refl). assert (same_guard s6 s') as Hsame.
  { revert Hr. apply (preserves_kept same_guard). preserved; apply ask_same; [apply (boot_flows (net := net)) | apply (boot_initialize (net := net)) ..]. }
  unfold same_guard in Hsame. rewrite Hup in Hsame. split; [by left | done].
Qed.
End Safety.

(** ** A router whose routing table is of an old kind *)

Module SampleBoot.
Record router := Router { closed : bool; table : json; fails : option initialization }.

#[export] Instance initialization_eq_dec : EqDecision initialization.
Proof. solve_decision. Defined.

Definition old_table : json :=
  JObject [("nftables", JArray [JObject [("set", JObject [("name", JString "device_exclusions"); ("type", JString "ether_addr")])]])]%string.

#[global] Instance boot : Boot router := {|
  nft script s := (Router true (table s) (fails s), Ok tt);
  list_tables s := (s, Ok (JObject [("nftables", JArray [JObject [("table", JObject [("family", JString "inet"); ("name", JString TABLE)])]])]%string));
  list_routing_table s := (s, Ok (table s));
  lock_apply_path s := (s, Ok tt);
  load_committed s := (s, Ok (ControllerConfig false [[2; 0; 0; 0; 0; 1]] false None [] routing_default));
  sync_committed s := (s, Ok tt);
  cleanup_dns_flows_on _ _ s := (s, Ok tt);
  initialize i s := (s, if bool_decide (fails s = Some i) then Err (Msg "no such file") else Ok tt);
|}.

#[global] Instance boot_laws : BootLaws PrefixNet.t router closed.
Proof.
  split; [by intros script s s' e [=] | by intros lan l s s' [= <-] | by intros lan l s s' [= <-] | ..]; by intros.
Qed.

Definition line (lan : Z) : args PrefixNet.t :=
  Args (V4 (RustStd.ipv4 127 0 0 1), 8080) (V4 lan, 8081) (V4 lan, 8443) "gt0" (Some "br-lan"%string)
    (PrefixNet.make (RustStd.ipv4 192 168 1 0) 24) None None.
End SampleBoot.

Definition lan_of (address subnet : Z) (len : Z) : option (lan_context PrefixNet.t) :=
  LanContext "br-home" address <$> PrefixNet.make subnet len.

(** The test of main.rs. *)
Example lan_requires_a_usable_non_reserved_host :
  forallb (fun '(a, n, l) => match lan_of a n l with Some lan => negb (is_ok (validate_lan lan)) | None => false end)
    [(RustStd.ipv4 0 0 0 0, RustStd.ipv4 0 0 0 0, 32); (RustStd.ipv4 127 0 0 1, RustStd.ipv4 127 0 0 0, 8);
     (RustStd.ipv4 224 0 0 1, RustStd.ipv4 224 0 0 0, 24); (RustStd.ipv4 192 168 4 0, RustStd.ipv4 192 168 4 0, 24);
     (RustStd.ipv4 192 168 4 255, RustStd.ipv4 192 168 4 0, 24); (RustStd.ipv4 10 202 0 1, RustStd.ipv4 10 202 0 0, 24)] = true /\
  (validate_lan <$> lan_of (RustStd.ipv4 192 168 4 1) (RustStd.ipv4 192 168 4 0) 24) = Some (Ok tt).
Proof. by vm_compute. Qed.

(** The old table cannot honour the saved exclusions, then the certificate is missing: both starts fail closed. *)
Lemma startup_fails_closed_witness :
  let lan := RustStd.ipv4 192 168 1 1 in
  let tables := JObject [("nftables", JArray [])]%string in
  (let old := prepare (SampleBoot.line lan) (SampleBoot.Router false SampleBoot.old_table None) in
   old.2 = inl (Msg "routing table lacks device bypass rules; full routing repair required") /\ SampleBoot.closed old.1 = true) /\
  (let refused := prepare (SampleBoot.line (RustStd.ipv4 10 0 0 1)) (SampleBoot.Router false tables None) in
   SampleBoot.closed refused.1 = false).
Proof.
  cbv zeta. split; [split; [by vm_compute |] |].
  - destruct (prepare (SampleBoot.line (RustStd.ipv4 192 168 1 1)) _) as [s r] eqn:E. pose proof (startup_fails_closed SampleBoot.closed _ _ _ _ E) as Hr.
    destruct (check_args _) as [st | e] eqn:Ec; [| by vm_compute in Ec]. destruct Hr as [[e [=]] | [[Hup | (s1 & e & [=])] _]]. exact Hup.
  - destruct (prepare (SampleBoot.line (RustStd.ipv4 10 0 0 1)) _) as [s r] eqn:E. pose proof (startup_fails_closed SampleBoot.closed _ _ _ _ E) as Hr.
    destruct (check_args _) as [st | e] eqn:Ec; [by vm_compute in Ec |]. destruct Hr as [-> _]. done.
Defined.
