(* ===== verification/DnsServer.v ===== *)
(** * The FakeDNS server (crates/gofro-agent/src/fake_dns/server.rs)

    Datagrams and streams share the permits of the workers, streams have permits
    of their own; who has no permit is refused at once.  The tasks of the server
    interleave at their awaits: each is a step of a relation.  What answers a
    packet is the interface [Answers], which the resolver of Resolver.v implements. *)

From stdpp Require Import base gmap strings list.
From Stdlib Require Import Ascii ZArith Lia.
From S2P Require Import Prelude RustStd Effects IpAddr Net Model Stats GeoWire GeoData Config Routing Dataplane FakeStore Resolver Startup.

(** [FakeDns::process], [failure_response] and [FakeDns::purge_expired]; [None] is a panic. *)
Class Answers (dns : Type) := {
  resolve : list Z -> dns -> option (dns * result (list Z));
  refuse : list Z -> list Z;
  purge : dns -> dns;
}.

(** The resolver of the agent with the policy of the moment behind it. *)
Section Resolver.
Context {net : Type} `{Ipnet net} {rx : Type} (rx_is_match : rx -> string -> bool).
Context (to_lowercase : string -> string) (domain_to_ascii : string -> option string).
Context {record : Type} `{DnsRecord record} {db : Type} `{FakeTable db} (clock : nat -> result Z).
Context {kernel : Type} (nft : string -> kernel -> kernel * result unit).
Context {msg query : Type} `{DnsMessage msg query record} `{EqDecision query} (ask : list Z -> upstream -> Z -> result (list Z)).
Context (up : upstream) (lan : lan_context net).

Definition resolver_answers : Answers (routing_policy (net := net) (rx := rx) * fake_dns (db := db) (kernel := kernel)) := {|
  resolve packet d :=
    '(dns, answer) ← Resolver.process rx_is_match to_lowercase domain_to_ascii clock nft ask packet d.1 up lan d.2;
    Some ((d.1, dns), answer);
  refuse := failure_response;
  purge d := (d.1, (purge_expired nft (clock 0%nat) d.2).1);
|}.
End Resolver.

(** ** The sockets *)

Inductive socket_call :=
| NewSocket (stream : bool)
| OnlyV6 (on : bool)
| BindDevice (device : string)
| ReuseAddress
| Nonblocking
| BindWildcard (port : Z)
| ReceivePacketInfo (version : Z)
| Listen (backlog : Z)
| Register (stream : bool).

(** The wildcard address is bound only after the socket is restricted to the device. *)
Definition bind_calls (device : string) (port : Z) (stream : bool) : list socket_call :=
  [NewSocket stream; OnlyV6 false; BindDevice device] ++ (if stream then [ReuseAddress] else []) ++ [Nonblocking; BindWildcard port].

Fixpoint socket_calls (perform : socket_call -> result unit) (l : list socket_call) : result unit :=
  match l with
  | [] => Ok tt
  | c :: l => perform c ;; socket_calls perform l
  end.

Definition bind_lan_sockets {net : Type} `{Ipnet net} (perform : socket_call -> result unit) (listen : socket_addr) (lan : lan_context net) : result unit :=
  validate_lan lan ;;
  ensure (bool_decide (listen.1 = V4 (lan_address lan))) "FakeDNS must listen on the LAN IPv4 address" ;;
  socket_calls perform (bind_calls (lan_device lan) listen.2 false ++ [ReceivePacketInfo 4; ReceivePacketInfo 6]
    ++ bind_calls (lan_device lan) listen.2 true ++ [Listen 128; Register false; Register true]).

Definition TCP_READ_TIMEOUT : Z := 5.
Definition TCP_WRITE_TIMEOUT : Z := 5.

(** ** Datagrams *)

(** [in_pktinfo], [in6_pktinfo] and the control messages of [recvmsg] *)
Record in_pktinfo := InPktinfo { ipi_ifindex : Z; ipi_spec_dst : Z; ipi_addr : Z }.
Record in6_pktinfo := In6Pktinfo { ipi6_addr : Z; ipi6_ifindex : Z }.

Inductive packet_info := V4Info (info : in_pktinfo) | V6Info (info : in6_pktinfo).
Inductive control := Ipv4PacketInfo (info : in_pktinfo) | Ipv6PacketInfo (info : in6_pktinfo) | OtherControl.

Record udp_reply := UdpReply { peer : Z * Z; source : packet_info }.

Record message := ReceivedMessage {
  truncated : bool;
  address : option (Z * Z);
  cmsgs : list control;
  payload : list Z;
}.

(** [to_ipv4_mapped().is_some()] *)
Definition is_mapped (ip : Z) : bool := Z.shiftr ip 32 =? 0xffff.

Definition take_control (mapped : bool) (source : option packet_info) (c : control) : option packet_info :=
  match c with
  | Ipv4PacketInfo info => if mapped then Some (V4Info (InPktinfo (ipi_ifindex info) (ipi_addr info) (ipi_addr info))) else source
  | Ipv6PacketInfo info => if negb mapped then Some (V6Info info) else source
  | OtherControl => source
  end.

Definition recv_datagram (m : message) : result (list Z * udp_reply) :=
  if truncated m then Err (Msg "truncated DNS datagram or packet info")
  else
    peer ← ok_or (address m) "DNS datagram has no peer";
    source ← ok_or (foldl (take_control (is_mapped peer.1)) None (cmsgs m)) "DNS datagram has no local packet info";
    Ok (payload m, UdpReply peer source).

(** ** Frames *)

Definition length_prefix (n : Z) : list Z := [Z.shiftr n 8; Z.land n 0xff].

Definition frame (packet : list Z) : list Z := length_prefix (Z.of_nat (length packet)) ++ packet.

(** How many bytes [read_u16] and [read_exact] still wait for. *)
Definition missing (read : list Z) : nat :=
  match read with
  | a :: b :: packet => Z.to_nat (Z.lor (Z.shiftl a 8) b) - length packet
  | _ => 2 - length read
  end.

(** The packet of a frame that is read to its end; the two bytes of the length alone end a frame only when it is empty. *)
Definition whole_frame (read : list Z) : option (list Z) :=
  match read with
  | a :: b :: packet => if (missing read =? 0)%nat then Some packet else None
  | _ => None
  end.

(** ** The state *)

(** A stream: its frame is read, its request is at a worker, its response is written. *)
Inductive stage :=
| Reading (read : list Z) (deadline : Z)
| AtWorker (packet : list Z)
| Writing (left_ : list Z) (deadline : Z).

Record connection := Connection {
  at_stage : stage;
  (* what arrived and is not read *)
  inbox : list Z;
  (* all that was read, all that was written, and the requests with their responses *)
  taken : list Z;
  written : list Z;
  exchanges : list (list Z * list Z);
}.

Record server (dns : Type) := Server {
  backend : dns;
  (* a lock of the policy or of the updates is poisoned *)
  poisoned : bool;
  workers : Z;
  tcp_connections : Z;
  jobs : gmap Z (udp_reply * list Z);
  streams : gmap Z connection;
  clock : Z;
  active : bool;
  (* the requests, what was sent for which of them, and those whose worker panicked *)
  requests : list (udp_reply * list Z);
  sent : list (udp_reply * list Z * list Z);
  lost : list (udp_reply * list Z);
}.
Arguments Server {dns}.
Arguments backend {dns}.
Arguments poisoned {dns}.
Arguments workers {dns}.
Arguments tcp_connections {dns}.
Arguments jobs {dns}.
Arguments streams {dns}.
Arguments clock {dns}.
Arguments active {dns}.
Arguments requests {dns}.
Arguments sent {dns}.
Arguments lost {dns}.

Section Server.
Context {dns : Type} `{Answers dns}.

#[local] Notation server := (server dns).

(** ** Changes of single fields *)

Definition set_workers (n : Z) (s : server) : server :=
  Server (backend s) (poisoned s) n (tcp_connections s) (jobs s) (streams s) (clock s) (active s) (requests s) (sent s) (lost s).
Definition set_tcp_connections (n : Z) (s : server) : server :=
  Server (backend s) (poisoned s) (workers s) n (jobs s) (streams s) (clock s) (active s) (requests s) (sent s) (lost s).
Definition set_jobs (j : gmap Z (udp_reply * list Z)) (s : server) : server :=
  Server (backend s) (poisoned s) (workers s) (tcp_connections s) j (streams s) (clock s) (active s) (requests s) (sent s) (lost s).
Definition set_streams (c : gmap Z connection) (s : server) : server :=
  Server (backend s) (poisoned s) (workers s) (tcp_connections s) (jobs s) c (clock s) (active s) (requests s) (sent s) (lost s).
Definition set_backend (d : dns) (s : server) : server :=
  Server d (poisoned s) (workers s) (tcp_connections s) (jobs s) (streams s) (clock s) (active s) (requests s) (sent s) (lost s).
Definition set_clock (t : Z) (s : server) : server :=
  Server (backend s) (poisoned s) (workers s) (tcp_connections s) (jobs s) (streams s) t (active s) (requests s) (sent s) (lost s).
Definition set_active (b : bool) (s : server) : server :=
  Server (backend s) (poisoned s) (workers s) (tcp_connections s) (jobs s) (streams s) (clock s) b (requests s) (sent s) (lost s).
Definition set_poisoned (s : server) : server :=
  Server (backend s) true (workers s) (tcp_connections s) (jobs s) (streams s) (clock s) (active s) (requests s) (sent s) (lost s).
Definition log_request (r : udp_reply * list Z) (s : server) : server :=
  Server (backend s) (poisoned s) (workers s) (tcp_connections s) (jobs s) (streams s) (clock s) (active s) (requests s ++ [r]) (sent s) (lost s).
Definition log_lost (r : udp_reply * list Z) (s : server) : server :=
  Server (backend s) (poisoned s) (workers s) (tcp_connections s) (jobs s) (streams s) (clock s) (active s) (requests s) (sent s) (lost s ++ [r]).
Definition send_datagram (reply : udp_reply) (packet response : list Z) (s : server) : server :=
  Server (backend s) (poisoned s) (workers s) (tcp_connections s) (jobs s) (streams s) (clock s) (active s) (requests s) (sent s ++ [(reply, packet, response)]) (lost s).

(** A server that was bound with its limits and runs. *)
Definition started (d : dns) (limits : resource_limits) : server :=
  Server d false (dns_workers limits) (dns_tcp_connections limits) ∅ ∅ 0 true [] [] [].

(** [Server::process]; [None] is a panic *)
Definition process (packet : list Z) (s : server) : option (dns * list Z) :=
  if poisoned s then Some (backend s, refuse packet)
  else match resolve packet (backend s) with
       | None => None
       | Some (d, Ok response) => Some (d, response)
       | Some (d, Err _) => Some (d, refuse packet)
       end.

(** [try_acquire_owned] on the permits of the workers *)
Definition take_worker (s : server) : option server := if 0 <? workers s then Some (set_workers (workers s - 1) s) else None.
Definition release_worker (s : server) : server := set_workers (workers s + 1) s.

(** ** Datagrams *)

Definition serve_udp (packet : list Z) (reply : udp_reply) (s : server) : server :=
  let s := log_request (reply, packet) s in
  match take_worker s with
  | None => send_datagram reply packet (refuse packet) s
  | Some s => set_jobs (<[fresh (dom (jobs s)) := (reply, packet)]> (jobs s)) s
  end.

(** The worker of a datagram ends; its permit is given back before the response is sent. *)
Definition finish_udp (id : Z) (s : server) : option server :=
  '(reply, packet) ← jobs s !! id;
  let rest := set_jobs (delete id (jobs s)) (release_worker s) in
  match process packet s with
  | Some (d, response) => Some (send_datagram reply packet response (set_backend d rest))
  | None => Some (log_lost (reply, packet) rest)
  end.

(** ** Streams *)

Definition accept (s : server) : server :=
  if 0 <? tcp_connections s
  then set_streams (<[fresh (dom (streams s)) := Connection (Reading [] (clock s + TCP_READ_TIMEOUT)) [] [] [] []]> (streams s))
         (set_tcp_connections (tcp_connections s - 1) s)
  else s.

Definition set_stream (id : Z) (c : connection) (s : server) : server := set_streams (<[id := c]> (streams s)) s.

(** A task that ends gives its permit back. *)
Definition close (id : Z) (s : server) : server := set_tcp_connections (tcp_connections s + 1) (set_streams (delete id (streams s)) s).

Definition arrive (id : Z) (bytes : list Z) (s : server) : option server :=
  c ← streams s !! id;
  Some (set_stream id (Connection (at_stage c) (inbox c ++ bytes) (taken c) (written c) (exchanges c)) s).

(** The response of a request begins to be written; one that is too large ends the stream. *)
Definition respond (id : Z) (c : connection) (packet response : list Z) (s : server) : server :=
  if Z.of_nat (length response) <? 2 ^ 16
  then set_stream id (Connection (Writing (frame response) (clock s + TCP_WRITE_TIMEOUT)) (inbox c) (taken c) (written c)
         (exchanges c ++ [(packet, response)])) s
  else close id s.

(** At most [n] bytes of what arrived are read; the last byte of a frame brings its request to a worker. *)
Definition read_some (id : Z) (n : nat) (s : server) : option server :=
  c ← streams s !! id;
  match at_stage c with
  | Reading read deadline =>
      let bytes := take (min n (missing read)) (inbox c) in
      let read := read ++ bytes in
      let c := Connection (Reading read deadline) (drop (length bytes) (inbox c)) (taken c ++ bytes) (written c) (exchanges c) in
      Some match whole_frame read with
           | None => set_stream id c s
           | Some packet =>
               match take_worker s with
               | Some s => set_stream id (Connection (AtWorker packet) (inbox c) (taken c) (written c) (exchanges c)) s
               | None => respond id c packet (refuse packet) s
               end
           end
  | _ => None
  end.

Definition finish_tcp (id : Z) (s : server) : option server :=
  c ← streams s !! id;
  match at_stage c with
  | AtWorker packet =>
      Some match process packet s with
           | Some (d, response) => respond id c packet response (set_backend d (release_worker s))
           | None => close id (release_worker s)
           end
  | _ => None
  end.

(** At most [n] bytes are written; after the last the next frame is awaited. *)
Definition write_some (id : Z) (n : nat) (s : server) : option server :=
  c ← streams s !! id;
  match at_stage c with
  | Writing left_ deadline =>
      let left' := drop n left_ in
      Some (set_stream id (Connection
        (match left' with [] => Reading [] (clock s + TCP_READ_TIMEOUT) | _ => Writing left' deadline end)
        (inbox c) (taken c) (written c ++ take n left_) (exchanges c)) s)
  | _ => None
  end.

(** The end of the input, an error of the socket or the deadline ends a stream that reads or writes. *)
Definition hang_up (id : Z) (s : server) : option server :=
  c ← streams s !! id;
  match at_stage c with
  | AtWorker _ => None
  | _ => Some (close id s)
  end.

Definition expire (id : Z) (s : server) : option server :=
  c ← streams s !! id;
  match at_stage c with
  | Reading _ deadline | Writing _ deadline => if deadline <=? clock s then Some (close id s) else None
  | AtWorker _ => None
  end.

(** ** The steps of the tasks, in any order *)

Inductive step : server -> server -> Prop :=
| step_datagram m packet reply s : active s = true -> recv_datagram m = Ok (packet, reply) -> step s (serve_udp packet reply s)
| step_receive_failed s : step s (set_active false s)
| step_finish_udp id s s' : finish_udp id s = Some s' -> step s s'
| step_accept s : active s = true -> step s (accept s)
| step_arrive id bytes s s' : Forall (is_u 8) bytes -> arrive id bytes s = Some s' -> step s s'
| step_read id n s s' : read_some id n s = Some s' -> step s s'
| step_finish_tcp id s s' : finish_tcp id s = Some s' -> step s s'
| step_write id n s s' : write_some id n s = Some s' -> step s s'
| step_hang_up id s s' : hang_up id s = Some s' -> step s s'
| step_expire id s s' : expire id s = Some s' -> step s s'
| step_clock t s : clock s <= t -> step s (set_clock t s)
| step_purge s : step s (set_backend (purge (backend s)) s)
| step_change d s : step s (set_backend d s)
| step_poison s : step s (set_poisoned s).

Definition reachable (d : dns) (limits : resource_limits) : server -> Prop := rtc step (started d limits).
End Server.

(** ** What holds of every run *)

Definition busy (c : connection) : bool := match at_stage c with AtWorker _ => true | _ => false end.

Definition busy_streams (m : gmap Z connection) : nat := size (filter (fun x => busy x.2 = true) m).

Definition one (b : bool) : nat := if b then 1 else 0.

Lemma busy_delete m id c : m !! id = Some c -> busy_streams m = (busy_streams (delete id m) + one (busy c))%nat.
Proof.
  intros Hc. unfold busy_streams. rewrite map_filter_delete. destruct (busy c) eqn:Hb; cbn.
  - assert (filter (fun x => busy x.2 = true) m !! id = Some c) as Hf by by apply map_lookup_filter_Some.
    rewrite map_size_delete, Hf. assert (size (filter (fun x : Z * connection => busy x.2 = true) m) <> 0%nat); [| lia].
    intros H0%map_size_empty_inv. by rewrite H0 in Hf.
  - rewrite delete_id; [lia |]. apply map_lookup_filter_None. right. intros c' Hc'. cbn. congruence.
Qed.

Lemma busy_insert m id c : busy_streams (<[id := c]> m) = (busy_streams (delete id m) + one (busy c))%nat.
Proof.
  rewrite (busy_delete _ id c) by apply lookup_insert_eq. by rewrite delete_insert_eq.
Qed.

Lemma busy_fresh m id : m !! id = None -> busy_streams (delete id m) = busy_streams m.
Proof. intros Hm. by rewrite delete_id. Qed.

Lemma size_present {A} (m : gmap Z A) id x : m !! id = Some x -> size m = S (size (delete id m)).
Proof. intros Hx. rewrite map_size_delete, Hx. assert (size m <> 0%nat); [| lia]. intros H0%map_size_empty_inv. by rewrite H0 in Hx. Qed.

(** ** Frames are read exactly *)

Lemma two_bytes a b : is_u 8 a -> is_u 8 b -> length_prefix (Z.lor (Z.shiftl a 8) b) = [a; b].
Proof.
  intros Ha Hb. unfold length_prefix. assert (Z.lor (Z.shiftl a 8) b = a * 2 ^ 8 + b) as ->.
  { rewrite Z.lor_comm, lor_shiftl; unfold is_u in *; lia. }
  rewrite Z.shiftr_div_pow2 by lia. change 0xff with (Z.ones 8). rewrite Z.land_ones by lia. unfold is_u in *. f_equal; [| f_equal].
  - symmetry. apply Z.div_unique with b; lia.
  - symmetry. apply Z.mod_unique with a; lia.
Qed.

(** The last bytes of a frame are taken and no more. *)
Lemma read_whole_frame read bytes packet :
  Forall (is_u 8) read -> Forall (is_u 8) bytes -> whole_frame read = None -> (length bytes <= missing read)%nat ->
  whole_frame (read ++ bytes) = Some packet -> read ++ bytes = frame packet.
Proof.
  intros Hr Hb Hnone Hlen Hw. assert (Forall (is_u 8) (read ++ bytes)) as Hall by by apply Forall_app.
  destruct (read ++ bytes) as [| a [| b l]] eqn:E; [done.. |]. cbn in Hw. destruct (_ - _ =? 0)%nat eqn:Hm; [| done]. injection Hw as ->.
  apply Nat.eqb_eq in Hm. apply Forall_cons in Hall as [Ha [Hb' _]%Forall_cons]. set (n := Z.lor (Z.shiftl a 8) b) in *.
  assert (length packet <= Z.to_nat n)%nat as Hle.
  { destruct read as [| a0 [| b0 l0]]; cbn in *.
    - subst bytes. cbn in Hlen. lia.
    - injection E as -> ->. cbn in Hlen. lia.
    - injection E as -> -> <-. fold n in Hnone, Hlen. rewrite length_app. destruct (_ - _ =? 0)%nat eqn:H0 in Hnone; [done |]. apply Nat.eqb_neq in H0. lia. }
  unfold frame. assert (Z.of_nat (length packet) = n) as ->; [| unfold n; by rewrite two_bytes].
  assert (0 <= n); [| lia]. unfold n. apply Z.lor_nonneg. unfold is_u in *. split; [apply Z.shiftl_nonneg |]; lia.
Qed.

Section Safety.
Context {dns : Type} `{Answers dns}.

#[local] Notation server := (server dns).

(** What the backend, or the refusal, says to a packet. *)
Definition answers (packet response : list Z) : Prop :=
  response = refuse packet \/ exists d d', resolve packet d = Some (d', Ok response).

Definition stream_ok (now : Z) (c : connection) : Prop :=
  Forall (fun x => answers x.1 x.2) (exchanges c) /\ Forall (is_u 8) (inbox c) /\
  let asked := concat ((fun x => frame x.1) <$> exchanges c) in
  let answered := concat ((fun x => frame x.2) <$> exchanges c) in
  match at_stage c with
  | Reading read deadline =>
      Forall (is_u 8) read /\ taken c = asked ++ read /\ whole_frame read = None /\ written c = answered /\ deadline <= now + TCP_READ_TIMEOUT
  | AtWorker packet => taken c = asked ++ frame packet /\ written c = answered
  | Writing left_ deadline => taken c = asked /\ written c ++ left_ = answered /\ deadline <= now + TCP_WRITE_TIMEOUT
  end.

Record server_ok (limits : resource_limits) (s : server) : Prop := {
  ok_workers : workers s + Z.of_nat (size (jobs s) + busy_streams (streams s)) = dns_workers limits;
  ok_connections : tcp_connections s + Z.of_nat (size (streams s)) = dns_tcp_connections limits;
  ok_free : 0 <= workers s /\ 0 <= tcp_connections s;
  ok_datagrams : requests s ≡ₚ (sent s).*1 ++ lost s ++ (map_to_list (jobs s)).*2;
  ok_sent : Forall (fun x => answers x.1.2 x.2) (sent s);
  ok_streams : map_Forall (fun _ => stream_ok (clock s)) (streams s);
}.

Lemma started_ok d limits : 0 <= dns_workers limits -> 0 <= dns_tcp_connections limits -> server_ok limits (started d limits).
Proof.
  intros Hw Ht. assert (busy_streams ∅ = 0%nat) as Hb by done. split; cbn; rewrite ?Hb, ?map_size_empty, ?map_to_list_empty; try done; lia.
Qed.

Lemma process_answers packet (s : server) d response : process packet s = Some (d, response) -> answers packet response.
Proof.
  unfold process. destruct (poisoned s); [intros [= _ <-]; by left |]. destruct (resolve packet (backend s)) as [[d' [r | e]] |] eqn:E; intros [= <- <-];
    [right; eauto | by left].
Qed.

Lemma serve_udp_ok limits s packet reply : server_ok limits s -> server_ok limits (serve_udp packet reply s).
Proof.
  intros [Hw Hc [Hf1 Hf2] Hd Hs Hm]. unfold serve_udp, take_worker. cbn. destruct (Z.ltb_spec 0 (workers s)); split; cbn; try done.
  - rewrite map_size_insert_None by apply not_elem_of_dom, is_fresh. lia.
  - lia.
  - rewrite map_to_list_insert by apply not_elem_of_dom, is_fresh. cbn. rewrite Hd. solve_Permutation.
  - rewrite Hd, fmap_app. cbn. solve_Permutation.
  - apply Forall_app. split; [done |]. constructor; [by left | done].
Qed.

Lemma finish_udp_ok limits s s' id : server_ok limits s -> finish_udp id s = Some s' -> server_ok limits s'.
Proof.
  intros [Hw Hc [Hf1 Hf2] Hd Hs Hm] ([reply packet] & Hj & Hr)%bind_Some. rewrite <- (map_to_list_delete _ _ _ Hj) in Hd.
  pose proof (size_present _ _ _ Hj).
  destruct (process packet s) as [[d response] |] eqn:E; injection Hr as <-; split; cbn; try done; try lia.
  - rewrite Hd, fmap_app. cbn. solve_Permutation.
  - apply Forall_app. split; [done |]. constructor; [by eapply process_answers | done].
  - rewrite Hd. cbn. solve_Permutation.
Qed.

(** A stream goes on, perhaps with one worker more or less. *)
Lemma stream_on limits s id c c' d w :
  server_ok limits s -> streams s !! id = Some c -> w + Z.of_nat (one (busy c')) = workers s + Z.of_nat (one (busy c)) -> 0 <= w ->
  stream_ok (clock s) c' -> server_ok limits (set_stream id c' (set_backend d (set_workers w s))).
Proof.
  intros [Hw Hc [Hf1 Hf2] Hd Hs Hm] Hid Hsum H0 Hok. split; cbn; try done.
  - rewrite busy_insert. rewrite (busy_delete _ _ _ Hid) in Hw. lia.
  - rewrite map_size_insert, Hid. done.
  - by apply map_Forall_insert_2.
Qed.

(** A stream ends. *)
Lemma stream_off limits s id c d w :
  server_ok limits s -> streams s !! id = Some c -> w = workers s + Z.of_nat (one (busy c)) -> server_ok limits (close id (set_backend d (set_workers w s))).
Proof.
  intros [Hw Hc [Hf1 Hf2] Hd Hs Hm] Hid ->. pose proof (size_present _ _ _ Hid). split; cbn; try done; try lia.
  - rewrite (busy_delete _ _ _ Hid) in Hw. lia.
  - by apply map_Forall_delete.
Qed.

Lemma set_nothing (s : server) : set_backend (backend s) (set_workers (workers s) s) = s.
Proof. by destruct s. Qed.

Lemma set_worker_only (s : server) w : set_backend (backend s) (set_workers w s) = set_workers w s.
Proof. by destruct s. Qed.

(** The response of a request that a worker had, or that was refused. *)
Lemma respond_ok limits s id c0 c packet response d w :
  server_ok limits s -> streams s !! id = Some c0 -> w = workers s + Z.of_nat (one (busy c0)) ->
  answers packet response -> Forall (fun x => answers x.1 x.2) (exchanges c) -> Forall (is_u 8) (inbox c) ->
  taken c = concat ((fun x => frame x.1) <$> exchanges c) ++ frame packet -> written c = concat ((fun x => frame x.2) <$> exchanges c) ->
  server_ok limits (respond id c packet response (set_backend d (set_workers w s))).
Proof.
  intros Hok Hid Hw Ha Hall Hin Ht Hwr. unfold respond. destruct (_ <? _); [| by eapply stream_off].
  eapply stream_on; [done | done | cbn; lia | pose proof (ok_free _ _ Hok); lia |].
  split_and!; cbn; [apply Forall_app; split; [done | by constructor] | done | ..]; try lia.
  all: rewrite !fmap_app, !concat_app. cbn. by rewrite !app_nil_r, ?Ht, ?Hwr.
Qed.

Lemma read_some_ok limits s s' id n : server_ok limits s -> read_some id n s = Some s' -> server_ok limits s'.
Proof.
  intros Hok (c & Hc & Hr)%bind_Some. pose proof (ok_streams _ _ Hok _ _ Hc) as (Hex & Hin & Hst). cbv zeta in Hst.
  destruct (at_stage c) as [read deadline | |] eqn:Es; [| done..].
  destruct Hst as (Hread & Htaken & Hnone & Hwritten & Hdl). injection Hr as <-. assert (busy c = false) as Hbusy by (unfold busy; by rewrite Es).
  set (bytes := take (min n (missing read)) (inbox c)). assert (Forall (is_u 8) bytes) as Hbytes by by apply Forall_take.
  assert (length bytes <= missing read)%nat as Hlen by (unfold bytes; rewrite length_take; lia).
  assert (Forall (is_u 8) (drop (length bytes) (inbox c))) as Hdrop by by apply Forall_drop.
  destruct (whole_frame (read ++ bytes)) as [packet |] eqn:Hw.
  - apply read_whole_frame in Hw; [| done..]. unfold take_worker. destruct (Z.ltb_spec 0 (workers s)) as [Hpos | Hnone'].
    + rewrite <- (set_worker_only s). eapply stream_on; [done | done | rewrite Hbusy; cbn; lia | lia |].
      unfold stream_ok; cbn -[frame]; split_and!; [done.. | | done]. by rewrite Htaken, <- app_assoc, Hw.
    + rewrite <- (set_nothing s) at 1. eapply respond_ok; [done | done | rewrite Hbusy; cbn; lia | by left | done | done | | done].
      cbn -[frame]. by rewrite Htaken, <- app_assoc, Hw.
  - rewrite <- (set_nothing s) at 1. eapply stream_on; [done | done | rewrite Hbusy; cbn; lia | apply Hok |].
    unfold stream_ok; cbn -[frame]; split_and!; [done | done | by apply Forall_app | by rewrite Htaken, <- app_assoc | done | done | done].
Qed.

Lemma finish_tcp_ok limits s s' id : server_ok limits s -> finish_tcp id s = Some s' -> server_ok limits s'.
Proof.
  intros Hok (c & Hc & Hr)%bind_Some. pose proof (ok_streams _ _ Hok _ _ Hc) as (Hex & Hin & Hst). cbv zeta in Hst.
  destruct (at_stage c) as [| packet |] eqn:Es; [done | | done]. destruct Hst as [Htaken Hwritten]. injection Hr as <-.
  assert (busy c = true) as Hbusy by (unfold busy; by rewrite Es). unfold release_worker.
  destruct (process packet s) as [[d response] |] eqn:E.
  - eapply respond_ok; [done | done | by rewrite Hbusy | by eapply process_answers | done..].
  - rewrite <- set_worker_only. eapply stream_off; [done | done | by rewrite Hbusy].
Qed.

Lemma write_some_ok limits s s' id n : server_ok limits s -> write_some id n s = Some s' -> server_ok limits s'.
Proof.
  intros Hok (c & Hc & Hr)%bind_Some. pose proof (ok_streams _ _ Hok _ _ Hc) as (Hex & Hin & Hst). cbv zeta in Hst.
  destruct (at_stage c) as [| | left_ deadline] eqn:Es; [done.. |]. destruct Hst as (Htaken & Hwritten & Hdl). injection Hr as <-.
  assert (busy c = false) as Hbusy by (unfold busy; by rewrite Es). rewrite <- (set_nothing s) at 1.
  eapply stream_on; [done | done | rewrite Hbusy; by destruct (drop n left_) | apply Hok |].
  rewrite <- (take_drop n left_), app_assoc in Hwritten. destruct (drop n left_) as [| x l] eqn:Ed; rewrite ?Ed in *.
  - rewrite app_nil_r in Hwritten. unfold stream_ok; cbn -[frame]; split_and!; rewrite ?app_nil_r; (done || lia).
  - unfold stream_ok; cbn -[frame]; by split_and!.
Qed.

Lemma accept_ok limits s : server_ok limits s -> server_ok limits (accept s).
Proof.
  intros Hok. pose proof Hok as [Hw Hc [Hf1 Hf2] Hd Hs Hm]. unfold accept. destruct (Z.ltb_spec 0 (tcp_connections s)); [| done].
  assert (streams s !! fresh (dom (streams s)) = None) as Hn by apply not_elem_of_dom, is_fresh. split; cbn; try done; try lia.
  - rewrite busy_insert, busy_fresh by done. cbn. by rewrite Nat.add_0_r.
  - rewrite map_size_insert_None by done. lia.
  - apply map_Forall_insert_2; [| done]. split_and!; cbn; try done; constructor.
Qed.

Lemma arrive_ok limits s s' id bytes : Forall (is_u 8) bytes -> server_ok limits s -> arrive id bytes s = Some s' -> server_ok limits s'.
Proof.
  intros Hb Hok (c & Hc & [= <-])%bind_Some. rewrite <- (set_nothing s) at 1. pose proof (ok_streams _ _ Hok _ _ Hc) as (Hex & Hin & Hst).
  eapply stream_on; [done | done | done | apply Hok |]. split_and!; [done | by apply Forall_app | exact Hst].
Qed.

Lemma close_ok limits s id c : server_ok limits s -> streams s !! id = Some c -> busy c = false -> server_ok limits (close id s).
Proof. intros Hok Hc Hb. rewrite <- (set_nothing s) at 1. eapply stream_off; [done | done | rewrite Hb; cbn; lia]. Qed.

Lemma stream_later t t' c : t <= t' -> stream_ok t c -> stream_ok t' c.
Proof. intros Ht (Hex & Hin & Hst). split_and!; [done | done |]. cbv zeta in *. destruct (at_stage c); [| done |]; destruct_and! Hst; split_and!; (done || lia). Qed.

Lemma step_ok limits s s' : step s s' -> server_ok limits s -> server_ok limits s'.
Proof.
  intros Hstep Hok. destruct Hstep as [m packet reply s _ _ | s | id s s' Hf | s _ | id bytes s s' Hb Hf | id n s s' Hf | id s s' Hf | id n s s' Hf
    | id s s' Hf | id s s' Hf | t s Ht | s | d s | s]; try by destruct Hok; split.
  - by apply serve_udp_ok.
  - by eapply finish_udp_ok.
  - by apply accept_ok.
  - by eapply arrive_ok.
  - by eapply read_some_ok.
  - by eapply finish_tcp_ok.
  - by eapply write_some_ok.
  - apply bind_Some in Hf as (c & Hc & Hf). destruct (at_stage c) eqn:Es; simplify_eq; eapply close_ok; eauto; unfold busy; by rewrite Es.
  - apply bind_Some in Hf as (c & Hc & Hf). destruct (at_stage c) eqn:Es; simplify_eq; case_match; simplify_eq; eapply close_ok; eauto; unfold busy; by rewrite Es.
  - destruct Hok as [Hw Hc Hf Hd Hs Hm]. split; cbn; try done. eapply map_Forall_impl; [exact Hm |]. intros i c. by apply stream_later.
Qed.

(** C19. Whatever the order of its tasks, the FakeDNS server never runs more workers or holds more streams than
    its limits and never loses a permit; every request by datagram is either answered once, to its sender and
    from the address it was sent to, or at a worker, or was lost to a panic of its worker; and on every stream
    what was written is exactly the responses to the whole frames that were read, in order, however the bytes
    arrived and were cut, with a deadline for each frame that no later byte moves. *)
Theorem dns_server_invariant d limits s :
  0 <= dns_workers limits -> 0 <= dns_tcp_connections limits -> reachable d limits s -> server_ok limits s.
Proof.
  intros Hw Ht Hr. assert (server_ok limits (started d limits)) as H0 by by apply started_ok.
  revert H0. unfold reachable in Hr. induction Hr as [s | s1 s2 s3 Hstep _ IH]; [done |]. intros H0. by apply IH, (step_ok _ s1).
Qed.
End Safety.

(** A response leaves from where its request was sent to: the reply to an IPv4 peer carries the destination
    address and interface of the request as its source, the reply to an IPv6 peer those of the request; a
    datagram without them, or that was cut, is not served. *)
Theorem reply_from_destination m packet reply : recv_datagram m = Ok (packet, reply) ->
  truncated m = false /\ payload m = packet /\ address m = Some (peer reply) /\
  (if is_mapped (peer reply).1
   then exists info, Ipv4PacketInfo info ∈ cmsgs m /\ source reply = V4Info (InPktinfo (ipi_ifindex info) (ipi_addr info) (ipi_addr info))
   else exists info, Ipv6PacketInfo info ∈ cmsgs m /\ source reply = V6Info info).
Proof.
  unfold recv_datagram. destruct (truncated m); [done |]. intros (p & Hp%ok_or_ok & (src & Hsrc%ok_or_ok & [= <- <-])%bind_ok)%bind_ok.
  cbn. split_and!; [done | done | done |].
  assert (forall l acc, foldl (take_control (is_mapped p.1)) acc l = Some src ->
    acc = Some src \/ exists c, c ∈ l /\ take_control (is_mapped p.1) None c = Some src) as Hfold.
  { induction l as [| c l IH]; intros acc; cbn; [by left |]. intros [Hc | (c' & Hin & Hc')]%IH; [| right; exists c'; split; [by right | done]].
    destruct c as [i | i |]; cbn in Hc; destruct (is_mapped p.1) eqn:E; cbn in Hc; try (by left); right.
    - exists (Ipv4PacketInfo i). split; [left | exact Hc].
    - exists (Ipv6PacketInfo i). split; [left | exact Hc]. }
  apply Hfold in Hsrc as [[=] | (c & Hin & Hc)]. destruct c as [i | i |]; cbn in Hc; destruct (is_mapped p.1); cbn in Hc; simplify_eq; eauto.
Qed.

(** ** One worker, one stream *)

Module SampleDns.
#[global] Instance answers : Answers Z := {|
  resolve packet d := match packet with [] => Some (d, Err (Msg "invalid DNS request")) | _ => Some (d + 1, Ok (rev packet)) end;
  refuse packet := packet ++ [2];
  purge d := 0;
|}.

Definition limits : resource_limits := ResourceLimits 1 4 0 1 1 0 0 0 0 0 0 0 0.

Definition v4_peer : Z * Z := (Z.lor (Z.shiftl 0xffff 32) 0xc0a80102, 5000).
Definition datagram : message := ReceivedMessage false (Some v4_peer) [OtherControl; Ipv4PacketInfo (InPktinfo 3 0 0xc0a80101)] [1; 2].
Definition reply : udp_reply := UdpReply v4_peer (V4Info (InPktinfo 3 0xc0a80101 0xc0a80101)).

Definition ask (s : server Z) : option (server Z) := if active s then Some (serve_udp [1; 2] reply s) else None.
Definition welcome (s : server Z) : option (server Z) := if active s then Some (accept s) else None.

(** Two datagrams, the second while the only worker is busy, and a frame that comes in pieces. *)
Definition steps : list (server Z -> option (server Z)) := [
  ask; ask; welcome; welcome;
  arrive 0 [0]; read_some 0 5; arrive 0 [3; 7; 8]; finish_udp 0; read_some 0 2; arrive 0 [9; 0; 0]; read_some 0 9; finish_tcp 0;
  write_some 0 4; write_some 0 4; read_some 0 2].

Definition end_state : option (server Z) := foldl (fun s f => s ≫= f) (Some (started 0 limits)) steps.

Lemma ask_ok s s' : ask s = Some s' -> step s s'.
Proof. unfold ask. destruct (active s) eqn:Ha; [| done]. intros [= <-]. by apply (step_datagram datagram [1; 2] reply). Qed.

Lemma welcome_ok s s' : welcome s = Some s' -> step s s'.
Proof. unfold welcome. destruct (active s) eqn:Ha; [| done]. intros [= <-]. by apply step_accept. Qed.

Lemma steps_reachable (s s' : server Z) fs :
  Forall (fun f => forall s1 s2, f s1 = Some s2 -> step s1 s2) fs -> foldl (fun s f => s ≫= f) (Some s) fs = Some s' -> rtc step s s'.
Proof.
  intros Hall. revert s. induction Hall as [| f fs Hf _ IH]; intros s; cbn; [intros [= ->]; reflexivity |].
  destruct (f s) as [s1 |] eqn:E; [intros Hr; eapply rtc_l; [by apply Hf | by apply IH] |].
  intros Hr. exfalso. clear IH. revert Hr. by induction fs.
Qed.
End SampleDns.

Lemma reply_from_destination_witness :
  recv_datagram SampleDns.datagram = Ok ([1; 2], SampleDns.reply) /\ is_mapped (peer SampleDns.reply).1 = true /\
  exists info, Ipv4PacketInfo info ∈ cmsgs SampleDns.datagram /\
    source SampleDns.reply = V4Info (InPktinfo (ipi_ifindex info) (ipi_addr info) (ipi_addr info)).
Proof.
  split_and!; [done | done |]. pose proof (reply_from_destination SampleDns.datagram [1; 2] SampleDns.reply eq_refl) as (_ & _ & _ & Hr). exact Hr.
Defined.

Lemma dns_server_invariant_witness : exists s, SampleDns.end_state = Some s /\ server_ok SampleDns.limits s /\
  sent s = [(SampleDns.reply, [1; 2], [1; 2; 2]); (SampleDns.reply, [1; 2], [2; 1])] /\
  (written <$> streams s !! 0) = Some [0; 3; 9; 8; 7].
Proof.
  destruct SampleDns.end_state as [s |] eqn:E; [| by vm_compute in E]. exists s. split_and!; [done | | by vm_compute in E; simplify_eq..].
  apply (dns_server_invariant 0 SampleDns.limits); [done | done |]. eapply SampleDns.steps_reachable, E. unfold SampleDns.steps.
  repeat (apply Forall_cons; split); try apply Forall_nil; try exact I; intros s1 s2; first [exact (SampleDns.ask_ok s1 s2) | exact (SampleDns.welcome_ok s1 s2)
    | exact (step_read _ _ s1 s2) | exact (step_write _ _ s1 s2) | exact (step_finish_udp _ s1 s2) | exact (step_finish_tcp _ s1 s2)
    | apply step_arrive; by repeat constructor].
Defined.
