(* ===== verification/Api.v ===== *)
(** * The HTTP interface of the panel (crates/gofro-agent/src/api.rs)

    The routes and the layers around them, the redirect to the panel's name,
    and the handlers that change the configuration: each runs one operation of
    the controller and answers with the status read afterwards.  axum finds the
    route of a path and the handler of a method and is the class [Axum]; what
    the status asks of the router is the class [Observed]. *)

From stdpp Require Import base gmap strings list.
From Stdlib Require Import Ascii ZArith Lia.
From S2P Require Import Prelude RustStd Net Ssh Managed Model Stats Peers GeoWire GeoData Config Routing Dataplane FakeStore.
From S2P Require Import Resolver Controller Onboarding Auth AuthSafety Effects.

Definition UPDATE_LOCK : string := "/tmp/gofro-update.lock".
Definition UPDATE_RESULT : string := "/tmp/gofro/update-result".
Definition UPDATE_TRIGGER : string := "/tmp/gofro/update-request".
Definition UPDATE_COMMAND : string := "/usr/libexec/gofro/update".

(** ** Routes *)

Inductive endpoint :=
| Asset (name : string)
| AuthStatus | AuthSetup | AuthLogin | AuthLogout | AuthChangePassword
| GetOnboarding | CompleteOnboarding | GetStatus | StartUpdate | SetAutoUpdate | NetworkManagedByOpenwrt | SetMode
| UpdateServer | DeleteServer | ImportServer | SelectServer | UpdateRouting | UpdateDeviceExclusion | LanDevices | TestRouting
| ProbeServer | BootstrapServer | ResetHostPin | CheckManaged | UpdateManaged | CreateProfile | ManagedStatus | RestartManaged
| CreateFriend | RenameFriend | RevokeFriend | FriendProfile | SetWarp.

#[export] Instance endpoint_eq_dec : EqDecision endpoint.
Proof. solve_decision. Defined.

Definition POST : method := OtherMethod "POST".
Definition PUT : method := OtherMethod "PUT".
Definition DELETE : method := OtherMethod "DELETE".

Record route := Route { r_path : string; r_private : bool; r_methods : list (method * endpoint) }.

Definition public_routes : list route :=
  (fun '(path, ms) => Route path false ms) <$>
  [("/", [(GET, Asset "index")]);
   ("/app.js", [(GET, Asset "javascript")]);
   ("/app.css", [(GET, Asset "stylesheet")]);
   ("/chart.js", [(GET, Asset "chart")]);
   ("/api/auth/status", [(GET, AuthStatus)]);
   ("/api/auth/setup", [(POST, AuthSetup)]);
   ("/api/auth/login", [(POST, AuthLogin)])]%string.

(** [private_router] *)
Definition private_routes : list route :=
  (fun '(path, ms) => Route path true ms) <$>
  [("/api/auth/logout", [(POST, AuthLogout)]);
   ("/api/auth/password", [(POST, AuthChangePassword)]);
   ("/api/onboarding", [(GET, GetOnboarding)]);
   ("/api/onboarding/complete", [(POST, CompleteOnboarding)]);
   ("/api/status", [(GET, GetStatus)]);
   ("/api/update", [(POST, StartUpdate); (PUT, SetAutoUpdate)]);
   ("/api/reboot", [(POST, NetworkManagedByOpenwrt)]);
   ("/api/mode", [(POST, SetMode)]);
   ("/api/servers", [(PUT, UpdateServer); (DELETE, DeleteServer)]);
   ("/api/servers/import", [(POST, ImportServer)]);
   ("/api/servers/probe", [(POST, ProbeServer)]);
   ("/api/servers/bootstrap", [(POST, BootstrapServer)]);
   ("/api/servers/host-pin", [(DELETE, ResetHostPin)]);
   ("/api/servers/check", [(POST, CheckManaged)]);
   ("/api/servers/update-managed", [(POST, UpdateManaged)]);
   ("/api/servers/create-profile", [(POST, CreateProfile)]);
   ("/api/servers/management", [(POST, ManagedStatus)]);
   ("/api/servers/restart", [(POST, RestartManaged)]);
   ("/api/servers/friends", [(POST, CreateFriend); (PUT, RenameFriend); (DELETE, RevokeFriend)]);
   ("/api/servers/friends/profile", [(POST, FriendProfile)]);
   ("/api/servers/select", [(POST, SelectServer)]);
   ("/api/servers/warp", [(POST, SetWarp)]);
   ("/api/ap", [(POST, NetworkManagedByOpenwrt)]);
   ("/api/onboarding/wifi", [(POST, NetworkManagedByOpenwrt)]);
   ("/api/routing", [(POST, UpdateRouting)]);
   ("/api/device-exclusions", [(POST, UpdateDeviceExclusion)]);
   ("/api/lan-devices", [(GET, LanDevices)]);
   ("/api/routing/test", [(POST, TestRouting)])]%string.

(** The routes of [secure_router]. *)
Definition secure_routes : list route := public_routes ++ private_routes.

(** axum's choice of a route by the path and of a handler by the method. *)
Class Axum := {
  matched : list route -> string -> option route;
  dispatched : list (method * endpoint) -> method -> option endpoint;
}.

Class AxumLaws `{Axum} := {
  matched_listed rs path r : matched rs path = Some r -> r ∈ rs;
  dispatched_listed ms m e : dispatched ms m = Some e -> exists m', (m', e) ∈ ms;
}.

(** ** Requests in flight *)

Record request := Request { q_method : method; q_uri : uri; q_headers : headers }.

(** A private handler that runs, with its request and what the panel knew when it let it in. *)
Record running := Running { run_endpoint : endpoint; run_request : request; run_auth : auth }.

Record service := Service { sv_auth : auth; sv_permits : nat; sv_running : list running }.

(** [Semaphore::new(4)] *)
Definition LIMIT : nat := 4.

Inductive served :=
| NoRoute
| NoMethod
| Refused (r : response)
(* agent_busy, to be retried after a second *)
| Busy
| Public (e : endpoint)
| Private (e : endpoint).

Section Serve.
Context `{Axum}.
Variable now : nat -> Z.
Variable os : nat -> option error.
(* the constant fields of AppState *)
Variables lan_address https_port : Z.

(** [limit_requests] around the handlers of a private route. *)
Definition limit_requests (q : request) (ms : list (method * endpoint)) (admitted : auth) (s : service) : service * served :=
  match sv_permits s with
  | O => (s, Busy)
  | S permits =>
      match dispatched ms (q_method q) with
      | None => (s, NoMethod)
      | Some e => (Service (sv_auth s) permits (sv_running s ++ [Running e q admitted]), Private e)
      end
  end.

(** [secure_router]: what becomes of a request. *)
Definition serve (q : request) (s : service) : service * served :=
  match matched secure_routes (u_path (q_uri q)) with
  | None => (s, NoRoute)
  | Some r =>
      if r_private r then
        match require_auth now os lan_address https_port (q_method q) (q_uri q) (q_headers q) (sv_auth s) with
        | (a, inl response) => (Service a (sv_permits s) (sv_running s), Refused response)
        | (a, inr _) => limit_requests q (r_methods r) (sv_auth s) (Service a (sv_permits s) (sv_running s))
        end
      else match dispatched (r_methods r) (q_method q) with
           | None => (s, NoMethod)
           | Some e => (s, Public e)
           end
  end.

(** The end of a private handler: its permit is dropped. *)
Definition finish (i : nat) (s : service) : service := Service (sv_auth s) (S (sv_permits s)) (delete i (sv_running s)).

(** Requests come, handlers end in any order, and the handlers and the other
    requests change what the panel knows. *)
Inductive service_step : service -> service -> Prop :=
| ServeStep q s s' r : serve q s = (s', r) -> service_step s s'
| FinishStep i x s : sv_running s !! i = Some x -> service_step s (finish i s)
| OtherStep a s : service_step s (Service a (sv_permits s) (sv_running s)).

Inductive reachable_service : service -> Prop :=
| Started a : reachable_service (Service a LIMIT [])
| Stepped s s' : reachable_service s -> service_step s s' -> reachable_service s'.

(** ** What runs behind the middleware *)

(** The endpoints that need no session. *)
Definition open_endpoint (e : endpoint) : bool :=
  match e with Asset _ | AuthStatus | AuthSetup | AuthLogin => true | _ => false end.

Lemma private_endpoints r m e : r ∈ secure_routes -> r_private r = true -> (m, e) ∈ r_methods r -> open_endpoint e = false.
Proof.
  intros Hr Hp He.
  assert (forallb (fun r => negb (r_private r) || forallb (fun me => negb (open_endpoint me.2)) (r_methods r)) secure_routes = true) as Hall
    by by vm_compute.
  rewrite forallb_forall in Hall. specialize (Hall r (proj1 (list_elem_of_In _ _) Hr)). rewrite Hp in Hall. cbn in Hall.
  rewrite forallb_forall in Hall. specialize (Hall (m, e) (proj1 (list_elem_of_In _ _) He)). by apply negb_true_iff in Hall.
Qed.

Lemma public_endpoints r m e : r ∈ secure_routes -> r_private r = false -> (m, e) ∈ r_methods r -> open_endpoint e = true.
Proof.
  intros Hr Hp He.
  assert (forallb (fun r => r_private r || forallb (fun me => open_endpoint me.2) (r_methods r)) secure_routes = true) as Hall
    by by vm_compute.
  rewrite forallb_forall in Hall. specialize (Hall r (proj1 (list_elem_of_In _ _) Hr)). rewrite Hp in Hall. cbn in Hall.
  rewrite forallb_forall in Hall. by specialize (Hall (m, e) (proj1 (list_elem_of_In _ _) He)).
Qed.

(** A handler that runs: it is private, and its request was let in. *)
Definition let_in (x : running) : Prop :=
  open_endpoint (run_endpoint x) = false
  /\ admitted now lan_address https_port (q_method (run_request x)) (q_uri (run_request x)) (q_headers (run_request x)) (run_auth x).

Record service_ok (s : service) : Prop := {
  so_permits : (sv_permits s + length (sv_running s) = LIMIT)%nat;
  so_running : Forall let_in (sv_running s);
}.

Context `{!AxumLaws}.

Lemma serve_ok q s s' r : service_ok s -> serve q s = (s', r) ->
  service_ok s' /\ (forall e, r = Public e -> open_endpoint e = true) /\ (r = Busy -> length (sv_running s) = LIMIT).
Proof.
  intros [Hp Hr]. unfold serve. destruct (matched _ _) as [rt |] eqn:Hm; [| by intros [= <- <-]].
  apply matched_listed in Hm. destruct (r_private rt) eqn:Hpriv.
  - destruct (require_auth _ _ _ _ _ _ _ _) as [a [response | []]] eqn:Ha; [by intros [= <- <-] |].
    apply require_auth_admits in Ha. unfold limit_requests. cbn [sv_permits sv_auth sv_running].
    destruct (sv_permits s) as [| n] eqn:Hn; [intros [= <- <-]; split_and!; [by split; cbn; rewrite ?Hn | done | intros _; lia] |].
    destruct (dispatched _ _) as [e |] eqn:Hd; intros [= <- <-].
    + split_and!; [| done | done]. split; cbn; [rewrite length_app; cbn; lia |].
      apply Forall_app; split; [done |]. apply Forall_singleton. split; [| done].
      apply dispatched_listed in Hd as (m & He). by eapply private_endpoints.
    + split_and!; [by split; cbn; rewrite ?Hn | done | done].
  - destruct (dispatched _ _) as [e |] eqn:Hd; intros [= <- <-]; [| done].
    split_and!; [done | | done]. intros ? [= <-]. apply dispatched_listed in Hd as (m & He). by eapply public_endpoints.
Qed.

Lemma finish_service_ok i x s : service_ok s -> sv_running s !! i = Some x -> service_ok (finish i s).
Proof.
  intros [Hp Hr] Hi. split; cbn.
  - rewrite length_delete by by exists x. apply lookup_lt_Some in Hi. lia.
  - rewrite delete_take_drop. apply Forall_app; split; [by apply Forall_take | by apply Forall_drop].
Qed.

Lemma reachable_service_ok s : reachable_service s -> service_ok s.
Proof.
  induction 1 as [a | s s' _ IH Hstep]; [by split |].
  destruct Hstep as [q s s' r Hs | i x s Hi | a s]; [by eapply serve_ok | by eapply finish_service_ok | by destruct IH].
Qed.

(** C7. No handler behind the middleware runs unasked. Whatever requests come, in whatever order handlers
    end, and whatever logins, logouts and onboarding do in between: at most four handlers of private
    routes run at a time, each with its own permit, and each of them was let in on a request for the
    panel's host with the cookie of a live session - and that session's CSRF token from the panel's own
    origin unless the request only reads -, after the first setup or on one of its few paths. Without
    a session only the page, its scripts and the setup, login and status of the authentication answer;
    a request is told that the agent is busy only when all four permits are taken. *)
Theorem private_requests_guarded s q s' r :
  reachable_service s -> serve q s = (s', r) ->
  ((sv_permits s' + length (sv_running s') = LIMIT)%nat /\ Forall let_in (sv_running s'))
  /\ match r with
     | Public e => open_endpoint e = true
     | Private e => exists before x, sv_running s' = before ++ [x] /\ run_endpoint x = e /\ run_request x = q /\ run_auth x = sv_auth s
     | Busy => length (sv_running s) = LIMIT
     | _ => sv_running s' = sv_running s
     end.
Proof.
  intros Hs%reachable_service_ok Hr. pose proof (serve_ok _ _ _ _ Hs Hr) as ([Hp Hl] & Hpub & Hbusy). split; [done |].
  destruct r as [| | | | e | e]; try (by auto); unfold serve in Hr.
  all: destruct (matched _ _) as [rt |]; [| by injection Hr as <-].
  all: destruct (r_private rt); [| by destruct (dispatched _ _); injection Hr as <-].
  all: destruct (require_auth _ _ _ _ _ _ _ _) as [a [response | []]]; [by injection Hr as <- |].
  all: unfold limit_requests in Hr; cbn [sv_permits sv_auth sv_running] in Hr.
  all: destruct (sv_permits s); [by injection Hr as <- |].
  all: destruct (dispatched _ _) as [e' |]; [| by injection Hr as <-]; try done.
  injection Hr as <- <-. by eexists _, _.
Qed.
End Serve.

(** The answer to a request beyond the limit: its status, [Retry-After] and code. *)
Definition agent_busy : Z * string * string := (503, "1"%string, "agent_busy"%string).

(** What the network of the router is no longer asked of the panel. *)
Definition network_managed_by_openwrt : Z * string := (410, "network_managed_by_openwrt"%string).

(** ** [redirect_router] *)

Section Redirect.
Variables lan_address http_port https_port : Z.

(** Where the panel is, for a request to its plain port. *)
Definition redirect_destination (host : string) : option string :=
  if bool_decide (host ∈ [AP_DOMAIN; AP_DOMAIN +:+ ":80"; AP_DOMAIN +:+ ":8081"; AP_DOMAIN +:+ ":" +:+ show http_port]%string)
  then Some ("https://" +:+ AP_DOMAIN)%string
  else if bool_decide (host = show_ipv4 lan_address +:+ ":" +:+ show http_port)%string
  then Some ("https://" +:+ show_ipv4 lan_address +:+ ":" +:+ show https_port)%string
  else None.

(** The [Location] of the answer 307; [None] is 403. *)
Definition redirect (u : uri) (path_and_query : option string) (h : headers) : option string :=
  host ← request_authority u h;
  destination ← redirect_destination host;
  Some (destination +:+ default "/" path_and_query)%string.
End Redirect.

(** ** The status *)

Inductive update_result := Current | Updated | Failed.

Record update_status := UpdateStatus { us_auto_update_enabled : bool; us_running : bool; us_result : option update_result }.

Record routing_status := RoutingStatus {
  rs_config : routing_config;
  rs_dns_active : bool;
  rs_fake_ips : Z;
  rs_geosite_loaded : bool;
  rs_geoip_loaded : bool;
  rs_dataplane_active : bool;
  rs_degraded : bool;
}.

Record agent_status := AgentStatus {
  as_device_exclusions : list mac_address;
  as_version : string;
  as_update : update_status;
  as_vpn_enabled : bool;
  as_tunnel_active : bool;
  as_interface : string;
  as_active_server_key : option string;
  as_servers : list server_status;
  as_peer : option peer_status;
  as_stats : live_stats;
  as_history : list history_point;
  as_routing : routing_status;
}.

(** What the status asks of the router, and the request to the updater. *)
Class Observed (sys : Type) := {
  (* the mutexes of AppState: whether a thread panicked with them *)
  config_poisoned : sys -> bool;
  stats_poisoned : sys -> bool;
  (* network.rs: service_active; wireguard-status: wireguard_peers, on the tunnel *)
  service_active : sys -> sys * result bool;
  wireguard_peers : sys -> sys * result (list peer_status);
  (* /sys/class/net/INTERFACE/statistics/NAME *)
  statistics : string -> sys -> option string;
  unix_time : sys -> Z;
  (* whether nft lists the routing table; whether the FakeDNS server serves *)
  table_exists : sys -> bool;
  dns_active : sys -> bool;
  (* the files of the updater, and its command: not started, or whether it succeeded *)
  read_file : string -> sys -> option string;
  path_exists : string -> sys -> bool;
  run_updater : sys -> sys * result bool;
}.

(** Looking at the tunnel changes nothing for the clients. *)
Class ObservedLaws (net sys : Type) `{SystemLaws net sys} `{Observed sys} := {
  active_view (s s' : sys) r : service_active s = (s', r) -> view (net := net) s' = view (net := net) s;
  peers_view (s s' : sys) r : wireguard_peers s = (s', r) -> view (net := net) s' = view (net := net) s;
}.

(** [stats::interface_traffic] *)
Definition interface_traffic {sys} `{Observed sys} (s : sys) : option (Z * Z) :=
  rx ← statistics "rx_bytes" s ≫= (fun v => parse_u64 (trim v));
  tx ← statistics "tx_bytes" s ≫= (fun v => parse_u64 (trim v));
  Some (rx, tx).

(** What may be seen of a configuration: no private key and no host key. *)
Definition public_view (c : controller_config) : list mac_address * bool * bool * option string * list server_status * routing_config :=
  (device_exclusions c, auto_update_enabled c, vpn_enabled c, active_server_key c, server_status_from <$> servers c, routing c).

(** ** Answers *)

Inductive answer_body :=
| StatusBody (s : agent_status)
(* [ErrorBody]: the message, and whether [outcome] is [committed] *)
| ErrorReply (message : string) (committed : bool).

Record answer := Answer { an_status : Z; an_body : answer_body }.

(** [ApiError::into_response] *)
Definition api_error (e : error) : answer := Answer 500 (ErrorReply (error_display e) (error_is CommittedRefreshFailed e)).

Definition answer_of (r : error + agent_status) : answer :=
  match r with inr s => Answer 200 (StatusBody s) | inl e => api_error e end.

(** The handlers of the onboarding keep what failed to themselves. *)
Definition onboarding_answer (unavailable : string) (r : error + onboarding_status) : answer + onboarding_status :=
  match r with inr s => inr s | inl _ => inl (api_error (Msg unavailable)) end.

Definition get_onboarding (os : nat -> option error) (boot_id uptime : nat -> option string) (a : auth) : auth * (answer + onboarding_status) :=
  let '(a, r) := onboarding_status_of os boot_id uptime a in (a, onboarding_answer "onboarding unavailable" r).

Definition post_onboarding (os : nat -> option error) (boot_id uptime : nat -> option string) (a : auth) : auth * (answer + onboarding_status) :=
  let '(a, r) := complete_onboarding os boot_id uptime a in (a, onboarding_answer "onboarding completion rejected" r).

(** The inputs of the handlers that change the configuration. *)
Inductive change_request :=
| ReqStartUpdate
| ReqAutoUpdate (enabled : bool)
| ReqMode (vpn_enabled : bool)
| ReqUpdateServer (u : server_update)
| ReqImportServer (name profile : string)
| ReqRouting (r : routing_config)
| ReqDeviceExclusion (mac : mac_address) (excluded : bool)
| ReqSelectServer (public_key : string)
| ReqDeleteServer (public_key : string).

Definition trimmed_update (u : server_update) : server_update :=
  ServerUpdate (trim (up_previous_public_key u)) (trim (up_name u)) (trim (up_endpoint u)) (trim (up_public_key u)) (up_emoji u).

(** The controller's operation behind a request. *)
Definition operation_of (q : change_request) : option operation :=
  match q with
  | ReqStartUpdate | ReqAutoUpdate _ => None
  | ReqMode enabled => Some (OpMode enabled)
  | ReqUpdateServer u => Some (OpUpdate (trimmed_update u))
  | ReqImportServer nm profile => Some (OpImport (trim nm) profile)
  | ReqRouting r => Some (OpRouting r)
  | ReqDeviceExclusion mac excluded => Some (OpExclusion mac excluded)
  | ReqSelectServer key => Some (OpSelect (trim key))
  | ReqDeleteServer key => Some (OpDelete (trim key))
  end.

Definition update_result_of (text : string) : option update_result :=
  let value := trim text in
  if bool_decide (value = "current"%string) then Some Current
  else if bool_decide (value = "updated"%string) then Some Updated
  else if bool_decide (value = "failed"%string) then Some Failed
  else None.

Section Panel.
Context {net : Type} `{IpnetLaws net} {rx : Type} (rx_build : Z -> Z -> string -> option rx) (rx_is_match : rx -> string -> bool).
Context {db : Type} `{FakeTableLaws db} {sys : Type} `{System sys} `{Observed sys}.
Variable to_lowercase : string -> string.
Variable domain_to_ascii : string -> option string.
Variable to_json : controller_config -> string.
Variables up_sites up_ips : nat -> bool.
Variable lan : lan_context net.
Variable dns_port : Z.
Variable ports : panel_ports.
Variable interface : string.
#[local] Notation app := (app (net := net) (rx := rx) (db := db) (sys := sys)).
#[local] Notation run_operation := (run_operation rx_build rx_is_match to_lowercase domain_to_ascii to_json up_sites up_ips lan dns_port ports).
#[local] Notation set_auto_update := (set_auto_update (net := net) (rx := rx) (db := db) (sys := sys) to_json).

(** The controller's part of [AppState], and the statistics. *)
Record panel := Panel { p_app : app; p_stats : stats_tracker }.

#[local] Notation M := (eff panel error).

Definition with_sys (s : sys) (a : app) : app :=
  App s (a_disk a) (a_store a) (a_geodata a) (a_config a) (a_active a) (a_dns_vpn a) (a_degraded a).

(** A question to the router. *)
Definition observe {A} (f : sys -> sys * result A) : M A := fun p =>
  let '(s, r) := f (a_sys (p_app p)) in
  (Panel (with_sys s (p_app p)) (p_stats p), match r with Ok x => inr x | Err e => inl e end).

Definition here {A} (f : sys -> A) : M A := read (fun p => f (a_sys (p_app p))).

(** [update_status] *)
Definition update_status_of (auto_update_enabled : bool) : M update_status :=
  text ← here (read_file UPDATE_RESULT);
  locked ← here (path_exists UPDATE_LOCK);
  triggered ← here (path_exists UPDATE_TRIGGER);
  mret (UpdateStatus auto_update_enabled (locked || triggered) (text ≫= update_result_of)).

(** [state.stats.lock()?.sample(..)] *)
Definition sample_traffic : M (live_stats * list history_point) :=
  poisoned ← here stats_poisoned;
  require (negb poisoned) (Msg "statistics lock poisoned") ;;
  traffic ← here interface_traffic;
  now ← here unix_time;
  t ← read p_stats;
  let '(rx, tx) := default (0, 0) traffic in
  let '(answer, t) := Stats.sample now rx tx t in
  update (fun p => Panel (p_app p) t) ;;
  mret answer.

(** [load_status], after it copied the configuration, *)
Definition status_from (config : controller_config) : M agent_status :=
  tunnel_active ← observe service_active;
  peer ← (if tunnel_active : bool then head <$> observe wireguard_peers else mret None);
  '(stats, history) ← sample_traffic;
  update ← update_status_of (auto_update_enabled config);
  dns ← here dns_active;
  table ← here table_exists;
  fake_ips ← read (fun p => Z.of_nat (size (leases (a_store (p_app p)))));
  geodata ← read (fun p => a_geodata (p_app p));
  degraded ← read (fun p => a_degraded (p_app p));
  mret (AgentStatus (device_exclusions config) CARGO_PKG_VERSION update (vpn_enabled config) tunnel_active interface
          (active_server_key config) (server_status_from <$> servers config) peer stats history
          (RoutingStatus (routing config) dns fake_ips (has_site geodata "category-ru") (has_ip geodata "ru") table degraded)).

(** and all of it. *)
Definition load_status : M agent_status :=
  poisoned ← here config_poisoned;
  require (negb poisoned) (Msg "configuration lock poisoned") ;;
  config ← read (fun p => a_config (p_app p));
  status_from config.

(** [queue_update] *)
Definition queue_update : M unit :=
  queued ← here (path_exists UPDATE_TRIGGER);
  if queued : bool then mret tt
  else
    locked ← here (path_exists UPDATE_LOCK);
    require (negb locked) (Msg "update unavailable while rebooting") ;;
    started ← contextual "failed to request update" (observe run_updater);
    require started (Msg "updater rejected update request").

(** ** Handlers *)

(** What a handler does before it reads the status; [None] is a panic. *)
Definition change (q : change_request) (p : panel) : option (panel * (error + unit)) :=
  let controlled (m : app -> option (app * result unit)) :=
    '(a, r) ← m (p_app p);
    Some (Panel a (p_stats p), match r with Ok x => inr x | Err e => inl e end) in
  match q, operation_of q with
  | ReqStartUpdate, _ => Some (queue_update p)
  | ReqAutoUpdate enabled, _ => controlled (set_auto_update enabled)
  | _, Some o => controlled (run_operation o)
  | _, None => None
  end.

(** [.context(CommittedRefreshFailed)] on the status of a finished change *)
Definition refreshed : M agent_status := fun p =>
  match load_status p with
  | (p, inl e) => (p, inl (Mark CommittedRefreshFailed e))
  | answer => answer
  end.

(** [run_blocking]: the operation runs once; a panic of it ends the task without an answer of its own. *)
Definition run_blocking (q : change_request) (p : panel) : option (panel * answer) :=
  '(p, r) ← change q p;
  Some (match r with
        | inl e => (p, api_error e)
        | inr _ => let '(p, status) := refreshed p in (p, answer_of status)
        end).

(** [test_routing]; [None] is a panic of the policy. *)
Definition test_routing (value : string) (p : panel) : option (answer + test_result) :=
  r ← Routing.test rx_is_match to_lowercase domain_to_ascii (a_active (p_app p)) value;
  Some (match r with Ok x => inr x | Err e => inl (api_error e) end).

(** [status] *)
Definition get_status (p : panel) : panel * answer := let '(p, r) := load_status p in (p, answer_of r).

(** [health]: 503 while the routing is degraded. *)
Record health := Health {
  h_version : string;
  h_degraded : bool;
  h_dns_active : bool;
  h_dataplane_active : bool;
  h_vpn_enabled : bool;
  h_tunnel_active : bool;
  h_handshake_age_seconds : option Z;
}.

Definition health_status (h : health) : Z := if h_degraded h then 503 else 200.

Definition get_health (p : panel) : panel * (answer + (Z * health)) :=
  match load_status p with
  | (p, inl e) => (p, inl (api_error e))
  | (p, inr s) =>
      let h := Health (as_version s) (rs_degraded (as_routing s)) (rs_dns_active (as_routing s)) (rs_dataplane_active (as_routing s))
                 (as_vpn_enabled s) (as_tunnel_active s) (as_peer s ≫= ps_handshake_age_seconds) in
      (p, inr (health_status h, h))
  end.

(** ** Reading the status changes nothing of the agent *)

Record same_panel (p p' : panel) : Prop := {
  sp_memory : same_memory (p_app p) (p_app p');
  sp_degraded : a_degraded (p_app p') = a_degraded (p_app p);
  sp_store : a_store (p_app p') = a_store (p_app p);
}.

#[local] Instance same_panel_preorder : PreOrder same_panel.
Proof.
  split; [done |]. intros a b c [Hm Hd Hs] [Hm' Hd' Hs']. split; [by eapply same_memory_trans | congruence | congruence].
Qed.

Lemma observe_same {A} (f : sys -> sys * result A) : preserves same_panel (observe f).
Proof. intros p p' r. unfold observe. destruct (f _) as [s x]. by intros [= <- <-]. Qed.

Lemma here_same {A} (f : sys -> A) : preserves same_panel (here f).
Proof. apply preserves_read, _. Qed.

#[local] Hint Resolve observe_same here_same : eff.

Lemma sample_traffic_same : preserves same_panel sample_traffic.
Proof. unfold sample_traffic. preserved. by apply preserves_update. Qed.

Lemma update_status_same b : preserves same_panel (update_status_of b).
Proof. unfold update_status_of. preserved. Qed.

#[local] Hint Resolve sample_traffic_same update_status_same : eff.

Lemma load_status_same : preserves same_panel load_status.
Proof. unfold load_status, status_from. preserved. Qed.

(** The status is that of the configuration in memory. *)
Record shows (a : app) (s : agent_status) : Prop := {
  sh_view : public_view (a_config a)
            = (as_device_exclusions s, us_auto_update_enabled (as_update s), as_vpn_enabled s, as_active_server_key s, as_servers s,
               rs_config (as_routing s));
  sh_fake_ips : rs_fake_ips (as_routing s) = Z.of_nat (size (leases (a_store a)));
  sh_degraded : rs_degraded (as_routing s) = a_degraded a;
}.

Lemma update_status_shows b p p' u : update_status_of b p = (p', inr u) -> us_auto_update_enabled u = b.
Proof. by intros [= _ <-]. Qed.

Lemma load_status_shows p p' s : load_status p = (p', inr s) -> shows (p_app p) s.
Proof.
  unfold load_status. intros [(e & _ & [=]) | (p1 & poisoned & G1 & Hr)]%bind_run. pose proof (here_same _ _ _ _ G1) as K1.
  apply bind_run in Hr as [(e & _ & [=]) | (p2 & [] & [-> _]%require_run & Hr)].
  apply bind_run in Hr as [(e & _ & [=]) | (p2 & config & [= <- <-] & Hr)]. unfold status_from in Hr.
  apply bind_run in Hr as [(e & _ & [=]) | (p3 & up & G3 & Hr)]. apply observe_same in G3. pose proof (transitivity K1 G3) as K3.
  apply bind_run in Hr as [(e & _ & [=]) | (p4 & peer & G4 & Hr)].
  assert (preserves same_panel (if up then head <$> observe wireguard_peers else mret None)) as Hpeer by preserved.
  apply Hpeer in G4. pose proof (transitivity K3 G4) as K4.
  apply bind_run in Hr as [(e & _ & [=]) | (p5 & [stats history] & G5%sample_traffic_same & Hr)]. pose proof (transitivity K4 G5) as K5.
  apply bind_run in Hr as [(e & _ & [=]) | (p6 & u & G6 & Hr)]. pose proof (update_status_shows _ _ _ _ G6) as Hu.
  apply update_status_same in G6. pose proof (transitivity K5 G6) as K6.
  apply bind_run in Hr as [(e & _ & [=]) | (p7 & dns & [= <- _] & Hr)].
  apply bind_run in Hr as [(e & _ & [=]) | (p7 & table & [= <- _] & Hr)].
  apply bind_run in Hr as [(e & _ & [=]) | (p7 & fake_ips & [= <- <-] & Hr)].
  apply bind_run in Hr as [(e & _ & [=]) | (p7 & geodata & [= <- _] & Hr)].
  apply bind_run in Hr as [(e & _ & [=]) | (p7 & degraded & [= <- <-] & [= _ <-])].
  destruct K1 as [[Hc _ _ _ _] _ _], K6 as [_ Hd Hst]. split; cbn; [unfold public_view; by rewrite Hu, Hc | by rewrite Hst | done].
Qed.

(** ** The answer to a change *)

Lemma change_operation q o p : operation_of q = Some o ->
  change q p = '(a, r) ← run_operation o (p_app p); Some (Panel a (p_stats p), match r with Ok x => inr x | Err e => inl e end).
Proof. intros Hq. by destruct q; cbn in Hq |- *; inversion Hq; subst. Qed.

Context `{!SystemLaws net sys} `{!PlainTable db} `{!ObservedLaws net sys}.
#[local] Notation committed := (committed (db := db) (sys := sys) rx_build to_json up_sites up_ips).
#[local] Notation op_proposes := (op_proposes (net := net) (rx := rx) (db := db) (sys := sys) to_lowercase domain_to_ascii).
#[local] Notation in_force := (in_force rx_is_match lan dns_port ports).
#[local] Notation view p := (view (net := net) (sys := sys) (a_sys (p_app p))).

Record same_view (p p' : panel) : Prop := { sv_view : view p' = view p }.

#[local] Instance same_view_preorder : PreOrder same_view.
Proof. split; [done |]. intros a b c [] []. split. congruence. Qed.

Lemma load_status_view : preserves same_view load_status.
Proof.
  assert (preserves same_view (observe service_active)) as Ha.
  { intros p p' r. unfold observe. destruct (service_active _) as [s x] eqn:E. intros [= <- <-]. split. by eapply active_view. }
  assert (preserves same_view (observe wireguard_peers)) as Hp.
  { intros p p' r. unfold observe. destruct (wireguard_peers _) as [s x] eqn:E. intros [= <- <-]. split. by eapply peers_view. }
  assert (forall A (f : sys -> A), preserves same_view (here f)) as Hh by (intros; apply preserves_read, _).
  assert (preserves same_view sample_traffic) as Hs by (unfold sample_traffic; preserved; by apply preserves_update).
  unfold load_status, status_from, update_status_of. preserved.
Qed.

(** Reading the status leaves a change in force. *)
Lemma status_in_force p p1 p' r next ch : load_status p1 = (p', r) ->
  in_force (p_app p) (p_app p1) next ch -> in_force (p_app p) (p_app p') next ch.
Proof.
  intros Hl. pose proof (load_status_same _ _ _ Hl) as [Hm _ Hst]. apply load_status_view in Hl as [Hv].
  apply in_force_kept; [done |]. split; [by rewrite Hv | by rewrite Hv | done].
Qed.

(** What an answer to a change of servers, mode, rules or exclusions says. *)
Definition told (o : operation) (p p' : panel) (an : answer) : Prop :=
  match an with
  | Answer status (StatusBody s) =>
      status = 200 /\ exists next ch, op_proposes o (p_app p) next ch /\ committed (p_app p) (p_app p') next ch
        /\ in_force (p_app p) (p_app p') next ch /\ shows (p_app p') s
  | Answer status (ErrorReply _ true) =>
      status = 500 /\ exists next ch, op_proposes o (p_app p) next ch /\ committed (p_app p) (p_app p') next ch
        /\ in_force (p_app p) (p_app p') next ch
  | Answer status (ErrorReply _ false) =>
      status = 500 /\ same_memory (p_app p) (p_app p') /\ undone rx_is_match lan dns_port ports (p_app p) (p_app p')
  end.

(** And to the switch of automatic updates. *)
Definition switched (next : controller_config) (a a' : app) : Prop :=
  a_config a' = next /\ Config.target (a_disk a') = Some (to_json next).

Definition switch_told (enabled : bool) (p p' : panel) (an : answer) : Prop :=
  let next := set_auto enabled (a_config (p_app p)) in
  match an with
  | Answer status (StatusBody s) => status = 200 /\ switched next (p_app p) (p_app p') /\ shows (p_app p') s
  | Answer status (ErrorReply _ true) => status = 500 /\ switched next (p_app p) (p_app p')
  | Answer status (ErrorReply _ false) =>
      status = 500 /\ a_config (p_app p') = a_config (p_app p) /\
      (Config.target (a_disk (p_app p')) = Config.target (a_disk (p_app p)) \/ Config.target (a_disk (p_app p')) = Some (to_json next))
  end.

Lemma operation_told q o p p' an :
  operation_of q = Some o -> guard_flagged (net := net) (p_app p) -> run_blocking q p = Some (p', an) -> told o p p' an.
Proof.
  intros Hq Hflag Hr. unfold run_blocking in Hr. rewrite (change_operation q o p Hq) in Hr.
  destruct (run_operation o (p_app p)) as [[a r] |] eqn:Hop; [| done]. cbn in Hr.
  eapply run_operation_outcome in Hop as [[_ (e & -> & He & Hm & Hu)] | (next & ch & Hp & [_ Hcases] & Hd)]; [| | done | exact Hflag].
  - injection Hr as <- <-. cbn. by rewrite (He CommittedRefreshFailed).
  - destruct Hcases as [(-> & Hc & _) | [(e & -> & Hc & _) | (e & -> & He & Hm)]]; cbn in Hr, Hd.
    + destruct Hd as [Hin _]. unfold refreshed in Hr. destruct (load_status _) as [p2 [e | s]] eqn:Hl; pose proof (load_status_same _ _ _ Hl) as Hsame;
        pose proof (status_in_force p _ _ _ next ch Hl Hin) as Hin2;
        injection Hr as <- <-; cbn; (split; [done |]); exists next, ch; (split; [done |]).
      * split; [eapply committed_same; [apply Hsame | exact Hc] | done].
      * split; [eapply committed_same; [apply Hsame | exact Hc] |]. split; [done |]. apply load_status_shows in Hl.
        destruct Hsame as [[Hcfg _ _ _ _] Hdg Hst]. cbn in *. destruct Hl as [Hv Hf Hg]. by split; rewrite ?Hcfg, ?Hst, ?Hdg.
    + injection Hr as <- <-. cbn. split; [done |]. by exists next, ch.
    + injection Hr as <- <-. rewrite (He CommittedRefreshFailed) in Hd. cbn. by rewrite (He CommittedRefreshFailed).
Qed.

Lemma set_auto_run enabled a a' r : set_auto_update enabled a = Some (a', r) ->
  match r with
  | Ok _ => switched (set_auto enabled (a_config a)) a a'
  | Err e => error_is CommittedRefreshFailed e = false /\ a_config a' = a_config a /\
      (Config.target (a_disk a') = Config.target (a_disk a) \/ Config.target (a_disk a') = Some (to_json (set_auto enabled (a_config a))))
  end.
Proof.
  unfold set_auto_update. intros [(e & Hl & ->) | (a1 & [] & Hl & Hr)]%act_bind_inv; unfold on_sys in Hl;
    pose proof (lock_plain (net := net) (a_sys a)) as Hp; destruct (lock_apply (a_sys a)) as [s x]; injection Hl as <- Hx.
  - subst x. split_and!; [by apply Hp | done | by left].
  - apply act_bind_inv in Hr as [(e & [=] & _) | (a2 & c & [= <- <-] & Hr)].
    apply act_bind_inv in Hr as [(e & Hs & ->) | (a3 & [] & Hs & [= <- <-])].
    + pose proof Hs as Hi. eapply save_config_inv in Hi as (Hc & _ & _ & _ & _ & _ & Hd & Hun). cbn in Hd, Hc. split_and!; [| done |].
      * destruct (error_is PublishedSaveError e) eqn:Hpe; [| by apply Hun]. unfold save_config in Hs.
        destruct (save_outcome _) as [s' [fails torn]]. destruct (save _ _ _ _ _) as [y d] eqn:Hsave. injection Hs as _ ->.
        unfold save in Hsave. repeat case_bool_decide; try discriminate Hsave; by injection Hsave as <- _.
      * rewrite Hd. destruct (error_is _ _); [by right | by left].
    + eapply save_config_inv in Hs as (_ & _ & _ & _ & _ & _ & Hd & _). split; [done | exact Hd].
Qed.

Lemma switch_told_run enabled p p' an : run_blocking (ReqAutoUpdate enabled) p = Some (p', an) -> switch_told enabled p p' an.
Proof.
  unfold run_blocking. cbn [change operation_of]. destruct (set_auto_update enabled (p_app p)) as [[a r] |] eqn:Hs; [| done].
  apply set_auto_run in Hs. destruct r as [u | e]; cbn.
  - unfold refreshed. destruct (load_status _) as [p2 [e | s]] eqn:Hl; pose proof (load_status_same _ _ _ Hl) as [[Hc _ _ _ Hd] Hdg Hst];
      intros [= <- <-]; cbn in *; destruct Hs as [H1s H2s]; (split; [done |]); [by split; congruence |].
    split; [by split; congruence |]. apply load_status_shows in Hl. destruct Hl as [Hv Hf Hg]. by split; rewrite ?Hc, ?Hst, ?Hdg.
  - intros [= <- <-]. destruct Hs as (He & Hc & Hd). cbn. rewrite He. by split_and!.
Qed.

End Panel.

(** ** What does not leave the agent *)

Section Secrets.
Context {net : Type} `{Ipnet net} {rx db sys : Type} `{Observed sys} (interface : string) (c : controller_config).
#[local] Notation panel := (panel (net := net) (rx := rx) (db := db) (sys := sys)).

Definition with_config (p : panel) : panel :=
  let a := p_app p in
  Panel (App (a_sys a) (a_disk a) (a_store a) (a_geodata a) c (a_active a) (a_dns_vpn a) (a_degraded a)) (p_stats p).

(** A program that never looks at the configuration. *)
Definition blind {A} (m : eff panel error A) : Prop := forall p, m (with_config p) = (with_config (m p).1, (m p).2).

Lemma blind_bind {A B} (m : eff panel error A) (k : A -> eff panel error B) : blind m -> (forall x, blind (k x)) -> blind (m ≫= k).
Proof.
  intros Hm Hk p. unfold mbind, eff_bind. rewrite Hm. destruct (m p) as [p1 [e | x]]; cbn; [done | apply Hk].
Qed.

Lemma blind_fmap {A B} (f : A -> B) (m : eff panel error A) : blind m -> blind (f <$> m).
Proof. intros Hm p. unfold fmap, eff_fmap. rewrite Hm. by destruct (m p) as [p1 [e | x]]. Qed.

Lemma blind_ret {A} (x : A) : blind (mret x).
Proof. done. Qed.

Lemma blind_require b e : blind (require b e).
Proof. by destruct b. Qed.

Lemma blind_here {A} (f : sys -> A) : blind (here f).
Proof. done. Qed.

Lemma blind_observe {A} (f : sys -> sys * result A) : blind (observe f).
Proof. intros p. unfold observe. cbn. by destruct (f (a_sys (p_app p))) as [s r]. Qed.

#[local] Hint Resolve blind_ret blind_require blind_here blind_observe : core.

Lemma blind_sample : blind sample_traffic.
Proof.
  unfold sample_traffic. repeat (apply blind_bind; [done || apply blind_here | intros ?]).
  destruct (default _ _) as [r t]. destruct (Stats.sample _ _ _ _) as [answer t']. by apply blind_bind.
Qed.

Lemma blind_status config : blind (status_from interface config).
Proof.
  unfold status_from. apply blind_bind; [done |]. intros up. apply blind_bind; [destruct up; [by apply blind_fmap | done] |].
  intros peer. apply blind_bind; [apply blind_sample | intros [stats history]].
  repeat (apply blind_bind; [done | intros ?]). done.
Qed.

Lemma status_view config config' : public_view config = public_view config' ->
  status_from (net := net) (rx := rx) (db := db) interface config = status_from interface config'.
Proof. intros [= Hx Ha Hn Hk Hs Hr]. unfold status_from. by rewrite Hx, Ha, Hn, Hk, Hs, Hr. Qed.

(** The status shows no more of a configuration than its [public_view]: private keys and host keys, which
    the view has not, make no difference. *)
Lemma status_hides_secrets (p : panel) :
  public_view c = public_view (a_config (p_app p)) -> (load_status interface (with_config p)).2 = (load_status interface p).2.
Proof.
  intros Hv. unfold load_status, mbind, eff_bind, here, read. cbn. destruct (config_poisoned _); [done |]. cbn.
  rewrite blind_status. cbn. by rewrite (status_view _ _ Hv).
Qed.
End Secrets.

(** A redirect leads to the panel: by its name, or by its address and port; what follows is the path. *)
Lemma redirect_stays lan_address http_port https_port u pq h location :
  redirect lan_address http_port https_port u pq h = Some location ->
  exists authority, location = ("https://" +:+ authority +:+ default "/" pq)%string
    /\ (authority = AP_DOMAIN \/ authority = (show_ipv4 lan_address +:+ ":" +:+ show https_port)%string).
Proof.
  unfold redirect. intros (host & _ & (destination & Hd & [= <-])%bind_Some)%bind_Some. unfold redirect_destination in Hd.
  case_bool_decide; [injection Hd as <-; eexists; split; [| by left]; done |].
  case_bool_decide; [| done]. injection Hd as <-. eexists. split; [| by right]. cbn. by rewrite !string_app_assoc.
Qed.

(** ** Examples *)

Module SamplePanel.
(** Paths as they are, methods as they are. *)
#[global] Instance axum : Axum := {
  matched rs path := find_first (fun r => bool_decide (r_path r = path)) rs;
  dispatched ms m := snd <$> find_first (fun me => bool_decide (me.1 = m)) ms;
}.

#[global] Instance axum_laws : AxumLaws.
Proof.
  split.
  - intros rs path r (i & Hi & _)%find_first_Some. by eapply list_elem_of_lookup_2.
  - intros ms m e ([m' e'] & Hr & ->)%fmap_Some. exists m'.
    apply find_first_Some in Hr as (i & Hi & _). by eapply list_elem_of_lookup_2.
Qed.

(** The session of a first setup, and its request for a change. *)
Definition let_in_request : request := Request POST (Uri None "/api/mode") sample_client.
Definition fresh : service := Service sample_finished.1 LIMIT [].
Definition one_running := serve sample_now sample_os 0 8443 let_in_request fresh.

Definition stranger : request := Request POST (Uri None "/api/mode") sample_headers.

Example a_stranger_is_refused : match (serve sample_now sample_os 0 8443 stranger fresh).2 with Refused r => r_status r = 401 | _ => False end.
Proof. lazy. reflexivity. Qed.

Lemma one_running_ok : serve sample_now sample_os 0 8443 let_in_request fresh = (one_running.1, Private SetMode).
Proof. lazy. reflexivity. Qed.

Lemma guarded_fresh : reachable_service sample_now sample_os 0 8443 fresh.
Proof. apply Started. Qed.

(** A router whose tunnel is up when the guard is not. *)
#[global] Instance observed : Observed PlainRouter.t := {
  config_poisoned _ := false;
  stats_poisoned _ := false;
  service_active s := (s, Ok (negb (PlainRouter.guarded s)));
  wireguard_peers s := (s, Ok []);
  statistics name _ := if bool_decide (name = "rx_bytes"%string) then Some "100 "%string else Some "7"%string;
  unix_time _ := 1000;
  table_exists _ := true;
  dns_active _ := true;
  read_file _ _ := Some "updated "%string;
  path_exists _ _ := false;
  run_updater s := (s, Ok true);
}.

#[global] Instance observed_laws {net} `{Ipnet net} : ObservedLaws net PlainRouter.t.
Proof. by split; intros s s' r [= <- <-]. Qed.

Definition sample_panel (sync_fails : bool) : panel := Panel (sample_app sync_fails) fresh_tracker.

Notation handle q sync_fails :=
  (run_blocking (net := PrefixNet.t) (rx := unit) (db := MemTable.t) (sys := PlainRouter.t)
    (fun _ _ _ => None) (fun _ _ => false) to_ascii_lowercase sample_idna sample_to_json
    (fun _ => false) (fun _ => false) sample_lan 1053 (PanelPorts 80 443) "gt0" q (sample_panel sync_fails)).

(** What is seen of a run, without the text of the file. *)
Definition seen (x : option (panel (net := PrefixNet.t) (rx := unit) (db := MemTable.t) (sys := PlainRouter.t) * answer))
  : option (Z * option bool * bool) :=
  '(p, an) ← x;
  Some (match an with
        | Answer n (StatusBody s) => (n, None, as_vpn_enabled s)
        | Answer n (ErrorReply _ b) => (n, Some b, vpn_enabled (a_config (p_app p)))
        end).

Example enabled : seen (handle (ReqMode true) false) = Some (200, None, true).
Proof. by vm_compute. Qed.

(** The last sync fails: the change is in force and the answer says so. *)
Lemma enabled_uncertain : seen (handle (ReqMode true) true) = Some (500, Some true, true).
Proof. by vm_compute. Qed.

Example refused_rules : seen (handle (ReqSelectServer " nobody ") false) = Some (500, Some false, false).
Proof. by vm_compute. Qed.
End SamplePanel.

Lemma private_requests_guarded_witness :
  exists before x, sv_running SamplePanel.one_running.1 = before ++ [x] /\ run_endpoint x = SetMode
    /\ run_auth x = sample_finished.1.
Proof.
  destruct (private_requests_guarded sample_now sample_os 0 8443 _ _ _ _ SamplePanel.guarded_fresh SamplePanel.one_running_ok)
    as (_ & before & x & Hx & He & _ & Ha).
  exists before, x. exact (conj Hx (conj He Ha)).
Defined.

