(* ===== verification/ApiManaged.v ===== *)
(** * The panel's handlers for managed servers (crates/gofro-agent/src/api/managed.rs)

    Each handler runs one operation of [Managed] on its inputs, some of them
    trimmed, and answers with what it returned. An enrolment answers with a
    stream of events instead: [streamed] runs it over the agent's state
    together with what was sent so far. *)

From stdpp Require Import base gmap strings list.
From Stdlib Require Import Ascii ZArith Lia.
From S2P Require Import Prelude RustStd IpAddr Net Peers Model Config Ssh Api Managed Effects.

(** ** Requests and answers *)

Inductive managed_request :=
| ReqProbe (host : string) (port : Z)
| ReqResetHostPin (host : string) (port : Z)
| ReqCheck (key : string)
| ReqUpdateManaged (key : string)
| ReqCreateProfile (key : string)
| ReqStatus (key : string)
| ReqRestart (key : string)
| ReqWarp (key : string) (enabled accept_terms : bool)
| ReqCreateFriend (key name : string)
| ReqRenameFriend (key peer_key name : string)
| ReqRevokeFriend (key peer_key : string)
| ReqFriendProfile (key peer_key : string).

Inductive managed_reply :=
| StatusReply (s : managed_server_status)
| VersionReply (v : version)
| ProfileReply (profile : string)
| ProbeReply (p : host_probe)
| TrueReply.

(** What is sent while a server is enrolled. *)
Inductive bootstrap_event :=
| StageEvent (stage : bootstrap_stage)
| CompleteEvent (status : agent_status)
| ErrorEvent (stage : bootstrap_stage) (message : string).

(** The last stage, and what went into the channel. *)
Record stream := Stream { st_stage : bootstrap_stage; st_events : list bootstrap_event }.

(** The closure [progress]. *)
Definition send_stage (s : bootstrap_stage) (st : stream) : stream := Stream s (st_events st ++ [StageEvent s]).

Definition beside {W T A} (f : W -> W * A) (x : W * T) : (W * T) * A := let '(w, r) := f x.1 in ((w, x.2), r).

(** The agent with the channel: only the stages go into it. *)
#[export] Instance streamed {W} `{Vps W} : Vps (W * stream) := {
  the_config x := the_config x.1;
  saved_config x := saved_config x.1;
  operation_running x := operation_running x.1;
  wait_operation := beside wait_operation;
  report s x := (report s x.1, send_stage s x.2);
  preserve_host_pins c := beside (preserve_host_pins c);
  pin_host h p k := beside (pin_host h p k);
  key_present x := key_present x.1;
  management_key := beside management_key;
  management_public_key := beside management_public_key;
  keyscan h p := beside (keyscan h p);
  fingerprint k := beside (fingerprint k);
  write_known_hosts t := beside (write_known_hosts t);
  ssh c := beside (ssh c);
  sshpass c := beside (sshpass c);
  add_server s := beside (add_server s);
}.

Section Handlers.
Context {W : Type} `{Vps W} {net : Type} `{Ipnet net}.
Variable parse_status : string -> option managed_server_status.
Variable read_capabilities : string -> option capabilities_json.
Variable name_json : string -> string.
Variable show_status : exit_status -> string.
Variable SERVER_INSTALLER : string.
(* pins.rs: removing the pin of a host; api.rs: [load_status] *)
Variable remove_pin : string -> Z -> W -> W * result unit.
Variable load_status : W -> W * result agent_status.

#[local] Notation M := (eff W error).
#[local] Notation status := (status parse_status show_status).
#[local] Notation bootstrap := (bootstrap (net := net) read_capabilities show_status SERVER_INSTALLER).

Definition probe_server (host : string) (port : Z) : M managed_reply := ProbeReply <$> probe (trim host) port.

(** The handler [reset_host_pin] *)
Definition reset_pin (host : string) (port : Z) : M managed_reply :=
  reset_host_pin (trim host) port (remove_pin (trim host) port) ;; mret TrueReply.

(** The handler [set_warp] *)
Definition put_warp (key : string) (enabled accept_terms : bool) : M managed_reply :=
  StatusReply <$> set_warp parse_status show_status key enabled accept_terms.

Definition handle_managed (q : managed_request) : M managed_reply :=
  match q with
  | ReqProbe host port => probe_server host port
  | ReqResetHostPin host port => reset_pin host port
  | ReqCheck key => VersionReply <$> check show_status (trim key)
  | ReqUpdateManaged key => VersionReply <$> Managed.update show_status (trim key)
  | ReqCreateProfile key => ProfileReply <$> create_profile show_status (trim key)
  | ReqStatus key => StatusReply <$> status (trim key)
  | ReqRestart key => StatusReply <$> restart parse_status show_status (trim key)
  | ReqWarp key enabled accept_terms => put_warp key enabled accept_terms
  | ReqCreateFriend key name => StatusReply <$> create_friend parse_status name_json show_status key name
  | ReqRenameFriend key peer_key name => StatusReply <$> rename_friend parse_status name_json show_status key peer_key name
  | ReqRevokeFriend key peer_key => StatusReply <$> revoke_friend parse_status show_status key peer_key
  | ReqFriendProfile key peer_key => ProfileReply <$> friend_profile show_status key peer_key
  end.

(** The answer: the reply, or the error with its outcome. *)
Definition answer_managed (r : error + managed_reply) : answer + managed_reply :=
  match r with inr reply => inr reply | inl e => inl (api_error e) end.

(** [bootstrap_server], the operation of its stream *)
Definition bootstrap_operation (name host : string) (port : Z) (password : string) : eff (W * stream) error agent_status :=
  bootstrap (trim name) (trim host) port password ;;
  r ← try (calls (beside load_status));
  or_error r "VPS enrolled, but local status could not be read. Refresh the server list before retrying.".

(** [bootstrap_stream]: the operation runs to its end whoever listens, and one terminal event ends the stream. *)
Definition bootstrap_stream (name host : string) (port : Z) (password : string) (w : W) : W * list bootstrap_event :=
  let '((w, st), r) := bootstrap_operation name host port password (w, Stream Waiting []) in
  (w, st_events st ++ [match r with
                       | inr status => CompleteEvent status
                       | inl e => ErrorEvent (st_stage st) (error_display e)
                       end]).

(** ** What is sent *)

(** The stages [l] went into the channel. *)
Definition sends (l : list bootstrap_stage) (x x' : W * stream) : Prop :=
  x'.2 = foldl (fun st s => send_stage s st) x.2 l.

Definition sends_nothing (x x' : W * stream) : Prop := x'.2 = x.2.

#[local] Instance sends_nothing_preorder : PreOrder sends_nothing.
Proof. split; [done | unfold sends_nothing; intros x y z; congruence]. Qed.

Lemma sends_app l k x y z : sends l x y -> sends k y z -> sends (l ++ k) x z.
Proof. unfold sends. intros -> ->. by rewrite foldl_app. Qed.

Lemma sends_events l x x' : sends l x x' ->
  st_events x'.2 = st_events x.2 ++ (StageEvent <$> l) /\ st_stage x'.2 = default (st_stage x.2) (last l).
Proof.
  unfold sends. intros ->. generalize (x.2) as st. induction l as [| s l IH] using rev_ind; intros st; cbn.
  - by rewrite app_nil_r.
  - rewrite foldl_app, fmap_app, last_snoc. cbn. destruct (IH st) as [-> _]. by rewrite app_assoc.
Qed.

Lemma calls_beside_nothing {A} (f : W -> W * result A) : preserves sends_nothing (calls (beside f)).
Proof. intros x x' r. unfold calls, beside. destruct (f x.1) as [w y]. by intros [= <- <-]. Qed.

Lemma asks_beside_nothing {A} (f : W -> W * A) : preserves sends_nothing (asks (beside f)).
Proof. intros x x' r. unfold asks, beside. destruct (f x.1) as [w y]. by intros [= <- <-]. Qed.

Lemma reports_sends stages x x' r : reports stages x = (x', r) -> sends stages x x' /\ r = inr tt.
Proof.
  unfold reports. intros [= <- <-]. split; [| done]. unfold sends. revert x.
  induction stages as [| s stages IH]; intros x; [done |]. cbn. by rewrite IH.
Qed.

(** A program that sends one of the lists of [L], or the beginning of one when it fails. *)
Definition emits {A} (L : list bootstrap_stage -> Prop) (m : eff (W * stream) error A) : Prop := forall x x' r, m x = (x', r) ->
  exists k, sends k x x' /\ match r with inr _ => L k | inl _ => exists l, L l /\ k `prefix_of` l end.

Definition exactly (k l : list bootstrap_stage) : Prop := l = k.

Definition followed (L K : list bootstrap_stage -> Prop) (l : list bootstrap_stage) : Prop := exists a b, L a /\ K b /\ l = a ++ b.

Lemma emits_nothing {A} (m : eff (W * stream) error A) : preserves sends_nothing m -> emits (exactly []) m.
Proof. intros Hm x x' r Hr. apply Hm in Hr. exists []. split; [done |]. destruct r; [by exists [] | done]. Qed.

Lemma emits_bind {A B} (L K : list bootstrap_stage -> Prop) (m : eff (W * stream) error A) (f : A -> eff (W * stream) error B) k0 :
  K k0 -> emits L m -> (forall v, emits K (f v)) -> emits (followed L K) (m ≫= f).
Proof.
  intros Hk0 Hm Hf x x' r [(e & Hr & ->) | (x1 & v & Hv & Hr)]%bind_run.
  - apply Hm in Hr as (k & Hk & l & Hl & Hpre). exists k. split; [done |]. exists (l ++ k0). split; [by exists l, k0 |].
    by apply prefix_app_r.
  - apply Hm in Hv as (a & Ha & HLa). apply Hf in Hr as (b & Hb & HKb). exists (a ++ b). split; [by eapply sends_app |].
    destruct r as [e | y]; [| by exists a, b]. destruct HKb as (l & Hl & Hpre). exists (a ++ l). split; [by exists a, l |].
    by apply prefix_app.
Qed.

Lemma emits_weaken {A} (L K : list bootstrap_stage -> Prop) (m : eff (W * stream) error A) :
  (forall l, L l -> K l) -> emits L m -> emits K m.
Proof.
  intros HLK Hm x x' r (k & Hk & Hr)%Hm. exists k. split; [done |]. destruct r; [| by apply HLK].
  destruct Hr as (l & Hl & Hp). exists l. split; [by apply HLK | done].
Qed.

(** What sends nothing before or after what matters. *)
Lemma emits_after {A B} (L : list bootstrap_stage -> Prop) (m : eff (W * stream) error A) (f : A -> eff (W * stream) error B) k0 :
  L k0 -> preserves sends_nothing m -> (forall v, emits L (f v)) -> emits L (m ≫= f).
Proof.
  intros Hk0 Hm Hf. eapply emits_weaken; [| eapply emits_bind; [exact Hk0 | by apply emits_nothing | exact Hf]].
  by intros l (a & b & -> & Hb & ->).
Qed.

Lemma emits_then {A B} (L : list bootstrap_stage -> Prop) (m : eff (W * stream) error A) (f : A -> eff (W * stream) error B) :
  emits L m -> (forall v, preserves sends_nothing (f v)) -> emits L (m ≫= f).
Proof.
  intros Hm Hf. eapply emits_weaken; [| eapply (emits_bind L (exactly [])); [done | exact Hm | intros v; by apply emits_nothing]].
  intros l (a & b & Ha & -> & ->). by rewrite app_nil_r.
Qed.

Lemma reports_emits stages : emits (exactly stages) (reports stages).
Proof. intros x x' r [Hs ->]%reports_sends. by exists stages. Qed.

(** Programs of [Managed] that report no stage. *)
Ltac silently :=
  preserved; first [apply calls_beside_nothing | apply asks_beside_nothing].

Lemma key_ssh_nothing m remote input : preserves sends_nothing (key_ssh (W := W * stream) show_status m remote input).
Proof. unfold key_ssh. silently. Qed.

Lemma trust_host_nothing host port : preserves sends_nothing (trust_host (W := W * stream) host port).
Proof. unfold trust_host, probe. silently. Qed.

Definition remote_stages (l : list bootstrap_stage) : Prop := sublist l [Inspect; Install; Authorize].

Lemma password_ssh_emits host port known password remote :
  emits remote_stages (password_ssh (W := W * stream) show_status host port known password remote).
Proof.
  unfold password_ssh. apply (emits_after _ _ _ []); [apply sublist_nil_l | apply asks_beside_nothing |].
  intros run. destruct run as [reads e | reads st stderr];
    (apply emits_then; [| intros []; preserved]);
    (eapply emits_weaken; [| apply reports_emits]); intros l ->; apply stages_exact.
Qed.

Lemma install_emits m password : emits (followed (exactly [Connect]) remote_stages) (install (W := W * stream) show_status SERVER_INSTALLER m password).
Proof.
  unfold install.
  assert (followed (exactly [Connect]) remote_stages [Connect]) as Hne by (exists [Connect], []; split_and!; [done | apply sublist_nil_l | done]).
  apply (emits_after _ _ _ _ Hne); [apply calls_beside_nothing |]. intros [].
  apply (emits_after _ _ _ _ Hne); [apply calls_beside_nothing |]. intros public.
  apply (emits_after _ _ _ _ Hne); [apply calls_beside_nothing |]. intros [].
  eapply (emits_bind _ _ _ _ []); [apply sublist_nil_l | apply reports_emits |]. intros []. apply password_ssh_emits.
Qed.

#[local] Hint Resolve key_ssh_nothing : eff.

Lemma enroll_router_emits m name : emits (exactly [Profile]) (enroll_router (W := W * stream) (net := net) read_capabilities show_status m name).
Proof.
  unfold enroll_router. apply (emits_after _ _ _ [Profile]); [done | apply key_ssh_nothing |]. intros capabilities.
  apply (emits_after _ _ _ [Profile]); [done | unfold require_owner_protocol, or_error; preserved |]. intros [].
  apply emits_then; [apply reports_emits |]. intros []. unfold or_error. preserved.
Qed.

Lemma save_enrollment_emits m server private public : emits (exactly [Save]) (save_enrollment (W := W * stream) show_status m server private public).
Proof.
  unfold save_enrollment. apply emits_then; [apply reports_emits |]. intros []. unfold rollback_enrollment. preserved.
  apply calls_beside_nothing.
Qed.

(** The stages after the first of an enrolment that succeeds. *)
Definition later_stages : list bootstrap_stage -> Prop :=
  followed (exactly [HostKey]) (followed (followed (exactly [Connect]) remote_stages) (followed (exactly [Profile]) (exactly [Save]))).

Lemma later_stages_shape l : later_stages l -> exists remote, remote_stages remote /\ l = [HostKey; Connect] ++ remote ++ [Profile; Save].
Proof.
  intros (a & b & -> & (c & d & (e & remote & -> & Hremote & ->) & (f & g & -> & -> & ->) & ->) & ->). by exists remote.
Qed.

Lemma bootstrap_operation_stages name host port password x x' r :
  bootstrap_operation name host port password x = (x', r) ->
  exists stages remote, sends (Waiting :: stages) x x' /\ remote_stages remote /\
    match r with
    | inr _ => stages = [HostKey; Connect] ++ remote ++ [Profile; Save]
    | inl _ => stages `prefix_of` [HostKey; Connect] ++ remote ++ [Profile; Save]
    end.
Proof.
  unfold bootstrap_operation, Managed.bootstrap. rewrite bind_assoc.
  intros [(e & [_ [=]]%reports_sends & _) | (x1 & [] & [Hw _]%reports_sends & Hr)]%bind_run.
  assert (later_stages ([HostKey; Connect] ++ [] ++ [Profile; Save])) as Hne.
  { exists [HostKey], [Connect; Profile; Save]. split_and!; [done | | done]. exists [Connect], [Profile; Save].
    split_and!; [| by exists [Profile], [Save] | done]. exists [Connect], []. split_and!; [done | apply sublist_nil_l | done]. }
  match type of Hr with ?m x1 = _ => assert (emits later_stages m) as Hm end.
  { apply emits_then; [| intros []; unfold or_error; preserved; apply calls_beside_nothing].
    do 5 (apply (emits_after _ _ _ _ Hne); [preserved | intros ?]).
    eapply (emits_bind _ _ _ _ ([Connect] ++ [Profile; Save])); [| apply reports_emits |].
    { exists [Connect], [Profile; Save]. split_and!; [| by exists [Profile], [Save] | done].
      exists [Connect], []. split_and!; [done | apply sublist_nil_l | done]. }
    intros []. apply (emits_after _ _ _ ([Connect] ++ [Profile; Save])); [| apply trust_host_nothing |].
    { exists [Connect], [Profile; Save]. split_and!; [| by exists [Profile], [Save] | done].
      exists [Connect], []. split_and!; [done | apply sublist_nil_l | done]. }
    intros host_key. cbv zeta. eapply (emits_bind _ _ _ _ [Profile; Save]); [by exists [Profile], [Save] | apply install_emits |].
    intros []. eapply (emits_bind _ _ _ _ [Save]); [done | apply enroll_router_emits |]. intros [[server private] public].
    apply save_enrollment_emits. }
  apply Hm in Hr as (k & Hk & HL). destruct r as [e | s].
  - destruct HL as (l & (remote & Hremote & ->)%later_stages_shape & Hpre). exists k, remote.
    split_and!; [by eapply (sends_app [Waiting] k) | done | done].
  - apply later_stages_shape in HL as (remote & Hremote & ->). exists ([HostKey; Connect] ++ remote ++ [Profile; Save]), remote.
    split_and!; [by eapply (sends_app [Waiting]) | done | done].
Qed.

(** C33. The stream of an enrolment. Whatever the host, ssh, the installer and the configuration answer, the
    browser receives the stages the enrolment has gone through, in the order waiting, host key, connect,
    inspect, install, authorize, profile, save and each at most once, and then exactly one terminal
    event: the status after all local stages were gone through, or an error that names the last stage
    sent. *)
Theorem bootstrap_stream_contract name host port password w :
  exists stages remote terminal,
    (bootstrap_stream name host port password w).2 = (StageEvent <$> Waiting :: stages) ++ [terminal]
    /\ sublist remote [Inspect; Install; Authorize]
    /\ match terminal with
       | StageEvent _ => False
       | CompleteEvent _ => stages = [HostKey; Connect] ++ remote ++ [Profile; Save]
       | ErrorEvent stage _ => stages `prefix_of` [HostKey; Connect] ++ remote ++ [Profile; Save] /\ stage = default Waiting (last stages)
       end.
Proof.
  unfold bootstrap_stream. destruct (bootstrap_operation _ _ _ _ _) as [[w' st] r] eqn:Hr.
  apply bootstrap_operation_stages in Hr as (stages & remote & [Hev Hst]%sends_events & Hremote & Hs). cbn [fst snd] in *.
  exists stages, remote. eexists. split_and!; [by rewrite Hev | done |]. destruct r as [e | s]; [| done].
  split; [done |]. rewrite Hst. by destruct stages as [| s stages'] using rev_ind; [| rewrite app_comm_cons, !last_snoc].
Qed.
End Handlers.
