(* ===== verification/Assets.v ===== *)
(** * The panel page (crates/gofro-agent/src/api/assets.rs)

    Which encoding of a built file a browser is sent, and how long it may keep
    it.  The files come out of the build of the web panel: their contents and
    fingerprints are arguments, the headers and the query those of axum. *)

From stdpp Require Import base strings list.
From Stdlib Require Import Ascii ZArith Lia.
From S2P Require Import Prelude RustStd Auth.

(** ** The functions *)

Inductive asset_encoding := Identity | Gzip.

#[export] Instance asset_encoding_eq_dec : EqDecision asset_encoding.
Proof. solve_decision. Defined.

(** [str::eq_ignore_ascii_case] *)
Definition eq_ignore_ascii_case (a b : string) : bool := bool_decide (to_ascii_lowercase a = to_ascii_lowercase b).

(** Thousandths.  The multiplication is that of [u16]. *)
Definition parse_quality (value : string) : option Z :=
  let '(whole, fraction) := default (value, ""%string) (split_once "."%char value) in
  if (3 <? slen fraction) || negb (forallb is_ascii_digit (chars fraction)) then None
  else if bool_decide (whole = "0"%string) then Some (default 0 (parse_u16 fraction) * 10 ^ (3 - slen fraction) mod 2 ^ 16)
  else if bool_decide (whole = "1"%string) && forallb (eqb_ascii "0"%char) (chars fraction) then Some 1000
  else None.

(** The parameters of one coding, left to right: the last [q] counts. *)
Definition read_parameter (quality : Z) (parameter : string) : Z :=
  match split_once "="%char parameter with
  | Some (name, value) => if eq_ignore_ascii_case (trim name) "q" then default 0 (parse_quality (trim value)) else quality
  | None => quality
  end.

(** One element of the header: its name and its quality. *)
Definition read_coding (coding : string) : string * Z :=
  match split ";"%char coding with
  | name :: parameters => (trim name, foldl read_parameter 1000 parameters)
  | [] => (""%string, 1000)
  end.

(** The three variables of the loop. *)
Record qualities := Qualities { gzip_quality : option Z; identity_quality : option Z; wildcard_quality : option Z }.

Definition raise (quality : Z) (old : option Z) : option Z := Some (Z.max (default 0 old) quality).

Definition note_coding (q : qualities) (coding : string) : qualities :=
  let '(encoding, quality) := read_coding coding in
  if eq_ignore_ascii_case encoding "gzip" then Qualities (raise quality (gzip_quality q)) (identity_quality q) (wildcard_quality q)
  else if eq_ignore_ascii_case encoding "identity" then Qualities (gzip_quality q) (raise quality (identity_quality q)) (wildcard_quality q)
  else if bool_decide (encoding = "*"%string) then Qualities (gzip_quality q) (identity_quality q) (raise quality (wildcard_quality q))
  else q.

Definition note_header (q : qualities) (value : string) : qualities :=
  match to_str value with Some value => foldl note_coding q (split ","%char value) | None => q end.

Definition preferred_encoding (h : headers) : option asset_encoding :=
  if decide (get_all "accept-encoding" h = []) then Some Identity
  else
    let q := foldl note_header (Qualities None None None) (get_all "accept-encoding" h) in
    let gzip := default 0 (match gzip_quality q with Some g => Some g | None => wildcard_quality q end) in
    let identity := default (if decide (wildcard_quality q = Some 0) then 0 else 1000) (identity_quality q) in
    if (gzip =? 0) && (identity =? 0) then None
    else if identity <=? gzip then Some Gzip
    else Some Identity.

(** What [asset_response] puts into its response. *)
Record asset := Asset {
  as_status : Z;
  as_type : string;
  as_cache : string;
  as_vary : string;
  as_encoding : option string;
  as_body : string;
}.

Definition IMMUTABLE : string := "public, max-age=31536000, immutable".

Definition asset_response (query : option string) (h : headers) (content_type fingerprint identity gzip : string) : asset :=
  let requested := query ≫= strip_prefix "v=" in
  let stale := match requested with Some r => negb (bool_decide (r = fingerprint)) | None => false end in
  let encoding := preferred_encoding h in
  let compressed := bool_decide (encoding = Some Gzip) in
  let none := bool_decide (encoding = None) in
  Asset
    (if stale then 404 else if none then 406 else 200)
    content_type
    (if bool_decide (requested = Some fingerprint) && negb none then IMMUTABLE else "no-store")
    "Accept-Encoding"
    (if negb stale && negb none && compressed then Some "gzip"%string else None)
    (if stale || none then ""%string else if compressed then gzip else identity).

(** ** What the header asks for *)

Definition decimals (digits : list Z) : string := str (digit_char <$> digits).

(** A quality as RFC 9110 writes it, in thousandths: [0] or [0.ddd] with at most
    three decimals, or [1] and [1.000] with at most three zeros. *)
Inductive qvalue : string -> Z -> Prop :=
| qvalue_zero : qvalue "0" 0
| qvalue_below ds : (length ds <= 3)%nat -> Forall (fun d => 0 <= d < 10) ds ->
    qvalue ("0." +:+ decimals ds) (100 * nth 0 ds 0 + 10 * nth 1 ds 0 + nth 2 ds 0)
| qvalue_one : qvalue "1" 1000
| qvalue_full n : (n <= 3)%nat -> qvalue ("1." +:+ decimals (repeat 0 n)) 1000.

(** The value of a parameter named [q]. *)
Definition q_parameter (parameter : string) : option string :=
  split_once "="%char parameter ≫= fun '(name, value) =>
    if bool_decide (to_ascii_lowercase (trim name) = "q"%string) then Some (trim value) else None.

(** The last parameter of that name decides; without one the quality is whole, and
    one that is no quality refuses. *)
Inductive quality_of : list string -> Z -> Prop :=
| quality_default ps : Forall (fun p => q_parameter p = None) ps -> quality_of ps 1000
| quality_read before p after v q :
    q_parameter p = Some v -> Forall (fun p => q_parameter p = None) after ->
    qvalue v q -> quality_of (before ++ p :: after) q
| quality_unread before p after v :
    q_parameter p = Some v -> Forall (fun p => q_parameter p = None) after ->
    (forall q, ~ qvalue v q) -> quality_of (before ++ p :: after) 0.

(** The name and the quality that one element states. *)
Definition coding_says (coding : string) (c : string * Z) : Prop :=
  exists name parameters, split ";"%char coding = name :: parameters /\ c.1 = trim name /\ quality_of parameters c.2.

(** The elements over all lines of the header, in order. *)
Definition elements (h : headers) : list string := omap to_str (get_all "accept-encoding" h) ≫= split ","%char.

(** The highest quality of the elements that a name covers. *)
Definition best (covers : string -> bool) (l : list (string * Z)) : option Z :=
  match (filter (fun c => covers c.1) l).*2 with [] => None | q => Some (foldr Z.max 0 q) end.

Definition is_gzip (name : string) : bool := eq_ignore_ascii_case name "gzip".
Definition is_identity (name : string) : bool := eq_ignore_ascii_case name "identity".
Definition is_any (name : string) : bool := bool_decide (name = "*"%string).

(** The weight of an encoding: its own element, or that of everything.  Plain
    text is refused by name or by [*;q=0] only. *)
Definition weight (l : list (string * Z)) (e : asset_encoding) : Z :=
  match e with
  | Gzip => match best is_gzip l with Some q => q | None => default 0 (best is_any l) end
  | Identity => match best is_identity l with Some q => q | None => if decide (best is_any l = Some 0) then 0 else 1000 end
  end.

(** ** Qualities *)

Lemma digit_is a : is_ascii_digit a = true -> exists d, 0 <= d < 10 /\ a = digit_char d.
Proof.
  unfold is_ascii_digit, in_range. intros [H1%Z.leb_le H2%Z.leb_le]%andb_true_iff.
  exists (code a - 48). split; [lia |]. unfold digit_char. rewrite (proj2 (Z.ltb_lt _ _)) by lia.
  rewrite Zplus_minus. unfold of_code, code. by rewrite N2Z.id, ascii_N_embedding.
Qed.

Lemma digit_char_digit d : 0 <= d < 10 -> is_ascii_digit (digit_char d) = true.
Proof.
  intros Hd. assert (d = 0 \/ d = 1 \/ d = 2 \/ d = 3 \/ d = 4 \/ d = 5 \/ d = 6 \/ d = 7 \/ d = 8 \/ d = 9) as H by lia.
  repeat destruct H as [-> | H]; [..| subst d]; done.
Qed.

Lemma digits_are l : forallb is_ascii_digit l = true <-> exists ds, Forall (fun d => 0 <= d < 10) ds /\ l = digit_char <$> ds.
Proof.
  split.
  - induction l as [| a l IH]; [by exists [] |]. intros [(d & Hd & ->)%digit_is (ds & Hds & ->)%IH]%andb_true_iff.
    exists (d :: ds). split; [by constructor | done].
  - intros (ds & Hds & ->). induction Hds; [done |]. cbn. by rewrite digit_char_digit.
Qed.

(** Three decimals are thousandths, and never overflow. *)
Lemma fraction_value ds : (length ds <= 3)%nat -> Forall (fun d => 0 <= d < 10) ds ->
  default 0 (parse_u16 (decimals ds)) * 10 ^ (3 - Z.of_nat (length ds)) mod 2 ^ 16 = 100 * nth 0 ds 0 + 10 * nth 1 ds 0 + nth 2 ds 0
  /\ 0 <= 100 * nth 0 ds 0 + 10 * nth 1 ds 0 + nth 2 ds 0 < 1000.
Proof.
  intros Hlen Hds. destruct ds as [| a ds]; [by vm_compute |]. apply Forall_cons in Hds as [Ha Hds].
  unfold parse_u16, parse_radix, decimals. rewrite chars_str. cbn [fmap list_fmap]. rewrite digit_not_plus by by apply digit_char_digit.
  destruct ds as [| b [| c [| ? ds]]]; cbn in Hlen; [| | | lia]; rewrite ?Forall_cons in Hds; cbn [fmap list_fmap parse_digits];
    rewrite !digit_value_char by lia; (rewrite (proj2 (Z.leb_le _ _)) by (unfold u16_max; lia)); cbn [from_option id length nth];
    (split; [rewrite Z.mod_small |]); cbn; lia.
Qed.

Lemma zeros_are l : forallb (eqb_ascii "0"%char) l = true <-> l = digit_char <$> repeat 0 (length l).
Proof.
  induction l as [| a l IH]; [done |]. cbn. rewrite andb_true_iff, IH. change (digit_char 0) with "0"%char. unfold eqb_ascii.
  rewrite bool_decide_eq_true. split; [intros [<- H]; by f_equal | by intros [= -> H]].
Qed.

(** The part before the first point and the part behind it. *)
Definition at_point (value whole : string) (fraction : list ascii) : Prop :=
  (value = whole /\ fraction = []) \/ value = whole +:+ "." +:+ str fraction.

Lemma parse_quality_at value : exists whole fraction, at_point value whole fraction /\
  parse_quality value =
    if (3 <? Z.of_nat (length fraction)) || negb (forallb is_ascii_digit fraction) then None
    else if bool_decide (whole = "0"%string) then Some (default 0 (parse_u16 (str fraction)) * 10 ^ (3 - Z.of_nat (length fraction)) mod 2 ^ 16)
    else if bool_decide (whole = "1"%string) && forallb (eqb_ascii "0"%char) fraction then Some 1000
    else None.
Proof.
  unfold parse_quality, split_once, slen. destruct (split_once_bytes _ _) as [[a b] |] eqn:E.
  - exists (str a), b. cbn [from_option id]. rewrite chars_str. split; [| done]. right.
    apply split_once_bytes_Some in E as [E _]. apply chars_inj. rewrite E. by rewrite (chars_app (str a)), (chars_app "."), !chars_str.
  - exists value, []. split; [by left | done].
Qed.

Lemma parse_quality_reads value q : parse_quality value = Some q -> qvalue value q.
Proof.
  destruct (parse_quality_at value) as (whole & f & Hat & ->).
  destruct (_ || _) eqn:Hf; [done |]. apply orb_false_iff in Hf as [Hl%Z.ltb_ge (ds & Hds & ->)%negb_false_iff%digits_are].
  rewrite length_fmap in *. case_bool_decide as Hw; [subst whole |].
  - destruct (fraction_value ds) as [Hv _]; [lia | done |]. unfold decimals in Hv. rewrite Hv. intros [= <-].
    destruct Hat as [[-> ->%fmap_nil_inv] | ->]; [constructor | constructor; [lia | done]].
  - case_bool_decide as Hw1; [subst whole | done]. cbn [andb]. destruct (forallb _ _) eqn:Hz; [| done]. intros [= <-].
    apply zeros_are in Hz. rewrite Hz, length_fmap in Hat. destruct Hat as [[-> _] | ->]; [constructor | constructor; lia].
Qed.

Lemma parse_quality_value value q : qvalue value q -> parse_quality value = Some q.
Proof.
  assert (forall a k, eqb_ascii a "."%char = false -> parse_quality (str [a] +:+ "." +:+ str k)
    = if (3 <? Z.of_nat (length k)) || negb (forallb is_ascii_digit k) then None
      else if bool_decide (str [a] = "0"%string) then Some (default 0 (parse_u16 (str k)) * 10 ^ (3 - Z.of_nat (length k)) mod 2 ^ 16)
      else if bool_decide (str [a] = "1"%string) && forallb (eqb_ascii "0"%char) k then Some 1000
      else None) as Hp.
  { intros a k Ha. unfold parse_quality, split_once, slen. rewrite (chars_app (str [a])), (chars_app "."), !chars_str.
    change (chars "." ++ k) with ("."%char :: k). rewrite split_once_bytes_app by by constructor. cbn [from_option id]. by rewrite chars_str. }
  destruct 1 as [| ds Hlen Hds | | n Hn]; [done | | done |].
  - etransitivity; [by apply (Hp "0"%char) |]. rewrite (proj2 (digits_are _)) by eauto. rewrite length_fmap.
    rewrite (proj2 (Z.ltb_ge _ _)) by lia. cbn [orb negb]. rewrite bool_decide_true by done.
    destruct (fraction_value ds) as [Hv _]; [done.. |]. unfold decimals in Hv. by rewrite Hv.
  - etransitivity; [by apply (Hp "1"%char) |]. by destruct n as [| [| [| [| n]]]]; [..| lia].
Qed.

(** The parser reads exactly the qualities of the standard. *)
Lemma parse_quality_spec value q : parse_quality value = Some q <-> qvalue value q.
Proof. split; [apply parse_quality_reads | apply parse_quality_value]. Qed.

Lemma qvalue_bounds value q : qvalue value q -> 0 <= q <= 1000.
Proof. destruct 1 as [| ds Hlen Hds | |]; try lia. destruct (fraction_value ds); [done.. | lia]. Qed.

(** ** Elements *)

Lemma read_parameter_is quality p : read_parameter quality p = match q_parameter p with Some v => default 0 (parse_quality v) | None => quality end.
Proof. unfold read_parameter, q_parameter, eq_ignore_ascii_case. destruct (split_once _ p) as [[n v] |]; [| done].
  change (to_ascii_lowercase "q") with "q"%string. cbn [mbind option_bind]. by destruct (bool_decide _). Qed.

Lemma read_parameters_after ps quality : Forall (fun p => q_parameter p = None) ps -> foldl read_parameter quality ps = quality.
Proof. intros H. revert quality. induction H as [| p ps Hp _ IH]; [done |]. intros quality. cbn [foldl]. by rewrite read_parameter_is, Hp. Qed.

Lemma read_parameters_quality ps : quality_of ps (foldl read_parameter 1000 ps).
Proof.
  induction ps as [| p ps IH] using rev_ind; [by constructor |]. rewrite foldl_app. cbn [foldl]. rewrite read_parameter_is.
  destruct (q_parameter p) as [v |] eqn:Hp.
  - destruct (parse_quality v) as [q |] eqn:Hq; cbn [from_option id].
    + apply parse_quality_spec in Hq. by eapply quality_read.
    + eapply quality_unread; [done.. |]. intros q Hv%parse_quality_spec. congruence.
  - assert (Forall (fun p => q_parameter p = None) [p]) as Hone by by constructor.
    destruct IH as [ps Hall | before p' after v q Hp' Hall Hq | before p' after v Hp' Hall Hq].
    + constructor. by apply Forall_app.
    + rewrite <- app_assoc. cbn. eapply quality_read; [done | by apply Forall_app | done].
    + rewrite <- app_assoc. cbn. eapply quality_unread; [done | by apply Forall_app | done].
Qed.

Lemma quality_of_fold ps q : quality_of ps q <-> q = foldl read_parameter 1000 ps.
Proof.
  split; [| intros ->; apply read_parameters_quality].
  destruct 1 as [ps Hall | before p after v q Hp Hall Hq | before p after v Hp Hall Hq].
  1: by rewrite read_parameters_after.
  all: rewrite foldl_app; cbn [foldl]; rewrite read_parameters_after, read_parameter_is, Hp by done.
  - by apply parse_quality_spec in Hq as ->.
  - destruct (parse_quality v) as [q |] eqn:Ev; [| done]. apply parse_quality_spec in Ev. by destruct (Hq q).
Qed.

Lemma coding_says_read coding c : coding_says coding c <-> c = read_coding coding.
Proof.
  unfold coding_says, read_coding. destruct (split _ coding) as [| name ps] eqn:E.
  - unfold split in E. by apply fmap_nil_inv, split_bytes_nonempty in E.
  - setoid_rewrite quality_of_fold. destruct c as [n q]. cbn. naive_solver.
Qed.

Lemma read_coding_bounds coding : 0 <= (read_coding coding).2 <= 1000.
Proof.
  destruct (proj2 (coding_says_read coding _) eq_refl) as (name & ps & _ & _ & Hq). revert Hq.
  destruct 1 as [| ? ? ? ? ? ? ? H%qvalue_bounds |]; lia.
Qed.

(** What the elements say is what the loop reads. *)
Lemma elements_say cs l : Forall2 coding_says cs l <-> l = read_coding <$> cs.
Proof.
  split.
  - induction 1 as [| coding c cs l Hc _ IH]; [done |]. apply coding_says_read in Hc as ->. cbn. by rewrite <- IH.
  - intros ->. apply Forall2_fmap_r, Forall_Forall2_diag, Forall_forall. intros c _. by apply coding_says_read.
Qed.

(** ** The loop keeps the three maxima *)

Definition summary (l : list (string * Z)) : qualities := Qualities (best is_gzip l) (best is_identity l) (best is_any l).

Lemma best_snoc covers l c : 0 <= c.2 -> best covers (l ++ [c]) = if covers c.1 then raise c.2 (best covers l) else best covers l.
Proof.
  intros Hc. unfold best, raise. rewrite filter_app, fmap_app. rewrite filter_cons, filter_nil.
  destruct (covers c.1) eqn:E; [rewrite decide_True by by apply Is_true_true |
    rewrite decide_False by (by apply Is_true_false_2); by rewrite app_nil_r].
  cbn. destruct (_ <$> _) as [| x q]; cbn; f_equal; [lia |].
  rewrite foldr_app. cbn. revert x. induction q as [| y q IH]; intros x; cbn; [lia |]. specialize (IH y). lia.
Qed.

Lemma lower_other a b c : to_ascii_lowercase b <> to_ascii_lowercase c -> eq_ignore_ascii_case a b = true -> eq_ignore_ascii_case a c = false.
Proof. intros Hbc Hb%bool_decide_eq_true. apply bool_decide_false. congruence. Qed.

Lemma note_coding_summary l coding : note_coding (summary l) coding = summary (l ++ [read_coding coding]).
Proof.
  pose proof (read_coding_bounds coding) as [Hb _]. unfold note_coding, summary. rewrite !best_snoc by done.
  destruct (read_coding coding) as [name q]. cbn [fst snd]. unfold is_gzip, is_identity, is_any.
  destruct (eq_ignore_ascii_case name "gzip") eqn:Eg.
  - rewrite (lower_other name "gzip" "identity") by first [exact Eg | by vm_compute]. cbn.
    rewrite bool_decide_false by (intros ->; by vm_compute in Eg). done.
  - destruct (eq_ignore_ascii_case name "identity") eqn:Ei; [| by case_bool_decide].
    rewrite bool_decide_false by (intros ->; by vm_compute in Ei). done.
Qed.

Lemma note_header_summary l value :
  note_header (summary l) value = summary (l ++ (read_coding <$> (option_list (to_str value) ≫= split ","%char))).
Proof.
  unfold note_header. destruct (to_str value) as [v |]; [| by rewrite app_nil_r].
  change (option_list (Some v) ≫= split ","%char) with (split ","%char v ++ []). rewrite app_nil_r.
  revert l. induction (split ","%char v) as [| c cs IH]; intros l; [by rewrite app_nil_r |].
  cbn [foldl fmap list_fmap]. rewrite note_coding_summary, IH, <- app_assoc. done.
Qed.

Lemma headers_summary values l :
  foldl note_header (summary l) values = summary (l ++ (read_coding <$> (omap to_str values ≫= split ","%char))).
Proof.
  revert l. induction values as [| v values IH]; intros l; [by rewrite app_nil_r |].
  cbn [foldl]. rewrite note_header_summary, IH, <- app_assoc. f_equal. f_equal. cbn [omap list_omap].
  destruct (to_str v) as [t |]; [| done].
  change (option_list (Some t) ≫= split ","%char) with (split ","%char t ++ []). rewrite app_nil_r, <- fmap_app. done.
Qed.

(** ** What is served *)

(** C37. Every element of an Accept-Encoding header states the quality that RFC 9110 gives
    its text, in thousandths from 0 to 1000 and without overflow, with the last
    [q] deciding and an unreadable one refusing; and the encoding of a file is the
    acceptable one of the greatest weight, compressed on a tie: no encoding is served that
    the browser refused, and nothing is served only when both are refused. *)
Theorem preferred_encoding_best h :
  exists l, (forall l', Forall2 coding_says (elements h) l' <-> l' = l)
  /\ Forall (fun c => 0 <= c.2 <= 1000) l
  /\ preferred_encoding h =
       if decide (get_all "accept-encoding" h = []) then Some Identity
       else if decide (weight l Gzip = 0 /\ weight l Identity = 0) then None
       else if decide (weight l Identity <= weight l Gzip) then Some Gzip
       else Some Identity.
Proof.
  exists (read_coding <$> elements h). split_and!.
  - intros l'. apply elements_say.
  - apply Forall_fmap, Forall_forall. intros c _. apply read_coding_bounds.
  - unfold preferred_encoding. destruct (decide (get_all _ h = [])); [done |].
    rewrite (headers_summary _ [] : foldl _ (Qualities None None None) _ = _). cbn [summary app gzip_quality identity_quality wildcard_quality].
    fold (elements h). set (l := read_coding <$> elements h).
    replace (default 0 _) with (weight l Gzip) by (unfold weight; by destruct (best is_gzip _)).
    replace (default (if decide _ then 0 else 1000) _) with (weight l Identity)
      by (unfold weight; by destruct (best is_identity _)).
    destruct (decide (_ /\ _)) as [[-> ->] | Hn]; [done |].
    replace (_ && _) with false by (symmetry; apply andb_false_iff; rewrite !Z.eqb_neq; lia).
    destruct (decide _) as [Hle | Hgt]; [by apply Z.leb_le in Hle as -> |]. by apply Z.nle_gt, Z.leb_gt in Hgt as ->.
Qed.

(** What a response may be kept for, and what is in it. *)
Theorem asset_response_contract query h content_type fingerprint identity gzip :
  let a := asset_response query h content_type fingerprint identity gzip in
  (as_status a = 200 <-> preferred_encoding h <> None
     /\ forall v, query ≫= strip_prefix "v=" = Some v -> v = fingerprint)
  /\ (as_status a <> 200 -> as_body a = ""%string /\ as_cache a = "no-store"%string /\ as_encoding a = None)
  /\ (as_status a = 200 -> as_body a = (if as_encoding a then gzip else identity)
       /\ (as_encoding a = Some "gzip"%string <-> preferred_encoding h = Some Gzip))
  /\ (as_cache a = IMMUTABLE <-> as_status a = 200 /\ query ≫= strip_prefix "v=" = Some fingerprint).
Proof.
  unfold asset_response. cbn. destruct (query ≫= _) as [r |]; destruct (preferred_encoding h) as [[] |]; cbn;
    repeat case_bool_decide; cbn; try congruence; split_and!; naive_solver.
Qed.

(** The cases of the tests beside the code. *)
Example weighs_the_tested_headers :
  (fun v => preferred_encoding [("accept-encoding", v)]%string)
    <$> ["br, gzip"; "gzip;q=0, *;q=1"; "gzip;q=0.1, identity;q=1"; "gzip;q=0, identity;q=0"; "*;q=0"; "GZIP;Q=0.001;q=x"]%string
  = [Some Gzip; Some Identity; Some Identity; None; None; Some Identity].
Proof. by vm_compute. Qed.
